(* ===== verification/_CoqProject ===== *)
-Q . S2P
Prelude.v
Irq.v
Monad.v
Locks.v
Memory.v
CString.v
Ulib.v
Grep.v
Sh.v
ShSpec.v
ShParse.v
ShRun.v
Printf.v
Console.v
ConsoleSpec.v
Kbd.v
Mmu.v
Apic.v
Uart.v
Mp.v
Dma.v
Umalloc.v
UmallocSpec.v
Uprog.v
Bmp.v
Libos.v
Spinlock.v
Kalloc.v
Vm.v
Seg.v
Asm.v
Start.v
Smp.v
VmSpec.v
Uvm.v
Kvm.v
FsState.v
FsLayout.v
Bio.v
Ide.v
IdeSpec.v
Boot.v
BlockSpec.v
Log.v
LogSpec.v
Txn.v
Fs.v
Bitmap.v
FsSpec.v
FileSpec.v
WriteSpec.v
WriteiSpec.v
FsDemo.v
InodeSpec.v
Mkfs.v
MkfsSpec.v
Dir.v
Kernel.v
KernelSpec.v
Pipe.v
PipeSpec.v
File.v
Proc.v
SysArg.v
ArgSpec.v
SysProc.v
Exec.v
ExecSpec.v
SysFile.v
ExIde.v
Syscall.v
FileRefs.v
FirstRun.v
Fork.v
ProcSpec.v
SchedSpec.v
KernelDemo.v
Uutil.v
Utests.v
UtestsSpec.v
