(* ===== verification/Prelude.v ===== *)
(** * RainOS: a verification of the kernel and its user programs

    RainOS is a 32-bit x86 teaching kernel of the xv6 family with exokernel
    extensions, and the user programs that come with it.  This library models
    the C code under src/ as Rocq functions and proves that it does what it is
    meant to do.  This file holds the documentation of the whole and the
    prelude: machine integers, little-endian bytes, list and search lemmas,
    ring buffers and the arithmetic tactics that the other files share.

    ** How the program is put together

    A system call enters through the stubs of usys.S, the vectors and
    trapasm.S, trap (trap.c) and the table of syscall.c.  The calls of
    sysfile.c, sysproc.c, sysmem.c and sysfs.c fetch their arguments from the
    memory of the process and use the process table (proc.c, swtch.S), the open
    files (file.c, pipe.c), the file system (fs.c) and the page tables (vm.c).
    The file system changes blocks only inside transactions of log.c, which
    works on the buffer cache (bio.c), which works on a disk driver (memide.c or
    ide.c), on a disk that mkfs.c has laid out.  Page tables and heaps are built
    from the pages of kalloc.c.  Every structure has a spin lock (spinlock.c).
    Device input arrives through lapic.c, ioapic.c, picirq.c, console.c, kbd.c
    and uart.c.  The machine is started by bootasm.S, bootmain.c, entry.S and
    main.c, the other processors by entryother.S, from the tables mp.c reads.
    User programs run on ulib.c, printf.c and umalloc.c.

    ** How it is modelled

    Integers are [Z] with the wrap-around of their width written out.  Memory is
    a function from addresses to bytes (Memory), so that page tables, free lists,
    heap headers and strings live in the same bytes as in the program.  Kernel
    code is written in a monad (Monad) whose outcomes are: a result, a panic, a
    sleep on a wait channel with the state in which the process is parked, and a
    fault such as a null pointer.  Panics, sleeps and faults are therefore values
    that theorems speak about.  Each component has a state record; Kernel puts
    the records together and runs each component inside the whole.  Devices are
    classes of register or port accesses with laws.  Assembly is a list of
    instructions on the registers of a processor.  User programs are interaction
    trees over their system calls, of which the theorems take all traces.

    - Spinlock: spinlock.c on several CPUs, cut at every access to the lock
      word; Locks: the view of one thread that all other components use.
    - Kalloc: kalloc.c.  Mmu, Vm: mmu.h, memlayout.h, vm.c.  Seg: the part of
      vm.c and trap.c that loads descriptor tables and page tables.
    - FsState, FsLayout, Bio, Log, Fs, Dir: buf.h, file.h, fs.h, bio.c, memide.c,
      log.c, fs.c.  Ide: ide.c over a drive given by its port accesses.  Mkfs:
      mkfs.c.  Boot: bootmain.c over the same drive.
    - Kernel, Pipe, File, Proc: the kernel state, pipe.c, file.c, proc.c.
    - SysArg, SysProc, Exec, SysFile, ExIde, Syscall: argument fetching of
      syscall.c, sysproc.c with sysmem.c, exec.c, sysfile.c, ex_ide.c with
      sysfs.c, and the dispatch of syscall.c and trap.c.
    - Asm: swtch.S, trapasm.S, vectors.pl and the stubs of usys.S, whose names
      and numbers are in Syscall; Start: bootasm.S, entry.S, entryother.S on
      a processor with its modes; Smp: startothers, mpenter, mpmain of main.c.
    - Irq, Apic, Uart, Mp, Dma: x86.h and picirq.c with timer.c, ioapic.c with
      lapic.c, uart.c, mp.c, dma.h.
    - Console, Kbd: console.c, kbd.c; ring buffers are below.
    - CString, Ulib, Printf, Umalloc, Grep, Sh: string.c, ulib.c, printf.c,
      umalloc.c, grep.c, sh.c.  Bmp, Libos: load_bmp of app_ex_file.c and
      app_mono_file.c, the allocator of libos.h.
    - Uprog: system calls as events, and traces; Uutil: cat.c, echo.c, init.c,
      kill.c, ln.c, ls.c, mkdir.c, rm.c, wc.c, zombie.c, stressfs.c, forktest.c;
      Utests: usertests.c; app_mono_mem.c is in UtestsSpec.

    Definitions keep the names of the C functions; a definition that stands for
    a part of a function (a loop body, an error exit) is named after what it does.
    A pointer into a table of the kernel is the index of the entry.

    ** What is proved

    - Locks: mutual exclusion in every interleaving of CPUs, and that the code
      implements the lock view of the other files (Spinlock).
    - Memory: kalloc and kfree implement a list of pages (Kalloc); mappages,
      allocuvm, deallocuvm and copyout have their exact effect on page tables
      read as functions (VmSpec, Uvm); setupkvm maps the kernel and copyuvm
      copies a user space page by page onto frames of its own (Kvm).
    - Disk and log: the cache implements a block store (BlockSpec); a crash at
      any write of a commit, or of recovery itself, leaves a disk from which
      recovery reaches the state before or after the transaction (LogSpec, Txn);
      the interrupt-driven driver serves its requests in order under any
      interleaving and agrees with the synchronous one (IdeSpec).
    - Files: balloc, bmap, readi and writei on file contents, reading back what
      was written, the inode cache (Bitmap, FsSpec, FileSpec, WriteSpec,
      WriteiSpec, InodeSpec; FsDemo is a small disk they are applied to); the
      kernel reads from an image of mkfs the files that were put there (MkfsSpec).
    - Processes and descriptors: invariants over every history of system calls,
      blocking, wakeups and switches: reference counts equal the descriptors that
      exist, the process table is consistent, a runnable process gets its turn in
      the sweep of the scheduler whatever the others do with theirs, a failed
      exec leaves the caller as it was (KernelSpec, FileRefs, ProcSpec,
      SchedSpec, ExecSpec; KernelDemo runs concrete calls); the registers survive
      swtch and a trap with its call of trap() (Asm); a new process starts in user
      mode at its entry (FirstRun), and fork returns twice (Fork).
    - Arguments: which user pointers and strings are accepted (ArgSpec); each
      stub reaches the handler of its name (Syscall).
    - Start: the boot loader loads the kernel (Boot); the assembly of the three
      entries leaves the processor in the mode C code needs (Start); in every
      interleaving each other processor starts on a stack of its own, and all
      of them start, by the messages that the local APIC sends (Smp); the firmware tables are read correctly (Mp); gates
      lead into the kernel (Seg); the interrupt controllers, the serial line and
      the DMA controller are programmed as asked (Apic, Irq, Uart, Dma).
    - Streams: a pipe delivers its bytes in order (PipeSpec); the console editor
      implements a line editor and stays on the screen (ConsoleSpec); scan codes
      become the characters of the keys that were pressed (Kbd).
    - User level: string routines byte by byte (CString); number formatting and
      its inverse (Printf); the heap stays tiled and live blocks never overlap
      (UmallocSpec); the matcher agrees with the meaning of patterns (Grep); the
      shell parses every line to an end, builds the tree the grammar says
      (ShSpec, ShParse) and starts the programs of a line on the right files
      (ShRun); cat copies, wc counts, init keeps one shell (Uutil); the pipe
      test of usertests judges the pipe rightly, and the heap benchmark frees
      only what it holds (UtestsSpec); load_bmp reverses the rows of a picture
      that arrives while it waits (Bmp).
    - Errors of the program that the model shows are stated as theorems about
      concrete or general states, for example a negative count in read, a frame
      that is handed out twice, an unlinked inode that is never freed, a size
      that wraps around in malloc, a wait for transfers that never come, or a
      test that accepts an empty file.

    ** Bounds

    A loop with a bound in the source is a recursion on that bound.  A loop that
    ends for another reason runs on fuel, and the theorems say which fuel is
    enough: the number of blocks touched for readi and writei, the free list or
    the number of pages for kalloc and vm.c, three calls per character for the
    parser, two tours of the ring for malloc, the length of the queue for iderw,
    the number of processes for a sweep of the scheduler.  A loop that polls a
    device runs on a number of polls that the laws of the device call enough.
    sys_ExFileRead reads a path of at most 4096 bytes in the model.

    ** Limits, and what is not modelled

    - A call that sleeps is modelled up to the sleep, with the state it leaves;
      what it does after waking is a new call (for iderw it is iderw_resume).
    - The kernel state has one CPU; several CPUs appear in Spinlock and Smp.  The
      kernel runs over the synchronous disk; IdeSpec relates it to ide.c.  The
      registers of Asm and Start and the kernel state of Kernel are separate;
      FirstRun and Fork join them through the trap frame.
    - main() itself: its calls initialise the state of every component, and each
      is modelled with its component, but the sequence as a whole is not.  The
      breakpoint behind the calls of bootasm.S and entryother.S is left out.
    - The write to the local APIC that ends an interrupt is in Apic, not in the
      trap of Syscall: the kernel state has no APIC.  The drive of ide.c is one
      without media errors.
    - The mains and the print-outs of app_ex_file.c, app_ex_mem.c and
      app_mono_file.c, which measure times; the polling of idewait in ex_ide.c,
      whose result is a parameter; readfile of fs.c, which nothing calls.
      defs.h, user.h and types.h are prototypes.
    - In the shell malloc succeeds and gets delivers lines; sbrk under umalloc.c
      and the drive under ide.c are parameters with stated behaviour.
    - A fork in a user program is one process that goes on with the answer 0 or
      with the number of the child; what two processes do to each other is in
      the kernel's theorems. *)

From stdpp Require Export base list numbers strings gmap sets.
From Stdlib Require Export ZArith Lia ZifyBool.

Open Scope Z_scope.

(** ** Machine integers

    The kernel is 32-bit x86: [uint], pointers and page-table entries are 32
    bits, [ushort] 16 and [uchar] 8.  They are kept as [Z] and every operation
    that can wrap is written with the wrap-around explicit. *)

Definition u8 (z : Z) : Z := z mod 256.
Definition u16 (z : Z) : Z := z mod 65536.
Definition u32 (z : Z) : Z := z mod 4294967296.

(** Two's-complement readings of a 16- and a 32-bit word. *)
Definition s16 (z : Z) : Z :=
  let w := u16 z in if w <? 32768 then w else w - 65536.
Definition s32 (z : Z) : Z :=
  let w := u32 z in if w <? 2147483648 then w else w - 4294967296.

(** [zlia]: [lia] after turning [mod], [/] and the words into equations. *)
Ltac zlia :=
  unfold s32, s16, u8, u16, u32 in *; cbv zeta in *;
  Z.to_euclidean_division_equations; lia.

Ltac zbool :=
  repeat match goal with
  | H : andb _ _ = true |- _ => apply andb_true_iff in H as [? ?]
  | H : orb _ _ = false |- _ => apply orb_false_iff in H as [? ?]
  | H : negb _ = true |- _ => apply negb_true_iff in H
  | H : negb _ = false |- _ => apply negb_false_iff in H
  | H : (_ =? _) = true |- _ => apply Z.eqb_eq in H
  | H : (_ =? _) = false |- _ => apply Z.eqb_neq in H
  | H : (_ <? _) = true |- _ => apply Z.ltb_lt in H
  | H : (_ <? _) = false |- _ => apply Z.ltb_ge in H
  | H : (_ <=? _) = true |- _ => apply Z.leb_le in H
  | H : (_ <=? _) = false |- _ => apply Z.leb_gt in H
  | H : (_ =? _)%nat = true |- _ => apply Nat.eqb_eq in H
  | H : (_ =? _)%nat = false |- _ => apply Nat.eqb_neq in H
  | H : (_ <? _)%nat = true |- _ => apply Nat.ltb_lt in H
  | H : (_ <? _)%nat = false |- _ => apply Nat.ltb_ge in H
  end.

(** [zcase b]: case analysis on a boolean comparison, reflected into [Prop]. *)
Ltac zcase b := let E := fresh "E" in destruct b eqn:E; zbool.

(** [zif]: case analysis on the first [if] of the goal. *)
Ltac zif :=
  match goal with
  | |- context [if ?b then _ else _] => zcase b
  end.

Create HintDb kernel.
Create HintDb words.
Create Rewrite HintDb words_rw.

Lemma u8_range z : 0 <= u8 z < 256.
Proof. zlia. Qed.

Lemma u16_range z : 0 <= u16 z < 65536.
Proof. zlia. Qed.

Lemma u32_range z : 0 <= u32 z < 4294967296.
Proof. zlia. Qed.

Lemma u8_small z : 0 <= z < 256 -> u8 z = z.
Proof. apply Z.mod_small. Qed.

Lemma u16_small z : 0 <= z < 65536 -> u16 z = z.
Proof. apply Z.mod_small. Qed.

Lemma u32_small z : 0 <= z < 4294967296 -> u32 z = z.
Proof. apply Z.mod_small. Qed.

Lemma u8_idem z : u8 (u8 z) = u8 z.
Proof. apply u8_small, u8_range. Qed.

Lemma u32_idem z : u32 (u32 z) = u32 z.
Proof. apply u32_small, u32_range. Qed.

Lemma s32_small z : 0 <= z < 2147483648 -> s32 z = z.
Proof. intros; unfold s32; cbv zeta. rewrite u32_small by lia. zif; lia. Qed.

Lemma s32_range z : -2147483648 <= s32 z < 2147483648.
Proof. pose proof (u32_range z); unfold s32; cbv zeta; zif; lia. Qed.

Lemma s16_range z : -32768 <= s16 z < 32768.
Proof. pose proof (u16_range z); unfold s16; cbv zeta; zif; lia. Qed.

(** A 16-bit field stores a [short] without loss. *)
Lemma s16_u16 z : -32768 <= z < 32768 -> s16 (u16 z) = z.
Proof.
  intros. unfold s16; cbv zeta. rewrite (u16_small (u16 z)) by apply u16_range.
  zif; zlia.
Qed.

#[export] Hint Rewrite u8_idem u32_idem : words_rw.
#[export] Hint Resolve u8_range u16_range u32_range : words.

(** ** Bit fields *)

(** Or-ing flags into the free low bits of an aligned word is addition. *)
Lemma lor_low a x k :
  0 <= k -> a mod 2 ^ k = 0 -> 0 <= x < 2 ^ k -> Z.lor a x = a + x.
Proof.
  intros Hk Ha Hx. symmetry. apply Z.add_nocarry_lor.
  apply Z.bits_inj'; intros n Hn. rewrite Z.land_spec, Z.bits_0.
  destruct (n <? k) eqn:E; zbool.
  - rewrite <- (Z.mod_pow2_bits_low a k n) by lia. rewrite Ha, Z.bits_0. done.
  - rewrite <- (Z.mod_small x (2 ^ k)) by lia. rewrite (Z.mod_pow2_bits_high x k n) by lia.
    apply andb_false_r.
Qed.

(** Masking with [2^k - 1] keeps the low bits; masking with its complement
    clears them. *)
Lemma land_mask a k : 0 <= k -> Z.land a (2 ^ k - 1) = a mod 2 ^ k.
Proof.
  intros. rewrite <- Z.land_ones by done. f_equal. rewrite Z.ones_equiv. lia.
Qed.

Lemma land_lnot_mask a k : 0 <= k -> Z.land a (Z.lnot (2 ^ k - 1)) = a - a mod 2 ^ k.
Proof.
  intros Hk. rewrite <- land_mask by done.
  assert (Z.land a (Z.lnot (2 ^ k - 1)) + Z.land a (2 ^ k - 1) = a); [|lia].
  rewrite Z.add_nocarry_lor.
  - rewrite <- Z.land_lor_distr_r. rewrite (Z.lor_comm (Z.lnot _)), Z.lor_lnot_diag.
    apply Z.land_m1_r.
  - apply Z.bits_inj'; intros n Hn. rewrite !Z.land_spec, Z.lnot_spec, Z.bits_0 by done.
    by destruct (Z.testbit a n), (Z.testbit (2 ^ k - 1) n).
Qed.

(** ** Little-endian bytes

    On-disk structures, page-table words and pointers stored in memory are
    little-endian; a byte is a [Z] read modulo 256. *)

Fixpoint le_bytes (n : nat) (z : Z) : list Z :=
  match n with
  | O => []
  | S n => u8 z :: le_bytes n (z / 256)
  end.

Fixpoint le_val (l : list Z) : Z :=
  match l with
  | [] => 0
  | b :: l => u8 b + 256 * le_val l
  end.

Lemma length_le_bytes n z : length (le_bytes n z) = n.
Proof. revert z; induction n; intros; simpl; auto. Qed.

Lemma le_val_bytes n z : le_val (le_bytes n z) = z mod 256 ^ Z.of_nat n.
Proof.
  revert z; induction n as [|n IH]; intros z.
  - simpl. rewrite Z.mod_1_r. done.
  - cbn [le_bytes le_val]. rewrite IH, u8_idem, Nat2Z.inj_succ, Z.pow_succ_r by lia.
    rewrite Z.rem_mul_r by (pose proof (Z.pow_pos_nonneg 256 (Z.of_nat n)); lia).
    reflexivity.
Qed.

Lemma le_val_bytes4 z : le_val (le_bytes 4 z) = u32 z.
Proof. rewrite le_val_bytes. reflexivity. Qed.

Lemma le_val_bytes2 z : le_val (le_bytes 2 z) = u16 z.
Proof. rewrite le_val_bytes. reflexivity. Qed.

(** A list of bytes: every element in range. *)
Definition bytes (l : list Z) : Prop := Forall (fun b => 0 <= b < 256) l.

Lemma le_bytes_bytes n z : bytes (le_bytes n z).
Proof.
  revert z; induction n as [|n IH]; intros; simpl; constructor.
  - apply u8_range.
  - apply IH.
Qed.

Lemma le_bytes_val l : bytes l -> le_bytes (length l) (le_val l) = l.
Proof.
  induction 1 as [|b l Hb Hl IH]; simpl; [done|].
  rewrite (u8_small b) by lia. f_equal.
  - zlia.
  - replace ((b + 256 * le_val l) / 256) with (le_val l) by zlia. exact IH.
Qed.

Lemma le_val_range l : 0 <= le_val l < 256 ^ Z.of_nat (length l).
Proof.
  induction l as [|b l IH]; [cbn; lia|].
  cbn [le_val length]. rewrite Nat2Z.inj_succ, Z.pow_succ_r by lia.
  pose proof (u8_range b). lia.
Qed.

(** ** Lists as memory buffers *)

(** [splice off src dst]: the buffer [dst] after the bytes [src] were copied
    over it from offset [off] on. *)
Definition splice {A} (off : nat) (src dst : list A) : list A :=
  take off dst ++ src ++ drop (off + length src) dst.

(** [slice off n l]: the [n] elements of [l] from offset [off] on. *)
Definition slice {A} (off n : nat) (l : list A) : list A := take n (drop off l).

Lemma length_splice {A} off (src dst : list A) :
  (off + length src <= length dst)%nat -> length (splice off src dst) = length dst.
Proof.
  intros. unfold splice. rewrite !length_app, length_take, length_drop. lia.
Qed.

Lemma length_slice {A} off n (l : list A) :
  (off + n <= length l)%nat -> length (slice off n l) = n.
Proof. intros. unfold slice. rewrite length_take, length_drop. lia. Qed.

(** Reading back what was just copied. *)
Lemma slice_splice {A} off (src dst : list A) :
  (off <= length dst)%nat -> slice off (length src) (splice off src dst) = src.
Proof.
  intros. unfold slice, splice.
  rewrite drop_app_ge by (rewrite length_take; lia).
  rewrite length_take, Nat.min_l by lia. rewrite Nat.sub_diag, drop_0.
  apply take_app_length.
Qed.

Lemma lookup_splice {A} off (src dst : list A) i :
  (off + length src <= length dst)%nat ->
  splice off src dst !! i =
    if (off <=? i)%nat && (i <? off + length src)%nat then src !! (i - off)%nat
    else dst !! i.
Proof.
  intros Hl. unfold splice. zcase (off <=? i)%nat; simpl.
  - apply Nat.leb_le in E. rewrite lookup_app_r by (rewrite length_take; lia).
    rewrite length_take, Nat.min_l by lia. zcase (i <? off + length src)%nat.
    + rewrite lookup_app_l by lia. done.
    + rewrite lookup_app_r by lia. rewrite lookup_drop. f_equal. lia.
  - apply Nat.leb_gt in E. rewrite lookup_app_l by (rewrite length_take; lia).
    rewrite lookup_take. case_decide; [done|lia].
Qed.

Lemma lookup_slice {A} off n (l : list A) i :
  slice off n l !! i = if (i <? n)%nat then l !! (off + i)%nat else None.
Proof.
  unfold slice. rewrite lookup_take. zcase (i <? n)%nat.
  - rewrite decide_True by lia. apply lookup_drop.
  - rewrite decide_False by lia. done.
Qed.

Lemma lookup_nth {A} (l : list A) i d : (i < length l)%nat -> l !! i = Some (nth i l d).
Proof.
  intros [v Hv]%lookup_lt_is_Some_2. rewrite Hv. f_equal. symmetry. by apply nth_lookup_Some.
Qed.

(** A slice away from the copied range is unchanged. *)
Lemma slice_splice_other {A} off n off' (src dst : list A) :
  (off' + length src <= length dst)%nat ->
  (off + n <= off' \/ off' + length src <= off)%nat ->
  slice off n (splice off' src dst) = slice off n dst.
Proof.
  intros Hl Hd. apply list_eq; intros i. rewrite !lookup_slice.
  zcase (i <? n)%nat; [|done]. rewrite lookup_splice by done.
  zcase (off' <=? off + i)%nat; zcase (off + i <? off' + length src)%nat; simpl; try done.
  apply Nat.leb_le in E0. lia.
Qed.

(** First index satisfying a test: the shape of every table scan
    [for(p = table; p < &table[N]; p++) if(test) ...] of the kernel. *)
Fixpoint find_from {A} (i : nat) (f : A -> bool) (l : list A) : option nat :=
  match l with
  | [] => None
  | x :: l => if f x then Some i else find_from (S i) f l
  end.

Definition find_idx {A} (f : A -> bool) (l : list A) : option nat := find_from 0 f l.

Lemma find_from_Some {A} (f : A -> bool) l i k :
  find_from i f l = Some k <->
  exists j x, k = (i + j)%nat /\ l !! j = Some x /\ f x = true /\
    (forall j' x', (j' < j)%nat -> l !! j' = Some x' -> f x' = false).
Proof.
  revert i; induction l as [|a l IH]; intros i; simpl.
  { split; [done|]. intros (j & x & _ & H & _). done. }
  destruct (f a) eqn:Fa.
  - split.
    + intros [= <-]. exists 0%nat, a. repeat split; [lia|done|]. intros; lia.
    + intros (j & x & -> & Hj & Hx & Hmin). destruct j; [f_equal; lia|].
      specialize (Hmin 0%nat a ltac:(lia) eq_refl). congruence.
  - rewrite IH. split.
    + intros (j & x & -> & Hj & Hx & Hmin). exists (S j), x. repeat split; [lia|done|done|].
      intros [|j'] x' Hlt Hx'; simpl in Hx'; [congruence|]. apply (Hmin j'); [lia|done].
    + intros (j & x & -> & Hj & Hx & Hmin). destruct j as [|j].
      { simpl in Hj. congruence. }
      exists j, x. repeat split; [lia|done|done|].
      intros j' x' Hlt Hx'. apply (Hmin (S j') x'); [lia|done].
Qed.

Lemma find_idx_Some {A} (f : A -> bool) l k :
  find_idx f l = Some k <->
  exists x, l !! k = Some x /\ f x = true /\
    (forall j x', (j < k)%nat -> l !! j = Some x' -> f x' = false).
Proof.
  unfold find_idx. rewrite find_from_Some. split.
  - intros (j & x & -> & H). exists x. exact H.
  - intros (x & H). exists k, x. split; [lia|exact H].
Qed.

Lemma find_from_None {A} (f : A -> bool) l i :
  find_from i f l = None <-> Forall (fun x => f x = false) l.
Proof.
  revert i; induction l as [|a l IH]; intros i; simpl; [split; constructor|].
  destruct (f a) eqn:Fa.
  - split; [done|]. intros H. inversion H. congruence.
  - rewrite IH, Forall_cons. tauto.
Qed.

Lemma find_idx_None {A} (f : A -> bool) l :
  find_idx f l = None <-> Forall (fun x => f x = false) l.
Proof. apply find_from_None. Qed.

Lemma find_idx_lt {A} (f : A -> bool) l k : find_idx f l = Some k -> (k < length l)%nat.
Proof. rewrite find_idx_Some. intros (x & H & _). by eapply lookup_lt_Some. Qed.

(** ** Ring buffers

    The console input buffer and a pipe are arrays indexed by free-running
    32-bit counters taken modulo the size.  [rslice] is the sequence of bytes
    between two counters; the lemmas say what a store at the write counter, a
    load at the read counter and a step back do to it.  They hold across the
    wrap-around of the counters because the size divides 2^32. *)

Section ring.
Context (size : Z).

(** The array cell of a counter. *)
Definition cell (c : Z) : nat := Z.to_nat (u32 c mod size).

Definition rslice (buf : list Z) (r : Z) (n : nat) : list Z :=
  (fun i => nth (cell (r + Z.of_nat i)) buf 0) <$> seq 0 n.

Context (Hdiv : (size | 4294967296)) (Hpos : 0 < size).

Lemma cell_lt c : (cell c < Z.to_nat size)%nat.
Proof using Hpos. unfold cell. pose proof (Z.mod_pos_bound (u32 c) size). lia. Qed.

Lemma cell_mod c : cell c = Z.to_nat (c mod size).
Proof using Hdiv Hpos.
  unfold cell, u32. f_equal. by apply Z.mod_mod_divide.
Qed.

Lemma cell_u32 c : cell (u32 c) = cell c.
Proof. unfold cell. by rewrite u32_idem. Qed.

Lemma cell_inj c i j : 0 <= i < size -> 0 <= j < size -> cell (c + i) = cell (c + j) -> i = j.
Proof using Hdiv Hpos.
  rewrite !cell_mod. intros Hi Hj E.
  pose proof (Z.mod_pos_bound (c + i) size Hpos). pose proof (Z.mod_pos_bound (c + j) size Hpos).
  assert (E' : (c + i) mod size = (c + j) mod size) by lia.
  pose proof (Z.div_mod (c + i) size ltac:(lia)). pose proof (Z.div_mod (c + j) size ltac:(lia)).
  set (q := (c + i) / size) in *. set (q' := (c + j) / size) in *.
  assert (E2 : i - j = size * (q - q')) by (rewrite Z.mul_sub_distr_l; lia).
  assert (q - q' = 0) by nia. nia.
Qed.

Lemma length_rslice buf r n : length (rslice buf r n) = n.
Proof. unfold rslice. by rewrite length_fmap, length_seq. Qed.

Lemma lookup_rslice buf r n i :
  (i < n)%nat -> rslice buf r n !! i = Some (nth (cell (r + Z.of_nat i)) buf 0).
Proof. intros Hi. unfold rslice. rewrite list_lookup_fmap, lookup_seq_lt by done. done. Qed.

Lemma rslice_u32 buf r n : rslice buf (u32 r) n = rslice buf r n.
Proof.
  apply list_fmap_ext. intros i x _. f_equal. rewrite <- cell_u32, <- (cell_u32 (r + _)). f_equal.
  unfold u32. by rewrite Zplus_mod_idemp_l.
Qed.

Lemma rslice_snoc buf r n : rslice buf r (S n) = rslice buf r n ++ [nth (cell (r + Z.of_nat n)) buf 0].
Proof. unfold rslice. rewrite seq_S, fmap_app. done. Qed.

Lemma rslice_cons buf r n : rslice buf r (S n) = nth (cell r) buf 0 :: rslice buf (u32 (r + 1)) n.
Proof.
  rewrite rslice_u32. unfold rslice. cbn [seq fmap list_fmap]. rewrite Z.add_0_r. f_equal.
  rewrite <- fmap_S_seq, <- list_fmap_compose. apply list_fmap_ext. intros i x _. simpl.
  f_equal. f_equal. lia.
Qed.

(** Storing at the write counter appends, as long as the ring is not full. *)
Lemma rslice_push buf r n c :
  length buf = Z.to_nat size -> Z.of_nat n < size ->
  rslice (<[cell (r + Z.of_nat n) := c]> buf) r (S n) = rslice buf r n ++ [c].
Proof using Hdiv Hpos.
  intros Hlen Hn. rewrite rslice_snoc. f_equal.
  - apply list_fmap_ext. intros i x Hx. apply lookup_seq in Hx as [-> Hi]. simpl.
    rewrite !nth_lookup, list_lookup_insert_ne; [done|].
    intros E. apply cell_inj in E; lia.
  - rewrite nth_lookup, list_lookup_insert_eq; [done|]. pose proof (cell_lt (r + Z.of_nat n)). lia.
Qed.

Lemma rslice_app buf r n k : rslice buf r (n + k) = rslice buf r n ++ rslice buf (u32 (r + Z.of_nat n)) k.
Proof.
  revert r. induction n as [|n IH]; intros r; [rewrite rslice_u32; simpl; by rewrite Z.add_0_r|].
  cbn [Nat.add]. rewrite !rslice_cons, IH. cbn [app]. do 2 f_equal. rewrite !rslice_u32.
  rewrite <- (rslice_u32 _ (u32 _ + _)), <- (rslice_u32 _ (r + _)). f_equal.
  unfold u32. rewrite Zplus_mod_idemp_l. f_equal. lia.
Qed.
End ring.
