(* ===== verification/Irq.v ===== *)
(** * Ports, picirq.c, timer.c and ioapic.c: the interrupt controllers

    The drivers are functions of the machine behind the ports.  What the chips
    do with the writes is a hypothesis about that machine: a view of it that
    follows the data sheet of the 8259A, of the 8253 and of the I/O APIC.  The
    theorems say how an interrupt line is delivered after the drivers ran. *)

From S2P Require Import Prelude.

Open Scope Z_scope.

(** ** x86.h: port input and output

    A machine is seen through its ports: [outb] and [inb] as a class, so that a
    driver is a function of the machine it runs on. *)

Class Ports (D : Type) := {
  inb : Z -> D -> Z * D;
  outb : Z -> Z -> D -> D
}.

(** A sequence of writes. *)
Fixpoint outs {D : Type} `{Ports D} (l : list (Z * Z)) (d : D) : D :=
  match l with
  | [] => d
  | (p, v) :: l => outs l (outb p v d)
  end.

(** ** Interrupt numbers *)

Definition T_SYSCALL : Z := 64.
Definition T_IRQ0 : Z := 32.
Definition IRQ_TIMER : Z := 0.
Definition IRQ_KBD : Z := 1.
Definition IRQ_COM1 : Z := 4.
Definition IRQ_IDE : Z := 14.
Definition IRQ_ERROR : Z := 19.
Definition IRQ_SPURIOUS : Z := 31.

(** ** picirq.c *)

Definition IO_PIC1 : Z := 32.    (* 0x20 *)
Definition IO_PIC2 : Z := 160.   (* 0xA0 *)
Definition IRQ_SLAVE : Z := 2.

Section pic.
Context {D : Type} `{Ports D}.

Record picst : Type := mkPic { irqmask : Z; pic_dev : D }.

(** static ushort irqmask = 0xFFFF & ~(1<<IRQ_SLAVE) *)
Definition irqmask0 : Z := Z.land 65535 (Z.lnot (Z.shiftl 1 IRQ_SLAVE)).

Definition picsetmask (mask : Z) (s : picst) : picst :=
  mkPic mask (outs [(IO_PIC1 + 1, u8 mask); (IO_PIC2 + 1, u8 (Z.shiftr mask 8))] (pic_dev s)).

Definition picenable (irq : Z) (s : picst) : picst :=
  picsetmask (u16 (Z.land (irqmask s) (Z.lnot (Z.shiftl 1 irq)))) s.

Definition picinit (s : picst) : picst :=
  let d := outs
    [(IO_PIC1 + 1, 255); (IO_PIC2 + 1, 255);
     (IO_PIC1, 17); (IO_PIC1 + 1, T_IRQ0); (IO_PIC1 + 1, Z.shiftl 1 IRQ_SLAVE); (IO_PIC1 + 1, 3);
     (IO_PIC2, 17); (IO_PIC2 + 1, T_IRQ0 + 8); (IO_PIC2 + 1, IRQ_SLAVE); (IO_PIC2 + 1, 3);
     (IO_PIC1, 104); (IO_PIC1, 10); (IO_PIC2, 104); (IO_PIC2, 10)] (pic_dev s) in
  let s := mkPic (irqmask s) d in
  if negb (irqmask s =? 65535) then picsetmask (irqmask s) s else s.

(** ** timer.c *)

Definition IO_TIMER1 : Z := 64.
Definition TIMER_FREQ : Z := 1193182.
Definition TIMER_DIV (x : Z) : Z := (TIMER_FREQ + x / 2) / x.
Definition TIMER_MODE : Z := IO_TIMER1 + 3.
Definition TIMER_SEL0 : Z := 0.
Definition TIMER_RATEGEN : Z := 4.
Definition TIMER_16BIT : Z := 48.

Definition timer_setup : list (Z * Z) :=
  [(TIMER_MODE, Z.lor (Z.lor TIMER_SEL0 TIMER_RATEGEN) TIMER_16BIT);
   (IO_TIMER1, u8 (TIMER_DIV 100 mod 256)); (IO_TIMER1, u8 (TIMER_DIV 100 / 256))].

Definition timerinit (s : picst) : picst :=
  let d := outs timer_setup (pic_dev s) in
  picenable IRQ_TIMER (mkPic (irqmask s) d).

(** ** The 8259A

    The state of one controller: how many initialisation words it still
    expects, its first vector, the lines its mask register blocks, and the
    wiring of the cascade. *)

Record pic : Type := mkChip { ch_phase : nat; ch_base : Z; ch_imr : Z; ch_cascade : Z }.

Definition chip_port (slave : bool) : Z := if slave then IO_PIC2 else IO_PIC1.

Definition chip_write (base p v : Z) (c : pic) : pic :=
  if p =? base then
    if v =? 17 then mkChip 3 (ch_base c) 0 (ch_cascade c)      (* ICW1: cascaded, ICW4 follows *)
    else c                                                       (* OCW2, OCW3 *)
  else if p =? base + 1 then
    match ch_phase c with
    | 3%nat => mkChip 2 (Z.land v 248) (ch_imr c) (ch_cascade c)
    | 2%nat => mkChip 1 (ch_base c) (ch_imr c) v
    | 1%nat => mkChip 0 (ch_base c) (ch_imr c) (ch_cascade c)
    | _ => mkChip (ch_phase c) (ch_base c) v (ch_cascade c)
    end
  else c.

(** The two controllers of a machine: a port write acts on them as above. *)
Class Has8259 := {
  chip : bool -> D -> pic;
  chip_out : forall slave p v d, chip slave (outb p v d) = chip_write (chip_port slave) p v (chip slave d)
}.

Definition on_slave (irq : Z) : bool := 8 <=? irq.
(** Line [irq] is blocked by its controller. *)
Definition pic_masked `{Has8259} (irq : Z) (d : D) : bool :=
  Z.testbit (ch_imr (chip (on_slave irq) d)) (irq mod 8).
(** The vector the processor is given for it. *)
Definition pic_vector `{Has8259} (irq : Z) (d : D) : Z := ch_base (chip (on_slave irq) d) + irq mod 8.

Definition chip_writes (base : Z) (l : list (Z * Z)) (c : pic) : pic :=
  fold_left (fun c pv => chip_write base (fst pv) (snd pv) c) l c.

Context `{Has8259}.

Lemma chip_outs slave l : forall d, chip slave (outs l d) = chip_writes (chip_port slave) l (chip slave d).
Proof. induction l as [|(p & v) l IH]; intros d; [done|]. cbn [outs chip_writes fold_left]. by rewrite IH, chip_out. Qed.

(** The driver's copy of the mask is the mask of the controllers. *)
Record pic_ready (s : picst) : Prop := {
  pr_mask : 0 <= irqmask s < 65536;
  pr_master : chip false (pic_dev s) = mkChip 0 T_IRQ0 (irqmask s mod 256) (Z.shiftl 1 IRQ_SLAVE);
  pr_slave : chip true (pic_dev s) = mkChip 0 (T_IRQ0 + 8) (irqmask s / 256) IRQ_SLAVE
}.

Lemma picsetmask_ready s mask c0 c1 imr0 imr1 :
  chip false (pic_dev s) = mkChip 0 T_IRQ0 imr0 c0 -> c0 = Z.shiftl 1 IRQ_SLAVE ->
  chip true (pic_dev s) = mkChip 0 (T_IRQ0 + 8) imr1 c1 -> c1 = IRQ_SLAVE ->
  0 <= mask < 65536 -> pic_ready (picsetmask mask s).
Proof.
  intros E0 -> E1 -> Hm. constructor; [done|..]; cbn [irqmask pic_dev picsetmask];
    rewrite chip_outs, ?E0, ?E1; unfold u8; rewrite Z.shiftr_div_pow2 by lia; change (2 ^ 8) with 256.
  - reflexivity.
  - rewrite (Z.mod_small (mask / 256)) by zlia. reflexivity.
Qed.

Lemma picinit_ready s : irqmask s = irqmask0 -> pic_ready (picinit s).
Proof.
  intros E. unfold picinit. cbn [irqmask pic_dev]. rewrite E. change (negb (irqmask0 =? 65535)) with true. cbv iota.
  destruct (chip false (pic_dev s)) as [p0 b0 i0 w0] eqn:E0, (chip true (pic_dev s)) as [p1 b1 i1 w1] eqn:E1.
  eapply picsetmask_ready; cbn [pic_dev]; rewrite ?chip_outs, ?E0, ?E1.
  - destruct p0 as [|[|[|[|p0]]]]; reflexivity.
  - reflexivity.
  - destruct p1 as [|[|[|[|p1]]]]; reflexivity.
  - reflexivity.
  - done.
Qed.

Lemma picenable_ready irq s : pic_ready s -> pic_ready (picenable irq s).
Proof. intros [_ E0 E1]. eapply picsetmask_ready; [exact E0|done|exact E1|done|]. apply u16_range. Qed.

Lemma picenable_bit irq s i : 0 <= irq < 16 -> 0 <= i < 16 ->
  Z.testbit (irqmask (picenable irq s)) i = Z.testbit (irqmask s) i && negb (i =? irq).
Proof.
  intros Hirq Hi. cbn [irqmask picenable picsetmask]. unfold u16. change 65536 with (2 ^ 16).
  rewrite Z.mod_pow2_bits_low, Z.land_spec, Z.lnot_spec, Z.shiftl_1_l, Z.pow2_bits_eqb by lia. f_equal. f_equal.
  destruct (Z.eqb_spec irq i), (Z.eqb_spec i irq); congruence.
Qed.

Lemma ready_line s irq : pic_ready s -> 0 <= irq < 16 ->
  pic_vector irq (pic_dev s) = T_IRQ0 + irq /\ pic_masked irq (pic_dev s) = Z.testbit (irqmask s) irq.
Proof.
  intros [Hm E0 E1] Hi. unfold pic_vector, pic_masked, on_slave. destruct (Z.leb_spec 8 irq).
  - rewrite E1. cbn [ch_base ch_imr]. split; [unfold T_IRQ0; zlia|]. change 256 with (2 ^ 8).
    rewrite <- Z.shiftr_div_pow2, Z.shiftr_spec by zlia. f_equal. zlia.
  - rewrite E0. cbn [ch_base ch_imr]. split; [unfold T_IRQ0; zlia|]. change 256 with (2 ^ 8).
    rewrite Z.mod_pow2_bits_low by zlia. f_equal. zlia.
Qed.

Lemma enables_bits irqs : forall s, pic_ready s -> Forall (fun irq => 0 <= irq < 16) irqs ->
  let s' := fold_left (fun s irq => picenable irq s) irqs s in
  pic_ready s' /\ forall i, 0 <= i < 16 -> Z.testbit (irqmask s') i = Z.testbit (irqmask s) i && negb (bool_decide (i ∈ irqs)).
Proof.
  induction irqs as [|irq irqs IH]; intros s Hr Hall; cbn [fold_left].
  - split; [done|]. intros i _. rewrite bool_decide_eq_false_2 by apply not_elem_of_nil. by rewrite andb_true_r.
  - apply Forall_cons in Hall as (Hirq & Hall).
    destruct (IH _ (picenable_ready irq s Hr) Hall) as (Hr' & Hb). split; [done|].
    intros i Hi. rewrite Hb, picenable_bit by done. rewrite <- andb_assoc. f_equal.
    rewrite (bool_decide_ext (i ∈ irq :: irqs) (i = irq \/ i ∈ irqs)) by apply elem_of_cons.
    destruct (Z.eqb_spec i irq) as [->|Hne]; cbn [negb andb].
    + by rewrite bool_decide_eq_true_2 by (by left).
    + f_equal. apply bool_decide_ext. naive_solver.
Qed.

Lemma irqmask0_bit i : 0 <= i < 16 -> Z.testbit irqmask0 i = negb (i =? IRQ_SLAVE).
Proof.
  intros Hi. unfold irqmask0. rewrite Z.land_spec, Z.lnot_spec, Z.shiftl_1_l, Z.pow2_bits_eqb by (done || lia).
  change 65535 with (Z.ones 16). rewrite Z.ones_spec_low by lia. cbn [andb]. f_equal.
  destruct (Z.eqb_spec i IRQ_SLAVE), (Z.eqb_spec IRQ_SLAVE i); congruence.
Qed.

(** After picinit and any calls of picenable, each of the sixteen lines is
    delivered as vector T_IRQ0 plus its number, and exactly the lines enabled,
    and the one the second controller hangs on, are not masked. *)
Theorem pic_lines s irqs irq :
  irqmask s = irqmask0 -> Forall (fun i => 0 <= i < 16) irqs -> 0 <= irq < 16 ->
  let s' := fold_left (fun s i => picenable i s) irqs (picinit s) in
  pic_vector irq (pic_dev s') = T_IRQ0 + irq /\
  (pic_masked irq (pic_dev s') = false <-> irq ∈ irqs \/ irq = IRQ_SLAVE).
Proof.
  intros E Hall Hi s'. destruct (enables_bits irqs _ (picinit_ready s E) Hall) as (Hr & Hb). fold s' in Hr, Hb.
  destruct (ready_line _ irq Hr Hi) as (Ev & Em). split; [done|]. rewrite Em, Hb by done.
  assert (Ei : irqmask (picinit s) = irqmask0).
  { unfold picinit. cbn [irqmask]. rewrite E. reflexivity. }
  rewrite Ei, irqmask0_bit by done. rewrite andb_false_iff, !negb_false_iff, bool_decide_eq_true, Z.eqb_eq. tauto.
Qed.

(** ** The 8253

    Counter 0 in a mode that takes its count in two bytes. *)

Record pit : Type := mkPit { pt_mode : Z; pt_low : option Z; pt_reload : Z }.

Definition pit_write (p v : Z) (c : pit) : pit :=
  if p =? TIMER_MODE then mkPit v None (pt_reload c)
  else if p =? IO_TIMER1 then
    match pt_low c with
    | None => mkPit (pt_mode c) (Some v) (pt_reload c)
    | Some l => mkPit (pt_mode c) None (l + 256 * v)
    end
  else c.

Class Has8253 := {
  counter : D -> pit;
  counter_out : forall p v d, counter (outb p v d) = pit_write p v (counter d)
}.
Context `{Has8253}.

(** timerinit makes the counter interrupt 100 times a second, to half a tick of
    the clock per period, and enables its line and no other. *)
Lemma timerinit_rate s irq : pic_ready s -> 0 <= irq < 16 ->
  let s' := timerinit s in
  pt_reload (counter (pic_dev s')) = 11932 /\ Z.abs (100 * 11932 - TIMER_FREQ) <= 50 /\
  pic_ready s' /\ pic_masked irq (pic_dev s') = pic_masked irq (pic_dev s) && negb (irq =? IRQ_TIMER).
Proof.
  intros Hr Hi s'. set (s1 := mkPic (irqmask s) (outs timer_setup (pic_dev s))).
  assert (Hr1 : pic_ready s1).
  { destruct Hr as [Hm E0 E1]. constructor; cbn [irqmask pic_dev s1]; [done| |]; rewrite chip_outs, ?E0, ?E1; reflexivity. }
  split_and!.
  - cbn [pic_dev s' timerinit picenable picsetmask outs timer_setup]. rewrite !counter_out. reflexivity.
  - unfold TIMER_FREQ. lia.
  - by apply picenable_ready.
  - destruct (ready_line _ irq (picenable_ready IRQ_TIMER _ Hr1) Hi) as (_ & Em).
    destruct (ready_line _ irq Hr Hi) as (_ & Em0). rewrite Em0. unfold s', timerinit. fold s1.
    rewrite Em, picenable_bit by (unfold IRQ_TIMER; lia). done.
Qed.
End pic.

(** A machine with the two controllers and the counter. *)
Module IrqDemo.

Record board : Type := mkBoard { bd_master : pic; bd_slave : pic; bd_pit : pit }.

#[export] Instance board_ports : Ports board := {|
  inb _ d := (255, d);
  outb p v d := mkBoard (chip_write IO_PIC1 p v (bd_master d)) (chip_write IO_PIC2 p v (bd_slave d)) (pit_write p v (bd_pit d))
|}.

#[export] Instance board_8259 : @Has8259 board _.
Proof. refine {| chip slave d := if slave then bd_slave d else bd_master d |}. by intros [] p v d. Defined.

#[export] Instance board_8253 : @Has8253 board _.
Proof. refine {| counter := bd_pit |}. done. Defined.

(** What main enables on a machine with one processor: keyboard, serial line,
    disk and timer. *)
Definition board0 : board := mkBoard (mkChip 0 8 255 0) (mkChip 0 112 255 0) (mkPit 0 None 0).

Lemma pic_lines_witness :
  let s' := fold_left (fun s i => picenable i s) [IRQ_KBD; IRQ_COM1; IRQ_IDE] (picinit (mkPic irqmask0 board0)) in
  pic_vector IRQ_IDE (pic_dev s') = T_IRQ0 + IRQ_IDE /\
  (pic_masked IRQ_IDE (pic_dev s') = false <-> IRQ_IDE ∈ [IRQ_KBD; IRQ_COM1; IRQ_IDE] \/ IRQ_IDE = IRQ_SLAVE).
Proof.
  apply (pic_lines (mkPic irqmask0 board0) [IRQ_KBD; IRQ_COM1; IRQ_IDE] IRQ_IDE eq_refl).
  - unfold IRQ_KBD, IRQ_COM1, IRQ_IDE. repeat constructor; lia.
  - unfold IRQ_IDE. lia.
Defined.
End IrqDemo.
