(* ===== verification/Monad.v ===== *)
(** * The kernel monad

    Kernel code runs on an explicit state and ends in one of four ways: it
    returns, it calls [panic] (the machine halts), it goes to sleep on a wait
    channel, or it goes wrong (a null pointer is dereferenced).  [wp] is the
    total-correctness reading: the code returns, and the result satisfies the
    postcondition. *)

From S2P Require Import Prelude.

Open Scope Z_scope.

(** The wait channels the kernel sleeps on.  In the C code a channel is the
    address of the object waited for: a buffer, the log, an inode, the two
    ends of a pipe, the tick counter, the console input, a process. *)
Inductive chan : Type :=
| ChBuf (i : nat)
| ChLog
| ChInode (i : nat)
| ChPipeRead (p : Z)
| ChPipeWrite (p : Z)
| ChTicks
| ChInput
| ChProc (i : nat).

#[export] Instance chan_eq_dec : EqDecision chan.
Proof. solve_decision. Defined.

Inductive res (St A : Type) : Type :=
| Ok (a : A) (s : St)
| Panic (msg : string)
| Sleeps (c : chan) (s : St)
| Fault (why : string).

Arguments Ok {St A}.
Arguments Panic {St A}.
Arguments Sleeps {St A}.
Arguments Fault {St A}.

Definition M (St A : Type) : Type := St -> res St A.

Definition ret {St A} (a : A) : M St A := fun s => Ok a s.

Definition bind {St A B} (m : M St A) (k : A -> M St B) : M St B := fun s =>
  match m s with
  | Ok a s' => k a s'
  | Panic msg => Panic msg
  | Sleeps c s' => Sleeps c s'
  | Fault why => Fault why
  end.

Definition panic {St A} (msg : string) : M St A := fun _ => Panic msg.
Definition fault {St A} (why : string) : M St A := fun _ => Fault why.
Definition get {St} : M St St := fun s => Ok s s.
Definition gets {St A} (f : St -> A) : M St A := fun s => Ok (f s) s.
Definition modify {St} (f : St -> St) : M St unit := fun s => Ok tt (f s).

Declare Scope kernel_scope.
Delimit Scope kernel_scope with kernel.

Notation "'do' x <- m ; k" := (bind m (fun x => k))
  (at level 10, x name, m at level 100, k at level 200) : kernel_scope.
Notation "'do' ' p <- m ; k" := (bind m (fun x => match x with p => k end))
  (at level 10, p pattern, m at level 100, k at level 200) : kernel_scope.
Notation "m ;; k" := (bind m (fun _ => k))
  (at level 100, k at level 200, right associativity) : kernel_scope.

Open Scope kernel_scope.

(** [for i from first, count times]: a C [for] loop with a fixed bound. *)
Fixpoint mfor {St} (first count : nat) (body : nat -> M St unit) : M St unit :=
  match count with
  | O => ret tt
  | S n => body first ;; mfor (S first) n body
  end.

(** ** Total correctness *)

Definition wp {St A} (m : M St A) (Q : A -> St -> Prop) (s : St) : Prop :=
  match m s with
  | Ok a s' => Q a s'
  | _ => False
  end.

Section wp_rules.
Context {St : Type}.

Lemma wp_ret {A} (a : A) (Q : A -> St -> Prop) s : Q a s -> wp (ret a) Q s.
Proof. done. Qed.

Lemma wp_get (Q : St -> St -> Prop) s : Q s s -> wp get Q s.
Proof. done. Qed.

Lemma wp_gets {A} (f : St -> A) (Q : A -> St -> Prop) s : Q (f s) s -> wp (gets f) Q s.
Proof. done. Qed.

Lemma wp_modify (f : St -> St) (Q : unit -> St -> Prop) s : Q tt (f s) -> wp (modify f) Q s.
Proof. done. Qed.

Lemma wp_bind {A B} (m : M St A) (k : A -> M St B) (Q : B -> St -> Prop) s :
  wp m (fun a => wp (k a) Q) s -> wp (bind m k) Q s.
Proof. unfold wp, bind. by destruct (m s). Qed.

Lemma wp_conseq {A} (m : M St A) (P Q : A -> St -> Prop) s :
  wp m P s -> (forall a s', P a s' -> Q a s') -> wp m Q s.
Proof. unfold wp. destruct (m s); naive_solver. Qed.

(** [wp] determines the outcome: it is the same as an equation. *)
Lemma wp_iff {A} (m : M St A) (Q : A -> St -> Prop) s :
  wp m Q s <-> exists a s', m s = Ok a s' /\ Q a s'.
Proof.
  unfold wp. destruct (m s) as [a s'|msg|c s'|why].
  - split; [eauto|]. by intros (? & ? & [= <- <-] & ?).
  - split; [done|]. by intros (? & ? & ? & _).
  - split; [done|]. by intros (? & ? & ? & _).
  - split; [done|]. by intros (? & ? & ? & _).
Qed.

Lemma wp_eq {A} (m : M St A) a s s' (Q : A -> St -> Prop) :
  m s = Ok a s' -> Q a s' -> wp m Q s.
Proof. unfold wp. by intros ->. Qed.

Lemma bind_Ok {A B} (m : M St A) (k : A -> M St B) s a s' :
  m s = Ok a s' -> bind m k s = k a s'.
Proof. unfold bind. by intros ->. Qed.

Lemma bind_ret {A B} (a : A) (k : A -> M St B) s : bind (ret a) k s = k a s.
Proof. done. Qed.

(** A loop with an invariant indexed by the iteration. *)
Lemma wp_mfor first count (body : nat -> M St unit) (I : nat -> St -> Prop) s :
  I first s ->
  (forall i s', (first <= i < first + count)%nat -> I i s' ->
     wp (body i) (fun _ => I (S i)) s') ->
  wp (mfor first count body) (fun _ => I (first + count)%nat) s.
Proof.
  revert first s; induction count as [|n IH]; intros first s H0 Hstep; simpl.
  - apply wp_ret. by rewrite Nat.add_0_r.
  - apply wp_bind. eapply wp_conseq; [apply Hstep; [lia|done]|].
    intros [] s' H'. rewrite <- Nat.add_succ_comm. apply IH; [done|].
    intros; apply Hstep; [lia|done].
Qed.

End wp_rules.

(** [wp_step] runs one administrative step of a monadic program. *)
Ltac wp_step :=
  lazymatch goal with
  | |- wp (bind _ _) _ _ => apply wp_bind
  | |- wp (ret _) _ _ => apply wp_ret
  | |- wp get _ _ => apply wp_get
  | |- wp (gets _) _ _ => apply wp_gets
  | |- wp (modify _) _ _ => apply wp_modify
  end.
