(* ===== verification/Locks.v ===== *)
(** * Locks, sleep and wakeup as one kernel thread sees them

    Every component of the kernel runs its critical sections under a spin
    lock and parks itself with [sleep]/[wakeup].  This file holds the view one
    running thread has of that machinery: the locks its CPU holds and the
    wakeups it has issued.  [Spinlock.v] models [spinlock.c] itself, with all
    CPUs, and proves that its [acquire] and [release] implement this view;
    [Proc.v] gives the effect of a wakeup on the process table. *)

From S2P Require Import Prelude Monad.

Open Scope Z_scope.
Open Scope kernel_scope.

(** The spin locks declared in the kernel. *)
Inductive lock : Type :=
| LkKmem | LkBcache | LkLog | LkIcache | LkFtable | LkPtable | LkTicks
| LkIde | LkExBuffer | LkExTransfer | LkCons | LkInput
| LkPipe (p : Z).

#[export] Instance lock_eq_dec : EqDecision lock.
Proof. solve_decision. Defined.

Record thread : Type := mkThread {
  held : list lock;       (* locks this CPU holds, most recent first *)
  wakes : list chan       (* channels woken, most recent first *)
}.

(** States that contain the running thread's view. *)
Class KState (St : Type) := {
  thr : St -> thread;
  set_thr : thread -> St -> St;
  thr_set : forall t s, thr (set_thr t s) = t;
  set_thr_set : forall t t' s, set_thr t (set_thr t' s) = set_thr t s;
  set_thr_thr : forall s, set_thr (thr s) s = s
}.

Create Rewrite HintDb locks_rw.

(** Drop one occurrence of a lock. *)
Fixpoint drop_lock (l : lock) (hs : list lock) : list lock :=
  match hs with
  | [] => []
  | h :: hs => if decide (h = l) then hs else h :: drop_lock l hs
  end.

Lemma elem_of_drop_lock l l' hs : NoDup hs -> l' ∈ drop_lock l hs <-> l' ∈ hs /\ l' <> l.
Proof.
  induction hs as [|h hs IH]; intros Hnd; cbn [drop_lock]; [set_solver|].
  apply NoDup_cons in Hnd as [Hn Hnd]. destruct (decide (h = l)) as [->|]; [set_solver|].
  rewrite !elem_of_cons, IH by done. set_solver.
Qed.

Lemma NoDup_drop_lock l hs : NoDup hs -> NoDup (drop_lock l hs).
Proof.
  induction hs as [|h hs IH]; intros Hnd; cbn [drop_lock]; [done|].
  pose proof Hnd as Hnd'. apply NoDup_cons in Hnd as [Hn Hnd].
  destruct (decide (h = l)); [done|]. constructor; [|by apply IH].
  rewrite elem_of_drop_lock by done. tauto.
Qed.

Lemma length_drop_lock l hs : l ∈ hs -> S (length (drop_lock l hs)) = length hs.
Proof.
  induction hs as [|h hs IH]; intros Hl; [set_solver|]. cbn [drop_lock].
  destruct (decide (h = l)); [done|]. simpl. rewrite IH; [done|set_solver].
Qed.

Section locks.
Context {St : Type} `{KState St}.

Definition holding (l : lock) (s : St) : bool := bool_decide (l ∈ held (thr s)).

Definition set_held (hs : list lock) (s : St) : St :=
  set_thr (mkThread hs (wakes (thr s))) s.

(** [acquire]: taking a lock this CPU already holds panics.  A lock another
    CPU holds is waited for by spinning, which leaves this thread's state as
    it is, so the thread continues with the lock held. *)
Definition acquire (l : lock) : M St unit := fun s =>
  if holding l s then Panic "acquire"
  else Ok tt (set_held (l :: held (thr s)) s).

Definition release (l : lock) : M St unit := fun s =>
  if holding l s then Ok tt (set_held (drop_lock l (held (thr s))) s)
  else Panic "release".

(** [initlock]: the lock is free afterwards. *)
Definition initlock (l : lock) : M St unit :=
  modify (fun s => set_held (drop_lock l (held (thr s))) s).

(** [wakeup]: takes the process-table lock around the scan of the table. *)
Definition wakeup (c : chan) : M St unit :=
  acquire LkPtable ;;
  modify (fun s => set_thr (mkThread (held (thr s)) (c :: wakes (thr s))) s) ;;
  release LkPtable.

(** [sleep]: swaps the caller's lock for the process-table lock and enters
    the scheduler, which insists that this is the only lock held; the state
    reported with the channel is the one in which the thread is parked, with
    the caller's lock released. *)
Definition sleep {A} (c : chan) (l : lock) : M St A :=
  (if decide (l = LkPtable) then ret tt else acquire LkPtable ;; release l) ;;
  fun s =>
    if holding LkPtable s then
      if decide (held (thr s) = [LkPtable]) then Sleeps c (set_held [] s)
      else Panic "sched locks"
    else Panic "sched ptable.lock".

Lemma held_set_held hs s : held (thr (set_held hs s)) = hs.
Proof. unfold set_held. by rewrite thr_set. Qed.

Lemma wakes_set_held hs s : wakes (thr (set_held hs s)) = wakes (thr s).
Proof. unfold set_held. by rewrite thr_set. Qed.

Lemma set_held_set_held hs hs' s : set_held hs (set_held hs' s) = set_held hs s.
Proof. unfold set_held. by rewrite thr_set, set_thr_set. Qed.

Lemma set_held_id s : set_held (held (thr s)) s = s.
Proof.
  unfold set_held.
  destruct (thr s) as [h w] eqn:E; simpl. rewrite <- E. apply set_thr_thr.
Qed.

Lemma acquire_ok l s :
  l ∉ held (thr s) -> acquire l s = Ok tt (set_held (l :: held (thr s)) s).
Proof. intros. unfold acquire, holding. by rewrite bool_decide_false. Qed.

Lemma acquire_again l s : l ∈ held (thr s) -> acquire l s = Panic "acquire".
Proof. intros. unfold acquire, holding. by rewrite bool_decide_true. Qed.

Lemma release_unheld l s : l ∉ held (thr s) -> release l s = Panic "release".
Proof. intros. unfold release, holding. by rewrite bool_decide_false. Qed.

Lemma release_top l hs s :
  held (thr s) = l :: hs -> release l s = Ok tt (set_held hs s).
Proof.
  intros E. unfold release, holding. rewrite E, bool_decide_true by set_solver.
  simpl. by rewrite decide_True.
Qed.

(** An empty critical section leaves the state unchanged. *)
Lemma acquire_release l s :
  l ∉ held (thr s) -> (acquire l ;; release l) s = Ok tt s.
Proof.
  intros. unfold bind. rewrite acquire_ok by done.
  erewrite release_top by apply held_set_held. by rewrite set_held_set_held, set_held_id.
Qed.

Definition add_wake (c : chan) (s : St) : St :=
  set_thr (mkThread (held (thr s)) (c :: wakes (thr s))) s.

Lemma wakeup_ok c s : LkPtable ∉ held (thr s) -> wakeup c s = Ok tt (add_wake c s).
Proof.
  intros. unfold wakeup, bind. rewrite acquire_ok by done. simpl.
  erewrite release_top by (rewrite thr_set, held_set_held; reflexivity).
  unfold set_held, add_wake. by rewrite !thr_set, !set_thr_set.
Qed.

(** Sleeping with exactly the guard lock held parks the thread with no lock. *)
Lemma sleep_ok {A} c l s :
  held (thr s) = [l] -> l <> LkPtable ->
  sleep (A := A) c l s = Sleeps c (set_held [] s).
Proof.
  intros Hh Hl. unfold sleep, bind. rewrite decide_False by done.
  rewrite acquire_ok by (rewrite Hh; set_solver). rewrite Hh.
  unfold release, holding. rewrite held_set_held, bool_decide_true by set_solver.
  simpl. rewrite decide_False by congruence. rewrite decide_True by done.
  rewrite held_set_held, bool_decide_true by set_solver.
  rewrite decide_True by done. by rewrite !set_held_set_held.
Qed.

(** Sleeping while holding a further lock is the scheduler's panic. *)
Lemma sleep_extra_lock {A} c l l' hs s :
  held (thr s) = l :: l' :: hs -> l <> LkPtable -> LkPtable ∉ held (thr s) ->
  sleep (A := A) c l s = Panic "sched locks".
Proof.
  intros Hh Hl Hp. unfold sleep, bind. rewrite decide_False by done.
  rewrite acquire_ok by done. rewrite Hh.
  unfold release, holding. rewrite held_set_held, bool_decide_true by set_solver.
  simpl. rewrite decide_False by congruence. rewrite decide_True by done.
  rewrite held_set_held, bool_decide_true by set_solver.
  by rewrite decide_False by done.
Qed.

End locks.

#[export] Instance thread_KState : KState thread.
Proof. refine {| thr := id; set_thr t _ := t |}; done. Defined.

#[export] Hint Rewrite @held_set_held @wakes_set_held @set_held_set_held @set_held_id
  @thr_set @set_thr_set @set_thr_thr : locks_rw.

#[global] Arguments acquire : simpl never.
#[global] Arguments release : simpl never.
#[global] Arguments wakeup : simpl never.
#[global] Arguments sleep : simpl never.
