(* ===== verification/Memory.v ===== *)
(** * Byte-addressed memory

    The memory the kernel and its programs run in: a byte at every address,
    32-bit words stored little-endian.  Page tables, free lists, heap headers
    and strings all live in it, so that aliasing between them is the code's
    own.  Two memories are equivalent when every byte reads the same; the
    operations respect that equivalence. *)

From S2P Require Import Prelude.
From Stdlib Require Import Setoid Morphisms.

Open Scope Z_scope.

Definition mem : Type := Z -> Z.

Definition load8 (m : mem) (a : Z) : Z := u8 (m a).
Definition store8 (m : mem) (a v : Z) : mem := fun x => if x =? a then u8 v else m x.

Definition load32 (m : mem) (a : Z) : Z :=
  le_val [m a; m (a + 1); m (a + 2); m (a + 3)].

(** Copy a list of bytes to consecutive addresses. *)
Fixpoint store_bytes (m : mem) (a : Z) (l : list Z) : mem :=
  match l with
  | [] => m
  | b :: l => store_bytes (store8 m a b) (a + 1) l
  end.

Definition store32 (m : mem) (a v : Z) : mem := store_bytes m a (le_bytes 4 v).

Fixpoint load_bytes (m : mem) (a : Z) (n : nat) : list Z :=
  match n with
  | O => []
  | S n => load8 m a :: load_bytes m (a + 1) n
  end.

(** ** Equivalence of memories *)

#[export] Instance mem_equiv : Equiv mem := fun m1 m2 => forall a, load8 m1 a = load8 m2 a.

#[export] Instance mem_equivalence : Equivalence (≡@{mem}).
Proof.
  split.
  - intros m a. done.
  - intros m1 m2 H a. by rewrite H.
  - intros m1 m2 m3 H1 H2 a. by rewrite H1.
Qed.

#[export] Instance load8_proper : Proper ((≡@{mem}) ==> eq ==> eq) load8.
Proof. intros m1 m2 H a ? <-. apply H. Qed.

Lemma load32_load8 m a :
  load32 m a = load8 m a + 256 * (load8 m (a + 1) +
               256 * (load8 m (a + 2) + 256 * load8 m (a + 3))).
Proof. unfold load32, load8. cbn [le_val]. lia. Qed.

#[export] Instance load32_proper : Proper ((≡@{mem}) ==> eq ==> eq) load32.
Proof. intros m1 m2 H a ? <-. rewrite !load32_load8. by rewrite !(H _). Qed.

Lemma load8_store8 m a v x : load8 (store8 m a v) x = if x =? a then u8 v else load8 m x.
Proof. unfold load8, store8. zif; [apply u8_idem|done]. Qed.

#[export] Instance store8_proper : Proper ((≡@{mem}) ==> eq ==> eq ==> (≡@{mem})) store8.
Proof. intros m1 m2 H a ? <- v ? <- x. rewrite !load8_store8. by rewrite (H x). Qed.

Lemma load8_store_bytes m a l x :
  load8 (store_bytes m a l) x =
    if (a <=? x) && (x <? a + Z.of_nat (length l))
    then u8 (nth (Z.to_nat (x - a)) l 0) else load8 m x.
Proof.
  revert m a; induction l as [|b l IH]; intros m a; cbn [store_bytes length].
  - zcase (a <=? x); zcase (x <? a + Z.of_nat 0); try lia; done.
  - rewrite IH, load8_store8.
    zcase (a + 1 <=? x); zcase (x <? a + 1 + Z.of_nat (length l)); simpl;
      zcase (a <=? x); zcase (x <? a + Z.of_nat (S (length l))); zcase (x =? a);
      simpl; try lia; try done.
    + replace (Z.to_nat (x - a)) with (S (Z.to_nat (x - (a + 1)))) by lia. done.
    + replace (Z.to_nat (x - a)) with 0%nat by lia. done.
Qed.

#[export] Instance store_bytes_proper :
  Proper ((≡@{mem}) ==> eq ==> eq ==> (≡@{mem})) store_bytes.
Proof.
  intros m1 m2 H a ? <- l ? <- x. rewrite !load8_store_bytes. by rewrite (H x).
Qed.

#[export] Instance store32_proper : Proper ((≡@{mem}) ==> eq ==> eq ==> (≡@{mem})) store32.
Proof. intros m1 m2 H a ? <- v ? <-. unfold store32. by rewrite H. Qed.

Lemma load8_store32 m a v x :
  load8 (store32 m a v) x =
    if (a <=? x) && (x <? a + 4) then u8 (v / 256 ^ (x - a)) else load8 m x.
Proof.
  unfold store32. rewrite load8_store_bytes, length_le_bytes. change (Z.of_nat 4) with 4.
  zcase (a <=? x); zcase (x <? a + 4); simpl; try done.
  assert (x = a \/ x = a + 1 \/ x = a + 2 \/ x = a + 3) as [->|[->|[->| ->]]] by lia.
  - replace (a - a) with 0 by lia. change (Z.to_nat 0) with 0%nat.
    cbn [le_bytes nth]. rewrite u8_idem. by rewrite Z.div_1_r.
  - replace (a + 1 - a) with 1 by lia. change (Z.to_nat 1) with 1%nat.
    cbn [le_bytes nth]. by rewrite u8_idem.
  - replace (a + 2 - a) with 2 by lia. change (Z.to_nat 2) with 2%nat.
    cbn [le_bytes nth]. rewrite u8_idem, Z.div_div by lia. done.
  - replace (a + 3 - a) with 3 by lia. change (Z.to_nat 3) with 3%nat.
    cbn [le_bytes nth]. rewrite u8_idem, !Z.div_div by lia. done.
Qed.

Lemma load32_store32 m a v : load32 (store32 m a v) a = u32 v.
Proof.
  rewrite load32_load8, !load8_store32.
  repeat (zif; try lia).
  rewrite Z.sub_diag, !Z.add_simpl_l. change (256 ^ 0) with 1. change (256 ^ 1) with 256.
  change (256 ^ 2) with 65536. change (256 ^ 3) with 16777216. zlia.
Qed.

Lemma load32_store32_other m a v x :
  x + 4 <= a \/ a + 4 <= x -> load32 (store32 m a v) x = load32 m x.
Proof.
  intros. rewrite !load32_load8, !load8_store32. repeat (zif; try lia); done.
Qed.

Lemma load32_store8_other m a v x :
  a < x \/ x + 4 <= a -> load32 (store8 m a v) x = load32 m x.
Proof.
  intros. rewrite !load32_load8, !load8_store8. repeat (zif; try lia); done.
Qed.

Lemma load32_range m a : 0 <= load32 m a < 4294967296.
Proof.
  unfold load32. pose proof (le_val_range [m a; m (a + 1); m (a + 2); m (a + 3)]) as H.
  exact H.
Qed.

Lemma load32_store_bytes_other m a l x :
  x + 4 <= a \/ a + Z.of_nat (length l) <= x ->
  load32 (store_bytes m a l) x = load32 m x.
Proof.
  intros. rewrite !load32_load8, !load8_store_bytes. repeat (zif; try lia); done.
Qed.

Lemma length_load_bytes m a n : length (load_bytes m a n) = n.
Proof. revert a; induction n; intros; simpl; auto. Qed.

Lemma lookup_load_bytes m a n i :
  (i < n)%nat -> load_bytes m a n !! i = Some (load8 m (a + Z.of_nat i)).
Proof.
  revert a i; induction n as [|n IH]; intros a i Hi; [lia|].
  destruct i as [|i]; simpl; [do 2 f_equal; lia|].
  rewrite IH by lia. do 2 f_equal. lia.
Qed.

Lemma load_bytes_ext m m' a n :
  (forall x, a <= x < a + Z.of_nat n -> load8 m' x = load8 m x) -> load_bytes m' a n = load_bytes m a n.
Proof.
  revert a. induction n as [|n IH]; intros a H; simpl; [done|]. rewrite H by lia. f_equal.
  apply IH. intros x Hx. apply H. lia.
Qed.

Lemma load_bytes_store_bytes m a l :
  load_bytes (store_bytes m a l) a (length l) = map u8 l.
Proof.
  apply list_eq; intros i. destruct (decide (i < length l)%nat) as [Hi|Hi].
  - rewrite lookup_load_bytes by done. rewrite load8_store_bytes.
    repeat (zif; try lia). replace (Z.to_nat (a + Z.of_nat i - a)) with i by lia.
    destruct (lookup_lt_is_Some_2 l i Hi) as [b Hb].
    rewrite list_lookup_fmap, Hb. simpl. by rewrite (nth_lookup_Some _ _ _ _ Hb).
  - rewrite lookup_ge_None_2 by (rewrite length_load_bytes; lia).
    rewrite lookup_ge_None_2 by (rewrite length_map; lia). done.
Qed.


