(* ===== verification/CString.v ===== *)
(** * string.c: the kernel's memory and string routines

    Each routine is the C loop, run on the byte memory of [Memory.v]; a
    [uint] count is read modulo 2^32 and bounds the loop.  The theorems give
    each routine's effect on every byte of memory, for [memmove] also when
    source and destination overlap. *)

From S2P Require Import Prelude Memory.

Open Scope Z_scope.

(** [rep stosb] and [rep stosl] (x86.h). *)
Fixpoint stosb (m : mem) (addr data : Z) (cnt : nat) : mem :=
  match cnt with
  | O => m
  | S k => stosb (store8 m addr data) (addr + 1) data k
  end.

Fixpoint stosl (m : mem) (addr data : Z) (cnt : nat) : mem :=
  match cnt with
  | O => m
  | S k => stosl (store32 m addr data) (addr + 4) data k
  end.

(** memset: whole words when pointer and count are multiples of four. *)
Definition memset (m : mem) (dst c n : Z) : mem :=
  let n := u32 n in
  if (dst mod 4 =? 0) && (n mod 4 =? 0) then
    let c := Z.land c 255 in
    stosl m dst (Z.lor (Z.lor (Z.lor (Z.shiftl c 24) (Z.shiftl c 16)) (Z.shiftl c 8)) c)
      (Z.to_nat (n / 4))
  else stosb m dst c (Z.to_nat n).

Fixpoint memcmp_loop (m : mem) (s1 s2 : Z) (n : nat) : Z :=
  match n with
  | O => 0
  | S n =>
      if negb (load8 m s1 =? load8 m s2) then load8 m s1 - load8 m s2
      else memcmp_loop m (s1 + 1) (s2 + 1) n
  end.

Definition memcmp (m : mem) (v1 v2 n : Z) : Z := memcmp_loop m v1 v2 (Z.to_nat (u32 n)).

(** memmove: copies from the top down when the destination starts inside the
    source. *)
Fixpoint move_down (m : mem) (d s : Z) (n : nat) : mem :=
  match n with
  | O => m
  | S n => move_down (store8 m (d - 1) (load8 m (s - 1))) (d - 1) (s - 1) n
  end.

Fixpoint move_up (m : mem) (d s : Z) (n : nat) : mem :=
  match n with
  | O => m
  | S n => move_up (store8 m d (load8 m s)) (d + 1) (s + 1) n
  end.

Definition memmove (m : mem) (dst src n : Z) : mem :=
  let n := u32 n in
  if (src <? dst) && (dst <? src + n)
  then move_down m (dst + n) (src + n) (Z.to_nat n)
  else move_up m dst src (Z.to_nat n).

Definition memcpy (m : mem) (dst src n : Z) : mem := memmove m dst src n.

Fixpoint strncmp_loop (m : mem) (p q : Z) (n : nat) : Z :=
  match n with
  | O => 0
  | S k =>
      if negb (load8 m p =? 0) && (load8 m p =? load8 m q)
      then strncmp_loop m (p + 1) (q + 1) k
      else load8 m p - load8 m q
  end.

Definition strncmp (m : mem) (p q n : Z) : Z := strncmp_loop m p q (Z.to_nat (u32 n)).

(** strncpy: the copy loop, then the loop that pads with zeros.  The count
    is a signed [int]; a count of zero or less copies nothing. *)
Fixpoint strncpy_pad (m : mem) (s : Z) (n : nat) : mem :=
  match n with
  | O => m
  | S n => strncpy_pad (store8 m s 0) (s + 1) n
  end.

Fixpoint strncpy_loop (m : mem) (s t : Z) (n : nat) : mem :=
  match n with
  | O => m
  | S n =>
      let c := load8 m t in
      let m := store8 m s c in
      if negb (c =? 0) then strncpy_loop m (s + 1) (t + 1) n
      else strncpy_pad m (s + 1) n
  end.

Definition strncpy (m : mem) (s t n : Z) : mem := strncpy_loop m s t (Z.to_nat n).

(** safestrcpy: after the first decrement of [n], [k] is the number of
    characters that may be copied; the terminator is stored where the loop
    left the pointer, which is one past a NUL the loop copied. *)
Fixpoint safestrcpy_loop (m : mem) (s t : Z) (k : nat) : mem :=
  match k with
  | O => store8 m s 0
  | S k =>
      let c := load8 m t in
      let m := store8 m s c in
      if negb (c =? 0) then safestrcpy_loop m (s + 1) (t + 1) k
      else store8 m (s + 1) 0
  end.

Definition safestrcpy (m : mem) (s t n : Z) : mem :=
  if n <=? 0 then m else safestrcpy_loop m s t (Z.to_nat (n - 1)).

(** strlen: the loop has no bound of its own; it runs on fuel and returns
    [None] when the fuel ends before a NUL is seen. *)
Fixpoint strlen_loop (m : mem) (s : Z) (n : Z) (fuel : nat) : option Z :=
  match fuel with
  | O => None
  | S fuel => if load8 m (s + n) =? 0 then Some n else strlen_loop m s (n + 1) fuel
  end.

Definition strlen (m : mem) (s : Z) (fuel : nat) : option Z := strlen_loop m s 0 fuel.

(** ** Effects on memory *)

Lemma load8_stosb m addr data cnt x :
  load8 (stosb m addr data cnt) x =
    if (addr <=? x) && (x <? addr + Z.of_nat cnt) then u8 data else load8 m x.
Proof.
  revert m addr; induction cnt as [|k IH]; intros m addr; cbn [stosb].
  - repeat zif; try lia; done.
  - rewrite IH, load8_store8. repeat (zif; try lia); done.
Qed.

(** The four copies of the byte that [stosl] stores. *)
Lemma word_of_byte c :
  Z.lor (Z.lor (Z.lor (Z.shiftl (Z.land c 255) 24) (Z.shiftl (Z.land c 255) 16))
               (Z.shiftl (Z.land c 255) 8)) (Z.land c 255) = 16843009 * u8 c.
Proof.
  change 255 with (2 ^ 8 - 1). rewrite land_mask by lia. change (c mod 2 ^ 8) with (u8 c).
  pose proof (u8_range c) as H. set (b := u8 c) in *. rewrite !Z.shiftl_mul_pow2 by lia.
  change (2 ^ 24) with 16777216; change (2 ^ 16) with 65536; change (2 ^ 8) with 256.
  rewrite <- !Z.lor_assoc, (lor_low (b * 256) b 8) by zlia.
  rewrite (lor_low (b * 65536) _ 16), (lor_low (b * 16777216) _ 24) by zlia. lia.
Qed.

Lemma load8_stosl_byte m addr c cnt x :
  load8 (stosl m addr (16843009 * u8 c) cnt) x =
    if (addr <=? x) && (x <? addr + 4 * Z.of_nat cnt) then u8 c else load8 m x.
Proof.
  revert m addr; induction cnt as [|k IH]; intros m addr; cbn [stosl].
  - repeat (zif; try lia); done.
  - rewrite IH, load8_store32. repeat (zif; try lia); try done.
    pose proof (u8_range c). set (b := u8 c) in *.
    assert (x = addr \/ x = addr + 1 \/ x = addr + 2 \/ x = addr + 3) as Hx by lia.
    destruct Hx as [->|[->|[->| ->]]]; rewrite ?Z.sub_diag, ?Z.add_simpl_l;
      [change (256 ^ 0) with 1|change (256 ^ 1) with 256|change (256 ^ 2) with 65536
      |change (256 ^ 3) with 16777216]; zlia.
Qed.

Lemma load8_memset m dst c n x :
  0 <= n < 4294967296 ->
  load8 (memset m dst c n) x = if (dst <=? x) && (x <? dst + n) then u8 c else load8 m x.
Proof.
  intros Hn. unfold memset; cbv zeta. rewrite u32_small by lia.
  zcase ((dst mod 4 =? 0) && (n mod 4 =? 0)).
  - rewrite word_of_byte, load8_stosl_byte.
    replace (4 * Z.of_nat (Z.to_nat (n / 4))) with n by zlia. done.
  - rewrite load8_stosb. replace (Z.of_nat (Z.to_nat n)) with n by lia. done.
Qed.

Lemma load32_memset_other m dst c n x :
  0 <= n < 4294967296 -> x + 4 <= dst \/ dst + n <= x ->
  load32 (memset m dst c n) x = load32 m x.
Proof.
  intros Hn Hx. rewrite !load32_load8, !load8_memset by done.
  repeat (zif; try lia); done.
Qed.

Lemma load32_memset_zero m dst n x :
  0 <= n < 4294967296 -> dst <= x -> x + 4 <= dst + n -> load32 (memset m dst 0 n) x = 0.
Proof.
  intros Hn H1 H2. rewrite load32_load8, !load8_memset by done.
  repeat (zif; try lia); done.
Qed.

Lemma load8_move_up m d s n x :
  (d <= s \/ s + Z.of_nat n <= d) ->
  load8 (move_up m d s n) x =
    if (d <=? x) && (x <? d + Z.of_nat n) then load8 m (x - d + s) else load8 m x.
Proof.
  revert m d s; induction n as [|n IH]; intros m d s Hd; cbn [move_up].
  - repeat (zif; try lia); done.
  - rewrite IH by lia. rewrite !load8_store8. repeat (zif; try lia); try done.
    + f_equal. lia.
    + unfold load8. rewrite u8_idem. do 2 f_equal. lia.
Qed.

Lemma load8_move_down m d s n x :
  s <= d ->
  load8 (move_down m d s n) x =
    if (d - Z.of_nat n <=? x) && (x <? d) then load8 m (x - d + s) else load8 m x.
Proof.
  revert m d s; induction n as [|n IH]; intros m d s Hd; cbn [move_down].
  - repeat (zif; try lia); done.
  - rewrite IH by lia. rewrite !load8_store8. repeat (zif; try lia); try done.
    + f_equal. lia.
    + unfold load8. rewrite u8_idem. do 2 f_equal. lia.
Qed.

Lemma load8_memmove m dst src n x :
  0 <= n < 4294967296 ->
  load8 (memmove m dst src n) x =
    if (dst <=? x) && (x <? dst + n) then load8 m (x - dst + src) else load8 m x.
Proof.
  intros Hn. unfold memmove; cbv zeta. rewrite u32_small by lia.
  zcase ((src <? dst) && (dst <? src + n)).
  - rewrite load8_move_down by lia. rewrite Z2Nat.id by lia.
    repeat (zif; try lia); try done. f_equal. lia.
  - rewrite load8_move_up by lia. rewrite Z2Nat.id by lia. done.
Qed.

Lemma memcmp_loop_spec m s1 s2 n :
  (memcmp_loop m s1 s2 n = 0 /\
     forall i, (i < n)%nat -> load8 m (s1 + Z.of_nat i) = load8 m (s2 + Z.of_nat i)) \/
  exists k, (k < n)%nat /\
    (forall i, (i < k)%nat -> load8 m (s1 + Z.of_nat i) = load8 m (s2 + Z.of_nat i)) /\
    load8 m (s1 + Z.of_nat k) <> load8 m (s2 + Z.of_nat k) /\
    memcmp_loop m s1 s2 n = load8 m (s1 + Z.of_nat k) - load8 m (s2 + Z.of_nat k).
Proof.
  revert s1 s2; induction n as [|n IH]; intros s1 s2; cbn [memcmp_loop].
  { left. split; [done|]. intros; lia. }
  zcase (load8 m s1 =? load8 m s2); simpl.
  - specialize (IH (s1 + 1) (s2 + 1)).
    assert (Hsh : forall s i, s + 1 + Z.of_nat i = s + Z.of_nat (S i)) by lia.
    setoid_rewrite Hsh in IH. destruct IH as [[H0 Heq]|(k & Hk & Heq & Hne & Hr)].
    + left. split; [done|]. intros [|i] Hi; [rewrite !Z.add_0_r; done|]. apply Heq. lia.
    + right. exists (S k). split; [lia|]. split; [|done].
      intros [|i] Hi; [rewrite !Z.add_0_r; done|]. apply Heq. lia.
  - right. exists 0%nat. rewrite !Z.add_0_r. split; [lia|]. split; [intros; lia|]. done.
Qed.

(** A NUL-terminated string in memory. *)
Definition cstr (m : mem) (a : Z) (l : list Z) : Prop :=
  load_bytes m a (length l) = l /\ Forall (fun c => c <> 0) l /\
  load8 m (a + Z.of_nat (length l)) = 0.

Lemma cstr_cons m a c l :
  cstr m a (c :: l) <-> load8 m a = c /\ c <> 0 /\ cstr m (a + 1) l.
Proof.
  unfold cstr. cbn [length load_bytes]. rewrite Forall_cons.
  replace (a + Z.of_nat (S (length l))) with (a + 1 + Z.of_nat (length l)) by lia.
  split.
  - intros (H & [Hc Hl] & Hn). injection H as -> H. naive_solver.
  - intros (Hc & Hne & H & Hl & Hn). subst. rewrite H. naive_solver.
Qed.

Lemma cstr_nil m a : cstr m a [] <-> load8 m a = 0.
Proof. unfold cstr. simpl. rewrite Z.add_0_r. naive_solver. Qed.

Lemma cstr_mem m m' a l :
  (forall i, (i <= length l)%nat -> load8 m' (a + Z.of_nat i) = load8 m (a + Z.of_nat i)) ->
  cstr m a l -> cstr m' a l.
Proof.
  revert a; induction l as [|c l IH]; intros a Hm.
  - rewrite !cstr_nil. specialize (Hm 0%nat). simpl in Hm. rewrite Z.add_0_r in Hm.
    by rewrite Hm by lia.
  - rewrite !cstr_cons. intros (H0 & Hc & Hl). split; [|split; [done|]].
    + specialize (Hm 0%nat). rewrite Z.add_0_r in Hm. rewrite Hm; [done|lia].
    + apply IH; [|done]. intros i Hi. specialize (Hm (S i)). simpl in Hm.
      replace (a + 1 + Z.of_nat i) with (a + Z.of_nat (S i)) by lia. apply Hm. lia.
Qed.

Lemma strlen_loop_cstr m a l n fuel :
  cstr m (a + n) l -> (length l < fuel)%nat ->
  strlen_loop m a n fuel = Some (n + Z.of_nat (length l)).
Proof.
  revert n fuel; induction l as [|c l IH]; intros n [|fuel] Hc Hf; simpl in Hf; try lia;
    cbn [strlen_loop length].
  - apply cstr_nil in Hc. rewrite Hc. simpl. f_equal. lia.
  - apply cstr_cons in Hc as (Hc & Hne & Hl). zcase (load8 m (a + n) =? 0); [congruence|].
    rewrite (IH (n + 1)); [f_equal; lia| |lia].
    by replace (a + (n + 1)) with (a + n + 1) by lia.
Qed.

Lemma load8_strncpy_pad m s n x :
  load8 (strncpy_pad m s n) x =
    if (s <=? x) && (x <? s + Z.of_nat n) then 0 else load8 m x.
Proof.
  revert m s; induction n as [|n IH]; intros m s; cbn [strncpy_pad].
  - repeat (zif; try lia); done.
  - rewrite IH, load8_store8. repeat (zif; try lia); done.
Qed.

Lemma load8_store8_load m s t x :
  load8 (store8 m s (load8 m t)) x = if x =? s then load8 m t else load8 m x.
Proof. rewrite load8_store8. unfold load8. by rewrite u8_idem. Qed.

Lemma cstr_store8 m a l s v :
  s < a \/ a + Z.of_nat (length l) < s -> cstr m a l -> cstr (store8 m s v) a l.
Proof.
  intros Hs. apply cstr_mem. intros i Hi. rewrite load8_store8. by zif; [lia|].
Qed.

Lemma load8_strncpy_loop l m s t n x :
  cstr m t l -> s + Z.of_nat n <= t \/ t + Z.of_nat (length l) < s ->
  load8 (strncpy_loop m s t n) x =
    if (s <=? x) && (x <? s + Z.of_nat n)
    then nth (Z.to_nat (x - s)) l 0 else load8 m x.
Proof.
  revert l m s t; induction n as [|n IH]; intros l m s t Hc Hd; cbn [strncpy_loop].
  { repeat (zif; try lia); done. }
  destruct l as [|c l].
  - apply cstr_nil in Hc. rewrite Hc. simpl negb. cbv iota zeta.
    rewrite load8_strncpy_pad, load8_store8. repeat (zif; try lia); try done.
    all: by destruct (Z.to_nat (x - s)).
  - apply cstr_cons in Hc as (Hc & Hne & Hl). cbv zeta. simpl in Hd.
    zcase (load8 m t =? 0); [congruence|]. simpl negb. cbv iota.
    rewrite (IH l); [| |lia].
    + rewrite load8_store8_load, Hc. repeat (zif; try lia); try done.
      * replace (Z.to_nat (x - s)) with (S (Z.to_nat (x - (s + 1)))) by lia. done.
      * replace (Z.to_nat (x - s)) with 0%nat by lia. done.
    + apply cstr_store8; [lia|done].
Qed.

(** The copy stops at [k] characters or at the end of the string. *)
Lemma safestrcpy_loop_spec l m s t k :
  cstr m t l -> s + Z.of_nat k < t \/ t + Z.of_nat (length l) < s ->
  cstr (safestrcpy_loop m s t k) s (take k l) /\
  forall x, x < s \/ s + Z.of_nat k < x -> load8 (safestrcpy_loop m s t k) x = load8 m x.
Proof.
  revert l m s t; induction k as [|k IH]; intros l m s t Hc Hd; cbn [safestrcpy_loop].
  { simpl. split.
    - apply cstr_nil. rewrite load8_store8. by zif; [|lia].
    - intros x Hx. rewrite load8_store8. by zif; [lia|]. }
  destruct l as [|c l].
  - apply cstr_nil in Hc. rewrite Hc. simpl. split.
    + apply cstr_nil. rewrite !load8_store8. repeat (zif; try lia); done.
    + intros x Hx. rewrite !load8_store8. repeat (zif; try lia); done.
  - apply cstr_cons in Hc as (Hc & Hne & Hl). cbv zeta. simpl in Hd.
    zcase (load8 m t =? 0); [congruence|]. simpl negb. cbv iota.
    destruct (IH l (store8 m s (load8 m t)) (s + 1) (t + 1)) as [IH1 IH2];
      [apply cstr_store8; [lia|done]|lia|].
    split.
    + simpl. apply cstr_cons. split; [|done]. rewrite IH2 by lia.
      rewrite load8_store8_load. by zif; [|lia].
    + intros x Hx. rewrite IH2 by lia. rewrite load8_store8. by zif; [lia|].
Qed.

(** ** Correctness of the routines *)

(** memmove copies [n] bytes correctly for every placement of source and
    destination, overlapping or not, and changes no byte outside the
    destination. *)
Theorem memmove_correct m dst src n :
  0 <= n < 4294967296 ->
  load_bytes (memmove m dst src n) dst (Z.to_nat n) = load_bytes m src (Z.to_nat n) /\
  (forall x, x < dst \/ dst + n <= x -> load8 (memmove m dst src n) x = load8 m x).
Proof.
  intros Hn. split.
  - apply list_eq; intros i. destruct (decide (i < Z.to_nat n)%nat) as [Hi|Hi].
    + rewrite !lookup_load_bytes by done. rewrite load8_memmove by done.
      zif; [do 2 f_equal; lia|lia].
    + rewrite !lookup_ge_None_2 by (rewrite length_load_bytes; lia). done.
  - intros x Hx. rewrite load8_memmove by done. by zif; [lia|].
Qed.

Definition demo_mem : mem := fun a => if (0 <=? a) && (a <? 8) then a + 65 else 0.

Lemma memmove_correct_witness :
  load_bytes (memmove demo_mem 2 0 5) 2 5 = [65; 66; 67; 68; 69].
Proof. exact (proj1 (memmove_correct demo_mem 2 0 5 ltac:(lia))). Defined.

(** Memset writes the low byte of [c] to the [n] bytes at [dst] and
    nothing else, on the word-store path and on the byte-store path alike. *)
Theorem memset_correct m dst c n :
  0 <= n < 4294967296 ->
  forall x, load8 (memset m dst c n) x =
    if (dst <=? x) && (x <? dst + n) then u8 c else load8 m x.
Proof. intros Hn x. by apply load8_memset. Qed.

Lemma memset_correct_witness :
  load8 (memset demo_mem 4 511 4) 7 = 255 /\ load8 (memset demo_mem 4 511 3) 7 = 72.
Proof.
  split.
  - rewrite (memset_correct demo_mem 4 511 4 ltac:(lia)). reflexivity.
  - rewrite (memset_correct demo_mem 4 511 3 ltac:(lia)). reflexivity.
Defined.

(** Strncpy stores the string in the first bytes of the destination,
    pads with zeros up to exactly [n] bytes and touches nothing else. *)
Theorem strncpy_correct l m s t n :
  0 <= n -> cstr m t l -> s + n <= t \/ t + Z.of_nat (length l) < s ->
  forall x, load8 (strncpy m s t n) x =
    if (s <=? x) && (x <? s + n) then nth (Z.to_nat (x - s)) l 0 else load8 m x.
Proof.
  intros Hn Hc Hd x. unfold strncpy. rewrite (load8_strncpy_loop l) by (done || lia).
  by rewrite Z2Nat.id by lia.
Qed.

Lemma demo_cstr : cstr demo_mem 4 [69; 70; 71; 72].
Proof. split; [reflexivity|split; [|reflexivity]]. repeat (constructor; [lia|]). constructor. Qed.

Lemma strncpy_correct_witness :
  load_bytes (strncpy demo_mem 100 4 6) 100 6 = [69; 70; 71; 72; 0; 0] /\
  load8 (strncpy demo_mem 100 4 6) 105 = 0.
Proof.
  split; [reflexivity|].
  rewrite (strncpy_correct [69; 70; 71; 72] demo_mem 100 4 6 ltac:(lia) demo_cstr
             ltac:(right; simpl; lia)).
  reflexivity.
Defined.

(** Safestrcpy leaves a NUL-terminated string at [s]: the source cut to
    [n - 1] characters; bytes outside the [n]-byte destination keep their
    value. *)
Theorem safestrcpy_correct l m s t n :
  0 < n -> cstr m t l -> s + n <= t \/ t + Z.of_nat (length l) < s ->
  cstr (safestrcpy m s t n) s (take (Z.to_nat (n - 1)) l) /\
  (forall x, x < s \/ s + n <= x -> load8 (safestrcpy m s t n) x = load8 m x).
Proof.
  intros Hn Hc Hd. unfold safestrcpy. zif; [lia|].
  destruct (safestrcpy_loop_spec l m s t (Z.to_nat (n - 1)) Hc) as [H1 H2]; [lia|].
  split; [done|]. intros x Hx. apply H2. lia.
Qed.

Lemma safestrcpy_correct_witness :
  cstr (safestrcpy demo_mem 100 4 3) 100 [69; 70].
Proof.
  exact (proj1 (safestrcpy_correct [69; 70; 71; 72] demo_mem 100 4 3 ltac:(lia) demo_cstr
                  ltac:(right; simpl; lia))).
Defined.

(** ** On arrays

    The file system compares and copies names held in arrays of its own; a
    byte list stands for such an array and ends with an implicit NUL. *)
Fixpoint arr_strncmp (n : nat) (p q : list Z) : Z :=
  match n with
  | O => 0
  | S n =>
      if negb (hd 0 p =? 0) && (hd 0 p =? hd 0 q) then arr_strncmp n (tl p) (tl q)
      else hd 0 p - hd 0 q
  end.

Fixpoint arr_strncpy (n : nat) (t : list Z) : list Z :=
  match n with
  | O => []
  | S n => if hd 0 t =? 0 then repeat 0 (S n) else hd 0 t :: arr_strncpy n (tl t)
  end.

(** safestrcpy into the array [s]: what lies behind the terminator stays. *)
Fixpoint arr_safestrcpy (k : nat) (s t : list Z) : list Z :=
  match k with
  | O => 0 :: tl s
  | S k => hd 0 t :: if negb (hd 0 t =? 0) then arr_safestrcpy k (tl s) (tl t) else 0 :: tl (tl s)
  end.

(** They are the routines above, run on the bytes of the array. *)
Lemma arr_strncmp_loop m p q n :
  strncmp_loop m p q n = arr_strncmp n (load_bytes m p n) (load_bytes m q n).
Proof.
  revert p q; induction n as [|n IH]; intros p q; simpl; [done|].
  destruct (negb _ && _); [apply IH|done].
Qed.

Lemma length_arr_strncpy n t : length (arr_strncpy n t) = n.
Proof.
  revert t; induction n as [|n IH]; intros t; cbn [arr_strncpy]; [done|].
  destruct (hd 0 t =? 0); simpl; [by rewrite repeat_length|by rewrite IH].
Qed.

Lemma safestrcpy_loop_frame k : forall m s t x, x < s \/ s + Z.of_nat k < x ->
  load8 (safestrcpy_loop m s t k) x = load8 m x.
Proof.
  induction k as [|k IH]; intros m s t x Hx; cbn [safestrcpy_loop].
  - rewrite load8_store8. by zif; [lia|].
  - destruct (negb _); [rewrite IH by lia|rewrite load8_store8; zif; [lia|]]; rewrite load8_store8; by zif; [lia|].
Qed.

Lemma arr_safestrcpy_loop k : forall m s t,
  s + Z.of_nat k < t \/ t + Z.of_nat k < s ->
  load_bytes (safestrcpy_loop m s t k) s (S k) = arr_safestrcpy k (load_bytes m s (S k)) (load_bytes m t (S k)).
Proof.
  induction k as [|k IH]; intros m s t Hd.
  - simpl. rewrite load8_store8. by zif; [|lia].
  - cbn [safestrcpy_loop arr_safestrcpy]. set (c := load8 m t).
    change (hd 0 (load_bytes m t (S (S k)))) with c. change (tl (load_bytes m t (S (S k)))) with (load_bytes m (t + 1) (S k)).
    change (tl (load_bytes m s (S (S k)))) with (load_bytes m (s + 1) (S k)).
    assert (Hk : forall m1 a n, a < s \/ s < a -> a + Z.of_nat n <= s \/ s < a -> load_bytes (store8 m1 s c) a n = load_bytes m1 a n).
    { intros m1 a n Ha Hn. apply load_bytes_ext. intros x Hx. rewrite load8_store8. by zif; [lia|]. }
    destruct (negb (c =? 0)) eqn:Ec.
    + change (load_bytes ?m s (S (S k))) with (load8 m s :: load_bytes m (s + 1) (S k)).
      rewrite safestrcpy_loop_frame, load8_store8, Z.eqb_refl by lia. rewrite IH, !Hk by lia.
      f_equal. unfold c, load8. apply u8_small, u8_range.
    + cbn [load_bytes tl]. rewrite !load8_store8, !Z.eqb_refl. rewrite (proj2 (Z.eqb_neq s (s + 1))) by lia.
      f_equal; [unfold c, load8; apply u8_small, u8_range|]. f_equal. apply load_bytes_ext. intros x Hx.
      rewrite !load8_store8. by repeat (zif; try lia).
Qed.

Lemma length_arr_safestrcpy k s t : (k < length s)%nat -> length (arr_safestrcpy k s t) = length s.
Proof.
  revert s t; induction k as [|k IH]; intros s t Hs; (destruct s as [|x s]; [simpl in Hs; lia|]); cbn [arr_safestrcpy tl length]; [done|].
  simpl in Hs. destruct (negb _); [by rewrite IH by lia|]. destruct s; simpl in *; [lia|done].
Qed.

(** The string an array holds: its bytes before the first NUL. *)
Fixpoint arr_str (l : list Z) : list Z :=
  match l with
  | [] => []
  | c :: l => if c =? 0 then [] else c :: arr_str l
  end.

Lemma arr_strncmp_eq n p q :
  arr_strncmp n p q = 0 <-> arr_str (take n p) = arr_str (take n q).
Proof.
  revert p q; induction n as [|n IH]; intros p q; [done|].
  cbn [arr_strncmp]. destruct p as [|a p], q as [|b q]; simpl.
  - done.
  - destruct (Z.eqb_spec b 0); split; try done; lia.
  - destruct (Z.eqb_spec a 0) as [->|Ha]; simpl; [done|].
    destruct (Z.eqb_spec a 0); [lia|]. split; [lia|done].
  - destruct (Z.eqb_spec a 0) as [->|Ha]; simpl.
    + destruct (Z.eqb_spec b 0) as [->|Hb]; split; try done; lia.
    + destruct (Z.eqb_spec a b) as [->|Hab]; simpl.
      * destruct (Z.eqb_spec b 0); [lia|]. rewrite IH. split; congruence.
      * destruct (Z.eqb_spec b 0); split; try done; try lia. congruence.
Qed.

Lemma arr_str_safestrcpy k s t : arr_str (arr_safestrcpy k s t) = arr_str (take k t).
Proof.
  revert s t; induction k as [|k IH]; intros s t; cbn [arr_safestrcpy]; [done|].
  destruct t as [|c t]; simpl; [done|]. destruct (Z.eqb_spec c 0); simpl; [done|]. by rewrite IH.
Qed.

Lemma arr_str_strncpy n t : arr_str (arr_strncpy n t) = arr_str (take n t).
Proof.
  revert t; induction n as [|n IH]; intros t; cbn [arr_strncpy]; [done|].
  destruct t as [|c t]; simpl; [done|].
  destruct (Z.eqb_spec c 0) as [->|Hc]; simpl; [done|].
  destruct (Z.eqb_spec c 0); [lia|]. by rewrite IH.
Qed.
