(* ===== verification/Ulib.v ===== *)
(** * ulib.c: the user-level C library

    The loops of the library on byte memory.  A loop that only a NUL ends runs
    on fuel and gives [None] when no NUL is found; [char] is signed, so a
    character is compared as [schar] of its byte. *)

From S2P Require Import Prelude Memory CString.

Open Scope Z_scope.

(** A [char] as the signed integer it is promoted to. *)
Definition schar (b : Z) : Z := if b <? 128 then b else b - 256.

Fixpoint strcpy (m : mem) (s t : Z) (fuel : nat) : option mem :=
  match fuel with
  | O => None
  | S fuel =>
      let c := load8 m t in
      let m := store8 m s c in
      if negb (c =? 0) then strcpy m (s + 1) (t + 1) fuel else Some m
  end.

Fixpoint strcmp (m : mem) (p q : Z) (fuel : nat) : option Z :=
  match fuel with
  | O => None
  | S fuel =>
      if negb (load8 m p =? 0) && (load8 m p =? load8 m q) then strcmp m (p + 1) (q + 1) fuel
      else Some (load8 m p - load8 m q)
  end.

(** strlen is the loop of string.c (CString.strlen). *)

Definition umemset (m : mem) (dst c n : Z) : mem := stosb m dst c (Z.to_nat (u32 n)).

(** strchr: the address of the first [c], or the null pointer 0. *)
Fixpoint strchr (m : mem) (s c : Z) (fuel : nat) : option Z :=
  match fuel with
  | O => None
  | S fuel =>
      if load8 m s =? 0 then Some 0
      else if load8 m s =? c then Some s
      else strchr m (s + 1) c fuel
  end.

(** memmove of the library copies upwards only; the count is an [int]. *)
Definition umemmove (m : mem) (dst src n : Z) : mem := move_up m dst src (Z.to_nat n).

(** atoi: the sum wraps as a 32-bit [int]. *)
Fixpoint atoi_loop (m : mem) (s n : Z) (fuel : nat) : option Z :=
  match fuel with
  | O => None
  | S fuel =>
      let c := schar (load8 m s) in
      if (48 <=? c) && (c <=? 57) then atoi_loop m (s + 1) (s32 (n * 10 + c - 48)) fuel
      else Some n
  end.

Definition atoi (m : mem) (s : Z) (fuel : nat) : option Z := atoi_loop m s 0 fuel.

Section syscalls.
(** The state of the rest of the system; reading one byte from a file
    descriptor gives the value of read() and the byte. *)
Context {W : Type}.
Context (read1 : Z -> W -> Z * Z * W).

(** gets: at most [max - 1] characters, up to and with a line end. *)
Fixpoint gets_loop (m : mem) (buf i max : Z) (w : W) (fuel : nat) : option (mem * W) :=
  match fuel with
  | O => None
  | S fuel =>
      if i + 1 <? max then
        let '(cc, c, w) := read1 0 w in
        if cc <? 1 then Some (store8 m (buf + i) 0, w)
        else
          let m := store8 m (buf + i) c in
          if (c =? 10) || (c =? 13) then Some (store8 m (buf + (i + 1)) 0, w)
          else gets_loop m buf (i + 1) max w fuel
      else Some (store8 m (buf + i) 0, w)
  end.

Definition gets (m : mem) (buf max : Z) (w : W) : option (mem * W) :=
  gets_loop m buf 0 max w (S (Z.to_nat max)).

Context (open : list Z -> Z -> W -> Z * W) (close : Z -> W -> W).
Context {stat_t : Type} (fstat : Z -> W -> Z * option stat_t * W).

(** stat: [O_RDONLY] is 0; the descriptor is closed whatever fstat says. *)
Definition stat (n : list Z) (w : W) : Z * option stat_t * W :=
  let '(fd, w) := open n 0 w in
  if fd <? 0 then (-1, None, w)
  else
    let '(r, st, w) := fstat fd w in
    (r, st, close fd w).
End syscalls.

(** ** Facts *)

(** gets never writes outside the buffer and leaves a terminated string. *)
Lemma gets_loop_bounds {W} (read1 : Z -> W -> Z * Z * W) fuel :
  forall m buf i max w m' w', 0 <= i -> i + 1 <= max ->
  gets_loop read1 m buf i max w fuel = Some (m', w') ->
  (forall x, x < buf + i \/ buf + max <= x -> load8 m' x = load8 m x) /\
  exists k, i <= k < max /\ load8 m' (buf + k) = 0.
Proof.
  induction fuel as [|fuel IH]; intros m buf i max w m' w' Hi Hmax; [done|]. cbn [gets_loop].
  zif.
  - destruct (read1 0 w) as [[cc c] w1]. zif.
    + intros [= <- <-]. split; [intros x Hx; rewrite load8_store8; zif; [lia|done]|].
      exists i. split; [lia|]. rewrite load8_store8. by zif.
    + destruct ((c =? 10) || (c =? 13)).
      * intros [= <- <-]. split.
        -- intros x Hx. rewrite !load8_store8. zif; [lia|]. zif; [lia|done].
        -- exists (i + 1). split; [lia|]. rewrite load8_store8. by zif.
      * intros Hg. apply IH in Hg as [H1 (k & Hk & H2)]; [|lia..]. split.
        -- intros x Hx. rewrite H1 by lia. rewrite load8_store8. zif; [lia|done].
        -- exists k. split; [lia|done].
  - intros [= <- <-]. split; [intros x Hx; rewrite load8_store8; zif; [lia|done]|].
    exists i. split; [lia|]. rewrite load8_store8. by zif.
Qed.

(** The loop of gets ends: the fuel given is enough. *)
Lemma gets_loop_ends {W} (read1 : Z -> W -> Z * Z * W) fuel :
  forall m buf i max w, 0 <= i -> (Z.to_nat (max - i) < fuel)%nat ->
  is_Some (gets_loop read1 m buf i max w fuel).
Proof.
  induction fuel as [|fuel IH]; intros m buf i max w Hi Hf; [lia|]. cbn [gets_loop].
  zif; [|by eexists]. destruct (read1 0 w) as [[cc c] w1]. zif; [by eexists|].
  destruct ((c =? 10) || (c =? 13)); [by eexists|]. apply IH; lia.
Qed.

Lemma strchr_spec m s c l fuel :
  cstr m s l -> (length l < fuel)%nat ->
  strchr m s c fuel = Some (match list_find (fun x => x = c) l with
                            | Some (i, _) => s + Z.of_nat i
                            | None => 0
                            end).
Proof.
  revert s fuel. induction l as [|x l IH]; intros s [|fuel] Hc Hf; simpl in Hf; try lia; cbn [strchr].
  - apply cstr_nil in Hc. by rewrite Hc.
  - apply cstr_cons in Hc as (Hx & Hne & Hl). rewrite Hx. simpl.
    destruct (Z.eqb_spec x 0); [lia|]. destruct (decide (x = c)) as [->|Hxc].
    + rewrite Z.eqb_refl. simpl. by rewrite Z.add_0_r.
    + destruct (Z.eqb_spec x c); [done|]. rewrite (IH (s + 1) fuel) by (done || lia).
      destruct (list_find _ l) as [[i y]|]; simpl; [|done]. f_equal. lia.
Qed.
