(* ===== verification/Grep.v ===== *)
(** * grep.c: the pattern matcher and the line reader

    [matchhere], [matchstar] and [match_re] are the matcher, on strings given
    as the list of their characters; [grep] is the loop that reads a file into
    a buffer of 1024 bytes and prints the lines that match. *)

From S2P Require Import Prelude Memory CString Ulib.

Open Scope Z_scope.

Definition CARET : Z := 94.
Definition DOLLAR : Z := 36.
Definition DOT : Z := 46.
Definition STAR : Z := 42.
Definition NL : Z := 10.

(** matchstar: [here] is matchhere on the rest of the pattern. *)
Fixpoint matchstar (c : Z) (here : list Z -> bool) (text : list Z) : bool :=
  here text ||
  match text with
  | [] => false
  | t :: text => if (t =? c) || (c =? DOT) then matchstar c here text else false
  end.

(** matchhere, on a pattern whose next two characters decide the case. *)
Fixpoint matchhere (re : list Z) (text : list Z) {struct re} : bool :=
  match re with
  | [] => true
  | r :: re1 =>
      match re1 with
      | s :: re2 =>
          if s =? STAR then matchstar r (matchhere re2) text
          else match text with
               | [] => false
               | t :: text => if (r =? DOT) || (r =? t) then matchhere re1 text else false
               end
      | [] =>
          if r =? DOLLAR then match text with [] => true | _ => false end
          else match text with
               | [] => false
               | t :: text => if (r =? DOT) || (r =? t) then matchhere re1 text else false
               end
      end
  end.

Fixpoint match_anywhere (re text : list Z) : bool :=
  matchhere re text ||
  match text with
  | [] => false
  | _ :: text => match_anywhere re text
  end.

Definition match_re (re text : list Z) : bool :=
  match re with
  | r :: re' => if r =? CARET then matchhere re' text else match_anywhere re text
  | [] => match_anywhere re text
  end.

Definition BUFSZ : Z := 1024.

Section grep.
(** read() and write() on the state [W] of the system: read gives the value
    returned and the bytes stored. *)
Context {W : Type}.
Context (read : Z -> Z -> W -> Z * list Z * W) (write : Z -> list Z -> W -> W).
Context (buf : Z).

(** The inner loop: the lines from [p] on that end in a newline. *)
Fixpoint grep_lines (pattern : list Z) (m : mem) (p : Z) (w : W) (fuel : nat) : option (mem * Z * W) :=
  match fuel with
  | O => None
  | S fuel =>
      match strchr m p NL (S fuel) with
      | None => None
      | Some q =>
          if q =? 0 then Some (m, p, w)
          else
            let line := load_bytes m p (Z.to_nat (q - p)) in
            let m := store8 m q 0 in
            if match_re pattern line then
              let m := store8 m q NL in
              let w := write 1 (load_bytes m p (Z.to_nat (q + 1 - p))) w in
              grep_lines pattern m (q + 1) w fuel
            else grep_lines pattern m (q + 1) w fuel
      end
  end.

Fixpoint grep_loop (pattern : list Z) (fd : Z) (m : mem) (k : Z) (w : W) (lfuel fuel : nat) : option (mem * W) :=
  match fuel with
  | O => None
  | S fuel =>
      let '(n, bs, w) := read fd (u32 (BUFSZ - k)) w in
      if 0 <? n then
        let m := store_bytes m (buf + k) bs in
        let k := k + n in
        match grep_lines pattern m buf w lfuel with
        | None => None
        | Some (m, p, w) =>
            let k := if p =? buf then 0 else k in
            if 0 <? k then
              let k := k - (p - buf) in
              grep_loop pattern fd (umemmove m buf p k) k w lfuel fuel
            else grep_loop pattern fd m k w lfuel fuel
        end
      else Some (m, w)
  end.

Definition grep (pattern : list Z) (fd : Z) (m : mem) (w : W) (lfuel fuel : nat) : option (mem * W) :=
  grep_loop pattern fd m 0 w lfuel fuel.

Context (open : list Z -> Z -> W -> Z * W) (close : Z -> W -> W) (printf : Z -> list Z -> W -> W).
Context (usage : list Z) (cannot_open : list Z -> list Z).

Fixpoint grep_files (pattern : list Z) (files : list (list Z)) (m : mem) (w : W) (lfuel fuel : nat) : option W :=
  match files with
  | [] => Some w
  | f :: files =>
      let '(fd, w) := open f 0 w in
      if fd <? 0 then Some (printf 1 (cannot_open f) w)
      else
        match grep pattern fd m w lfuel fuel with
        | None => None
        | Some (m, w) => grep_files pattern files m (close fd w) lfuel fuel
        end
  end.

Definition grep_main (argv : list (list Z)) (m : mem) (w : W) (lfuel fuel : nat) : option W :=
  match argv with
  | _ :: pattern :: files =>
      if (length files =? 0)%nat then
        match grep pattern 0 m w lfuel fuel with Some (_, w) => Some w | None => None end
      else grep_files pattern files m w lfuel fuel
  | _ => Some (printf 2 usage w)
  end.
End grep.

(** ** The language of a pattern *)

Inductive item : Type :=
| One (c : Z)                  (* the character, or any character for a dot *)
| Many (c : Z).                (* any number of it *)

Definition fits_char (c x : Z) : Prop := c = DOT \/ c = x.

Definition item_lang (i : item) (w : list Z) : Prop :=
  match i with
  | One c => exists x, w = [x] /\ fits_char c x
  | Many c => Forall (fits_char c) w
  end.

Inductive lang : list item -> list Z -> Prop :=
| LNil : lang [] []
| LCons i its v w : item_lang i v -> lang its w -> lang (i :: its) (v ++ w).

(** The items of a pattern and whether it ends in an anchor. *)
Fixpoint items (re : list Z) : list item * bool :=
  match re with
  | [] => ([], false)
  | r :: re1 =>
      match re1 with
      | s :: re2 =>
          if s =? STAR then let '(its, e) := items re2 in (Many r :: its, e)
          else let '(its, e) := items re1 in (One r :: its, e)
      | [] => if r =? DOLLAR then ([], true) else ([One r], false)
      end
  end.

(** Some prefix of [text], all of it when anchored, is in the language. *)
Definition here_spec (re text : list Z) : Prop :=
  exists v w, text = v ++ w /\ lang (items re).1 v /\ ((items re).2 = true -> w = []).

Definition match_spec (re text : list Z) : Prop :=
  match re with
  | r :: re' =>
      if r =? CARET then here_spec re' text
      else exists u v, text = u ++ v /\ here_spec re v
  | [] => exists u v, text = u ++ v /\ here_spec re v
  end.

Lemma matchstar_spec c here text :
  matchstar c here text = true <->
  exists u v, text = u ++ v /\ Forall (fits_char c) u /\ here v = true.
Proof.
  induction text as [|t text IH]; cbn [matchstar]; rewrite orb_true_iff.
  - split.
    + intros [H|H]; [|done]. by exists [], [].
    + intros (u & v & E & _ & H). symmetry in E. apply app_eq_nil in E as [-> ->]. by left.
  - split.
    + intros [H|H]; [by exists [], (t :: text)|].
      destruct ((t =? c) || (c =? DOT)) eqn:Ec; [|done]. apply IH in H as (u & v & -> & Hu & Hv).
      exists (t :: u), v. split; [done|]. split; [|done]. constructor; [|done].
      unfold fits_char. lia.
    + intros (u & v & E & Hu & Hv). destruct u as [|x u]; simpl in E.
      * left. by rewrite E.
      * injection E as -> ->. apply Forall_cons in Hu as [Hx Hu]. right. unfold fits_char in Hx.
        destruct ((x =? c) || (c =? DOT)) eqn:Ec; [|lia]. apply IH. by exists u, v.
Qed.

Lemma here_one r re1 text :
  (items (r :: re1)) = (One r :: (items re1).1, (items re1).2) ->
  here_spec (r :: re1) text <->
  exists t text', text = t :: text' /\ fits_char r t /\ here_spec re1 text'.
Proof.
  intros E. unfold here_spec. rewrite E. simpl. split.
  - intros (v & w & -> & Hl & He). inversion Hl as [|i its v1 v2 Hv Hl2]; subst.
    destruct Hv as (x & -> & Hx).
    exists x, (v2 ++ w). split; [done|]. split; [done|]. by exists v2, w.
  - intros (t & text' & -> & Ht & v & w & -> & Hl & He). exists (t :: v), w. split; [done|].
    split; [|done]. apply (LCons (One r) _ [t] v); [by exists t|done].
Qed.

Lemma here_many r re2 text :
  here_spec (r :: STAR :: re2) text <->
  exists u v, text = u ++ v /\ Forall (fits_char r) u /\ here_spec re2 v.
Proof.
  unfold here_spec. cbn [items]. rewrite Z.eqb_refl. destruct (items re2) as [its e]. simpl. split.
  - intros (v & w & -> & Hl & He). inversion Hl as [|i its' v1 v2 Hv Hl2]; subst.
    exists v1, (v2 ++ w). split; [by rewrite app_assoc|]. split; [done|]. by exists v2, w.
  - intros (u & v & -> & Hu & v1 & w & -> & Hl & He). exists (u ++ v1), w.
    split; [by rewrite app_assoc|]. split; [|done]. by constructor.
Qed.

Lemma one_step r text (b : list Z -> bool) (P : list Z -> Prop) :
  (forall t, b t = true <-> P t) ->
  match text with
  | [] => false
  | t :: text' => if (r =? DOT) || (r =? t) then b text' else false
  end = true <-> exists t text', text = t :: text' /\ fits_char r t /\ P text'.
Proof.
  intros Hb. destruct text as [|t text]; [split; [done|by intros (? & ? & ? & _)]|]. split.
  - destruct ((r =? DOT) || (r =? t)) eqn:E; [|done]. intros H. exists t, text. split; [done|].
    split; [unfold fits_char; lia|by apply Hb].
  - intros (t' & text' & [= <- <-] & Ht & H). unfold fits_char in Ht.
    destruct ((r =? DOT) || (r =? t)) eqn:E; [|lia]. by apply Hb.
Qed.

Lemma matchhere_spec n : forall re text, (length re <= n)%nat -> matchhere re text = true <-> here_spec re text.
Proof.
  induction n as [|n IH]; intros re text Hn.
  - destruct re; [|simpl in Hn; lia]. simpl. split; [|done]. intros _. exists [], text.
    split; [done|]. split; [constructor|done].
  - destruct re as [|r [|s re2]].
    + simpl. split; [|done]. intros _. exists [], text. split; [done|]. split; [constructor|done].
    + cbn [matchhere]. destruct (Z.eqb_spec r DOLLAR) as [->|Hr].
      * split.
        -- destruct text; [|done]. intros _. exists [], []. split; [done|]. split; [constructor|done].
        -- intros (v & w & -> & Hl & He). simpl in Hl, He. inversion Hl; subst. by rewrite He.
      * rewrite here_one.
        2: { cbn [items]. destruct (Z.eqb_spec r DOLLAR); done. }
        apply one_step. intros t. apply (IH []). simpl. lia.
    + cbn [matchhere]. destruct (Z.eqb_spec s STAR) as [->|Hs].
      * rewrite matchstar_spec, here_many. split; intros (u & v & ? & ? & Hv); exists u, v;
          (split; [done|]; split; [done|]; apply IH in Hv || apply IH; simpl in Hn; try lia; done).
      * rewrite here_one.
        2: { assert (Hp : forall p : list item * bool, (let '(its, e) := p in (One r :: its, e)) = (One r :: p.1, p.2))
               by (by intros []).
             cbn [items]. destruct (Z.eqb_spec s STAR); [done|]. apply Hp. }
        apply one_step. intros t. apply (IH (s :: re2)). simpl in *. lia.
Qed.

Lemma match_anywhere_spec re text :
  match_anywhere re text = true <-> exists u v, text = u ++ v /\ here_spec re v.
Proof.
  induction text as [|t text IH]; cbn [match_anywhere]; rewrite orb_true_iff, (matchhere_spec (length re)) by done.
  - split.
    + intros [H|H]; [|done]. by exists [], [].
    + intros (u & v & E & H). symmetry in E. apply app_eq_nil in E as [-> ->]. by left.
  - rewrite IH. split.
    + intros [H|(u & v & -> & H)]; [by exists [], (t :: text)|]. by exists (t :: u), v.
    + intros ([|x u] & v & E & H); simpl in E; [left; by rewrite E|]. injection E as -> ->. right. by exists u, v.
Qed.

(** C21: the matcher accepts exactly the language of the pattern: concatenation
    of characters, dots and stars, searched anywhere in the text unless the
    pattern starts with a caret, and up to the end of the text when it ends in
    a dollar sign. *)
Theorem match_correct re text : match_re re text = true <-> match_spec re text.
Proof.
  unfold match_re, match_spec. destruct re as [|r re]; [apply match_anywhere_spec|].
  destruct (r =? CARET); [by apply (matchhere_spec (length re))|apply match_anywhere_spec].
Qed.

(** ** grep on a regular file *)

Record fio : Type := mkFio { fin : list Z; fout : list Z }.

Definition file_read (fd n : Z) (w : fio) : Z * list Z * fio :=
  let bs := take (Z.to_nat n) (fin w) in
  (Z.of_nat (length bs), bs, mkFio (drop (Z.to_nat n) (fin w)) (fout w)).

Definition file_write (fd : Z) (bs : list Z) (w : fio) : fio := mkFio (fin w) (fout w ++ bs).

(** The lines of a text that end in a newline. *)
Fixpoint complete_lines (cur l : list Z) : list (list Z) :=
  match l with
  | [] => []
  | c :: l => if c =? NL then rev cur :: complete_lines [] l else complete_lines (c :: cur) l
  end.

Definition matching (pattern l : list Z) : list Z :=
  concat (map (fun ln => ln ++ [NL]) (List.filter (match_re pattern) (complete_lines [] l))).

Lemma complete_lines_split line rest cur :
  NL ∉ line -> complete_lines cur (line ++ NL :: rest) = (rev cur ++ line) :: complete_lines [] rest.
Proof.
  revert cur. induction line as [|c line IH]; intros cur Hn; simpl.
  - by rewrite app_nil_r.
  - destruct (Z.eqb_spec c NL); [set_solver|]. rewrite IH by set_solver. simpl. by rewrite <- app_assoc.
Qed.

Lemma complete_lines_none l cur : NL ∉ l -> complete_lines cur l = [].
Proof.
  revert cur. induction l as [|c l IH]; intros cur Hn; simpl; [done|].
  destruct (Z.eqb_spec c NL); [set_solver|]. apply IH. set_solver.
Qed.

Lemma cstr_app m a l k : cstr m a (l ++ k) -> load_bytes m a (length l) = l /\ cstr m (a + Z.of_nat (length l)) k.
Proof.
  revert a. induction l as [|c l IH]; intros a; simpl; [by rewrite Z.add_0_r|].
  rewrite cstr_cons. intros (Hc & Hne & H). destruct (IH (a + 1) H) as [H1 H2].
  split; [by rewrite Hc, H1|]. by replace (a + Z.of_nat (S (length l))) with (a + 1 + Z.of_nat (length l)) by lia.
Qed.

Lemma load_bytes_app m a n k :
  load_bytes m a (n + k) = load_bytes m a n ++ load_bytes m (a + Z.of_nat n) k.
Proof.
  revert a. induction n as [|n IH]; intros a; simpl; [by rewrite Z.add_0_r|]. f_equal.
  rewrite IH. do 2 f_equal. lia.
Qed.

Lemma grep_lines_spec pattern fuel : forall l m p w,
  0 < p -> cstr m p l -> (length l < fuel)%nat ->
  exists m' p', grep_lines file_write pattern m p w fuel =
    Some (m', p', mkFio (fin w) (fout w ++ matching pattern l)).
Proof.
  induction fuel as [|fuel IH]; intros l m p w Hp Hl Hf; [lia|]. cbn [grep_lines].
  rewrite (strchr_spec m p NL l) by (done || lia).
  destruct (list_find (fun x => x = NL) l) as [[i y]|] eqn:Ef.
  - apply list_find_Some in Ef as (Hi & -> & Hmin).
    assert (El : l = take i l ++ NL :: drop (S i) l) by (by rewrite take_drop_middle).
    assert (Hlt : (i < length l)%nat) by (by eapply lookup_lt_Some).
    assert (Hn : NL ∉ take i l).
    { intros (j & Hj)%list_elem_of_lookup_1. apply lookup_take_Some in Hj as [Hj ?]. by apply (Hmin j NL Hj). }
    set (line := take i l) in *. set (rest := drop (S i) l) in *.
    assert (Hlen : length line = i) by (unfold line; rewrite length_take; lia).
    assert (Hlr : (length rest < fuel)%nat) by (unfold rest; rewrite length_drop; lia).
    rewrite El in Hl. destruct (cstr_app m p line (NL :: rest) Hl) as [Hline Hr]. rewrite Hlen in *.
    apply cstr_cons in Hr as (Hnl & _ & Hr).
    destruct (Z.eqb_spec (p + Z.of_nat i) 0); [lia|].
    replace (Z.to_nat (p + Z.of_nat i - p)) with i by lia. rewrite Hline.
    replace (Z.to_nat (p + Z.of_nat i + 1 - p)) with (i + 1)%nat by lia.
    unfold matching. rewrite El, complete_lines_split by done. cbn [rev app List.filter].
    set (q := p + Z.of_nat i) in *.
    destruct (match_re pattern line) eqn:Em.
    + set (m2 := store8 (store8 m q 0) q NL).
      assert (Hm2 : load_bytes m2 p (i + 1) = line ++ [NL]).
      { rewrite load_bytes_app. f_equal.
        - etrans; [|exact Hline]. apply load_bytes_ext. intros x Hx. unfold m2, q. rewrite !load8_store8.
          zif; [lia|done].
        - fold q. cbn [load_bytes]. unfold m2. rewrite load8_store8. by zif. }
      rewrite Hm2. destruct (IH rest m2 (q + 1) (file_write 1 (line ++ [NL]) w)) as (m' & p' & ->); try done; [lia|..].
      * unfold m2. apply cstr_store8; [lia|]. apply cstr_store8; [lia|done].
      * exists m', p'. simpl. unfold matching. by rewrite <- !app_assoc.
    + destruct (IH rest (store8 m q 0) (q + 1) w) as (m' & p' & ->); try done; [lia|..].
      * apply cstr_store8; [lia|done].
      * exists m', p'. done.
  - exists m, p. simpl. apply list_find_None in Ef. unfold matching.
    rewrite complete_lines_none; [by destruct w; rewrite app_nil_r|].
    intros Hx. rewrite Forall_forall in Ef. by apply (Ef NL Hx).
Qed.

(** on a file that one read takes in, with the buffer still zero behind
    it, grep ends and prints exactly the lines of the file that match. *)
Theorem grep_prints_matches pattern fd buf data out m lfuel fuel :
  0 < buf -> Forall (fun c => 0 < c < 256) data -> Z.of_nat (length data) < BUFSZ ->
  load8 m (buf + Z.of_nat (length data)) = 0 -> (length data < lfuel)%nat -> (2 <= fuel)%nat ->
  exists m', grep file_read file_write buf pattern fd m (mkFio data out) lfuel fuel =
    Some (m', mkFio [] (out ++ matching pattern data)).
Proof.
  intros Hb Hd Hlen Hz Hl Hf. unfold BUFSZ in Hlen. destruct fuel as [|[|fuel]]; [lia..|].
  unfold grep. cbn [grep_loop]. unfold file_read at 1. change (u32 (BUFSZ - 0)) with 1024.
  cbn [fin fout]. rewrite take_ge, drop_ge by lia. rewrite Z.add_0_r.
  destruct (Z.ltb_spec 0 (Z.of_nat (length data))) as [Hpos|Hzero].
  2: { destruct data; [|simpl in Hzero; lia]. exists m. unfold matching. simpl. by rewrite app_nil_r. }
  destruct (grep_lines_spec pattern lfuel data (store_bytes m buf data) buf (mkFio [] out)) as (m1 & p & Hg);
    [done| |done|].
  { split; [|split].
    - rewrite load_bytes_store_bytes. apply list_eq. intros i. rewrite list_lookup_fmap.
      destruct (data !! i) as [c|] eqn:Ei; [|done]. simpl. f_equal.
      rewrite Forall_lookup in Hd. apply u8_small. pose proof (Hd i c Ei). lia.
    - eapply Forall_impl; [exact Hd|]. intros c Hc. simpl in Hc. lia.
    - rewrite load8_store_bytes. zif; [lia|done]. }
  rewrite Hg. simpl.
  destruct (0 <? _); unfold file_read; cbn [fin fout]; rewrite take_nil, drop_nil; simpl; by eexists.
Qed.

(** ** Concrete runs *)

Module GrepDemo.
Definition zero : mem := fun _ => 0.
Definition buf : Z := 4096.

Lemma grep_prints_matches_witness :
  exists m', grep file_read file_write buf [97; STAR; 98; DOLLAR] 3 zero
               (mkFio [97; 97; 98; NL; 98; 99; NL; 98; NL] []) 2000 2 =
    Some (m', mkFio [] [97; 97; 98; NL; 98; NL]).
Proof.
  apply (grep_prints_matches [97; STAR; 98; DOLLAR] 3 buf [97; 97; 98; NL; 98; 99; NL; 98; NL] [] zero 2000 2);
    try done; try (repeat constructor; done); simpl; lia.
Defined.

(** 511 lines "a", then the line "bcd": 1026 bytes, two more than the buffer. *)
Definition long_file : list Z := concat (repeat [97; NL] 511) ++ [98; 99; 100; NL].

Definition printed (r : option (mem * fio)) : option nat :=
  match r with
  | Some (_, w) => Some (length (List.filter (fun c => c =? NL) (fout w)))
  | None => None
  end.

(** On a file longer than the buffer grep prints lines again that are left
    over in the buffer from the read before: of 511 matching lines it prints
    1020. *)
Theorem grep_stale_lines :
  printed (grep file_read file_write buf [97] 3 zero (mkFio long_file []) 2000 3) = Some 1020%nat /\
  length (List.filter (match_re [97]) (complete_lines [] long_file)) = 511%nat.
Proof. split; vm_compute; reflexivity. Qed.
End GrepDemo.
