(* ===== verification/Sh.v ===== *)
(** * sh.c: the shell

    The command line is a byte list; behind its end the parser reads NUL.  A
    token is the pair of its offsets, as in the argv and eargv arrays.  panic
    ends the parse with its message.  malloc is taken to succeed: the
    constructors of the source use its result unchecked.  What runcmd does is
    written as the sequence of its system calls, in which a fork carries the
    calls of the child. *)

From S2P Require Import Prelude.

Open Scope Z_scope.

Definition MAXARGS : nat := 10.

(** O_RDONLY and O_WRONLY|O_CREATE. *)
Definition MODE_READ : Z := 0.
Definition MODE_WRITE : Z := 513.

Inductive cmd : Type :=
| EXEC (argv : list (nat * nat))
| REDIR (c : cmd) (file efile : nat) (mode fd : Z)
| PIPE (left right : cmd)
| LIST (left right : cmd)
| BACK (c : cmd).

(** ** Tokens *)

Definition whitespace : list Z := [32; 9; 13; 10; 11].
Definition symbols : list Z := [60; 124; 62; 38; 59; 40; 41].       (* <|>&;() *)

Definition LT : Z := 60.
Definition BAR : Z := 124.
Definition GT : Z := 62.
Definition AMP : Z := 38.
Definition SEMI : Z := 59.
Definition LPAR : Z := 40.
Definition RPAR : Z := 41.
Definition PLUS : Z := 43.
Definition WORD : Z := 97.

(** strchr on one of these strings; it never finds NUL. *)
Definition among (s : list Z) (c : Z) : bool := existsb (Z.eqb c) s.

Section parse.
Context (buf : list Z).

Definition char_at (i : nat) : Z := nth i buf 0.
Definition es : nat := length buf.

Fixpoint skip_while (p : Z -> bool) (i : nat) (fuel : nat) : nat :=
  match fuel with
  | O => i
  | S fuel => if (i <? es)%nat && p (char_at i) then skip_while p (S i) fuel else i
  end.

Definition skip_space (i : nat) : nat := skip_while (among whitespace) i es.
Definition skip_word (i : nat) : nat :=
  skip_while (fun c => negb (among whitespace c) && negb (among symbols c)) i es.

(** gettoken: the kind of the token, its start and end, and the position
    behind it. *)
Definition gettoken (ps : nat) : Z * nat * nat * nat :=
  let q := skip_space ps in
  let c := char_at q in
  let '(tok, s) :=
    if c =? 0 then (0, q)
    else if (c =? BAR) || (c =? LPAR) || (c =? RPAR) || (c =? SEMI) || (c =? AMP) || (c =? LT) then (c, S q)
    else if c =? GT then (if char_at (S q) =? GT then (PLUS, S (S q)) else (GT, S q))
    else (WORD, skip_word q) in
  (tok, q, s, skip_space s).

(** peek: whether the next character is one of [toks], and the position of it. *)
Definition peek (ps : nat) (toks : list Z) : bool * nat :=
  let s := skip_space ps in
  (negb (char_at s =? 0) && among toks (char_at s), s).

(** ** The parser *)

Inductive presult (A : Type) : Type :=
| POk (a : A) (pos : nat)
| PPanic (msg : string)
| PLeft (pos : nat)                  (* panic("syntax") after the leftovers *)
| PFuel.
Arguments POk {A}.
Arguments PPanic {A}.
Arguments PLeft {A}.
Arguments PFuel {A}.

Definition pbind {A B} (r : presult A) (k : A -> nat -> presult B) : presult B :=
  match r with
  | POk a pos => k a pos
  | PPanic msg => PPanic msg
  | PLeft pos => PLeft pos
  | PFuel => PFuel
  end.

(** The redirections in front of [pos], in the order they are wrapped around
    the command: file, its end, mode and descriptor. *)
Fixpoint parseredirs (pos : nat) (fuel : nat) : presult (list (nat * nat * Z * Z)) :=
  match fuel with
  | O => PFuel
  | S fuel =>
      let '(b, pos) := peek pos [LT; GT] in
      if b then
        let '(tok, _, _, pos) := gettoken pos in
        let '(t, q, eq, pos) := gettoken pos in
        if negb (t =? WORD) then PPanic "missing file for redirection"
        else
          let r := if tok =? LT then (q, eq, MODE_READ, 0) else (q, eq, MODE_WRITE, 1) in
          pbind (parseredirs pos fuel) (fun rs pos => POk (r :: rs) pos)
      else POk [] pos
  end.

Definition redircmd (c : cmd) (r : nat * nat * Z * Z) : cmd :=
  let '(q, eq, mode, fd) := r in REDIR c q eq mode fd.

Definition redir_all (c : cmd) (rs : list (nat * nat * Z * Z)) : cmd := fold_left redircmd rs c.

(** The arguments of a simple command, with the redirections between them. *)
Fixpoint parseargs (pos : nat) (argc : nat) (fuel : nat)
  : presult (list (nat * nat) * list (nat * nat * Z * Z)) :=
  match fuel with
  | O => PFuel
  | S fuel =>
      let '(b, pos) := peek pos [BAR; RPAR; AMP; SEMI] in
      if b then POk ([], []) pos
      else
        let '(tok, q, eq, pos) := gettoken pos in
        if tok =? 0 then POk ([], []) pos
        else if negb (tok =? WORD) then PPanic "syntax"
        else if (MAXARGS <=? S argc)%nat then PPanic "too many args"
        else
          pbind (parseredirs pos (S es)) (fun rs pos =>
          pbind (parseargs pos (S argc) fuel) (fun '(args, rs') pos =>
          POk ((q, eq) :: args, rs ++ rs') pos))
  end.

(** The ampersands behind a pipeline. *)
Fixpoint parseback (c : cmd) (pos : nat) (fuel : nat) : presult cmd :=
  match fuel with
  | O => PFuel
  | S fuel =>
      let '(b, pos) := peek pos [AMP] in
      if b then let '(_, _, _, pos) := gettoken pos in parseback (BACK c) pos fuel
      else POk c pos
  end.

Fixpoint parseline (pos : nat) (fuel : nat) : presult cmd :=
  match fuel with
  | O => PFuel
  | S fuel =>
      pbind (parsepipe pos fuel) (fun c pos =>
      pbind (parseback c pos (S es)) (fun c pos =>
      let '(b, pos) := peek pos [SEMI] in
      if b then
        let '(_, _, _, pos) := gettoken pos in
        pbind (parseline pos fuel) (fun r pos => POk (LIST c r) pos)
      else POk c pos))
  end
with parsepipe (pos : nat) (fuel : nat) : presult cmd :=
  match fuel with
  | O => PFuel
  | S fuel =>
      pbind (parseexec pos fuel) (fun c pos =>
      let '(b, pos) := peek pos [BAR] in
      if b then
        let '(_, _, _, pos) := gettoken pos in
        pbind (parsepipe pos fuel) (fun r pos => POk (PIPE c r) pos)
      else POk c pos)
  end
with parseexec (pos : nat) (fuel : nat) : presult cmd :=
  match fuel with
  | O => PFuel
  | S fuel =>
      let '(b, pos) := peek pos [LPAR] in
      if b then
        (* parseblock *)
        let '(_, _, _, pos) := gettoken pos in
        pbind (parseline pos fuel) (fun c pos =>
        let '(b, pos) := peek pos [RPAR] in
        if negb b then PPanic "syntax - missing )"
        else
          let '(_, _, _, pos) := gettoken pos in
          pbind (parseredirs pos (S es)) (fun rs pos => POk (redir_all c rs) pos))
      else
        pbind (parseredirs pos (S es)) (fun rs pos =>
        pbind (parseargs pos 0 (S es)) (fun '(args, rs') pos =>
        POk (redir_all (EXEC args) (rs ++ rs')) pos))
  end.

(** Every call of one of the three consumes a character or passes to the next
    of them. *)
Definition parse_fuel : nat := 3 * es + 3.

Definition parsecmd : presult cmd :=
  pbind (parseline 0 parse_fuel) (fun c pos =>
  let '(_, pos) := peek pos [] in
  if negb (pos =? es)%nat then PLeft pos else POk c pos).
End parse.

Arguments POk {A}.
Arguments PPanic {A}.
Arguments PLeft {A}.
Arguments PFuel {A}.

(** nulterminate: the buffer with NUL at the end of every token.  A byte
    behind the text is NUL already. *)
Fixpoint nul_args (argv : list (nat * nat)) (b : list Z) : list Z :=
  match argv with
  | [] => b
  | (_, eq) :: argv => nul_args argv (<[eq := 0]> b)
  end.

Fixpoint nulterminate (c : cmd) (b : list Z) : list Z :=
  match c with
  | EXEC argv => nul_args argv b
  | REDIR c _ efile _ _ => <[efile := 0]> (nulterminate c b)
  | PIPE l r => nulterminate r (nulterminate l b)
  | LIST l r => nulterminate r (nulterminate l b)
  | BACK c => nulterminate c b
  end.

(** The C string at [q]. *)
Fixpoint string_at (b : list Z) (q : nat) (fuel : nat) : list Z :=
  match fuel with
  | O => []
  | S fuel => let c := nth q b 0 in if c =? 0 then [] else c :: string_at b (S q) fuel
  end.

(** ** Running commands *)

(** The system calls of a process, each with what follows it.  A fork has a
    child and a parent, exec goes on only when it fails, pipe passes its two
    descriptors on. *)
Inductive prog : Type :=
| PgExit
| PgExec (argv : list (list Z)) (fail : prog)
| PgOpen (file : list Z) (mode : Z) (ok fail : prog)
| PgClose (fd : Z) (k : prog)
| PgDup (fd : Z) (k : prog)
| PgPipe (k : Z -> Z -> prog) (fail : prog)
| PgFork (child parent fail : prog)
| PgWait (k : prog)
| PgChdir (dir : list Z) (ok fail : prog)
| PgPrint (fd : Z) (text : list Z) (k : prog).

Definition chars (s : string) : list Z :=
  (fun c => Z.of_nat (Ascii.nat_of_ascii c)) <$> String.list_ascii_of_string s.

Definition sh_panic (msg : string) : prog := PgPrint 2 (chars msg ++ [10]) PgExit.

Definition fork1 (child parent : prog) : prog := PgFork child parent (sh_panic "fork").

(** runcmd never returns.  [str] reads the string at an offset. *)
Fixpoint runcmd (str : nat -> list Z) (c : cmd) : prog :=
  match c with
  | EXEC [] => PgExit
  | EXEC ((q, e) :: argv) =>
      PgExec (map (fun a => str (fst a)) ((q, e) :: argv))
        (PgPrint 2 (chars "exec " ++ str q ++ chars " failed" ++ [10]) PgExit)
  | REDIR c file _ mode fd =>
      PgClose fd (PgOpen (str file) mode (runcmd str c)
        (PgPrint 2 (chars "open " ++ str file ++ chars " failed" ++ [10]) PgExit))
  | LIST l r => fork1 (runcmd str l) (PgWait (runcmd str r))
  | PIPE l r =>
      PgPipe (fun p0 p1 =>
        fork1 (PgClose 1 (PgDup p1 (PgClose p0 (PgClose p1 (runcmd str l)))))
          (fork1 (PgClose 0 (PgDup p0 (PgClose p0 (PgClose p1 (runcmd str r)))))
            (PgClose p0 (PgClose p1 (PgWait (PgWait PgExit))))))
        (sh_panic "pipe")
  | BACK c => fork1 (runcmd str c) PgExit
  end.

(** The child that main forks for a line. *)
Definition run_line (line : list Z) : prog :=
  match parsecmd line with
  | POk c _ => runcmd (fun q => string_at (nulterminate c line) q (S (length line))) c
  | PPanic msg => sh_panic msg
  | PLeft pos => PgPrint 2 (chars "leftovers: " ++ drop pos line ++ [10]) (sh_panic "syntax")
  | PFuel => PgExit
  end.

(** main from its command loop on, with the lines gets delivers; an empty line
    is the end of the input. *)
Fixpoint sh_main (lines : list (list Z)) : prog :=
  match lines with
  | [] => PgPrint 2 (chars "$ ") PgExit
  | line :: lines =>
      PgPrint 2 (chars "$ ")
        (match line with
         | [] => PgExit
         | _ =>
             if (nth 0 line 0 =? 99) && (nth 1 line 0 =? 100) && (nth 2 line 0 =? 32) then
               let dir := drop 3 (take (length line - 1) line) in
               PgChdir dir (sh_main lines)
                 (PgPrint 2 (chars "cannot cd " ++ dir ++ [10]) (sh_main lines))
             else fork1 (run_line line) (PgWait (sh_main lines))
         end)
  end.
