(* ===== verification/ShSpec.v ===== *)
(** * The shell: tokens and the end of the parse

    What gettoken and peek do in terms of the text that is left, and that the
    parser always ends: every call takes a token or passes on to the next
    level, so a bound linear in the length of the line is enough. *)

From S2P Require Import Prelude Sh.

Open Scope Z_scope.

(** ** Characters and what is left of the line *)

Definition spaceb (c : Z) : bool := among whitespace c.
Definition wordb (c : Z) : bool := negb (among whitespace c) && negb (among symbols c).

Fixpoint strip (l : list Z) : list Z :=
  match l with
  | c :: l' => if spaceb c then strip l' else l
  | [] => []
  end.

Fixpoint word_of (l : list Z) : list Z :=
  match l with
  | c :: l => if wordb c then c :: word_of l else []
  | [] => []
  end.

Section line.
Context (buf : list Z).
Context (Hbuf : Forall (fun c => 0 < c < 256) buf).

Lemma skip_while_spec p i fuel :
  (es buf <= i + fuel)%nat ->
  exists n, skip_while buf p i fuel = (i + n)%nat /\ (i <= es buf -> i + n <= es buf)%nat /\
    forallb p (take n (drop i buf)) = true /\
    match drop (i + n) buf with c :: _ => p c = false | [] => True end.
Proof.
  revert i. induction fuel as [|fuel IH]; intros i Hf; cbn [skip_while].
  - exists 0%nat. rewrite Nat.add_0_r, take_0. split; [done|]. split; [done|]. split; [done|].
    rewrite drop_ge by (unfold es in *; lia). done.
  - destruct (Nat.ltb_spec i (es buf)) as [Hi|Hi]; cbn [andb].
    + assert (Hd : drop i buf = char_at buf i :: drop (S i) buf).
      { destruct (lookup_lt_is_Some_2 buf i) as [c Hc]; [done|]. erewrite drop_S by done. f_equal.
        unfold char_at. symmetry. apply nth_lookup_Some. done. }
      destruct (p (char_at buf i)) eqn:Ep.
      * destruct (IH (S i)) as (n & -> & Hle & Hall & Hnext); [lia|]. exists (S n).
        rewrite <- Nat.add_succ_comm. split; [done|]. split; [lia|]. split; [|done].
        rewrite Hd. cbn [take forallb]. by rewrite Ep.
      * exists 0%nat. rewrite Nat.add_0_r, take_0. split; [done|]. split; [done|]. split; [done|]. by rewrite Hd.
    + exists 0%nat. rewrite Nat.add_0_r, take_0. split; [done|]. split; [done|]. split; [done|].
      rewrite drop_ge by done. done.
Qed.

(** The line from a position on, without leading white space. *)
Definition rest (pos : nat) : list Z := strip (drop pos buf).

Lemma strip_app l1 l2 : forallb spaceb l1 = true -> strip (l1 ++ l2) = strip l2.
Proof.
  induction l1 as [|c l1 IH]; [done|]. cbn [forallb app strip]. destruct (spaceb c); [apply IH|done].
Qed.

Lemma skip_space_spec pos :
  drop (skip_space buf pos) buf = rest pos /\ (pos <= skip_space buf pos)%nat /\
  (pos <= es buf -> skip_space buf pos <= es buf)%nat.
Proof.
  unfold skip_space. destruct (skip_while_spec (among whitespace) pos (es buf)) as (n & -> & Hle & Hall & Hn); [lia|].
  split; [|split; [lia|done]]. unfold rest.
  rewrite <- (take_drop n (drop pos buf)), drop_drop, strip_app by done.
  destruct (drop (pos + n) buf) as [|c l]; [done|]. cbn [strip]. unfold spaceb. by rewrite Hn.
Qed.

Lemma rest_skip pos : rest (skip_space buf pos) = rest pos.
Proof.
  destruct (skip_space_spec pos) as (E & _). unfold rest at 1. rewrite E. unfold rest.
  induction (drop pos buf) as [|c l IH]; [done|]. cbn [strip]. destruct (spaceb c) eqn:Ec; [done|].
  cbn [strip]. by rewrite Ec.
Qed.

Lemma char_at_drop i : char_at buf i = match drop i buf with c :: _ => c | [] => 0 end.
Proof.
  unfold char_at. destruct (decide (i < length buf)%nat) as [Hi|Hi].
  - destruct (lookup_lt_is_Some_2 buf i Hi) as [c Hc]. erewrite drop_S by done. by apply nth_lookup_Some.
  - rewrite nth_overflow by lia. by rewrite drop_ge by lia.
Qed.

Lemma drop_positive i c l : drop i buf = c :: l -> 0 < c < 256.
Proof using Hbuf.
  intros E. apply (Forall_drop _ i) in Hbuf as H. rewrite E in H. by inv H.
Qed.

Lemma rest_positive pos c l : rest pos = c :: l -> 0 < c < 256.
Proof using Hbuf. destruct (skip_space_spec pos) as (E & _). rewrite <- E. apply drop_positive. Qed.

Lemma peek_spec pos toks :
  peek buf pos toks = (match rest pos with c :: _ => among toks c | [] => false end, skip_space buf pos).
Proof using Hbuf.
  unfold peek. rewrite char_at_drop. destruct (skip_space_spec pos) as (E & _). rewrite E.
  destruct (rest pos) as [|c l] eqn:El; [done|]. apply rest_positive in El.
  destruct (Z.eqb_spec c 0); [lia|done].
Qed.

(** Behind the first [k] characters of the rest. *)
Lemma rest_behind pos w tl :
  rest pos = w ++ tl -> rest (skip_space buf (skip_space buf pos + length w)) = strip tl.
Proof.
  intros E. rewrite rest_skip. unfold rest. destruct (skip_space_spec pos) as (Ed & _).
  by rewrite <- drop_drop, Ed, E, drop_app_length.
Qed.

Lemma rest_slice pos w tl : rest pos = w ++ tl -> slice (skip_space buf pos) (length w) buf = w.
Proof.
  intros E. unfold slice. destruct (skip_space_spec pos) as (Ed & _). by rewrite Ed, E, take_app_length.
Qed.

Lemma gettoken_end pos : rest pos = [] -> gettoken buf pos =
  (0, skip_space buf pos, skip_space buf pos, skip_space buf (skip_space buf pos)).
Proof. intros E. unfold gettoken. rewrite char_at_drop. by rewrite (proj1 (skip_space_spec pos)), E. Qed.

Lemma gettoken_symbol pos c tl :
  rest pos = c :: tl -> c ∈ [BAR; LPAR; RPAR; SEMI; AMP; LT] ->
  exists pos', gettoken buf pos = (c, skip_space buf pos, S (skip_space buf pos), pos') /\ rest pos' = strip tl.
Proof.
  intros E Hc. exists (skip_space buf (S (skip_space buf pos))). split.
  - unfold gettoken. rewrite char_at_drop, (proj1 (skip_space_spec pos)), E.
    set_unfold in Hc. by destruct Hc as [->|[->|[->|[->|[->|[->|[]]]]]]].
  - rewrite <- (rest_behind pos [c] tl E). do 2 f_equal. simpl. lia.
Qed.

Lemma gettoken_gt pos tl :
  rest pos = GT :: tl -> (forall tl', tl <> GT :: tl') ->
  exists pos', gettoken buf pos = (GT, skip_space buf pos, S (skip_space buf pos), pos') /\ rest pos' = strip tl.
Proof.
  intros E Hne. exists (skip_space buf (S (skip_space buf pos))). split.
  - unfold gettoken. rewrite !char_at_drop, (proj1 (skip_space_spec pos)), E.
    assert (Ed : drop (S (skip_space buf pos)) buf = tl).
    { replace (S (skip_space buf pos)) with (skip_space buf pos + 1)%nat by lia.
      by rewrite <- drop_drop, (proj1 (skip_space_spec pos)), E. }
    rewrite Ed. cbn. destruct tl as [|c tl]; [done|]. destruct (Z.eqb_spec c GT) as [->|]; [|done].
    by destruct (Hne tl).
  - rewrite <- (rest_behind pos [GT] tl E). do 2 f_equal. simpl. lia.
Qed.

Lemma gettoken_gtgt pos tl :
  rest pos = GT :: GT :: tl ->
  exists pos', gettoken buf pos = (PLUS, skip_space buf pos, S (S (skip_space buf pos)), pos') /\ rest pos' = strip tl.
Proof.
  intros E. exists (skip_space buf (S (S (skip_space buf pos)))). split.
  - unfold gettoken. rewrite !char_at_drop, (proj1 (skip_space_spec pos)), E.
    assert (Ed : drop (S (skip_space buf pos)) buf = GT :: tl).
    { replace (S (skip_space buf pos)) with (skip_space buf pos + 1)%nat by lia.
      by rewrite <- drop_drop, (proj1 (skip_space_spec pos)), E. }
    by rewrite Ed.
  - rewrite <- (rest_behind pos [GT; GT] tl E). do 2 f_equal. simpl. lia.
Qed.

Lemma wordb_token c : wordb c = true -> 0 < c ->
  (c =? 0) = false /\ ((c =? BAR) || (c =? LPAR) || (c =? RPAR) || (c =? SEMI) || (c =? AMP) || (c =? LT)) = false /\
  (c =? GT) = false.
Proof.
  unfold wordb, among, symbols, BAR, LPAR, RPAR, SEMI, AMP, LT, GT. cbn [existsb].
  intros H Hc. zbool. repeat split; lia || (rewrite !orb_false_iff; lia).
Qed.

Lemma word_span w tl n :
  forallb wordb w = true -> match tl with c :: _ => wordb c = false | [] => True end ->
  forallb wordb (take n (w ++ tl)) = true ->
  match drop n (w ++ tl) with c :: _ => wordb c = false | [] => True end ->
  (n <= length (w ++ tl))%nat -> n = length w.
Proof.
  revert w. induction n as [|n IH]; intros w Hw Htl Hall Hn Hle.
  - destruct w as [|c w]; [done|]. simpl in *. zbool. congruence.
  - destruct w as [|c w]; simpl in *.
    + destruct tl as [|c tl]; [simpl in *; lia|]. simpl in Hall. zbool. congruence.
    + zbool. f_equal. apply IH; auto with lia.
Qed.

Lemma skip_word_spec pos w tl :
  rest pos = w ++ tl -> w <> [] ->
  forallb wordb w = true -> match tl with c :: _ => wordb c = false | [] => True end ->
  skip_word buf (skip_space buf pos) = (skip_space buf pos + length w)%nat.
Proof.
  intros E Hne Hw Htl. unfold skip_word.
  destruct (skip_while_spec wordb (skip_space buf pos) (es buf)) as (n & En & Hle & Hall & Hn); [lia|].
  change (skip_while buf (fun c => _) (skip_space buf pos) (es buf)) with
    (skip_while buf wordb (skip_space buf pos) (es buf)). rewrite En. f_equal.
  assert (Hlen : length (drop (skip_space buf pos) buf) = length (w ++ tl)).
  { by rewrite (proj1 (skip_space_spec pos)), E. }
  rewrite length_drop in Hlen. unfold es in *.
  assert (0 < length (w ++ tl))%nat by (destruct w; simpl; [done|lia]).
  rewrite <- drop_drop in Hn. rewrite (proj1 (skip_space_spec pos)), E in *.
  apply (word_span w tl n); auto. lia.
Qed.

Lemma gettoken_word pos w tl :
  rest pos = w ++ tl -> w <> [] -> forallb wordb w = true -> match tl with c :: _ => wordb c = false | [] => True end ->
  exists pos', gettoken buf pos = (WORD, skip_space buf pos, skip_space buf pos + length w, pos')%nat /\
    rest pos' = strip tl.
Proof using Hbuf.
  intros E Hne Hw Htl. exists (skip_space buf (skip_space buf pos + length w)). split.
  - unfold gettoken. rewrite char_at_drop, (proj1 (skip_space_spec pos)), (skip_word_spec pos w tl) by done.
    destruct w as [|c w]; [done|]. rewrite E. cbn [app forallb] in *. zbool.
    pose proof (rest_positive pos c _ E) as Hp.
    match goal with H : wordb c = true |- _ => destruct (wordb_token c H ltac:(lia)) as (E1 & E2 & E3) end.
    by rewrite E1, E2, E3.
  - by apply rest_behind.
Qed.

(** ** The parser ends *)

Definition after_token (pos : nat) : nat := snd (gettoken buf pos).

Lemma char_at_inside i : char_at buf i <> 0 -> (i < es buf)%nat.
Proof.
  unfold char_at, es. intros H. destruct (le_lt_dec (length buf) i); [|done]. by rewrite nth_overflow in H.
Qed.

Lemma after_token_le pos : (pos <= es buf)%nat -> (after_token pos <= es buf)%nat.
Proof.
  intros Hp. unfold after_token, gettoken. destruct (skip_space_spec pos) as (_ & _ & Hq). specialize (Hq Hp).
  set (q := skip_space buf pos) in *. pose proof (char_at_inside q). pose proof (char_at_inside (S q)) as HS.
  assert (Hs : forall (tok : Z) s, (s <= es buf)%nat ->
    (snd (let '(t, s) := (tok, s) in (t, q, s, skip_space buf s)) <= es buf)%nat).
  { intros tok s Hs. cbn [snd]. by apply (skip_space_spec s). }
  destruct (Z.eqb_spec (char_at buf q) 0) as [|Hc]; [by apply Hs|]. specialize (H Hc).
  destruct (_ || _); [apply Hs; lia|]. destruct (_ =? GT); [|apply Hs].
  - destruct (Z.eqb_spec (char_at buf (S q)) GT) as [Hg|]; apply Hs; [|lia]. rewrite Hg in HS.
    specialize (HS ltac:(done)). lia.
  - unfold skip_word. edestruct (skip_while_spec) as (n & -> & Hle & _); [|apply Hle]; lia.
Qed.

Lemma strip_length l : (length (strip l) <= length l)%nat.
Proof. induction l as [|c l IH]; simpl; [lia|]. destruct (spaceb c); simpl; lia. Qed.

Lemma strip_head l c tl : strip l = c :: tl -> spaceb c = false.
Proof.
  induction l as [|d l IH]; [done|]. cbn [strip]. destruct (spaceb d) eqn:Ed; [done|]. by intros [= -> _].
Qed.

Lemma word_of_split l : l = word_of l ++ drop (length (word_of l)) l /\ forallb wordb (word_of l) = true /\
  match drop (length (word_of l)) l with c :: _ => wordb c = false | [] => True end.
Proof.
  induction l as [|c l (E & Hw & Hn)]; [done|]. cbn [word_of]. destruct (wordb c) eqn:Ec.
  - cbn [length drop app forallb]. rewrite <- E, Ec. done.
  - cbn [length drop app forallb]. done.
Qed.

Lemma not_word c : wordb c = false -> spaceb c = false -> c ∈ [BAR; LPAR; RPAR; SEMI; AMP; LT] \/ c = GT.
Proof.
  unfold wordb, spaceb. intros H Hs. rewrite Hs in H. cbn in H.
  rewrite negb_false_iff, !orb_true_iff, !Z.eqb_eq in H.
  unfold BAR, LPAR, RPAR, SEMI, AMP, LT, GT. set_unfold. intuition lia.
Qed.

(** What is behind the first token of the rest. *)
Definition skip_token (l : list Z) : list Z :=
  match l with
  | [] => []
  | c :: tl =>
      if wordb c then strip (drop (length (word_of l)) l)
      else if c =? GT then (match tl with d :: tl' => if d =? GT then strip tl' else strip tl | [] => [] end)
      else strip tl
  end.

Lemma gettoken_rest pos : rest (after_token pos) = skip_token (rest pos).
Proof using Hbuf.
  unfold after_token. destruct (rest pos) as [|c tl] eqn:E.
  - rewrite gettoken_end by done. cbn [snd]. by rewrite !rest_skip.
  - cbn [skip_token]. destruct (wordb c) eqn:Ec.
    + destruct (word_of_split (c :: tl)) as (Es & Hw & Hn).
      destruct (gettoken_word pos (word_of (c :: tl)) (drop (length (word_of (c :: tl))) (c :: tl)))
        as (pos' & -> & Hr); [congruence|cbn [word_of]; by rewrite Ec|done|done|done].
    + destruct (not_word c) as [Hs| ->]; [done|by apply strip_head in E| |].
      * destruct (gettoken_symbol pos c tl E Hs) as (pos' & -> & Hr).
        destruct (Z.eqb_spec c GT) as [->|]; [set_unfold in Hs; naive_solver|done].
      * rewrite Z.eqb_refl. destruct tl as [|d tl].
        { destruct (gettoken_gt pos [] E) as (pos' & -> & Hr); [done|done]. }
        destruct (Z.eqb_spec d GT) as [->|Hd].
        { destruct (gettoken_gtgt pos tl E) as (pos' & -> & Hr). done. }
        destruct (gettoken_gt pos (d :: tl) E) as (pos' & -> & Hr); [congruence|done].
Qed.

Lemma skip_token_shrinks l : l <> [] -> (length (skip_token l) < length l)%nat.
Proof.
  destruct l as [|c tl]; [done|]. intros _. cbn [skip_token]. destruct (wordb c) eqn:Ec.
  - pose proof (strip_length (drop (length (word_of (c :: tl))) (c :: tl))) as H.
    rewrite length_drop in H. cbn [word_of] in *. rewrite Ec in *. simpl in *. lia.
  - pose proof (strip_length tl). destruct (c =? GT); [|simpl; lia].
    destruct tl as [|d tl]; [simpl; lia|]. pose proof (strip_length tl). destruct (d =? GT); simpl in *; lia.
Qed.

Lemma after_token_shrinks pos :
  (length (rest (after_token pos)) <= length (rest pos))%nat /\
  (rest pos <> [] -> length (rest (after_token pos)) < length (rest pos))%nat.
Proof using Hbuf.
  rewrite gettoken_rest. split; [|apply skip_token_shrinks].
  destruct (rest pos) eqn:E; [done|]. rewrite <- E. apply Nat.lt_le_incl, skip_token_shrinks. by rewrite E.
Qed.

Lemma rest_length pos : (length (rest pos) <= es buf)%nat.
Proof. unfold rest, es. pose proof (strip_length (drop pos buf)) as H. rewrite length_drop in H. lia. Qed.

(** A parse that stops with at most [n] characters left. *)
Definition ends {A} (n : nat) (r : presult A) : Prop :=
  match r with
  | POk _ pos => (length (rest pos) <= n)%nat
  | PFuel => False
  | _ => True
  end.

Lemma ends_bind {A B} n m (r : presult A) (k : A -> nat -> presult B) :
  ends n r -> (forall a pos, (length (rest pos) <= n)%nat -> ends m (k a pos)) -> ends m (pbind r k).
Proof. destruct r; simpl; auto. Qed.

Lemma ends_mono {A} n m (r : presult A) : (n <= m)%nat -> ends n r -> ends m r.
Proof. destruct r; simpl; lia || done. Qed.

Lemma gettoken_eta pos : exists tok q eq, gettoken buf pos = (tok, q, eq, after_token pos).
Proof. unfold after_token. destruct (gettoken buf pos) as [[[tok q] eq] pos']. by exists tok, q, eq. Qed.

(** A peek that finds something leaves a token to take. *)
Lemma peek_eta pos toks :
  exists b pos', peek buf pos toks = (b, pos') /\ rest pos' = rest pos /\ (b = true -> rest pos' <> []).
Proof using Hbuf.
  rewrite peek_spec. eexists _, _. split; [done|]. rewrite rest_skip. split; [done|]. by destruct (rest pos).
Qed.

Ltac step_peek :=
  match goal with |- context [peek buf ?pos ?toks] =>
    let b := fresh "b" in let pos' := fresh "pos" in
    destruct (peek_eta pos toks) as (b & pos' & -> & ? & ?); destruct b; cbv beta iota; cbn [negb]
  end.
Ltac step_token :=
  match goal with |- context [gettoken buf ?pos] =>
    let tok := fresh "tok" in let q := fresh "q" in let e := fresh "e" in
    destruct (gettoken_eta pos) as (tok & q & e & ->); cbv beta iota;
    destruct (after_token_shrinks pos)
  end.
(** Lengths of rests that are equal or not empty. *)
Ltac rests :=
  repeat match goal with
  | H : rest ?p = rest _ |- _ => apply (f_equal length) in H
  | H : true = true -> _ |- _ => specialize (H eq_refl)
  | H : ?P -> (length (rest _) < _)%nat, H' : ?P |- _ => specialize (H H')
  end; lia.

Lemma parseredirs_ends pos fuel :
  (length (rest pos) < fuel)%nat -> ends (length (rest pos)) (parseredirs buf pos fuel).
Proof using Hbuf.
  revert pos. induction fuel as [|fuel IH]; intros pos Hf; [lia|]. cbn [parseredirs].
  step_peek; [|simpl; rests]. step_token. step_token. destruct (negb _); [done|].
  eapply ends_bind; [apply IH; rests|]. intros rs pos' Hle. simpl. rests.
Qed.

Lemma parseredirs_all pos : ends (length (rest pos)) (parseredirs buf pos (S (es buf))).
Proof using Hbuf. apply parseredirs_ends. pose proof (rest_length pos). lia. Qed.

Lemma gettoken_zero pos tok q e : gettoken buf pos = (tok, q, e, after_token pos) -> tok <> 0 -> rest pos <> [].
Proof. intros E Ht Hr. rewrite gettoken_end in E by done. congruence. Qed.

Lemma parseargs_ends pos argc fuel :
  (length (rest pos) < fuel)%nat -> ends (length (rest pos)) (parseargs buf pos argc fuel).
Proof using Hbuf.
  revert pos argc. induction fuel as [|fuel IH]; intros pos argc Hf; [lia|]. cbn [parseargs].
  step_peek; [simpl; rests|]. destruct (gettoken_eta pos0) as (tok & q & e & E). rewrite E. cbv beta iota.
  destruct (after_token_shrinks pos0). destruct (Z.eqb_spec tok 0) as [_|Ht]; [simpl; rests|].
  pose proof (gettoken_zero _ _ _ _ E Ht).
  destruct (negb _); [done|]. destruct (_ <=? _)%nat; [done|].
  eapply ends_bind; [apply parseredirs_all|]. intros rs pos' Hle. cbv beta.
  eapply ends_bind; [apply IH; rests|]. intros [args rs'] pos'' Hle'. simpl. rests.
Qed.

Lemma parseback_ends c pos fuel :
  (length (rest pos) < fuel)%nat -> ends (length (rest pos)) (parseback buf c pos fuel).
Proof using Hbuf.
  revert c pos. induction fuel as [|fuel IH]; intros c pos Hf; [lia|]. cbn [parseback].
  step_peek; [|simpl; rests]. step_token. eapply ends_mono; [|apply IH]; rests.
Qed.

Lemma parse_ends fuel :
  (forall pos, (3 * length (rest pos) + 3 <= fuel)%nat -> ends (length (rest pos)) (parseline buf pos fuel)) /\
  (forall pos, (3 * length (rest pos) + 2 <= fuel)%nat -> ends (length (rest pos)) (parsepipe buf pos fuel)) /\
  (forall pos, (3 * length (rest pos) + 1 <= fuel)%nat -> ends (length (rest pos)) (parseexec buf pos fuel)).
Proof using Hbuf.
  induction fuel as [|fuel (IHl & IHp & IHe)]; [split; [|split]; intros; lia|].
  split; [|split]; intros pos Hf; cbn [parseline parsepipe parseexec].
  - eapply ends_bind; [apply IHp; lia|]. intros c pos1 Hc1. cbv beta.
    eapply ends_bind; [apply parseback_ends; pose proof (rest_length pos1); lia|]. intros c' pos2 Hc2. cbv beta.
    step_peek; [|simpl; rests]. step_token. eapply ends_bind; [apply IHl; rests|]. intros r pos4 Hr4. simpl. rests.
  - eapply ends_bind; [apply IHe; lia|]. intros c pos1 Hc1. cbv beta.
    step_peek; [|simpl; rests]. step_token. eapply ends_bind; [apply IHp; rests|]. intros r pos4 Hr4. simpl. rests.
  - step_peek.
    + step_token. eapply ends_bind; [apply IHl; rests|]. intros c pos1 Hc1. cbv beta.
      step_peek; [|done]. step_token. eapply ends_bind; [apply parseredirs_all|]. intros rs pos3 Hs3. simpl. rests.
    + eapply ends_bind; [apply parseredirs_all|]. intros rs pos1 Hs1. cbv beta.
      eapply ends_bind; [apply parseargs_ends; pose proof (rest_length pos1); lia|].
      intros [args rs'] pos2 Ha2. simpl. rests.
Qed.
End line.

(** C20: Parsing ends on every command line: the mutually recursive parser of
    the shell never needs more calls than the bound it is given, so it returns
    a tree, reports the leftovers, or panics with a message. *)
Theorem parsecmd_ends line : Forall (fun c => 0 < c < 256) line -> parsecmd line <> PFuel.
Proof.
  intros Hl E. unfold parsecmd in E.
  destruct (parse_ends line Hl (parse_fuel line)) as (H & _). specialize (H 0%nat).
  destruct (parseline line 0 (parse_fuel line)); simpl in *; try done; [by destruct (negb _)|].
  apply H. pose proof (rest_length line 0). unfold parse_fuel. lia.
Qed.

Lemma parsecmd_ends_witness : parsecmd [40; 40; 124; 41; 62] <> PFuel.
Proof. apply parsecmd_ends. repeat constructor. Defined.
