(* ===== verification/ShParse.v ===== *)
(** * The shell: what the parser reads

    The grammar of command lines as data, the tokens of a line, and the tree a
    line stands for.  A line with the tokens of a command is parsed into the
    tree of that command, and the strings that nulterminate leaves in the
    buffer are the words of the line. *)

From S2P Require Import Prelude Sh ShSpec.

Open Scope Z_scope.

(** ** Tokens of a text *)

Inductive token : Type :=
| TSym (c : Z)
| TApp                      (* >> *)
| TWord (w : list Z).

Definition one_char : list Z := [BAR; LPAR; RPAR; SEMI; AMP; LT].

Definition starts_word (l : list Z) : bool := match l with c :: _ => wordb c | [] => false end.

Definition word_ok (w : list Z) : Prop := w <> [] /\ forallb wordb w = true.

(** [lexes l ts]: the text [l] consists of the tokens [ts], with white space
    around them. *)
Inductive lexes : list Z -> list token -> Prop :=
| lexes_nil l : strip l = [] -> lexes l []
| lexes_sym l c tl ts : strip l = c :: tl -> c ∈ one_char -> lexes tl ts -> lexes l (TSym c :: ts)
| lexes_gt l tl ts : strip l = GT :: tl -> hd 0 tl <> GT -> lexes tl ts -> lexes l (TSym GT :: ts)
| lexes_app l tl ts : strip l = GT :: GT :: tl -> lexes tl ts -> lexes l (TApp :: ts)
| lexes_word l w tl ts : strip l = w ++ tl -> word_ok w -> starts_word tl = false -> lexes tl ts ->
    lexes l (TWord w :: ts).

Lemma strip_idem l : strip (strip l) = strip l.
Proof. induction l as [|c l IH]; [done|]. cbn [strip]. destruct (spaceb c) eqn:E; [done|]. cbn [strip]. by rewrite E. Qed.

Lemma lexes_ext l l' ts : strip l = strip l' -> lexes l ts -> lexes l' ts.
Proof.
  intros E H. inversion H; subst; rewrite E in *;
    eauto using lexes_nil, lexes_sym, lexes_gt, lexes_app, lexes_word.
Qed.

Lemma lexes_strip l ts : lexes l ts <-> lexes (strip l) ts.
Proof. split; apply lexes_ext; by rewrite strip_idem. Qed.

(** A text with the tokens [ts]: a blank before each. *)
Definition token_text (t : token) : list Z :=
  match t with TSym c => [c] | TApp => [GT; GT] | TWord w => w end.

Definition print (ts : list token) : list Z := concat (map (fun t => 32 :: token_text t) ts) ++ [10].

Definition token_ok (t : token) : Prop :=
  match t with TSym c => c ∈ symbols | TApp => True | TWord w => word_ok w end.

Lemma symbols_one_char c : c ∈ symbols -> c ∈ one_char \/ c = GT.
Proof. unfold symbols, one_char, BAR, LPAR, RPAR, SEMI, AMP, LT, GT. set_unfold. intuition lia. Qed.

Lemma print_lexes ts : Forall token_ok ts -> lexes (print ts) ts.
Proof.
  induction 1 as [|t ts Ht Hts IH]; [by constructor|].
  assert (Htl : exists tl, print ts = tl /\ hd 0 tl <> GT /\ starts_word tl = false).
  { eexists. split; [done|]. by destruct ts. }
  destruct Htl as (tl & E & Hgt & Hw). rewrite E in IH.
  assert (Ep : print (t :: ts) = 32 :: token_text t ++ tl).
  { rewrite <- E. unfold print. cbn [map concat app]. by rewrite <- app_assoc. }
  rewrite Ep. destruct t as [c| |w]; cbn [token_text app token_ok] in *.
  - destruct (symbols_one_char c Ht) as [Hc| ->]; [|by eapply lexes_gt].
    eapply lexes_sym; [|done|done]. cbn. unfold one_char in Hc. set_unfold in Hc.
    by destruct Hc as [->|[->|[->|[->|[->|[->|[]]]]]]].
  - by eapply lexes_app.
  - eapply lexes_word; [|done..]. cbn. destruct Ht as (Hne & Hall). destruct w as [|c w]; [done|].
    cbn [app strip forallb] in *. zbool. unfold wordb, spaceb in *. zbool.
    match goal with H : among whitespace c = false |- _ => by rewrite H end.
Qed.

(** ** The grammar *)

Inductive redir : Type :=
| RIn (w : list Z)
| ROut (w : list Z)
| RApp (w : list Z).

Inductive sline : Type :=
| SEnd (p : spipe) (amps : nat)
| SSeq (p : spipe) (amps : nat) (l : sline)
with spipe : Type :=
| SOne (e : sexec)
| SBar (e : sexec) (p : spipe)
with sexec : Type :=
| SExec (pre : list redir) (args : list (list Z * list redir))
| SBlock (l : sline) (rs : list redir).

Definition redir_tokens (r : redir) : list token :=
  match r with
  | RIn w => [TSym LT; TWord w]
  | ROut w => [TSym GT; TWord w]
  | RApp w => [TApp; TWord w]
  end.
Definition redirs_tokens (rs : list redir) : list token := concat (map redir_tokens rs).
Definition args_tokens (args : list (list Z * list redir)) : list token :=
  concat (map (fun a => TWord (fst a) :: redirs_tokens (snd a)) args).

Fixpoint line_tokens (l : sline) : list token :=
  match l with
  | SEnd p n => pipe_tokens p ++ repeat (TSym AMP) n
  | SSeq p n l => pipe_tokens p ++ repeat (TSym AMP) n ++ TSym SEMI :: line_tokens l
  end
with pipe_tokens (p : spipe) : list token :=
  match p with
  | SOne e => exec_tokens e
  | SBar e p => exec_tokens e ++ TSym BAR :: pipe_tokens p
  end
with exec_tokens (e : sexec) : list token :=
  match e with
  | SExec pre args => redirs_tokens pre ++ args_tokens args
  | SBlock l rs => TSym LPAR :: line_tokens l ++ TSym RPAR :: redirs_tokens rs
  end.

(** Fewer than MAXARGS arguments. *)
Fixpoint line_ok (l : sline) : Prop :=
  match l with
  | SEnd p _ => pipe_ok p
  | SSeq p _ l => pipe_ok p /\ line_ok l
  end
with pipe_ok (p : spipe) : Prop :=
  match p with
  | SOne e => exec_ok e
  | SBar e p => exec_ok e /\ pipe_ok p
  end
with exec_ok (e : sexec) : Prop :=
  match e with
  | SExec _ args => (length args < MAXARGS)%nat
  | SBlock l _ => line_ok l
  end.

(** ** What a line stands for *)

Inductive acmd : Type :=
| AExec (argv : list (list Z))
| ARedir (c : acmd) (file : list Z) (mode fd : Z)
| APipe (left right : acmd)
| AList (left right : acmd)
| ABack (c : acmd).

Definition redir_means (c : acmd) (r : redir) : acmd :=
  match r with
  | RIn w => ARedir c w MODE_READ 0
  | ROut w | RApp w => ARedir c w MODE_WRITE 1
  end.
Definition redirs_mean (c : acmd) (rs : list redir) : acmd := fold_left redir_means rs c.

Definition backs (n : nat) (c : acmd) : acmd := Nat.iter n ABack c.

Fixpoint line_means (l : sline) : acmd :=
  match l with
  | SEnd p n => backs n (pipe_means p)
  | SSeq p n l => AList (backs n (pipe_means p)) (line_means l)
  end
with pipe_means (p : spipe) : acmd :=
  match p with
  | SOne e => exec_means e
  | SBar e p => APipe (exec_means e) (pipe_means p)
  end
with exec_means (e : sexec) : acmd :=
  match e with
  | SExec pre args => redirs_mean (AExec (map fst args)) (pre ++ concat (map snd args))
  | SBlock l rs => redirs_mean (line_means l) rs
  end.

(** The tree of the parser with its strings read from the buffer [b]. *)
Definition str_at (b : list Z) (q : nat) : list Z := string_at b q (S (length b)).

Fixpoint read_tree (b : list Z) (c : cmd) : acmd :=
  match c with
  | EXEC argv => AExec (map (fun a => str_at b (fst a)) argv)
  | REDIR c file _ mode fd => ARedir (read_tree b c) (str_at b file) mode fd
  | PIPE l r => APipe (read_tree b l) (read_tree b r)
  | LIST l r => AList (read_tree b l) (read_tree b r)
  | BACK c => ABack (read_tree b c)
  end.

(** ** The parser on a line with known tokens *)

Section parsing.
Context (buf : list Z).
Context (Hbuf : Forall (fun c => 0 < c < 256) buf).

Definition at_tokens (pos : nat) (ts : list token) : Prop := lexes (drop pos buf) ts /\ (pos <= es buf)%nat.

(** The word [w] between the offsets [q] and [e]. *)
Definition word_at (q e : nat) (w : list Z) : Prop :=
  slice q (length w) buf = w /\ e = (q + length w)%nat /\ word_ok w /\ starts_word (drop e buf) = false.

Definition redir_at (r : nat * nat * Z * Z) (s : redir) : Prop :=
  let '(q, e, mode, fd) := r in
  match s with
  | RIn w => word_at q e w /\ mode = MODE_READ /\ fd = 0
  | ROut w | RApp w => word_at q e w /\ mode = MODE_WRITE /\ fd = 1
  end.

Fixpoint tree_at (c : cmd) (a : acmd) : Prop :=
  match c, a with
  | EXEC argv, AExec ws => Forall2 (fun p w => word_at (fst p) (snd p) w) argv ws
  | REDIR c q e mode fd, ARedir a w mode' fd' => tree_at c a /\ word_at q e w /\ mode = mode' /\ fd = fd'
  | PIPE l r, APipe l' r' => tree_at l l' /\ tree_at r r'
  | LIST l r, AList l' r' => tree_at l l' /\ tree_at r r'
  | BACK c, ABack a => tree_at c a
  | _, _ => False
  end.

Lemma redir_all_at c a rs ss :
  tree_at c a -> Forall2 redir_at rs ss -> tree_at (redir_all c rs) (redirs_mean a ss).
Proof.
  intros Hc H. revert c a Hc. induction H as [|[[[q e] m] fd] s rs ss Hr Hrs IH]; intros c a Hc; [done|].
  cbn [redir_all redirs_mean fold_left]. apply IH. destruct s; destruct Hr as (? & -> & ->); done.
Qed.

Lemma at_tokens_rest pos' l ts : rest buf pos' = strip l -> lexes l ts -> (pos' <= es buf)%nat -> at_tokens pos' ts.
Proof. intros E Hl Hle. split; [|done]. revert Hl. apply lexes_ext. by rewrite <- E. Qed.

Lemma at_sym pos c ts : at_tokens pos (TSym c :: ts) ->
  exists q e, gettoken buf pos = (c, q, e, after_token buf pos) /\ at_tokens (after_token buf pos) ts.
Proof using Hbuf.
  intros (H & Hle%after_token_le). revert Hle.
  inversion H as [|? ? tl ? E Hc Hl|? tl ? E Hc Hl| |]; subst; unfold after_token.
  - destruct (gettoken_symbol buf pos c tl E Hc) as (pos' & -> & Hr). eauto using at_tokens_rest.
  - destruct (gettoken_gt buf pos tl E) as (pos' & -> & Hr); [by intros tl' ->|]. eauto using at_tokens_rest.
Qed.

Lemma at_app pos ts : at_tokens pos (TApp :: ts) ->
  exists q e, gettoken buf pos = (PLUS, q, e, after_token buf pos) /\ at_tokens (after_token buf pos) ts.
Proof using Hbuf.
  intros (H & Hle%after_token_le). revert Hle. inversion H as [| | |? tl ? E Hl|]; subst; unfold after_token.
  destruct (gettoken_gtgt buf pos tl E) as (pos' & -> & Hr). eauto using at_tokens_rest.
Qed.

Lemma at_word pos w ts : at_tokens pos (TWord w :: ts) ->
  exists q e, gettoken buf pos = (WORD, q, e, after_token buf pos) /\ word_at q e w /\
    at_tokens (after_token buf pos) ts.
Proof using Hbuf.
  intros (H & Hle%after_token_le). revert Hle.
  inversion H as [| | | |? ? tl ? E Hw Hs Hl]; subst; unfold after_token.
  destruct (gettoken_word buf Hbuf pos w tl E) as (pos' & -> & Hr); [apply Hw|apply Hw|by destruct tl|].
  intros Hle. eexists _, _. split; [done|]. split; [|eauto using at_tokens_rest].
  split; [by eapply rest_slice|]. split; [done|]. split; [done|].
  rewrite <- drop_drop, (proj1 (skip_space_spec buf pos)). unfold rest. by rewrite E, drop_app_length.
Qed.

Lemma at_end pos : at_tokens pos [] -> exists q e pos', gettoken buf pos = (0, q, e, pos') /\ at_tokens pos' [].
Proof.
  intros (H & Hle). inversion H as [? E| | | |]; subst. rewrite gettoken_end by done.
  eexists _, _, _. split; [done|]. split; [apply lexes_nil|by repeat apply (skip_space_spec buf)].
  change (rest buf (skip_space buf (skip_space buf pos)) = []). by rewrite !rest_skip.
Qed.

(** Whether the next token starts with one of [toks]. *)
Definition peeks (toks : list Z) (ts : list token) : bool :=
  match ts with TSym c :: _ => among toks c | TApp :: _ => among toks GT | _ => false end.

Lemma among_in s c : among s c = true <-> c ∈ s.
Proof. unfold among. rewrite existsb_exists. setoid_rewrite Z.eqb_eq. rewrite list_elem_of_In. naive_solver. Qed.

Lemma at_peek pos ts toks : at_tokens pos ts -> forallb (among symbols) toks = true ->
  exists pos', peek buf pos toks = (peeks toks ts, pos') /\ at_tokens pos' ts /\ rest buf pos' = rest buf pos.
Proof using Hbuf.
  intros H Ht. exists (skip_space buf pos). rewrite (peek_spec buf Hbuf). split; [f_equal|].
  - destruct H as [H _].
    inversion H as [? E|? ? ? ? E|? ? ? E|? ? ? E|? w ? ? E Hw]; subst; fold (rest buf pos) in E; rewrite E; try done.
    destruct Hw as (Hne & Hall). destruct w as [|c w]; [done|]. cbn [app peeks]. apply not_true_iff_false.
    rewrite among_in. intros Hc. rewrite forallb_forall in Ht. apply list_elem_of_In, Ht in Hc.
    cbn [forallb] in Hall. unfold wordb in Hall. rewrite Hc, andb_false_r in Hall. done.
  - split; [|apply rest_skip]. destruct H as [H Hle]. split; [|by apply (skip_space_spec buf)].
    rewrite (proj1 (skip_space_spec buf pos)). unfold rest. by apply lexes_strip in H.
Qed.

Lemma lexes_length l ts : lexes l ts -> (length ts <= length l)%nat.
Proof.
  induction 1 as [|l c tl ts E _ _ IH|l tl ts E _ _ IH|l tl ts E _ IH|l w tl ts E (Hw & _) _ _ IH];
    [simpl; lia|pose proof (strip_length l) as H; rewrite E in H; simpl in *; lia..|].
  pose proof (strip_length l) as H. rewrite E, length_app in H. destruct w; [done|]. simpl in *. lia.
Qed.

Lemma at_length pos ts : at_tokens pos ts -> (length ts <= es buf)%nat.
Proof. intros (H & _). apply lexes_length in H. rewrite length_drop in H. unfold es. lia. Qed.

(** Decides the peek that the goal looks at next. *)
Ltac read_peek H :=
  match goal with |- context [peek buf ?pos ?toks] =>
    let pos' := fresh "pos" in let H' := fresh H in let Hr := fresh "Hrest" in
    destruct (at_peek pos _ toks H eq_refl) as (pos' & -> & H' & Hr); clear H; rename H' into H
  end.
Lemma parseredirs_reads pos ss ts fuel :
  at_tokens pos (redirs_tokens ss ++ ts) -> peeks [LT; GT] ts = false -> (length ss < fuel)%nat ->
  exists rs pos', parseredirs buf pos fuel = POk rs pos' /\ Forall2 redir_at rs ss /\ at_tokens pos' ts.
Proof using Hbuf.
  revert pos fuel. induction ss as [|s ss IH]; intros pos fuel H Hts Hf; (destruct fuel as [|fuel]; [simpl in Hf; lia|]);
    cbn [parseredirs]; read_peek H.
  - cbn [redirs_tokens map concat app]. rewrite Hts. eauto using Forall2_nil_2.
  - unfold redirs_tokens in *. cbn [map concat] in *. rewrite <- app_assoc in H |- *.
    destruct (at_word (after_token buf pos0) (match s with RIn w | ROut w | RApp w => w end)
      (concat (map redir_tokens ss) ++ ts)) as (q & e & Et & Hw & Hat).
    { destruct s; cbn [redir_tokens app] in H; first [apply at_sym in H|apply at_app in H];
        by destruct H as (? & ? & _ & ?). }
    destruct (IH _ fuel Hat Hts) as (rs & pos' & Er & Hrs & Hat'); [simpl in *; lia|].
    assert (Hfirst : exists tok q0 e0, gettoken buf pos0 = (tok, q0, e0, after_token buf pos0) /\
      tok = match s with RIn _ => LT | ROut _ => GT | RApp _ => PLUS end).
    { destruct s; cbn [redir_tokens app] in H; first [apply at_sym in H|apply at_app in H];
        destruct H as (? & ? & -> & ?); eauto. }
    destruct Hfirst as (tok & q0 & e0 & -> & ->).
    assert (Hp : peeks [LT; GT] (redir_tokens s ++ concat (map redir_tokens ss) ++ ts) = true) by by destruct s.
    rewrite Hp, Et. cbn [negb Z.eqb WORD]. rewrite Er. cbn [pbind]. eexists _, _. split; [done|].
    split; [|done]. constructor; [|done]. by destruct s.
Qed.

(** The tokens that may follow a phrase. *)
Definition stops (toks : list Z) (ts : list token) : bool :=
  match ts with [] => true | TSym c :: _ => among toks c | _ => false end.

Lemma redirs_length ss ts pos : at_tokens pos (redirs_tokens ss ++ ts) -> (length ss < S (es buf))%nat.
Proof.
  intros H. apply at_length in H. rewrite length_app in H.
  assert (length ss <= length (redirs_tokens ss))%nat; [|lia].
  unfold redirs_tokens. clear. induction ss as [|s ss IH]; [done|]. cbn [map concat length]. rewrite length_app.
  destruct s; simpl; lia.
Qed.

Lemma parseargs_reads pos args argc ts fuel :
  at_tokens pos (args_tokens args ++ ts) -> stops [BAR; RPAR; AMP; SEMI] ts = true ->
  (argc + length args < MAXARGS)%nat -> (length args < fuel)%nat ->
  exists ps rs pos', parseargs buf pos argc fuel = POk (ps, rs) pos' /\
    Forall2 (fun p w => word_at (fst p) (snd p) w) ps (map fst args) /\
    Forall2 redir_at rs (concat (map snd args)) /\ at_tokens pos' ts.
Proof using Hbuf.
  revert pos argc fuel. induction args as [|[w ss] args IH]; intros pos argc fuel H Hts Ha Hf;
    (destruct fuel as [|fuel]; [simpl in Hf; lia|]); cbn [parseargs]; read_peek H.
  - destruct ts as [|[c| |w] ts]; cbn [args_tokens map concat app peeks stops] in *; try done.
    + destruct (at_end pos0 H) as (q & e & pos' & -> & Hat). cbn [Z.eqb]. eauto 10.
    + rewrite Hts. eauto 10.
  - unfold args_tokens in H |- *. cbn [map concat fst snd app peeks] in *. rewrite <- app_assoc in H.
    destruct (at_word _ _ _ H) as (q & e & -> & Hw & Hat). cbn [negb Z.eqb WORD].
    replace (MAXARGS <=? S argc)%nat with false by (symmetry; apply Nat.leb_gt; simpl in *; lia).
    assert (Hno : peeks [LT; GT] (args_tokens args ++ ts) = false).
    { destruct args as [|[]]; [|done]. destruct ts as [|[c| |] ts]; try done. cbn in Hts |- *.
      rewrite !orb_true_iff, !Z.eqb_eq in Hts. rewrite !orb_false_iff, !Z.eqb_neq.
      unfold BAR, RPAR, AMP, SEMI, LT, GT in *. lia. }
    destruct (parseredirs_reads _ ss _ (S (es buf)) Hat Hno) as (rs & pos1 & -> & Hrs & H1);
      [by eapply redirs_length|]. cbn [pbind].
    destruct (IH pos1 (S argc) fuel H1 Hts) as (ps & rs' & pos2 & -> & Hps & Hrs' & H2); [simpl in *; lia..|].
    cbn [pbind]. eexists _, _, _. split; [done|]. split; [by constructor|]. split; [by apply Forall2_app|done].
Qed.

Lemma parseback_reads c a pos n ts fuel :
  at_tokens pos (repeat (TSym AMP) n ++ ts) -> peeks [AMP] ts = false -> (n < fuel)%nat -> tree_at c a ->
  exists c' pos', parseback buf c pos fuel = POk c' pos' /\ tree_at c' (backs n a) /\ at_tokens pos' ts.
Proof using Hbuf.
  revert c a pos fuel. induction n as [|n IH]; intros c a pos fuel H Hts Hf Hc;
    (destruct fuel as [|fuel]; [lia|]); cbn [parseback]; read_peek H.
  - cbn [repeat app]. rewrite Hts. eauto.
  - cbn [repeat app peeks] in *. change (among [AMP] AMP) with true. cbv iota.
    destruct (at_sym _ _ _ H) as (q & e & -> & Hat).
    destruct (IH (BACK c) (ABack a) _ fuel Hat Hts) as (c' & pos' & -> & Hc' & H'); [lia|done|].
    eexists _, _. split; [done|]. split; [|done]. unfold backs in *. by rewrite Nat.iter_succ_r.
Qed.

(** A parse that gives the tree of [a] and stops in front of [ts]. *)
Definition reads (r : presult cmd) (n : nat) (a : acmd) (ts : list token) : Prop :=
  exists c pos, r = POk c pos /\ tree_at c a /\ at_tokens pos ts /\ (length (rest buf pos) <= n)%nat.

Lemma reads_intro r n a ts :
  ends buf n r -> (exists c pos, r = POk c pos /\ tree_at c a /\ at_tokens pos ts) -> reads r n a ts.
Proof. intros He (c & pos & -> & Hc & Hat). by exists c, pos. Qed.

Lemma at_token_shrinks pos t ts :
  at_tokens pos (t :: ts) -> (length (rest buf (after_token buf pos)) < length (rest buf pos))%nat.
Proof using Hbuf.
  intros (H & _). apply (after_token_shrinks buf Hbuf). unfold rest.
  inversion H as [|? ? ? ? E|? ? ? E|? ? ? E|? w ? ? E [Hw _]]; subst; rewrite E; try done. by destruct w.
Qed.

Lemma amps_length pos n ts : at_tokens pos (repeat (TSym AMP) n ++ ts) -> (n < S (es buf))%nat.
Proof. intros H. apply at_length in H. rewrite length_app, repeat_length in H. lia. Qed.

Lemma args_length pos args ts : at_tokens pos (args_tokens args ++ ts) -> (length args < S (es buf))%nat.
Proof.
  intros H. apply at_length in H. rewrite length_app in H.
  assert (length args <= length (args_tokens args))%nat; [|lia].
  unfold args_tokens. clear. induction args as [|s args IH]; [done|]. cbn [map concat length app]. rewrite length_app.
  lia.
Qed.

Lemma stops_more toks toks' ts :
  stops toks ts = true -> forallb (among toks') toks = true -> stops toks' ts = true.
Proof.
  destruct ts as [|[c| |w] ts]; cbn [stops]; try done. rewrite among_in, forallb_forall.
  intros Hc H. apply H. by apply list_elem_of_In.
Qed.

Lemma stops_no_peek toks toks' ts :
  stops toks ts = true -> forallb (fun c => negb (among toks' c)) toks = true -> peeks toks' ts = false.
Proof.
  destruct ts as [|[c| |w] ts]; cbn [stops peeks]; try done. rewrite among_in, forallb_forall.
  intros Hc H. apply list_elem_of_In, H in Hc. by zbool.
Qed.

Definition reads_line fuel := forall l pos ts, line_ok l -> at_tokens pos (line_tokens l ++ ts) ->
  stops [RPAR] ts = true -> (3 * length (rest buf pos) + 3 <= fuel)%nat ->
  reads (parseline buf pos fuel) (length (rest buf pos)) (line_means l) ts.
Definition reads_pipe fuel := forall p pos ts, pipe_ok p -> at_tokens pos (pipe_tokens p ++ ts) ->
  stops [RPAR; AMP; SEMI] ts = true -> (3 * length (rest buf pos) + 2 <= fuel)%nat ->
  reads (parsepipe buf pos fuel) (length (rest buf pos)) (pipe_means p) ts.
Definition reads_exec fuel := forall e pos ts, exec_ok e -> at_tokens pos (exec_tokens e ++ ts) ->
  stops [BAR; RPAR; AMP; SEMI] ts = true -> (3 * length (rest buf pos) + 1 <= fuel)%nat ->
  reads (parseexec buf pos fuel) (length (rest buf pos)) (exec_means e) ts.

Lemma reads_pipe_step fuel : reads_exec fuel -> reads_pipe fuel -> reads_pipe (S fuel).
Proof using Hbuf.
  intros IHe IHp p pos ts Hok H Hts Hf.
  apply reads_intro; [by apply (parse_ends buf Hbuf)|]. cbn [parsepipe].
  assert (Hstop : stops [BAR; RPAR; AMP; SEMI] ts = true) by (eapply stops_more; [exact Hts|done]).
  destruct p as [e|e p]; cbn [pipe_ok pipe_tokens pipe_means] in *.
  - destruct (IHe e pos ts) as (c & pos1 & -> & Hc & H1 & Hle); [done..|lia|]. cbn [pbind].
    read_peek H1. rewrite (stops_no_peek _ [BAR] _ Hts) by done. eauto.
  - destruct Hok as (Hoke & Hokp). rewrite <- app_assoc in H.
    destruct (IHe e pos (TSym BAR :: pipe_tokens p ++ ts)) as (c & pos1 & -> & Hc & H1 & Hle); [done..|lia|]. cbn [pbind].
    read_peek H1. cbn [peeks]. change (among [BAR] BAR) with true. cbv iota.
    pose proof (at_token_shrinks _ _ _ H1) as Hsh. destruct (at_sym _ _ _ H1) as (q & e0 & -> & H2).
    destruct (IHp p (after_token buf pos0) ts) as (r & pos2 & -> & Hr & H3 & Hle'); [done..|rewrite Hrest in *; lia|].
    cbn [pbind]. eexists _, _. done.
Qed.

Lemma reads_line_step fuel : reads_pipe fuel -> reads_line fuel -> reads_line (S fuel).
Proof using Hbuf.
  intros IHp IHl l pos ts Hok H Hts Hf.
  apply reads_intro; [by apply (parse_ends buf Hbuf)|]. cbn [parseline].
  assert (Hstop : stops [RPAR; AMP; SEMI] ts = true) by (eapply stops_more; [exact Hts|done]).
  destruct l as [p n|p n l]; cbn [line_ok line_tokens line_means] in *.
  - rewrite <- app_assoc in H.
    destruct (IHp p pos (repeat (TSym AMP) n ++ ts)) as (c & pos1 & -> & Hc & H1 & Hle); [done|done|by destruct n|lia|].
    cbn [pbind].
    destruct (parseback_reads c (pipe_means p) pos1 n ts (S (es buf))) as (c' & pos2 & -> & Hc' & H2);
      [done|by apply (stops_no_peek [RPAR])|by eapply amps_length|done|]. cbn [pbind].
    read_peek H2. rewrite (stops_no_peek _ [SEMI] _ Hts) by done. eauto.
  - destruct Hok as (Hokp & Hokl). rewrite <- !app_assoc in H. cbn [app] in H.
    destruct (IHp p pos (repeat (TSym AMP) n ++ TSym SEMI :: line_tokens l ++ ts)) as (c & pos1 & -> & Hc & H1 & Hle);
      [done|done|by destruct n|lia|]. cbn [pbind].
    destruct (parseback_reads c (pipe_means p) pos1 n (TSym SEMI :: line_tokens l ++ ts) (S (es buf)))
      as (c' & pos2 & Eb & Hc' & H2); [done|done|by eapply amps_length|done|].
    pose proof (parseback_ends buf Hbuf c pos1 (S (es buf))) as Hb. rewrite Eb in *. cbn [pbind ends] in *.
    pose proof (rest_length buf pos1) as Hlen. specialize (Hb ltac:(lia)).
    read_peek H2. cbn [peeks]. change (among [SEMI] SEMI) with true. cbv iota.
    pose proof (at_token_shrinks _ _ _ H2) as Hsh. destruct (at_sym _ _ _ H2) as (q & e0 & -> & H3).
    destruct (IHl l (after_token buf pos0) ts) as (r & pos4 & -> & Hr & H4 & Hle'); [done..|rewrite Hrest in *; lia|].
    cbn [pbind]. eexists _, _. done.
Qed.

Lemma reads_exec_step fuel : reads_line fuel -> reads_exec (S fuel).
Proof using Hbuf.
  intros IHl e pos ts Hok H Hts Hf.
  apply reads_intro; [by apply (parse_ends buf Hbuf)|]. cbn [parseexec].
  assert (Hno : peeks [LT; GT] ts = false) by by eapply stops_no_peek.
  destruct e as [pre args|l rs]; cbn [exec_ok exec_tokens exec_means] in *.
  - read_peek H.
    assert (Hn : peeks [LPAR] ((redirs_tokens pre ++ args_tokens args) ++ ts) = false).
    { destruct pre as [|[]]; [destruct args as [|[]]|..]; try done. by eapply stops_no_peek. }
    rewrite Hn. rewrite <- app_assoc in H.
    destruct (parseredirs_reads pos0 pre (args_tokens args ++ ts) (S (es buf))) as (rs & pos1 & -> & Hrs & H1);
      [done|by destruct args as [|[]]|by eapply redirs_length|]. cbn [pbind].
    destruct (parseargs_reads pos1 args 0 ts (S (es buf))) as (ps & rs' & pos2 & -> & Hps & Hrs' & H2);
      [done|done|done|by eapply args_length|]. cbn [pbind].
    eexists _, _. split; [done|]. split; [|done]. apply redir_all_at; [done|by apply Forall2_app].
  - cbn [app] in H. rewrite <- app_assoc in H. cbn [app] in H. read_peek H. cbn [peeks].
    change (among [LPAR] LPAR) with true. cbv iota.
    pose proof (at_token_shrinks _ _ _ H) as Hsh. destruct (at_sym _ _ _ H) as (q & e0 & -> & H1).
    destruct (IHl l (after_token buf pos0) (TSym RPAR :: redirs_tokens rs ++ ts)) as (c & pos1 & -> & Hc & H2 & Hle);
      [done..|rewrite Hrest in *; lia|]. cbn [pbind].
    read_peek H2. cbn [peeks]. change (among [RPAR] RPAR) with true. cbn [negb].
    destruct (at_sym _ _ _ H2) as (q1 & e1 & -> & H3).
    destruct (parseredirs_reads _ rs ts (S (es buf)) H3 Hno) as (rs' & pos3 & -> & Hrs & H4); [by eapply redirs_length|].
    cbn [pbind]. eexists _, _. split; [done|]. split; [|done]. by apply redir_all_at.
Qed.

Lemma parse_reads fuel : reads_line fuel /\ reads_pipe fuel /\ reads_exec fuel.
Proof using Hbuf.
  induction fuel as [|fuel (IHl & IHp & IHe)]; [split; [|split]; intros ???; lia|].
  auto using reads_line_step, reads_pipe_step, reads_exec_step.
Qed.

Lemma parsecmd_tree l : line_ok l -> lexes buf (line_tokens l) ->
  exists c pos, parsecmd buf = POk c pos /\ tree_at c (line_means l).
Proof using Hbuf.
  intros Hok H. unfold parsecmd.
  destruct (proj1 (parse_reads (parse_fuel buf)) l 0%nat []) as (c & pos & -> & Hc & Hat & _);
    [done|split; [by rewrite app_nil_r|lia]|done|pose proof (rest_length buf 0); unfold parse_fuel; lia|].
  cbn [pbind]. unfold peek. exists c, (skip_space buf pos). split; [|done].
  destruct (Nat.eqb_spec (skip_space buf pos) (es buf)) as [|Hne]; [done|].
  destruct Hat as (Hl & Hle). inversion Hl as [? E| | | |]; subst. destruct (skip_space_spec buf pos) as (Ed & _ & Hq).
  specialize (Hq Hle). apply (f_equal length) in Ed. unfold rest in Ed. rewrite E, length_drop in Ed.
  unfold es in *. simpl in Ed. lia.
Qed.

(** ** The strings that nulterminate leaves *)

(** [b] is the line with some bytes outside its words replaced by NUL. *)
Definition keeps_words (b : list Z) : Prop :=
  length b = length buf /\ forall i c, buf !! i = Some c -> wordb c = true -> b !! i = Some c.

Definition nul_at (b : list Z) (i : nat) : Prop := nth i b 0 = 0.

Lemma nul_insert b i e : nul_at b i \/ i = e -> nul_at (<[e := 0]> b) i.
Proof.
  unfold nul_at. rewrite !nth_lookup. intros H. destruct (decide (i = e)) as [->|Hne].
  - destruct (decide (e < length b)%nat); [by rewrite list_lookup_insert_eq|].
    rewrite lookup_ge_None_2; [done|]. rewrite length_insert. lia.
  - rewrite list_lookup_insert_ne by done. by destruct H.
Qed.

Lemma keeps_insert b q e w : keeps_words b -> word_at q e w -> keeps_words (<[e := 0]> b).
Proof.
  intros (Hl & Hk) (_ & _ & _ & Hs). split; [by rewrite length_insert|]. intros i c Hi Hc.
  destruct (decide (i = e)) as [->|]; [|rewrite list_lookup_insert_ne; auto].
  erewrite drop_S in Hs by done. simpl in Hs. congruence.
Qed.

Lemma nul_args_spec ps ws b :
  Forall2 (fun p w => word_at (fst p) (snd p) w) ps ws -> keeps_words b ->
  keeps_words (nul_args ps b) /\ (forall i, nul_at b i -> nul_at (nul_args ps b) i) /\
  Forall (fun p => nul_at (nul_args ps b) (snd p)) ps.
Proof.
  intros H. revert b. induction H as [|[q e] w ps ws Hp Hps IH]; intros b Hb; [done|]. cbn [nul_args].
  destruct (IH (<[e := 0]> b)) as (Hk & Hn & Hall); [by eapply keeps_insert|]. split; [done|]. split.
  - intros i Hi. apply Hn, nul_insert. by left.
  - constructor; [|done]. apply Hn, nul_insert. by right.
Qed.

(** Every word of the tree is followed by NUL. *)
Fixpoint ended (b : list Z) (c : cmd) : Prop :=
  match c with
  | EXEC argv => Forall (fun p => nul_at b (snd p)) argv
  | REDIR c _ e _ _ => ended b c /\ nul_at b e
  | PIPE l r | LIST l r => ended b l /\ ended b r
  | BACK c => ended b c
  end.

Lemma ended_mono b b' c : (forall i, nul_at b i -> nul_at b' i) -> ended b c -> ended b' c.
Proof. intros H. induction c; cbn [ended]; try naive_solver. intros Hf. eapply Forall_impl; eauto. Qed.

Lemma nulterminate_spec c a b : tree_at c a -> keeps_words b ->
  keeps_words (nulterminate c b) /\ (forall i, nul_at b i -> nul_at (nulterminate c b) i) /\
  ended (nulterminate c b) c.
Proof.
  revert a b. induction c as [argv|c IH q e m fd|l IHl r IHr|l IHl r IHr|c IH]; intros a b Hc Hb;
    destruct a; try done; cbn [tree_at nulterminate ended] in *.
  - by eapply nul_args_spec.
  - destruct Hc as (Hc & Hw & _). destruct (IH _ b Hc Hb) as (Hk & Hn & He).
    split; [by eapply keeps_insert|]. split; [intros i Hi; apply nul_insert; auto|].
    split; [|apply nul_insert; by right]. eapply ended_mono; [|done]. intros i Hi. apply nul_insert. by left.
  - destruct Hc as (Hl & Hr). destruct (IHl _ b Hl Hb) as (Hk & Hn & He). destruct (IHr _ _ Hr Hk) as (Hk' & Hn' & He').
    split; [done|]. split; [auto|]. split; [by eapply ended_mono|done].
  - destruct Hc as (Hl & Hr). destruct (IHl _ b Hl Hb) as (Hk & Hn & He). destruct (IHr _ _ Hr Hk) as (Hk' & Hn' & He').
    split; [done|]. split; [auto|]. split; [by eapply ended_mono|done].
  - eauto.
Qed.

Lemma string_at_word b q w fuel :
  (forall i c, w !! i = Some c -> b !! (q + i)%nat = Some c) -> Forall (fun c => c <> 0) w ->
  nul_at b (q + length w) -> (length w < fuel)%nat -> string_at b q fuel = w.
Proof.
  revert q fuel. induction w as [|c w IH]; intros q fuel Hb Hw Hn Hf; (destruct fuel as [|fuel]; [simpl in Hf; lia|]);
    cbn [string_at].
  - unfold nul_at in Hn. simpl in Hn. rewrite Nat.add_0_r in Hn. by rewrite Hn.
  - inv Hw. specialize (Hb 0%nat c eq_refl) as Hc. rewrite Nat.add_0_r in Hc. rewrite (nth_lookup_Some _ _ _ _ Hc).
    destruct (Z.eqb_spec c 0); [done|]. f_equal. apply IH; [|done| |simpl in *; lia].
    + intros i d Hd. specialize (Hb (S i) d Hd). by rewrite <- Nat.add_succ_comm in Hb.
    + simpl in Hn. by rewrite <- Nat.add_succ_comm in Hn.
Qed.

Lemma str_at_word b q e w : word_at q e w -> keeps_words b -> nul_at b e -> str_at b q = w.
Proof using Hbuf.
  intros (Hs & -> & (Hne & Hall) & _) (Hl & Hk) Hn. unfold slice in Hs.
  assert (Hw : forall i c, w !! i = Some c -> buf !! (q + i)%nat = Some c).
  { intros i c Hi. rewrite <- lookup_drop. rewrite <- Hs in Hi. by apply lookup_take_Some in Hi as [? _]. }
  rewrite forallb_forall in Hall. apply string_at_word; [| |done|].
  - intros i c Hi. apply Hk; [auto|]. apply Hall, list_elem_of_In. by eapply list_elem_of_lookup_2.
  - apply Forall_lookup. intros i c Hi%Hw. by apply (Forall_lookup_1 _ _ _ _ Hbuf) in Hi as [? _]; lia.
  - apply (f_equal length) in Hs. rewrite length_take, length_drop in Hs. lia.
Qed.

Lemma read_tree_at b c a : tree_at c a -> keeps_words b -> ended b c -> read_tree b c = a.
Proof using Hbuf.
  intros Hc Hb. revert a Hc. induction c as [argv|c IH q e m fd|l IHl r IHr|l IHl r IHr|c IH]; intros a Hc He;
    destruct a as [ws| | | |]; try done; cbn [tree_at read_tree ended] in *.
  - f_equal. induction Hc as [|[q e] w ps ws Hp Hps IH]; [done|]. inv He. cbn [map fst]. f_equal; [|by apply IH].
    by eapply str_at_word.
  - destruct Hc as (Hc & Hw & -> & ->), He as (He & Hn). f_equal; [by apply IH|by eapply str_at_word].
  - destruct Hc, He. f_equal; auto.
  - destruct Hc, He. f_equal; auto.
  - f_equal; auto.
Qed.
End parsing.

(** C18: A command line whose tokens are those of a command of the grammar,
    with any white space between them and fewer than MAXARGS arguments for
    each program, is parsed up to its end into the tree of that command:
    [;] before [&] before [|], redirections wrapped around the command in the
    order they are written, parentheses as grouping.  After nulterminate the
    C strings the tree points to are the words of the line. *)
Theorem parsecmd_correct line l :
  Forall (fun c => 0 < c < 256) line -> line_ok l -> lexes line (line_tokens l) ->
  exists c pos, parsecmd line = POk c pos /\ read_tree (nulterminate c line) c = line_means l.
Proof.
  intros Hl Hok Hlex. destruct (parsecmd_tree line Hl l Hok Hlex) as (c & pos & E & Hc).
  exists c, pos. split; [done|].
  destruct (nulterminate_spec line c _ line Hc) as (Hk & _ & He); [done|]. by apply (read_tree_at line Hl).
Qed.

Module ParseDemo.
(** (cat < a | wc) & ; ls >> b *)
Definition cat_wc : sline :=
  SEnd (SBar (SExec [] [([99; 97; 116], [RIn [97]])]) (SOne (SExec [] [([119; 99], [])]))) 0.
Definition demo : sline :=
  SSeq (SOne (SBlock cat_wc [])) 1 (SEnd (SOne (SExec [] [([108; 115], [RApp [98]])])) 0).

Lemma parsecmd_correct_witness : exists c pos, parsecmd (print (line_tokens demo)) = POk c pos /\
  read_tree (nulterminate c (print (line_tokens demo))) c =
  AList (ABack (APipe (ARedir (AExec [[99; 97; 116]]) [97] 0 0) (AExec [[119; 99]])))
    (ARedir (AExec [[108; 115]]) [98] 513 1).
Proof.
  apply (parsecmd_correct _ demo).
  - by vm_compute; repeat constructor.
  - unfold demo, cat_wc. cbn. unfold MAXARGS. lia.
  - apply print_lexes. repeat constructor; try done; cbn; set_solver.
Defined.
End ParseDemo.
