(* ===== verification/ShRun.v ===== *)
(** * The shell: which programs a line starts, and on which files

    The system calls of runcmd, run on a descriptor table in which open, dup
    and pipe take the lowest free descriptors as fdalloc does, and in which
    every call succeeds.  The plan of a command says which programs are
    started with which standard input and output; runcmd carries it out. *)

From S2P Require Import Prelude Sh ShSpec ShParse.

Open Scope Z_scope.

(** What a descriptor refers to. *)
Inductive target : Type :=
| OStd (fd : nat)                       (* what the shell itself was given *)
| OFile (name : list Z) (mode : Z)
| OPipeRead (pipe : nat)
| OPipeWrite (pipe : nat).

Definition fdtable : Type := list (option target).

(** The lowest free descriptor gets [o]; a full table stays. *)
Fixpoint fd_add (o : target) (t : fdtable) : fdtable :=
  match t with
  | [] => []
  | None :: t => Some o :: t
  | Some o' :: t => Some o' :: fd_add o t
  end.

Fixpoint fd_free (t : fdtable) : Z :=
  match t with
  | [] => 0
  | None :: _ => 0
  | Some _ :: t => 1 + fd_free t
  end.

Definition fd_close (fd : Z) (t : fdtable) : fdtable := <[Z.to_nat fd := None]> t.

Definition fd_get (fd : Z) (t : fdtable) : option target := nth (Z.to_nat fd) t None.

(** The programs that are started, each with its descriptors, the child of a
    fork before its parent, and the number of pipes made. *)
Fixpoint starts (p : prog) (t : fdtable) (n : nat) : list (list (list Z) * fdtable) * nat :=
  match p with
  | PgExit => ([], n)
  | PgExec argv _ => ([(argv, t)], n)
  | PgOpen file mode ok _ => starts ok (fd_add (OFile file mode) t) n
  | PgClose fd k => starts k (fd_close fd t) n
  | PgDup fd k => match fd_get fd t with Some o => starts k (fd_add o t) n | None => starts k t n end
  | PgPipe k _ =>
      let t' := fd_add (OPipeRead n) t in
      starts (k (fd_free t) (fd_free t')) (fd_add (OPipeWrite n) t') (S n)
  | PgFork child parent _ =>
      let '(l, n) := starts child t n in
      let '(l', n) := starts parent t n in
      (l ++ l', n)
  | PgWait k => starts k t n
  | PgChdir _ ok _ => starts ok t n
  | PgPrint _ _ k => starts k t n
  end.

(** ** The plan of a command *)

Definition started : Type := list (list Z) * target * target.

Fixpoint plan (a : acmd) (i o : target) (n : nat) : list started * nat :=
  match a with
  | AExec [] => ([], n)
  | AExec argv => ([(argv, i, o)], n)
  | ARedir c file mode fd =>
      if fd =? 0 then plan c (OFile file mode) o n else plan c i (OFile file mode) n
  | APipe l r =>
      let '(pl, n') := plan l i (OPipeWrite n) (S n) in
      let '(pr, n') := plan r (OPipeRead n) o n' in
      (pl ++ pr, n')
  | AList l r =>
      let '(pl, n) := plan l i o n in
      let '(pr, n) := plan r i o n in
      (pl ++ pr, n)
  | ABack c => plan c i o n
  end.

(** The table of a process with standard input, output and error and nothing
    else of its NOFILE descriptors. *)
Definition std_table (i o : target) : fdtable := Some i :: Some o :: Some (OStd 2) :: repeat None 13.

Definition with_table (s : started) : list (list Z) * fdtable :=
  let '(argv, i, o) := s in (argv, std_table i o).

Fixpoint redirs_std (c : cmd) : Prop :=
  match c with
  | EXEC _ => True
  | REDIR c _ _ _ fd => (fd = 0 \/ fd = 1) /\ redirs_std c
  | PIPE l r | LIST l r => redirs_std l /\ redirs_std r
  | BACK c => redirs_std c
  end.

Lemma runcmd_plan b c : redirs_std c -> forall i o n,
  starts (runcmd (str_at b) c) (std_table i o) n =
  let '(l, n') := plan (read_tree b c) i o n in (map with_table l, n').
Proof.
  induction c as [argv|c IH q e m fd|l IHl r IHr|l IHl r IHr|c IH]; cbn [redirs_std]; intros Hc i o n.
  - by destruct argv as [|[q e] argv].
  - destruct Hc as ([-> | ->] & Hc); cbn; [apply (IH Hc (OFile _ _) o n)|apply (IH Hc i (OFile _ _) n)].
  - destruct Hc as (Hl & Hr). cbn [runcmd starts fork1 read_tree plan].
    match goal with |- context [fd_get ?f (fd_close 1 ?T)] =>
      change (fd_get f (fd_close 1 T)) with (Some (OPipeWrite n)) end.
    match goal with |- context [fd_get ?f (fd_close 0 ?T)] =>
      change (fd_get f (fd_close 0 T)) with (Some (OPipeRead n)) end.
    cbv iota.
    match goal with |- context [starts (runcmd (str_at b) l) ?T _] => change T with (std_table i (OPipeWrite n)) end.
    rewrite (IHl Hl). destruct (plan (read_tree b l) _ _ _) as [pl n1].
    match goal with |- context [starts (runcmd (str_at b) r) ?T _] => change T with (std_table (OPipeRead n) o) end.
    rewrite (IHr Hr). destruct (plan (read_tree b r) _ _ _) as [pr n2]. by rewrite app_nil_r, map_app.
  - destruct Hc as (Hl & Hr). cbn. rewrite (IHl Hl). destruct (plan (read_tree b l) _ _ _) as [pl n1].
    rewrite (IHr Hr). destruct (plan (read_tree b r) _ _ _) as [pr n2]. by rewrite map_app.
  - cbn. rewrite (IH Hc). destruct (plan _ _ _ _) as [pl n1]. by rewrite app_nil_r.
Qed.


(** The redirections of the grammar are of standard input or output. *)
Lemma redirs_mean_std a ss :
  (forall line c, tree_at line c a -> redirs_std c) -> forall line c, tree_at line c (redirs_mean a ss) -> redirs_std c.
Proof.
  revert a. induction ss as [|s ss IH]; intros a Ha; [done|]. cbn [redirs_mean fold_left]. apply IH.
  intros line [] H; destruct s; cbn [redir_means tree_at] in H; try done;
    destruct H as (Hc & _ & _ & ->); cbn [redirs_std]; eauto.
Qed.

Lemma backs_std a n :
  (forall line c, tree_at line c a -> redirs_std c) -> forall line c, tree_at line c (backs n a) -> redirs_std c.
Proof.
  intros Ha. induction n as [|n IH]; [done|]. intros line c H.
  change (backs (S n) a) with (ABack (backs n a)) in H. destruct c; cbn [tree_at] in H; try done. exact (IH _ _ H).
Qed.

Scheme sline_mut := Induction for sline Sort Prop
with spipe_mut := Induction for spipe Sort Prop
with sexec_mut := Induction for sexec Sort Prop.

Lemma line_std l : forall line c, tree_at line c (line_means l) -> redirs_std c.
Proof.
  apply (sline_mut
    (fun l => forall line c, tree_at line c (line_means l) -> redirs_std c)
    (fun p => forall line c, tree_at line c (pipe_means p) -> redirs_std c)
    (fun e => forall line c, tree_at line c (exec_means e) -> redirs_std c)); cbn [line_means pipe_means exec_means].
  - intros p IH n. by apply backs_std.
  - intros p IH n l' IHl line [] H; cbn [tree_at] in H; try done. destruct H as [Hl Hr]. split; [exact (backs_std _ n IH _ _ Hl)|eauto].
  - done.
  - intros e IH p IHp line [] H; cbn [tree_at] in H; try done. destruct H. split; eauto.
  - intros pre args. apply redirs_mean_std. by intros line [] H.
  - intros l' IH rs. by apply redirs_mean_std.
Qed.

(** C7: The child that the shell forks for a command line starts exactly the
    programs the line names, in the words of the line, and connects them as the
    line says: in a pipeline the standard output of each program is the write
    end and the standard input of the next is the read end of a pipe of their
    own, a redirection replaces standard input or output by the file, and no
    program keeps a descriptor other than 0, 1 and 2. *)
Theorem run_line_starts line l i o :
  Forall (fun c => 0 < c < 256) line -> line_ok l -> lexes line (line_tokens l) ->
  exists n, starts (run_line line) (std_table i o) 0 = (map with_table (fst (plan (line_means l) i o 0)), n).
Proof.
  intros Hl Hok Hlex. destruct (parsecmd_tree line Hl l Hok Hlex) as (c & pos & E & Hc).
  destruct (nulterminate_spec line c _ line Hc) as (Hk & _ & He); [done|].
  pose proof (read_tree_at line Hl _ _ _ Hc Hk He) as Ea. unfold run_line. rewrite E.
  replace (S (length line)) with (S (length (nulterminate c line))) by by rewrite (proj1 Hk).
  change (fun q => string_at _ q _) with (str_at (nulterminate c line)).
  rewrite (runcmd_plan _ c (line_std l _ _ Hc)), Ea. destruct (plan _ _ _ _) as [pl n]. by exists n.
Qed.

Lemma run_line_starts_witness : exists n,
  starts (run_line (print (line_tokens ParseDemo.demo))) (std_table (OStd 0) (OStd 1)) 0 =
  (map with_table
     [([[99; 97; 116]], OFile [97] 0, OPipeWrite 0); ([[119; 99]], OPipeRead 0, OStd 1);
      ([[108; 115]], OStd 0, OFile [98] 513)], n).
Proof.
  apply (run_line_starts _ ParseDemo.demo).
  - by vm_compute; repeat constructor.
  - unfold ParseDemo.demo, ParseDemo.cat_wc. cbn. unfold MAXARGS. lia.
  - apply print_lexes. repeat constructor; try done; cbn; set_solver.
Defined.
