(* ===== verification/Printf.v ===== *)
(** * printf.c: formatted output of user programs

    putc writes one byte; the model collects the bytes written.  The words
    behind the format argument on the stack are [ap], a function of the
    position; a string argument is read from memory up to its NUL, on fuel. *)

From S2P Require Import Prelude Memory CString Ulib.

Open Scope Z_scope.

Definition digits : list Z := [48; 49; 50; 51; 52; 53; 54; 55; 56; 57; 65; 66; 67; 68; 69; 70].

(** The digit loop: the digits of [x], lowest first. *)
Fixpoint digit_loop (ds : list Z) (x base : Z) (fuel : nat) : option (list Z) :=
  match fuel with
  | O => None
  | S fuel =>
      let d := nth (Z.to_nat (x mod base)) ds 0 in
      if x / base =? 0 then Some [d]
      else match digit_loop ds (x / base) base fuel with
           | Some l => Some (d :: l)
           | None => None
           end
  end.

(** What printint leaves in [buf], and the bytes it prints from it.  A 32-bit
    number has at most 32 digits in any base, so 32 turns are enough. *)
Definition printint_buf (ds : list Z) (xx base : Z) (sgn : bool) : option (list Z) :=
  let neg := sgn && (xx <? 0) in
  let x := if neg then u32 (- xx) else u32 xx in
  match digit_loop ds x base 32 with
  | Some l => Some (if neg then l ++ [45] else l)
  | None => None
  end.

Definition printint (xx base : Z) (sgn : bool) : option (list Z) :=
  match printint_buf digits xx base sgn with
  | Some buf => Some (rev buf)
  | None => None
  end.

(** The characters of the string at [s]. *)
Fixpoint cstring (m : mem) (s : Z) (fuel : nat) : option (list Z) :=
  match fuel with
  | O => None
  | S fuel =>
      if load8 m s =? 0 then Some []
      else match cstring m (s + 1) fuel with
           | Some l => Some (load8 m s :: l)
           | None => None
           end
  end.

(** "(null)" *)
Definition null_text : list Z := [40; 110; 117; 108; 108; 41].

(** One conversion: the output and the words of arguments it takes. *)
Definition convert (m : mem) (c arg : Z) (fuel : nat) : option (list Z * nat) :=
  if c =? 100 then option_map (fun o => (o, 1%nat)) (printint (s32 arg) 10 true)
  else if (c =? 120) || (c =? 112) then option_map (fun o => (o, 1%nat)) (printint (s32 arg) 16 false)
  else if c =? 115 then
    if arg =? 0 then Some (null_text, 1%nat)
    else option_map (fun o => (o, 1%nat)) (cstring m arg fuel)
  else if c =? 99 then Some ([u8 arg], 1%nat)
  else if c =? 37 then Some ([c], 0%nat)
  else Some ([37; c], 0%nat).

(** The loop over the format; [state] is true after a percent sign. *)
Fixpoint printf_loop (m : mem) (fmt : list Z) (state : bool) (ap : nat -> Z) (k : nat) (fuel : nat)
  : option (list Z) :=
  match fmt with
  | [] => Some []
  | c :: fmt =>
      if state then
        match convert m c (ap k) fuel with
        | None => None
        | Some (o, used) =>
            option_map (app o) (printf_loop m fmt false ap (k + used) fuel)
        end
      else if c =? 37 then printf_loop m fmt true ap k fuel
      else option_map (cons c) (printf_loop m fmt false ap k fuel)
  end.

Definition printf (m : mem) (fmt : list Z) (ap : nat -> Z) (fuel : nat) : option (list Z) :=
  printf_loop m fmt false ap 0 fuel.

(** ** Numbers *)

(** The value of digits, lowest first. *)
Fixpoint value (base : Z) (l : list Z) : Z :=
  match l with
  | [] => 0
  | d :: l => d + base * value base l
  end.

Lemma digit_loop_spec ds base fuel :
  2 <= base -> forall x, 0 <= x < base ^ Z.of_nat (S fuel) ->
  exists l, digit_loop ds x base (S fuel) = Some ((fun d => nth (Z.to_nat d) ds 0) <$> l) /\
    value base l = x /\ Forall (fun d => 0 <= d < base) l /\ l <> [] /\
    forall k, (0 < k)%nat -> x < base ^ Z.of_nat k -> (length l <= k)%nat.
Proof.
  intros Hb. induction fuel as [|fuel IH]; intros x Hx; cbn [digit_loop];
    pose proof (Z.mod_pos_bound x base ltac:(lia)); pose proof (Z.div_mod x base ltac:(lia)).
  - rewrite Z.pow_1_r in Hx. rewrite (Z.div_small x base) in * by lia. simpl.
    exists [x mod base]. split; [done|]. simpl. split; [lia|]. split; [by apply Forall_singleton|]. split; [done|]. lia.
  - destruct (Z.eqb_spec (x / base) 0) as [E|E].
    + exists [x mod base]. split; [done|]. simpl. split; [lia|]. split; [by apply Forall_singleton|]. split; [done|]. lia.
    + assert (Hq : 0 <= x / base < base ^ Z.of_nat (S fuel)).
      { split; [apply Z.div_pos; lia|]. apply Z.div_lt_upper_bound; [lia|].
        rewrite (Nat2Z.inj_succ (S fuel)), Z.pow_succ_r in Hx by lia. lia. }
      destruct (IH _ Hq) as (l & Hl & Hv & Hf & _ & Hk). cbn [digit_loop] in Hl. rewrite Hl.
      exists (x mod base :: l). split; [done|].
      cbn [value]. split; [lia|]. split; [by constructor|]. split; [done|]. intros k Hk0 Hxk. cbn [length].
      destruct k as [|[|k]]; [lia| |].
      * rewrite Z.pow_1_r in Hxk. destruct E. apply Z.div_small. lia.
      * apply le_n_S. apply Hk; [lia|]. apply Z.div_lt_upper_bound; [lia|].
        rewrite (Nat2Z.inj_succ (S k)), Z.pow_succ_r in Hxk by lia. lia.
Qed.

(** printing never overruns the 16 bytes of printint's buffer in the two
    bases printf uses, and the number always comes out. *)
Theorem printint_fits xx base sgn :
  base = 10 \/ base = 16 -> exists buf, printint_buf digits xx base sgn = Some buf /\ (length buf <= 16)%nat.
Proof.
  intros Hb. unfold printint_buf. set (x := if sgn && (xx <? 0) then u32 (- xx) else u32 xx).
  assert (Hx : 0 <= x < 4294967296) by (unfold x; destruct (sgn && (xx <? 0)); apply u32_range).
  destruct (digit_loop_spec digits base 31) with (x := x) as (l & -> & _ & _ & _ & Hk); [lia| |].
  { split; [lia|]. apply Z.lt_le_trans with (2 ^ 32); [lia|]. apply Z.pow_le_mono_l. lia. }
  eexists. split; [reflexivity|].
  assert (Hl : (length l <= 10)%nat).
  { apply Hk; [lia|]. destruct Hb as [-> | ->]; lia. }
  destruct (sgn && (xx <? 0)); rewrite ?length_app, length_fmap; simpl; lia.
Qed.

(** The digit characters of a printed decimal number, highest first. *)
Lemma nth_digits d : 0 <= d < 10 -> nth (Z.to_nat d) digits 0 = 48 + d.
Proof.
  intros Hd. assert (Hc : d = 0 \/ d = 1 \/ d = 2 \/ d = 3 \/ d = 4 \/ d = 5 \/ d = 6 \/ d = 7 \/ d = 8 \/ d = 9) by lia.
  repeat destruct Hc as [->|Hc]; try reflexivity. by subst.
Qed.

Lemma value_app base l k : value base (l ++ k) = value base l + base ^ Z.of_nat (length l) * value base k.
Proof.
  induction l as [|d l IH]; [simpl; lia|]. cbn [value app length]. rewrite IH, Nat2Z.inj_succ, Z.pow_succ_r by lia. lia.
Qed.

Lemma value_nonneg l : Forall (fun d => 0 <= d < 10) l -> 0 <= value 10 l.
Proof. induction 1; simpl; lia. Qed.

(** atoi on a run of digits, read from the highest. *)
Lemma atoi_loop_digits l : forall m s n fuel,
  Forall (fun d => 0 <= d < 10) l -> cstr m s (rev ((fun d => 48 + d) <$> l)) -> (length l < fuel)%nat ->
  0 <= n -> n * 10 ^ Z.of_nat (length l) + value 10 l < 2147483648 ->
  atoi_loop m s n fuel = Some (n * 10 ^ Z.of_nat (length l) + value 10 l).
Proof.
  induction l as [|d l IH] using rev_ind; intros m s n fuel Hf Hc Hfuel Hn Hmax;
    (destruct fuel as [|fuel]; [lia|]); cbn [atoi_loop].
  - apply cstr_nil in Hc. rewrite Hc. simpl. f_equal. lia.
  - apply Forall_app in Hf as [Hf Hd]. apply Forall_cons in Hd as [Hd _].
    rewrite length_app in *. simpl in Hfuel, Hmax |- *.
    rewrite fmap_app, rev_app_distr in Hc. simpl in Hc. apply cstr_cons in Hc as (Hc & _ & Hl).
    assert (Es : schar (48 + d) = 48 + d) by (unfold schar; destruct (Z.ltb_spec (48 + d) 128); lia).
    rewrite Hc, Es. zif; [|lia].
    assert (Ep : n * 10 ^ Z.of_nat (length l + 1) + value 10 (l ++ [d]) =
                 (n * 10 + d) * 10 ^ Z.of_nat (length l) + value 10 l).
    { rewrite value_app. simpl. replace (Z.of_nat (length l + 1)) with (Z.succ (Z.of_nat (length l))) by lia.
      rewrite Z.pow_succ_r by lia. lia. }
    rewrite Ep in *. pose proof (value_nonneg l Hf).
    assert (1 <= 10 ^ Z.of_nat (length l)) by (apply (Z.pow_le_mono_r 10 0); lia).
    replace (n * 10 + (48 + d) - 48) with (n * 10 + d) by lia. rewrite s32_small by nia.
    apply IH; try done; lia.
Qed.

(** reading back what printf wrote for %d gives the number: atoi inverts
    printint on the numbers an int holds that are not negative. *)
Theorem atoi_printint xx out m s fuel :
  0 <= xx < 2147483648 -> printint xx 10 true = Some out -> cstr m s out -> (length out < fuel)%nat ->
  atoi m s fuel = Some xx.
Proof.
  intros Hx. unfold printint, printint_buf. destruct (Z.ltb_spec xx 0); [lia|]. cbn [andb].
  rewrite u32_small by lia.
  destruct (digit_loop_spec digits 10 31) with (x := xx) as (l & -> & Hv & Hf & _); [lia|split; lia|].
  assert (Em : (fun d => nth (Z.to_nat d) digits 0) <$> l = (fun d => 48 + d) <$> l).
  { clear - Hf. induction Hf as [|d l Hd _ IH]; [done|]. rewrite !fmap_cons, IH, nth_digits; done. }
  rewrite Em. intros Ho Hc Hfuel.
  assert (Eo : out = rev ((fun d => 48 + d) <$> l)) by congruence. rewrite Eo in *.
  rewrite length_rev, length_fmap in Hfuel. unfold atoi. rewrite (atoi_loop_digits l); [f_equal; lia|done..|lia|lia|lia].
Qed.

Module PrintfDemo.
Lemma printint_fits_witness :
  exists buf, printint_buf digits (-2147483648) 10 true = Some buf /\ (length buf <= 16)%nat.
Proof. apply (printint_fits (-2147483648) 10 true). by left. Defined.

(** "1066" at address 100. *)
Definition m : mem := store_bytes (fun _ => 0) 100 [49; 48; 54; 54; 0].

Lemma atoi_printint_witness :
  printint 1066 10 true = Some [49; 48; 54; 54] /\ atoi m 100 20 = Some 1066.
Proof.
  split; [reflexivity|].
  apply (atoi_printint 1066 [49; 48; 54; 54] m 100 20); [lia|reflexivity| |simpl; lia].
  split; [reflexivity|]. split; [by repeat constructor|reflexivity].
Defined.
End PrintfDemo.
