(* ===== verification/Console.v ===== *)
(** * console.c: console output and the input editor

    The state is the input ring with its three counters, the CGA text memory
    with the cursor, and the bytes sent to the serial port (uart.c).  The
    characters [getc] delivers during one interrupt are a list, ended by the
    negative value that ends the loop. *)

From S2P Require Import Prelude Monad Locks Memory CString Printf.

Open Scope Z_scope.
Open Scope kernel_scope.

Definition BACKSPACE : Z := 256.
Definition INPUT_BUF : Z := 128.
(** The macro [C]: Control-x. *)
Definition ctl (x : Z) : Z := x - 64.
Definition CTL_P : Z := ctl 80.
Definition CTL_U : Z := ctl 85.
Definition CTL_H : Z := ctl 72.
Definition CTL_D : Z := ctl 68.
Definition NEWLINE : Z := 10.
Definition CR : Z := 13.

Record console : Type := mkConsole {
  in_buf : list Z;               (* input.buf *)
  in_r : Z;                      (* input.r: read index *)
  in_w : Z;                      (* input.w: write index *)
  in_e : Z;                      (* input.e: edit index *)
  locking : bool;                (* cons.locking *)
  panicked : bool;
  cursor : Z;                    (* the CRT controller's cursor registers *)
  crt : list Z;                  (* CGA memory, one word per character *)
  uart : bool;                   (* is there a uart? *)
  serial : list Z;               (* bytes sent, the last one last *)
  cthr : thread
}.

#[export] Program Instance console_KState : KState console := {|
  thr := cthr;
  set_thr t s := mkConsole (in_buf s) (in_r s) (in_w s) (in_e s) (locking s) (panicked s)
                   (cursor s) (crt s) (uart s) (serial s) t
|}.
Next Obligation. done. Qed.
Next Obligation. done. Qed.
Next Obligation. by intros []. Qed.

Definition set_input (b : list Z) (r w e : Z) (s : console) : console :=
  mkConsole b r w e (locking s) (panicked s) (cursor s) (crt s) (uart s) (serial s) (cthr s).
Definition set_screen (p : Z) (m : list Z) (s : console) : console :=
  mkConsole (in_buf s) (in_r s) (in_w s) (in_e s) (locking s) (panicked s) p m (uart s) (serial s) (cthr s).
Definition set_serial (l : list Z) (s : console) : console :=
  mkConsole (in_buf s) (in_r s) (in_w s) (in_e s) (locking s) (panicked s) (cursor s) (crt s) (uart s) l (cthr s).
Definition set_flags (lk pk : bool) (s : console) : console :=
  mkConsole (in_buf s) (in_r s) (in_w s) (in_e s) lk pk (cursor s) (crt s) (uart s) (serial s) (cthr s).

(** uartputc, whose wait for the transmitter is bounded and has no effect. *)
Definition uartputc (c : Z) (s : console) : console :=
  if uart s then set_serial (serial s ++ [u8 c]) s else s.

(** Scrolling: the rows move up by one and the cells from the cursor to the
    end of row 23 are cleared. *)
Definition scroll (p : Z) (m : list Z) : list Z :=
  let m := take 1840 (drop 80 m) ++ drop 1840 m in
  take (Z.to_nat p) m ++ repeat 0 (Z.to_nat (1920 - p)) ++ drop 1920 m.

Definition cgaputc (c : Z) (s : console) : console :=
  let p := cursor s in
  let '(p, m) :=
    if c =? NEWLINE then (p + (80 - p mod 80), crt s)
    else if c =? BACKSPACE then (if 0 <? p then p - 1 else p, crt s)
    else (p + 1, <[Z.to_nat p := Z.lor (Z.land c 255) 1792]> (crt s)) in
  let '(p, m) := if 24 <=? p / 80 then (p - 80, scroll (p - 80) m) else (p, m) in
  set_screen (u16 p) (<[Z.to_nat p := Z.lor 32 1792]> m) s.

(** consputc freezes the CPU after a panic. *)
Definition consputc (c : Z) : M console unit := fun s =>
  if panicked s then Fault "frozen after panic"
  else
    let s := if c =? BACKSPACE then uartputc 8 (uartputc 32 (uartputc 8 s)) else uartputc c s in
    Ok tt (cgaputc c s).

Fixpoint consputs (l : list Z) : M console unit :=
  match l with
  | [] => ret tt
  | c :: l => consputc c ;; consputs l
  end.

(** The kernel's printint differs from printf's in the digits only. *)
Definition kdigits : list Z := [48; 49; 50; 51; 52; 53; 54; 55; 56; 57; 97; 98; 99; 100; 101; 102].

Definition kprintint (xx base : Z) (sign : bool) : M console unit :=
  match printint_buf kdigits xx base sign with
  | Some buf => consputs (rev buf)
  | None => fault "printint: loop bound"
  end.

(** One conversion of cprintf; the result is the number of argument words. *)
Definition kconvert (m : mem) (c arg : Z) (fuel : nat) : M console nat :=
  if c =? 100 then kprintint (s32 arg) 10 true ;; ret 1%nat
  else if (c =? 120) || (c =? 112) then kprintint (s32 arg) 16 false ;; ret 1%nat
  else if c =? 115 then
    (if arg =? 0 then consputs null_text
     else match cstring m arg fuel with
          | Some l => consputs l
          | None => fault "cprintf: unterminated string"
          end) ;; ret 1%nat
  else if c =? 37 then consputc 37 ;; ret 0%nat
  else consputc 37 ;; consputc c ;; ret 0%nat.

Fixpoint cprintf_loop (m : mem) (fmt : list Z) (argp : nat -> Z) (k : nat) (fuel : nat) : M console unit :=
  match fmt with
  | [] => ret tt
  | c :: fmt =>
      if negb (c =? 37) then consputc c ;; cprintf_loop m fmt argp k fuel
      else match fmt with
           | [] => ret tt
           | c :: fmt =>
               do used <- kconvert m c (argp k) fuel;
               cprintf_loop m fmt argp (k + used) fuel
           end
  end.

(** cprintf; [None] is a null format. *)
Definition cprintf (m : mem) (fmt : option (list Z)) (argp : nat -> Z) (fuel : nat) : M console unit :=
  do lk <- gets locking;
  (if lk : bool then acquire LkCons else ret tt) ;;
  match fmt with
  | None => panic "null fmt"
  | Some fmt =>
      cprintf_loop m fmt argp 0 fuel ;;
      (if lk then release LkCons else ret tt)
  end.

(** panic() up to its endless loop: locking off, the message and the call
    chain printed, the other CPUs frozen.  "cpu%d: panic: ", " %p". *)
Definition panic_fmt : list Z := [99; 112; 117; 37; 100; 58; 32; 112; 97; 110; 105; 99; 58; 32].
Definition pc_fmt : list Z := [32; 37; 112].

Fixpoint print_pcs (m : mem) (pcs : list Z) (fuel : nat) : M console unit :=
  match pcs with
  | [] => ret tt
  | pc :: pcs => cprintf m (Some pc_fmt) (fun _ => pc) fuel ;; print_pcs m pcs fuel
  end.

Definition kpanic (m : mem) (cpuid : Z) (msg pcs : list Z) (args : nat -> Z) (fuel : nat) : M console unit :=
  modify (fun s => set_flags false (panicked s) s) ;;
  cprintf m (Some panic_fmt) (fun _ => cpuid) fuel ;;
  cprintf m (Some msg) args fuel ;;
  cprintf m (Some [NEWLINE]) args fuel ;;
  print_pcs m (take 10 pcs) fuel ;;
  modify (fun s => set_flags (locking s) true s).

(** ** Input *)

(** Kill line: back to the last newline or to what was handed over. *)
Fixpoint kill_line (fuel : nat) : M console unit :=
  match fuel with
  | O => fault "consoleintr: loop bound"
  | S fuel =>
      do s <- get;
      if negb (in_e s =? in_w s) &&
         negb (nth (cell INPUT_BUF (in_e s - 1)) (in_buf s) 0 =? NEWLINE) then
        modify (set_input (in_buf s) (in_r s) (in_w s) (u32 (in_e s - 1))) ;;
        consputc BACKSPACE ;;
        kill_line fuel
      else ret tt
  end.

Section intr.
(** procdump() (proc.c) prints the process table. *)
Context (procdump : M console unit).

(** One character; the edit index leads the write index by at most the size
    of the ring, so killing a line takes at most that many turns. *)
Definition input_char (c : Z) : M console unit :=
  if c =? CTL_P then procdump
  else if c =? CTL_U then kill_line (S (Z.to_nat INPUT_BUF))
  else if (c =? CTL_H) || (c =? 127) then
    do s <- get;
    if negb (in_e s =? in_w s) then
      modify (set_input (in_buf s) (in_r s) (in_w s) (u32 (in_e s - 1))) ;;
      consputc BACKSPACE
    else ret tt
  else
    do s <- get;
    if negb (c =? 0) && (u32 (in_e s - in_r s) <? INPUT_BUF) then
      let c := if c =? CR then NEWLINE else c in
      let e := u32 (in_e s + 1) in
      modify (set_input (<[cell INPUT_BUF (in_e s) := u8 c]> (in_buf s)) (in_r s) (in_w s) e) ;;
      consputc c ;;
      if (c =? NEWLINE) || (c =? CTL_D) || (e =? u32 (in_r s + INPUT_BUF)) then
        modify (fun s => set_input (in_buf s) (in_r s) (in_e s) (in_e s) s) ;;
        wakeup ChInput
      else ret tt
    else ret tt.

Fixpoint input_chars (cs : list Z) : M console unit :=
  match cs with
  | [] => ret tt
  | c :: cs => input_char c ;; input_chars cs
  end.

Definition consoleintr (cs : list Z) : M console unit :=
  acquire LkInput ;; input_chars cs ;; release LkInput.
End intr.

(** consoleread between iunlock and ilock: the value returned and the bytes
    stored at [dst].  [killed] is proc->killed; a reader that finds no input
    sleeps on the read index. *)
Fixpoint consoleread_loop (killed : bool) (target n : Z) (dst : list Z) (fuel : nat) : M console (Z * list Z) :=
  match fuel with
  | O => fault "consoleread: loop bound"
  | S fuel =>
      if 0 <? n then
        do s <- get;
        if in_r s =? in_w s then
          if killed then release LkInput ;; ret (-1, dst)
          else sleep ChInput LkInput
        else
          let c := nth (cell INPUT_BUF (in_r s)) (in_buf s) 0 in
          if c =? CTL_D then
            (if n <? target then ret tt
             else modify (set_input (in_buf s) (u32 (in_r s + 1)) (in_w s) (in_e s))) ;;
            release LkInput ;; ret (target - n, dst)
          else
            modify (set_input (in_buf s) (u32 (in_r s + 1)) (in_w s) (in_e s)) ;;
            if c =? NEWLINE then release LkInput ;; ret (target - (n - 1), dst ++ [c])
            else consoleread_loop killed target (n - 1) (dst ++ [c]) fuel
      else release LkInput ;; ret (target - n, dst)
  end.

Definition consoleread (killed : bool) (n : Z) : M console (Z * list Z) :=
  acquire LkInput ;; consoleread_loop killed n n [] (S (Z.to_nat n)).

(** consolewrite between iunlock and ilock. *)
Definition consolewrite (buf : list Z) (n : Z) : M console Z :=
  acquire LkCons ;;
  consputs ((fun c => Z.land c 255) <$> take (Z.to_nat n) buf) ;;
  release LkCons ;;
  ret n.

(** consoleinit, without the routing of the keyboard interrupt. *)
Definition consoleinit : M console unit :=
  initlock LkCons ;; initlock LkInput ;;
  modify (fun s => set_flags true (panicked s) s).
