(* ===== verification/ConsoleSpec.v ===== *)
(** * The console editor implements a line editor

    The abstract state is what readers may take ([com], committed input) and
    the line being edited ([pend]).  [holds] relates it to the ring; [typed]
    is the specification of one key and [consume] of one read. *)

From S2P Require Import Prelude Monad Locks Memory CString Printf Console.

Open Scope Z_scope.
Open Scope kernel_scope.

(** ** The screen *)

Definition screen_ok (s : console) : Prop := length (crt s) = 2000%nat /\ 0 <= cursor s < 1920.

Lemma length_scroll p m : length m = 2000%nat -> 0 <= p <= 1920 -> length (scroll p m) = 2000%nat.
Proof.
  intros Hm Hp. unfold scroll.
  rewrite !length_app, repeat_length, !length_take, !length_drop, !length_app, !length_take, !length_drop. lia.
Qed.

Lemma drop_scroll p m :
  length m = 2000%nat -> 0 <= p <= 1920 -> drop 1920 (scroll p m) = drop 1920 m.
Proof.
  intros Hm Hp. unfold scroll. set (m1 := take 1840 (drop 80 m) ++ drop 1840 m).
  assert (Hm1 : length m1 = 2000%nat)
    by (unfold m1; rewrite length_app, length_take, !length_drop; lia).
  rewrite app_assoc, drop_app_length'.
  - unfold m1. rewrite drop_app_ge by (rewrite length_take, length_drop; lia).
    rewrite drop_drop. f_equal. rewrite length_take, length_drop. lia.
  - rewrite length_app, repeat_length, length_take. lia.
Qed.

(** What one character does to the screen. *)
Lemma cgaputc_screen c s :
  screen_ok s ->
  screen_ok (cgaputc c s) /\ drop 1920 (crt (cgaputc c s)) = drop 1920 (crt s) /\
  crt (cgaputc c s) !! Z.to_nat (cursor (cgaputc c s)) = Some (Z.lor 32 1792).
Proof.
  intros [Hl Hc]. unfold cgaputc, screen_ok.
  set (pm := if c =? NEWLINE then _ else _).
  assert (Hpm : 0 <= pm.1 <= 1920 /\ length pm.2 = 2000%nat /\ drop 1920 pm.2 = drop 1920 (crt s)).
  { unfold pm. destruct (c =? NEWLINE); [simpl; split; [zlia|done]|].
    destruct (c =? BACKSPACE); [simpl; split; [destruct (Z.ltb_spec 0 (cursor s)); lia|done]|].
    simpl. split; [lia|]. rewrite length_insert. split; [done|]. apply drop_insert_lt. lia. }
  destruct pm as [p m]. simpl in Hpm. destruct Hpm as (Hp & Hm & Hd).
  assert (Hq : exists q m', (if 24 <=? p / 80 then (p - 80, scroll (p - 80) m) else (p, m)) = (q, m') /\
            0 <= q < 1920 /\ length m' = 2000%nat /\ drop 1920 m' = drop 1920 (crt s)).
  { destruct (Z.leb_spec 24 (p / 80)).
    - exists (p - 80), (scroll (p - 80) m). split; [done|]. split; [zlia|].
      rewrite length_scroll, drop_scroll by (done || zlia). done.
    - exists p, m. split; [done|]. split; [zlia|done]. }
  destruct Hq as (q & m' & -> & Hq & Hm' & Hd'). simpl. rewrite u16_small by lia.
  split; [split; [by rewrite length_insert|lia]|]. split.
  - rewrite drop_insert_lt by lia. done.
  - apply list_lookup_insert_eq. lia.
Qed.

(** ** Output leaves the input alone *)

(** The two states agree on everything but the output devices. *)
Definition same_input (s s' : console) : Prop :=
  in_buf s' = in_buf s /\ in_r s' = in_r s /\ in_w s' = in_w s /\ in_e s' = in_e s /\
  panicked s' = panicked s /\ cthr s' = cthr s.

Lemma consputc_run c s :
  panicked s = false -> exists s', consputc c s = Ok tt s' /\ same_input s s' /\
    (screen_ok s -> screen_ok s' /\ drop 1920 (crt s') = drop 1920 (crt s)).
Proof.
  intros Hp. unfold consputc. rewrite Hp. eexists. split; [reflexivity|].
  set (s1 := if c =? BACKSPACE then _ else _).
  assert (H1 : same_input s s1 /\ crt s1 = crt s /\ cursor s1 = cursor s).
  { unfold s1, uartputc, same_input. destruct (c =? BACKSPACE), (uart s) eqn:Eu; simpl; rewrite ?Eu; simpl; rewrite ?Eu; done. }
  destruct H1 as (H1 & Hcr & Hcu). split.
  - unfold cgaputc. destruct (if c =? NEWLINE then _ else _) as [p m]. destruct (if 24 <=? _ then _ else _). exact H1.
  - intros Hs. assert (Hs1 : screen_ok s1) by (unfold screen_ok in *; by rewrite Hcr, Hcu).
    destruct (cgaputc_screen c s1 Hs1) as (? & Hd & _). by rewrite Hd, Hcr.
Qed.

(** C30: console output stays on the screen: whatever is printed, the cursor
    ends in the first 24 rows, and no cell outside them is written. *)
Theorem consputs_in_screen l s :
  screen_ok s -> panicked s = false ->
  exists s', consputs l s = Ok tt s' /\ screen_ok s' /\ drop 1920 (crt s') = drop 1920 (crt s).
Proof.
  revert s. induction l as [|c l IH]; intros s Hs Hp; cbn [consputs]; [by exists s|].
  destruct (consputc_run c s Hp) as (s1 & Hc & Hsame & Hscr). destruct (Hscr Hs) as [Hs1 Hd1].
  destruct (IH s1 Hs1) as (s2 & Hr & Hs2 & Hd2); [by destruct Hsame as (_ & _ & _ & _ & -> & _)|].
  exists s2. rewrite (bind_Ok _ _ _ _ _ Hc). split; [done|]. split; [done|]. congruence.
Qed.

(** ** The ring *)

Lemma input_div : (INPUT_BUF | 4294967296).
Proof. by exists 33554432. Qed.

(** The committed and the pending input, in the cells after the read index. *)
Record holds (s : console) (com pend : list Z) : Prop := mkHolds {
  ho_len : length (in_buf s) = Z.to_nat INPUT_BUF;
  ho_cap : Z.of_nat (length com + length pend) <= INPUT_BUF;
  ho_r : 0 <= in_r s < 4294967296;
  ho_w : in_w s = u32 (in_r s + Z.of_nat (length com));
  ho_e : in_e s = u32 (in_r s + Z.of_nat (length com + length pend));
  ho_data : rslice INPUT_BUF (in_buf s) (in_r s) (length com + length pend) = com ++ pend;
  ho_line : NEWLINE ∉ pend;
  ho_run : panicked s = false
}.

Lemma holds_same s s' com pend :
  in_buf s' = in_buf s /\ in_r s' = in_r s /\ in_w s' = in_w s /\ in_e s' = in_e s /\ panicked s' = panicked s ->
  holds s com pend -> holds s' com pend.
Proof. intros (E1 & E2 & E3 & E4 & E5) [? ? ? ? ? ? ? ?]. split; congruence. Qed.

Lemma holds_input s s' com pend : same_input s s' -> holds s com pend -> holds s' com pend.
Proof. intros (E1 & E2 & E3 & E4 & E5 & _). by apply holds_same. Qed.

(** Distances between the counters. *)
Lemma counter_sub r n : 0 <= n < 4294967296 -> u32 (u32 (r + n) - r) = n.
Proof. intros. unfold u32. rewrite Zminus_mod_idemp_l. replace (r + n - r) with n by lia. by apply Z.mod_small. Qed.

Lemma counter_eq r n k :
  0 <= n <= 128 -> 0 <= k <= 128 -> u32 (r + n) = u32 (r + k) -> n = k.
Proof.
  intros Hn Hk E. rewrite <- (counter_sub r n), <- (counter_sub r k) by lia. by rewrite E.
Qed.

Lemma counter_pred r n : u32 (u32 (r + n) - 1) = u32 (r + (n - 1)).
Proof. unfold u32. rewrite Zminus_mod_idemp_l. f_equal. lia. Qed.

Lemma counter_succ r n : u32 (u32 (r + n) + 1) = u32 (r + (n + 1)).
Proof. unfold u32. rewrite Zplus_mod_idemp_l. f_equal. lia. Qed.

(** The specification of a key. *)
Definition typed (c : Z) (st : list Z * list Z) : list Z * list Z :=
  let '(com, pend) := st in
  if c =? CTL_P then (com, pend)
  else if c =? CTL_U then (com, [])
  else if (c =? CTL_H) || (c =? 127) then (com, removelast pend)
  else if negb (c =? 0) && (Z.of_nat (length com + length pend) <? INPUT_BUF) then
    let c := if c =? CR then NEWLINE else c in
    let pend := pend ++ [c] in
    if (c =? NEWLINE) || (c =? CTL_D) || (Z.of_nat (length com + length pend) =? INPUT_BUF)
    then (com ++ pend, []) else (com, pend)
  else (com, pend).

(** Dropping the last pending character. *)
Lemma holds_back s com p x :
  holds s com (p ++ [x]) ->
  in_e s <> in_w s /\ nth (cell INPUT_BUF (in_e s - 1)) (in_buf s) 0 = x /\
  holds (set_input (in_buf s) (in_r s) (in_w s) (u32 (in_e s - 1)) s) com p.
Proof.
  intros [H1 H2 H3 H4 H5 H6 H7 H8]. rewrite !length_app in *. cbn [length] in *. unfold INPUT_BUF in H2.
  rewrite Nat.add_assoc, Nat.add_1_r, rslice_snoc, app_assoc in H6. apply app_inj_tail in H6 as [H6 Hx].
  assert (Ee : u32 (in_e s - 1) = u32 (in_r s + Z.of_nat (length com + length p))).
  { rewrite H5, counter_pred. do 2 f_equal. lia. }
  split; [|split].
  - rewrite H4, H5. intros E. apply counter_eq in E; lia.
  - rewrite <- cell_u32, Ee, cell_u32. exact Hx.
  - split; cbn [in_buf in_r in_w in_e panicked set_input]; try done; [unfold INPUT_BUF; lia|set_solver].
Qed.

Lemma holds_none s com : holds s com [] -> in_e s = in_w s.
Proof. intros [? ? ? H4 H5 ? ? ?]. rewrite H4, H5. simpl. by rewrite Nat.add_0_r. Qed.

(** Storing a character at the edit index. *)
Lemma holds_store s com pend c :
  holds s com pend -> Z.of_nat (length com + length pend) < INPUT_BUF -> c <> NEWLINE ->
  holds (set_input (<[cell INPUT_BUF (in_e s) := c]> (in_buf s)) (in_r s) (in_w s) (u32 (in_e s + 1)) s)
    com (pend ++ [c]).
Proof.
  intros [H1 H2 H3 H4 H5 H6 H7 H8] Hcap Hc.
  split; cbn [in_buf in_r in_w in_e panicked set_input]; rewrite ?length_insert, ?length_app; cbn [length]; try done.
  - lia.
  - rewrite H5, counter_succ. do 2 f_equal. lia.
  - rewrite Nat.add_assoc, Nat.add_1_r. rewrite H5, cell_u32.
    rewrite rslice_push by (apply input_div || done). by rewrite H6, app_assoc.
  - set_solver.
Qed.

(** Handing the line over. *)
Definition commit (s : console) : console := set_input (in_buf s) (in_r s) (in_e s) (in_e s) s.

Lemma holds_commit s com pend c :
  holds s com pend -> Z.of_nat (length com + length pend) < INPUT_BUF ->
  holds (commit (set_input (<[cell INPUT_BUF (in_e s) := c]> (in_buf s)) (in_r s) (in_w s) (u32 (in_e s + 1)) s))
    (com ++ pend ++ [c]) [].
Proof.
  intros [H1 H2 H3 H4 H5 H6 H7 H8] Hcap.
  assert (El : (length (com ++ pend ++ [c]) = S (length com + length pend))%nat)
    by (rewrite !length_app; simpl; lia).
  assert (Ee : u32 (in_e s + 1) = u32 (in_r s + Z.of_nat (S (length com + length pend)))).
  { rewrite H5, counter_succ. do 2 f_equal. lia. }
  split; cbn [in_buf in_r in_w in_e panicked set_input commit]; rewrite ?length_insert, ?El; cbn [length];
    rewrite ?Nat.add_0_r, ?app_nil_r; try done.
  - lia.
  - rewrite H5, cell_u32, rslice_push by (apply input_div || done). by rewrite H6, <- app_assoc.
  - apply not_elem_of_nil.
Qed.

(** [run_to]: a step of the editor ends in a state that holds [st] and keeps
    the locks. *)
Definition run_to (f : M console unit) (s : console) (st : list Z * list Z) : Prop :=
  exists s', f s = Ok tt s' /\ holds s' st.1 st.2 /\ held (cthr s') = held (cthr s).

Lemma kill_line_run fuel : forall s com pend,
  holds s com pend -> (length pend < fuel)%nat -> run_to (kill_line fuel) s (com, []).
Proof.
  induction fuel as [|fuel IH]; intros s com pend Hs Hf; [lia|]. cbn [kill_line]. unfold run_to, bind at 1, get.
  destruct pend as [|x p _] using rev_ind.
  - rewrite (holds_none _ _ Hs), Z.eqb_refl. simpl. exists s. done.
  - destruct (holds_back _ _ _ _ Hs) as (Hne & Hx & Hb). rewrite Hx.
    assert (Hnl : x <> NEWLINE). { pose proof (ho_line _ _ _ Hs). set_solver. }
    destruct (Z.eqb_spec (in_e s) (in_w s)); [done|]. destruct (Z.eqb_spec x NEWLINE); [done|]. cbn [negb andb].
    unfold bind at 1, modify. set (s1 := set_input _ _ _ _ s) in *.
    destruct (consputc_run BACKSPACE s1) as (s2 & Hc & Hsame & _); [apply Hb|].
    rewrite (bind_Ok _ _ _ _ _ Hc). rewrite length_app in Hf. simpl in Hf.
    destruct (IH s2 com p) as (s3 & Hk & H3 & Hl); [by eapply holds_input|lia|].
    exists s3. split; [done|]. split; [done|]. rewrite Hl. by destruct Hsame as (_ & _ & _ & _ & _ & ->).
Qed.

Section editor.
Context (procdump : M console unit).
(** procdump only prints. *)
Context (Hdump : forall s, panicked s = false -> exists s', procdump s = Ok tt s' /\ same_input s s').

Lemma backspace_run s com pend :
  holds s com pend ->
  run_to (do s <- get;
          if negb (in_e s =? in_w s) then
            modify (set_input (in_buf s) (in_r s) (in_w s) (u32 (in_e s - 1))) ;;
            consputc BACKSPACE
          else ret tt) s (com, removelast pend).
Proof.
  intros Hs. unfold run_to, bind at 1, get. destruct pend as [|x p _] using rev_ind.
  - rewrite (holds_none _ _ Hs), Z.eqb_refl. simpl. exists s. done.
  - destruct (holds_back _ _ _ _ Hs) as (Hne & _ & Hb). destruct (Z.eqb_spec (in_e s) (in_w s)); [done|].
    rewrite removelast_last. unfold bind, modify. simpl.
    destruct (consputc_run BACKSPACE (set_input (in_buf s) (in_r s) (in_w s) (u32 (in_e s - 1)) s))
      as (s2 & Hc & Hsame & _); [apply Hb|].
    exists s2. split; [done|]. split; [by eapply holds_input|]. by destruct Hsame as (_ & _ & _ & _ & _ & ->).
Qed.

Lemma input_char_run c s com pend :
  0 <= c < 256 -> holds s com pend -> LkPtable ∉ held (cthr s) ->
  run_to (input_char procdump c) s (typed c (com, pend)).
Proof using All.
  intros Hc Hs Hl. unfold input_char, typed.
  destruct (c =? CTL_P).
  { destruct (Hdump s) as (s' & Hr & Hsame); [apply Hs|]. exists s'. split; [done|].
    split; [by eapply holds_input|]. by destruct Hsame as (_ & _ & _ & _ & _ & ->). }
  destruct (c =? CTL_U).
  { eapply kill_line_run; [done|]. pose proof (ho_cap _ _ _ Hs). unfold INPUT_BUF in *. lia. }
  destruct ((c =? CTL_H) || (c =? 127)); [by apply backspace_run|].
  unfold run_to, bind at 1, get.
  pose proof (ho_cap _ _ _ Hs) as Hcap. unfold INPUT_BUF in Hcap.
  rewrite (ho_e _ _ _ Hs), counter_sub by lia. rewrite <- (ho_e _ _ _ Hs).
  destruct (negb (c =? 0) && (Z.of_nat (length com + length pend) <? INPUT_BUF)) eqn:Eg; [|by exists s].
  zbool. set (c' := if c =? CR then NEWLINE else c).
  assert (Hc' : u8 c' = c') by (apply u8_small; unfold c', NEWLINE; destruct (c =? CR); lia). rewrite Hc'.
  unfold bind at 1, modify. set (s1 := set_input _ _ _ _ s).
  destruct (consputc_run c' s1) as (s2 & Hp & Hsame & _); [apply Hs|]. rewrite (bind_Ok _ _ _ _ _ Hp).
  assert (Efull : (u32 (in_e s + 1) =? u32 (in_r s + INPUT_BUF)) =
                  (Z.of_nat (length com + length (pend ++ [c'])) =? INPUT_BUF)).
  { rewrite (ho_e _ _ _ Hs), counter_succ, length_app. cbn [length]. unfold INPUT_BUF in *.
    destruct (Z.eqb_spec (Z.of_nat (length com + (length pend + 1))) 128) as [E1|E1].
    - apply Z.eqb_eq. do 2 f_equal. lia.
    - apply Z.eqb_neq. intros E2. apply counter_eq in E2; lia. }
  rewrite Efull. destruct Hsame as (S1 & S2 & S3 & S4 & S5 & S6).
  destruct ((c' =? NEWLINE) || (c' =? CTL_D) || _) eqn:Ecom.
  - unfold bind, modify. rewrite wakeup_ok by (simpl; by rewrite S6). eexists. split; [reflexivity|]. split; [|simpl; by rewrite S6].
    assert (Hcm : holds (commit s1) (com ++ pend ++ [c']) []) by (by apply holds_commit).
    eapply (holds_same (commit s1)); [|exact Hcm]. simpl.
    unfold same_input, commit, set_input in *. simpl in *. repeat split; congruence.
  - exists s2. split; [done|]. split; [|by rewrite S6]. cbn [fst snd].
    eapply (holds_same s1); [by repeat split|]. apply holds_store; [done..|].
    intros ->. by rewrite Z.eqb_refl in Ecom.
Qed.

Lemma input_chars_run cs : forall s com pend,
  Forall (fun c => 0 <= c < 256) cs -> holds s com pend -> LkPtable ∉ held (cthr s) ->
  run_to (input_chars procdump cs) s (foldl (fun st c => typed c st) (com, pend) cs).
Proof using All.
  induction cs as [|c cs IH]; intros s com pend Hcs Hs Hl; cbn [input_chars foldl]; [by exists s|].
  apply Forall_cons in Hcs as [Hc Hcs].
  destruct (input_char_run c s com pend Hc Hs Hl) as (s1 & Hr & H1 & Hl1). unfold run_to.
  rewrite (bind_Ok _ _ _ _ _ Hr). destruct (typed c (com, pend)) as [com1 pend1]. simpl in H1.
  destruct (IH s1 com1 pend1 Hcs H1) as (s2 & Hr2 & H2 & Hl2); [by rewrite Hl1|].
  exists s2. split; [done|]. split; [done|]. congruence.
Qed.

(** C16: an interrupt that delivers the characters [cs] edits the input the way
    the line editor [typed] says: keys append to the line, backspace and kill
    line take back, a line end, Control-D or a full buffer hands the line over
    to readers.  It holds for any value of the free-running indices. *)
Theorem consoleintr_refines cs s com pend :
  Forall (fun c => 0 <= c < 256) cs -> holds s com pend ->
  LkInput ∉ held (cthr s) -> LkPtable ∉ held (cthr s) ->
  exists s', consoleintr procdump cs s = Ok tt s' /\
    holds s' (foldl (fun st c => typed c st) (com, pend) cs).1
             (foldl (fun st c => typed c st) (com, pend) cs).2.
Proof using All.
  intros Hcs Hs Hl Hp. unfold consoleintr. erewrite bind_Ok by (apply acquire_ok; exact Hl).
  set (s1 := set_held _ s).
  destruct (input_chars_run cs s1 com pend Hcs) as (s2 & Hr & H2 & Hl2).
  - eapply holds_same; [|exact Hs]. by repeat split.
  - simpl. intros [?|?]%elem_of_cons; done.
  - rewrite (bind_Ok _ _ _ _ _ Hr). erewrite release_top by (exact Hl2).
    eexists. split; [reflexivity|]. eapply holds_same; [|exact H2]. by repeat split.
Qed.
End editor.

(** ** Reading *)

(** What a read of at most [n] takes: up to and with a newline; a Control-D
    ends the read and is left for the next one unless it comes first. *)
Fixpoint consume (first : bool) (n : nat) (com : list Z) : list Z * list Z :=
  match n, com with
  | S n, c :: com =>
      if c =? CTL_D then ([], if first then com else c :: com)
      else if c =? NEWLINE then ([c], com)
      else let '(out, rest) := consume false n com in (c :: out, rest)
  | _, _ => ([], com)
  end.

(** The read need not wait: the input ends it before it runs out. *)
Fixpoint enough (n : nat) (com : list Z) : bool :=
  match n, com with
  | O, _ => true
  | S n, [] => false
  | S n, c :: com => (c =? CTL_D) || (c =? NEWLINE) || enough n com
  end.

Lemma holds_take s c com pend :
  holds s (c :: com) pend ->
  in_r s <> in_w s /\ nth (cell INPUT_BUF (in_r s)) (in_buf s) 0 = c /\
  holds (set_input (in_buf s) (u32 (in_r s + 1)) (in_w s) (in_e s) s) com pend.
Proof.
  intros [H1 H2 H3 H4 H5 H6 H7 H8]. cbn [length Nat.add] in *. unfold INPUT_BUF in H2.
  rewrite rslice_cons in H6. injection H6 as Hc H6.
  split; [|split; [done|]].
  - rewrite H4. intros E. rewrite <- (u32_small (in_r s)) in E at 1 by done.
    rewrite <- (Z.add_0_r (in_r s)) in E at 1. apply counter_eq in E; lia.
  - split; cbn [in_buf in_r in_w in_e panicked set_input]; try done.
    + unfold INPUT_BUF. lia.
    + apply u32_range.
    + rewrite H4. unfold u32. rewrite Zplus_mod_idemp_l. f_equal. lia.
    + rewrite H5. unfold u32. rewrite Zplus_mod_idemp_l. f_equal. lia.
Qed.

Lemma consoleread_loop_run killed target fuel : forall n com pend dst s,
  holds s com pend -> held (cthr s) = [LkInput] -> enough n com = true -> (n < fuel)%nat ->
  Z.of_nat n <= target -> (Z.of_nat n = target <-> dst = []) ->
  exists s', consoleread_loop killed target (Z.of_nat n) dst fuel s =
      Ok (target - Z.of_nat n + Z.of_nat (length (consume (bool_decide (dst = [])) n com).1),
          dst ++ (consume (bool_decide (dst = [])) n com).1) s' /\
    holds s' (consume (bool_decide (dst = [])) n com).2 pend /\ held (cthr s') = [].
Proof.
  induction fuel as [|fuel IH]; intros n com pend dst s Hs Hl He Hf Ht Hd; [lia|].
  assert (Hrel : forall s1, holds s1 com pend \/ True -> held (cthr s1) = [LkInput] ->
            release LkInput s1 = Ok tt (set_held [] s1)) by (intros s1 _ E; by apply release_top).
  cbn [consoleread_loop]. destruct n as [|n].
  - simpl. erewrite bind_Ok by (by apply Hrel; auto). eexists. split; [|split].
    + rewrite app_nil_r, Z.add_0_r. reflexivity.
    + destruct com; (eapply holds_same; [|exact Hs]; by repeat split).
    + done.
  - destruct com as [|c com]; [done|]. destruct (holds_take _ _ _ _ Hs) as (Hne & Hc & Htk).
    destruct (Z.ltb_spec 0 (Z.of_nat (S n))); [|lia]. unfold bind at 1, get.
    destruct (Z.eqb_spec (in_r s) (in_w s)); [done|]. rewrite Hc. cbn [consume enough] in *.
    destruct (Z.eqb_spec c CTL_D) as [->|HD].
    + destruct (Z.ltb_spec (Z.of_nat (S n)) target) as [Hlt|Hge].
      * rewrite bool_decide_false by (intros E; apply Hd in E; lia). unfold bind at 1, ret.
        erewrite bind_Ok by (by apply Hrel; auto). eexists. split; [|split].
        -- simpl. rewrite app_nil_r, Z.add_0_r. reflexivity.
        -- eapply holds_same; [|exact Hs]; by repeat split.
        -- done.
      * rewrite bool_decide_true by (apply Hd; lia). unfold bind at 1, modify.
        erewrite bind_Ok by (by apply Hrel; auto). eexists. split; [|split].
        -- simpl. rewrite app_nil_r, Z.add_0_r. reflexivity.
        -- eapply holds_same; [|exact Htk]; by repeat split.
        -- done.
    + unfold bind at 1, modify. set (s1 := set_input _ _ _ _ s) in *.
      destruct (Z.eqb_spec c NEWLINE) as [->|HN].
      * erewrite bind_Ok by (by apply Hrel; auto). eexists. split; [|split].
        -- simpl. unfold ret. do 2 f_equal. lia.
        -- eapply holds_same; [|exact Htk]; by repeat split.
        -- done.
      * replace (Z.of_nat (S n) - 1) with (Z.of_nat n) by lia. simpl in He.
        destruct (IH n com pend (dst ++ [c]) s1) as (s2 & Hr & H2 & Hl2); try done; [lia|lia|..].
        { split; [lia|]. intros E. by destruct dst. }
        rewrite bool_decide_false in Hr, H2 by (by destruct dst).
        destruct (consume false n com) as [out rest]. simpl in *. exists s2.
        rewrite Hr. split; [|done]. rewrite <- app_assoc. do 2 f_equal. simpl. lia.
Qed.

(** a read of the console that finds enough committed input returns, with
    no lock held, exactly the bytes [consume] takes, and leaves the rest. *)
Theorem consoleread_takes killed n s com pend :
  holds s com pend -> held (cthr s) = [] -> enough n com = true ->
  exists s', consoleread killed (Z.of_nat n) s =
      Ok (Z.of_nat (length (consume true n com).1), (consume true n com).1) s' /\
    holds s' (consume true n com).2 pend.
Proof.
  intros Hs Hl He. unfold consoleread. erewrite bind_Ok by (apply acquire_ok; simpl; rewrite Hl; apply not_elem_of_nil).
  set (s1 := set_held _ s).
  destruct (consoleread_loop_run killed (Z.of_nat n) (S (Z.to_nat (Z.of_nat n))) n com pend [] s1)
    as (s2 & Hr & H2 & _); try done; try lia.
  - eapply holds_same; [|exact Hs]. by repeat split.
  - simpl. by rewrite Hl.
  - exists s2. rewrite Hr. simpl. rewrite bool_decide_true in * by done. split; [|done]. do 2 f_equal. lia.
Qed.

(** ** A concrete console, with the counters about to wrap around *)

Module ConsoleDemo.
Definition r0 : Z := 4294967294.
Definition s0 : console :=
  mkConsole (repeat 0 128) r0 r0 r0 true false 1919 (repeat 0 2000) true [] (mkThread [] []).

Lemma s0_holds : holds s0 [] [].
Proof. split; try done. apply not_elem_of_nil. Qed.

Lemma consputs_in_screen_witness :
  exists s', consputs [104; 10; BACKSPACE] s0 = Ok tt s' /\ screen_ok s' /\
    drop 1920 (crt s') = drop 1920 (crt s0).
Proof. apply (consputs_in_screen [104; 10; BACKSPACE] s0); [split; [reflexivity|simpl; lia]|reflexivity]. Defined.

(** "lx", backspace, "s", return. *)
Definition keys : list Z := [108; 120; 127; 115; 13].

Lemma consoleintr_refines_witness :
  exists s', consoleintr (ret tt) keys s0 = Ok tt s' /\ holds s' [108; 115; 10] [].
Proof.
  apply (consoleintr_refines (ret tt)) with (com := []) (pend := []) (cs := keys) (s := s0).
  - intros s _. by exists s.
  - repeat constructor; lia.
  - exact s0_holds.
  - apply not_elem_of_nil.
  - apply not_elem_of_nil.
Defined.

Definition s1 : console :=
  set_input ([115; 10] ++ repeat 0 124 ++ [108; 4]) (r0 + 1) (u32 (r0 + 4)) (u32 (r0 + 4)) s0.

Lemma consoleread_takes_witness :
  exists s', consoleread false 10 s1 = Ok (0, []) s' /\ holds s' [115; 10] [].
Proof.
  apply (consoleread_takes false 10 s1 [4; 115; 10] []).
  - split; try done. apply not_elem_of_nil.
  - reflexivity.
  - reflexivity.
Defined.
End ConsoleDemo.
