(* ===== verification/Kbd.v ===== *)
(** * kbd.c, kbd.h: from scan codes to characters

    kbdgetc is a state machine over the modifier word [shift]; the controller
    gives the status byte and the data byte.  The tables are the arrays of
    kbd.h.  The theorem compares it with a keyboard described by its keys: what
    a key types depends on the modifier keys that are down, on how often the
    lock keys were pressed, and on the rows of the layout. *)

From Stdlib Require Import Ascii.
From S2P Require Import Prelude.

Open Scope Z_scope.

Definition KBS_DIB : Z := 1.
Definition SHIFT : Z := 1.
Definition CTL : Z := 2.
Definition ALT : Z := 4.
Definition CAPSLOCK : Z := 8.
Definition NUMLOCK : Z := 16.
Definition SCROLLLOCK : Z := 32.
Definition E0ESC : Z := 64.

(** An array of 256 bytes: the leading entries, the designated ones, zeros. *)
Definition table (lead : list Z) (desig : list (nat * Z)) : list Z :=
  foldl (fun t e => <[e.1 := e.2]> t) (lead ++ repeat 0 (256 - length lead)) desig.

Definition shiftcode : list Z :=
  table [] [(29%nat, CTL); (42%nat, SHIFT); (54%nat, SHIFT); (56%nat, ALT); (157%nat, CTL); (184%nat, ALT)].

Definition togglecode : list Z :=
  table [] [(58%nat, CAPSLOCK); (69%nat, NUMLOCK); (70%nat, SCROLLLOCK)].

(** The keys behind an E0 escape: enter, divide, up, down, page up, page down,
    left, right, home, end, insert, delete. *)
Definition escaped (enter div : Z) : list (nat * Z) :=
  [(156%nat, enter); (181%nat, div); (200%nat, 226); (208%nat, 227); (201%nat, 230); (209%nat, 231);
   (203%nat, 228); (205%nat, 229); (151%nat, 224); (207%nat, 225); (210%nat, 232); (211%nat, 233)].

Definition normalmap : list Z := table
  [0; 27; 49; 50; 51; 52; 53; 54;
   55; 56; 57; 48; 45; 61; 8; 9;
   113; 119; 101; 114; 116; 121; 117; 105;
   111; 112; 91; 93; 10; 0; 97; 115;
   100; 102; 103; 104; 106; 107; 108; 59;
   39; 96; 0; 92; 122; 120; 99; 118;
   98; 110; 109; 44; 46; 47; 0; 42;
   0; 32; 0; 0; 0; 0; 0; 0;
   0; 0; 0; 0; 0; 0; 0; 55;
   56; 57; 45; 52; 53; 54; 43; 49;
   50; 51; 48; 46; 0; 0; 0; 0] (escaped 10 47).

Definition shiftmap : list Z := table
  [0; 27; 33; 64; 35; 36; 37; 94;
   38; 42; 40; 41; 95; 43; 8; 9;
   81; 87; 69; 82; 84; 89; 85; 73;
   79; 80; 123; 125; 10; 0; 65; 83;
   68; 70; 71; 72; 74; 75; 76; 58;
   34; 126; 0; 124; 90; 88; 67; 86;
   66; 78; 77; 60; 62; 63; 0; 42;
   0; 32; 0; 0; 0; 0; 0; 0;
   0; 0; 0; 0; 0; 0; 0; 55;
   56; 57; 45; 52; 53; 54; 43; 49;
   50; 51; 48; 46; 0; 0; 0; 0] (escaped 10 47).

(** The macro [C(x)] stored in an unsigned char. *)
Definition kctl (x : Z) : Z := u8 (x - 64).

Definition ctlmap : list Z := table
  [0; 0; 0; 0; 0; 0; 0; 0;
   0; 0; 0; 0; 0; 0; 0; 0;
   kctl 81; kctl 87; kctl 69; kctl 82; kctl 84; kctl 89; kctl 85; kctl 73;
   kctl 79; kctl 80; 0; 0; 13; 0; kctl 65; kctl 83;
   kctl 68; kctl 70; kctl 71; kctl 72; kctl 74; kctl 75; kctl 76; 0;
   0; 0; 0; kctl 92; kctl 90; kctl 88; kctl 67; kctl 86;
   kctl 66; kctl 78; kctl 77; 0; 0; kctl 47; 0; 0] (escaped 13 (kctl 47)).

Definition charcode : list (list Z) := [normalmap; shiftmap; ctlmap; ctlmap].

Definition at_byte (t : list Z) (i : Z) : Z := nth (Z.to_nat i) t 0.

(** kbdgetc: the value returned and the new modifier word. *)
Definition kbdgetc (st data shift : Z) : Z * Z :=
  if Z.land st KBS_DIB =? 0 then (-1, shift)
  else if data =? 224 then (0, Z.lor shift E0ESC)
  else if negb (Z.land data 128 =? 0) then
    let data := if negb (Z.land shift E0ESC =? 0) then data else Z.land data 127 in
    (0, Z.land shift (Z.lnot (Z.lor (at_byte shiftcode data) E0ESC)))
  else
    let '(data, shift) :=
      if negb (Z.land shift E0ESC =? 0) then (Z.lor data 128, Z.land shift (Z.lnot E0ESC)) else (data, shift) in
    let shift := Z.lor shift (at_byte shiftcode data) in
    let shift := Z.lxor shift (at_byte togglecode data) in
    let c := at_byte (nth (Z.to_nat (Z.land shift (Z.lor CTL SHIFT))) charcode []) data in
    let c :=
      if negb (Z.land shift CAPSLOCK =? 0) then
        if (97 <=? c) && (c <=? 122) then c + (65 - 97)
        else if (65 <=? c) && (c <=? 90) then c + (97 - 65)
        else c
      else c in
    (c, shift).

(** kbdintr: the characters one interrupt delivers to consoleintr, from the
    bytes the controller has buffered. *)
Fixpoint kbd_chars (datas : list Z) (shift : Z) : list Z * Z :=
  match datas with
  | [] => ([], shift)
  | d :: datas =>
      let '(c, shift) := kbdgetc KBS_DIB d shift in
      let '(cs, shift) := kbd_chars datas shift in
      (c :: cs, shift)
  end.

(** ** The state machine is checked on all its states

    The modifier word has 7 bits and a scan code 8, so a property of one step
    is a finite check. *)

Definition all_steps (P : Z -> Z -> bool) : bool :=
  forallb (fun shift => forallb (fun data => P (Z.of_nat data) (Z.of_nat shift)) (seq 0 256)) (seq 0 128).

Lemma all_steps_spec P data shift :
  all_steps P = true -> 0 <= data < 256 -> 0 <= shift < 128 -> P data shift = true.
Proof.
  intros H Hd Hs. unfold all_steps in H. rewrite forallb_forall in H.
  specialize (H (Z.to_nat shift) ltac:(apply in_seq; lia)). rewrite forallb_forall in H.
  specialize (H (Z.to_nat data) ltac:(apply in_seq; lia)). by rewrite !Z2Nat.id in H by lia.
Qed.

Definition step_ok (data shift : Z) : bool :=
  let '(c, shift') := kbdgetc KBS_DIB data shift in
  (0 <=? c) && (c <? 256) && (0 <=? shift') && (shift' <? 128).

Lemma all_steps_ok : all_steps step_ok = true.
Proof. vm_compute. reflexivity. Qed.

(** Whatever bytes the keyboard sends, the characters handed to the console
    are bytes and the modifier word stays within its seven bits. *)
Lemma kbd_chars_bytes datas shift :
  Forall (fun d => 0 <= d < 256) datas -> 0 <= shift < 128 ->
  Forall (fun c => 0 <= c < 256) (kbd_chars datas shift).1 /\ 0 <= (kbd_chars datas shift).2 < 128.
Proof.
  revert shift. induction datas as [|d datas IH]; intros shift Hd Hs; cbn [kbd_chars]; [by split|].
  apply Forall_cons in Hd as [Hd Hds].
  pose proof (all_steps_spec _ d shift all_steps_ok Hd Hs) as Hstep. unfold step_ok in Hstep.
  destruct (kbdgetc KBS_DIB d shift) as [c shift1]. zbool.
  specialize (IH shift1 Hds ltac:(lia)). destruct (kbd_chars datas shift1) as [cs shift2]. simpl in *.
  split; [constructor; [lia|apply IH]|apply IH].
Qed.

(** ** The keyboard as keys *)

(** A key is known by its scan code and by whether the keyboard escapes the code
    with E0.  (96 is no key: with the release bit it would be the escape.) *)
Record key : Type := Key { k_ext : bool; k_code : Z }.

#[export] Instance key_eq_dec : EqDecision key.
Proof. solve_decision. Defined.



























