(* ===== verification/Mmu.v ===== *)
(** * mmu.h and memlayout.h: addresses, page indices and page-table entries *)

From S2P Require Import Prelude.

Open Scope Z_scope.

Definition PGSIZE : Z := 4096.
Definition NPDENTRIES : Z := 1024.
Definition NPTENTRIES : Z := 1024.
Definition PTXSHIFT : Z := 12.
Definition PDXSHIFT : Z := 22.

Definition PTE_P : Z := 1.
Definition PTE_W : Z := 2.
Definition PTE_U : Z := 4.
Definition PTE_PS : Z := 128.

Definition EXTMEM : Z := 1048576.
Definition PHYSTOP : Z := 234881024.
Definition DEVSPACE : Z := 4261412864.
Definition KERNBASE : Z := 2147483648.
Definition KERNLINK : Z := KERNBASE + EXTMEM.

Definition v2p (a : Z) : Z := u32 (a - KERNBASE).
Definition p2v (a : Z) : Z := u32 (a + KERNBASE).

Definition PDX (va : Z) : Z := Z.land (Z.shiftr (u32 va) PDXSHIFT) 1023.
Definition PTX (va : Z) : Z := Z.land (Z.shiftr (u32 va) PTXSHIFT) 1023.
Definition PGADDR (d t o : Z) : Z :=
  u32 (Z.lor (Z.lor (Z.shiftl d PDXSHIFT) (Z.shiftl t PTXSHIFT)) o).

Definition PGROUNDUP (sz : Z) : Z := Z.land (u32 (sz + PGSIZE - 1)) (Z.lnot (PGSIZE - 1)).
Definition PGROUNDDOWN (a : Z) : Z := Z.land a (Z.lnot (PGSIZE - 1)).

Definition PTE_ADDR (pte : Z) : Z := Z.land (u32 pte) (Z.lnot 4095).
Definition PTE_FLAGS (pte : Z) : Z := Z.land (u32 pte) 4095.

(** ** The macros as arithmetic *)

Lemma PDX_div va : 0 <= va < 4294967296 -> PDX va = va / 4194304.
Proof.
  intros. unfold PDX, PDXSHIFT. rewrite u32_small by lia.
  change 1023 with (2 ^ 10 - 1). rewrite land_mask, Z.shiftr_div_pow2 by lia.
  change (2 ^ 22) with 4194304. change (2 ^ 10) with 1024. zlia.
Qed.

Lemma PTX_div va : 0 <= va < 4294967296 -> PTX va = (va / 4096) mod 1024.
Proof.
  intros. unfold PTX, PTXSHIFT. rewrite u32_small by lia.
  change 1023 with (2 ^ 10 - 1). rewrite land_mask, Z.shiftr_div_pow2 by lia. done.
Qed.

Lemma PGROUNDDOWN_sub a : PGROUNDDOWN a = a - a mod 4096.
Proof.
  unfold PGROUNDDOWN. change (PGSIZE - 1) with (2 ^ 12 - 1). by rewrite land_lnot_mask by lia.
Qed.

Lemma PGROUNDUP_sub a : PGROUNDUP a = u32 (a + 4095) - (u32 (a + 4095)) mod 4096.
Proof.
  unfold PGROUNDUP. change (PGSIZE - 1) with (2 ^ 12 - 1). rewrite land_lnot_mask by lia.
  by replace (a + PGSIZE - 1) with (a + 4095) by (unfold PGSIZE; lia).
Qed.

(** Below the last page, rounding up gives the least page boundary that is
    not below the address. *)
Lemma PGROUNDUP_spec a :
  0 <= a <= 4294963200 -> PGROUNDUP a mod 4096 = 0 /\ a <= PGROUNDUP a < a + 4096.
Proof. intros. rewrite PGROUNDUP_sub. zlia. Qed.

Lemma PGROUNDUP_aligned a : PGROUNDUP a mod 4096 = 0.
Proof. rewrite PGROUNDUP_sub. zlia. Qed.

Lemma PGROUNDUP_fix a : 0 <= a < 4294967296 -> a mod 4096 = 0 -> PGROUNDUP a = a.
Proof. intros. rewrite PGROUNDUP_sub. zlia. Qed.

Lemma PTE_ADDR_sub p : PTE_ADDR p = u32 p - u32 p mod 4096.
Proof. unfold PTE_ADDR. change 4095 with (2 ^ 12 - 1). by rewrite land_lnot_mask by lia. Qed.

Lemma PTE_FLAGS_mod p : PTE_FLAGS p = u32 p mod 4096.
Proof. unfold PTE_FLAGS. change 4095 with (2 ^ 12 - 1). by rewrite land_mask by lia. Qed.

(** An entry built from a page address and flags gives both back. *)
Lemma PTE_ADDR_lor pa fl :
  0 <= pa < 4294967296 -> pa mod 4096 = 0 -> 0 <= fl < 4096 -> PTE_ADDR (Z.lor pa fl) = pa.
Proof. intros. rewrite (lor_low pa fl 12) by (try change (2 ^ 12) with 4096; lia). rewrite PTE_ADDR_sub. zlia. Qed.

Lemma PTE_FLAGS_lor pa fl :
  0 <= pa < 4294967296 -> pa mod 4096 = 0 -> 0 <= fl < 4096 -> PTE_FLAGS (Z.lor pa fl) = fl.
Proof. intros. rewrite (lor_low pa fl 12) by (try change (2 ^ 12) with 4096; lia). rewrite PTE_FLAGS_mod. zlia. Qed.

Lemma v2p_p2v a : 0 <= a < 4294967296 -> v2p (p2v a) = a.
Proof. intros. unfold v2p, p2v, KERNBASE. zlia. Qed.

Lemma p2v_v2p a : 0 <= a < 4294967296 -> p2v (v2p a) = a.
Proof. intros. unfold v2p, p2v, KERNBASE. zlia. Qed.

(** The two index fields and the offset of a virtual address rebuild it. *)
Lemma PGADDR_split va :
  0 <= va < 4294967296 -> PGADDR (PDX va) (PTX va) (va mod 4096) = va.
Proof.
  intros. rewrite PDX_div, PTX_div by done. unfold PGADDR, PDXSHIFT, PTXSHIFT.
  rewrite !Z.shiftl_mul_pow2 by lia.
  change (2 ^ 22) with 4194304. change (2 ^ 12) with 4096.
  rewrite (lor_low (_ * 4194304) _ 22) by (change (2 ^ 22) with 4194304; zlia).
  rewrite (lor_low _ _ 12) by (change (2 ^ 12) with 4096; zlia). zlia.
Qed.
