(* ===== verification/Apic.v ===== *)
(** * ioapic.c and lapic.c: the interrupt controllers of a multiprocessor

    The two devices are memory-mapped; their registers are reached through a
    class each, and what the device does with an access is a hypothesis that
    follows its data sheet. *)

From S2P Require Import Prelude Irq Memory Mmu.

Open Scope Z_scope.

(** ** ioapic.c *)

Definition REG_ID : Z := 0.
Definition REG_VER : Z := 1.
Definition REG_TABLE : Z := 16.
Definition INT_DISABLED : Z := 65536.

(** The struct ioapic at 0xFEC00000: its fields reg and data. *)
Class IoApic (D : Type) := {
  io_set_reg : Z -> D -> D;
  io_get_data : D -> Z * D;
  io_set_data : Z -> D -> D
}.

Section ioapic.
Context {D : Type} `{IoApic D}.

(** ismp and ioapicid are set by mpinit; [io_warned] records the message. *)
Record iost : Type := mkIo { ismp : bool; ioapicid : Z; io_warned : bool; io_dev : D }.

Definition ioapicread (reg : Z) (d : D) : Z * D := io_get_data (io_set_reg reg d).
Definition ioapicwrite (reg data : Z) (d : D) : D := io_set_data data (io_set_reg reg d).

(** [for(i = 0; i <= maxintr; i++)], counted by the turns that are left. *)
Fixpoint mask_all (i : Z) (turns : nat) (d : D) : D :=
  match turns with
  | O => d
  | S turns =>
      let d := ioapicwrite (REG_TABLE + 2 * i) (Z.lor INT_DISABLED (T_IRQ0 + i)) d in
      let d := ioapicwrite (REG_TABLE + 2 * i + 1) 0 d in
      mask_all (i + 1) turns d
  end.

Definition ioapicinit (s : iost) : iost :=
  if negb (ismp s) then s
  else
    let '(ver, d) := ioapicread REG_VER (io_dev s) in
    let maxintr := Z.land (Z.shiftr ver 16) 255 in
    let '(idr, d) := ioapicread REG_ID d in
    let warn := negb (Z.shiftr idr 24 =? ioapicid s) in
    mkIo (ismp s) (ioapicid s) (io_warned s || warn) (mask_all 0 (S (Z.to_nat maxintr)) d).

Definition ioapicenable (irq cpunum : Z) (s : iost) : iost :=
  if negb (ismp s) then s
  else
    let d := ioapicwrite (REG_TABLE + 2 * irq) (T_IRQ0 + irq) (io_dev s) in
    let d := ioapicwrite (REG_TABLE + 2 * irq + 1) (u32 (Z.shiftl cpunum 24)) d in
    mkIo (ismp s) (ioapicid s) (io_warned s) d.

(** *** The device: the register selected, and the registers. *)

Record ioregs : Type := mkRegs { rg_sel : Z; rg : Z -> Z }.

Definition regs_write (v : Z) (r : ioregs) : ioregs :=
  mkRegs (rg_sel r) (fun k => if k =? rg_sel r then v else rg r k).

Class IoApicLaws := {
  regs : D -> ioregs;
  set_reg_law : forall k d, regs (io_set_reg k d) = mkRegs k (rg (regs d));
  set_data_law : forall v d, regs (io_set_data v d) = regs_write v (regs d);
  get_data_law : forall d, fst (io_get_data d) = rg (regs d) (rg_sel (regs d)) /\ regs (snd (io_get_data d)) = regs d
}.
Context `{IoApicLaws}.

Definition reg (k : Z) (d : D) : Z := rg (regs d) k.

(** Entry [i] of the redirection table. *)
Definition entry (i : Z) (d : D) : Z * Z := (reg (REG_TABLE + 2 * i) d, reg (REG_TABLE + 2 * i + 1) d).

Definition maxintr (d : D) : Z := Z.land (Z.shiftr (reg REG_VER d) 16) 255.

Lemma ioapicwrite_reg k v d j : reg j (ioapicwrite k v d) = if j =? k then v else reg j d.
Proof. unfold reg, ioapicwrite. rewrite set_data_law, set_reg_law. done. Qed.

Lemma ioapicread_reg k d : fst (ioapicread k d) = reg k d /\ forall j, reg j (snd (ioapicread k d)) = reg j d.
Proof.
  unfold reg, ioapicread. destruct (get_data_law (io_set_reg k d)) as (E1 & E2). rewrite E1, E2, set_reg_law. done.
Qed.

Lemma entry_write i lo hi d j :
  entry j (ioapicwrite (REG_TABLE + 2 * i + 1) hi (ioapicwrite (REG_TABLE + 2 * i) lo d)) =
  if j =? i then (lo, hi) else entry j d.
Proof.
  unfold entry. rewrite !ioapicwrite_reg. destruct (Z.eqb_spec j i) as [->|Hne].
  - rewrite !Z.eqb_refl, (proj2 (Z.eqb_neq _ (REG_TABLE + 2 * i + 1))) by lia. done.
  - rewrite !(proj2 (Z.eqb_neq _ _)) by lia. done.
Qed.

Lemma mask_all_entry turns : forall i d j, 0 <= i ->
  entry j (mask_all i turns d) =
  if (i <=? j) && (j <? i + Z.of_nat turns) then (Z.lor INT_DISABLED (T_IRQ0 + j), 0) else entry j d.
Proof.
  induction turns as [|turns IH]; intros i d j Hi; cbn [mask_all].
  - destruct (Z.leb_spec i j), (Z.ltb_spec j (i + Z.of_nat 0)); done || lia.
  - rewrite IH, entry_write by lia. destruct (Z.eqb_spec j i) as [->|Hne].
    + rewrite (proj2 (Z.leb_gt (i + 1) i)), Z.leb_refl, (proj2 (Z.ltb_lt i (i + Z.of_nat (S turns)))) by lia. done.
    + destruct (Z.leb_spec (i + 1) j), (Z.leb_spec i j), (Z.ltb_spec j (i + 1 + Z.of_nat turns)),
        (Z.ltb_spec j (i + Z.of_nat (S turns))); done || lia.
Qed.

(** The processor the last of the calls sends line [irq] to. *)
Definition routed (irq : Z) (l : list (Z * Z)) : option Z :=
  fold_left (fun r ic => if fst ic =? irq then Some (snd ic) else r) l None.

Definition wanted (i : Z) (r : option Z) : Z * Z :=
  match r with
  | Some cpu => (T_IRQ0 + i, u32 (Z.shiftl cpu 24))
  | None => (Z.lor INT_DISABLED (T_IRQ0 + i), 0)
  end.

Lemma enables_entry l : forall s r i, ismp s = true ->
  entry i (io_dev s) = wanted i r ->
  entry i (io_dev (fold_left (fun s ic => ioapicenable (fst ic) (snd ic) s) l s)) =
  wanted i (fold_left (fun r ic => if fst ic =? i then Some (snd ic) else r) l r).
Proof.
  induction l as [|(irq & cpu) l IH]; intros s r i Hs He; [done|]. cbn [fold_left fst snd]. apply IH.
  - unfold ioapicenable. by rewrite Hs.
  - unfold ioapicenable. rewrite Hs. cbn [negb io_dev]. rewrite entry_write.
    destruct (Z.eqb_spec i irq) as [->|Hne]; [by rewrite Z.eqb_refl|]. by rewrite (proj2 (Z.eqb_neq irq i)) by lia.
Qed.

(** C35: After ioapicinit and any calls of ioapicenable on a multiprocessor, every
    entry of the redirection table is disabled, or delivers vector T_IRQ0 plus
    its number to the processor of the last call that named it; on a machine
    with one processor the device is not touched. *)
Theorem ioapic_routes s l i :
  let s' := fold_left (fun s ic => ioapicenable (fst ic) (snd ic) s) l (ioapicinit s) in
  if ismp s then 0 <= i <= maxintr (io_dev s) -> entry i (io_dev s') = wanted i (routed i l) else s' = s.
Proof.
  intros s'. destruct (ismp s) eqn:Es.
  - intros Hi. unfold s', routed. apply enables_entry; unfold ioapicinit; rewrite Es; cbn [negb].
    + destruct (ioapicread REG_VER (io_dev s)) as (ver & d1), (ioapicread REG_ID d1). done.
    + destruct (ioapicread_reg REG_VER (io_dev s)) as (E1 & _).
      destruct (ioapicread REG_VER (io_dev s)) as (ver & d1). cbn [fst snd] in *.
      destruct (ioapicread REG_ID d1) as (idr & d2). cbn [io_dev]. rewrite mask_all_entry by lia.
      rewrite E1. fold (maxintr (io_dev s)). rewrite (proj2 (Z.leb_le _ _)), (proj2 (Z.ltb_lt _ _)) by lia. done.
  - assert (Hid : forall l, fold_left (fun s ic => ioapicenable (fst ic) (snd ic) s) l s = s).
    { induction l0 as [|ic l0 IH]; [done|]. cbn [fold_left]. unfold ioapicenable at 2. by rewrite Es. }
    unfold s', ioapicinit. rewrite Es. cbn [negb]. apply Hid.
Qed.
End ioapic.

(** ** lapic.c *)

Definition ID : Z := 8.           (* 0x20 / 4 *)
Definition VER : Z := 12.
Definition TPR : Z := 32.
Definition EOI : Z := 44.
Definition SVR : Z := 60.
Definition ESR : Z := 160.
Definition ICRLO : Z := 192.
Definition ICRHI : Z := 196.
Definition TIMER : Z := 200.
Definition PCINT : Z := 208.
Definition LINT0 : Z := 212.
Definition LINT1 : Z := 216.
Definition ERROR : Z := 220.
Definition TICR : Z := 224.
Definition TDCR : Z := 248.

Definition ENABLE : Z := 256.
Definition INIT : Z := 1280.      (* 0x500 *)
Definition STARTUP : Z := 1536.   (* 0x600 *)
Definition DELIVS : Z := 4096.
Definition ASSERT : Z := 16384.
Definition LEVEL : Z := 32768.
Definition BCAST : Z := 524288.
Definition X1 : Z := 11.
Definition PERIODIC : Z := 131072.
Definition MASKED : Z := 65536.
Definition FL_IF : Z := 512.

Class LocalApic (D : Type) := {
  lapic_get : Z -> D -> Z * D;
  lapic_put : Z -> Z -> D -> D
}.

Definition store16 (m : mem) (a v : Z) : mem := store_bytes m a (le_bytes 2 v).

(** Two halves make a word. *)
Lemma load32_store16 m a lo hi : load32 (store16 (store16 m a lo) (a + 2) hi) a = u16 lo + 65536 * u16 hi.
Proof.
  rewrite load32_load8. unfold store16. rewrite !load8_store_bytes. cbn [length le_bytes].
  repeat match goal with
  | |- context [?x <=? ?y] => destruct (Z.leb_spec x y); try lia
  | |- context [?x <? ?y] => destruct (Z.ltb_spec x y); try lia
  end.
  cbn [andb].
  replace (Z.to_nat (a - a)) with 0%nat by lia. replace (Z.to_nat (a + 1 - a)) with 1%nat by lia.
  replace (Z.to_nat (a + 2 - (a + 2))) with 0%nat by lia. replace (Z.to_nat (a + 3 - (a + 2))) with 1%nat by lia.
  cbn [nth]. zlia.
Qed.

Section lapic.
Context {D : Type} `{LocalApic D} `{Ports D}.
(** How often lapicinit may look at the delivery status. *)
Context (polls : nat).

(** [lapic] is the pointer set by mpinit; [cpunum_n] the static counter. *)
Record lapicst : Type := mkLa { lapic : Z; cpunum_n : Z; la_mem : mem; la_dev : D }.

Definition set_la_dev (d : D) (s : lapicst) : lapicst := mkLa (lapic s) (cpunum_n s) (la_mem s) d.

(** A write, and a read of the ID register that waits for it. *)
Definition put_wait (index value : Z) (d : D) : D := snd (lapic_get ID (lapic_put index value d)).
Definition lapicw (index value : Z) (s : lapicst) : lapicst := set_la_dev (put_wait index (u32 value) (la_dev s)) s.

Definition lapicws (l : list (Z * Z)) (s : lapicst) : lapicst := fold_left (fun s iv => lapicw (fst iv) (snd iv) s) l s.

(** [while(lapic[ICRLO] & DELIVS);] *)
Fixpoint wait_delivered (fuel : nat) (d : D) : option D :=
  match fuel with
  | O => None
  | S fuel =>
      let '(v, d) := lapic_get ICRLO d in
      if Z.land v DELIVS =? 0 then Some d else wait_delivered fuel d
  end.

Definition lapicinit (s : lapicst) : option lapicst :=
  if lapic s =? 0 then Some s
  else
    let s := lapicws [(SVR, Z.lor ENABLE (T_IRQ0 + IRQ_SPURIOUS)); (TDCR, X1);
                      (TIMER, Z.lor PERIODIC (T_IRQ0 + IRQ_TIMER)); (TICR, 10000000);
                      (LINT0, MASKED); (LINT1, MASKED)] s in
    let '(ver, d) := lapic_get VER (la_dev s) in
    let s := set_la_dev d s in
    let s := if 4 <=? Z.land (Z.shiftr ver 16) 255 then lapicw PCINT MASKED s else s in
    let s := lapicws [(ERROR, T_IRQ0 + IRQ_ERROR); (ESR, 0); (ESR, 0); (EOI, 0);
                      (ICRHI, 0); (ICRLO, Z.lor (Z.lor BCAST INIT) LEVEL)] s in
    match wait_delivered polls (la_dev s) with
    | Some d => Some (lapicw TPR 0 (set_la_dev d s))
    | None => None
    end.

(** The message of the first call with interrupts enabled, and the number. *)
Definition cpunum (eflags : Z) (s : lapicst) : Z * bool * lapicst :=
  let on := negb (Z.land eflags FL_IF =? 0) in
  let warn := on && (cpunum_n s =? 0) in
  let s := if on then mkLa (lapic s) (s32 (cpunum_n s + 1)) (la_mem s) (la_dev s) else s in
  if negb (lapic s =? 0) then
    let '(v, d) := lapic_get ID (la_dev s) in (Z.shiftr v 24, warn, set_la_dev d s)
  else (0, warn, s).

Definition lapiceoi (s : lapicst) : lapicst := if negb (lapic s =? 0) then lapicw EOI 0 s else s.

Definition CMOS_PORT : Z := 112.
Definition CMOS_RETURN : Z := 113.

Definition startup_ipi (apicid addr : Z) (s : lapicst) : lapicst :=
  lapicw ICRLO (Z.lor STARTUP (Z.shiftr addr 12)) (lapicw ICRHI (Z.shiftl apicid 24) s).

Definition lapicstartap (apicid addr : Z) (s : lapicst) : lapicst :=
  let d := outb (CMOS_PORT + 1) 10 (outb CMOS_PORT 15 (la_dev s)) in
  let wrv := p2v (Z.lor (Z.shiftl 64 4) 103) in
  let m := store16 (store16 (la_mem s) wrv 0) (wrv + 2) (u16 (Z.shiftr addr 4)) in
  let s := mkLa (lapic s) (cpunum_n s) m d in
  let s := lapicws [(ICRHI, Z.shiftl apicid 24); (ICRLO, Z.lor (Z.lor INIT LEVEL) ASSERT); (ICRLO, Z.lor INIT LEVEL)] s in
  startup_ipi apicid addr (startup_ipi apicid addr s).

(** *** The device: the registers that hold what is written to them, and the
    interrupts sent so far, each as its destination and command. *)

Record laview : Type := mkView { lv_reg : Z -> Z; lv_sent : list (Z * Z) }.

Definition view_write (k v : Z) (w : laview) : laview :=
  mkView (fun j => if j =? k then v else lv_reg w j)
         (if k =? ICRLO then lv_sent w ++ [(lv_reg w ICRHI, v)] else lv_sent w).

Class LocalApicLaws := {
  lview : D -> laview;
  put_law : forall k v d, lview (lapic_put k v d) = view_write k v (lview d);
  get_law : forall k d, lview (snd (lapic_get k d)) = lview d;
  out_law : forall p v d, lview (outb p v d) = lview d;
  (* a command is delivered before it was polled too often *)
  delivered : forall d, is_Some (wait_delivered polls d)
}.
Context `{LocalApicLaws}.

Lemma lapicw_view k v s : lview (la_dev (lapicw k v s)) = view_write k (u32 v) (lview (la_dev s)).
Proof. cbn [lapicw set_la_dev la_dev]. unfold put_wait. by rewrite get_law, put_law. Qed.

Lemma lapicws_view l : forall s,
  lview (la_dev (lapicws l s)) = fold_left (fun w iv => view_write (fst iv) (u32 (snd iv)) w) l (lview (la_dev s)).
Proof.
  induction l as [|(k & v) l IH]; intros s; [done|]. cbn [lapicws fold_left fst snd]. fold (lapicws l (lapicw k v s)).
  by rewrite IH, lapicw_view.
Qed.

Lemma wait_delivered_view fuel : forall d d', wait_delivered fuel d = Some d' -> lview d' = lview d.
Proof.
  induction fuel as [|fuel IH]; intros d d' E; [done|]. cbn [wait_delivered] in E. pose proof (get_law ICRLO d) as G.
  destruct (lapic_get ICRLO d) as (v & d1). cbn [snd] in G. destruct (_ =? 0).
  - by injection E as <-.
  - by rewrite (IH _ _ E).
Qed.

(** After lapicinit the processor takes interrupts of every priority, its timer
    interrupts periodically as line IRQ_TIMER, its two lines are off and errors
    arrive as line IRQ_ERROR; one INIT was sent, to all. *)
Lemma lapicinit_ready s : lapic s <> 0 ->
  exists s', lapicinit s = Some s' /\ let r := lv_reg (lview (la_dev s')) in
    r TPR = 0 /\ r SVR = ENABLE + T_IRQ0 + IRQ_SPURIOUS /\ r TIMER = PERIODIC + T_IRQ0 + IRQ_TIMER /\ r TICR = 10000000 /\
    r LINT0 = MASKED /\ r LINT1 = MASKED /\ r ERROR = T_IRQ0 + IRQ_ERROR /\
    lv_sent (lview (la_dev s')) = lv_sent (lview (la_dev s)) ++ [(0, BCAST + INIT + LEVEL)].
Proof.
  intros Hl. unfold lapicinit. rewrite (proj2 (Z.eqb_neq _ _)) by done.
  set (s1 := lapicws _ s). pose proof (get_law VER (la_dev s1)) as G. destruct (lapic_get VER (la_dev s1)) as (ver & d). cbn [snd] in G.
  assert (E1 : lview (la_dev s1) = lview (la_dev s1)) by done. unfold s1 in E1 at 2. rewrite lapicws_view in E1.
  set (s2 := if 4 <=? _ then _ else _).
  assert (E2 : lv_sent (lview (la_dev s2)) = lv_sent (lview (la_dev s1)) /\
    forall k, k <> PCINT -> lv_reg (lview (la_dev s2)) k = lv_reg (lview (la_dev s1)) k).
  { unfold s2. destruct (4 <=? _).
    - rewrite lapicw_view. cbn [la_dev set_la_dev]. rewrite G. split; [done|]. intros k Hk. cbn [lv_reg view_write].
      by rewrite (proj2 (Z.eqb_neq _ _)) by done.
    - cbn [la_dev set_la_dev]. by rewrite G. }
  clearbody s2. set (s3 := lapicws _ s2). destruct (delivered (la_dev s3)) as (d3 & E3). rewrite E3. eexists. split; [done|].
  rewrite lapicw_view. cbn [la_dev set_la_dev]. rewrite (wait_delivered_view _ _ _ E3). unfold s3. rewrite lapicws_view.
  destruct E2 as (E2 & E2'). cbn [fold_left view_write lv_reg lv_sent fst snd]. cbv zeta.
  split_and!; try reflexivity; try (rewrite E2' by done; rewrite E1; reflexivity).
  rewrite E2, E1. reflexivity.
Qed.

(** Another processor is started at [addr], if the address is that of a page in
    the first megabyte: it is sent INIT and, twice, a startup command for the
    page, and the warm reset vector names the same place. *)
Lemma lapicstartap_starts apicid addr s : 0 <= apicid < 128 -> 0 <= addr < 1048576 -> addr mod 4096 = 0 ->
  let s' := lapicstartap apicid addr s in
  lv_sent (lview (la_dev s')) = lv_sent (lview (la_dev s)) ++
    [(apicid * 2 ^ 24, INIT + LEVEL + ASSERT); (apicid * 2 ^ 24, INIT + LEVEL);
     (apicid * 2 ^ 24, STARTUP + addr / 4096); (apicid * 2 ^ 24, STARTUP + addr / 4096)] /\
  load32 (la_mem s') (KERNBASE + 1127) = addr / 16 * 65536.
Proof.
  intros Ha Hd Hp s'. assert (Ehi : u32 (Z.shiftl apicid 24) = apicid * 2 ^ 24).
  { rewrite Z.shiftl_mul_pow2 by lia. apply u32_small. lia. }
  assert (Elo : u32 (Z.lor STARTUP (Z.shiftr addr 12)) = STARTUP + addr / 4096).
  { rewrite Z.shiftr_div_pow2 by lia. change (2 ^ 12) with 4096. unfold STARTUP.
    rewrite (lor_low 1536 (addr / 4096) 8) by (done || zlia). apply u32_small. zlia. }
  split.
  - unfold s', lapicstartap, startup_ipi. rewrite !lapicw_view, lapicws_view. cbn [la_dev]. rewrite !out_law.
    cbn [fold_left view_write lv_sent lv_reg fst snd Z.eqb Pos.eqb ICRHI ICRLO]. rewrite Ehi, Elo, <- !app_assoc. reflexivity.
  - change (la_mem s') with (store16 (store16 (la_mem s) (KERNBASE + 1127) 0) (KERNBASE + 1127 + 2) (u16 (Z.shiftr addr 4))).
    rewrite load32_store16, Z.shiftr_div_pow2 by lia. change (2 ^ 4) with 16. zlia.
Qed.
End lapic.

(** ** The clock of lapic.c *)

Definition CMOS_STATA : Z := 10.
Definition CMOS_STATB : Z := 11.
Definition CMOS_UIP : Z := Z.shiftl 1 7.
Definition SECS : Z := 0.
Definition MINS : Z := 2.
Definition HOURS : Z := 4.
Definition DAY : Z := 7.
Definition MONTH : Z := 8.
Definition YEAR : Z := 9.

Record rtcdate : Type := mkDate { second : Z; minute : Z; hour : Z; day : Z; month : Z; year : Z }.

#[export] Instance rtcdate_eq_dec : EqDecision rtcdate.
Proof. solve_decision. Defined.

Section clock.
Context {D : Type} `{Ports D}.

Definition cmos_read (reg : Z) (d : D) : Z * D := inb CMOS_RETURN (outb CMOS_PORT reg d).

Definition fill_rtcdate (d : D) : rtcdate * D :=
  let '(s, d) := cmos_read SECS d in
  let '(mi, d) := cmos_read MINS d in
  let '(h, d) := cmos_read HOURS d in
  let '(da, d) := cmos_read DAY d in
  let '(mo, d) := cmos_read MONTH d in
  let '(y, d) := cmos_read YEAR d in
  (mkDate s mi h da mo y, d).

(** The loop: two equal readings with no update in between. *)
Fixpoint read_twice (fuel : nat) (d : D) : option (rtcdate * D) :=
  match fuel with
  | O => None
  | S fuel =>
      let '(t1, d) := fill_rtcdate d in
      let '(st, d) := cmos_read CMOS_STATA d in
      if negb (Z.land st CMOS_UIP =? 0) then read_twice fuel d
      else
        let '(t2, d) := fill_rtcdate d in
        if bool_decide (t1 = t2) then Some (t1, d) else read_twice fuel d
  end.

Definition CONV (x : Z) : Z := Z.shiftr x 4 * 10 + Z.land x 15.
Definition conv_date (t : rtcdate) : rtcdate :=
  mkDate (CONV (second t)) (CONV (minute t)) (CONV (hour t)) (CONV (day t)) (CONV (month t)) (CONV (year t)).

Definition cmostime (fuel : nat) (d : D) : option (rtcdate * D) :=
  let '(sb, d) := cmos_read CMOS_STATB d in
  let bcd := Z.land sb (Z.shiftl 1 2) =? 0 in
  match read_twice fuel d with
  | None => None
  | Some (t, d) =>
      let t := if bcd then conv_date t else t in
      Some (mkDate (second t) (minute t) (hour t) (day t) (month t) (year t + 2000), d)
  end.

(** A clock that shows the same registers throughout. *)
Class StillClock (reg : Z -> Z) := {
  still : D -> Prop;
  still_read : forall k d, still d -> fst (cmos_read k d) = reg k /\ still (snd (cmos_read k d))
}.

(** A date as the clock holds it, in decimal digits or in binary. *)
Definition bcd (z : Z) : Z := z / 10 * 16 + z mod 10.

Lemma CONV_bcd z : 0 <= z < 160 -> CONV (bcd z) = z.
Proof.
  intros Hz. unfold CONV, bcd. change 15 with (2 ^ 4 - 1). rewrite land_mask, Z.shiftr_div_pow2 by lia.
  change (2 ^ 4) with 16. zlia.
Qed.

Definition shows (reg : Z -> Z) (t : rtcdate) : Prop :=
  reg SECS = second t /\ reg MINS = minute t /\ reg HOURS = hour t /\ reg DAY = day t /\ reg MONTH = month t /\ reg YEAR = year t.

Context (reg : Z -> Z) `{StillClock reg}.

Lemma fill_still t d : shows reg t -> still d -> fst (fill_rtcdate d) = t /\ still (snd (fill_rtcdate d)).
Proof.
  intros (E1 & E2 & E3 & E4 & E5 & E6) Hs. unfold fill_rtcdate.
  repeat match goal with
  | |- context [let '(_, _) := cmos_read ?k ?d in _] =>
      let F := fresh in pose proof (still_read k d) as F; destruct (cmos_read k d); cbn [fst snd] in F; destruct F as (-> & ?); [done|]
  end.
  cbn [fst snd]. rewrite E1, E2, E3, E4, E5, E6. by destruct t.
Qed.

(** The date of a clock that is not being updated is read in one turn, and it is
    the date the clock shows, in either of its two formats. *)
Lemma cmostime_correct t fuel d : still d -> Z.land (reg CMOS_STATA) CMOS_UIP = 0 ->
  (0 < fuel)%nat ->
  (if Z.land (reg CMOS_STATB) (Z.shiftl 1 2) =? 0 then
     Forall (fun z => 0 <= z < 100) [second t; minute t; hour t; day t; month t; year t] /\
     shows reg (mkDate (bcd (second t)) (bcd (minute t)) (bcd (hour t)) (bcd (day t)) (bcd (month t)) (bcd (year t)))
   else shows reg t) ->
  exists d', cmostime fuel d = Some (mkDate (second t) (minute t) (hour t) (day t) (month t) (year t + 2000), d').
Proof.
  intros Hs Hu Hf Hreg. unfold cmostime. destruct (still_read CMOS_STATB d Hs) as (Eb & Hs1).
  destruct (cmos_read CMOS_STATB d) as (sb & d1). cbn [fst snd] in Eb, Hs1. subst sb. destruct fuel as [|fuel]; [lia|].
  assert (Hread : forall t1, shows reg t1 -> exists d', read_twice (S fuel) d1 = Some (t1, d')).
  { intros t1 Ht1. cbn [read_twice]. destruct (fill_still t1 d1 Ht1 Hs1) as (E1 & Hs2).
    destruct (fill_rtcdate d1) as (x1 & d2). cbn [fst snd] in E1, Hs2. subst x1.
    destruct (still_read CMOS_STATA d2 Hs2) as (Ea & Hs3). destruct (cmos_read CMOS_STATA d2) as (st & d3). cbn [fst snd] in Ea, Hs3.
    subst st. rewrite Hu. cbn [negb Z.eqb]. destruct (fill_still t1 d3 Ht1 Hs3) as (E2 & _).
    destruct (fill_rtcdate d3) as (x2 & d4). cbn [fst] in E2. subst x2. rewrite bool_decide_eq_true_2 by done. by eexists. }
  destruct (Z.land (reg CMOS_STATB) (Z.shiftl 1 2) =? 0).
  - destruct Hreg as (Hr & Hsh). destruct (Hread _ Hsh) as (d' & ->). exists d'. unfold conv_date.
    cbn [second minute hour day month year]. rewrite !Forall_cons in Hr. destruct Hr as (H1 & H2 & H3 & H4 & H5 & H6 & _).
    by rewrite !CONV_bcd by lia.
  - destruct (Hread _ Hreg) as (d' & ->). by eexists.
Qed.
End clock.

(** ** A table of registers in place of the I/O APIC *)

Module ApicDemo.

#[export] Instance table_ioapic : IoApic ioregs := {|
  io_set_reg k r := mkRegs k (rg r);
  io_get_data r := (rg r (rg_sel r), r);
  io_set_data v r := regs_write v r
|}.

#[export] Instance table_laws : @IoApicLaws ioregs _.
Proof. by refine {| regs r := r |}. Defined.

(** A local APIC that delivers at once, and a machine without other ports. *)
#[export] Instance view_ports : Ports laview := {| inb _ w := (255, w); outb _ _ w := w |}.
#[export] Instance view_lapic : LocalApic laview := {|
  lapic_get k w := (if k =? ICRLO then 0 else lv_reg w k, w);
  lapic_put k v w := view_write k v w
|}.
#[export] Instance view_laws : @LocalApicLaws laview _ _ 1.
Proof. by refine {| lview w := w |}. Defined.

(** 24 lines, as in the 82093AA. *)
Definition io24 : iost := mkIo true 0 false (mkRegs 0 (fun k => if k =? REG_VER then Z.shiftl 23 16 else 0)).

Lemma ioapic_routes_witness :
  entry 1 (io_dev (fold_left (fun s ic => ioapicenable (fst ic) (snd ic) s) [(1, 0); (14, 1)] (ioapicinit io24))) = (33, 0).
Proof.
  pose proof (ioapic_routes io24 [(1, 0); (14, 1)] 1) as T. cbv zeta in T. change (ismp io24) with true in T. cbv iota in T.
  rewrite T; [reflexivity|]. change (maxintr (io_dev io24)) with 23. lia.
Defined.
End ApicDemo.
