(* ===== verification/Uart.v ===== *)
(** * uart.c: the serial port

    The routines of uart.c on the machine behind the ports.  The port itself is
    a hypothesis about that machine that follows the data sheet of the 8250: a
    view with the line settings, the bytes sent, and the bytes that have
    arrived.  The theorem says that uartinit leaves the line at 9600 baud with
    receive interrupts that reach the processor; the lemmas behind it that
    uartputc sends what the console model of Console.v records, and that
    uartintr takes the bytes that have arrived, in order. *)

From S2P Require Import Prelude Irq Apic.

Open Scope Z_scope.

Definition COM1 : Z := 0x3f8.

Section uart.
Context {D : Type} `{Ports D} {E : Type} `{IoApic E}.

(** The static variable uart, and the two interrupt controllers with the
    machine behind them. *)
Record uartst : Type := mkUart { uart : bool; ua_pic : picst (D := D); ua_io : iost (D := E) }.

Definition ua_dev (s : uartst) : D := pic_dev (ua_pic s).
Definition set_dev (d : D) (s : uartst) : uartst := mkUart (uart s) (mkPic (irqmask (ua_pic s)) d) (ua_io s).

(** [for(i = 0; i < 128 && !(inb(COM1+5) & 0x20); i++)] *)
Fixpoint tx_wait (i : nat) (d : D) : D :=
  match i with
  | O => d
  | S i =>
      let '(r, d) := inb (COM1 + 5) d in
      if negb (Z.land r 32 =? 0) then d else tx_wait i d
  end.

Definition uartputc (c : Z) (s : uartst) : uartst :=
  if negb (uart s) then s
  else set_dev (outb (COM1 + 0) (u8 c) (tx_wait 128 (ua_dev s))) s.

Definition uart_setup : list (Z * Z) :=
  [(COM1 + 2, 0); (COM1 + 3, 128); (COM1 + 0, 115200 / 9600); (COM1 + 1, 0); (COM1 + 3, 3); (COM1 + 4, 0); (COM1 + 1, 1)].

(** The text is xv6... and a newline. *)
Definition uart_hello : list Z := [120; 118; 54; 46; 46; 46; 10].

Definition uartinit (s : uartst) : uartst :=
  let '(r, d) := inb (COM1 + 5) (outs uart_setup (ua_dev s)) in
  if r =? 255 then set_dev d s
  else
    let d := snd (inb (COM1 + 2) d) in
    let d := snd (inb (COM1 + 0) d) in
    let s := mkUart true (picenable IRQ_COM1 (mkPic (irqmask (ua_pic s)) d)) (ioapicenable IRQ_COM1 0 (ua_io s)) in
    fold_left (fun s c => uartputc c s) uart_hello s.

Definition uartgetc (s : uartst) : Z * uartst :=
  if negb (uart s) then (-1, s)
  else
    let '(r, d) := inb (COM1 + 5) (ua_dev s) in
    if Z.land r 1 =? 0 then (-1, set_dev d s)
    else let '(c, d) := inb (COM1 + 0) d in (c, set_dev d s).

(** The characters consoleintr() takes with uartgetc: up to the first
    negative value. *)
Fixpoint uart_chars (s : uartst) (fuel : nat) : option (list Z * uartst) :=
  match fuel with
  | O => None
  | S fuel =>
      let '(c, s) := uartgetc s in
      if 0 <=? c then
        match uart_chars s fuel with Some (cs, s) => Some (c :: cs, s) | None => None end
      else Some ([], s)
  end.

(** ** The 8250 *)

Record serial : Type := mkSer {
  se_lcr : Z; se_dll : Z; se_dlm : Z; se_ier : Z; se_fcr : Z; se_mcr : Z;
  se_tx : list Z;         (* the bytes sent *)
  se_rx : list Z          (* the bytes that have arrived and are not read *)
}.

(** Bit 7 of the line control register gives the first two ports to the divisor. *)
Definition dlab (c : serial) : bool := Z.testbit (se_lcr c) 7.

Definition ser_write (p v : Z) (c : serial) : serial :=
  let '(mkSer l lo hi i f m t r) := c in
  if p =? COM1 + 0 then if dlab c then mkSer l v hi i f m t r else mkSer l lo hi i f m (t ++ [v]) r
  else if p =? COM1 + 1 then if dlab c then mkSer l lo v i f m t r else mkSer l lo hi v f m t r
  else if p =? COM1 + 2 then mkSer l lo hi i v m t r
  else if p =? COM1 + 3 then mkSer v lo hi i f m t r
  else if p =? COM1 + 4 then mkSer l lo hi i f v t r
  else c.

Definition ser_read (p : Z) (c : serial) : serial :=
  if (p =? COM1 + 0) && negb (dlab c) then
    mkSer (se_lcr c) (se_dll c) (se_dlm c) (se_ier c) (se_fcr c) (se_mcr c) (se_tx c) (tail (se_rx c))
  else c.

Context `{!Has8259}.

Class Has8250 := {
  ser : D -> serial;
  ser_out p v d : ser (outb p v d) = ser_write p v (ser d);
  ser_in p d : ser (snd (inb p d)) = ser_read p (ser d);
  ser_data d b l : dlab (ser d) = false -> se_rx (ser d) = b :: l -> fst (inb (COM1 + 0) d) = b;
  ser_status d : fst (inb (COM1 + 5) d) <> 255 /\
    (Z.land (fst (inb (COM1 + 5) d)) 1 = 0 <-> se_rx (ser d) = []);
  ser_apart p d slave : COM1 <= p < COM1 + 8 -> chip slave (snd (inb p d)) = chip slave d
}.

Context `{!Has8250}.

Definition ua_ser (s : uartst) : serial := ser (ua_dev s).

Lemma tx_wait_quiet i d : ser (tx_wait i d) = ser d /\ forall slave, chip slave (tx_wait i d) = chip slave d.
Proof.
  revert d. induction i as [|i IH]; intros d; [done|]. cbn [tx_wait].
  destruct (inb (COM1 + 5) d) as [r d'] eqn:Ei.
  assert (Hd : d' = snd (inb (COM1 + 5) d)) by (by rewrite Ei).
  assert (Hs : ser d' = ser d) by (by rewrite Hd, ser_in).
  assert (Hc : forall slave, chip slave d' = chip slave d) by (intros slave; rewrite Hd; apply ser_apart; unfold COM1; lia).
  destruct (negb _); [done|]. destruct (IH d') as [-> Hc']. split; [done|]. intros slave. by rewrite Hc', Hc.
Qed.

(** A character goes out as the console model says: one byte behind the others. *)
Lemma uartputc_sends c s : uart s = true -> dlab (ua_ser s) = false ->
  let s' := uartputc c s in
  se_tx (ua_ser s') = se_tx (ua_ser s) ++ [u8 c] /\ se_rx (ua_ser s') = se_rx (ua_ser s) /\
  (se_lcr (ua_ser s'), se_dll (ua_ser s'), se_dlm (ua_ser s'), se_ier (ua_ser s')) =
  (se_lcr (ua_ser s), se_dll (ua_ser s), se_dlm (ua_ser s), se_ier (ua_ser s)) /\
  uart s' = true /\ irqmask (ua_pic s') = irqmask (ua_pic s) /\ ua_io s' = ua_io s /\
  forall slave, chip slave (ua_dev s') = chip slave (ua_dev s).
Proof.
  intros Hu Hd. cbv zeta. unfold uartputc. rewrite Hu. cbn [negb]. unfold ua_ser, ua_dev, set_dev. cbn [ua_pic pic_dev uart irqmask ua_io].
  destruct (tx_wait_quiet 128 (pic_dev (ua_pic s))) as [Es Ec]. rewrite ser_out, Es.
  unfold ua_ser, ua_dev in Hd. destruct (ser (pic_dev (ua_pic s))) as [l lo hi i f m t r]. cbn [ser_write].
  change (COM1 + 0 =? COM1 + 0) with true. cbv iota. rewrite Hd. cbn. split_and!; try done.
  intros slave. rewrite chip_out, Ec. unfold chip_write, chip_port. by destruct slave.
Qed.

Lemma uartputs_send cs : forall s, uart s = true -> dlab (ua_ser s) = false ->
  let s' := fold_left (fun s c => uartputc c s) cs s in
  se_tx (ua_ser s') = se_tx (ua_ser s) ++ map u8 cs /\
  (se_lcr (ua_ser s'), se_dll (ua_ser s'), se_dlm (ua_ser s'), se_ier (ua_ser s')) =
  (se_lcr (ua_ser s), se_dll (ua_ser s), se_dlm (ua_ser s), se_ier (ua_ser s)) /\
  uart s' = true /\ irqmask (ua_pic s') = irqmask (ua_pic s) /\ ua_io s' = ua_io s /\
  forall slave, chip slave (ua_dev s') = chip slave (ua_dev s).
Proof.
  induction cs as [|c cs IH]; intros s Hu Hd; cbv zeta; cbn [fold_left map]; [by rewrite app_nil_r|].
  destruct (uartputc_sends c s Hu Hd) as (Ht & _ & Hl & Hu' & Hm & Hi & Hc). cbv zeta in *.
  destruct (IH (uartputc c s)) as (Ht' & Hl' & Hu2 & Hm' & Hi' & Hc'); [done|by unfold dlab in *; injection Hl as -> _ _ _|].
  rewrite Ht', Ht, <- app_assoc. split_and!; [done|by rewrite Hl', Hl|done|by rewrite Hm'|by rewrite Hi'|].
  intros slave. by rewrite Hc', Hc.
Qed.

Lemma ser_outs l : forall d, ser (outs l d) = fold_left (fun c pv => ser_write (fst pv) (snd pv) c) l (ser d).
Proof. induction l as [|(p & v) l IH]; intros d; [done|]. cbn [outs fold_left]. by rewrite IH, ser_out. Qed.

Lemma setup_chips d slave : chip slave (outs uart_setup d) = chip slave d.
Proof. rewrite chip_outs. by destruct slave. Qed.

Lemma ready_same (s s' : picst) : pic_ready s -> irqmask s' = irqmask s ->
  (forall slave, chip slave (pic_dev s') = chip slave (pic_dev s)) -> pic_ready s'.
Proof. intros [Hr1 Hr2 Hr3] Hm Hc. constructor; rewrite ?Hm, ?Hc; done. Qed.

(** The settings uartinit makes: the divisor 12 of 115200 gives 9600 baud,
    eight data bits, no parity, one stop bit, interrupts on receive. *)
Definition line_set (c : serial) : Prop :=
  se_lcr c = 3 /\ se_dll c + 256 * se_dlm c = 115200 / 9600 /\ se_ier c = 1.

(** uartinit finds the port: the line is at 9600 baud, 8 data bits and no
    parity, with an interrupt for every byte received; the greeting is sent
    behind what was sent before; line IRQ_COM1 is delivered as its vector and
    not masked, and no other line of the controllers has changed. *)
Theorem uartinit_ready s :
  pic_ready (ua_pic s) ->
  let s' := uartinit s in
  uart s' = true /\ line_set (ua_ser s') /\
  se_tx (ua_ser s') = se_tx (ua_ser s) ++ uart_hello /\
  pic_vector IRQ_COM1 (ua_dev s') = T_IRQ0 + IRQ_COM1 /\
  (forall i, 0 <= i < 16 -> pic_masked i (ua_dev s') = pic_masked i (ua_dev s) && negb (i =? IRQ_COM1)) /\
  ua_io s' = ioapicenable IRQ_COM1 0 (ua_io s).
Proof.
  intros Hp. cbv zeta. unfold uartinit. pose proof (ser_status (outs uart_setup (ua_dev s))) as [Hst _].
  destruct (inb (COM1 + 5) (outs uart_setup (ua_dev s))) as [r d1] eqn:E1. cbn [fst] in Hst.
  rewrite (proj2 (Z.eqb_neq r 255)) by done. set (d3 := snd (inb (COM1 + 0) (snd (inb (COM1 + 2) d1)))).
  assert (Ed1 : d1 = snd (inb (COM1 + 5) (outs uart_setup (ua_dev s)))) by (by rewrite E1).
  assert (Hc3 : forall slave, chip slave d3 = chip slave (ua_dev s)).
  { intros slave. unfold d3. rewrite !ser_apart by (unfold COM1; lia). rewrite Ed1, ser_apart by (unfold COM1; lia). apply setup_chips. }
  assert (Hs3 : exists rx, ser d3 = mkSer 3 (115200 / 9600) 0 1 0 0 (se_tx (ua_ser s)) rx).
  { unfold d3. rewrite !ser_in, Ed1, ser_in, ser_outs. unfold ua_ser. destruct (ser (ua_dev s)) as [l lo hi i f m t rx].
    eexists. reflexivity. }
  destruct Hs3 as [rx Hs3].
  set (s2 := mkUart true (picenable IRQ_COM1 (mkPic (irqmask (ua_pic s)) d3)) (ioapicenable IRQ_COM1 0 (ua_io s))).
  assert (Hp3 : pic_ready (mkPic (irqmask (ua_pic s)) d3)) by (eapply ready_same; [exact Hp|done|exact Hc3]).
  assert (Hs2 : ua_ser s2 = ser d3).
  { unfold ua_ser, ua_dev, s2. cbn [ua_pic picenable picsetmask pic_dev outs]. rewrite !ser_out.
    destruct (ser d3). reflexivity. }
  pose proof (picenable_ready IRQ_COM1 _ Hp3) as Hp2. fold (ua_pic s2) in Hp2.
  assert (Hsend : dlab (ua_ser s2) = false) by (by rewrite Hs2, Hs3).
  apply (uartputs_send uart_hello s2 eq_refl) in Hsend. cbv zeta in Hsend. revert Hsend.
  generalize (fold_left (fun s c => uartputc c s) uart_hello s2). intros s' (Ht & Hl & Hu & Hm & Hi & Hc).
  rewrite Hs2, Hs3 in Ht, Hl. injection Hl as L1 L2 L3 L4.
  assert (Hp' : pic_ready (ua_pic s')) by (eapply (ready_same (ua_pic s2)); [exact Hp2|exact Hm|exact Hc]).
  split_and!; [done|unfold line_set; rewrite L1, L2, L3, L4; done| | | |by rewrite Hi].
  - rewrite Ht. reflexivity.
  - by apply (ready_line (ua_pic s') IRQ_COM1).
  - intros i Hir. unfold ua_dev. rewrite (proj2 (ready_line (ua_pic s') i Hp' Hir)), (proj2 (ready_line (ua_pic s) i Hp Hir)), Hm.
    unfold s2. cbn [ua_pic]. by rewrite picenable_bit.
Qed.

(** uartintr takes every byte that has arrived, in order. *)
Lemma uart_chars_all rx : forall s fuel,
  uart s = true -> dlab (ua_ser s) = false -> se_rx (ua_ser s) = rx -> Forall (fun b => 0 <= b) rx -> (length rx < fuel)%nat ->
  exists s', uart_chars s fuel = Some (rx, s') /\ se_rx (ua_ser s') = [] /\ se_tx (ua_ser s') = se_tx (ua_ser s).
Proof.
  induction rx as [|b rx IH]; intros s fuel Hu Hd Hr Hb Hf; (destruct fuel as [|fuel]; [cbn in Hf; lia|]); cbn [uart_chars].
  all: unfold uartgetc; rewrite Hu; cbn [negb].
  all: pose proof (ser_status (ua_dev s)) as [_ Hst]; destruct (inb (COM1 + 5) (ua_dev s)) as [r d1] eqn:E1; cbn [fst] in Hst.
  all: assert (Es : ser d1 = ua_ser s) by (replace d1 with (snd (inb (COM1 + 5) (ua_dev s))) by (by rewrite E1); by rewrite ser_in).
  - rewrite (proj2 Hst Hr). cbn [Z.eqb Z.leb Z.compare]. eexists. split; [done|]. unfold ua_ser, ua_dev, set_dev. cbn [ua_pic pic_dev].
    by rewrite Es.
  - destruct (Z.eqb_spec (Z.land r 1) 0) as [Hz|_]; [apply Hst in Hz; unfold ua_ser in Hr; congruence|].
    destruct (inb (COM1 + 0) d1) as [c d2] eqn:E2. apply Forall_cons in Hb as [Hb0 Hb].
    assert (Ec : c = b). { replace c with (fst (inb (COM1 + 0) d1)) by (by rewrite E2). apply (ser_data d1 b rx); by rewrite Es. }
    subst c. rewrite (proj2 (Z.leb_le 0 b)) by lia.
    assert (Es2 : ser d2 = ser_read (COM1 + 0) (ua_ser s)).
    { replace d2 with (snd (inb (COM1 + 0) d1)) by (by rewrite E2). by rewrite ser_in, Es. }
    unfold ser_read in Es2. rewrite Hd in Es2. cbn [andb negb Z.eqb] in Es2. change (COM1 + 0 =? COM1 + 0) with true in Es2. cbv iota in Es2. cbn [andb] in Es2.
    destruct (IH (set_dev d2 s) fuel) as (s' & -> & Hr' & Ht'); try done.
    + unfold ua_ser, ua_dev, set_dev. cbn [ua_pic pic_dev]. by rewrite Es2.
    + unfold ua_ser, ua_dev, set_dev. cbn [ua_pic pic_dev]. rewrite Es2. cbn. by rewrite Hr.
    + cbn in Hf. lia.
    + exists s'. split_and!; [done|done|]. rewrite Ht'. unfold ua_ser, ua_dev, set_dev. cbn [ua_pic pic_dev]. by rewrite Es2.
Qed.
End uart.

Module UartDemo.
(** A machine with the two controllers and a serial port on which two bytes
    have arrived; the machine has no I/O APIC. *)
Definition machine : Type := (bool -> pic) * serial.
Definition status (c : serial) : Z := match se_rx c with [] => 32 | _ => 33 end.

#[export] Instance machine_ports : Ports machine := {|
  inb p d := (if p =? COM1 + 5 then status (snd d) else hd 0 (se_rx (snd d)), (fst d, ser_read p (snd d)));
  outb p v d := (fun slave => chip_write (chip_port slave) p v (fst d slave), ser_write p v (snd d))
|}.
#[export] Instance machine_pics : Has8259 (D := machine).
Proof. refine {| chip slave d := fst d slave |}. done. Defined.
#[export] Instance machine_ser : Has8250 (D := machine).
Proof.
  refine {| ser := snd |}; try done.
  - intros d b l _ Hr. cbn. by rewrite Hr.
  - intros d. cbn. unfold status. by destruct (se_rx (snd d)).
Defined.

#[export] Instance no_ioapic : IoApic unit := {| io_set_reg _ d := d; io_get_data d := (0, d); io_set_data _ d := d |}.

Definition start : uartst (D := machine) (E := unit) :=
  mkUart false (picinit (mkPic irqmask0 (fun _ => mkChip 0 0 0 0, mkSer 0 0 0 0 0 0 [] [104; 105])))
    (mkIo false 0 false tt).

Lemma uartinit_ready_witness :
  let s' := uartinit start in
  uart s' = true /\ line_set (ua_ser s') /\ se_tx (ua_ser s') = se_tx (ua_ser start) ++ uart_hello /\
  pic_vector IRQ_COM1 (ua_dev s') = T_IRQ0 + IRQ_COM1 /\
  (forall i, 0 <= i < 16 -> pic_masked i (ua_dev s') = pic_masked i (ua_dev start) && negb (i =? IRQ_COM1)) /\
  ua_io s' = ioapicenable IRQ_COM1 0 (ua_io start).
Proof. apply (uartinit_ready start). by apply picinit_ready. Defined.
End UartDemo.
