(* ===== verification/Mp.v ===== *)
(** * mp.c: the multiprocessor tables of the firmware

    The tables are bytes of memory, with the layout of mp.h.  mpinit walks over
    the entries of the configuration table; an entry of an unknown type stops
    it in place, so the walk has an outcome for a run that has not ended, and
    one for a processor behind the end of cpus. *)

From S2P Require Import Prelude Irq Memory Mmu.

Open Scope Z_scope.

Definition NCPU : Z := 8.

(** struct mp and struct mpconf: sizes and offsets. *)
Definition MP_SIZE : Z := 16.
Definition MP_PHYSADDR : Z := 4.
Definition MP_IMCRP : Z := 12.
Definition CONF_SIZE : Z := 44.
Definition CONF_LENGTH : Z := 4.
Definition CONF_VERSION : Z := 6.
Definition CONF_LAPICADDR : Z := 36.

Definition MPPROC : Z := 0.
Definition MPBUS : Z := 1.
Definition MPIOAPIC : Z := 2.
Definition MPIOINTR : Z := 3.
Definition MPLINTR : Z := 4.
Definition MPBOOT : Z := 2.
Definition PROC_SIZE : Z := 20.
Definition IOAPIC_SIZE : Z := 8.

Definition load16 (m : mem) (a : Z) : Z := load8 m a + 256 * load8 m (a + 1).

Fixpoint sum_loop (m : mem) (addr : Z) (n : nat) (acc : Z) : Z :=
  match n with
  | O => acc
  | S n => sum_loop m (addr + 1) n (acc + load8 m addr)
  end.
(** The sum is returned as a uchar. *)
Definition sum (m : mem) (addr len : Z) : Z := u8 (sum_loop m addr (Z.to_nat len) 0).

(** [memcmp(p, "....", 4) == 0] *)
Definition sig_at (m : mem) (p : Z) (sig : list Z) : bool := bool_decide (load_bytes m p 4 = sig).
Definition SIG_MP : list Z := [95; 77; 80; 95].
Definition SIG_PCMP : list Z := [80; 67; 77; 80].

Fixpoint mpsearch_loop (m : mem) (p e : Z) (turns : nat) : option Z :=
  match turns with
  | O => None
  | S turns =>
      if p <? e then
        if sig_at m p SIG_MP && (sum m p MP_SIZE =? 0) then Some p else mpsearch_loop m (p + MP_SIZE) e turns
      else None
  end.
Definition mpsearch1 (m : mem) (a len : Z) : option Z :=
  let addr := p2v a in mpsearch_loop m addr (addr + len) (S (Z.to_nat (len / MP_SIZE))).

Definition mpsearch (m : mem) : option Z :=
  let bda := p2v 1024 in
  let p := Z.shiftl (Z.lor (Z.shiftl (load8 m (bda + 15)) 8) (load8 m (bda + 14))) 4 in
  let first :=
    if negb (p =? 0) then mpsearch1 m p 1024
    else
      let p := Z.lor (Z.shiftl (load8 m (bda + 20)) 8) (load8 m (bda + 19)) * 1024 in
      mpsearch1 m (u32 (p - 1024)) 1024 in
  match first with
  | Some mp => Some mp
  | None => mpsearch1 m 983040 65536        (* 0xF0000, 0x10000 *)
  end.

(** The configuration table and the floating pointer. *)
Definition mpconfig (m : mem) : option (Z * Z) :=
  match mpsearch m with
  | None => None
  | Some mp =>
      if load32 m (mp + MP_PHYSADDR) =? 0 then None
      else
        let conf := p2v (load32 m (mp + MP_PHYSADDR)) in
        if negb (sig_at m conf SIG_PCMP) then None
        else
          let version := load8 m (conf + CONF_VERSION) in
          if negb (version =? 1) && negb (version =? 4) then None
          else if negb (sum m conf (load16 m (conf + CONF_LENGTH)) =? 0) then None
          else Some (conf, mp)
  end.

Inductive mpmsg : Type :=
| BadApicId (ncpu apicid : Z)
| UnknownType (t : Z).

Section mpinit.
Context {D : Type} `{Ports D}.

(** The variables mpinit sets; [cpu_ids] is the field id of cpus[NCPU], and
    [mp_out] what cprintf was given. *)
Record mpst : Type := mkMp {
  bcpu : Z; ismp : bool; ncpu : Z; ioapicid : Z; lapic : Z; cpu_ids : list Z; mp_out : list mpmsg; mp_dev : D
}.

Inductive walk : Type :=
| Walked (s : mpst)       (* p has reached e *)
| Overrun (s : mpst)      (* a write behind cpus[NCPU - 1] *)
| Walking (s : mpst).     (* still in the loop *)

(** The case MPPROC without the step of p. *)
Definition add_cpu (apicid flags : Z) (s : mpst) : mpst :=
  let bad := negb (ncpu s =? apicid) in
  mkMp (if negb (Z.land flags MPBOOT =? 0) then ncpu s else bcpu s)
       (if bad then false else ismp s) (ncpu s + 1) (ioapicid s) (lapic s)
       (<[Z.to_nat (ncpu s) := u8 (ncpu s)]> (cpu_ids s))
       (if bad then mp_out s ++ [BadApicId (ncpu s) apicid] else mp_out s) (mp_dev s).
Definition set_ioapicid (v : Z) (s : mpst) : mpst :=
  mkMp (bcpu s) (ismp s) (ncpu s) v (lapic s) (cpu_ids s) (mp_out s) (mp_dev s).
Definition unknown_entry (t : Z) (s : mpst) : mpst :=
  mkMp (bcpu s) false (ncpu s) (ioapicid s) (lapic s) (cpu_ids s) (mp_out s ++ [UnknownType t]) (mp_dev s).

Fixpoint mpinit_loop (m : mem) (p e : Z) (s : mpst) (fuel : nat) : walk :=
  match fuel with
  | O => Walking s
  | S fuel =>
      if p <? e then
        let t := load8 m p in
        if t =? MPPROC then
          if ncpu s <? NCPU then mpinit_loop m (p + PROC_SIZE) e (add_cpu (load8 m (p + 1)) (load8 m (p + 3)) s) fuel
          else Overrun s
        else if t =? MPIOAPIC then mpinit_loop m (p + IOAPIC_SIZE) e (set_ioapicid (load8 m (p + 1)) s) fuel
        else if (t =? MPBUS) || (t =? MPIOINTR) || (t =? MPLINTR) then mpinit_loop m (p + 8) e s fuel
        else mpinit_loop m p e (unknown_entry t s) fuel
      else Walked s
  end.

Definition fall_back (s : mpst) : mpst :=
  mkMp (bcpu s) (ismp s) 1 0 0 (cpu_ids s) (mp_out s) (mp_dev s).

Definition set_imcr (s : mpst) : mpst :=
  let d := outb 34 112 (mp_dev s) in
  let '(v, d) := inb 35 d in
  mkMp (bcpu s) (ismp s) (ncpu s) (ioapicid s) (lapic s) (cpu_ids s) (mp_out s) (outb 35 (Z.lor v 1) d).

(** [fuel] bounds the turns of the walk. *)
Definition mpinit (m : mem) (fuel : nat) (s : mpst) : walk :=
  let s := mkMp 0 (ismp s) (ncpu s) (ioapicid s) (lapic s) (cpu_ids s) (mp_out s) (mp_dev s) in
  match mpconfig m with
  | None => Walked s
  | Some (conf, mp) =>
      let s := mkMp (bcpu s) true (ncpu s) (ioapicid s) (load32 m (conf + CONF_LAPICADDR)) (cpu_ids s) (mp_out s) (mp_dev s) in
      match mpinit_loop m (conf + CONF_SIZE) (conf + load16 m (conf + CONF_LENGTH)) s fuel with
      | Walked s =>
          if negb (ismp s) then Walked (fall_back s)
          else if negb (load8 m (mp + MP_IMCRP) =? 0) then Walked (set_imcr s)
          else Walked s
      | r => r
      end
  end.

Definition mpbcpu (s : mpst) : Z := bcpu s.
End mpinit.
Arguments mpst D : clear implicits.
Arguments walk D : clear implicits.

(** ** The search *)

Definition is_mp (m : mem) (p : Z) : bool := sig_at m p SIG_MP && (sum m p MP_SIZE =? 0).

Lemma mpsearch_loop_spec m e turns : forall p, e <= p + MP_SIZE * Z.of_nat turns ->
  match mpsearch_loop m p e turns with
  | Some q => exists k, 0 <= k /\ q = p + MP_SIZE * k /\ q < e /\ is_mp m q = true /\
      forall j, 0 <= j < k -> is_mp m (p + MP_SIZE * j) = false
  | None => forall j, 0 <= j -> p + MP_SIZE * j < e -> is_mp m (p + MP_SIZE * j) = false
  end.
Proof.
  unfold MP_SIZE at 1. induction turns as [|turns IH]; intros p He; cbn [mpsearch_loop].
  - intros j Hj Hlt. unfold MP_SIZE in *. lia.
  - destruct (Z.ltb_spec p e) as [Hlt|Hge]; [|intros j Hj Hlt; unfold MP_SIZE in *; lia]. fold (is_mp m p).
    assert (H0 : p + MP_SIZE * 0 = p) by lia. destruct (is_mp m p) eqn:Ep.
    + exists 0. rewrite H0. split_and!; try done. intros j Hj. lia.
    + specialize (IH (p + MP_SIZE)). destruct (mpsearch_loop m (p + MP_SIZE) e turns) as [q|].
      * destruct IH as (k & Hk & -> & Hq & Hm & Hb); [unfold MP_SIZE; lia|]. exists (k + 1).
        replace (p + MP_SIZE * (k + 1)) with (p + MP_SIZE + MP_SIZE * k) by lia. split_and!; try done; [lia|].
        intros j Hj. destruct (Z.eq_dec j 0) as [->|]; [by rewrite H0|].
        replace (p + MP_SIZE * j) with (p + MP_SIZE + MP_SIZE * (j - 1)) by lia. apply Hb. lia.
      * intros j Hj Hlt'. destruct (Z.eq_dec j 0) as [->|]; [by rewrite H0|].
        replace (p + MP_SIZE * j) with (p + MP_SIZE + MP_SIZE * (j - 1)) by lia. apply IH; unfold MP_SIZE in *; lia.
Qed.

(** mpsearch1 returns the first multiple of 16 bytes in its range with the
    signature and a sum of zero, and nothing when there is none. *)
Lemma mpsearch1_spec m a len : 0 <= len ->
  match mpsearch1 m a len with
  | Some q => exists k, 0 <= k /\ q = p2v a + MP_SIZE * k /\ q < p2v a + len /\ is_mp m q = true /\
      forall j, 0 <= j < k -> is_mp m (p2v a + MP_SIZE * j) = false
  | None => forall j, 0 <= j -> p2v a + MP_SIZE * j < p2v a + len -> is_mp m (p2v a + MP_SIZE * j) = false
  end.
Proof. intros Hl. apply mpsearch_loop_spec. unfold MP_SIZE. zlia. Qed.

(** ** The entries of the configuration table *)

Inductive mpentry : Type :=
| EProc (apicid version flags : Z) (rest : list Z)
| EIoapic (apicno : Z) (rest : list Z)
| EOther (type : Z) (rest : list Z).

Definition entry_ok (e : mpentry) : Prop :=
  match e with
  | EProc a v f r => length r = 16%nat
  | EIoapic a r => length r = 6%nat
  | EOther t r => (t = MPBUS \/ t = MPIOINTR \/ t = MPLINTR) /\ length r = 7%nat
  end.

Definition entry_bytes (e : mpentry) : list Z :=
  match e with
  | EProc a v f r => [MPPROC; a; v; f] ++ r
  | EIoapic a r => [MPIOAPIC; a] ++ r
  | EOther t r => t :: r
  end.

Definition procs (es : list mpentry) : list (Z * Z) :=
  omap (fun e => match e with EProc a _ f _ => Some (a, f) | _ => None end) es.

(** The id of the last I/O APIC, [d] without one. *)
Fixpoint last_ioapic (es : list mpentry) (d : Z) : Z :=
  match es with
  | [] => d
  | EIoapic a _ :: es => last_ioapic es a
  | _ :: es => last_ioapic es d
  end.

(** The last processor with the boot flag, counted from [n]; [d] without one. *)
Fixpoint boot_cpu (ps : list (Z * Z)) (n d : Z) : Z :=
  match ps with
  | [] => d
  | (_, f) :: ps => boot_cpu ps (n + 1) (if negb (Z.land f MPBOOT =? 0) then n else d)
  end.

Section walk.
Context {D : Type} `{Ports D}.

Definition scan_entry (s : mpst D) (e : mpentry) : mpst D :=
  match e with
  | EProc a _ f _ => add_cpu a f s
  | EIoapic a _ => set_ioapicid a s
  | EOther _ _ => s
  end.

Lemma load_at m p l k b : load_bytes m p (length l) = l -> l !! k = Some b -> load8 m (p + Z.of_nat k) = b.
Proof.
  revert p k. induction l as [|x l IH]; intros p k Hl Hk; [done|]. cbn [length load_bytes] in Hl. injection Hl as Hx Hl.
  destruct k as [|k]; [injection Hk as <-; by rewrite Z.add_0_r|].
  replace (p + Z.of_nat (S k)) with (p + 1 + Z.of_nat k) by lia. by apply IH.
Qed.

Lemma load_bytes_split m l1 : forall p l2, load_bytes m p (length (l1 ++ l2)) = l1 ++ l2 ->
  load_bytes m p (length l1) = l1 /\ load_bytes m (p + Z.of_nat (length l1)) (length l2) = l2.
Proof.
  induction l1 as [|x l1 IH]; intros p l2 Hl.
  - split; [done|]. by rewrite Z.add_0_r.
  - cbn [app length load_bytes] in Hl. injection Hl as Hx Hl. destruct (IH _ _ Hl) as (H1 & H2).
    cbn [length load_bytes]. split; [by rewrite Hx, H1|]. by replace (p + Z.of_nat (S (length l1))) with (p + 1 + Z.of_nat (length l1)) by lia.
Qed.

Lemma scan_ncpu es : forall s, ncpu (fold_left scan_entry es s) = ncpu s + Z.of_nat (length (procs es)).
Proof.
  induction es as [|e es IH]; intros s; cbn [fold_left]; [simpl; lia|]. rewrite IH.
  destruct e as [a v f r|a r|t r]; unfold procs; cbn [omap list_omap scan_entry]; cbn [ncpu add_cpu set_ioapicid length]; lia.
Qed.

(** The walk over a table of entries it knows. *)
Lemma mpinit_loop_scan m es : forall p s fuel,
  let bs := concat (map entry_bytes es) in
  load_bytes m p (length bs) = bs -> Forall entry_ok es -> (length es < fuel)%nat ->
  0 <= ncpu s -> ncpu s + Z.of_nat (length (procs es)) <= NCPU ->
  mpinit_loop m p (p + Z.of_nat (length bs)) s fuel = Walked (fold_left scan_entry es s).
Proof.
  induction es as [|e es IH]; intros p s fuel bs Hl Hok Hf H0 Hn; destruct fuel as [|fuel]; try (simpl in Hf; lia).
  - cbn [mpinit_loop bs map concat length]. by rewrite (proj2 (Z.ltb_ge _ _)) by lia.
  - apply Forall_cons in Hok as (He & Hok). unfold bs in *. cbn [map concat] in *.
    destruct (load_bytes_split _ _ _ _ Hl) as (Hl1 & Hl2). rewrite length_app.
    assert (Hsz : Z.of_nat (length (entry_bytes e)) = match e with EProc _ _ _ _ => 20 | _ => 8 end /\ (0 < length (entry_bytes e))%nat).
    { destruct e as [a v f r|a r|t r]; cbn [entry_ok entry_bytes app length] in *; lia. }
    destruct Hsz as (Hsz & Hpos). cbn [mpinit_loop]. rewrite (proj2 (Z.ltb_lt _ _)) by lia.
    pose proof (fun k b => load_at m p (entry_bytes e) k b Hl1) as Hb.
    replace (p + Z.of_nat (length (entry_bytes e) + length (concat (map entry_bytes es))))
      with (p + Z.of_nat (length (entry_bytes e)) + Z.of_nat (length (concat (map entry_bytes es)))) by lia.
    rewrite Hsz in *. cbn [fold_left]. unfold procs in Hn.
    destruct e as [a v f r|a r|t r]; cbn [entry_ok entry_bytes scan_entry omap list_omap length app] in *.
    + pose proof (Hb 0%nat _ eq_refl) as B0. rewrite Z.add_0_r in B0. rewrite B0. change (MPPROC =? MPPROC) with true. cbv iota.
      rewrite (proj2 (Z.ltb_lt _ _)) by lia. rewrite (Hb 1%nat _ eq_refl : load8 m (p + 1) = _), (Hb 3%nat _ eq_refl : load8 m (p + 3) = _).
      apply IH; try done; [lia|cbn; lia|cbn [ncpu add_cpu]; fold (procs es) in *; lia].
    + pose proof (Hb 0%nat _ eq_refl) as B0. rewrite Z.add_0_r in B0. rewrite B0. change (MPIOAPIC =? MPPROC) with false.
      change (MPIOAPIC =? MPIOAPIC) with true. cbv iota. rewrite (Hb 1%nat _ eq_refl : load8 m (p + 1) = _). apply IH; try done; lia.
    + pose proof (Hb 0%nat _ eq_refl) as B0. rewrite Z.add_0_r in B0. rewrite B0. destruct He as (Ht & _).
      assert ((t =? MPPROC) = false /\ (t =? MPIOAPIC) = false /\ ((t =? MPBUS) || (t =? MPIOINTR) || (t =? MPLINTR)) = true) as (-> & -> & ->).
      { destruct Ht as [-> | [-> | ->]]; done. }
      cbv iota. apply IH; try done; lia.
Qed.

(** What the entries say: the processor mpinit takes for the boot processor, the
    I/O APIC, and whether the ids of the processors count up from zero. *)
Lemma scan_spec es : forall s : mpst D, let s' := fold_left scan_entry es s in
  bcpu s' = boot_cpu (procs es) (ncpu s) (bcpu s) /\ ioapicid s' = last_ioapic es (ioapicid s) /\ lapic s' = lapic s /\
  mp_dev s' = mp_dev s /\ length (cpu_ids s') = length (cpu_ids s) /\
  (ismp s' = true <-> ismp s = true /\ forall i a f, procs es !! i = Some (a, f) -> a = ncpu s + Z.of_nat i).
Proof.
  induction es as [|e es IH]; intros s; cbn [fold_left].
  { split_and!; try done. split; [|tauto]. intros Hs. split; [done|]. intros i a f Hi. by destruct i. }
  destruct (IH (scan_entry s e)) as (E1 & E2 & E3 & E4 & E5 & E6). rewrite E1, E2, E3, E4, E5, E6. clear.
  destruct e as [a v f r|a r|t r]; [|done|done]. unfold procs. cbn [omap list_omap scan_entry]. fold (procs es).
  cbn [boot_cpu ncpu bcpu ioapicid lapic mp_dev cpu_ids ismp add_cpu last_ioapic]. rewrite length_insert. split_and!; try done.
  destruct (Z.eqb_spec (ncpu s) a) as [Ea|Hne]; cbn [negb].
  - split; intros (Hs & Hp); (split; [done|]).
    + intros [|i] a' f' Hi; [injection Hi as <- <-; lia|]. rewrite (Hp i a' f' Hi). lia.
    + intros i a' f' Hi. rewrite (Hp (S i) a' f' Hi). lia.
  - split; [by intros (? & _)|]. intros (_ & Hp). exfalso. specialize (Hp 0%nat a f eq_refl). lia.
Qed.

Lemma scan_ids es : forall (s : mpst D) i, 0 <= ncpu s -> (length (cpu_ids s) = 8)%nat -> ncpu s + Z.of_nat (length (procs es)) <= NCPU ->
  cpu_ids (fold_left scan_entry es s) !! i =
  if decide (ncpu s <= Z.of_nat i < ncpu s + Z.of_nat (length (procs es))) then Some (Z.of_nat i) else cpu_ids s !! i.
Proof.
  induction es as [|e es IH]; intros s i H0 Hl Hn; cbn [fold_left].
  { rewrite decide_False; [done|]. simpl. lia. }
  destruct e as [a v f r|a r|t r]; unfold procs in *; cbn [omap list_omap scan_entry length] in *; fold (procs es) in *.
  2,3: by rewrite IH.
  rewrite IH; cbn [ncpu add_cpu cpu_ids]; [|lia|by rewrite length_insert|lia]. unfold NCPU in Hn.
  destruct (decide (ncpu s + 1 <= Z.of_nat i < ncpu s + 1 + Z.of_nat (length (procs es)))) as [Hc|Hc].
  - by rewrite decide_True by lia.
  - destruct (decide (Z.of_nat i = ncpu s)) as [Ei|Hne].
    + rewrite decide_True by lia. replace (Z.to_nat (ncpu s)) with i by lia.
      rewrite list_lookup_insert_eq by lia. rewrite <- Ei, u8_small by lia. done.
    + rewrite decide_False by lia. by rewrite list_lookup_insert_ne by lia.
Qed.

(** An entry of an unknown type: the walk never leaves it. *)
Lemma mpinit_loop_stuck m p e fuel : forall s : mpst D, p < e -> load8 m p > MPLINTR ->
  exists s', mpinit_loop m p e s fuel = Walking s'.
Proof.
  induction fuel as [|fuel IH]; intros s Hp Ht; [by eexists|]. cbn [mpinit_loop]. unfold MPLINTR in Ht.
  rewrite (proj2 (Z.ltb_lt _ _)) by done. unfold MPPROC, MPIOAPIC, MPBUS, MPIOINTR, MPLINTR.
  rewrite !(proj2 (Z.eqb_neq (load8 m p) _)) by lia. cbn [orb]. apply IH; [done|]. unfold MPLINTR. lia.
Qed.

(** A ninth processor is written behind the end of cpus. *)
Lemma mpinit_loop_overrun m p e (s : mpst D) fuel :
  p < e -> load8 m p = MPPROC -> ncpu s = NCPU -> (0 < fuel)%nat -> mpinit_loop m p e s fuel = Overrun s.
Proof.
  intros Hp Ht Hn Hf. destruct fuel as [|fuel]; [lia|]. cbn [mpinit_loop]. rewrite (proj2 (Z.ltb_lt _ _)) by done.
  by rewrite Ht, Hn.
Qed.
End walk.

(** The configuration table at [conf] has the entries [es]. *)
Definition table_at (m : mem) (conf : Z) (es : list mpentry) : Prop :=
  let bs := concat (map entry_bytes es) in
  Forall entry_ok es /\ load_bytes m (conf + CONF_SIZE) (length bs) = bs /\
  load16 m (conf + CONF_LENGTH) = CONF_SIZE + Z.of_nat (length bs).

(** The variables before mpinit. *)
Definition mp0 {D : Type} (d : D) : mpst D := mkMp 0 false 0 0 0 (repeat 0 8) [] d.

Definition ids_count (ps : list (Z * Z)) : Prop := forall i a f, ps !! i = Some (a, f) -> a = Z.of_nat i.

(** C39: On a table of known entries with at most NCPU processors mpinit ends.
    If the ids of the processors count up from zero it has found all of them,
    numbered them in the order of the table, and knows the boot processor and
    both kinds of APIC; otherwise it falls back to one processor. *)
Theorem mpinit_correct {D : Type} `{Ports D} m fuel conf mp es (d : D) :
  mpconfig m = Some (conf, mp) -> table_at m conf es ->
  Z.of_nat (length (procs es)) <= NCPU -> (length es < fuel)%nat ->
  exists s, mpinit m fuel (mp0 d) = Walked s /\
    (ids_count (procs es) ->
      ismp s = true /\ ncpu s = Z.of_nat (length (procs es)) /\
      (forall i, (i < length (procs es))%nat -> cpu_ids s !! i = Some (Z.of_nat i)) /\
      mpbcpu s = boot_cpu (procs es) 0 0 /\ ioapicid s = last_ioapic es 0 /\ lapic s = load32 m (conf + CONF_LAPICADDR)) /\
    (~ ids_count (procs es) -> ismp s = false /\ ncpu s = 1 /\ lapic s = 0 /\ ioapicid s = 0).
Proof.
  intros Hc (Hok & Hl & Hlen) Hn Hf. unfold mpinit. rewrite Hc. cbn [bcpu ismp ncpu ioapicid lapic cpu_ids mp_out mp_dev mp0].
  set (s0 := mkMp 0 true 0 0 _ _ _ _). rewrite Hlen, Z.add_assoc.
  rewrite (mpinit_loop_scan m es _ s0 fuel Hl Hok Hf) by (cbn; lia). set (s1 := fold_left scan_entry es s0).
  destruct (scan_spec es s0) as (E1 & E2 & E3 & _ & _ & E6). fold s1 in E1, E2, E3, E6.
  pose proof (scan_ncpu es s0) as E7. fold s1 in E7. cbn [bcpu ncpu ioapicid lapic ismp s0] in E1, E2, E3, E6, E7.
  assert (Hids : forall i, (i < length (procs es))%nat -> cpu_ids s1 !! i = Some (Z.of_nat i)).
  { intros i Hi. unfold s1. rewrite scan_ids by (cbn; lia || done). by rewrite decide_True by (cbn; lia). }
  assert (Hiff : ismp s1 = true <-> ids_count (procs es)).
  { rewrite E6. unfold ids_count. split; [intros (_ & H1) i a f Hi; rewrite (H1 i a f Hi); lia|].
    intros H1. split; [done|]. intros i a f Hi. rewrite (H1 i a f Hi). lia. }
  destruct (ismp s1) eqn:Es; cbn [negb].
  - assert (Hic : ids_count (procs es)) by (by apply Hiff). unfold mpbcpu.
    destruct (negb (load8 m (mp + MP_IMCRP) =? 0)); eexists; (split; [done|]); (split; [intros _|done]).
    + unfold set_imcr. destruct (inb 35 _). cbn [ismp ncpu cpu_ids bcpu ioapicid lapic]. split_and!; try done; try lia.
    + split_and!; try done; lia.
  - eexists. split; [done|]. split; [|by cbn [ismp ncpu lapic ioapicid fall_back]].
    intros Hic. apply Hiff in Hic. congruence.
Qed.

(** ** A machine with two processors *)

Module MpDemo.

#[export] Instance no_ports : Ports unit := {| inb _ d := (255, d); outb _ _ d := d |}.

Definition demo_entries : list mpentry :=
  [EProc 0 20 3 (repeat 0 16); EProc 1 20 1 (repeat 0 16); EOther MPBUS (repeat 0 7); EIoapic 2 (repeat 0 6)].

(** The byte that makes the sum zero. *)
Definition checksum (l : list Z) : Z := u8 (- fold_right Z.add 0 l).
Definition with_checksum (l1 l2 : list Z) : list Z := l1 ++ checksum (l1 ++ l2) :: l2.

Definition mp_bytes : list Z := with_checksum (SIG_MP ++ le_bytes 4 36864 ++ [1; 4]) (repeat 0 5).
Definition conf_bytes : list Z :=
  with_checksum (SIG_PCMP ++ le_bytes 2 100 ++ [4])
    (repeat 0 20 ++ repeat 0 4 ++ [0; 0; 4; 0] ++ le_bytes 4 4276092928 ++ repeat 0 4 ++ concat (map entry_bytes demo_entries)).

Definition demo_mem : mem :=
  store_bytes (store_bytes (fun _ => 0) (p2v 1028096) mp_bytes) (p2v 36864) conf_bytes.

Lemma mpinit_correct_witness :
  exists s, mpinit demo_mem 10 (mp0 tt) = Walked s /\ ismp s = true /\ ncpu s = 2 /\ mpbcpu s = 0 /\ ioapicid s = 2.
Proof.
  destruct (mpinit_correct demo_mem 10 (p2v 36864) (p2v 1028096) demo_entries tt) as (s & E & Hgood & _).
  - vm_compute. reflexivity.
  - split; [|split; [vm_compute; reflexivity|vm_compute; reflexivity]].
    repeat (apply Forall_cons; split); [reflexivity|reflexivity|split; [left; reflexivity|reflexivity]|reflexivity|apply Forall_nil; exact I].
  - vm_compute. discriminate.
  - simpl. lia.
  - exists s. split; [exact E|]. destruct Hgood as (H1 & H2 & _ & H4 & H5 & _).
    + intros [|[|i]] a f Hi; [injection Hi as <- _; reflexivity|injection Hi as <- _; reflexivity|discriminate Hi].
    + split; [exact H1|]. split; [exact H2|]. split; [exact H4|exact H5].
Defined.
End MpDemo.
