(* ===== verification/Dma.v ===== *)
(** * dma.h and SetDMA of sysfs.c: programming the 8237 DMA controllers

    The routines write single bytes to ports; a pair of writes makes a 16-bit
    register, in the order kept by a flip-flop in the controller.  The theorem
    puts the bytes together again: the channel transfers the bytes that were
    asked for, at the address that was asked for. *)

From S2P Require Import Prelude Irq.

Open Scope Z_scope.

Definition IO_DMA1_BASE : Z := 0.
Definition IO_DMA2_BASE : Z := 192.     (* 0xC0 *)
Definition DMA1_MASK_REG : Z := 10.
Definition DMA1_MODE_REG : Z := 11.
Definition DMA1_CLEAR_FF_REG : Z := 12.
Definition DMA1_RESET_REG : Z := 13.
Definition DMA2_MASK_REG : Z := 212.    (* 0xD4 *)
Definition DMA2_MODE_REG : Z := 214.
Definition DMA2_CLEAR_FF_REG : Z := 216.
Definition DMA2_RESET_REG : Z := 218.
Definition DMA_PAGE_0 : Z := 135.       (* 0x87 *)
Definition DMA_PAGE_1 : Z := 131.
Definition DMA_PAGE_2 : Z := 129.
Definition DMA_PAGE_3 : Z := 130.
Definition DMA_PAGE_5 : Z := 139.
Definition DMA_PAGE_6 : Z := 137.
Definition DMA_PAGE_7 : Z := 138.
Definition DMA_MODE_READ : Z := 68.     (* 0x44 *)
Definition DMA_AUTOINIT : Z := 16.
Definition DMA_MODE_TRANSFER_BLOCK : Z := 128.
Definition DMA_MODE_TRANSFER_CASCADE : Z := 192.

Section dma.
Context {D : Type} `{Ports D}.

(** outb of dma.h takes the value first. *)
Definition dma_outb (v port : Z) (d : D) : D := outb port (u8 v) d.
Definition dma_inb (port : Z) (d : D) : Z * D := inb port d.

Definition reset_dma (dmanr : Z) (d : D) : D :=
  if dmanr =? 1 then dma_outb 255 DMA1_RESET_REG d else dma_outb 255 DMA2_RESET_REG d.

Definition enable_dma (dmanr : Z) (d : D) : D :=
  if dmanr <=? 3 then dma_outb dmanr DMA1_MASK_REG d else dma_outb (Z.land dmanr 3) DMA2_MASK_REG d.

Definition disable_dma (dmanr : Z) (d : D) : D :=
  if dmanr <=? 3 then dma_outb (Z.lor dmanr 4) DMA1_MASK_REG d
  else dma_outb (Z.lor (Z.land dmanr 3) 4) DMA2_MASK_REG d.

Definition clear_dma_ff (dmanr : Z) (d : D) : D :=
  if dmanr <=? 3 then dma_outb 0 DMA1_CLEAR_FF_REG d else dma_outb 0 DMA2_CLEAR_FF_REG d.

Definition set_dma_mode (dmanr mode : Z) (d : D) : D :=
  if dmanr <=? 3 then dma_outb (Z.lor mode dmanr) DMA1_MODE_REG d
  else dma_outb (Z.lor mode (Z.land dmanr 3)) DMA2_MODE_REG d.

(** [pagenr] is a char; outb takes it modulo 256. *)
Definition set_dma_page (dmanr pagenr : Z) (d : D) : D :=
  if dmanr =? 0 then dma_outb pagenr DMA_PAGE_0 d
  else if dmanr =? 1 then dma_outb pagenr DMA_PAGE_1 d
  else if dmanr =? 2 then dma_outb pagenr DMA_PAGE_2 d
  else if dmanr =? 3 then dma_outb pagenr DMA_PAGE_3 d
  else if dmanr =? 5 then dma_outb (Z.land pagenr 254) DMA_PAGE_5 d
  else if dmanr =? 6 then dma_outb (Z.land pagenr 254) DMA_PAGE_6 d
  else if dmanr =? 7 then dma_outb (Z.land pagenr 254) DMA_PAGE_7 d
  else d.

Definition set_dma_addr (dmanr a : Z) (d : D) : D :=
  let d := set_dma_page dmanr (Z.shiftr a 16) d in
  if dmanr <=? 3 then
    let port := Z.shiftl (Z.land dmanr 3) 1 + IO_DMA1_BASE in
    dma_outb (Z.land (Z.shiftr a 8) 255) port (dma_outb (Z.land a 255) port d)
  else
    let port := Z.shiftl (Z.land dmanr 3) 2 + IO_DMA2_BASE in
    dma_outb (Z.land (Z.shiftr a 9) 255) port (dma_outb (Z.land (Z.shiftr a 1) 255) port d).

Definition set_dma_count (dmanr count : Z) (d : D) : D :=
  let count := u32 (count - 1) in
  if dmanr <=? 3 then
    let port := Z.shiftl (Z.land dmanr 3) 1 + 1 + IO_DMA1_BASE in
    dma_outb (Z.land (Z.shiftr count 8) 255) port (dma_outb (Z.land count 255) port d)
  else
    let port := Z.shiftl (Z.land dmanr 3) 2 + 2 + IO_DMA2_BASE in
    dma_outb (Z.land (Z.shiftr count 9) 255) port (dma_outb (Z.land (Z.shiftr count 1) 255) port d).

Definition get_dma_residue (dmanr : Z) (d : D) : Z * D :=
  let io_port := if dmanr <=? 3 then Z.shiftl (Z.land dmanr 3) 1 + 1 + IO_DMA1_BASE
                 else Z.shiftl (Z.land dmanr 3) 2 + 2 + IO_DMA2_BASE in
  let '(b0, d) := dma_inb io_port d in
  let count := u16 (1 + b0) in
  let '(b1, d) := dma_inb io_port d in
  let count := u16 (count + Z.shiftl b1 8) in
  (if dmanr <=? 3 then count else Z.shiftl count 1, d).

(** ** sysfs.c *)

Definition HDD_DMA_CHANNEL : Z := 3.
Definition DMA_TRANSFER : Z := 60000.
Definition FOURMEG : Z := 4194304.

(** [(char)FOURMEG] is its low byte. *)
Definition SetDMA (d : D) : D :=
  let d := reset_dma 1 d in
  let d := disable_dma HDD_DMA_CHANNEL d in
  let d := clear_dma_ff HDD_DMA_CHANNEL d in
  let d := set_dma_page HDD_DMA_CHANNEL (u8 FOURMEG) d in
  let d := clear_dma_ff HDD_DMA_CHANNEL d in
  let d := set_dma_count HDD_DMA_CHANNEL DMA_TRANSFER d in
  let d := set_dma_mode HDD_DMA_CHANNEL (Z.lor (Z.lor DMA_MODE_READ DMA_AUTOINIT) DMA_MODE_TRANSFER_BLOCK) d in
  enable_dma HDD_DMA_CHANNEL d.

(** ** The controllers

    Channels 0 to 3 are on the first controller, 4 to 7 on the second; each
    controller has one flip-flop for the halves of all its 16-bit registers. *)

Record dmac : Type := mkDmac {
  dm_ff : bool -> bool;            (* the next byte is the high one *)
  dm_addr : Z -> Z;
  dm_count : Z -> Z;
  dm_page : Z -> Z;                (* by port *)
  dm_mask : Z -> bool;
  dm_mode : Z -> Z
}.

Definition upd {A : Type} (f : Z -> A) (k : Z) (v : A) : Z -> A := fun x => if x =? k then v else f x.
Definition set_ff (c v : bool) (f : bool -> bool) : bool -> bool := fun x => if Bool.eqb x c then v else f x.

Definition set_half (high : bool) (v old : Z) : Z := if high then old mod 256 + 256 * v else old / 256 * 256 + v.
Definition get_half (high : bool) (x : Z) : Z := if high then x / 256 else x mod 256.

(** The channel register behind a port: its controller, the channel, and
    whether it is the count. *)
Definition chan_port (p : Z) : option (bool * Z * bool) :=
  if (0 <=? p) && (p <? 8) then Some (false, p / 2, p mod 2 =? 1)
  else if (192 <=? p) && (p <? 208) && (p mod 2 =? 0) then Some (true, 4 + (p - 192) / 4, (p - 192) / 2 mod 2 =? 1)
  else None.

Definition dma_write (p v : Z) (r : dmac) : dmac :=
  match chan_port p with
  | Some (c, ch, is_count) =>
      let hi := dm_ff r c in
      mkDmac (set_ff c (negb hi) (dm_ff r))
        (if is_count then dm_addr r else upd (dm_addr r) ch (set_half hi v (dm_addr r ch)))
        (if is_count then upd (dm_count r) ch (set_half hi v (dm_count r ch)) else dm_count r)
        (dm_page r) (dm_mask r) (dm_mode r)
  | None =>
      if (p =? DMA1_CLEAR_FF_REG) || (p =? DMA2_CLEAR_FF_REG) then
        mkDmac (set_ff (p =? DMA2_CLEAR_FF_REG) false (dm_ff r)) (dm_addr r) (dm_count r) (dm_page r) (dm_mask r) (dm_mode r)
      else if (p =? DMA1_MASK_REG) || (p =? DMA2_MASK_REG) then
        let ch := v mod 4 + (if p =? DMA2_MASK_REG then 4 else 0) in
        mkDmac (dm_ff r) (dm_addr r) (dm_count r) (dm_page r) (upd (dm_mask r) ch (Z.testbit v 2)) (dm_mode r)
      else if (p =? DMA1_MODE_REG) || (p =? DMA2_MODE_REG) then
        let ch := v mod 4 + (if p =? DMA2_MODE_REG then 4 else 0) in
        mkDmac (dm_ff r) (dm_addr r) (dm_count r) (dm_page r) (dm_mask r) (upd (dm_mode r) ch v)
      else if (p =? DMA1_RESET_REG) || (p =? DMA2_RESET_REG) then
        let c := p =? DMA2_RESET_REG in
        mkDmac (set_ff c false (dm_ff r)) (dm_addr r) (dm_count r) (dm_page r)
          (fun ch => if Bool.eqb (4 <=? ch) c then true else dm_mask r ch) (dm_mode r)
      else mkDmac (dm_ff r) (dm_addr r) (dm_count r) (upd (dm_page r) p v) (dm_mask r) (dm_mode r)
  end.

Class Has8237 := {
  dma_regs : D -> dmac;
  dma_out_law : forall p v d, dma_regs (outb p v d) = dma_write p v (dma_regs d);
  dma_in_law : forall p c ch d, chan_port p = Some (c, ch, true) ->
    fst (inb p d) = get_half (dm_ff (dma_regs d) c) (dm_count (dma_regs d) ch) /\
    dma_regs (snd (inb p d)) = let r := dma_regs d in
      mkDmac (set_ff c (negb (dm_ff r c)) (dm_ff r)) (dm_addr r) (dm_count r) (dm_page r) (dm_mask r) (dm_mode r)
}.
Context `{Has8237}.

Definition page_port (ch : Z) : Z := nth (Z.to_nat ch) [DMA_PAGE_0; DMA_PAGE_1; DMA_PAGE_2; DMA_PAGE_3; 0; DMA_PAGE_5; DMA_PAGE_6; DMA_PAGE_7] 0.

(** Where channel [ch] transfers to, and how many bytes. *)
Definition dma_address (ch : Z) (d : D) : Z :=
  let r := dma_regs d in
  if ch <=? 3 then dm_page r (page_port ch) * 65536 + dm_addr r ch
  else dm_page r (page_port ch) / 2 * 131072 + 2 * dm_addr r ch.
Definition dma_bytes (ch : Z) (d : D) : Z :=
  let r := dma_regs d in
  if ch <=? 3 then dm_count r ch + 1 else 2 * (dm_count r ch + 1).

Definition usable (ch : Z) : Prop := 0 <= ch < 8 /\ ch <> 4.

(** A transfer the channel can make: bytes below 16 MB, or words. *)
Definition transfer_ok (ch a n : Z) : Prop :=
  0 <= a < 2 ^ 24 /\ 0 < n /\ if ch <=? 3 then n <= 65536 else n <= 131072 /\ a mod 2 = 0 /\ n mod 2 = 0.

Definition addr_port (ch : Z) : Z := if ch <=? 3 then 2 * ch else 192 + 4 * (ch - 4).
Definition count_port (ch : Z) : Z := if ch <=? 3 then 2 * ch + 1 else 194 + 4 * (ch - 4).

Lemma channel_cases (P : Z -> Prop) : Forall P [0; 1; 2; 3; 5; 6; 7] -> forall ch, usable ch -> P ch.
Proof.
  rewrite !Forall_cons. intros (P0 & P1 & P2 & P3 & P5 & P6 & P7 & _) ch (Hr & Hn).
  assert (ch = 0 \/ ch = 1 \/ ch = 2 \/ ch = 3 \/ ch = 5 \/ ch = 6 \/ ch = 7) as C by lia.
  destruct C as [-> | [-> | [-> | [-> | [-> | [-> | ->]]]]]]; done.
Qed.

Lemma set_ff_same c v f : set_ff c v f c = v.
Proof. unfold set_ff. by rewrite Bool.eqb_reflx. Qed.

(** Both bytes of a 16-bit register. *)
Lemma two_halves old lo hi : 0 <= lo < 256 -> set_half true hi (set_half false lo old) = lo + 256 * hi.
Proof. intros Hl. unfold set_half. zlia. Qed.

Lemma write_pair p c ch k lo hi d :
  chan_port p = Some (c, ch, k) -> dm_ff (dma_regs d) c = false -> 0 <= lo < 256 -> 0 <= hi < 256 ->
  let d' := dma_outb hi p (dma_outb lo p d) in let r := dma_regs d in let r' := dma_regs d' in
  dm_ff r' c = false /\
  (forall x, dm_addr r' x = if negb k && (x =? ch) then lo + 256 * hi else dm_addr r x) /\
  (forall x, dm_count r' x = if k && (x =? ch) then lo + 256 * hi else dm_count r x) /\
  dm_page r' = dm_page r.
Proof.
  intros Hp Hff Hlo Hhi d' r r'. unfold r', d', dma_outb. rewrite !dma_out_law. fold r. rewrite !u8_small by done.
  unfold dma_write. rewrite Hp. fold r in Hff. cbv zeta. cbn [dm_ff dm_addr dm_count dm_page]. rewrite Hff, !set_ff_same.
  split_and!; [done| | |done]; intros x; destruct k; cbn [negb andb]; try done; unfold upd; rewrite Z.eqb_refl;
    (destruct (Z.eqb_spec x ch); [by rewrite two_halves|done]).
Qed.

(** The port expressions of the source. *)
Lemma code_ports ch : 0 <= ch < 8 ->
  (if ch <=? 3 then Z.shiftl (Z.land ch 3) 1 + IO_DMA1_BASE else Z.shiftl (Z.land ch 3) 2 + IO_DMA2_BASE) = addr_port ch /\
  (if ch <=? 3 then Z.shiftl (Z.land ch 3) 1 + 1 + IO_DMA1_BASE else Z.shiftl (Z.land ch 3) 2 + 2 + IO_DMA2_BASE) = count_port ch /\
  chan_port (addr_port ch) = Some (4 <=? ch, ch, false) /\ chan_port (count_port ch) = Some (4 <=? ch, ch, true).
Proof.
  intros Hc. assert (ch = 0 \/ ch = 1 \/ ch = 2 \/ ch = 3 \/ ch = 4 \/ ch = 5 \/ ch = 6 \/ ch = 7) as C by lia.
  destruct C as [-> | [-> | [-> | [-> | [-> | [-> | [-> | ->]]]]]]]; done.
Qed.

Lemma page_write ch v d : usable ch ->
  set_dma_page ch v d = dma_outb (if ch <=? 3 then v else Z.land v 254) (page_port ch) d /\
  forall w, let r := dma_regs d in dma_regs (outb (page_port ch) w d) =
    mkDmac (dm_ff r) (dm_addr r) (dm_count r) (upd (dm_page r) (page_port ch) w) (dm_mask r) (dm_mode r).
Proof.
  revert ch. apply channel_cases. repeat apply Forall_cons_2; [..|by apply Forall_nil];
    (split; [done|]); intros w r; rewrite dma_out_law; done.
Qed.

Lemma page_port_inj ch ch' : usable ch -> usable ch' -> page_port ch = page_port ch' -> ch = ch'.
Proof.
  intros Hc Hc'. pattern ch. revert ch Hc. apply channel_cases.
  repeat apply Forall_cons_2; [..|by apply Forall_nil]; pattern ch'; revert ch' Hc'; apply channel_cases;
    repeat apply Forall_cons_2; done || by apply Forall_nil.
Qed.

(** What is asked of a channel. *)
Definition program_dma (ch a n : Z) (d : D) : D := set_dma_count ch n (set_dma_addr ch a (clear_dma_ff ch d)).

Lemma clear_ff_regs ch d : 0 <= ch < 8 ->
  let r := dma_regs d in dma_regs (clear_dma_ff ch d) =
    mkDmac (set_ff (4 <=? ch) false (dm_ff r)) (dm_addr r) (dm_count r) (dm_page r) (dm_mask r) (dm_mode r).
Proof.
  intros Hc r. unfold clear_dma_ff, dma_outb.
  destruct (Z.leb_spec ch 3), (Z.leb_spec 4 ch); try lia; by rewrite dma_out_law.
Qed.

(** The bytes of the address and of the count, by the kind of channel. *)
Definition addr_word (ch a : Z) : Z := if ch <=? 3 then a mod 65536 else a / 2 mod 65536.
Definition count_word (ch n : Z) : Z := if ch <=? 3 then (n - 1) mod 65536 else (n - 1) / 2 mod 65536.

Lemma land255 x : Z.land x 255 = x mod 256.
Proof. change 255 with (2 ^ 8 - 1). by rewrite land_mask by lia. Qed.

Lemma set_addr_code ch a d : usable ch -> 0 <= a < 2 ^ 24 ->
  let w := addr_word ch a in
  set_dma_addr ch a d = dma_outb (w / 256) (addr_port ch) (dma_outb (w mod 256) (addr_port ch) (set_dma_page ch (a / 65536) d)).
Proof.
  intros (Hc & _) Ha w. unfold set_dma_addr. destruct (code_ports ch Hc) as (Ep & _). rewrite !Z.shiftr_div_pow2, !land255 by lia.
  unfold w, addr_word. destruct (ch <=? 3); rewrite Ep; f_equal; try f_equal; try zlia.
  all: change (2 ^ 9) with 512; change (2 ^ 8) with 256; change (2 ^ 1) with 2; try zlia.
Qed.

Lemma set_count_code ch n d : 0 <= ch < 8 -> 0 < n <= 131072 ->
  let w := count_word ch n in
  set_dma_count ch n d = dma_outb (w / 256) (count_port ch) (dma_outb (w mod 256) (count_port ch) d).
Proof.
  intros Hc Hn w. unfold set_dma_count. rewrite u32_small by lia. destruct (code_ports ch Hc) as (_ & Ep & _).
  rewrite !Z.shiftr_div_pow2, !land255 by lia. unfold w, count_word.
  destruct (ch <=? 3); rewrite Ep; f_equal; try f_equal; try zlia.
  all: change (2 ^ 9) with 512; change (2 ^ 8) with 256; change (2 ^ 1) with 2; try zlia.
Qed.

(** The registers of all channels after the three calls. *)
Lemma program_regs ch a n d : usable ch -> 0 <= a < 2 ^ 24 -> 0 < n <= 131072 ->
  let r := dma_regs d in let r' := dma_regs (program_dma ch a n d) in
  dm_ff r' (4 <=? ch) = false /\
  (forall x, dm_addr r' x = if x =? ch then addr_word ch a else dm_addr r x) /\
  (forall x, dm_count r' x = if x =? ch then count_word ch n else dm_count r x) /\
  dm_page r' = upd (dm_page r) (page_port ch) (if ch <=? 3 then a / 65536 else Z.land (a / 65536) 254).
Proof.
  intros Hu Ha Hn r r'. pose proof Hu as (Hc & _). destruct (code_ports ch Hc) as (_ & _ & Pa & Pc).
  unfold r', program_dma. rewrite set_count_code, set_addr_code by done. destruct (page_write ch (a / 65536) (clear_dma_ff ch d) Hu) as (Epg & Wpg).
  rewrite Epg. set (d1 := dma_outb _ (page_port ch) _).
  assert (E1 : dma_regs d1 = mkDmac (set_ff (4 <=? ch) false (dm_ff r)) (dm_addr r) (dm_count r)
      (upd (dm_page r) (page_port ch) (if ch <=? 3 then a / 65536 else Z.land (a / 65536) 254)) (dm_mask r) (dm_mode r)).
  { unfold d1, dma_outb. rewrite Wpg, clear_ff_regs by done. cbn [dm_ff dm_addr dm_count dm_page dm_mask dm_mode].
    destruct (ch <=? 3); rewrite u8_small; try done; [zlia|]. pose proof (Z.land_nonneg (a / 65536) 254).
    assert (Z.land (a / 65536) 254 < 2 ^ 8); [|lia]. apply Z.log2_lt_cancel.
    pose proof (Z.log2_land (a / 65536) 254 ltac:(zlia) ltac:(lia)) as Hl. change (Z.log2 254) with 7 in Hl. change (Z.log2 (2 ^ 8)) with 8. lia. }
  assert (Wa : 0 <= addr_word ch a < 65536) by (unfold addr_word; destruct (ch <=? 3); zlia).
  assert (Wc : 0 <= count_word ch n < 65536) by (unfold count_word; destruct (ch <=? 3); zlia).
  destruct (write_pair (addr_port ch) _ _ _ (addr_word ch a mod 256) (addr_word ch a / 256) d1 Pa) as (F2 & A2 & C2 & G2).
  { rewrite E1. cbn [dm_ff]. apply set_ff_same. } { zlia. } { zlia. }
  set (d2 := dma_outb (addr_word ch a / 256) _ _) in *.
  destruct (write_pair (count_port ch) _ _ _ (count_word ch n mod 256) (count_word ch n / 256) d2 Pc F2) as (F3 & A3 & C3 & G3); [zlia|zlia|].
  split; [done|]. split; [|split].
  - intros x. rewrite A3. cbn [negb andb]. rewrite A2, E1. cbn [negb andb dm_addr]. destruct (x =? ch); [zlia|done].
  - intros x. rewrite C3. cbn [andb]. rewrite C2, E1. cbn [andb dm_count]. destruct (x =? ch); [zlia|done].
  - rewrite G3, G2, E1. done.
Qed.

(** A byte count read back in two halves. *)
Lemma residue_value ch d : 0 <= ch < 8 -> dm_ff (dma_regs d) (4 <=? ch) = false -> 0 <= dm_count (dma_regs d) ch < 65536 ->
  fst (get_dma_residue ch d) = (if ch <=? 3 then 1 else 2) * u16 (dm_count (dma_regs d) ch + 1).
Proof.
  intros Hc Hff Hr. destruct (code_ports ch Hc) as (_ & Ep & _ & Pc). unfold get_dma_residue. rewrite Ep. unfold dma_inb.
  destruct (dma_in_law _ _ _ d Pc) as (V1 & R1). destruct (inb (count_port ch) d) as (b0 & d1). cbn [fst snd] in V1, R1.
  destruct (dma_in_law _ _ _ d1 Pc) as (V2 & _). destruct (inb (count_port ch) d1) as (b1 & d2). cbn [fst snd] in V2.
  cbv zeta in R1. rewrite R1 in V2. cbn [dm_ff dm_count] in V2. rewrite set_ff_same, Hff in V2. rewrite Hff in V1.
  cbn [negb get_half] in V1, V2. subst b0 b1. cbn [fst]. rewrite !Z.shiftl_mul_pow2 by lia. change (2 ^ 8) with 256. change (2 ^ 1) with 2.
  destruct (ch <=? 3); zlia.
Qed.

(** C29: A channel that is programmed with an address below 16 MB and a byte count
    transfers exactly these bytes at that address; words on channels 5 to 7.
    The other channels keep their transfers, and the residue read back is the
    count, modulo its 16 bits. *)
Theorem dma_programmed ch a n d : usable ch -> transfer_ok ch a n ->
  let d' := program_dma ch a n d in
  dma_address ch d' = a /\ dma_bytes ch d' = n /\
  (forall ch', usable ch' -> ch' <> ch -> dma_address ch' d' = dma_address ch' d /\ dma_bytes ch' d' = dma_bytes ch' d) /\
  fst (get_dma_residue ch d') = n mod (if ch <=? 3 then 65536 else 131072).
Proof.
  intros Hu (Ha & Hn & Hk) d'. assert (Hn' : 0 < n <= 131072) by (destruct (ch <=? 3); lia).
  destruct (program_regs ch a n d Hu Ha Hn') as (Hff & EA & EC & EP). fold d' in Hff, EA, EC, EP.
  assert (Elow : Z.land (a / 65536) 254 / 2 = a / 131072).
  { change 254 with (Z.land 255 (Z.lnot (2 ^ 1 - 1))). rewrite Z.land_assoc, land255, land_lnot_mask by lia. zlia. }
  split_and!.
  - unfold dma_address. rewrite EP, EA, Z.eqb_refl. unfold upd, addr_word. rewrite Z.eqb_refl. destruct (ch <=? 3); [zlia|].
    rewrite Elow. destruct Hk as (_ & He & _). zlia.
  - unfold dma_bytes. rewrite EC, Z.eqb_refl. unfold count_word. destruct (ch <=? 3); [zlia|]. destruct Hk as (Hm & _ & He). zlia.
  - intros ch' Hu' Hne. unfold dma_address, dma_bytes. rewrite EP, EA, EC, (proj2 (Z.eqb_neq ch' ch)) by done.
    unfold upd. rewrite (proj2 (Z.eqb_neq (page_port ch') (page_port ch))); [done|].
    intros E. by apply Hne, page_port_inj.
  - pose proof Hu as (Hc & _). rewrite residue_value by (try done; rewrite EC, Z.eqb_refl; unfold count_word; destruct (ch <=? 3); zlia).
    rewrite EC, Z.eqb_refl. unfold count_word. destruct (ch <=? 3); [zlia|]. destruct Hk as (Hm & _ & He). zlia.
Qed.

(** SetDMA leaves page 0 in the page register, not the page of the address 4 MB,
    and its mode byte has both transfer mode bits set, which is cascade mode
    and not block transfer. *)
Lemma SetDMA_wrong d :
  let r := dma_regs (SetDMA d) in
  dm_page r DMA_PAGE_3 = 0 /\ Z.land (dm_mode r HDD_DMA_CHANNEL) DMA_MODE_TRANSFER_CASCADE = DMA_MODE_TRANSFER_CASCADE.
Proof.
  cbv zeta. unfold SetDMA, reset_dma, disable_dma, clear_dma_ff, set_dma_page, set_dma_count, set_dma_mode, enable_dma, dma_outb, HDD_DMA_CHANNEL.
  cbn [Z.eqb Z.leb Pos.eqb Z.compare Pos.compare Pos.compare_cont]. rewrite !dma_out_law. split; reflexivity.
Qed.
End dma.

Module DmaDemo.
(** The registers themselves as the machine. *)
#[export] Instance dmac_ports : Ports dmac := {|
  inb p r := match chan_port p with
             | Some (c, ch, k) =>
                 (get_half (dm_ff r c) (if k then dm_count r ch else dm_addr r ch),
                  mkDmac (set_ff c (negb (dm_ff r c)) (dm_ff r)) (dm_addr r) (dm_count r) (dm_page r) (dm_mask r) (dm_mode r))
             | None => (255, r)
             end;
  outb p v r := dma_write p v r
|}.

#[export] Instance dmac_laws : @Has8237 dmac _.
Proof. refine {| dma_regs r := r |}; [done|]. intros p c ch d E. cbn [inb dmac_ports]. by rewrite E. Defined.

Definition dma0 : dmac := mkDmac (fun _ => true) (fun _ => 0) (fun _ => 0) (fun _ => 0) (fun _ => true) (fun _ => 0).

Lemma dma_programmed_witness :
  let d' := program_dma 3 4194304 60000 dma0 in dma_address 3 d' = 4194304 /\ dma_bytes 3 d' = 60000.
Proof.
  destruct (dma_programmed 3 4194304 60000 dma0) as (Ea & En & _).
  - split; [lia|discriminate].
  - split; [lia|]. split; [lia|]. discriminate.
  - split; [exact Ea|exact En].
Defined.
End DmaDemo.
