(* ===== verification/Umalloc.v ===== *)
(** * umalloc.c: the user-level memory allocator

    The headers are two words of byte memory: the pointer to the next free
    block and the size of the block in units of a header.  The static variables
    are the address [base] of the header that is always in the list, and freep,
    the place where the last search ended.  The list is a ring without an end
    mark, so a walk runs on fuel and gives [None] when it is used up; the fuel
    that is enough is part of the theorems in UmallocSpec. *)

From S2P Require Import Prelude Memory.

Open Scope Z_scope.

Record heap : Type := Heap {
  h_mem : mem;
  h_freep : Z;
  h_brk : Z;                 (* the end of the data of the process *)
}.

Definition HEADER : Z := 8.

(** The fields of union header. *)
Definition ptr (m : mem) (p : Z) : Z := load32 m p.
Definition size (m : mem) (p : Z) : Z := load32 m (p + 4).
Definition set_ptr (p v : Z) (m : mem) : mem := store32 m p v.
Definition set_size (p v : Z) (m : mem) : mem := store32 m (p + 4) v.

(** The header [n] units behind [p]. *)
Definition unit_at (p n : Z) : Z := u32 (p + HEADER * n).

Section umalloc.
Context (base : Z).
(** The sbrk call: [None] when it gives -1; the old end is its result
    otherwise. *)
Context (sbrk : Z -> heap -> option heap).

(** The loop of free: the block of the list behind which [bp] belongs. *)
Fixpoint free_place (m : mem) (bp p : Z) (fuel : nat) : option Z :=
  match fuel with
  | O => None
  | S fuel =>
      if (p <? bp) && (bp <? ptr m p) then Some p
      else if (ptr m p <=? p) && ((p <? bp) || (bp <? ptr m p)) then Some p
      else free_place m bp (ptr m p) fuel
  end.

(** Joins [bp] to the block above it, then to [p] below it. *)
Definition join_upper (m : mem) (bp p : Z) : mem :=
  if unit_at bp (size m bp) =? ptr m p then
    let m := set_size bp (u32 (size m bp + size m (ptr m p))) m in
    set_ptr bp (ptr m (ptr m p)) m
  else set_ptr bp (ptr m p) m.

Definition join_lower (m : mem) (bp p : Z) : mem :=
  if unit_at p (size m p) =? bp then
    let m := set_size p (u32 (size m p + size m bp)) m in
    set_ptr p (ptr m bp) m
  else set_ptr p bp m.

Definition free (ap : Z) (h : heap) (fuel : nat) : option heap :=
  let bp := u32 (ap - HEADER) in
  match free_place (h_mem h) bp (h_freep h) fuel with
  | None => None
  | Some p => Some (Heap (join_lower (join_upper (h_mem h) bp p) bp p) p (h_brk h))
  end.

(** morecore: [Some (0, h)] when sbrk fails. *)
Definition morecore (nu : Z) (h : heap) (fuel : nat) : option (Z * heap) :=
  let nu := if nu <? 4096 then 4096 else nu in
  match sbrk (s32 (u32 (nu * HEADER))) h with
  | None => Some (0, h)
  | Some h' =>
      let hp := h_brk h in
      match free (unit_at hp 1) (Heap (set_size hp nu (h_mem h')) (h_freep h') (h_brk h')) fuel with
      | None => None
      | Some h'' => Some (h_freep h'', h'')
      end
  end.

(** What malloc does with the block [p] behind [prevp] that is large enough. *)
Definition take_block (nunits prevp p : Z) (h : heap) : Z * heap :=
  let m := h_mem h in
  if size m p =? nunits then
    (unit_at p 1, Heap (set_ptr prevp (ptr m p) m) prevp (h_brk h))
  else
    let m := set_size p (size m p - nunits) m in
    let p := unit_at p (size m p) in
    let m := set_size p nunits m in
    (unit_at p 1, Heap m prevp (h_brk h)).

(** [ring] is the fuel for the walk of free in morecore. *)
Fixpoint malloc_loop (nunits prevp p : Z) (h : heap) (ring : nat) (fuel : nat) : option (Z * heap) :=
  match fuel with
  | O => None
  | S fuel =>
      if nunits <=? size (h_mem h) p then Some (take_block nunits prevp p h)
      else if p =? h_freep h then
        match morecore nunits h ring with
        | None => None
        | Some (p, h) =>
            if p =? 0 then Some (0, h)
            else malloc_loop nunits p (ptr (h_mem h) p) h ring fuel
        end
      else malloc_loop nunits p (ptr (h_mem h) p) h ring fuel
  end.

Definition malloc (nbytes : Z) (h : heap) (fuel : nat) : option (Z * heap) :=
  let nunits := u32 (nbytes + HEADER - 1) / HEADER + 1 in
  let h :=
    if h_freep h =? 0 then Heap (set_size base 0 (set_ptr base base (h_mem h))) base (h_brk h) else h in
  malloc_loop nunits (h_freep h) (ptr (h_mem h) (h_freep h)) h fuel fuel.
End umalloc.
