(* ===== verification/UmallocSpec.v ===== *)
(** * The memory allocator: the heap is tiled by blocks

    The heap between its first break and the current one is a sequence of
    blocks without gaps, each free or live, in which no two free blocks are
    neighbours; the free ones, in the order of their addresses, are the ring
    of umalloc.c.  malloc and free keep this and change no byte of a live
    block. *)

From stdpp Require Import sorting.
From S2P Require Import Prelude Memory Mmu Umalloc.

Open Scope Z_scope.

(** ** Chains of headers *)

Definition first (l : list (Z * Z)) (e : Z) : Z := match l with (a, _) :: _ => a | [] => e end.

(** The headers of the blocks [l] with their sizes, each pointing to the next
    and the last to [e]. *)
Fixpoint chain (m : mem) (l : list (Z * Z)) (e : Z) : Prop :=
  match l with
  | [] => True
  | (a, n) :: l => ptr m a = first l e /\ size m a = n /\ chain m l e
  end.

Lemma first_app l1 l2 e : first (l1 ++ l2) e = first l1 (first l2 e).
Proof. by destruct l1 as [|[]]. Qed.

Lemma chain_app m l1 l2 e : chain m (l1 ++ l2) e <-> chain m l1 (first l2 e) /\ chain m l2 e.
Proof.
  induction l1 as [|[a n] l1 IH]; cbn [app chain]; [naive_solver|]. rewrite IH, first_app. naive_solver.
Qed.

(** Only the headers matter. *)
Definition same_header (m m' : mem) (a : Z) : Prop := ptr m' a = ptr m a /\ size m' a = size m a.

Lemma headers_frame m m' l e : Forall (fun b => same_header m m' (fst b)) l -> chain m l e -> chain m' l e.
Proof.
  induction 1 as [|[a n] l (Hp & Hs) Hl IH]; [done|]. cbn [chain fst] in *. rewrite Hp, Hs. naive_solver.
Qed.

Lemma chain_in m l e a n : chain m l e -> (a, n) ∈ l -> size m a = n.
Proof. induction l as [|[b k] l IH]; cbn [chain]; set_unfold; naive_solver. Qed.

(** A ring can be entered at any of its blocks. *)
Lemma chain_rotate m l1 l2 : chain m (l1 ++ l2) (first (l1 ++ l2) 0) -> chain m (l2 ++ l1) (first (l2 ++ l1) 0).
Proof.
  rewrite !chain_app, !first_app. destruct l1 as [|[a n] l1]; [naive_solver|]. destruct l2 as [|[b k] l2]; naive_solver.
Qed.

Lemma chain_ptrs m l e : chain m l e -> map (fun b => ptr m (fst b)) l = tail (map fst l) ++ (if l is [] then [] else [e]).
Proof.
  induction l as [|[a n] l IH]; [done|]. cbn [chain map tail fst]. intros (-> & _ & Hl). rewrite (IH Hl).
  by destruct l as [|[]].
Qed.

(** In a ring no two blocks have the same successor. *)
Lemma chain_inj m l a b n k :
  chain m l (first l 0) -> NoDup (map fst l) -> (a, n) ∈ l -> (b, k) ∈ l -> ptr m a = ptr m b -> a = b.
Proof.
  intros Hc Hnd (i & Hi)%list_elem_of_lookup (j & Hj)%list_elem_of_lookup E.
  assert (Hnd' : NoDup (map (fun b => ptr m (fst b)) l)).
  { rewrite (chain_ptrs _ _ _ Hc). destruct l as [|[c x] l]; [done|]. cbn [map tail fst first] in *.
    by rewrite Permutation_app_comm. }
  assert (Ei : map (fun b => ptr m (fst b)) l !! i = Some (ptr m a)) by by rewrite list_lookup_fmap, Hi.
  assert (Ej : map (fun b => ptr m (fst b)) l !! j = Some (ptr m a)) by by rewrite list_lookup_fmap, Hj, E.
  pose proof (NoDup_lookup _ _ _ _ Hnd' Ei Ej) as <-. congruence.
Qed.

(** ** Walks around the ring *)

Definition belongs (m : mem) (bp p : Z) : bool :=
  ((p <? bp) && (bp <? ptr m p)) || ((ptr m p <=? p) && ((p <? bp) || (bp <? ptr m p))).

Lemma free_place_walk m bp l e t fuel :
  chain m l e -> t ∈ map fst l -> belongs m bp t = true -> (length l <= fuel)%nat ->
  exists q, q ∈ map fst l /\ free_place m bp (first l e) fuel = Some q /\ belongs m bp q = true.
Proof.
  revert fuel. induction l as [|[a n] l IH]; intros fuel Hc Ht Hb Hf; [by apply not_elem_of_nil in Ht|].
  destruct fuel as [|fuel]; [simpl in Hf; lia|]. cbn [chain map fst first free_place] in *. destruct Hc as (Hp & _ & Hc).
  destruct (belongs m bp a) eqn:Ea.
  - exists a. split; [set_solver|]. split; [|done]. unfold belongs in Ea.
    destruct (_ && (bp <? _)); [done|]. simpl in Ea. by rewrite Ea.
  - destruct (IH fuel) as (q & Hq & E & Hbq); [done| |done|simpl in *; lia|].
    { apply elem_of_cons in Ht as [->|]; [congruence|done]. }
    exists q. split; [set_solver|]. split; [|done]. unfold belongs in Ea. apply orb_false_iff in Ea as (-> & ->).
    by rewrite Hp.
Qed.

(** ** Blocks that tile the heap *)

Record block : Type := Block { b_at : Z; b_size : Z; b_live : bool }.

#[export] Instance block_eq_dec : EqDecision block.
Proof. solve_decision. Defined.

Fixpoint tiles (lo : Z) (bs : list block) (hi : Z) : Prop :=
  match bs with
  | [] => lo = hi
  | b :: bs => b_at b = lo /\ 0 < b_size b /\ tiles (lo + HEADER * b_size b) bs hi
  end.

Fixpoint sel (live : bool) (bs : list block) : list (Z * Z) :=
  match bs with
  | [] => []
  | b :: bs => if eqb (b_live b) live then (b_at b, b_size b) :: sel live bs else sel live bs
  end.
Notation free_of := (sel false).
Notation live_of := (sel true).

(** No two free blocks are neighbours. *)
Definition head_live (bs : list block) : Prop := match bs with b :: _ => b_live b = true | [] => True end.
Fixpoint coalesced (bs : list block) : Prop :=
  match bs with
  | [] => True
  | b :: bs => (b_live b = false -> head_live bs) /\ coalesced bs
  end.

Lemma sel_app k bs bs' : sel k (bs ++ bs') = sel k bs ++ sel k bs'.
Proof. induction bs as [|b bs IH]; cbn [app sel]; [done|]. rewrite IH. by destruct (eqb _ _). Qed.

Lemma sel_in k bs a n : (a, n) ∈ sel k bs <-> Block a n k ∈ bs.
Proof.
  induction bs as [|[a' n' k'] bs IH]; cbn [sel b_live b_at b_size]; [set_solver|].
  destruct (eqb_spec k' k) as [->|]; rewrite ?elem_of_cons, IH; naive_solver.
Qed.

Lemma tiles_app lo bs bs' hi : tiles lo (bs ++ bs') hi <-> exists mid, tiles lo bs mid /\ tiles mid bs' hi.
Proof.
  revert lo. induction bs as [|b bs IH]; intros lo; cbn [app tiles]; [naive_solver|]. rewrite IH. naive_solver.
Qed.

Lemma tiles_le lo bs hi : tiles lo bs hi -> lo <= hi.
Proof.
  revert lo. induction bs as [|b bs IH]; intros lo; cbn [tiles]; [lia|]. intros (_ & Hn & H%IH). unfold HEADER in *. lia.
Qed.

Lemma tiles_in lo bs hi b : tiles lo bs hi -> b ∈ bs ->
  0 < b_size b /\ lo <= b_at b /\ b_at b + HEADER * b_size b <= hi.
Proof.
  intros H (L & R & ->)%list_elem_of_split. apply tiles_app in H as (mid & HL%tiles_le & HR).
  cbn [tiles] in HR. destruct HR as (-> & Hn & HR%tiles_le). lia.
Qed.

Lemma tiles_apart lo bs hi b b' : tiles lo bs hi -> b ∈ bs -> b' ∈ bs -> b <> b' ->
  b_at b + HEADER * b_size b <= b_at b' \/ b_at b' + HEADER * b_size b' <= b_at b.
Proof.
  intros H (L & R & ->)%list_elem_of_split Hin Hne. apply tiles_app in H as (mid & HL & HR).
  cbn [tiles] in HR. destruct HR as (-> & Hn & HR). unfold HEADER in *.
  apply elem_of_app in Hin as [Hin|Hin]; [|apply elem_of_cons in Hin as [->|Hin]; [done|]].
  - apply (tiles_in _ _ _ _ HL) in Hin. unfold HEADER in *. lia.
  - apply (tiles_in _ _ _ _ HR) in Hin. unfold HEADER in *. lia.
Qed.

Lemma sel_range k lo bs hi a n : tiles lo bs hi -> (a, n) ∈ sel k bs -> 0 < n /\ lo <= a /\ a + HEADER * n <= hi.
Proof. intros H Hin%sel_in. by destruct (tiles_in _ _ _ _ H Hin). Qed.

(** The picked blocks are in the order of their addresses. *)
Definition below (x y : Z * Z) : Prop := fst x + HEADER <= fst y.

Lemma sel_sorted k lo bs hi : tiles lo bs hi -> StronglySorted below (sel k bs).
Proof.
  revert lo. induction bs as [|b bs IH]; intros lo; cbn [tiles sel]; [constructor|]. intros (<- & Hn & H).
  destruct (eqb _ _); [|by eapply IH]. constructor; [by eapply IH|]. apply Forall_forall. intros [a n] Hin.
  apply (sel_range _ _ _ _ _ _ H) in Hin. unfold below, HEADER in *. simpl. lia.
Qed.

Lemma coalesced_app bs bs' :
  coalesced (bs ++ bs') <->
  coalesced bs /\ coalesced bs' /\ (forall bs0 b, bs = bs0 ++ [b] -> b_live b = false -> head_live bs').
Proof.
  induction bs as [|b bs IH]; cbn [app coalesced].
  - split; [|naive_solver]. intros H. split; [done|]. split; [done|]. by intros [].
  - rewrite IH. split.
    + intros (Hb & Hc & Hc' & Hl). split_and!; [|done|done|].
      { intros Hf. specialize (Hb Hf). by destruct bs. }
      intros bs0 b0 E Hf. destruct bs0 as [|b1 bs0]; cbn in E; simplify_eq; [by apply Hb|by eapply Hl].
    + intros ((Hb & Hc) & Hc' & Hl). split_and!; [|done|done|].
      * intros Hf. destruct bs as [|b1 bs]; [by apply (Hl [] b)|by apply Hb].
      * intros bs0 b0 -> Hf. by apply (Hl (b :: bs0) b0).
Qed.

Lemma head_live_or R : head_live R \/ exists a k R', R = Block a k false :: R'.
Proof. destruct R as [|[a k []] R']; [by left|by left|right; eauto]. Qed.

(** ** The invariant *)

Section heap.
Context (base heap0 : Z).

Record heap_inv (h : heap) (bs : list block) : Prop := {
  hi_low : 0 < base /\ base + HEADER <= heap0;
  hi_tiles : tiles heap0 bs (h_brk h);
  hi_brk : h_brk h <= KERNBASE;
  hi_coalesced : coalesced bs;
  hi_ring : chain (h_mem h) ((base, 0) :: free_of bs) base;
  hi_freep : h_freep h ∈ base :: map fst (free_of bs);
  hi_live : forall a n, (a, n) ∈ live_of bs -> size (h_mem h) a = n;
}.

(** The memory differs at most in the header at [a]. *)
Definition outside (a : Z) (m m' : mem) : Prop :=
  forall x, x < a \/ a + HEADER <= x -> load8 m' x = load8 m x.

Lemma outside_header a m m' b : outside a m m' -> b + HEADER <= a \/ a + HEADER <= b -> same_header m m' b.
Proof.
  unfold HEADER. intros H Hb. unfold same_header, ptr, size. rewrite !load32_load8. unfold outside, HEADER in H.
  split; rewrite !H by lia; done.
Qed.

Lemma outside_set_ptr a v m : outside a m (set_ptr a v m).
Proof. unfold outside, HEADER, set_ptr. intros x Hx. rewrite load8_store32. repeat (zif; try lia); done. Qed.
Lemma outside_set_size a v m : outside a m (set_size a v m).
Proof. unfold outside, HEADER, set_size. intros x Hx. rewrite load8_store32. repeat (zif; try lia); done. Qed.
Lemma outside_trans a m m' m'' : outside a m m' -> outside a m' m'' -> outside a m m''.
Proof. intros H H' x Hx. by rewrite H', H. Qed.

Lemma ptr_set_ptr a v m : 0 <= v < 4294967296 -> ptr (set_ptr a v m) a = v.
Proof. intros. unfold ptr, set_ptr. by rewrite load32_store32, u32_small. Qed.
Lemma size_set_size a v m : 0 <= v < 4294967296 -> size (set_size a v m) a = v.
Proof. intros. unfold size, set_size. by rewrite load32_store32, u32_small. Qed.
Lemma size_set_ptr a v m : size (set_ptr a v m) a = size m a.
Proof. unfold size, set_ptr. by rewrite load32_store32_other by lia. Qed.
Lemma ptr_set_size a v m : ptr (set_size a v m) a = ptr m a.
Proof. unfold ptr, set_size. by rewrite load32_store32_other by lia. Qed.

(** In a sorted chain a block is the last one or points upwards. *)
Lemma chain_next m l e q : chain m l e -> StronglySorted below l -> q ∈ map fst l ->
  (ptr m q = e /\ exists l' n, l = l' ++ [(q, n)]) \/ (q < ptr m q /\ ptr m q ∈ map fst l).
Proof.
  induction l as [|[a n] l IH]; intros Hc Hs Hq; [by apply not_elem_of_nil in Hq|].
  cbn [chain map fst] in *. destruct Hc as (Hp & _ & Hc). apply StronglySorted_inv in Hs as (Hs & Hall).
  apply elem_of_cons in Hq as [->|Hq].
  - destruct l as [|[b k] l]; [left; split; [done|]; by exists [], n|]. right. rewrite Hp. cbn [first map fst].
    apply Forall_inv in Hall. unfold below, HEADER in Hall. simpl in Hall. split; [lia|set_solver].
  - destruct (IH Hc Hs Hq) as [(He & l' & k & ->)|(Hlt & Hin)]; [left|right; set_solver].
    split; [done|]. by exists ((a, n) :: l'), k.
Qed.

Lemma first_range bs lo hi :
  tiles lo bs hi -> 0 <= lo -> hi <= KERNBASE -> 0 <= base < KERNBASE -> 0 <= first (free_of bs) base < 4294967296.
Proof.
  unfold KERNBASE. intros Ht Hlo Hhi Hb. destruct (free_of bs) as [|[a n] l] eqn:E; cbn [first]; [lia|].
  destruct (sel_range false _ _ _ a n Ht) as (Hn & Ha & He); [rewrite E; set_solver|]. unfold HEADER in *. lia.
Qed.

Section free.
Context (h : heap) (L R : list block) (bp n : Z).
Context (Hinv : heap_inv h (L ++ Block bp n true :: R)).

Let m := h_mem h.
Let U := (base, 0) :: free_of L.
Let V := free_of R.

Lemma free_split : tiles heap0 L bp /\ 0 < n /\ tiles (bp + HEADER * n) R (h_brk h) /\ chain m U (first V base) /\
  chain m V base.
Proof using Hinv.
  destruct Hinv as [Hlow Ht _ _ Hr _ _]. apply tiles_app in Ht as (mid & HL & HR). cbn [tiles b_at b_size] in HR.
  destruct HR as (<- & Hn & HR). rewrite sel_app in Hr. cbn [sel b_live eqb] in Hr.
  rewrite app_comm_cons, chain_app in Hr. tauto.
Qed.

Lemma U_below a : a ∈ map fst U -> 0 < a /\ a + HEADER <= bp.
Proof using Hinv.
  destruct free_split as (HL & _). pose proof (hi_low _ _ Hinv) as Hlow. pose proof (tiles_le _ _ _ HL).
  intros ([b k] & -> & Hin)%list_elem_of_fmap. apply elem_of_cons in Hin as [[= -> ->]|Hin]; simpl; [lia|].
  apply (sel_range _ _ _ _ _ _ HL) in Hin. unfold HEADER in *. lia.
Qed.

Lemma V_above a : a ∈ map fst V -> bp + HEADER * n <= a /\ a + HEADER <= KERNBASE.
Proof using Hinv.
  destruct free_split as (_ & _ & HR & _). pose proof (hi_brk _ _ Hinv).
  intros ([b k] & -> & Hin)%list_elem_of_fmap. apply (sel_range _ _ _ _ _ _ HR) in Hin. unfold HEADER in *. simpl. lia.
Qed.

Lemma U_sorted : StronglySorted below U.
Proof using Hinv.
  destruct free_split as (HL & _). constructor; [by eapply sel_sorted|]. apply Forall_forall. intros [a k] Hin.
  apply (sel_range _ _ _ _ _ _ HL) in Hin. pose proof (hi_low _ _ Hinv). unfold below, HEADER in *. simpl. lia.
Qed.

Lemma V_sorted : StronglySorted below V.
Proof using Hinv. destruct free_split as (_ & _ & HR & _). by eapply sel_sorted. Qed.

(** The block in front of [bp], and only that, is where it belongs. *)
Lemma belongs_last U' p np : U = U' ++ [(p, np)] -> belongs m bp p = true.
Proof using Hinv.
  intros EU. destruct free_split as (_ & Hn & _ & HU & _). pose proof (U_below p) as Hp. rewrite EU in *.
  apply chain_app in HU as (_ & Hc). cbn [chain first] in Hc. destruct Hc as (Ep & _).
  destruct Hp as (Hp0 & Hp); [rewrite map_app; set_solver|]. unfold belongs. rewrite Ep.
  destruct V as [|[v k] V'] eqn:EV; cbn [first].
  - assert (Hb : base <= p).
    { pose proof U_sorted as Hs. unfold U in EU, Hs. destruct U' as [|x U']; cbn in EU; injection EU as <- EU; [lia|].
      rewrite EU in Hs. apply StronglySorted_inv in Hs as (_ & Hs).
      apply Forall_app in Hs as (_ & Hs%Forall_inv). unfold below, HEADER in Hs. simpl in Hs. lia. }
    unfold HEADER in *. rewrite orb_true_iff, !andb_true_iff, orb_true_iff, Z.leb_le, !Z.ltb_lt. lia.
  - pose proof (V_above v) as Hv. fold V in Hv. rewrite EV in Hv. destruct Hv as (Hv & _); [set_solver|].
    unfold HEADER in *. rewrite orb_true_iff, !andb_true_iff, orb_true_iff, Z.leb_le, !Z.ltb_lt. lia.
Qed.

Lemma belongs_only q : q ∈ map fst (U ++ V) -> belongs m bp q = true -> exists U' nq, U = U' ++ [(q, nq)].
Proof using Hinv.
  intros Hq Hb. destruct free_split as (_ & Hn & _ & HU & HV).
  unfold belongs in Hb. rewrite orb_true_iff, !andb_true_iff, orb_true_iff, Z.leb_le, !Z.ltb_lt in Hb.
  unfold HEADER in *. rewrite map_app, elem_of_app in Hq. destruct Hq as [Hq|Hq].
  - destruct (chain_next _ _ _ _ HU U_sorted Hq) as [(_ & H)|(Hlt & Hin)]; [done|].
    apply U_below in Hin, Hq. unfold HEADER in *. lia.
  - pose proof (V_above q Hq) as Hq'. pose proof (U_below base ltac:(set_solver)). unfold HEADER in *.
    destruct (chain_next _ _ _ _ HV V_sorted Hq) as [(He & _)|(Hlt & Hin)]; lia.
Qed.

Lemma free_finds fuel : (length (U ++ V) <= fuel)%nat ->
  exists U' p np, U = U' ++ [(p, np)] /\ free_place m bp (h_freep h) fuel = Some p.
Proof using Hinv.
  intros Hf. destruct free_split as (_ & _ & _ & HU & HV).
  assert (Hring : chain m (U ++ V) (first (U ++ V) 0)) by (apply chain_app; done).
  assert (Hfp : h_freep h ∈ map fst (U ++ V)).
  { pose proof (hi_freep _ _ Hinv) as H. rewrite sel_app in H. unfold U, V. by rewrite <- app_comm_cons. }
  apply list_elem_of_fmap in Hfp as ([f k] & Ef & (X & Y & E)%list_elem_of_split). simpl in Ef. subst f.
  destruct (exists_last (l := U)) as (U0 & [t nt] & EU); [done|].
  assert (Ht : t ∈ map fst (((h_freep h, k) :: Y) ++ X)).
  { assert (Hin : (t, nt) ∈ X ++ (h_freep h, k) :: Y) by (rewrite <- E, EU; set_solver).
    apply (list_elem_of_fmap_2' _ _ (t, nt)); [set_solver|done]. }
  rewrite E in Hring. apply chain_rotate in Hring.
  destruct (free_place_walk m bp _ _ t fuel Hring Ht) as (q & Hq & Eq & Hb).
  { by eapply belongs_last. }
  { apply (f_equal length) in E. rewrite !length_app in *. simpl in *. lia. }
  destruct (belongs_only q) as (U' & nq & EU'); [|done|by exists U', q, nq].
  rewrite E. rewrite map_app in *. set_solver.
Qed.

Lemma free_ptr_p U' p np : U = U' ++ [(p, np)] ->
  ptr m p = first V base /\ size m p = np /\ 0 < p /\ p + HEADER <= bp.
Proof using Hinv.
  intros EU. destruct free_split as (_ & _ & _ & HU & _). pose proof (U_below p) as Hp. rewrite EU in *.
  apply chain_app in HU as (_ & Hc). cbn [chain first] in Hc. destruct Hc as (Ep & Es & _).
  split; [done|]. split; [done|]. apply Hp. rewrite map_app. set_solver.
Qed.

Lemma free_size : size m bp = n /\ bp + HEADER * n <= KERNBASE.
Proof using Hinv.
  destruct free_split as (_ & _ & HR%tiles_le & _). pose proof (hi_brk _ _ Hinv). split; [|lia].
  apply (hi_live _ _ Hinv). apply sel_in. set_solver.
Qed.

(** After the join with the upper neighbour the block is [n'] units long and
    the blocks behind it are [R']. *)
Definition upper_joined (m1 : mem) (n' : Z) (R' : list block) : Prop :=
  outside bp m m1 /\ size m1 bp = n' /\ ptr m1 bp = first (free_of R') base /\ 0 < n' /\
  tiles (bp + HEADER * n') R' (h_brk h) /\ head_live R' /\ coalesced R' /\ live_of R' = live_of R /\
  chain m (free_of R') base /\ n <= n' /\ (length R' <= length R)%nat.

Lemma coalesced_R : coalesced R /\ coalesced L.
Proof using Hinv. pose proof (hi_coalesced _ _ Hinv) as H. apply coalesced_app in H as (HL & (_ & HR) & _). done. Qed.

Lemma join_upper_spec U' p np : U = U' ++ [(p, np)] ->
  exists n' R', upper_joined (join_upper m bp p) n' R'.
Proof using Hinv.
  intros EU. destruct (free_ptr_p _ _ _ EU) as (Ep & _ & Hp0 & Hpb). destruct free_size as (Es & Hend).
  destruct free_split as (_ & Hn & HR & _ & HV). destruct coalesced_R as (Hc & _).
  pose proof (U_below base ltac:(set_solver)) as Hbase.
  unfold join_upper. rewrite Es, Ep. unfold unit_at, KERNBASE, HEADER in *. rewrite (u32_small (bp + 8 * n)) by lia.
  assert (Hnojoin : head_live R -> first V base <> bp + 8 * n).
  { intros Hh. destruct V as [|[v k] V'] eqn:EV; cbn [first]; [lia|]. unfold V in EV.
    destruct R as [|b R1]; [done|]. cbn [head_live tiles sel] in *. rewrite Hh in EV. cbn [eqb] in EV.
    destruct HR as (_ & Hb & HR). pose proof (sel_range false _ _ _ v k HR) as Hv. rewrite EV in Hv.
    unfold HEADER in *. specialize (Hv ltac:(set_solver)). lia. }
  assert (Hrange : 0 <= first V base < 4294967296).
  { pose proof (hi_brk _ _ Hinv). eapply first_range; unfold KERNBASE in *; [exact HR|lia..]. }
  destruct (head_live_or R) as [Hh|(a & k & R1 & ER)].
  - specialize (Hnojoin Hh). destruct (Z.eqb_spec (bp + 8 * n) (first V base)); [lia|]. exists n, R.
    unfold upper_joined. rewrite size_set_ptr, ptr_set_ptr by done.
    split_and!; try done. apply outside_set_ptr.
  - assert (EV : V = (bp + 8 * n, k) :: free_of R1).
    { unfold V. rewrite ER in *. cbn [tiles sel b_live b_at b_size eqb] in *. by destruct HR as (-> & _). }
    rewrite EV in *. cbn [first chain] in *. rewrite Z.eqb_refl. destruct HV as (Enx & Esz & HV1).
    rewrite ER in HR, Hc. cbn [tiles b_at b_size coalesced b_live] in HR, Hc.
    destruct HR as (_ & Hk & HR1), Hc as (Hh & Hc). pose proof (tiles_le _ _ _ HR1). pose proof (hi_brk _ _ Hinv).
    unfold KERNBASE, HEADER in *. rewrite (u32_small (n + _)) by lia.
    assert (Hm1 : forall x, x + 8 <= bp \/ bp + 8 <= x -> ptr (set_size bp (n + k) m) x = ptr m x).
    { intros x Hx. by apply (outside_header bp _ _ x (outside_set_size bp (n + k) m)). }
    rewrite Esz, (Hm1 p), Ep, (Hm1 (bp + 8 * n)), Enx by lia. exists (n + k), R1. unfold upper_joined.
    rewrite size_set_ptr, size_set_size by lia.
    assert (0 <= first (free_of R1) base < 4294967296) by (eapply first_range; unfold KERNBASE; [exact HR1|lia..]).
    rewrite ptr_set_ptr by done. unfold HEADER. replace (bp + 8 * (n + k)) with (bp + 8 * n + 8 * k) by lia.
    split_and!; try done; [|lia|by apply Hh|by rewrite ER|lia|rewrite ER; simpl; lia].
    eapply outside_trans; [apply outside_set_size|apply outside_set_ptr].
Qed.

(** *** The join with the lower neighbour *)

Section lower.
Context (m1 m2 : mem) (n' : Z) (R' : list block) (U' : list (Z * Z)) (p np : Z).
Context (EU : U = U' ++ [(p, np)]).
Context (Hup : upper_joined m1 n' R').
Context (Hm2 : outside p m1 m2).

Lemma lower_frame a :
  a + HEADER <= bp \/ bp + HEADER <= a -> a + HEADER <= p \/ p + HEADER <= a -> same_header m m2 a.
Proof using Hup Hm2.
  intros Hb Hp. destruct Hup as (Ho & _). destruct (outside_header _ _ _ _ Ho Hb) as (E1 & E2).
  destruct (outside_header _ _ _ _ Hm2 Hp) as (E3 & E4). split; congruence.
Qed.

Lemma lower_U' : chain m2 U' p.
Proof using Hinv EU Hup Hm2.
  destruct free_split as (_ & _ & _ & HU & _). pose proof U_sorted as Hs. pose proof U_below as Hb.
  rewrite EU in HU, Hs, Hb. apply chain_app in HU as (HU & _). revert HU. apply headers_frame, Forall_forall.
  intros [a k] Hin. apply lower_frame; left; simpl.
  - apply (Hb a). rewrite map_app. apply elem_of_app. left. by apply (list_elem_of_fmap_2' _ _ (a, k)).
  - apply StronglySorted_app in Hs as (Hs & _). by apply (Hs (a, k) (p, np)); [|set_solver].
Qed.

Lemma lower_V' : chain m2 (free_of R') base.
Proof using Hinv EU Hup Hm2.
  destruct Hup as (_ & _ & _ & Hn & Ht & _ & _ & _ & HV & _). revert HV. apply headers_frame, Forall_forall.
  intros [a k] Hin. apply (sel_range _ _ _ _ _ _ Ht) in Hin. destruct (free_ptr_p _ _ _ EU) as (_ & _ & _ & Hp).
  unfold HEADER in *. apply lower_frame; right; unfold HEADER; simpl; lia.
Qed.

Lemma lower_live a k : (a, k) ∈ live_of (L ++ R) -> size m2 a = k.
Proof using Hinv EU Hup Hm2.
  intros Hin. destruct free_split as (HL & Hn & HR & _). destruct (free_ptr_p _ _ _ EU) as (_ & _ & _ & Hp).
  rewrite <- (hi_live _ _ Hinv a k) by (rewrite !sel_app in *; cbn [sel b_live eqb]; set_solver).
  rewrite sel_app, elem_of_app in Hin. apply lower_frame; destruct Hin as [Hin|Hin].
  - apply (sel_range _ _ _ _ _ _ HL) in Hin. unfold HEADER in *. lia.
  - apply (sel_range _ _ _ _ _ _ HR) in Hin. unfold HEADER in *. lia.
  - assert (Hpin : (p, np) ∈ U) by (rewrite EU; set_solver). unfold U in Hpin.
    apply elem_of_cons in Hpin as [[= -> ->]|Hpin].
    { apply (sel_range _ _ _ _ _ _ HL) in Hin. pose proof (hi_low _ _ Hinv). unfold HEADER in *. lia. }
    pose proof (sel_range _ _ _ _ _ _ HL Hin). pose proof (sel_range _ _ _ _ _ _ HL Hpin). apply sel_in in Hin, Hpin.
    eapply tiles_apart in HL; [|exact Hin|exact Hpin|done]. unfold HEADER in *. simpl in HL. lia.
  - apply (sel_range _ _ _ _ _ _ HR) in Hin. unfold HEADER in *. lia.
Qed.
End lower.

Lemma last_free_or : (exists L' a k, L = L' ++ [Block a k false]) \/ (forall bs0 b, L = bs0 ++ [b] -> b_live b = true).
Proof.
  destruct L as [|b0 L0] eqn:EL; [right; by intros []|].
  destruct (exists_last (l := b0 :: L0)) as (L' & [a k []] & E); [done|right|left; by exists L', a, k].
  intros bs0 b Eb. rewrite E in Eb. by apply app_inj_tail in Eb as (_ & <-).
Qed.

Lemma lower_gap U' p np :
  U = U' ++ [(p, np)] -> (forall bs0 b, L = bs0 ++ [b] -> b_live b = true) -> p + HEADER * np < bp.
Proof using Hinv.
  intros EU Hlast. destruct free_split as (HL & _). pose proof (U_below base ltac:(set_solver)) as Hbase.
  assert (Hpin : (p, np) ∈ U) by (rewrite EU; set_solver). unfold U in Hpin. unfold HEADER in *.
  apply elem_of_cons in Hpin as [[= -> ->]|Hpin]; [lia|]. apply sel_in in Hpin.
  destruct (exists_last (l := L)) as (L' & b & E); [by intros E; rewrite E in Hpin; apply not_elem_of_nil in Hpin|].
  specialize (Hlast _ _ E). rewrite E in Hpin, HL. apply elem_of_app in Hpin as [Hpin|Hpin].
  - apply tiles_app in HL as (mid & HL & HR). cbn [tiles] in HR. destruct HR as (_ & Hb & <-).
    apply (tiles_in _ _ _ _ HL) in Hpin. cbn [b_at b_size] in Hpin. unfold HEADER in *. lia.
  - apply list_elem_of_singleton in Hpin as <-. done.
Qed.

Lemma chain_cons_hdr m0 a k l e : ptr m0 a = first l e -> size m0 a = k -> chain m0 l e -> chain m0 ((a, k) :: l) e.
Proof. done. Qed.

Lemma join_lower_apart U' p np m1 n' R' :
  U = U' ++ [(p, np)] -> upper_joined m1 n' R' -> (forall bs0 b, L = bs0 ++ [b] -> b_live b = true) ->
  heap_inv (Heap (set_ptr p bp m1) p (h_brk h)) (L ++ Block bp n' false :: R').
Proof using Hinv.
  intros EU Hup Hlast. pose proof (outside_set_ptr p bp m1) as Ho.
  pose proof (lower_U' _ _ _ _ _ _ _ EU Hup Ho) as HU'. pose proof (lower_V' _ _ _ _ _ _ _ EU Hup Ho) as HV'.
  pose proof (lower_live _ _ _ _ _ _ _ EU Hup Ho) as Hlive.
  destruct (free_ptr_p _ _ _ EU) as (_ & Es & Hp0 & Hp). destruct free_split as (HL & Hn & _).
  destruct free_size as (_ & Hend). destruct coalesced_R as (_ & HcL).
  destruct Hup as (Hob & Esb & Epb & Hn' & HR' & Hh & Hc & El & _). pose proof (hi_brk _ _ Hinv) as Hbrk.
  destruct (outside_header p _ _ bp Ho) as (E1 & E2); [lia|].
  destruct (outside_header bp _ _ p Hob) as (_ & E3); [lia|].
  pose proof (tiles_le _ _ _ HR'). unfold KERNBASE, HEADER in *.
  constructor; cbn [h_mem h_freep h_brk]; try apply Hinv.
  - apply tiles_app. exists bp. done.
  - apply coalesced_app. split; [done|]. split; [done|]. intros bs0 b E%Hlast. congruence.
  - rewrite sel_app. cbn [sel b_live eqb b_at b_size]. rewrite app_comm_cons. fold U. rewrite EU, <- app_assoc.
    apply chain_app. split; [done|]. cbn [app]. apply chain_cons_hdr; [by cbn [first]; apply ptr_set_ptr; lia|by rewrite size_set_ptr, E3|].
    apply chain_cons_hdr; [congruence..|done].
  - rewrite sel_app. apply (list_elem_of_fmap_2' fst (U ++ _) (p, np)); [|done]. rewrite EU. set_solver.
  - intros a k Hin. apply Hlive. rewrite sel_app in *. cbn [sel b_live eqb] in Hin. by rewrite El in Hin.
Qed.

Lemma join_lower_merge U' p np m1 n' R' L' :
  U = U' ++ [(p, np)] -> upper_joined m1 n' R' -> L = L' ++ [Block p np false] -> U' = (base, 0) :: free_of L' ->
  heap_inv (Heap (set_ptr p (ptr m1 bp) (set_size p (np + n') m1)) p (h_brk h)) (L' ++ Block p (np + n') false :: R').
Proof using Hinv.
  intros EU Hup EL EU'.
  assert (Ho : outside p m1 (set_ptr p (ptr m1 bp) (set_size p (np + n') m1))).
  { eapply outside_trans; [apply outside_set_size|apply outside_set_ptr]. }
  pose proof (lower_U' _ _ _ _ _ _ _ EU Hup Ho) as HU'. pose proof (lower_V' _ _ _ _ _ _ _ EU Hup Ho) as HV'.
  pose proof (lower_live _ _ _ _ _ _ _ EU Hup Ho) as Hlive.
  destruct free_split as (HL & _). destruct coalesced_R as (_ & HcL).
  destruct Hup as (Hob & Esb & Epb & Hn' & HR' & Hh & Hc & El & _). pose proof (hi_brk _ _ Hinv) as Hbrk.
  rewrite EL in HL, HcL, Hlive. apply tiles_app in HL as (mid & HL' & HP). cbn [tiles b_at b_size] in HP.
  destruct HP as (<- & Hnp & Ebp). apply coalesced_app in HcL as (HcL' & _ & Hj).
  pose proof (tiles_le _ _ _ HR'). pose proof (tiles_le _ _ _ HL'). pose proof (hi_low _ _ Hinv). unfold KERNBASE, HEADER in *.
  constructor; cbn [h_mem h_freep h_brk]; try apply Hinv.
  - apply tiles_app. exists p. split; [done|]. cbn [tiles b_at b_size]. split; [done|]. split; [lia|].
    unfold HEADER. by replace (p + 8 * (np + n')) with (bp + 8 * n') by lia.
  - apply coalesced_app. split; [done|]. split; [done|]. intros bs0 b E Hf. by specialize (Hj _ _ E Hf).
  - rewrite sel_app. cbn [sel b_live eqb b_at b_size]. rewrite app_comm_cons, <- EU'.
    apply chain_app. split; [done|]. apply chain_cons_hdr; [|by rewrite size_set_ptr, size_set_size by lia|done].
    rewrite ptr_set_ptr, Epb; [done|]. rewrite Epb. eapply first_range; unfold KERNBASE; [exact HR'|lia..].
  - rewrite sel_app. cbn [sel b_live eqb b_at b_size]. rewrite map_app. set_solver.
  - intros a k Hin. apply Hlive. rewrite !sel_app in *. cbn [sel b_live eqb] in *. rewrite El in Hin. by rewrite app_nil_r.
Qed.

Lemma join_lower_spec U' p np m1 n' R' : U = U' ++ [(p, np)] -> upper_joined m1 n' R' ->
  exists bs', heap_inv (Heap (join_lower m1 bp p) p (h_brk h)) bs' /\ live_of bs' = live_of (L ++ R) /\
    outside p m1 (join_lower m1 bp p) /\ (exists a k, (a, k) ∈ free_of bs' /\ n <= k) /\
    (length bs' <= S (length L + length R))%nat.
Proof using Hinv.
  intros EU Hup. pose proof (free_ptr_p _ _ _ EU) as (_ & Es & Hp0 & Hp). destruct free_split as (HL & Hn & _).
  pose proof Hup as (Hob & Esb & _ & Hn' & HR' & _ & _ & El & _ & Hnn & Hlen). pose proof (hi_brk _ _ Hinv) as Hbrk.
  destruct (outside_header bp _ _ p Hob) as (_ & E3); [lia|]. pose proof (tiles_le _ _ _ HR') as Hle.
  unfold join_lower. rewrite E3, Es, Esb. unfold unit_at, KERNBASE, HEADER in *.
  destruct last_free_or as [(L' & a & k & EL)|Hlast].
  - assert (E : U' = (base, 0) :: free_of L' /\ p = a /\ np = k).
    { unfold U in EU. rewrite EL, sel_app in EU. cbn [sel b_live eqb b_at b_size] in EU.
      rewrite app_comm_cons in EU. apply app_inj_tail in EU as (<- & [= -> ->]). done. }
    destruct E as (EU' & <- & <-). rewrite EL in HL. apply tiles_app in HL as (mid & _ & HP).
    cbn [tiles b_at b_size] in HP. destruct HP as (<- & Hnp & Ebp). unfold HEADER in *.
    rewrite u32_small, Ebp, Z.eqb_refl, (u32_small (np + n')) by lia.
    destruct (outside_header p _ _ bp (outside_set_size p (np + n') m1)) as (-> & _); [unfold HEADER; lia|].
    eexists. split; [by eapply join_lower_merge|]. rewrite EL, !sel_app. cbn [sel b_live eqb].
    split; [by rewrite El, app_nil_r|]. split; [eapply outside_trans; [apply outside_set_size|apply outside_set_ptr]|].
    split; [exists p, (np + n'); split; [set_solver|lia]|]. rewrite !length_app. simpl. lia.
  - pose proof (lower_gap _ _ _ EU Hlast) as Hgap. unfold HEADER in *.
    assert (0 <= np).
    { rewrite <- Es. apply load32_range. }
    rewrite u32_small by lia. destruct (Z.eqb_spec (p + 8 * np) bp); [lia|].
    eexists. split; [by eapply join_lower_apart|]. rewrite !sel_app. cbn [sel b_live eqb].
    split; [by rewrite El|]. split; [apply outside_set_ptr|].
    split; [exists bp, n'; split; [set_solver|lia]|]. rewrite !length_app. simpl. lia.
Qed.

(** Bytes of the blocks [live] that are the same in both memories. *)
Definition untouched (m m' : mem) (live : list (Z * Z)) : Prop :=
  forall a k x, (a, k) ∈ live -> a <= x < a + HEADER * k -> load8 m' x = load8 m x.

Lemma sel_length k bs : (length (sel k bs) <= length bs)%nat.
Proof. induction bs as [|b bs IH]; [done|]. cbn [sel length]. destruct (eqb _ _); simpl; lia. Qed.

Lemma free_spec fuel : (length L + length R < fuel)%nat ->
  exists h' bs', free (bp + HEADER) h fuel = Some h' /\ heap_inv h' bs' /\ live_of bs' = live_of (L ++ R) /\
    h_brk h' = h_brk h /\ untouched (h_mem h) (h_mem h') (live_of (L ++ R)) /\
    (exists a k, (a, k) ∈ free_of bs' /\ n <= k) /\ (length bs' <= S (length L + length R))%nat.
Proof using Hinv.
  intros Hf. destruct (free_finds fuel) as (U' & p & np & EU & Ep).
  { pose proof (sel_length false L). pose proof (sel_length false R). unfold U, V. simpl. rewrite length_app. lia. }
  destruct (join_upper_spec _ _ _ EU) as (n' & R' & Hup).
  destruct (join_lower_spec _ _ _ _ _ _ EU Hup) as (bs' & Hinv' & Elive & Ho & Hbig & Hlen).
  pose proof (free_ptr_p _ _ _ EU) as (_ & _ & Hp0 & Hp). destruct free_split as (HL & Hn & HR & _).
  destruct free_size as (_ & Hend). unfold free. rewrite Z.add_simpl_r. unfold KERNBASE, HEADER in *.
  rewrite u32_small by lia. fold m. rewrite Ep. eexists _, bs'. split; [done|]. cbn [h_mem h_brk]. split_and!; try done.
  intros a k x Hin Hx. destruct Hup as (Hob & _). rewrite sel_app, elem_of_app in Hin. unfold HEADER in *.
  assert (Hpin : (p, np) ∈ U) by (rewrite EU; set_solver). unfold U in Hpin. rewrite elem_of_cons in Hpin.
  pose proof (hi_low _ _ Hinv). unfold HEADER in *.
  rewrite (Ho x), (Hob x); unfold HEADER; [done|..].
  - destruct Hin as [Hin|Hin]; [apply (sel_range _ _ _ _ _ _ HL) in Hin|apply (sel_range _ _ _ _ _ _ HR) in Hin];
      unfold HEADER in *; lia.
  - destruct Hin as [Hin|Hin]; [|apply (sel_range _ _ _ _ _ _ HR) in Hin; unfold HEADER in *; lia].
    pose proof (sel_range _ _ _ _ _ _ HL Hin) as Hr. unfold HEADER in *.
    destruct Hpin as [[= -> ->]|Hpin]; [lia|]. pose proof (sel_range _ _ _ _ _ _ HL Hpin) as Hr'.
    apply sel_in in Hin, Hpin. eapply tiles_apart in HL; [|exact Hin|exact Hpin|done]. unfold HEADER in *. simpl in HL. lia.
Qed.
End free.

(** *** Taking a block *)

Lemma ring_sorted h bs : heap_inv h bs -> StronglySorted below ((base, 0) :: free_of bs).
Proof.
  intros [Hlow Ht _ _ _ _ _]. constructor; [by eapply sel_sorted|]. apply Forall_forall. intros [a k] Hin.
  apply (sel_range _ _ _ _ _ _ Ht) in Hin. unfold below, HEADER in *. simpl. lia.
Qed.

Lemma sorted_NoDup l : StronglySorted below l -> NoDup (map fst l).
Proof.
  induction 1 as [|[a k] l Hs IH Hall]; [constructor|]. cbn [map fst]. constructor; [|done].
  intros ([b j] & E & Hin)%list_elem_of_fmap. simpl in E. subst b. rewrite Forall_forall in Hall.
  specialize (Hall _ Hin). unfold below, HEADER in Hall. simpl in Hall. lia.
Qed.

Section take.
Context (h : heap) (L R : list block) (p sz : Z).
Context (Hinv : heap_inv h (L ++ Block p sz false :: R)).

Let m := h_mem h.
Let U := (base, 0) :: free_of L.
Let V := free_of R.

Lemma take_split : tiles heap0 L p /\ 0 < sz /\ tiles (p + HEADER * sz) R (h_brk h) /\ chain m U p /\
  ptr m p = first V base /\ size m p = sz /\ chain m V base.
Proof using Hinv.
  destruct Hinv as [Hlow Ht _ _ Hr _ _]. apply tiles_app in Ht as (mid & HL & HR). cbn [tiles b_at b_size] in HR.
  destruct HR as (<- & Hn & HR). rewrite sel_app in Hr. cbn [sel b_live eqb b_at b_size] in Hr.
  rewrite app_comm_cons, chain_app in Hr. cbn [chain first] in Hr.
  destruct Hr as (HU & Ep & Es & HV). done.
Qed.

Lemma take_ring : (base, 0) :: free_of (L ++ Block p sz false :: R) = U ++ (p, sz) :: V.
Proof. by rewrite sel_app. Qed.

(** The predecessor of the block in the ring is the last free block below. *)
Lemma take_pred prevp : prevp ∈ base :: map fst (free_of (L ++ Block p sz false :: R)) -> ptr m prevp = p ->
  exists U' k, U = U' ++ [(prevp, k)].
Proof using Hinv.
  intros Hin Hp. destruct take_split as (_ & _ & _ & HU & _). pose proof (hi_ring _ _ Hinv) as Hring.
  pose proof (sorted_NoDup _ (ring_sorted _ _ Hinv)) as Hnd.
  change (base :: map fst ?l) with (map fst ((base, 0) :: l)) in Hin. rewrite take_ring in *.
  destruct (exists_last (l := U)) as (U' & [t k] & EU); [done|]. exists U', k. rewrite EU. do 3 f_equal.
  assert (Ht : ptr m t = p) by (rewrite EU, chain_app in HU; by destruct HU as (_ & -> & _)).
  apply list_elem_of_fmap in Hin as ([q j] & -> & Hin). simpl in *.
  apply (chain_inj m (U ++ (p, sz) :: V) t q k j); [done|done| |done|congruence]. rewrite EU. set_solver.
Qed.

Lemma take_live_range a k : (a, k) ∈ live_of (L ++ R) ->
  0 < k /\ base + HEADER <= a /\ (a + HEADER * k <= p \/ p + HEADER * sz <= a).
Proof using Hinv.
  destruct take_split as (HL & Hsz & HR & _). rewrite sel_app, elem_of_app. pose proof (hi_low _ _ Hinv).
  pose proof (tiles_le _ _ _ HL). unfold HEADER in *.
  intros [Hin|Hin]; [apply (sel_range _ _ _ _ _ _ HL) in Hin|apply (sel_range _ _ _ _ _ _ HR) in Hin];
    unfold HEADER in *; lia.
Qed.

(** A live block is disjoint from the header of a free one. *)
Lemma take_live_free a k q j : (a, k) ∈ live_of (L ++ R) -> (q, j) ∈ U -> a + HEADER * k <= q \/ q + HEADER <= a.
Proof using Hinv.
  intros Hin Hq. destruct (take_live_range _ _ Hin) as (Hk & Hb & Ha). destruct take_split as (HL & Hsz & HR & _).
  unfold U in Hq. apply elem_of_cons in Hq as [[= -> ->]|Hq]; [unfold HEADER in *; lia|].
  pose proof (sel_range _ _ _ _ _ _ HL Hq) as Hr. rewrite sel_app, elem_of_app in Hin. unfold HEADER in *.
  destruct Hin as [Hin|Hin]; [|apply (sel_range _ _ _ _ _ _ HR) in Hin; unfold HEADER in *; lia].
  apply sel_in in Hin, Hq. eapply tiles_apart in HL; [|exact Hin|exact Hq|done]. unfold HEADER in *. simpl in HL. lia.
Qed.

Lemma take_live_size a k : (a, k) ∈ live_of (L ++ R) -> size m a = k.
Proof using Hinv.
  intros Hin. apply (hi_live _ _ Hinv). rewrite sel_app in *. cbn [sel b_live eqb]. done.
Qed.

Lemma take_exact prevp :
  prevp ∈ base :: map fst (free_of (L ++ Block p sz false :: R)) -> ptr m prevp = p ->
  heap_inv (Heap (set_ptr prevp (ptr m p) m) prevp (h_brk h)) (L ++ Block p sz true :: R) /\
  untouched m (set_ptr prevp (ptr m p) m) (live_of (L ++ R)).
Proof using Hinv.
  intros Hin Hp. destruct (take_pred prevp Hin Hp) as (U' & k & EU).
  destruct take_split as (HL & Hsz & HR & HU & Ep & Es & HV). pose proof (hi_low _ _ Hinv) as Hlow.
  pose proof (outside_set_ptr prevp (ptr m p) m) as Ho. pose proof (ring_sorted _ _ Hinv) as Hs. rewrite take_ring, EU in Hs.
  pose proof (hi_brk _ _ Hinv) as Hbrk. pose proof (tiles_le _ _ _ HL). pose proof (tiles_le _ _ _ HR).
  rewrite <- app_assoc in Hs. apply StronglySorted_app in Hs as (Hbelow & _ & Hs).
  apply StronglySorted_inv in Hs as (_ & Hs). rewrite Forall_forall in Hs. unfold below in Hs, Hbelow. cbn [fst app] in Hs, Hbelow.
  assert (Hpp : prevp + HEADER <= p) by (apply (Hs (p, sz)); set_solver).
  split.
  - constructor; cbn [h_mem h_freep h_brk]; try apply Hinv.
    + apply tiles_app. exists p. done.
    + pose proof (hi_coalesced _ _ Hinv) as Hc. apply coalesced_app in Hc as (Hc & (_ & Hc') & _).
      apply coalesced_app. split; [done|]. split; [done|]. done.
    + rewrite sel_app. cbn [sel b_live eqb]. rewrite app_comm_cons. fold U V. rewrite EU in HU |- *.
      rewrite <- app_assoc, chain_app. apply chain_app in HU as (HU' & (_ & Ek & _)). cbn [app]. split.
      { revert HU'. apply headers_frame, Forall_forall. intros [a j] Ha. eapply outside_header; [exact Ho|]. left.
        apply (Hbelow (a, j) (prevp, k)); [done|set_solver]. }
      apply chain_cons_hdr; [rewrite Ep; apply ptr_set_ptr|by rewrite size_set_ptr|].
      { unfold KERNBASE, HEADER in *. eapply first_range; unfold KERNBASE; [exact HR|lia..]. }
      revert HV. apply headers_frame, Forall_forall. intros [a j] Ha. eapply outside_header; [exact Ho|]. right.
      apply (Hs (a, j)). set_solver.
    + rewrite sel_app. cbn [sel b_live eqb]. apply (list_elem_of_fmap_2' fst (U ++ V) (prevp, k)); [|done].
      rewrite EU. set_solver.
    + intros a j Ha. assert (Hcase : (a, j) = (p, sz) \/ (a, j) ∈ live_of (L ++ R)).
      { rewrite sel_app in *. cbn [sel b_live eqb b_at b_size] in Ha. set_solver. }
      destruct Hcase as [[= -> ->]|Hl].
      * rewrite <- Es. eapply outside_header; [exact Ho|by right].
      * rewrite <- (take_live_size _ _ Hl). eapply outside_header; [exact Ho|].
        pose proof (take_live_range _ _ Hl) as (Hj & _).
        destruct (take_live_free a j prevp k Hl) as [|]; [rewrite EU; set_solver| |by right]. left. unfold HEADER in *. lia.
  - intros a j x Hl Hx. apply Ho. destruct (take_live_free a j prevp k Hl) as [|]; [rewrite EU; set_solver|lia..].
Qed.

Section part.
Context (nunits prevp : Z).
Context (Hn : 0 < nunits < sz).
Context (Hprev : prevp ∈ base :: map fst (free_of (L ++ Block p sz false :: R))).

Let q := p + HEADER * (sz - nunits).
Let m' := set_size q nunits (set_size p (sz - nunits) m).

Lemma part_outside x : x < p \/ p + HEADER * sz <= x -> load8 m' x = load8 m x.
Proof using Hinv Hn.
  intros Hx. unfold m'. rewrite (outside_set_size q), (outside_set_size p); [done|..]; subst q; unfold HEADER in *; lia.
Qed.

Lemma part_header a : a + HEADER <= p \/ p + HEADER * sz <= a -> same_header m m' a.
Proof using Hinv Hn.
  intros Ha. unfold same_header, ptr, size. rewrite !load32_load8. unfold HEADER in *.
  split; rewrite !part_outside by (unfold HEADER; lia); done.
Qed.

Lemma take_part :
  heap_inv (Heap m' prevp (h_brk h)) (L ++ Block p (sz - nunits) false :: Block q nunits true :: R) /\
  untouched m m' (live_of (L ++ R)).
Proof using Hinv Hn Hprev.
  destruct take_split as (HL & Hsz & HR & HU & Ep & Es & HV). pose proof (hi_low _ _ Hinv) as Hlow.
  pose proof (hi_brk _ _ Hinv) as Hbrk. pose proof (tiles_le _ _ _ HL). pose proof (tiles_le _ _ _ HR).
  pose proof (ring_sorted _ _ Hinv) as Hs. rewrite take_ring in Hs. apply StronglySorted_app in Hs as (Hbelow & _ & _).
  destruct (outside_header q (set_size p (sz - nunits) m) m' p) as (Ep' & Es').
  { apply outside_set_size. } { subst q. unfold HEADER. lia. }
  split; [|intros a j x Hl Hx; apply part_outside; pose proof (take_live_range _ _ Hl); lia].
  constructor; cbn [h_mem h_freep h_brk]; try apply Hinv.
  - apply tiles_app. exists p. cbn [tiles b_at b_size]. split; [done|]. split; [done|]. split; [lia|]. subst q.
    split; [done|]. split; [lia|]. by replace (p + _ + _) with (p + HEADER * sz) by (unfold HEADER; lia).
  - pose proof (hi_coalesced _ _ Hinv) as Hc. apply coalesced_app in Hc as (Hc & (_ & Hc') & Hj).
    apply coalesced_app. split; [done|]. split; [done|exact Hj].
  - rewrite sel_app. cbn [sel b_live eqb b_at b_size]. rewrite app_comm_cons. apply chain_app. fold U V. split.
    + revert HU. apply headers_frame, Forall_forall. intros [a j] Ha. apply part_header. left.
      apply (Hbelow (a, j) (p, sz)); [done|set_solver].
    + unfold KERNBASE, HEADER in *.
      apply chain_cons_hdr; [by rewrite Ep', ptr_set_size|by rewrite Es', size_set_size by lia|].
      revert HV. apply headers_frame, Forall_forall. intros [a j] Ha. apply part_header. right.
      apply (sel_range _ _ _ _ _ _ HR) in Ha. unfold HEADER. simpl. lia.
  - rewrite sel_app in *. cbn [sel b_live eqb b_at b_size] in *. rewrite map_app in *. exact Hprev.
  - intros a j Ha. assert (Hcase : (a, j) = (q, nunits) \/ (a, j) ∈ live_of (L ++ R)).
    { rewrite sel_app in *. cbn [sel b_live eqb b_at b_size] in Ha. set_solver. }
    destruct Hcase as [[= -> ->]|Hl]; [apply size_set_size; unfold KERNBASE, HEADER in *; lia|].
    rewrite <- (take_live_size _ _ Hl). pose proof (take_live_range _ _ Hl). apply part_header. unfold HEADER in *. lia.
Qed.
End part.
End take.

(** A block that is large enough, taken out of the ring behind [prevp]. *)
Lemma take_block_spec h bs prevp p sz nunits :
  heap_inv h bs -> prevp ∈ base :: map fst (free_of bs) -> ptr (h_mem h) prevp = p -> (p, sz) ∈ free_of bs ->
  0 < nunits <= sz ->
  exists a h' bs', take_block nunits prevp p h = (a + HEADER, h') /\ heap_inv h' bs' /\
    live_of bs' ≡ₚ (a, nunits) :: live_of bs /\ h_brk h' = h_brk h /\ untouched (h_mem h) (h_mem h') (live_of bs).
Proof.
  intros Hinv Hprev Hp (L & R & ->)%sel_in%list_elem_of_split Hn.
  pose proof (take_split _ _ _ _ _ Hinv) as (HL & Hsz & HR & _ & _ & Es & _).
  pose proof (hi_brk _ _ Hinv) as Hbrk. pose proof (tiles_le _ _ _ HL). pose proof (tiles_le _ _ _ HR).
  pose proof (hi_low _ _ Hinv) as Hlow. unfold take_block. rewrite Es.
  assert (El : live_of (L ++ Block p sz false :: R) = live_of (L ++ R)) by by rewrite !sel_app.
  rewrite El. unfold KERNBASE, HEADER in *. destruct (Z.eqb_spec sz nunits) as [->|Hne].
  - destruct (take_exact _ _ _ _ _ Hinv prevp Hprev Hp) as (Hinv' & Hun). exists p.
    eexists _, _. split; [f_equal; unfold unit_at, HEADER; rewrite u32_small; lia|]. split; [exact Hinv'|].
    split; [|done]. rewrite !sel_app. cbn [sel b_live eqb b_at b_size]. symmetry. apply Permutation_middle.
  - destruct (take_part _ _ _ _ _ Hinv nunits prevp ltac:(lia) Hprev) as (Hinv' & Hun).
    exists (p + 8 * (sz - nunits)). unfold unit_at, HEADER. rewrite size_set_size by lia.
    rewrite (u32_small (p + _)), (u32_small (_ + 8 * 1)) by lia.
    eexists _, _. split; [f_equal; lia|]. split; [exact Hinv'|]. split; [|done].
    rewrite !sel_app. cbn [sel b_live eqb b_at b_size]. symmetry. apply Permutation_middle.
Qed.

(** *** What a client sees *)

(** The ring entered behind freep. *)
Lemma ring_enter h bs : heap_inv h bs ->
  exists l k e, (base, 0) :: free_of bs ≡ₚ l ++ [(h_freep h, k)] /\ chain (h_mem h) (l ++ [(h_freep h, k)]) e /\
    ptr (h_mem h) (h_freep h) = first (l ++ [(h_freep h, k)]) e.
Proof.
  intros Hinv. pose proof (hi_ring _ _ Hinv) as Hr. pose proof (hi_freep _ _ Hinv) as Hf.
  apply (list_elem_of_fmap_1 fst ((base, 0) :: free_of bs)) in Hf as ([f k] & Ef & (X & Y & E)%list_elem_of_split).
  simpl in Ef. subst f. change base with (first ((base, 0) :: free_of bs) 0) in Hr at 2. rewrite E in *.
  apply chain_rotate in Hr. exists (Y ++ X), k, (first ((Y ++ X) ++ [(h_freep h, k)]) 0).
  change (((h_freep h, k) :: Y) ++ X) with ([(h_freep h, k)] ++ (Y ++ X)) in Hr. pose proof Hr as Hr2.
  apply chain_rotate in Hr. split; [|split; [done|]].
  - rewrite (Permutation_app_comm (Y ++ X)), Permutation_app_comm. done.
  - cbn [app chain] in Hr2. destruct Hr2 as (-> & _). rewrite !first_app. by destruct Y as [|[]]; [destruct X as [|[]]|].
Qed.

Lemma freep_pos h bs : heap_inv h bs -> 0 < h_freep h.
Proof.
  intros Hinv. pose proof (hi_freep _ _ Hinv) as Hf. pose proof (hi_low _ _ Hinv). unfold HEADER in *.
  apply elem_of_cons in Hf as [->|([b j] & -> & Hb)%list_elem_of_fmap]; [lia|].
  apply (sel_range _ _ _ _ _ _ (hi_tiles _ _ Hinv)) in Hb. simpl. lia.
Qed.

(** What a call of malloc for [nunits] units may do. *)
Definition malloced (h : heap) (bs : list block) (nunits : Z) (res : Z * heap) : Prop :=
  let '(r, h') := res in
  exists bs', heap_inv h' bs' /\ untouched (h_mem h) (h_mem h') (live_of bs) /\
    ((r = 0 /\ live_of bs' = live_of bs /\ forall a k, (a, k) ∈ free_of bs -> k < nunits) \/
     (exists a, r = a + HEADER /\ live_of bs' ≡ₚ (a, nunits) :: live_of bs)).

(** One search that finds a block. *)
Lemma malloc_found h bs h1 bs1 prevp p sz nunits l k :
  heap_inv h1 bs1 -> live_of bs1 = live_of bs -> untouched (h_mem h) (h_mem h1) (live_of bs) ->
  (base, 0) :: free_of bs1 ≡ₚ l ++ [(h_freep h1, k)] -> (p, sz) ∈ l ++ [(h_freep h1, k)] -> 0 < nunits <= sz ->
  ptr (h_mem h1) prevp = p -> prevp = h_freep h1 \/ prevp ∈ map fst l ->
  malloced h bs nunits (take_block nunits prevp p h1).
Proof.
  intros Hinv El Hun Hperm Hin Hn Hp Hor.
  assert (Hfree : (p, sz) ∈ free_of bs1).
  { rewrite <- Hperm in Hin. apply elem_of_cons in Hin as [[= -> ->]|]; [lia|done]. }
  assert (Hprev : prevp ∈ base :: map fst (free_of bs1)).
  { change (base :: map fst ?l) with (map fst ((base, 0) :: l)). rewrite Hperm, map_app. set_solver. }
  destruct (take_block_spec _ _ _ _ _ _ Hinv Hprev Hp Hfree Hn) as (a & h' & bs' & -> & Hinv' & Hlive & _ & Hun').
  unfold malloced. exists bs'. split; [done|]. rewrite El in *. split; [|right; eauto].
  intros b j x Hb Hx. by rewrite (Hun' b j x Hb Hx), (Hun b j x Hb Hx).
Qed.

(** Before the first call freep is the null pointer. *)
Definition fresh (h : heap) : Prop :=
  h_freep h = 0 /\ h_brk h = heap0 /\ heap0 <= KERNBASE /\ 0 < base /\ base + HEADER <= heap0.

(** The live blocks of a heap in a state that the allocator leaves. *)
Definition heap_ok (h : heap) (live : list (Z * Z)) : Prop :=
  (fresh h /\ live = []) \/ (exists bs, heap_inv h bs /\ live_of bs ≡ₚ live).

(** Steps enough for two tours of the ring. *)
Definition heap_fuel (h : heap) : nat := Z.to_nat (2 * ((h_brk h - heap0) / HEADER) + 4).

Definition units (nbytes : Z) : Z := (nbytes + 7) / 8 + 1.

Lemma tiles_length lo bs hi : tiles lo bs hi -> HEADER * Z.of_nat (length bs) <= hi - lo.
Proof.
  revert lo. induction bs as [|b bs IH]; intros lo; cbn [tiles length]; [lia|]. intros (_ & Hn & H%IH).
  unfold HEADER in *. lia.
Qed.

Lemma heap_fuel_enough h bs : heap_inv h bs -> (2 * length bs + 3 <= heap_fuel h)%nat.
Proof.
  intros Hinv. pose proof (tiles_length _ _ _ (hi_tiles _ _ Hinv)) as H. unfold heap_fuel, HEADER in *.
  assert (Z.of_nat (length bs) <= (h_brk h - heap0) / 8) by (apply Z.div_le_lower_bound; lia). lia.
Qed.

Lemma malloc_first h : fresh h ->
  heap_inv (Heap (set_size base 0 (set_ptr base base (h_mem h))) base (h_brk h)) [].
Proof.
  intros (_ & Hbrk & Hk & Hb). unfold KERNBASE, HEADER in *.
  constructor; cbn [h_mem h_freep h_brk sel]; unfold KERNBASE, HEADER; try done.
  - lia.
  - cbn [chain first]. rewrite ptr_set_size, ptr_set_ptr, size_set_size by lia. done.
  - set_solver.
  - set_solver.
Qed.

(** What malloc leaves for the client. *)
Definition malloc_result (nbytes : Z) (live : list (Z * Z)) (h h' : heap) (r : Z) : Prop :=
  untouched (h_mem h) (h_mem h') live /\
  ((r = 0 /\ heap_ok h' live) \/
   (r <> 0 /\ nbytes <= HEADER * (units nbytes - 1) /\ heap_ok h' ((r - HEADER, units nbytes) :: live))).

Lemma untouched_perm m m' l l' : l ≡ₚ l' -> untouched m m' l -> untouched m m' l'.
Proof. intros Hp H a k x Hin. apply (H a k x). by rewrite Hp. Qed.

Lemma malloced_result nbytes h bs live r h' :
  0 <= nbytes -> live_of bs ≡ₚ live -> malloced h bs (units nbytes) (r, h') -> malloc_result nbytes live h h' r.
Proof.
  intros Hn Hl (bs' & Hinv & Hun & Hor). split; [by eapply untouched_perm|].
  destruct Hor as [(-> & El & _)|(a & -> & El)]; [left|right].
  - split; [done|]. right. exists bs'. by rewrite El.
  - split; [|split].
    + assert (Ha : (a, units nbytes) ∈ live_of bs') by (rewrite El; set_solver).
      apply (sel_range _ _ _ _ _ _ (hi_tiles _ _ Hinv)) in Ha. pose proof (hi_low _ _ Hinv). unfold HEADER in *. lia.
    + unfold units, HEADER. zlia.
    + right. exists bs'. split; [done|]. rewrite El, Hl, Z.add_simpl_r. done.
Qed.

Lemma free_ok h live live' a n :
  heap_ok h live -> live ≡ₚ (a, n) :: live' ->
  exists h', free (a + HEADER) h (heap_fuel h) = Some h' /\ heap_ok h' live' /\ untouched (h_mem h) (h_mem h') live'.
Proof.
  intros [(_ & ->)|(bs & Hinv & Hl)] Hp; [by apply Permutation_nil_cons in Hp|].
  assert (Hin : (a, n) ∈ live_of bs) by (rewrite Hl, Hp; set_solver).
  apply sel_in, list_elem_of_split in Hin as (L & R & ->). pose proof (heap_fuel_enough _ _ Hinv) as Hf.
  rewrite length_app in Hf. simpl in Hf.
  destruct (free_spec _ _ _ _ _ Hinv (heap_fuel h)) as (h' & bs' & E & Hinv' & El & _ & Hun & _); [lia|].
  assert (Hl' : live_of (L ++ R) ≡ₚ live').
  { apply (Permutation_cons_inv (a := (a, n))). rewrite <- Hp, <- Hl, !sel_app. cbn [sel b_live eqb b_at b_size].
    apply Permutation_middle. }
  exists h'. split; [done|]. split; [right; exists bs'; by rewrite El|by eapply untouched_perm].
Qed.

(** Whatever happens to the bytes of a live block, the heap is as before. *)
Lemma touch_ok h live a n m' :
  heap_ok h live -> (a, n) ∈ live ->
  (forall x, ~ (a + HEADER <= x < a + HEADER * n) -> load8 m' x = load8 (h_mem h) x) ->
  heap_ok (Heap m' (h_freep h) (h_brk h)) live.
Proof.
  intros [(_ & ->)|(bs & Hinv & Hl)] Hin Hm; [by apply not_elem_of_nil in Hin|]. right. exists bs. split; [|done].
  rewrite <- Hl in Hin. pose proof (hi_tiles _ _ Hinv) as Ht. pose proof (hi_low _ _ Hinv) as Hlow.
  pose proof (sel_range _ _ _ _ _ _ Ht Hin) as Hr. apply sel_in in Hin. unfold HEADER in *.
  assert (Hw : forall x, x + 4 <= a + 8 \/ a + 8 * n <= x -> load32 m' x = load32 (h_mem h) x).
  { intros x Hx. rewrite !load32_load8. by rewrite !Hm by lia. }
  assert (Hhdr : forall b j live', Block b j live' ∈ bs -> same_header (h_mem h) m' b).
  { intros b j live' Hb. pose proof (tiles_in _ _ _ _ Ht Hb) as Hj. cbn [b_at b_size] in Hj. unfold HEADER in *.
    destruct (decide (Block b j live' = Block a n true)) as [[= -> -> ->]|Hne].
    - split; apply Hw; lia.
    - pose proof (tiles_apart _ _ _ _ _ Ht Hb Hin Hne) as Hd. cbn [b_at b_size] in Hd. unfold HEADER in *.
      split; apply Hw; lia. }
  destruct Hinv as [H1 H2 H3 H4 H5 H6 H7]. constructor; cbn [h_mem h_freep h_brk]; try done.
  - revert H5. apply headers_frame. constructor; [split; apply Hw; simpl; lia|].
    apply Forall_forall. intros [b j] Hb%sel_in. by eapply Hhdr.
  - intros b j Hb. rewrite <- (H7 b j Hb). apply sel_in in Hb. by destruct (Hhdr _ _ _ Hb).
Qed.

(** The client writes a byte of a live block. *)
Lemma write_ok h live a n x v :
  heap_ok h live -> (a, n) ∈ live -> a + HEADER <= x < a + HEADER * n ->
  heap_ok (Heap (store8 (h_mem h) x v) (h_freep h) (h_brk h)) live.
Proof.
  intros Hok Hin Hx. eapply touch_ok; [exact Hok|exact Hin|]. intros y Hy. rewrite load8_store8.
  by rewrite (proj2 (Z.eqb_neq _ _)) by lia.
Qed.

(** Live blocks lie in the heap and do not overlap. *)
Lemma heap_ok_disjoint h live : heap_ok h live ->
  Forall (fun b => heap0 <= fst b /\ fst b + HEADER * snd b <= h_brk h) live /\
  forall i j a n b k, live !! i = Some (a, n) -> live !! j = Some (b, k) -> i <> j ->
    a + HEADER * n <= b \/ b + HEADER * k <= a.
Proof.
  intros [(_ & ->)|(bs & Hinv & Hl)]; [split; [constructor|done]|]. pose proof (hi_tiles _ _ Hinv) as Ht. split.
  - rewrite <- Hl. apply Forall_forall. intros [a n] Hin%(sel_range _ _ _ _ _ _ Ht). simpl. lia.
  - intros i j a n b k Hi Hj Hne. pose proof (sorted_NoDup _ (sel_sorted true _ _ _ Ht)) as Hnd. rewrite Hl in Hnd.
    assert (Hab : a <> b).
    { intros ->. apply Hne. eapply NoDup_lookup; [exact Hnd|rewrite list_lookup_fmap, Hi; done|by rewrite list_lookup_fmap, Hj]. }
    apply list_elem_of_lookup_2 in Hi, Hj. rewrite <- Hl in Hi, Hj. apply sel_in in Hi, Hj.
    eapply (tiles_apart _ _ _ _ _ Ht Hi Hj). congruence.
Qed.

(** Free always returns, takes its block out of the live ones, and changes
    no byte of the others; the free blocks are coalesced again, so that the heap
    is tiled as before. *)
Theorem free_correct h live live' a n :
  heap_ok h live -> live ≡ₚ (a, n) :: live' ->
  exists h', free (a + HEADER) h (heap_fuel h) = Some h' /\ heap_ok h' live' /\
    untouched (h_mem h) (h_mem h') live'.
Proof. apply free_ok. Qed.

(** *** Searching and growing *)

Section malloc.
Context (sbrk : Z -> heap -> option heap).
(** What sbrk does when the kernel grants it: the data of the process end
    further up, below the kernel, and what was there stays. *)
Context (sbrk_grows : forall n h h', 0 <= n -> sbrk n h = Some h' ->
  h_brk h' = h_brk h + n /\ h_brk h' <= KERNBASE /\ h_freep h' = h_freep h /\
  forall x, x < h_brk h -> load8 (h_mem h') x = load8 (h_mem h) x).

Lemma malloc_walk nunits h l e k prevp ring fuel :
  chain (h_mem h) (l ++ [(h_freep h, k)]) e -> NoDup (map fst (l ++ [(h_freep h, k)])) ->
  ptr (h_mem h) prevp = first (l ++ [(h_freep h, k)]) e -> (S (length l) <= fuel)%nat ->
  (exists prevp' p sz, (p, sz) ∈ l ++ [(h_freep h, k)] /\ nunits <= sz /\ ptr (h_mem h) prevp' = p /\
     (prevp' = prevp \/ prevp' ∈ map fst l) /\
     malloc_loop sbrk nunits prevp (ptr (h_mem h) prevp) h ring fuel = Some (take_block nunits prevp' p h)) \/
  (Forall (fun b => snd b < nunits) (l ++ [(h_freep h, k)]) /\
   malloc_loop sbrk nunits prevp (ptr (h_mem h) prevp) h ring fuel =
   match morecore sbrk nunits h ring with
   | None => None
   | Some (p, h) =>
       if p =? 0 then Some (0, h) else malloc_loop sbrk nunits p (ptr (h_mem h) p) h ring (fuel - S (length l))
   end).
Proof.
  revert prevp fuel. induction l as [|[a n] l IH]; intros prevp fuel Hc Hnd Hp Hf; (destruct fuel as [|fuel]; [simpl in Hf; lia|]);
    cbn [app chain first map fst] in *; destruct Hc as (Ea & Es & Hc); rewrite Hp; cbn [malloc_loop]; rewrite Es.
  - destruct (Z.leb_spec nunits k); [left; exists prevp, (h_freep h), k; split; [by apply elem_of_cons; left|by eauto 10]|right].
    rewrite Z.eqb_refl. split; [by repeat constructor|]. cbn [length]. by rewrite Nat.sub_succ, Nat.sub_0_r.
  - apply NoDup_cons in Hnd as (Hni & Hnd).
    destruct (Z.leb_spec nunits n); [left; exists prevp, a, n; split; [by apply elem_of_cons; left|by eauto 10]|].
    destruct (Z.eqb_spec a (h_freep h)) as [->|_]; [destruct Hni; rewrite map_app; apply elem_of_app; right; by apply elem_of_cons; left|].
    destruct (IH a fuel Hc Hnd Ea) as [(prevp' & p & sz & Hin & Hle & Hpp & Hor & E)|(Hall & E)]; [simpl in *; lia| |].
    + left. exists prevp', p, sz. split; [by apply elem_of_cons; right|]. split; [done|]. split; [done|].
      split; [|done]. right. apply elem_of_cons. destruct Hor as [->|]; [by left|by right].
    + right. split; [by constructor|]. rewrite E. done.
Qed.

(** The heap with the new memory as one more live block. *)
Lemma heap_grow h h1 bs nu :
  heap_inv h bs -> 0 < nu < 268435456 -> sbrk (nu * 8) h = Some h1 ->
  let h2 := Heap (set_size (h_brk h) nu (h_mem h1)) (h_freep h1) (h_brk h1) in
  heap_inv h2 (bs ++ Block (h_brk h) nu true :: []) /\ h_brk h + HEADER * nu <= KERNBASE /\
  forall x, x < h_brk h -> load8 (h_mem h2) x = load8 (h_mem h) x.
Proof using sbrk_grows.
  intros Hinv Hnu Es h2. destruct (sbrk_grows (nu * 8) h h1) as (Ebrk & Hbrk & Efp & Hmem); [lia|done|].
  assert (Hhdr : forall x, x < h_brk h -> load8 (h_mem h2) x = load8 (h_mem h) x).
  { intros x Hx. subst h2. cbn [h_mem]. rewrite (outside_set_size (h_brk h)) by lia. by apply Hmem. }
  pose proof (hi_tiles _ _ Hinv) as Ht. pose proof (tiles_le _ _ _ Ht) as Hle.
  assert (Hsame : forall a, a + HEADER <= h_brk h -> same_header (h_mem h) (h_mem h2) a).
  { intros a Ha. unfold same_header, ptr, size. rewrite !load32_load8. unfold HEADER in Ha.
    split; rewrite !Hhdr by lia; done. }
  pose proof (hi_low _ _ Hinv) as Hlow. unfold KERNBASE, HEADER in *. split; [|split; [lia|done]].
  constructor; subst h2; cbn [h_mem h_freep h_brk]; rewrite ?sel_app; cbn [sel b_live eqb b_at b_size]; rewrite ?app_nil_r;
    unfold KERNBASE, HEADER; try done.
  - apply tiles_app. exists (h_brk h). split; [done|]. cbn. unfold HEADER. lia.
  - apply coalesced_app. split; [apply Hinv|]. done.
  - pose proof (hi_ring _ _ Hinv) as Hr. revert Hr. apply headers_frame, Forall_forall. intros [a k] Ha.
    apply Hsame. simpl. apply elem_of_cons in Ha as [[= -> ->]|Ha]; [lia|].
    apply (sel_range _ _ _ _ _ _ Ht) in Ha. unfold HEADER in *. lia.
  - rewrite Efp. apply Hinv.
  - intros a k [Ha|Ha]%elem_of_app.
    + rewrite <- (hi_live _ _ Hinv a k Ha). apply Hsame. apply (sel_range _ _ _ _ _ _ Ht) in Ha. unfold HEADER in *. lia.
    + apply list_elem_of_singleton in Ha as [= -> ->]. apply size_set_size. lia.
Qed.

Lemma morecore_spec nunits h bs ring :
  heap_inv h bs -> 0 < nunits < 268435456 -> (length bs < ring)%nat ->
  morecore sbrk nunits h ring = Some (0, h) \/
  exists h' bs', morecore sbrk nunits h ring = Some (h_freep h', h') /\ heap_inv h' bs' /\
    live_of bs' = live_of bs /\ untouched (h_mem h) (h_mem h') (live_of bs) /\
    (exists a k, (a, k) ∈ free_of bs' /\ nunits <= k) /\ (length bs' <= S (length bs))%nat.
Proof using sbrk_grows.
  intros Hinv Hn Hring. unfold morecore. set (nu := if nunits <? 4096 then 4096 else nunits).
  assert (Hnu : nunits <= nu < 268435456 /\ 0 < nu) by (unfold nu; destruct (Z.ltb_spec nunits 4096); lia).
  assert (Earg : s32 (u32 (nu * HEADER)) = nu * 8) by (unfold HEADER; rewrite u32_small, s32_small; lia).
  rewrite !Earg. destruct (sbrk (nu * 8) h) as [h1|] eqn:Es; [right|by left].
  destruct (heap_grow h h1 bs nu) as (Hinv2 & Hbrk & Hmem); [done|lia|done|].
  pose proof (hi_tiles _ _ Hinv) as Ht. pose proof (tiles_le _ _ _ Ht) as Hle. pose proof (hi_low _ _ Hinv) as Hlow.
  destruct (free_spec _ bs [] (h_brk h) nu Hinv2 ring) as (h' & bs' & E & Hinv' & Elive & _ & Hun & (a & k & Ha & Hk) & Hlen);
    [simpl; lia|].
  rewrite app_nil_r in *. exists h', bs'. unfold unit_at, KERNBASE, HEADER in *. rewrite u32_small by lia.
  replace (8 * 1) with 8 by lia. rewrite E. split_and!; [done|done|done| |exists a, k; split; [done|lia]|simpl in *; lia].
  intros b j x Hb Hx. rewrite (Hun b j x Hb Hx). apply Hmem. apply (sel_range _ _ _ _ _ _ Ht) in Hb.
  unfold HEADER in *. lia.
Qed.

Lemma malloc_loop_spec nunits h bs ring fuel :
  heap_inv h bs -> 0 < nunits < 268435456 -> (length bs < ring)%nat -> (2 * length bs + 3 <= fuel)%nat ->
  exists res, malloc_loop sbrk nunits (h_freep h) (ptr (h_mem h) (h_freep h)) h ring fuel = Some res /\
    malloced h bs nunits res.
Proof using sbrk_grows.
  intros Hinv Hn Hring Hfuel. destruct (ring_enter h bs Hinv) as (l & k & e & Hperm & Hc & Hp).
  pose proof (sorted_NoDup _ (ring_sorted _ _ Hinv)) as Hnd. rewrite Hperm in Hnd.
  pose proof (sel_length false bs) as Hpl. pose proof (Permutation_length Hperm) as Hlen. rewrite length_app in Hlen. simpl in Hlen.
  destruct (malloc_walk nunits h l e k (h_freep h) ring fuel Hc Hnd Hp ltac:(lia))
    as [(prevp & p & sz & Hin & Hle & Hpp & Hor & E)|(Hall & E)].
  { rewrite E. eexists. split; [done|]. eapply malloc_found; eauto; [by intros ????|lia]. }
  rewrite E. rewrite <- Hperm in Hall.
  destruct (morecore_spec nunits h bs ring Hinv Hn Hring) as [Em|(h1 & bs1 & Em & Hinv1 & El & Hun & Hbig & Hlen1)]; rewrite Em.
  { eexists. split; [done|]. exists bs. split; [done|]. split; [by intros ????|]. left. split_and!; [done|done|].
    intros a j Ha. rewrite Forall_forall in Hall. by apply (Hall (a, j)), elem_of_cons; right. }
  pose proof (freep_pos _ _ Hinv1). destruct (Z.eqb_spec (h_freep h1) 0); [lia|].
  destruct (ring_enter h1 bs1 Hinv1) as (l1 & k1 & e1 & Hperm1 & Hc1 & Hp1).
  pose proof (sorted_NoDup _ (ring_sorted _ _ Hinv1)) as Hnd1. rewrite Hperm1 in Hnd1.
  pose proof (sel_length false bs1) as Hpl1. pose proof (Permutation_length Hperm1) as Hlen2. rewrite length_app in Hlen2. simpl in Hlen2.
  destruct (malloc_walk nunits h1 l1 e1 k1 (h_freep h1) ring (fuel - S (length l)) Hc1 Hnd1 Hp1 ltac:(lia))
    as [(prevp & p & sz & Hin & Hle & Hpp & Hor & E1)|(Hall1 & _)].
  { rewrite E1. eexists. split; [done|]. eapply malloc_found; eauto. lia. }
  destruct Hbig as (a & j & Ha & Hj). rewrite <- Hperm1, Forall_forall in Hall1.
  specialize (Hall1 (a, j)). rewrite elem_of_cons in Hall1. specialize (Hall1 (or_intror Ha)). simpl in Hall1. lia.
Qed.

Lemma malloc_ok h live nbytes :
  heap_ok h live -> 0 <= nbytes <= 2147483600 ->
  exists r h', malloc base sbrk nbytes h (heap_fuel h) = Some (r, h') /\ malloc_result nbytes live h h' r.
Proof using sbrk_grows.
  intros Hok Hn. unfold malloc. replace (u32 (nbytes + HEADER - 1) / HEADER + 1) with (units nbytes)
    by (unfold units, HEADER; rewrite u32_small by lia; do 2 f_equal; lia).
  assert (Hu : 0 < units nbytes < 268435456) by (unfold units; zlia).
  destruct Hok as [(Hf & ->)|(bs & Hinv & Hl)].
  - rewrite (proj1 Hf), Z.eqb_refl. pose proof (malloc_first h Hf) as Hinv.
    destruct (malloc_loop_spec (units nbytes) _ [] (heap_fuel h) (heap_fuel h) Hinv Hu) as ([r h'] & E & Hr);
      [pose proof (heap_fuel_enough _ _ Hinv); unfold heap_fuel in *; simpl in *; lia..|].
    exists r, h'. split; [exact E|]. eapply malloced_result in Hr; [|lia|done]. destruct Hr as (_ & Hr).
    split; [|done]. intros a k x Hin. by apply not_elem_of_nil in Hin.
  - pose proof (freep_pos _ _ Hinv). destruct (Z.eqb_spec (h_freep h) 0); [lia|].
    pose proof (heap_fuel_enough _ _ Hinv) as Hfuel.
    destruct (malloc_loop_spec (units nbytes) h bs (heap_fuel h) (heap_fuel h) Hinv Hu) as ([r h'] & E & Hr); [lia..|].
    exists r, h'. split; [exact E|]. eapply malloced_result; eauto. lia.
Qed.

(** Malloc always returns.  For a request below 2 GB it gives the null
    pointer and leaves the live blocks as they were, or a new block inside the
    heap with room for the bytes asked for, apart from every live block; no byte
    of a live block changes. *)
Theorem malloc_correct h live nbytes :
  heap_ok h live -> 0 <= nbytes <= 2147483600 ->
  exists r h', malloc base sbrk nbytes h (heap_fuel h) = Some (r, h') /\ untouched (h_mem h) (h_mem h') live /\
    ((r = 0 /\ heap_ok h' live) \/
     (heap0 + HEADER <= r /\ r + nbytes <= h_brk h' /\ heap_ok h' ((r - HEADER, units nbytes) :: live) /\
      forall a n, (a, n) ∈ live -> a + HEADER * n <= r - HEADER \/ r + nbytes <= a)).
Proof using sbrk_grows.
  intros Hok Hn. destruct (malloc_ok h live nbytes Hok Hn) as (r & h' & E & Hun & Hr).
  exists r, h'. split; [done|]. split; [done|]. destruct Hr as [Hr|(Hr & Hroom & Hok')]; [by left|right].
  destruct (heap_ok_disjoint h' _ Hok') as (Hin & Hd). apply Forall_inv in Hin. cbn [fst snd] in Hin. unfold HEADER in *.
  split; [lia|]. split; [lia|]. split; [done|]. intros a n (i & Hi)%list_elem_of_lookup.
  specialize (Hd 0%nat (S i) (r - 8) (units nbytes) a n eq_refl Hi ltac:(done)). lia.
Qed.

(** A program that uses the heap: it allocates, frees what it holds, and writes
    into what it holds. *)
Inductive heap_run : heap -> list (Z * Z) -> Prop :=
| run_fresh h : fresh h -> heap_run h []
| run_malloc h live nbytes r h' :
    heap_run h live -> 0 <= nbytes <= 2147483600 -> malloc base sbrk nbytes h (heap_fuel h) = Some (r, h') ->
    heap_run h' (if r =? 0 then live else (r - HEADER, units nbytes) :: live)
| run_free h live live' a n h' :
    heap_run h live -> live ≡ₚ (a, n) :: live' -> free (a + HEADER) h (heap_fuel h) = Some h' -> heap_run h' live'
| run_write h live a n x v :
    heap_run h live -> (a, n) ∈ live -> a + HEADER <= x < a + HEADER * n ->
    heap_run (Heap (store8 (h_mem h) x v) (h_freep h) (h_brk h)) live.

Lemma heap_run_ok h live : heap_run h live -> heap_ok h live.
Proof using sbrk_grows.
  induction 1 as [h Hf|h live nbytes r h' _ IH Hn E|h live live' a n h' _ IH Hp E|h live a n x v _ IH Hin Hx].
  - by left.
  - destruct (malloc_ok h live nbytes IH Hn) as (r0 & h0 & E0 & _ & Hr). rewrite E in E0. injection E0 as <- <-.
    destruct (Z.eqb_spec r 0); naive_solver.
  - destruct (free_ok h live live' a n IH Hp) as (h0 & E0 & Hok & _). congruence.
  - by eapply write_ok.
Qed.

(** C8: Whatever a program does with malloc, free and the blocks it holds, the
    blocks lie in the heap and no two of them overlap, and the heap stays in a
    state in which malloc and free work. *)
Theorem heap_run_safe h live : heap_run h live ->
  heap_ok h live /\
  Forall (fun b => heap0 <= fst b /\ fst b + HEADER * snd b <= h_brk h) live /\
  forall i j a n b k, live !! i = Some (a, n) -> live !! j = Some (b, k) -> i <> j ->
    a + HEADER * n <= b \/ b + HEADER * k <= a.
Proof using sbrk_grows.
  intros H%heap_run_ok. split; [done|]. by apply heap_ok_disjoint.
Qed.
End malloc.
End heap.

(** ** On a concrete heap *)

Module HeapDemo.
(** sbrk as growproc does it: the data grow below the kernel; a negative count
    shrinks them, unless the sum wraps around. *)
Definition demo_sbrk (n : Z) (h : heap) : option heap :=
  if 0 <=? n then
    if h_brk h + n <? KERNBASE then Some (Heap (h_mem h) (h_freep h) (h_brk h + n)) else None
  else
    let b := u32 (h_brk h + n) in
    Some (Heap (h_mem h) (h_freep h) (if h_brk h <=? b then h_brk h else b)).

Lemma demo_sbrk_grows n h h' : 0 <= n -> demo_sbrk n h = Some h' ->
  h_brk h' = h_brk h + n /\ h_brk h' <= KERNBASE /\ h_freep h' = h_freep h /\
  forall x, x < h_brk h -> load8 (h_mem h') x = load8 (h_mem h) x.
Proof.
  unfold demo_sbrk. destruct (Z.leb_spec 0 n); [|lia]. destruct (Z.ltb_spec (h_brk h + n) KERNBASE); [|done].
  intros _ [= <-]. cbn. split_and!; [done|lia|done|done].
Qed.

Definition base0 : Z := 4096.
Definition start : Z := 16384.
Definition heap1 : heap := Heap (fun _ => 0) 0 start.

Lemma heap1_fresh : fresh base0 start heap1.
Proof. by vm_compute. Qed.

Definition run1 : option (Z * heap) := malloc base0 demo_sbrk 20 heap1 (heap_fuel start heap1).
Definition heap2 : heap := match run1 with Some (_, h) => h | None => heap1 end.

(** The first block comes from the end of the first 4096 units. *)
Lemma run1_value : match run1 with Some (r, h) => (r, h_freep h, h_brk h) | None => (0, 0, 0) end =
  (start + 8 * 4096 - 24, base0, start + 8 * 4096).
Proof. by vm_compute. Qed.

Lemma malloc_correct_witness : exists r h',
  malloc base0 demo_sbrk 20 heap1 (heap_fuel start heap1) = Some (r, h') /\ untouched (h_mem heap1) (h_mem h') [] /\
  ((r = 0 /\ heap_ok base0 start h' []) \/
   (start + HEADER <= r /\ r + 20 <= h_brk h' /\ heap_ok base0 start h' ((r - HEADER, units 20) :: []) /\
    forall a n, (a, n) ∈ [] -> a + HEADER * n <= r - HEADER \/ r + 20 <= a)).
Proof.
  apply (malloc_correct base0 start demo_sbrk demo_sbrk_grows heap1 [] 20); [|lia].
  left. split; [apply heap1_fresh|done].
Defined.

Lemma heap2_run : heap_run base0 start demo_sbrk heap2 [(start + 8 * 4092, 4)].
Proof.
  refine (run_malloc base0 start demo_sbrk heap1 [] 20 (start + 8 * 4093) heap2 _ _ _).
  - apply run_fresh, heap1_fresh.
  - lia.
  - pose proof run1_value as E. unfold heap2, run1 in *.
    destruct (malloc _ _ _ _ _) as [[r h]|]; [|done]. by injection E as -> _ _.
Qed.

Lemma free_correct_witness : exists h',
  free (start + 8 * 4092 + HEADER) heap2 (heap_fuel start heap2) = Some h' /\ heap_ok base0 start h' [] /\
  untouched (h_mem heap2) (h_mem h') [].
Proof.
  apply (free_correct base0 start heap2 [(start + 8 * 4092, 4)] [] (start + 8 * 4092) 4); [|done].
  exact (heap_run_ok base0 start demo_sbrk demo_sbrk_grows _ _ heap2_run).
Defined.

Lemma heap_run_safe_witness :
  heap_ok base0 start heap2 [(start + 8 * 4092, 4)] /\
  Forall (fun b => start <= fst b /\ fst b + HEADER * snd b <= h_brk heap2) [(start + 8 * 4092, 4)] /\
  forall i j a n b k, [(start + 8 * 4092, 4)] !! i = Some (a, n) -> [(start + 8 * 4092, 4)] !! j = Some (b, k) -> i <> j ->
    a + HEADER * n <= b \/ b + HEADER * k <= a.
Proof. exact (heap_run_safe base0 start demo_sbrk demo_sbrk_grows _ _ heap2_run). Defined.

(** The size computation wraps around: a request for 2^32 - 1 bytes is given
    a block of one unit, which has no room for a single byte. *)
Lemma malloc_size_wraps :
  match malloc base0 demo_sbrk 4294967295 heap1 (heap_fuel start heap1) with
  | Some (r, h) => (r, size (h_mem h) (r - 8), h_brk h)
  | None => (0, 0, 0)
  end = (start + 8 * 4096, 1, start + 8 * 4096).
Proof. by vm_compute. Qed.

(** The byte count of morecore becomes a negative int: the request is granted
    although the heap does not grow. *)
Lemma malloc_beyond_heap :
  match malloc base0 demo_sbrk 2147483640 heap1 (heap_fuel start heap1) with
  | Some (r, h) => (r, h_brk h)
  | None => (0, 0)
  end = (start + 8, start).
Proof. by vm_compute. Qed.
End HeapDemo.
