(* ===== verification/Uprog.v ===== *)
(** * User programs as interaction trees

    A user program talks to the kernel by system calls and may run for ever,
    so it is an interaction tree over the calls.  [trace t l o] says that [t]
    can make the calls [l], with the answers recorded in [l], and is then in
    the state [o]: still running, returned, or ended by exit().  The answers
    are those of any kernel, up to [valid]: read() stores no more bytes than
    it is asked for, and exec() returns only to report a failure.

    The rules below take a trace of a program apart along its structure;
    [iter_trace] is the invariant rule for loops. *)

From S2P Require Import Prelude Memory CString Ulib Printf Sh.
From ITree Require Import ITree Eq.Shallow.

Open Scope Z_scope.

(** What fstat() fills in: type, inode number, size. *)
Record ustat : Type := mkUstat { us_type : Z; us_ino : Z; us_size : Z }.

(** The system calls the programs make.  A read answers the bytes stored, or
    none when it fails, a pipe its two descriptors.  The tests also pass bad
    pointers ([LinkAt], and [SysAt] for a call with a stack pointer of its own)
    and touch memory that may not be theirs; malloc() and free() of umalloc.c
    are calls as well. *)
Variant sysE : Type -> Type :=
| Read (fd n : Z) : sysE (option (list Z))
| Write (fd : Z) (bs : list Z) : sysE Z
| Open (path : list Z) (mode : Z) : sysE Z
| Close (fd : Z) : sysE Z
| Fstat (fd : Z) : sysE (option ustat)
| Link (old new : list Z) : sysE Z
| Unlink (path : list Z) : sysE Z
| Mkdir (path : list Z) : sysE Z
| Mknod (path : list Z) (major minor : Z) : sysE Z
| Dup (fd : Z) : sysE Z
| Kill (pid : Z) : sysE Z
| Fork : sysE Z
| Wait : sysE Z
| Exec (path : list Z) (argv : list (list Z)) : sysE Z
| Sleep (n : Z) : sysE Z
| Chdir (path : list Z) : sysE Z
| Pipe : sysE (option (Z * Z))
| Getpid : sysE Z
| Sbrk (n : Z) : sysE Z
| LinkAt (old : list Z) (new : Z) : sysE Z
| SysAt (num sp : Z) : sysE Z
| Peek (a : Z) : sysE Z
| Poke (a v : Z) : sysE unit
| PeekWord (a : Z) : sysE Z
| PokeWord (a v : Z) : sysE unit
| Malloc (n : Z) : sysE Z
| Free (p : Z) : sysE unit
| Exit : sysE Empty_set.

Definition valid {X} (e : sysE X) : X -> Prop :=
  match e in sysE X return X -> Prop with
  | Read _ n => fun r => match r with Some bs => Z.of_nat (length bs) <= n | None => True end
  | Exec _ _ => fun r => r = -1
  | _ => fun _ => True
  end.

Notation "'let*' x := t 'in' k" := (ITree.bind t (fun x => k)) (at level 10, x name, k at level 200).
Notation "'call' e" := (ITree.trigger e) (at level 10, e at level 9).

Definition exit {R} : itree sysE R := ITree.bind (call Exit) (fun v : Empty_set => match v with end).

(** ** The output of printf *)

Inductive farg : Type :=
| FInt (n : Z)
| FStr (s : list Z).

Definition arg_text (c : Z) (a : farg) : list Z :=
  match a with
  | FInt n => default [] (if c =? 100 then printint (s32 n) 10 true else printint (s32 n) 16 false)
  | FStr s => s
  end.

(** The loop of printf on the arguments themselves, for the conversions the
    programs use. *)
Fixpoint format (fmt : list Z) (args : list farg) : list Z :=
  match fmt with
  | [] => []
  | c :: fmt =>
      if c =? 37 then
        match fmt, args with
        | d :: fmt, a :: args => arg_text d a ++ format fmt args
        | _, _ => []
        end
      else c :: format fmt args
  end.

(** putc makes one write() for each byte. *)
Fixpoint puts (fd : Z) (text : list Z) : itree sysE unit :=
  match text with
  | [] => Ret tt
  | c :: text => let* _ := call (Write fd [c]) in puts fd text
  end.

Definition printf (fd : Z) (fmt : list Z) (args : list farg) : itree sysE unit := puts fd (format fmt args).

(** Text with a newline at its end. *)
Definition line (s : string) : list Z := chars s ++ [10].

(** ** Traces *)

Inductive event : Type :=
| Ev (X : Type) (e : sysE X) (x : X).
Arguments Ev {X} e x.

Inductive outcome (R : Type) : Type :=
| Running
| Returned (r : R)
| Exited.
Arguments Running {R}.
Arguments Returned {R} r.
Arguments Exited {R}.

Inductive trace {R} : itree sysE R -> list event -> outcome R -> Prop :=
| TrStop t : trace t [] Running
| TrRet t r : observe t = RetF r -> trace t [] (Returned r)
| TrTau t t' l o : observe t = TauF t' -> trace t' l o -> trace t l o
| TrVis t X (e : sysE X) k x l o :
    observe t = VisF e k -> valid e x -> trace (k x) l o -> trace t (Ev e x :: l) o
| TrExit t k : observe t = VisF Exit k -> trace t [] Exited.

(** Every call but exit() returns. *)
Definition not_exit {X} (e : sysE X) : Prop := match e with Exit => False | _ => True end.

Create HintDb trace.
Create Rewrite HintDb trace_rw.
#[export] Hint Constructors trace : trace.

Section trace.
Context {R : Type}.
Implicit Types (t : itree sysE R) (l : list event) (o : outcome R).

(** A trace depends on what the tree shows only. *)
Lemma trace_observe t t' l o : observe t = observe t' -> trace t l o -> trace t' l o.
Proof. intros He H. destruct H; eauto using TrStop; rewrite He in *; eauto with trace. Qed.

Lemma trace_ret r l o : trace (Ret r) l o -> l = [] /\ (o = Running \/ o = Returned r).
Proof. intros H; inversion H as [|? r' Hr| | |]; subst; try discriminate; [by auto|]. injection Hr as <-; auto. Qed.

Lemma trace_tau t l o : trace (Tau t) l o -> l = [] /\ o = Running \/ trace t l o.
Proof. intros H; inversion H as [| |? t' ? ? Ht| |]; subst; try discriminate; [by auto|]. injection Ht as <-; auto. Qed.

Lemma trace_vis X (e : sysE X) k l o :
  trace (Vis e k : itree sysE R) l o ->
  l = [] /\ o = Running \/
  (exists x l', l = Ev e x :: l' /\ valid e x /\ trace (k x) l' o) \/
  ~ not_exit e /\ l = [] /\ o = Exited.
Proof.
  intros H; inversion H as [| |? ? ? ? Ht|? X' e' k' x ? ? Hv|? k' Hv]; subst; try discriminate.
  - by left.
  - right; left. cbn in Hv. apply eq_inv_VisF_weak in Hv as (p & He & Hk). destruct p. cbn in He, Hk. subst. eauto.
  - right; right. cbn in Hv. split; [|done].
    change (match VisF e k : itree' sysE R with VisF e _ => ~ not_exit e | _ => True end). rewrite Hv. by intros [].
Qed.
End trace.

Lemma observe_bind_call {X R} (e : sysE X) (k : X -> itree sysE R) :
  observe (ITree.bind (call e) k) = observe (Vis e (fun x => ITree.bind (Ret x) k)).
Proof. reflexivity. Qed.

Lemma trace_call {X R} (e : sysE X) (k : X -> itree sysE R) l o :
  not_exit e -> trace (ITree.bind (call e) k) l o ->
  l = [] /\ o = Running \/ exists x l', l = Ev e x :: l' /\ valid e x /\ trace (k x) l' o.
Proof.
  intros He H. apply (trace_observe _ _ _ _ (observe_bind_call e k)) in H.
  apply trace_vis in H as [H|[(x & l' & Hl & Hv & H)|[Hp _]]]; [by left| |done].
  right. exists x, l'. split_and!; [done..|]. by eapply trace_observe, H.
Qed.

Lemma trace_call_intro {X R} (e : sysE X) (k : X -> itree sysE R) x l o :
  valid e x -> trace (k x) l o -> trace (ITree.bind (call e) k) (Ev e x :: l) o.
Proof. intros Hv H. eapply TrVis; [apply observe_bind_call|done|]. by eapply trace_observe, H. Qed.

Lemma trace_exit {R} l (o : outcome R) : trace exit l o -> l = [] /\ (o = Running \/ o = Exited).
Proof.
  intros H. apply (trace_observe _ _ _ _ (observe_bind_call Exit _)) in H.
  apply trace_vis in H as [[-> ->]|[(x & _)|(_ & -> & ->)]]; [by auto|destruct x|by auto].
Qed.

Lemma trace_exit_intro {R} : trace (exit : itree sysE R) [] Exited.
Proof. eapply TrExit. apply observe_bind_call. Qed.

Lemma observe_bind_ {X R} (t : itree sysE X) (k : X -> itree sysE R) :
  observe (ITree.bind t k) =
  match observe t with
  | RetF r => observe (k r)
  | TauF t => TauF (ITree.bind t k)
  | VisF e h => VisF e (fun x => ITree.bind (h x) k)
  end.
Proof. rewrite observe_bind. by destruct (observe t). Qed.

(** What a trace of [t] followed by [k] is. *)
Definition sequel {X R} (t : itree sysE X) (k : X -> itree sysE R) (l : list event) (o : outcome R) : Prop :=
  (exists a l1 l2, l = l1 ++ l2 /\ trace t l1 (Returned a) /\ trace (k a) l2 o) \/
  trace t l Exited /\ o = Exited \/ trace t l Running /\ o = Running.

Lemma trace_bind_gen {X R} (u : itree sysE R) l o :
  trace u l o -> forall (t : itree sysE X) k, observe u = observe (ITree.bind t k) -> sequel t k l o.
Proof.
  induction 1 as [u|u r Hu|u u' l o Hu H IH|u Y e h x l o Hu Hv H IH|u h Hu]; intros t k Hb;
    rewrite observe_bind_ in Hb; destruct (observe t) as [a|t'|Z e' h'] eqn:Ht.
  all: try (left; exists a, [], l; split_and!; [done|by apply TrRet|by eapply trace_observe; [exact Hb|eauto with trace]]).
  all: try (right; right; split; [apply TrStop|done]).
  all: try (left; exists a, []; eexists; split_and!; [reflexivity|by apply TrRet|eapply trace_observe; [exact Hb|]; eauto with trace; fail]).
  all: rewrite Hu in Hb; try discriminate.
  - injection Hb as ->. destruct (IH t' k eq_refl) as [(a & l1 & l2 & -> & H1 & H2)|[[H1 ->]|[H1 ->]]].
    + left. exists a, l1, l2. eauto with trace.
    + right; left. eauto with trace.
    + right; right. eauto with trace.
  - apply eq_inv_VisF_weak in Hb as (p & He & Hk). destruct p. cbn in He, Hk. subst e' h.
    destruct (IH (h' x) k eq_refl) as [(a & l1 & l2 & -> & H1 & H2)|[[H1 ->]|[H1 ->]]].
    + left. exists a, (Ev e x :: l1), l2. eauto with trace.
    + right; left. eauto with trace.
    + right; right. eauto with trace.
  - apply eq_inv_VisF_weak in Hb as (p & He & Hk). destruct p. cbn in He. subst e'.
    right; left. eauto with trace.
Qed.

Lemma trace_bind {X R} (t : itree sysE X) (k : X -> itree sysE R) l o : trace (ITree.bind t k) l o -> sequel t k l o.
Proof. intros H. by eapply trace_bind_gen. Qed.

Lemma trace_bind_intro {X R} (t : itree sysE X) (k : X -> itree sysE R) l1 a l2 o :
  trace t l1 (Returned a) -> trace (k a) l2 o -> trace (ITree.bind t k) (l1 ++ l2) o.
Proof.
  intros H1 H2. remember (Returned a) as o1 eqn:Ho.
  induction H1 as [t|t r Ht|t t' l o1 Ht H IH|t Y e h x l o1 Ht Hv H IH|t h Ht]; simplify_eq; cbn [app].
  - eapply trace_observe, H2. by rewrite observe_bind_, Ht.
  - eapply TrTau; [by rewrite observe_bind_, Ht|auto].
  - eapply TrVis; [by rewrite observe_bind_, Ht|done|auto].
Qed.

Lemma trace_bind_exit {X R} (t : itree sysE X) (k : X -> itree sysE R) l :
  trace t l Exited -> trace (ITree.bind t k) l Exited.
Proof.
  intros H1. remember Exited as o1 eqn:Ho.
  induction H1 as [t|t r Ht|t t' l o1 Ht H IH|t Y e h x l o1 Ht Hv H IH|t h Ht]; simplify_eq.
  - eapply TrTau; [by rewrite observe_bind_, Ht|auto].
  - eapply TrVis; [by rewrite observe_bind_, Ht|done|auto].
  - eapply TrExit; by rewrite observe_bind_, Ht.
Qed.

(** ** Loops *)

Section iter.
Context {I R : Type} (f : I -> itree sysE (I + R)).

Definition again (lr : I + R) : itree sysE R := match lr with inl j => Tau (ITree.iter f j) | inr b => Ret b end.

Lemma observe_iter i : observe (ITree.iter f i) = observe (ITree.bind (f i) again).
Proof. reflexivity. Qed.

(** A loop that goes round, ends, exits or is stopped inside its body. *)
Lemma loop_again i j l1 l2 (o : outcome R) :
  trace (f i) l1 (Returned (inl j)) -> trace (ITree.iter f j) l2 o -> trace (ITree.iter f i) (l1 ++ l2) o.
Proof.
  intros H1 H2. eapply trace_observe; [symmetry; apply observe_iter|].
  eapply trace_bind_intro; [exact H1|]. by eapply TrTau.
Qed.

Lemma loop_done i b l : trace (f i) l (Returned (inr b)) -> trace (ITree.iter f i) l (Returned b).
Proof.
  intros H1. rewrite <- (app_nil_r l). eapply trace_observe; [symmetry; apply observe_iter|].
  eapply trace_bind_intro; [exact H1|]. by apply TrRet.
Qed.

Lemma loop_exit i l : trace (f i) l Exited -> trace (ITree.iter f i) l Exited.
Proof. intros H1. eapply trace_observe; [symmetry; apply observe_iter|]. by apply trace_bind_exit. Qed.

(** The rule of induction over the rounds of a loop. *)
Context (P : I -> list event -> outcome R -> Prop).
Hypothesis (Hround : forall i j l l' o, trace (f i) l (Returned (inl j)) -> P j l' o -> P i (l ++ l') o).
Hypothesis (Hdone : forall i b l, trace (f i) l (Returned (inr b)) -> P i l (Returned b)).
Hypothesis (Hexit : forall i l, trace (f i) l Exited -> P i l Exited).
Hypothesis (Hstop : forall i l, trace (f i) l Running -> P i l Running).

Definition split_at (u : itree sysE (I + R)) (l : list event) (o : outcome R) : Prop :=
  (exists j l1 l2, l = l1 ++ l2 /\ trace u l1 (Returned (inl j)) /\ P j l2 o) \/
  (exists b, trace u l (Returned (inr b)) /\ o = Returned b) \/
  trace u l Exited /\ o = Exited \/ trace u l Running /\ o = Running.

Lemma split_at_body i l o : split_at (f i) l o -> P i l o.
Proof. intros [(j & l1 & l2 & -> & H1 & H2)|[(b & H1 & ->)|[[H1 ->]|[H1 ->]]]]; eauto. Qed.

Lemma iter_split t l o :
  trace t l o -> forall u, observe t = observe (ITree.bind u again) -> split_at u l o.
Proof.
  induction 1 as [t|t r Ht|t t' l o Ht H IH|t Y e h x l o Ht Hv H IH|t h Ht]; intros u Hb;
    rewrite observe_bind_ in Hb; [unfold split_at; eauto 6 with trace| | | |];
    rewrite Ht in Hb; destruct (observe u) as [[j|b]|u'|Z e' h'] eqn:Hu; cbn in Hb; try discriminate.
  - injection Hb as ->. unfold split_at. eauto 6 with trace.
  - injection Hb as ->. left. exists j, [], l. split_and!; [done|by apply TrRet|].
    apply split_at_body, IH, observe_iter.
  - injection Hb as ->. destruct (IH u' eq_refl) as [(j & l1 & l2 & -> & H1 & H2)|[(b & H1 & ->)|[[H1 ->]|[H1 ->]]]];
      unfold split_at; eauto 10 with trace.
  - apply eq_inv_VisF_weak in Hb as (p & He & Hk). destruct p. cbn in He, Hk. subst e' h.
    destruct (IH (h' x) eq_refl) as [(j & l1 & l2 & -> & H1 & H2)|[(b & H1 & ->)|[[H1 ->]|[H1 ->]]]].
    + left. exists j, (Ev e x :: l1), l2. eauto with trace.
    + unfold split_at. eauto 6 with trace.
    + unfold split_at. eauto 6 with trace.
    + unfold split_at. eauto 6 with trace.
  - apply eq_inv_VisF_weak in Hb as (p & He & Hk). destruct p. cbn in He. subst e'.
    unfold split_at. eauto 6 with trace.
Qed.

Lemma iter_trace i l o : trace (ITree.iter f i) l o -> P i l o.
Proof. intros H. eapply split_at_body, iter_split; [exact H|apply observe_iter]. Qed.
End iter.

(** ** What a trace shows *)

Definition ev_out (fd : Z) (ev : event) : list Z :=
  match ev with Ev e _ => match e with Write fd' bs => if fd =? fd' then bs else [] | _ => [] end end.

Definition ev_in (ev : event) : list Z :=
  match ev with
  | Ev e x => match e in sysE X return X -> list Z with Read _ _ => default [] | _ => fun _ => [] end x
  end.

(** The bytes written to a descriptor, and the bytes all reads stored. *)
Definition out (fd : Z) (l : list event) : list Z := flat_map (ev_out fd) l.
Definition inp (l : list event) : list Z := flat_map ev_in l.

Lemma out_app fd l k : out fd (l ++ k) = out fd l ++ out fd k.
Proof. apply flat_map_app. Qed.
Lemma inp_app l k : inp (l ++ k) = inp l ++ inp k.
Proof. apply flat_map_app. Qed.

Lemma out_cons fd ev l : out fd (ev :: l) = ev_out fd ev ++ out fd l.
Proof. reflexivity. Qed.
Lemma inp_cons ev l : inp (ev :: l) = ev_in ev ++ inp l.
Proof. reflexivity. Qed.

#[export] Hint Rewrite out_app inp_app out_cons inp_cons @app_nil_r : trace_rw.
(** What a trace of known calls shows. *)
Ltac obs := autorewrite with trace_rw; cbn [ev_out ev_in default app Z.eqb Pos.eqb].

(** The trace of printf when it returns. *)
Lemma trace_puts fd text l o :
  trace (puts fd text) l o -> o <> Running ->
  o = Returned tt /\ out fd l = text /\ (forall fd', fd' <> fd -> out fd' l = []) /\ inp l = [].
Proof.
  intros H Ho. revert l H. induction text as [|c text IH]; intros l H; cbn [puts] in H.
  - apply trace_ret in H as [-> [->| ->]]; done.
  - apply trace_call in H as [[-> ->]|(x & l' & -> & _ & H)]; [done| |exact Logic.I].
    apply IH in H as (-> & Hout & Hother & Hin). split_and!; [done| | |exact Hin].
    + cbn. rewrite Z.eqb_refl. cbn. by f_equal.
    + intros fd' Hfd. cbn. rewrite (proj2 (Z.eqb_neq _ _)) by done. by apply Hother.
Qed.

Lemma puts_trace fd text : trace (puts fd text) (map (fun c => Ev (Write fd [c]) 1) text) (Returned tt).
Proof.
  induction text as [|c text IH]; cbn [puts map]; [by apply TrRet|].
  by eapply (trace_call_intro (Write fd [c]) _ 1).
Qed.

(** Finished traces: a call was answered, and a sequence went on or exited. *)
Lemma fin_call {X R} (e : sysE X) (k : X -> itree sysE R) l o :
  trace (ITree.bind (call e) k) l o -> not_exit e -> o <> Running ->
  exists x l', l = Ev e x :: l' /\ valid e x /\ trace (k x) l' o.
Proof. intros H He Ho. apply trace_call in H as [[_ ->]|H]; done. Qed.

Lemma fin_bind {X R} (t : itree sysE X) (k : X -> itree sysE R) l o :
  trace (ITree.bind t k) l o -> o <> Running ->
  (exists a l1 l2, l = l1 ++ l2 /\ trace t l1 (Returned a) /\ trace (k a) l2 o) \/ trace t l Exited /\ o = Exited.
Proof. intros H Ho. apply trace_bind in H as [H|[H|[_ ->]]]; [by left|by right|done]. Qed.

Lemma fin_exit {R} l (o : outcome R) : trace exit l o -> o <> Running -> l = [] /\ o = Exited.
Proof. intros H Ho. apply trace_exit in H as [-> [->| ->]]; done. Qed.

Lemma fin_ret {R} (r : R) l o : trace (Ret r) l o -> o <> Running -> l = [] /\ o = Returned r.
Proof. intros H Ho. apply trace_ret in H as [-> [->| ->]]; done. Qed.

(** A message and what follows it. *)
Lemma fin_print {R} fd fmt args (k : unit -> itree sysE R) l o :
  trace (ITree.bind (printf fd fmt args) k) l o -> o <> Running ->
  exists l1 l2, l = l1 ++ l2 /\ trace (printf fd fmt args) l1 (Returned tt) /\ trace (k tt) l2 o.
Proof.
  intros H Ho. apply fin_bind in H as [([] & l1 & l2 & H)|[H _]]; [by eauto| |done].
  by apply trace_puts in H as [? _].
Qed.

Lemma print_out fd fmt args l :
  trace (printf fd fmt args) l (Returned tt) -> out fd l = format fmt args /\ inp l = [].
Proof. intros H. apply trace_puts in H as (_ & ? & _ & ?); done. Qed.

(** ** The text printf writes *)

(** A format all of whose conversions are %d and %s, with fitting arguments. *)
Fixpoint fmt_ok (fmt : list Z) (args : list farg) : bool :=
  match fmt with
  | [] => match args with [] => true | _ => false end
  | c :: fmt =>
      if c =? 37 then
        match fmt, args with
        | d :: fmt, FInt _ :: args => (d =? 100) && fmt_ok fmt args
        | d :: fmt, FStr _ :: args => (d =? 115) && fmt_ok fmt args
        | _, _ => false
        end
      else fmt_ok fmt args
  end.

(** The word on the stack that stands for an argument. *)
Definition arg_word (m : mem) (fuel : nat) (a : farg) (w : Z) : Prop :=
  match a with
  | FInt n => w = n
  | FStr s => w <> 0 /\ cstring m w fuel = Some s
  end.

Lemma printint_some xx sgn : exists t, printint xx 10 sgn = Some t.
Proof.
  unfold printint, printint_buf. set (x := if sgn && (xx <? 0) then u32 (- xx) else u32 xx).
  assert (Hx : 0 <= x < 4294967296) by (unfold x; destruct (sgn && (xx <? 0)); apply u32_range).
  destruct (digit_loop_spec digits 10 31) with (x := x) as (l & -> & _); [lia|lia|]. eauto.
Qed.

Lemma loop_format m ap fuel n : forall fmt args k, (length fmt <= n)%nat ->
  fmt_ok fmt args = true -> (forall i a, args !! i = Some a -> arg_word m fuel a (ap (k + i)%nat)) ->
  printf_loop m fmt false ap k fuel = Some (format fmt args).
Proof.
  induction n as [|n IH]; intros [|c fmt] args k Hn Hok Hargs; cbn in Hn; try done; try lia.
  cbn [fmt_ok format printf_loop] in *. destruct (c =? 37) eqn:Hc.
  - destruct fmt as [|d fmt], args as [|a args]; try done.
    assert (Ha := Hargs 0%nat a eq_refl). rewrite Nat.add_0_r in Ha.
    assert (Hk : forall i b, args !! i = Some b -> arg_word m fuel b (ap (k + 1 + i)%nat)).
    { intros i b Hb. specialize (Hargs (S i) b Hb). by replace (k + 1 + i)%nat with (k + S i)%nat by lia. }
    cbn in Hn. destruct a as [x|s]; apply andb_prop in Hok as [Hd Hok]; apply Z.eqb_eq in Hd as ->.
    + cbn in Ha. subst x. cbn [printf_loop]. cbn. destruct (printint_some (s32 (ap k)) true) as [t ->]. cbn.
      by rewrite (IH fmt args) by (lia || done).
    + destruct Ha as [Hw Hs]. cbn. rewrite (proj2 (Z.eqb_neq _ _)) by done. rewrite Hs. cbn.
      by rewrite (IH fmt args) by (lia || done).
  - by rewrite (IH fmt args) by (lia || done).
Qed.

(** The bytes that printf() writes are those of [format]. *)
Lemma printf_format m ap fuel fmt args :
  fmt_ok fmt args = true -> (forall i a, args !! i = Some a -> arg_word m fuel a (ap i)) ->
  Printf.printf m fmt ap fuel = Some (format fmt args).
Proof. intros. by apply (loop_format m ap fuel (length fmt)). Qed.
