(* ===== verification/Bmp.v ===== *)
(** * app_ex_file.c and app_mono_file.c: reading a bitmap

    load_bmp of the exokernel program takes a file that the drive is still
    moving to memory: it looks at the header, gets memory for the picture from
    malloc, waits until more than two transfers are done, and copies the rows
    upside down, since the rows of the file start at the bottom.  While it
    waits the interrupts of the drive change memory.  It runs on the heap of
    [Umalloc.v].  load_bmp of the other program reads the same file with system
    calls. *)

From S2P Require Import Prelude Memory Umalloc UmallocSpec.

Open Scope Z_scope.

Record BITMAP : Type := mkBmp { width : Z; height : Z; data : Z }.


(** How a run stands: it printed a message, it is still in a loop, or the
    picture is there. *)
Inductive bmp_run : Type :=
| NotBitmap (c d : Z)
| NoMemory (h : heap)
| Running (h : heap)
| Loaded (b : BITMAP) (h : heap).

(** [while(ExGetTransferCount() <= 2);] one entry for each call: what the
    interrupts since the last call have done to memory, and the count the call
    returns.  At the end of the list the loop is still running. *)
Fixpoint wait_transfer (calls : list ((mem -> mem) * Z)) (m : mem) : option mem :=
  match calls with
  | [] => None
  | (intr, c) :: calls => let m := intr m in if c <=? 2 then wait_transfer calls m else Some m
  end.

(** The inner loop, from column [x] on, with [n] columns left. *)
Fixpoint load_row (m : mem) (file pointer data index x : Z) (n : nat) : mem :=
  match n with
  | O => m
  | S n => load_row (store8 m (data + (u16 index + x)) (load8 m (file + pointer))) file (pointer + 1) data index (x + 1) n
  end.

Fixpoint load_rows (m : mem) (file pointer data w index : Z) (fuel : nat) : option mem :=
  match fuel with
  | O => None
  | S fuel =>
      if 0 <=? index then
        load_rows (load_row m file pointer data index 0 (Z.to_nat w)) file (pointer + w) data w (s32 (index - w)) fuel
      else Some m
  end.

Section load_bmp.
Context (base : Z) (sbrk : Z -> heap -> option heap).

End load_bmp.

(** ** The copy *)



(** A picture of no columns: the loop over the rows does not end. *)
Lemma load_rows_zero_width m file pointer data fuel : load_rows m file pointer data 0 0 fuel = None.
Proof. revert m pointer. induction fuel as [|fuel IH]; intros m pointer; [done|]. cbn [load_rows]. apply IH. Qed.

(** ExFileRead asks for one transfer more than the file has blocks, so for a file
    of one block the count stays at 2 at most, and load_bmp waits for ever. *)
Lemma wait_transfer_small calls m : Forall (fun c => snd c <= 2) calls -> wait_transfer calls m = None.
Proof.
  intros H. revert m. induction H as [|[intr c] calls Hc _ IH]; intros m; cbn [wait_transfer]; [done|].
  cbn [snd] in Hc. by rewrite (proj2 (Z.leb_le _ _)).
Qed.


(** ** The heap around it *)

Section correct.
Context (base heap0 : Z) (sbrk : Z -> heap -> option heap).
Context (sbrk_grows : forall n h h', 0 <= n -> sbrk n h = Some h' ->
  h_brk h' = h_brk h + n /\ h_brk h' <= Mmu.KERNBASE /\ h_freep h' = h_freep h /\
  forall x, x < h_brk h -> load8 (h_mem h') x = load8 (h_mem h) x).









End correct.

(** ** app_mono_file.c

    [content] is the file and [pos] the offset of its descriptor.  A variable
    that read does not fill keeps bytes [junk]. *)

(** [read(fd, &v, n)]: the count that is returned, and the offset behind it. *)
Definition read_count (content : list Z) (pos n : nat) : nat := Nat.min n (length content - pos).
Definition read_byte (content : list Z) (junk : Z) (pos : nat) : Z := nth pos content junk.
Definition read_ushort (content : list Z) (junk : Z) (pos : nat) : Z :=
  read_byte content junk pos + 256 * read_byte content junk (S pos).

(** [b.data[(ushort)index + x] = (uchar)read(fd, &c, sizeof(c))] *)
Fixpoint mono_row (m : mem) (content : list Z) (pos : nat) (data index x : Z) (n : nat) : mem * nat :=
  match n with
  | O => (m, pos)
  | S n =>
      let r := read_count content pos 1 in
      mono_row (store8 m (data + (u16 index + x)) (Z.of_nat r)) content (pos + r) data index (x + 1) n
  end.

Fixpoint mono_rows (m : mem) (content : list Z) (pos : nat) (data w index : Z) (fuel : nat) : option mem :=
  match fuel with
  | O => None
  | S fuel =>
      if 0 <=? index then
        let '(m, pos) := mono_row m content pos data index 0 (Z.to_nat w) in
        mono_rows m content pos data w (s32 (index - w)) fuel
      else Some m
  end.

Definition mono_load_bmp (base : Z) (sbrk : Z -> heap -> option heap) (name0 name1 : Z) (content : list Z) (junk : Z)
    (h : heap) (mfuel fuel : nat) : bmp_run :=
  let skip pos n := (pos + read_count content pos n)%nat in
  let c := read_byte content junk 0 in
  let pos := skip 0%nat 1%nat in
  let d := read_byte content junk pos in
  let pos := skip pos 1%nat in
  if negb (c =? 66) || negb (d =? 77) then NotBitmap name0 name1
  else
    let pos := skip pos 16%nat in
    let w := read_ushort content junk pos in
    let pos := skip (skip pos 2%nat) 2%nat in
    let ht := read_ushort content junk pos in
    let pos := skip (skip pos 2%nat) 22%nat in
    let nc := read_ushort content junk pos in
    let pos := skip (skip pos 2%nat) 6%nat in
    let nc := if nc =? 0 then 256 else nc in
    match malloc base sbrk (u16 (w * ht)) h mfuel with
    | None => Running h
    | Some (p, h) =>
        if p =? 0 then NoMemory h
        else
          match mono_rows (h_mem h) content (skip pos (Z.to_nat (nc * 4))) p w (s32 ((ht - 1) * w)) fuel with
          | None => Running h
          | Some m => Loaded (mkBmp w ht p) (Heap m (h_freep h) (h_brk h))
          end
    end.

Lemma mono_row_spec n : forall m content pos data index x,
  (pos + n <= length content)%nat ->
  snd (mono_row m content pos data index x n) = (pos + n)%nat /\
  forall y, load8 (fst (mono_row m content pos data index x n)) y =
    let d := data + (u16 index + x) in if (d <=? y) && (y <? d + Z.of_nat n) then 1 else load8 m y.
Proof.
  induction n as [|n IH]; intros m content pos data index x Hl; cbn [mono_row].
  - split; [simpl; lia|]. intros y. cbv zeta. set (d := data + (u16 index + x)). destruct (Z.leb_spec d y), (Z.ltb_spec y (d + Z.of_nat 0)); done || lia.
  - assert (Er : read_count content pos 1 = 1%nat) by (unfold read_count; lia). rewrite Er.
    destruct (IH (store8 m (data + (u16 index + x)) (Z.of_nat 1)) content (pos + 1)%nat data index (x + 1) ltac:(lia)) as (E1 & E2).
    split; [rewrite E1; lia|]. intros y. rewrite E2. cbv zeta. rewrite load8_store8. set (d := data + (u16 index + x)).
    replace (data + (u16 index + (x + 1))) with (d + 1) by (unfold d; lia).
    destruct (Z.leb_spec (d + 1) y), (Z.ltb_spec y (d + 1 + Z.of_nat n)), (Z.leb_spec d y), (Z.ltb_spec y (d + Z.of_nat (S n))),
      (Z.eqb_spec y d); try lia; done.
Qed.

(** The other program stores the result of read in place of the byte: every
    pixel of its picture is 1, whatever the file holds. *)
Lemma mono_rows_ones k : forall m content pos data w fuel,
  0 < w -> w * Z.of_nat k < 65536 -> (k < fuel)%nat -> (pos + Z.to_nat w * k <= length content)%nat ->
  exists m', mono_rows m content pos data w ((Z.of_nat k - 1) * w) fuel = Some m' /\
    forall y, data <= y < data + w * Z.of_nat k -> load8 m' y = 1.
Proof.
  enough (H : forall m content pos data w fuel, 0 < w -> w * Z.of_nat k < 65536 -> (k < fuel)%nat -> (pos + Z.to_nat w * k <= length content)%nat ->
    exists m', mono_rows m content pos data w ((Z.of_nat k - 1) * w) fuel = Some m' /\
      forall y, load8 m' y = if (data <=? y) && (y <? data + w * Z.of_nat k) then 1 else load8 m y).
  { intros m content pos data w fuel H1 H2 H3 H4. destruct (H m content pos data w fuel H1 H2 H3 H4) as (m' & E & Hm'). exists m'.
    split; [done|]. intros y Hy. by rewrite Hm', (proj2 (Z.leb_le _ _)), (proj2 (Z.ltb_lt _ _)) by lia. }
  induction k as [|k IH]; intros m content pos data w fuel Hw Hk Hf Hl; destruct fuel as [|fuel]; try lia; cbn [mono_rows].
  - rewrite (proj2 (Z.leb_gt _ _)) by lia. exists m. split; [done|]. intros y.
    destruct (Z.leb_spec data y), (Z.ltb_spec y (data + w * Z.of_nat 0)); done || lia.
  - rewrite Nat2Z.inj_succ in *. rewrite (proj2 (Z.leb_le _ _)) by nia.
    set (index := (Z.succ (Z.of_nat k) - 1) * w). assert (Ei : u16 index = index) by (apply u16_small; unfold index; nia).
    destruct (mono_row_spec (Z.to_nat w) m content pos data index 0 ltac:(nia)) as (Ep & Em).
    destruct (mono_row m content pos data index 0 (Z.to_nat w)) as (m1 & pos1). cbn [fst snd] in Ep, Em. subst pos1.
    assert (Eo : s32 (index - w) = (Z.of_nat k - 1) * w).
    { replace (index - w) with ((Z.of_nat k - 1) * w) by (unfold index; lia).
      destruct (Z.eq_dec (Z.of_nat k) 0) as [->|]; [|apply s32_small; nia]. unfold s32; cbv zeta. assert (w < 65536) by nia. zif; zlia. }
    rewrite Eo. destruct (IH m1 content (pos + Z.to_nat w)%nat data w fuel Hw ltac:(nia) ltac:(lia) ltac:(nia)) as (m' & E & Hm').
    exists m'. split; [done|]. intros y. rewrite Hm', Em. cbv zeta. rewrite Ei, Z.add_0_r, Z2Nat.id by lia. unfold index.
    destruct (Z.leb_spec data y), (Z.ltb_spec y (data + w * Z.of_nat k)), (Z.ltb_spec y (data + w * Z.succ (Z.of_nat k))),
      (Z.leb_spec (data + (Z.succ (Z.of_nat k) - 1) * w) y), (Z.ltb_spec y (data + (Z.succ (Z.of_nat k) - 1) * w + w)); try nia; done.
Qed.

(** ** A picture of two by two pixels *)

Module BmpDemo.
Import HeapDemo.










End BmpDemo.
