(* ===== verification/Libos.v ===== *)
(** * libos.h: the page allocator of the exokernel applications

    The allocator keeps its pages in a list and its chunks behind their
    headers, all in the memory of the process.  ExGetVA, ExGetFrame and
    ExAddPage give it pages; the addresses they deliver are part of the state.
    The theorems show what the code does with them: every small request is
    given the same address, and defrag does not end. *)

From S2P Require Import Prelude Memory Umalloc.

Open Scope Z_scope.

Definition PGSZ : Z := 4096.
Definition CSZ : Z := 8.
(** struct page: pages, current_size, freelist, alloclist, next. *)
Definition PAGE_SIZE : Z := 20.
Definition pg_pages (p : Z) : Z := p.
Definition pg_size (p : Z) : Z := p + 4.
Definition pg_free (p : Z) : Z := p + 8.
Definition pg_alloc (p : Z) : Z := p + 12.
Definition pg_next (p : Z) : Z := p + 16.
(** struct chunk: size, next. *)
Definition ck_size (c : Z) : Z := c.
Definition ck_next (c : Z) : Z := c + 4.

Record libst : Type := mkLib { lb_mem : mem; pagelist : Z; vas : list Z }.

(** [va = ExGetVA(); ExAddPage(va, ExGetFrame(1));] *)
Definition new_page (s : libst) : Z * libst :=
  match vas s with
  | [] => (0, s)
  | v :: vs => (v, mkLib (lb_mem s) (pagelist s) vs)
  end.

Definition init (s : libst) : libst :=
  let '(va, s) := new_page s in
  let m := store32 (lb_mem s) (pg_pages va) 1 in
  let m := store32 m (pg_size va) (PGSZ - PAGE_SIZE) in
  let m := store32 m (pg_free va) 0 in
  let m := store32 m (pg_alloc va) 0 in
  let m := store32 m (pg_next va) 0 in
  mkLib m va (vas s).

(** The header of a chunk at it->current_size. *)
Definition put_chunk (it size : Z) (m : mem) : mem :=
  let current := load32 m (pg_size it) in
  let m := store32 m (ck_size current) size in
  store32 m (ck_next current) (load32 m (pg_alloc it)).
Definition shrink (it size : Z) (m : mem) : mem :=
  store32 m (pg_size it) (u32 (load32 m (pg_size it) - (size + CSZ))).

(** The pages of a request of more than one page. *)
Fixpoint new_pages (n : nat) (s : libst) : list Z * libst :=
  match n with
  | O => ([], s)
  | S n => let '(va, s) := new_page s in let '(l, s) := new_pages n s in (va :: l, s)
  end.

Definition alloc (size : Z) (s : libst) : Z * libst :=
  let it := pagelist s in
  let m := lb_mem s in
  if u32 (load32 m (pg_size it) + CSZ) <? size then
    let location := u32 (load32 m (pg_size it) + CSZ) in
    (location, mkLib (shrink it size (put_chunk it size m)) (pagelist s) (vas s))
  else if size <? PGSZ - PAGE_SIZE then
    let '(va, s) := new_page s in
    let m := store32 (lb_mem s) (pg_pages va) 1 in
    let m := store32 m (pg_size va) (PGSZ - PAGE_SIZE) in
    let m := store32 m (pg_alloc va) 0 in
    let m := store32 m (pg_next va) it in
    let m := put_chunk va size m in
    (u32 (load32 m (pg_size va) + CSZ), mkLib (shrink va size m) (pagelist s) (vas s))
  else
    let num := if size mod PGSZ =? 0 then size / PGSZ else size / PGSZ + 1 in
    let '(l, s) := new_pages (Z.to_nat num) s in
    let temp := hd 0 l in
    let m := store32 (lb_mem s) (pg_pages temp) num in
    let m := store32 m (pg_size temp) (u32 (PGSZ * num - PAGE_SIZE)) in
    let m := store32 m (pg_alloc temp) 0 in
    let m := store32 m (pg_next temp) it in
    let m := put_chunk it size m in
    (u32 (load32 m (pg_size it) + CSZ), mkLib (shrink it size m) (pagelist s) (vas s)).

(** The chunk that was removed, 0 for none. *)
Fixpoint remove_chunk (address prev list : Z) (m : mem) (fuel : nat) : option (Z * mem) :=
  match fuel with
  | O => None
  | S fuel =>
      if load32 m (ck_next list) =? 0 then Some (0, m)
      else if list =? address then Some (list, store32 m (ck_next prev) (load32 m (ck_next list)))
      else remove_chunk address list (load32 m (ck_next list)) m fuel
  end.

Fixpoint dalloc_loop (location it : Z) (m : mem) (fuel : nat) : option mem :=
  match fuel with
  | O => None
  | S fuel' =>
      if it =? 0 then Some m
      else
        let l := load32 m (pg_alloc it) in
        match remove_chunk location l l m fuel' with
        | None => None
        | Some (temp, m) =>
            if negb (temp =? 0) then
              let m := store32 m (ck_next temp) (load32 m (pg_free it)) in
              Some (store32 m (pg_free it) temp)
            else dalloc_loop location (load32 m (pg_next it)) m fuel'
        end
  end.
Definition dalloc (address : Z) (s : libst) (fuel : nat) : option libst :=
  match dalloc_loop (u32 (address - CSZ)) (pagelist s) (lb_mem s) fuel with
  | Some m => Some (mkLib m (pagelist s) (vas s))
  | None => None
  end.

(** The loop over the chunk [temp], which does not change. *)
Fixpoint defrag_chunks (it temp : Z) (m : mem) (fuel : nat) : option mem :=
  match fuel with
  | O => None
  | S fuel' =>
      if temp =? 0 then Some m
      else
        let next := load32 m (ck_next temp) in
        if u32 (next + load32 m (ck_size next)) =? temp then
          let l := load32 m (pg_free it) in
          match remove_chunk temp l l m fuel' with
          | None => None
          | Some (current, m) =>
              let next := load32 m (ck_next temp) in
              let m := store32 m (ck_size next) (u32 (load32 m (ck_size next) + load32 m (ck_size current))) in
              defrag_chunks it temp m fuel'
          end
        else defrag_chunks it temp m fuel'
  end.

Fixpoint defrag_pages (it : Z) (m : mem) (fuel : nat) : option mem :=
  match fuel with
  | O => None
  | S fuel' =>
      if it =? 0 then Some m
      else
        match defrag_chunks it (load32 m (pg_free it)) m fuel' with
        | None => None
        | Some m => defrag_pages (load32 m (pg_next it)) m fuel'
        end
  end.
Definition defrag (s : libst) (fuel : nat) : option libst :=
  match defrag_pages (pagelist s) (lb_mem s) fuel with
  | Some m => Some (mkLib m (pagelist s) (vas s))
  | None => None
  end.

(** The calls of FileTransfer. *)
Inductive excall : Type :=
| ExResetTransferCount
| ExFileRead (name : string) (loc : Z)
| ExReadSector.

Definition FileTransfer (base : Z) (sbrk : Z -> heap -> option heap) (name : string) (size : Z) (h : heap) (fuel : nat)
    : option (Z * heap * list excall) :=
  match malloc base sbrk size h fuel with
  | Some (loc, h) => Some (loc, h, [ExResetTransferCount; ExFileRead name loc; ExReadSector])
  | None => None
  end.

(** ** What the allocator does *)

(** A new page: page aligned, away from the first page, whose header lies at
    [p] and says that 4076 bytes are free. *)
Definition page_apart (p v : Z) : Prop := 4096 <= v /\ (v + 4096 <= p \/ p + 4096 <= v).
Definition first_page (s : libst) : Prop := 4096 <= pagelist s /\ load32 (lb_mem s) (pg_size (pagelist s)) = PGSZ - PAGE_SIZE.

(** A request that fits into a page: the answer is 4084, which is the offset of
    the block in a page and not its address, and the first page is as before. *)
Lemma alloc_small size s v vs : first_page s -> vas s = v :: vs -> page_apart (pagelist s) v -> 0 <= size < PGSZ - PAGE_SIZE ->
  exists s', alloc size s = (4084, s') /\ first_page s' /\ pagelist s' = pagelist s /\ vas s' = vs.
Proof.
  intros (Hp & Hcs) Hv (Hv1 & Hv2) Hs. unfold PGSZ, PAGE_SIZE in *. unfold alloc, new_page. rewrite Hcs, Hv. unfold CSZ, PGSZ, PAGE_SIZE.
  rewrite (proj2 (Z.ltb_ge _ _)) by (rewrite u32_small; lia). rewrite (proj2 (Z.ltb_lt _ _)) by lia. cbn [lb_mem pagelist vas].
  set (m := store32 _ (pg_next v) _).
  assert (E1 : load32 m (pg_size v) = 4076).
  { unfold m, pg_size, pg_next, pg_alloc, pg_pages. rewrite !load32_store32_other by lia. by rewrite load32_store32. }
  assert (E2 : load32 m (pg_size (pagelist s)) = 4076).
  { unfold m, pg_size, pg_next, pg_alloc, pg_pages in *. rewrite !load32_store32_other by lia. exact Hcs. }
  assert (Eput : forall a, 4084 <= a -> load32 (put_chunk v size m) a = load32 m a).
  { intros a Ha. unfold put_chunk, ck_size, ck_next. rewrite E1. by rewrite !load32_store32_other by lia. }
  rewrite (Eput (pg_size v)), E1 by (unfold pg_size; lia). eexists. split; [reflexivity|]. split; [|done].
  split; [done|]. cbn [lb_mem pagelist]. unfold shrink. unfold pg_size in *. rewrite load32_store32_other by lia. by rewrite Eput, E2 by lia.
Qed.

Fixpoint alloc_all (sizes : list Z) (s : libst) : list Z * libst :=
  match sizes with
  | [] => ([], s)
  | n :: sizes => let '(a, s) := alloc n s in let '(l, s) := alloc_all sizes s in (a :: l, s)
  end.

(** All requests of less than a page, after init, are given the same address:
    the blocks overlap, and none of them lies in a page of the allocator. *)
Lemma alloc_same_block sizes : forall s, first_page s ->
  Forall (page_apart (pagelist s)) (vas s) -> (length sizes <= length (vas s))%nat ->
  Forall (fun n => 0 <= n < PGSZ - PAGE_SIZE) sizes ->
  fst (alloc_all sizes s) = repeat 4084 (length sizes).
Proof.
  induction sizes as [|n sizes IH]; intros s Hf Hv Hl Hn; [done|]. apply Forall_cons in Hn as (Hn1 & Hn).
  destruct (vas s) as [|v vs] eqn:Ev; [simpl in Hl; lia|]. apply Forall_cons in Hv as (Hv1 & Hv).
  destruct (alloc_small n s v vs Hf Ev Hv1 Hn1) as (s' & E & Hf' & Ep & Evs). cbn [alloc_all]. rewrite E.
  specialize (IH s' Hf'). rewrite Ep, Evs in IH. specialize (IH Hv ltac:(simpl in Hl; lia) Hn).
  destruct (alloc_all sizes s') as (l & s''). cbn [fst length repeat] in *. by rewrite IH.
Qed.

Lemma init_first_page s v vs : vas s = v :: vs -> 4096 <= v < 4294963200 -> first_page (init s) /\ pagelist (init s) = v /\ vas (init s) = vs.
Proof.
  intros Ev Hv. unfold init, new_page. rewrite Ev. cbn [lb_mem pagelist vas]. split; [|done]. split; [cbn; lia|].
  cbn [lb_mem pagelist]. unfold pg_size, pg_free, pg_alloc, pg_next, pg_pages. rewrite !load32_store32_other by lia. by rewrite load32_store32.
Qed.

(** With a free chunk, defrag never ends: its inner loop does not step to the
    next chunk. *)
Lemma defrag_chunks_stuck it temp fuel : temp <> 0 -> forall m, defrag_chunks it temp m fuel = None.
Proof.
  intros Ht. induction fuel as [|fuel IH]; intros m; [done|]. cbn [defrag_chunks]. rewrite (proj2 (Z.eqb_neq _ _)) by done.
  destruct (_ =? temp); [|done]. by destruct (remove_chunk _ _ _ _ _) as [[current m']|].
Qed.

Lemma defrag_never_ends s fuel : pagelist s <> 0 -> load32 (lb_mem s) (pg_free (pagelist s)) <> 0 -> defrag s fuel = None.
Proof.
  intros Hp Hf. unfold defrag. destruct fuel as [|fuel]; [done|]. cbn [defrag_pages]. rewrite (proj2 (Z.eqb_neq _ _)) by done.
  by rewrite defrag_chunks_stuck.
Qed.
