(* ===== verification/Spinlock.v ===== *)
(** * spinlock.c: mutual exclusion between CPUs

    The state is every CPU's interrupt bookkeeping and every lock word.
    [acquire] and [release] are the C functions as one CPU runs them; [step]
    is their interleaving, cut at each access to the lock word, with a CPU
    spinning for as long as [xchg] returns 1.  Two results: the sequential
    view of locks that the other components use ([Locks.v]) is implemented by
    this code, and in every reachable state of the interleaving at most one
    CPU is inside the critical section of a lock. *)

From S2P Require Import Prelude Monad Locks Memory Mmu.

Open Scope Z_scope.
Open Scope kernel_scope.

(** [struct spinlock]; [lcpu] is the [cpu] pointer, as a CPU number. *)
Record spinlock : Type := mkSpin {
  locked : bool;
  name : string;
  lcpu : option nat;
  pcs : list Z
}.

(** The part of [struct cpu] spinlock.c uses, with the interrupt flag. *)
Record cpu : Type := mkCpu {
  ncli : Z;
  intena : bool;
  fl_if : bool
}.

Record machine : Type := mkMach {
  cpus : nat -> cpu;
  locks : lock -> spinlock
}.

Definition upd_cpu (c : nat) (k : cpu) (m : machine) : machine :=
  mkMach (fun i => if decide (i = c) then k else cpus m i) (locks m).
Definition upd_lock (l : lock) (v : spinlock) (m : machine) : machine :=
  mkMach (cpus m) (fun i => if decide (i = l) then v else locks m i).

Definition initlock (l : lock) (nm : string) : M machine unit :=
  modify (fun m => upd_lock l (mkSpin false nm None (pcs (locks m l))) m).

Definition holding (c : nat) (l : lock) (m : machine) : bool :=
  locked (locks m l) && bool_decide (lcpu (locks m l) = Some c).

Definition pushcli (c : nat) : M machine unit := modify (fun m =>
  let k := cpus m c in
  upd_cpu c (mkCpu (ncli k + 1) (if ncli k =? 0 then fl_if k else intena k) false) m).

Definition popcli (c : nat) : M machine unit := fun m =>
  let k := cpus m c in
  if fl_if k then Panic "popcli - interruptible"
  else if ncli k - 1 <? 0 then Panic "popcli"
  else Ok tt (upd_cpu c (mkCpu (ncli k - 1) (intena k)
                          ((ncli k - 1 =? 0) && intena k)) m).

(** The atomic exchange on the lock word. *)
Definition xchg (l : lock) (v : bool) : M machine bool := fun m =>
  let lk := locks m l in
  Ok (locked lk) (upd_lock l (mkSpin v (name lk) (lcpu lk) (pcs lk)) m).

Definition record_owner (c : nat) (l : lock) (stack : list Z) : M machine unit :=
  modify (fun m => let lk := locks m l in
    upd_lock l (mkSpin (locked lk) (name lk) (Some c) stack) m).

Definition clear_owner (l : lock) : M machine unit :=
  modify (fun m => let lk := locks m l in
    upd_lock l (mkSpin (locked lk) (name lk) None (<[0%nat := 0]> (pcs lk))) m).

(** [acquire] when the first exchange finds the lock free; the other CPUs'
    steps that free a lock being spun on are in [step]. *)
Definition acquire (c : nat) (l : lock) (stack : list Z) : M machine unit :=
  pushcli c ;;
  do h <- gets (holding c l);
  if h then panic "acquire"
  else
    do old <- xchg l true;
    if old then fault "spins" else record_owner c l stack.

Definition release (c : nat) (l : lock) : M machine unit :=
  do h <- gets (holding c l);
  if negb h then panic "release"
  else clear_owner l ;; (do _ <- xchg l false; ret tt) ;; popcli c.

(** getcallerpcs: follow the saved frame pointers, ten at most. *)
Fixpoint callerpcs_loop (m : mem) (ebp : Z) (n : nat) : list Z :=
  match n with
  | O => []
  | S n =>
      if (ebp =? 0) || (ebp <? KERNBASE) || (ebp =? 4294967295) then repeat 0 (S n)
      else load32 m (u32 (ebp + 4)) :: callerpcs_loop m (load32 m ebp) n
  end.

Definition getcallerpcs (m : mem) (v : Z) : list Z := callerpcs_loop m (u32 (v - 8)) 10.

Lemma length_getcallerpcs m v : length (getcallerpcs m v) = 10%nat.
Proof.
  unfold getcallerpcs. generalize (u32 (v - 8)) 10%nat. intros ebp n. revert ebp.
  induction n as [|n IH]; intros ebp; cbn [callerpcs_loop]; [done|].
  destruct ((ebp =? 0) || _ || _); [by rewrite repeat_length|]. simpl. by rewrite IH.
Qed.

(** ** Refinement: the thread view of Locks.v *)

Definition view (m : machine) (c : nat) (t : thread) : Prop :=
  NoDup (held t) /\
  (forall l, l ∈ held t <-> holding c l m = true) /\
  ncli (cpus m c) = Z.of_nat (length (held t)) /\
  (held t <> [] -> fl_if (cpus m c) = false).

(** A lock nobody holds has no recorded owner. *)
Definition lock_free (m : machine) (l : lock) : Prop :=
  locked (locks m l) = false.

Lemma holding_upd_cpu c c' k l m : holding c l (upd_cpu c' k m) = holding c l m.
Proof. done. Qed.

Lemma holding_upd_lock c l l' v m :
  holding c l (upd_lock l' v m) =
    if decide (l = l') then locked v && bool_decide (lcpu v = Some c) else holding c l m.
Proof. unfold holding. simpl. by destruct (decide (l = l')) as [->|]. Qed.

Lemma acquire_run c l stack m :
  lock_free m l ->
  exists m', acquire c l stack m = Ok tt m' /\
    (forall l', holding c l' m' = if decide (l' = l) then true else holding c l' m) /\
    (forall c' l', c' <> c -> holding c' l' m' = holding c' l' m) /\
    ncli (cpus m' c) = ncli (cpus m c) + 1 /\ fl_if (cpus m' c) = false.
Proof.
  intros Hf. unfold acquire, bind, pushcli, gets, modify, holding at 1, xchg, record_owner, modify.
  simpl. rewrite Hf. simpl. rewrite Hf. eexists. split; [reflexivity|].
  split; [|split; [|split]].
  - intros l'. unfold holding. simpl. destruct (decide (l' = l)) as [->|]; simpl.
    + repeat (rewrite decide_True by done; simpl). by rewrite bool_decide_true.
    + done.
  - intros c' l' Hc. unfold holding. simpl. destruct (decide (l' = l)) as [->|]; simpl.
    + rewrite Hf. rewrite bool_decide_false by congruence. by rewrite andb_false_r.
    + done.
  - simpl. by rewrite decide_True.
  - simpl. by rewrite decide_True.
Qed.

Lemma release_run c l m :
  holding c l m = true -> 0 < ncli (cpus m c) -> fl_if (cpus m c) = false ->
  exists m', release c l m = Ok tt m' /\
    (forall l', holding c l' m' = if decide (l' = l) then false else holding c l' m) /\
    ncli (cpus m' c) = ncli (cpus m c) - 1 /\
    fl_if (cpus m' c) = ((ncli (cpus m c) - 1 =? 0) && intena (cpus m c)) /\
    lock_free m' l.
Proof.
  intros Hh Hn Hi. unfold release, bind, gets. rewrite Hh. cbn [negb].
  unfold clear_owner, modify, xchg, ret, popcli. cbn.
  rewrite Hi. zif; [lia|]. eexists. split; [reflexivity|].
  split; [|split; [|split]].
  - intros l'. unfold holding. simpl. by destruct (decide (l' = l)).
  - simpl. by rewrite decide_True.
  - simpl. by rewrite decide_True.
  - unfold lock_free. simpl. by rewrite decide_True.
Qed.

Lemma view_held m c t l : view m c t -> l ∈ held t ->
  holding c l m = true /\ 0 < ncli (cpus m c) /\ fl_if (cpus m c) = false.
Proof.
  intros (_ & Hl & Hn & Hi) Hin. split; [by apply Hl|]. split.
  - rewrite Hn. destruct (held t); [set_solver|simpl; lia].
  - apply Hi. intros E. rewrite E in Hin. set_solver.
Qed.

Lemma view_acquire m c t l stack :
  view m c t -> lock_free m l ->
  exists m', acquire c l stack m = Ok tt m' /\ view m' c (mkThread (l :: held t) (wakes t)).
Proof.
  intros (Hnd & Hl & Hn & Hi) Hf.
  destruct (acquire_run c l stack m Hf) as (m' & Hrun & Hh & _ & Hn' & Hi').
  exists m'. split; [done|]. unfold view. simpl.
  assert (Hnot : l ∉ held t).
  { rewrite Hl. unfold holding. rewrite Hf. done. }
  split; [by constructor|]. split; [|split; [|done]].
  - intros l'. rewrite Hh, elem_of_cons, Hl. destruct (decide (l' = l)); naive_solver.
  - rewrite Hn', Hn. lia.
Qed.

Lemma view_release m c t l :
  view m c t -> l ∈ held t ->
  exists m', release c l m = Ok tt m' /\
    view m' c (mkThread (drop_lock l (held t)) (wakes t)) /\ lock_free m' l.
Proof.
  intros Hv Hin. destruct (view_held m c t l Hv Hin) as (Hh & Hpos & Hoff).
  destruct Hv as (Hnd & Hl & Hn & Hi).
  destruct (release_run c l m Hh Hpos Hoff) as (m' & Hrun & Hh' & Hn' & Hi' & Hfree).
  pose proof (length_drop_lock l (held t) Hin) as Hlen.
  exists m'. split; [done|]. split; [|done]. unfold view. simpl.
  split; [by apply NoDup_drop_lock|]. split; [|split].
  - intros l'. rewrite elem_of_drop_lock, Hh', Hl by done.
    destruct (decide (l' = l)); naive_solver.
  - rewrite Hn', Hn. lia.
  - intros Hne. rewrite Hi'. zcase (ncli (cpus m c) - 1 =? 0); [|done].
    destruct (drop_lock l (held t)); [done|]. simpl in Hlen. lia.
Qed.

(** C27: spinlock.c implements the view of locks the rest of the kernel is
    verified against: on a free lock, on a lock this CPU already holds, and
    on a release of a lock it does or does not hold, the C code and
    [Locks.v] take the same branch, and the set of held locks, the nesting
    count and the interrupt flag stay in step. *)
Theorem spinlock_implements_locks m c t l stack :
  view m c t ->
  (lock_free m l -> exists m' t', acquire c l stack m = Ok tt m' /\
     Locks.acquire l t = Ok tt t' /\ view m' c t') /\
  (l ∈ held t -> acquire c l stack m = Panic "acquire" /\
     Locks.acquire l t = Panic "acquire") /\
  (l ∈ held t -> exists m' t', release c l m = Ok tt m' /\
     Locks.release l t = Ok tt t' /\ view m' c t' /\ lock_free m' l) /\
  (l ∉ held t -> release c l m = Panic "release" /\
     Locks.release l t = Panic "release").
Proof.
  intros Hv. pose proof Hv as (Hnd & Hl & _). split; [|split; [|split]].
  - intros Hf. destruct (view_acquire m c t l stack Hv Hf) as (m' & Hr & Hv').
    exists m', (mkThread (l :: held t) (wakes t)). split; [done|]. split; [|done].
    rewrite acquire_ok; [done|]. simpl. rewrite Hl. unfold holding. by rewrite Hf.
  - intros Hin. split; [|by apply acquire_again].
    unfold acquire, bind, pushcli, modify, gets. rewrite holding_upd_cpu.
    rewrite (proj1 (Hl l) Hin). done.
  - intros Hin. destruct (view_release m c t l Hv Hin) as (m' & Hr & Hv' & Hf).
    exists m', (mkThread (drop_lock l (held t)) (wakes t)). split; [done|].
    split; [|done]. unfold Locks.release, Locks.holding. simpl.
    by rewrite bool_decide_true.
  - intros Hin. split; [|by apply release_unheld].
    unfold release, bind, gets. rewrite Hl in Hin. by destruct (holding c l m).
Qed.

(** ** Interleaving of all CPUs *)

(** Where a CPU is between two atomic steps of acquire or release. *)
Inductive pcst : Type :=
| Idle
| Spin (l : lock)     (* before the next xchg of acquire *)
| Rec (l : lock)      (* lock taken, owner not recorded yet *)
| Rel (l : lock)      (* owner cleared, before the xchg of release *)
| Pop.                (* before popcli of release *)

Record sys : Type := mkSys { mach : machine; pc : nat -> pcst }.

Definition set_pc (s : sys) (m : machine) (c : nat) (p : pcst) : sys :=
  mkSys m (fun i => if decide (i = c) then p else pc s i).

Inductive step : sys -> sys -> Prop :=
| step_push s c l m : pc s c = Idle -> pushcli c (mach s) = Ok tt m ->
    holding c l m = false -> step s (set_pc s m c (Spin l))
| step_spin s c l m : pc s c = Spin l -> xchg l true (mach s) = Ok true m ->
    step s (set_pc s m c (Spin l))
| step_take s c l m : pc s c = Spin l -> xchg l true (mach s) = Ok false m ->
    step s (set_pc s m c (Rec l))
| step_record s c l stack m : pc s c = Rec l -> record_owner c l stack (mach s) = Ok tt m ->
    step s (set_pc s m c Idle)
| step_clear s c l m : pc s c = Idle -> holding c l (mach s) = true ->
    clear_owner l (mach s) = Ok tt m -> step s (set_pc s m c (Rel l))
| step_free s c l b m : pc s c = Rel l -> xchg l false (mach s) = Ok b m ->
    step s (set_pc s m c Pop)
| step_pop s c m : pc s c = Pop -> popcli c (mach s) = Ok tt m ->
    step s (set_pc s m c Idle).

Definition initial (s : sys) : Prop :=
  (forall c, pc s c = Idle) /\
  (forall l, locked (locks (mach s) l) = false /\ lcpu (locks (mach s) l) = None).

Inductive reachable : sys -> Prop :=
| reach_init s : initial s -> reachable s
| reach_step s s' : reachable s -> step s s' -> reachable s'.

(** A CPU is inside the critical section of [l] from the exchange that takes
    it to the exchange that frees it. *)
Definition in_cs (s : sys) (c : nat) (l : lock) : Prop :=
  pc s c = Rec l \/ pc s c = Rel l \/ holding c l (mach s) = true.

Definition crit (s : sys) (c : nat) (l : lock) : Prop := pc s c = Rec l \/ pc s c = Rel l.

(** Each lock is free, or changing hands under one CPU, or owned by one. *)
Definition lock_inv (s : sys) (l : lock) : Prop :=
  let lk := locks (mach s) l in
  (locked lk = false /\ lcpu lk = None /\ forall c, ~ crit s c l) \/
  (locked lk = true /\ lcpu lk = None /\ exists c, crit s c l /\ forall c', crit s c' l -> c' = c) \/
  (locked lk = true /\ (exists c, lcpu lk = Some c) /\ forall c, ~ crit s c l).

Lemma crit_set_pc s m c p c' l :
  crit (set_pc s m c p) c' l <->
    (c' = c /\ (p = Rec l \/ p = Rel l)) \/ (c' <> c /\ crit s c' l).
Proof. unfold crit, set_pc. simpl. destruct (decide (c' = c)); naive_solver. Qed.

(** A step that leaves a lock's word alone and does not move its CPU into or
    out of that lock's transit states keeps the invariant of that lock. *)
Lemma lock_inv_frame s m c p l :
  locks m l = locks (mach s) l -> ~ crit s c l -> p <> Rec l -> p <> Rel l ->
  lock_inv s l -> lock_inv (set_pc s m c p) l.
Proof.
  intros Hlk Hc H1 H2. unfold lock_inv. simpl. rewrite Hlk.
  assert (Hcr : forall c', crit (set_pc s m c p) c' l <-> crit s c' l).
  { intros c'. rewrite crit_set_pc. destruct (decide (c' = c)) as [->|]; naive_solver. }
  setoid_rewrite Hcr. done.
Qed.

Ltac nocrit := intros [?|?]; congruence.

Lemma lock_inv_step s s' : step s s' -> (forall l, lock_inv s l) -> forall l, lock_inv s' l.
Proof.
  intros Hst Hinv l0. pose proof (Hinv l0) as H0.
  destruct Hst as [s c l m Hp Hm Hh|s c l m Hp Hm|s c l m Hp Hm|s c l stk m Hp Hm
                  |s c l m Hp Hh Hm|s c l b m Hp Hm|s c m Hp Hm].
  - injection Hm as <-. apply lock_inv_frame; [done|nocrit|done|done|done].
  - injection Hm as Hb <-. destruct (decide (l0 = l)) as [->|].
    + apply lock_inv_frame; [|nocrit|done|done|done].
      simpl. rewrite decide_True by done. rewrite <- Hb. by destruct (locks (mach s) l).
    + apply lock_inv_frame; [simpl; by rewrite decide_False|nocrit|done|done|done].
  - injection Hm as Hb <-. destruct (decide (l0 = l)) as [->|].
    + right; left. simpl. rewrite decide_True by done. simpl.
      destruct H0 as [(_ & Hn & Hc)|[(Hl & _)|(Hl & _)]]; [|congruence|congruence].
      split; [done|]. split; [done|]. exists c. split; [apply crit_set_pc; naive_solver|].
      intros c' Hc'. apply crit_set_pc in Hc' as [[-> _]|[_ Hc']]; [done|]. naive_solver.
    + apply lock_inv_frame; [simpl; by rewrite decide_False|nocrit|congruence|done|done].
  - injection Hm as <-. destruct (decide (l0 = l)) as [->|].
    + right; right. simpl. rewrite decide_True by done. simpl.
      destruct H0 as [(_ & _ & Hc)|[(Hl & _ & c1 & Hc1 & Hu)|(_ & _ & Hc)]];
        [destruct (Hc c); by left| |destruct (Hc c); by left].
      split; [done|]. split; [by exists c|]. intros c' Hc'.
      apply crit_set_pc in Hc' as [[_ [?|?]]|[Hne Hc']]; [done|done|].
      apply Hne. rewrite (Hu c' Hc'). symmetry. apply Hu. by left.
    + apply lock_inv_frame; [simpl; by rewrite decide_False|nocrit|done|done|done].
  - injection Hm as <-. unfold holding in Hh. apply andb_true_iff in Hh as [Hl Hown].
    apply bool_decide_eq_true in Hown. destruct (decide (l0 = l)) as [->|].
    + right; left. simpl. rewrite decide_True by done. simpl.
      destruct H0 as [(H0 & _)|[(_ & H0 & _)|(_ & _ & Hc)]]; [congruence|congruence|].
      split; [done|]. split; [done|]. exists c. split; [apply crit_set_pc; naive_solver|].
      intros c' Hc'. apply crit_set_pc in Hc' as [[-> _]|[_ Hc']]; [done|]. naive_solver.
    + apply lock_inv_frame; [simpl; by rewrite decide_False|nocrit|done|congruence|done].
  - injection Hm as Hb <-. destruct (decide (l0 = l)) as [->|].
    + left. simpl. rewrite decide_True by done. simpl.
      destruct H0 as [(_ & _ & Hc)|[(Hl & Hn & c1 & Hc1 & Hu)|(_ & _ & Hc)]];
        [destruct (Hc c); by right| |destruct (Hc c); by right].
      split; [done|]. split; [done|]. intros c' Hc'.
      apply crit_set_pc in Hc' as [[_ [?|?]]|[Hne Hc']]; [done|done|].
      apply Hne. rewrite (Hu c' Hc'). symmetry. apply Hu. by right.
    + apply lock_inv_frame; [simpl; by rewrite decide_False|nocrit|done|done|done].
  - unfold popcli in Hm. destruct (fl_if _); [done|]. destruct (_ <? 0); [done|].
    injection Hm as <-. apply lock_inv_frame; [done|nocrit|done|done|done].
Qed.

Lemma reachable_lock_inv s : reachable s -> forall l, lock_inv s l.
Proof.
  induction 1 as [s (Hpc & Hl)|s s' _ IH Hst]; [|by eapply lock_inv_step].
  intros l. left. destruct (Hl l) as [H1 H2]. split; [done|]. split; [done|].
  intros c [H|H]; rewrite Hpc in H; done.
Qed.

(** C11: mutual exclusion: in every reachable interleaving of acquire and
    release on any number of CPUs, no two CPUs are inside the critical
    section of the same lock. *)
Theorem spinlock_mutual_exclusion s c1 c2 l :
  reachable s -> in_cs s c1 l -> in_cs s c2 l -> c1 = c2.
Proof.
  intros Hr H1 H2. pose proof (reachable_lock_inv s Hr l) as Hi.
  assert (Hcs : forall c, in_cs s c l ->
    crit s c l \/ lcpu (locks (mach s) l) = Some c /\ locked (locks (mach s) l) = true).
  { intros c [?|[?|Hh]]; [by left; left|by left; right|right].
    unfold holding in Hh. apply andb_true_iff in Hh as [? Ho].
    by apply bool_decide_eq_true in Ho. }
  apply Hcs in H1, H2.
  destruct Hi as [(Hl & Hn & Hc)|[(Hl & Hn & c0 & Hc0 & Hu)|(Hl & [c0 Ho] & Hc)]].
  - destruct H1 as [H1|[H1 _]]; [naive_solver|congruence].
  - destruct H1 as [H1|[H1 _]], H2 as [H2|[H2 _]]; try congruence.
    by rewrite (Hu c1), (Hu c2).
  - destruct H1 as [H1|[H1 _]], H2 as [H2|[H2 _]]; naive_solver.
Qed.

(** ** Concrete instances *)

Module SpinlockDemo.

Definition m0 : machine :=
  mkMach (fun _ => mkCpu 0 false true) (fun _ => mkSpin false "lock" None (repeat 0 10)).

Definition s0 : sys := mkSys m0 (fun _ => Idle).

Definition run {A} (f : M machine A) (m : machine) : machine :=
  match f m with Ok _ m' => m' | _ => m end.

(** CPU 0 takes the log lock. *)
Definition m1 : machine := run (pushcli 0) m0.
Definition s1 : sys := set_pc s0 m1 0 (Spin LkLog).
Definition s2 : sys := set_pc s1 (run (xchg LkLog true) m1) 0 (Rec LkLog).

Lemma s2_reachable : reachable s2.
Proof.
  apply (reach_step s1).
  - apply (reach_step s0); [apply reach_init; by split|]. by apply step_push.
  - by apply step_take.
Qed.

Lemma view0 : view m0 0 (mkThread [] []).
Proof.
  split; [constructor|]. split; [|by split].
  intros l. simpl. unfold holding. simpl. split; [|done].
  intros H. by apply elem_of_nil in H.
Qed.

Lemma spinlock_implements_locks_witness :
  (exists m' t', acquire 0 LkKmem [] m0 = Ok tt m' /\
     Locks.acquire LkKmem (mkThread [] []) = Ok tt t' /\ view m' 0 t') /\
  release 0 LkKmem m0 = Panic "release".
Proof.
  destruct (spinlock_implements_locks m0 0 (mkThread [] []) LkKmem [] view0)
    as (H1 & _ & _ & H4).
  split; [by apply H1|]. apply H4. apply not_elem_of_nil.
Defined.

Lemma spinlock_mutual_exclusion_witness : in_cs s2 0 LkLog /\ ~ in_cs s2 1 LkLog.
Proof.
  split; [by left|]. intros H.
  discriminate (spinlock_mutual_exclusion s2 0 1 LkLog s2_reachable (or_introl eq_refl) H).
Defined.

End SpinlockDemo.
