(* ===== verification/Kalloc.v ===== *)
(** * kalloc.c: the physical page allocator and the exokernel frame list

    The free list is threaded through the free pages themselves: the first
    word of a free page holds the address of the next one.  [kend] is the
    linker symbol [end], the first address after the kernel image, and
    [start_addr] the address of the global [start], the head of the list of
    frames handed to exokernel processes.

    [free_list] relates the state to the list of free pages; the operations
    are proved against an abstract allocator on lists of pages. *)

From S2P Require Import Prelude Monad Locks Memory CString Mmu.

Open Scope Z_scope.
Open Scope kernel_scope.

Record kstate : Type := mkK {
  kmemory : mem;          (* all of memory, by kernel virtual address *)
  use_lock : bool;        (* kmem.use_lock *)
  freelist : Z;           (* kmem.freelist, 0 when empty *)
  frames : Z;             (* the counter [frames] *)
  kthr : thread
}.

#[export] Instance kstate_KState : KState kstate.
Proof.
  refine {| thr := kthr;
            set_thr t s := mkK (kmemory s) (use_lock s) (freelist s) (frames s) t |};
    intros; try done. by destruct s.
Defined.

Definition set_mem (f : mem -> mem) (s : kstate) : kstate :=
  mkK (f (kmemory s)) (use_lock s) (freelist s) (frames s) (kthr s).
Definition set_freelist (p : Z) (s : kstate) : kstate :=
  mkK (kmemory s) (use_lock s) p (frames s) (kthr s).
Definition set_use_lock (b : bool) (s : kstate) : kstate :=
  mkK (kmemory s) b (freelist s) (frames s) (kthr s).
Definition set_frames (n : Z) (s : kstate) : kstate :=
  mkK (kmemory s) (use_lock s) (freelist s) n (kthr s).

(** Reads and writes of memory words by kernel code. *)
Definition rd32 (a : Z) : M kstate Z := gets (fun s => load32 (kmemory s) a).
Definition wr32 (a v : Z) : M kstate unit := modify (set_mem (fun m => store32 m a v)).

(** [struct framelist] is four words: pid, frame, next, padding. *)
Definition FL_PID : Z := 0.
Definition FL_FRAME : Z := 4.
Definition FL_NEXT : Z := 8.
Definition FL_SIZE : Z := 16.

(** At most one free page per page frame below PHYSTOP, and one frame record
    per slot of the eight pages mapped above PHYSTOP: enough fuel for the
    walks of the two lists. *)
Definition npages : nat := Z.to_nat (PHYSTOP / PGSIZE + 1).
Definition nslots : nat := Z.to_nat (8 * PGSIZE / FL_SIZE + 2).

Lemma npages_eq : npages = Z.to_nat 57345.
Proof. done. Qed.

Lemma nslots_eq : nslots = Z.to_nat 2050.
Proof. done. Qed.

#[global] Opaque npages nslots.

Section kalloc.
Context (kend start_addr : Z).

Definition valid_page (v : Z) : bool :=
  negb (negb (v mod PGSIZE =? 0) || (v <? kend) || (PHYSTOP <=? v2p v)).

Definition lock_kmem : M kstate unit :=
  do ul <- gets use_lock; if ul then acquire LkKmem else ret tt.
Definition unlock_kmem : M kstate unit :=
  do ul <- gets use_lock; if ul then release LkKmem else ret tt.

Definition kfree (v : Z) : M kstate unit :=
  if negb (v mod PGSIZE =? 0) || (v <? kend) || (PHYSTOP <=? v2p v)
  then panic "kfree"
  else
    modify (set_mem (fun m => memset m v 1 PGSIZE)) ;;
    lock_kmem ;;
    (do fl <- gets freelist; wr32 v fl) ;;
    modify (set_freelist v) ;;
    unlock_kmem.

Definition kalloc : M kstate Z :=
  lock_kmem ;;
  do r <- gets freelist;
  (if negb (r =? 0) then do nx <- rd32 r; modify (set_freelist nx) else ret tt) ;;
  unlock_kmem ;;
  ret r.

(** The loop of freerange runs while a whole page is left before [vend]. *)
Fixpoint freerange_loop (p vend : Z) (fuel : nat) : M kstate unit :=
  match fuel with
  | O => fault "fuel"
  | S fuel =>
      if p + PGSIZE <=? vend then kfree p ;; freerange_loop (p + PGSIZE) vend fuel
      else ret tt
  end.

Definition freerange (vstart vend : Z) : M kstate unit :=
  freerange_loop (PGROUNDUP vstart) vend (S (Z.to_nat (vend / PGSIZE))).

Definition kinit1 (vstart vend : Z) : M kstate unit :=
  initlock LkKmem ;; modify (set_use_lock false) ;; freerange vstart vend.

Definition kinit2 (vstart vend : Z) : M kstate unit :=
  freerange vstart vend ;; modify (set_use_lock true).

Definition initframes : M kstate unit :=
  modify (set_frames 0) ;;
  wr32 (start_addr + FL_NEXT) (u32 (PHYSTOP + KERNBASE)) ;;
  (do nx <- rd32 (start_addr + FL_NEXT); wr32 (nx + FL_NEXT) 0) ;;
  wr32 (start_addr + FL_FRAME) 0 ;;
  wr32 (start_addr + FL_PID) (-1).

(** allocadd, first loop: look for [frame] on the free list; when it is
    found, the structure it points at is overwritten with the one that
    follows it ([*freelist = *freelist->next]). *)
Fixpoint allocadd_search (p frame : Z) (fuel : nat) : M kstate bool :=
  match fuel with
  | O => fault "fuel"
  | S fuel =>
      if p =? 0 then ret false
      else if p =? frame then
        do nx <- rd32 p;
        if nx =? 0 then fault "null dereference in allocadd"
        else do nn <- rd32 nx; wr32 p nn ;; ret true
      else do nx <- rd32 p; allocadd_search nx frame fuel
  end.

(** allocadd, second loop: the last record of the frame list. *)
Fixpoint allocadd_last (f : Z) (fuel : nat) : M kstate Z :=
  match fuel with
  | O => fault "fuel"
  | S fuel => do nx <- rd32 (f + FL_NEXT); if nx =? 0 then ret f else allocadd_last nx fuel
  end.

Definition allocadd (pid frame : Z) : M kstate Z :=
  if frame =? 0 then ret 0
  else
    do fl <- gets freelist;
    if fl =? 0 then ret 0
    else
      do found <- allocadd_search fl frame npages;
      if negb found then ret 0
      else
        do f <- allocadd_last start_addr nslots;
        wr32 (f + FL_PID) pid ;;
        wr32 (f + FL_FRAME) frame ;;
        wr32 (f + FL_SIZE + FL_NEXT) 0 ;;
        wr32 (f + FL_NEXT) (f + FL_SIZE) ;;
        ret 1.

Definition getfreelist : M kstate Z := gets freelist.

(** ** The free list as a list of pages *)

Fixpoint chain (m : mem) (p : Z) (l : list Z) : Prop :=
  match l with
  | [] => p = 0
  | a :: l => p = a /\ a <> 0 /\ chain m (load32 m a) l
  end.

(** A page the allocator may own: aligned, after the kernel, below PHYSTOP. *)
Definition page_ok (v : Z) : Prop :=
  0 < v < 4294967296 /\ v mod 4096 = 0 /\ kend <= v /\ v2p v < PHYSTOP.

Definition free_list (s : kstate) (l : list Z) : Prop :=
  chain (kmemory s) (freelist s) l /\ NoDup l /\ Forall page_ok l.

(** ** Exact effect of kfree and kalloc *)

Lemma kfree_run v s :
  page_ok v -> LkKmem ∉ held (kthr s) ->
  kfree v s = Ok tt (mkK (store32 (memset (kmemory s) v 1 PGSIZE) v (freelist s))
                         (use_lock s) v (frames s) (kthr s)).
Proof.
  intros (Hr & Ha & Hk & Hp) Hl. unfold kfree, PGSIZE.
  zcase (negb (v mod 4096 =? 0) || (v <? kend) || (PHYSTOP <=? v2p v)); [lia|].
  unfold lock_kmem, unlock_kmem, bind, gets, modify, wr32, modify. simpl.
  destruct s as [m ul fl fr [hs ws]]; destruct ul; simpl in *; [|done].
  rewrite acquire_ok by done. simpl. by erewrite release_top by reflexivity.
Qed.

Lemma kfree_panics v s :
  negb (v mod PGSIZE =? 0) || (v <? kend) || (PHYSTOP <=? v2p v) = true ->
  kfree v s = Panic "kfree".
Proof. intros H. unfold kfree. by rewrite H. Qed.

Lemma kalloc_run s :
  LkKmem ∉ held (kthr s) ->
  kalloc s = Ok (freelist s)
    (mkK (kmemory s) (use_lock s)
       (if freelist s =? 0 then 0 else load32 (kmemory s) (freelist s)) (frames s) (kthr s)).
Proof.
  intros Hl. unfold kalloc, lock_kmem, unlock_kmem, bind, gets, modify, rd32, gets.
  destruct s as [m ul fl fr [hs ws]]; destruct ul; simpl in *.
  - rewrite acquire_ok by done. simpl. destruct (fl =? 0) eqn:E; simpl;
      zbool; by subst.
  - destruct (fl =? 0) eqn:E; simpl; zbool; by subst.
Qed.

(** ** The list survives writes elsewhere *)

Lemma chain_frame m m' p l :
  (forall a, a ∈ l -> load32 m' a = load32 m a) -> chain m p l -> chain m' p l.
Proof.
  revert p; induction l as [|a l IH]; intros p Hm; simpl; [done|].
  intros (-> & Hne & Hc). split; [done|]. split; [done|].
  rewrite Hm by set_solver. apply IH; [|done]. intros; apply Hm; set_solver.
Qed.

Lemma chain_head m p l : chain m p l -> p = default 0 (head l).
Proof. destruct l; simpl; naive_solver. Qed.

(** Distinct pages do not overlap. *)
Lemma page_ok_disjoint a b : page_ok a -> page_ok b -> a <> b -> a + 4096 <= b \/ b + 4096 <= a.
Proof. intros (? & ? & _) (? & ? & _) ?. zlia. Qed.

(** Writing anywhere inside one page keeps a chain of other pages. *)
Lemma chain_page_write m v c x p l :
  page_ok v -> Forall page_ok l -> v ∉ l -> chain m p l ->
  chain (store32 (memset m v c PGSIZE) v x) p l.
Proof.
  intros Hv Hl Hn. apply chain_frame. intros a Ha.
  rewrite Forall_forall in Hl. pose proof (Hl a Ha) as Hpa.
  assert (v <> a) by set_solver. pose proof (page_ok_disjoint v a Hv Hpa ltac:(done)).
  rewrite load32_store32_other by lia. rewrite load32_memset_other by (unfold PGSIZE; lia). done.
Qed.

Lemma free_list_kfree v s l s' :
  free_list s l -> page_ok v -> v ∉ l -> LkKmem ∉ held (kthr s) ->
  kfree v s = Ok tt s' -> free_list s' (v :: l).
Proof.
  intros (Hc & Hnd & Hok) Hv Hn Hl. rewrite kfree_run by done. intros [= <-].
  split; [|split; [by constructor|by constructor]]. simpl.
  split; [done|]. split; [destruct Hv; lia|].
  rewrite load32_store32, u32_small.
  - by apply chain_page_write.
  - rewrite (chain_head _ _ _ Hc). destruct l as [|a l]; simpl; [lia|].
    inversion Hok as [|? ? H1 _]; subst. destruct H1. lia.
Qed.

Lemma free_list_kalloc s l s' r :
  free_list s l -> LkKmem ∉ held (kthr s) -> kalloc s = Ok r s' ->
  r = default 0 (head l) /\ free_list s' (tail l) /\ kmemory s' = kmemory s.
Proof.
  intros (Hc & Hnd & Hok) Hl. rewrite kalloc_run by done. intros [= <- <-].
  split; [by eapply chain_head|]. split; [|done].
  destruct l as [|a l]; simpl in *.
  - subst. rewrite Hc. repeat split; simpl; auto using NoDup_nil_2.
  - destruct Hc as (-> & Hne & Hc). zcase (a =? 0); [congruence|].
    apply NoDup_cons in Hnd as [_ Hnd]. inversion Hok; subst. by repeat split.
Qed.

(** ** Pigeonhole: a duplicate-free list of pages fits in physical memory *)

Lemma free_list_length s l : 2147483648 <= kend -> free_list s l -> (length l < npages)%nat.
Proof.
  intros Hk (_ & Hnd & Hok).
  assert (Hsub : NoDup (map (fun a => Z.to_nat ((a - 2147483648) / 4096)) l)).
  { clear -Hnd Hok Hk. induction l as [|a l IH]; simpl; [constructor|].
    inversion Hok as [|? ? Ha Hl]; subst. apply NoDup_cons in Hnd as [Hn Hnd].
    constructor; [|by apply IH]. intros Hin. apply list_elem_of_fmap in Hin as (b & Heq & Hb).
    rewrite Forall_forall in Hl. pose proof (Hl b Hb) as Hpb.
    destruct Ha as (?&?&?&_), Hpb as (?&?&?&_).
    assert (a = b) by zlia. by subst. }
  rewrite <- (length_map (fun a => Z.to_nat ((a - 2147483648) / 4096))).
  assert (Hin : forall x, x ∈ map (fun a => Z.to_nat ((a - 2147483648) / 4096)) l ->
    x ∈ seq 0 (Z.to_nat (PHYSTOP / PGSIZE))).
  { intros x Hx. apply list_elem_of_fmap in Hx as (a & -> & Ha).
    rewrite Forall_forall in Hok. destruct (Hok a Ha) as (? & ? & ? & Hp).
    apply elem_of_seq. unfold v2p, KERNBASE, PHYSTOP, PGSIZE in *. zlia. }
  pose proof (submseteq_length _ _ (NoDup_submseteq _ _ Hsub Hin)) as Hlen.
  rewrite length_seq in Hlen. rewrite npages_eq. unfold PHYSTOP, PGSIZE in *. zlia.
Qed.

(** ** freerange *)

(** The [n] pages from [p] on, in address order. *)
Definition range_pages (p : Z) (n : nat) : list Z :=
  map (fun i => p + 4096 * Z.of_nat i) (seq 0 n).

Lemma range_pages_S p n : range_pages p (S n) = p :: range_pages (p + 4096) n.
Proof.
  unfold range_pages. simpl. f_equal; [lia|].
  rewrite <- fmap_S_seq, map_map. apply map_ext. intros; lia.
Qed.

Lemma elem_of_range_pages p n x :
  x ∈ range_pages p n <-> exists i, (i < n)%nat /\ x = p + 4096 * Z.of_nat i.
Proof.
  unfold range_pages. rewrite list_elem_of_fmap. setoid_rewrite elem_of_seq.
  split; intros (i & ? & ?); exists i; split; (done || lia).
Qed.

Lemma freerange_loop_spec n p vend fuel s l :
  (n < fuel)%nat -> p + 4096 * Z.of_nat n <= vend < p + 4096 * Z.of_nat n + 4096 ->
  Forall page_ok (range_pages p n) -> (forall x, x ∈ range_pages p n -> x ∉ l) ->
  free_list s l -> LkKmem ∉ held (kthr s) ->
  wp (freerange_loop p vend fuel)
     (fun _ s' => free_list s' (rev (range_pages p n) ++ l) /\ kthr s' = kthr s /\
                  use_lock s' = use_lock s) s.
Proof.
  revert p fuel s l; induction n as [|n IH]; intros p [|fuel] s l Hf Hr Hok Hnot Hfl Hlk;
    try lia; cbn [freerange_loop].
  - zif; [unfold PGSIZE in *; lia|]. apply wp_ret. split; [exact Hfl|done].
  - zif; [|unfold PGSIZE in *; lia]. rewrite range_pages_S in *.
    inversion Hok as [|? ? Hp Hok']; subst.
    apply wp_bind. eapply wp_eq; [by apply kfree_run|].
    eapply wp_conseq; [apply (IH (p + PGSIZE) fuel _ (p :: l))|].
    + lia.
    + unfold PGSIZE; lia.
    + done.
    + intros x Hx Hin. apply elem_of_cons in Hin as [->|Hin].
      * apply elem_of_range_pages in Hx as (i & _ & Hx). unfold PGSIZE in Hx. lia.
      * by apply (Hnot x); [right|].
    + eapply free_list_kfree; [done|done| |done|by apply kfree_run].
      intros Hin. by apply (Hnot p); [left|].
    + done.
    + intros [] s' (Hs & Ht & Hu). split; [|done]. simpl. unfold PGSIZE in Hs.
      by rewrite <- app_assoc.
Qed.

(** ** The frame list *)

Definition slot (i : nat) : Z := KERNBASE + PHYSTOP + FL_SIZE * Z.of_nat i.

(** [n] frames are recorded in slots [0 .. n-1]; slot [n] ends the list. *)
Definition frame_list (m : mem) (n : nat) : Prop :=
  load32 m (start_addr + FL_NEXT) = slot 0 /\
  (forall i, (i < n)%nat -> load32 m (slot i + FL_NEXT) = slot (S i)) /\
  load32 m (slot n + FL_NEXT) = 0.

Definition frame_record (m : mem) (i : nat) : Z * Z :=
  (load32 m (slot i + FL_PID), load32 m (slot i + FL_FRAME)).

(** The layout of the kernel image: [start] lies in kernel data. *)
Definition layout : Prop := KERNBASE <= start_addr /\ start_addr + FL_SIZE <= kend /\
  kend < KERNBASE + PHYSTOP.

Lemma allocadd_last_spec m n s i fuel :
  kmemory s = m -> frame_list m n -> (i <= n)%nat -> (n - i < fuel)%nat ->
  allocadd_last (slot i) fuel s = Ok (slot n) s.
Proof.
  intros Hm (H0 & Hi & Hn). revert i; induction fuel as [|fuel IH]; intros i Hin Hf; [lia|].
  cbn [allocadd_last]. unfold bind, rd32, gets. rewrite Hm.
  destruct (decide (i = n)) as [->|].
  - rewrite Hn. simpl. done.
  - rewrite Hi by lia. zif; [unfold slot, KERNBASE, PHYSTOP, FL_SIZE in *; lia|].
    apply IH; lia.
Qed.

Lemma allocadd_last_start n s :
  frame_list (kmemory s) n -> (n + 2 <= nslots)%nat ->
  allocadd_last start_addr nslots s = Ok (slot n) s.
Proof.
  intros Hfl Hn. destruct nslots as [|fuel] eqn:E; [lia|]. cbn [allocadd_last].
  unfold bind, rd32, gets. destruct Hfl as (H0 & Hi). rewrite H0.
  zif; [unfold slot, KERNBASE, PHYSTOP, FL_SIZE in *; lia|].
  apply (allocadd_last_spec (kmemory s) n); [done|done|lia|lia].
Qed.

Lemma allocadd_search_spec m l1 frame nx l2 p s fuel :
  kmemory s = m -> chain m p (l1 ++ frame :: nx :: l2) -> frame ∉ l1 ->
  (length l1 < fuel)%nat ->
  allocadd_search p frame fuel s = Ok true (set_mem (fun m => store32 m frame (load32 m nx)) s).
Proof.
  intros Hm. revert p fuel; induction l1 as [|a l1 IH]; intros p [|fuel] Hc Hn Hf;
    simpl in Hf; try lia; cbn [allocadd_search].
  - simpl in Hc. destruct Hc as (-> & Hne & Hnx & Hnn & Hc).
    zif; [congruence|]. zif; [|congruence]. unfold bind, rd32, gets. rewrite Hm.
    rewrite Hnx. zif; [congruence|]. done.
  - simpl in Hc. destruct Hc as (-> & Hne & Hc). zif; [congruence|].
    zif; [set_solver|]. unfold bind at 1, rd32, gets. rewrite Hm.
    apply IH; [done|set_solver|lia].
Qed.

(** Overwriting a node with its successor unlinks the successor. *)
Lemma chain_skip m p l1 frame nx l2 :
  NoDup (l1 ++ frame :: nx :: l2) -> Forall page_ok (l1 ++ frame :: nx :: l2) ->
  chain m p (l1 ++ frame :: nx :: l2) ->
  chain (store32 m frame (load32 m nx)) p (l1 ++ frame :: l2).
Proof.
  intros Hnd Hok. revert p; induction l1 as [|a l1 IH]; intros p; simpl in *.
  - intros (-> & Hne & Hnx & Hnn & Hc). split; [done|]. split; [done|].
    rewrite load32_store32, u32_small by apply load32_range.
    apply (chain_frame m); [|done].
    intros b Hb. apply NoDup_cons in Hnd as [Hnd _].
    rewrite Forall_cons, Forall_cons, Forall_forall in Hok.
    destruct Hok as (Hfr & _ & Hl). pose proof (Hl b Hb) as Hpb.
    pose proof (page_ok_disjoint frame b Hfr Hpb ltac:(set_solver)).
    by rewrite load32_store32_other by lia.
  - intros (-> & Hne & Hc). split; [done|]. split; [done|].
    apply NoDup_cons in Hnd as [Hn Hnd]. apply Forall_cons in Hok as [Ha Hok].
    rewrite load32_store32_other; [by apply IH|].
    apply Forall_app in Hok as [_ Hok]. apply Forall_cons in Hok as [Hfr _].
    pose proof (page_ok_disjoint frame a Hfr Ha ltac:(set_solver)). lia.
Qed.

(** Frame records lie outside every page the allocator owns. *)
Lemma page_slot a i : layout -> page_ok a -> a + 4096 <= slot i.
Proof.
  intros (_ & _ & Hk) (Ha & Hal & Hka & Hp).
  unfold slot, v2p, KERNBASE, PHYSTOP, FL_SIZE in *. zlia.
Qed.

Lemma chain_slot_write m p l i off v :
  layout -> Forall page_ok l -> 0 <= off -> chain m p l ->
  chain (store32 m (slot i + off) v) p l.
Proof.
  intros Hlay Hok Ho. apply chain_frame. intros a Ha. rewrite Forall_forall in Hok.
  pose proof (page_slot a i Hlay (Hok a Ha)). by rewrite load32_store32_other by lia.
Qed.

(** The memory allocadd leaves when it found [frame] followed by [nx]. *)
Definition allocadd_mem (m : mem) (pid frame nx : Z) (n : nat) : mem :=
  store32 (store32 (store32 (store32 (store32 m frame (load32 m nx))
    (slot n + FL_PID) pid) (slot n + FL_FRAME) frame)
    (slot n + FL_SIZE + FL_NEXT) 0) (slot n + FL_NEXT) (slot n + FL_SIZE).

Lemma frame_list_page_write m n a v :
  layout -> page_ok a -> frame_list m n -> frame_list (store32 m a v) n.
Proof.
  intros Hlay Ha (H0 & Hi & Hn). destruct Hlay as (Hs1 & Hs2 & Hs3) eqn:E. clear E.
  assert (Hsl : forall i, a + 4096 <= slot i) by (intros; by apply page_slot).
  destruct Ha as (? & ? & ? & ?).
  split; [|split].
  - rewrite load32_store32_other; [done|]. unfold FL_NEXT, FL_SIZE in *. lia.
  - intros i Hin. pose proof (Hsl i). rewrite load32_store32_other; [by apply Hi|].
    unfold FL_NEXT in *. lia.
  - pose proof (Hsl n). rewrite load32_store32_other; [done|]. unfold FL_NEXT in *. lia.
Qed.

Lemma allocadd_run s pid frame l1 nx l2 n :
  layout -> free_list s (l1 ++ frame :: nx :: l2) -> frame_list (kmemory s) n ->
  (n + 2 <= nslots)%nat ->
  allocadd pid frame s =
    Ok 1 (set_mem (fun m => allocadd_mem m pid frame nx n) s).
Proof.
  intros Hlay Hfl Hfr Hn. pose proof Hfl as (Hc & Hnd & Hok).
  pose proof (free_list_length s _ ltac:(destruct Hlay; unfold KERNBASE, FL_SIZE in *; lia) Hfl) as Hlen.
  assert (Hfk : page_ok frame) by (rewrite Forall_app, Forall_cons in Hok; tauto).
  unfold allocadd. zif; [destruct Hfk; lia|].
  unfold bind at 1, gets.
  zif; [rewrite (chain_head _ _ _ Hc) in E0; destruct l1; simpl in E0, Hok;
        inversion Hok as [|? ? Hq _]; subst; destruct Hq, Hfk; lia|].
  unfold bind at 1.
  rewrite (allocadd_search_spec (kmemory s) l1 frame nx l2); [|done|done| |].
  - cbn [negb].
    set (s1 := set_mem _ s).
    assert (Hlast : allocadd_last start_addr nslots s1 = Ok (slot n) s1).
    { apply allocadd_last_start; [by apply frame_list_page_write|done]. }
    rewrite (bind_Ok _ _ _ _ _ Hlast). done.
  - apply NoDup_app in Hnd as (_ & Hd & _). intros Hin. apply (Hd frame Hin). set_solver.
  - rewrite length_app in Hlen. simpl in Hlen. lia.
Qed.

Lemma slot_S i : slot (S i) = slot i + FL_SIZE.
Proof. unfold slot, FL_SIZE. lia. Qed.

Lemma slot_range i : (i < nslots)%nat -> KERNBASE + PHYSTOP <= slot i < 2415919104.
Proof. rewrite nslots_eq. unfold slot, KERNBASE, PHYSTOP, FL_SIZE. lia. Qed.

(** ** Abstract allocator

    What the allocator promises: a stack of pages.  [abs_run] is undefined
    on a request that returns a page that is already free or that is not a
    page of the allocator. *)

Inductive kop : Type := KAlloc | KFree (v : Z).

Definition run_op (o : kop) : M kstate Z :=
  match o with
  | KAlloc => kalloc
  | KFree v => kfree v ;; ret 0
  end.

Fixpoint run_ops (os : list kop) : M kstate (list Z) :=
  match os with
  | [] => ret []
  | o :: os => do r <- run_op o; do rs <- run_ops os; ret (r :: rs)
  end.

Definition page_okb (v : Z) : bool :=
  (0 <? v) && (v <? 4294967296) && (v mod 4096 =? 0) && (kend <=? v) && (v2p v <? PHYSTOP).

Fixpoint abs_run (os : list kop) (l : list Z) : option (list Z * list Z) :=
  match os with
  | [] => Some ([], l)
  | KAlloc :: os =>
      match abs_run os (tail l) with
      | Some (rs, l') => Some (default 0 (head l) :: rs, l')
      | None => None
      end
  | KFree v :: os =>
      if page_okb v && negb (bool_decide (v ∈ l)) then
        match abs_run os (v :: l) with
        | Some (rs, l') => Some (0 :: rs, l')
        | None => None
        end
      else None
  end.

Lemma page_okb_ok v : page_okb v = true <-> page_ok v.
Proof. unfold page_okb, page_ok. rewrite !andb_true_iff. lia. Qed.

(** C12: the allocator in memory refines the abstract one: every sequence of
    requests the abstract allocator accepts runs without panicking, returns
    the same pages in the same order, and leaves the abstract free list in
    memory, with the same locks held. *)
Theorem kalloc_refines os s l rs l' :
  free_list s l -> LkKmem ∉ held (kthr s) -> abs_run os l = Some (rs, l') ->
  exists s', run_ops os s = Ok rs s' /\ free_list s' l' /\ kthr s' = kthr s.
Proof.
  revert s l rs l'; induction os as [|o os IH]; intros s l rs l' Hfl Hlk Habs.
  { injection Habs as <- <-. by exists s. }
  destruct o as [|v]; simpl in Habs.
  - destruct (abs_run os (tail l)) as [[rs1 l1]|] eqn:E; [|done].
    injection Habs as <- <-. pose proof (kalloc_run s Hlk) as Hrun.
    destruct (free_list_kalloc s l _ _ Hfl Hlk Hrun) as (Hr & Hfl' & _).
    destruct (IH _ _ _ _ Hfl' Hlk E) as (s' & Hs' & Hl' & Ht').
    exists s'. simpl. unfold bind. rewrite Hrun, Hs'. simpl. by rewrite <- Hr.
  - destruct (page_okb v && negb (bool_decide (v ∈ l))) eqn:Ev; [|done].
    destruct (abs_run os (v :: l)) as [[rs1 l1]|] eqn:E; [|done].
    injection Habs as <- <-. apply andb_true_iff in Ev as [Hv Hn].
    apply page_okb_ok in Hv. apply negb_true_iff, bool_decide_eq_false in Hn.
    pose proof (kfree_run v s Hv Hlk) as Hrun.
    pose proof (free_list_kfree v s l _ Hfl Hv Hn Hlk Hrun) as Hfl'.
    destruct (IH _ _ _ _ Hfl' Hlk E) as (s' & Hs' & Hl' & Ht').
    exists s'. simpl. unfold bind. rewrite Hrun. simpl. by rewrite Hs'.
Qed.

Lemma frame_list_allocadd m pid frame nx n :
  layout -> page_ok frame -> frame_list m n -> (n + 2 <= nslots)%nat ->
  frame_list (allocadd_mem m pid frame nx n) (S n) /\
  frame_record (allocadd_mem m pid frame nx n) n = (u32 pid, frame).
Proof.
  intros Hlay Hfr Hfl Hn. pose proof Hfr as (Hfr1 & _ & _ & _).
  pose proof (slot_range n ltac:(lia)) as Hrn.
  pose proof (frame_list_page_write m n frame (load32 m nx) Hlay Hfr Hfl) as (H0 & Hi & Hend).
  destruct Hlay as (_ & Hl2 & Hl3). unfold allocadd_mem, frame_list, frame_record.
  set (m1 := store32 m frame (load32 m nx)) in *.
  unfold FL_NEXT, FL_PID, FL_FRAME, FL_SIZE, KERNBASE, PHYSTOP in *.
  repeat split.
  - rewrite !load32_store32_other by lia. done.
  - intros i Hi'. destruct (decide (i = n)) as [->|].
    + rewrite load32_store32, slot_S. unfold FL_SIZE. apply u32_small. lia.
    + assert (slot i + 16 <= slot n) by (unfold slot, FL_SIZE; lia).
      rewrite !load32_store32_other by lia. apply Hi. lia.
  - rewrite slot_S. unfold FL_SIZE. rewrite load32_store32_other by lia.
    by rewrite load32_store32.
  - f_equal.
    + rewrite !load32_store32_other by lia. apply load32_store32.
    + rewrite !load32_store32_other by lia. rewrite load32_store32. apply u32_small. lia.
Qed.

Lemma free_list_allocadd s pid frame l1 nx l2 n :
  layout -> free_list s (l1 ++ frame :: nx :: l2) ->
  free_list (set_mem (fun m => allocadd_mem m pid frame nx n) s) (l1 ++ frame :: l2).
Proof.
  intros Hlay (Hc & Hnd & Hok).
  assert (Hok' : Forall page_ok (l1 ++ frame :: l2)).
  { rewrite !Forall_app, !Forall_cons in *. tauto. }
  split; [|split; [|done]].
  - simpl. unfold allocadd_mem.
    replace (slot n + FL_SIZE + FL_NEXT) with (slot n + (FL_SIZE + FL_NEXT)) by lia.
    do 4 (apply chain_slot_write; [done|done|unfold FL_SIZE, FL_NEXT, FL_FRAME, FL_PID; lia|]).
    by apply chain_skip.
  - apply NoDup_app in Hnd as (H1 & H2 & H3). apply NoDup_cons in H3 as (H3 & H4).
    apply NoDup_cons in H4 as (_ & H4). apply NoDup_app. split; [done|].
    split; [intros x Hx Hin; apply (H2 x Hx); set_solver|].
    apply NoDup_cons. split; [set_solver|done].
Qed.

(** What allocadd does to the two lists.  The frame is recorded for the
    process in the next slot of the frame list; on the free list the frame
    itself stays and the page after it is dropped. *)
Theorem allocadd_effect s pid frame l1 nx l2 n :
  layout -> free_list s (l1 ++ frame :: nx :: l2) -> frame_list (kmemory s) n ->
  (n + 2 <= nslots)%nat ->
  exists s', allocadd pid frame s = Ok 1 s' /\
    free_list s' (l1 ++ frame :: l2) /\
    frame_list (kmemory s') (S n) /\
    frame_record (kmemory s') n = (u32 pid, frame).
Proof.
  intros Hlay Hfl Hfr Hn.
  assert (Hok : page_ok frame).
  { destruct Hfl as (_ & _ & Hok). rewrite Forall_app, Forall_cons in Hok. tauto. }
  eexists. split; [by eapply allocadd_run|].
  split; [by apply free_list_allocadd|]. by apply frame_list_allocadd.
Qed.

(** A frame allocadd has just recorded as allocated is handed out again
    by the next kalloc when it was the head of the free list (the frame
    sys_ExGetFrame reports to the process). *)
Theorem allocadd_frame_reallocated s pid frame nx l2 n :
  layout -> free_list s (frame :: nx :: l2) -> frame_list (kmemory s) n ->
  (n + 2 <= nslots)%nat -> LkKmem ∉ held (kthr s) ->
  exists s' s'', allocadd pid frame s = Ok 1 s' /\ kalloc s' = Ok frame s''.
Proof.
  intros Hlay Hfl Hfr Hn Hlk. eexists. eexists.
  split; [by apply (allocadd_run s pid frame [] nx l2 n)|].
  rewrite kalloc_run by done. destruct Hfl as (Hc & _). simpl in Hc.
  destruct Hc as (Hhd & _). simpl. by rewrite Hhd.
Qed.

(** Frames that are not free are refused. *)
Lemma allocadd_search_missing m l frame p s fuel :
  kmemory s = m -> chain m p l -> frame ∉ l -> (length l < fuel)%nat ->
  allocadd_search p frame fuel s = Ok false s.
Proof.
  intros Hm. revert p fuel; induction l as [|a l IH]; intros p [|fuel] Hc Hn Hf;
    simpl in Hf; try lia; cbn [allocadd_search]; simpl in Hc.
  - subst. done.
  - destruct Hc as (-> & Hne & Hc). zif; [congruence|]. zif; [set_solver|].
    unfold bind, rd32, gets. rewrite Hm. apply IH; [done|set_solver|lia].
Qed.

(** Kfree of an address that is not a page of the allocator panics, and
    on a page it never does: the guard of kfree is exactly [page_ok] for a
    non-null 32-bit address. *)
Theorem kfree_guard v s :
  0 < v < 4294967296 -> LkKmem ∉ held (kthr s) ->
  (page_ok v -> exists s', kfree v s = Ok tt s' /\ kthr s' = kthr s) /\
  (~ page_ok v -> kfree v s = Panic "kfree").
Proof.
  intros Hv Hl. split.
  - intros Hok. eexists. split; [by apply kfree_run|done].
  - intros Hn. apply kfree_panics. unfold page_ok, PGSIZE in *.
    destruct (negb (v mod 4096 =? 0) || (v <? kend) || (PHYSTOP <=? v2p v)) eqn:E; [done|].
    destruct Hn. lia.
Qed.

(** Freerange, and so kinit1 and kinit2, puts every whole page of the
    range on the free list exactly once, whatever the alignment of the
    bounds, and it returns. *)
Theorem freerange_correct vstart vend s l :
  KERNBASE <= kend <= vstart -> vstart <= vend <= KERNBASE + PHYSTOP ->
  free_list s l -> LkKmem ∉ held (kthr s) ->
  (forall x, x ∈ l -> x < vstart \/ vend <= x) ->
  exists s', freerange vstart vend s = Ok tt s' /\
    free_list s' (rev (range_pages (PGROUNDUP vstart)
                         (Z.to_nat ((vend - PGROUNDUP vstart) / 4096))) ++ l) /\
    kthr s' = kthr s /\ use_lock s' = use_lock s.
Proof.
  intros Hk Hv Hfl Hlk Hnot. unfold KERNBASE, PHYSTOP in *.
  destruct (PGROUNDUP_spec vstart ltac:(lia)) as [Hal Hup].
  set (p := PGROUNDUP vstart) in *.
  assert (Hwp : wp (freerange vstart vend) (fun _ s' =>
    free_list s' (rev (range_pages p (Z.to_nat ((vend - p) / 4096))) ++ l) /\
    kthr s' = kthr s /\ use_lock s' = use_lock s) s).
  { unfold freerange. fold p. destruct (decide (p <= vend)) as [Hle|Hgt].
    - apply freerange_loop_spec; try done.
      + unfold PGSIZE. zlia.
      + zlia.
      + apply Forall_forall. intros x Hx. apply elem_of_range_pages in Hx as (i & Hi & ->).
        unfold page_ok, v2p, KERNBASE, PHYSTOP. zlia.
      + intros x Hx Hin. apply elem_of_range_pages in Hx as (i & Hi & ->).
        destruct (Hnot _ Hin); zlia.
    - replace (Z.to_nat ((vend - p) / 4096)) with 0%nat by zlia.
      cbn [freerange_loop]. zif; [unfold PGSIZE in *; lia|]. apply wp_ret. done. }
  apply wp_iff in Hwp as ([] & s' & Hrun & Hpost). by exists s'.
Qed.

Lemma initframes_run s :
  exists s', initframes s = Ok tt s' /\ frames s' = 0 /\ freelist s' = freelist s.
Proof. eexists. split; [reflexivity|done]. Qed.

Lemma initframes_frame_list s s' :
  layout -> initframes s = Ok tt s' -> frame_list (kmemory s') 0.
Proof.
  intros (H1 & H2 & H3). unfold initframes, bind, modify, rd32, wr32, modify, gets; simpl.
  intros [= <-]. simpl. rewrite load32_store32.
  unfold frame_list, slot, FL_NEXT, FL_FRAME, FL_PID, FL_SIZE, KERNBASE, PHYSTOP in *.
  split; [|split; [intros; lia|]].
  - rewrite !load32_store32_other by zlia. by rewrite load32_store32.
  - rewrite !load32_store32_other by zlia. change (u32 (u32 _)) with 2382364672.
    by rewrite load32_store32.
Qed.

End kalloc.

(** ** Concrete instances *)

Module KallocDemo.

Definition kend : Z := 2148532736.
Definition start_addr : Z := 2148530176.
Definition pa : Z := 2148597760.
Definition pb : Z := 2148601856.
Definition pc : Z := 2148605952.

Definition s0 : kstate := mkK (fun _ => 0) true 0 0 (mkThread [] []).

(** Three free pages a -> b -> c and an empty frame list. *)
Definition s3 : kstate :=
  mkK (store32 (store32 (store32 (fun _ => 0) pa pb) pb pc)
         (start_addr + FL_NEXT) (slot 0)) true pa 0 (mkThread [] []).

Lemma layout_ok : layout kend start_addr.
Proof. unfold layout. vm_compute. intuition discriminate. Qed.

Lemma empty_free : free_list kend s0 [].
Proof. repeat split; constructor. Qed.

Lemma demo_page_ok v : v ∈ [pa; pb; pc] -> page_ok kend v.
Proof.
  intros Hv. apply page_okb_ok. repeat (apply elem_of_cons in Hv as [->|Hv]); [done..|].
  by apply elem_of_nil in Hv.
Qed.

Lemma s3_free : free_list kend s3 [pa; pb; pc].
Proof.
  split; [|split].
  - vm_compute. intuition discriminate.
  - apply (bool_decide_unpack (NoDup [pa; pb; pc])). vm_compute. exact I.
  - apply Forall_forall. apply demo_page_ok.
Qed.

Lemma s3_frames : frame_list start_addr (kmemory s3) 0.
Proof. split; [reflexivity|split; [intros; lia|reflexivity]]. Qed.

Lemma kalloc_refines_witness :
  exists s', run_ops kend [KFree pa; KFree pb; KAlloc; KAlloc; KAlloc] s0 =
    Ok [0; 0; pb; pa; 0] s' /\ free_list kend s' [] /\ kthr s' = kthr s0.
Proof.
  apply (kalloc_refines kend [KFree pa; KFree pb; KAlloc; KAlloc; KAlloc] s0 [] _ []).
  - exact empty_free.
  - apply not_elem_of_nil.
  - reflexivity.
Defined.

Lemma slots_enough : (0 + 2 <= nslots)%nat.
Proof. rewrite nslots_eq. lia. Qed.

Lemma allocadd_effect_witness :
  exists s', allocadd start_addr 7 pa s3 = Ok 1 s' /\
    free_list kend s' [pa; pc] /\ frame_list start_addr (kmemory s') 1 /\
    frame_record (kmemory s') 0 = (7, pa).
Proof.
  exact (allocadd_effect kend start_addr s3 7 pa [] pb [pc] 0
           layout_ok s3_free s3_frames slots_enough).
Defined.

Lemma allocadd_frame_reallocated_witness :
  exists s' s'', allocadd start_addr 7 pa s3 = Ok 1 s' /\ kalloc s' = Ok pa s''.
Proof.
  exact (allocadd_frame_reallocated kend start_addr s3 7 pa pb [pc] 0
           layout_ok s3_free s3_frames slots_enough (not_elem_of_nil _)).
Defined.

Lemma kfree_guard_witness :
  kfree kend (pa + 1) s0 = Panic "kfree" /\
  exists s', kfree kend pa s0 = Ok tt s' /\ kthr s' = kthr s0.
Proof.
  split.
  - apply (kfree_guard kend (pa + 1) s0); [vm_compute; auto|apply not_elem_of_nil|].
    intros (_ & H & _). discriminate H.
  - apply (kfree_guard kend pa s0); [vm_compute; auto|apply not_elem_of_nil|].
    apply demo_page_ok. left.
Defined.

Lemma freerange_correct_witness :
  exists s', freerange kend (kend + 1) (kend + 12288) s0 = Ok tt s' /\
    free_list kend s' [2148540416; 2148536320] /\ kthr s' = kthr s0 /\ use_lock s' = true.
Proof.
  apply (freerange_correct kend (kend + 1) (kend + 12288) s0 []).
  - vm_compute. intuition discriminate.
  - vm_compute. intuition discriminate.
  - exact empty_free.
  - apply not_elem_of_nil.
  - intros x Hx. by apply elem_of_nil in Hx.
Defined.

End KallocDemo.
