(* ===== verification/Vm.v ===== *)
(** * vm.c: page tables

    A page directory and its page tables are pages of memory, read and
    written word by word; a pointer to an entry is its address and 0 is the
    null pointer.  [kend] and [kdata] are the linker symbols [end] and [data]. *)

From S2P Require Import Prelude Monad Locks Memory CString Mmu Kalloc.

Open Scope Z_scope.
Open Scope kernel_scope.

(** Some bit of [mask] is set in [v]. *)
Definition has (v mask : Z) : bool := negb (Z.land v mask =? 0).

Definition memset_k (dst c n : Z) : M kstate unit := modify (set_mem (fun m => memset m dst c n)).
Definition memmove_k (dst src n : Z) : M kstate unit := modify (set_mem (fun m => memmove m dst src n)).

Definition walkpgdir (pgdir va : Z) (alloc : bool) : M kstate Z :=
  let pde := pgdir + 4 * PDX va in
  do v <- rd32 pde;
  if has v PTE_P then ret (p2v (PTE_ADDR v) + 4 * PTX va)
  else if negb alloc then ret 0
  else
    do pgtab <- kalloc;
    if pgtab =? 0 then ret 0
    else
      memset_k pgtab 0 PGSIZE ;;
      wr32 pde (Z.lor (Z.lor (Z.lor (v2p pgtab) PTE_P) PTE_W) PTE_U) ;;
      ret (pgtab + 4 * PTX va).

(** The loop of mappages ends when [a] reaches [last]. *)
Fixpoint mappages_loop (pgdir a last pa perm : Z) (fuel : nat) : M kstate Z :=
  match fuel with
  | O => fault "mappages: loop bound"
  | S fuel =>
      do pte <- walkpgdir pgdir a true;
      if pte =? 0 then ret (-1)
      else
        do v <- rd32 pte;
        if has v PTE_P then panic "remap"
        else
          wr32 pte (Z.lor (Z.lor pa perm) PTE_P) ;;
          if a =? last then ret 0
          else mappages_loop pgdir (u32 (a + PGSIZE)) last (u32 (pa + PGSIZE)) perm fuel
  end.

Definition mappages (pgdir va size pa perm : Z) : M kstate Z :=
  let a := PGROUNDDOWN (u32 va) in
  let last := PGROUNDDOWN (u32 (va + size - 1)) in
  mappages_loop pgdir a last pa perm (S (Z.to_nat (u32 (last - a) / PGSIZE))).

(** The table [kmap]: virtual address, physical range, permissions. *)
Record kmap_entry : Type := mkKmap { km_virt : Z; km_start : Z; km_end : Z; km_perm : Z }.

Definition PHYADD : Z := PGSIZE * 8.

Definition kmap (kdata : Z) : list kmap_entry :=
  [ mkKmap KERNBASE 0 EXTMEM PTE_W;
    mkKmap KERNLINK (v2p KERNLINK) (v2p kdata) 0;
    mkKmap kdata (v2p kdata) PHYSTOP PTE_W;
    mkKmap (v2p PHYSTOP) PHYSTOP (PHYSTOP + PHYADD) PTE_W;
    mkKmap DEVSPACE DEVSPACE 0 PTE_W ].

Fixpoint map_kernel (pgdir : Z) (ks : list kmap_entry) : M kstate Z :=
  match ks with
  | [] => ret pgdir
  | k :: ks =>
      do r <- mappages pgdir (km_virt k) (u32 (km_end k - km_start k)) (km_start k) (km_perm k);
      if r <? 0 then ret 0 else map_kernel pgdir ks
  end.

Definition setupkvm (kdata : Z) : M kstate Z :=
  do pgdir <- kalloc;
  if pgdir =? 0 then ret 0
  else
    memset_k pgdir 0 PGSIZE ;;
    if DEVSPACE <? p2v PHYSTOP then panic "PHYSTOP too high"
    else map_kernel pgdir (kmap kdata).

Definition inituvm (pgdir init sz : Z) : M kstate unit :=
  if PGSIZE <=? sz then panic "inituvm: more than a page"
  else
    do mem <- kalloc;
    memset_k mem 0 PGSIZE ;;
    (mappages pgdir 0 PGSIZE (v2p mem) (Z.lor PTE_W PTE_U)) ;;
    memmove_k mem init sz.

Section pages.
Context (kend : Z).

Fixpoint deallocuvm_loop (pgdir a oldsz : Z) (fuel : nat) : M kstate unit :=
  match fuel with
  | O => fault "deallocuvm: loop bound"
  | S fuel =>
      if a <? oldsz then
        do pte <- walkpgdir pgdir a false;
        if pte =? 0 then
          deallocuvm_loop pgdir (u32 (u32 (a + (NPTENTRIES - 1) * PGSIZE) + PGSIZE)) oldsz fuel
        else
          (do v <- rd32 pte;
           if has v PTE_P then
             let pa := PTE_ADDR v in
             if pa =? 0 then panic "kfree"
             else kfree kend (p2v pa) ;; wr32 pte 0
           else ret tt) ;;
          deallocuvm_loop pgdir (u32 (a + PGSIZE)) oldsz fuel
      else ret tt
  end.

Definition deallocuvm (pgdir oldsz newsz : Z) : M kstate Z :=
  if oldsz <=? newsz then ret oldsz
  else
    deallocuvm_loop pgdir (PGROUNDUP newsz) oldsz (S (Z.to_nat (oldsz / PGSIZE + 1))) ;;
    ret newsz.

(** The message printed when memory runs out is left out. *)
Fixpoint allocuvm_loop (pgdir a oldsz newsz : Z) (fuel : nat) : M kstate Z :=
  match fuel with
  | O => fault "allocuvm: loop bound"
  | S fuel =>
      if a <? newsz then
        do mem <- kalloc;
        if mem =? 0 then deallocuvm pgdir newsz oldsz ;; ret 0
        else
          memset_k mem 0 PGSIZE ;;
          (mappages pgdir a PGSIZE (v2p mem) (Z.lor PTE_W PTE_U)) ;;
          allocuvm_loop pgdir (u32 (a + PGSIZE)) oldsz newsz fuel
      else ret newsz
  end.

Definition allocuvm (pgdir oldsz newsz : Z) : M kstate Z :=
  if KERNBASE <=? newsz then ret 0
  else if newsz <? oldsz then ret oldsz
  else allocuvm_loop pgdir (PGROUNDUP oldsz) oldsz newsz (S (Z.to_nat (newsz / PGSIZE + 1))).

Definition freevm (pgdir : Z) : M kstate unit :=
  if pgdir =? 0 then panic "freevm: no pgdir"
  else
    deallocuvm pgdir KERNBASE 0 ;;
    mfor 0 (Z.to_nat NPDENTRIES) (fun i =>
      do v <- rd32 (pgdir + 4 * Z.of_nat i);
      if has v PTE_P then kfree kend (p2v (PTE_ADDR v)) else ret tt) ;;
    kfree kend pgdir.

Definition clearpteu (pgdir uva : Z) : M kstate unit :=
  do pte <- walkpgdir pgdir uva false;
  if pte =? 0 then panic "clearpteu"
  else do v <- rd32 pte; wr32 pte (Z.land v (Z.lnot PTE_U)).

(** copyuvm: [None] stands for the jump to [bad]. *)
Fixpoint copyuvm_loop (pgdir d i sz : Z) (fuel : nat) : M kstate (option unit) :=
  match fuel with
  | O => fault "copyuvm: loop bound"
  | S fuel =>
      if i <? sz then
        do pte <- walkpgdir pgdir i false;
        if pte =? 0 then panic "copyuvm: pte should exist"
        else
          do v <- rd32 pte;
          if negb (has v PTE_P) then panic "copyuvm: page not present"
          else
            let pa := PTE_ADDR v in
            let flags := PTE_FLAGS v in
            do mem <- kalloc;
            if mem =? 0 then ret None
            else
              memmove_k mem (p2v pa) PGSIZE ;;
              do r <- mappages d i PGSIZE (v2p mem) flags;
              if r <? 0 then ret None
              else copyuvm_loop pgdir d (u32 (i + PGSIZE)) sz fuel
      else ret (Some tt)
  end.

Definition copyuvm (kdata pgdir sz : Z) : M kstate Z :=
  do d <- setupkvm kdata;
  if d =? 0 then ret 0
  else
    do r <- copyuvm_loop pgdir d 0 sz (S (Z.to_nat (sz / PGSIZE + 1)));
    match r with
    | Some _ => ret d
    | None => freevm d ;; ret 0
    end.

End pages.

(** uva2ka does not test the pointer walkpgdir returns. *)
Definition uva2ka (pgdir uva : Z) : M kstate Z :=
  do pte <- walkpgdir pgdir uva false;
  if pte =? 0 then fault "null page table entry in uva2ka"
  else
    do v <- rd32 pte;
    if negb (has v PTE_P) then ret 0
    else if negb (has v PTE_U) then ret 0
    else ret (p2v (PTE_ADDR v)).

Fixpoint copyout_loop (pgdir va buf len : Z) (fuel : nat) : M kstate Z :=
  match fuel with
  | O => fault "copyout: loop bound"
  | S fuel =>
      if 0 <? len then
        let va0 := PGROUNDDOWN va in
        do pa0 <- uva2ka pgdir va0;
        if pa0 =? 0 then ret (-1)
        else
          let n := Z.min (PGSIZE - (va - va0)) len in
          memmove_k (pa0 + (va - va0)) buf n ;;
          copyout_loop pgdir (u32 (va0 + PGSIZE)) (buf + n) (len - n) fuel
      else ret 0
  end.

Definition copyout (pgdir va p len : Z) : M kstate Z :=
  copyout_loop pgdir va p len (S (Z.to_nat (len / PGSIZE + 2))).
