(* ===== verification/Seg.v ===== *)
(** * Descriptor tables: mmu.h, vm.c and trap.c

    Segment and gate descriptors with their bit fields, the routines that fill
    the tables of a CPU and load its registers, and what the processor makes of
    the descriptors.  pushcli and popcli are those of [Spinlock.v], setupkvm
    that of [Vm.v]. *)

From S2P Require Import Prelude Irq Monad Locks Memory Mmu Spinlock Kalloc Vm.

Open Scope Z_scope.
Open Scope kernel_scope.

Definition SEG_KCODE : nat := 1.
Definition SEG_KDATA : nat := 2.
Definition SEG_KCPU : nat := 3.
Definition SEG_UCODE : nat := 4.
Definition SEG_UDATA : nat := 5.
Definition SEG_TSS : nat := 6.
Definition NSEGS : nat := 7.
Definition DPL_USER : Z := 3.
Definition STA_X : Z := 8.
Definition STA_W : Z := 2.
Definition STA_R : Z := 2.
Definition STS_T32A : Z := 9.
Definition STS_IG32 : Z := 14.
Definition STS_TG32 : Z := 15.

Record segdesc : Type := mkSeg {
  lim_15_0 : Z; base_15_0 : Z; base_23_16 : Z; sg_type : Z; sg_s : Z; sg_dpl : Z; sg_p : Z;
  lim_19_16 : Z; sg_avl : Z; sg_rsv1 : Z; sg_db : Z; sg_g : Z; base_31_24 : Z
}.

Definition SEG (type base lim dpl : Z) : segdesc :=
  mkSeg (Z.land (Z.shiftr lim 12) 65535) (Z.land (u32 base) 65535) (Z.land (Z.shiftr (u32 base) 16) 255) type 1 dpl 1
        (Z.shiftr (u32 lim) 28) 0 0 1 1 (Z.shiftr (u32 base) 24).
Definition SEG16 (type base lim dpl : Z) : segdesc :=
  mkSeg (Z.land lim 65535) (Z.land (u32 base) 65535) (Z.land (Z.shiftr (u32 base) 16) 255) type 1 dpl 1
        (Z.shiftr (u32 lim) 16) 0 0 1 0 (Z.shiftr (u32 base) 24).

Record gatedesc : Type := mkGate {
  off_15_0 : Z; gt_cs : Z; gt_args : Z; gt_rsv1 : Z; gt_type : Z; gt_s : Z; gt_dpl : Z; gt_p : Z; off_31_16 : Z
}.

Definition SETGATE (istrap : bool) (sel off d : Z) : gatedesc :=
  mkGate (Z.land (u32 off) 65535) sel 0 0 (if istrap then STS_TG32 else STS_IG32) 0 d 1 (Z.shiftr (u32 off) 16).

(** struct cpu: its size and the offsets of ts, gdt and cpu; struct taskstate. *)
Definition CPU_SIZE : Z := 188.
Definition CPU_TS : Z := 8.
Definition CPU_GDT : Z := 112.
Definition CPU_CPU : Z := 180.
Definition TS_SIZE : Z := 104.
Definition KSTACK : Z := 4096.

Section tables.
(** Addresses of cpus and idt, and the entry points of vectors.S. *)
Context (cpus_addr idt_addr : Z) (vectors : nat -> Z).

(** What one CPU has: its table, the fields of ts that are used, and the
    registers lgdt, loadgs, ltr, lcr3 and lidt load; cpu and proc. *)
Record cpuhw : Type := mkHw {
  gdt : list segdesc; ts_ss0 : Z; ts_esp0 : Z;
  gdtr : Z * Z; gs : Z; tr : Z; cr3 : Z; idtr : Z * Z; hw_cpu : Z; hw_proc : Z
}.

Record hwst : Type := mkHwst {
  hmach : machine; hmem : kstate; kpgdir : Z; hcpu : nat -> cpuhw; idt : list gatedesc
}.

Definition cpu_addr (c : nat) : Z := cpus_addr + Z.of_nat c * CPU_SIZE.

Definition upd_hw (c : nat) (f : cpuhw -> cpuhw) : M hwst unit := modify (fun s =>
  mkHwst (hmach s) (hmem s) (kpgdir s) (fun i => if decide (i = c) then f (hcpu s i) else hcpu s i) (idt s)).

Definition on_mach {A} (m : M machine A) : M hwst A := fun s =>
  match m (hmach s) with
  | Ok a h => Ok a (mkHwst h (hmem s) (kpgdir s) (hcpu s) (idt s))
  | Panic e => Panic e
  | Sleeps c h => Sleeps c (mkHwst h (hmem s) (kpgdir s) (hcpu s) (idt s))
  | Fault e => Fault e
  end.
Definition on_mem {A} (m : M kstate A) : M hwst A := fun s =>
  match m (hmem s) with
  | Ok a h => Ok a (mkHwst (hmach s) h (kpgdir s) (hcpu s) (idt s))
  | Panic e => Panic e
  | Sleeps c h => Sleeps c (mkHwst (hmach s) h (kpgdir s) (hcpu s) (idt s))
  | Fault e => Fault e
  end.

Definition set_gdt (k : nat) (d : segdesc) (h : cpuhw) : cpuhw :=
  mkHw (<[k := d]> (gdt h)) (ts_ss0 h) (ts_esp0 h) (gdtr h) (gs h) (tr h) (cr3 h) (idtr h) (hw_cpu h) (hw_proc h).
Definition lgdt (p size : Z) (h : cpuhw) : cpuhw :=
  mkHw (gdt h) (ts_ss0 h) (ts_esp0 h) (p, size - 1) (gs h) (tr h) (cr3 h) (idtr h) (hw_cpu h) (hw_proc h).
Definition loadgs (v : Z) (h : cpuhw) : cpuhw :=
  mkHw (gdt h) (ts_ss0 h) (ts_esp0 h) (gdtr h) v (tr h) (cr3 h) (idtr h) (hw_cpu h) (hw_proc h).
Definition ltr (v : Z) (h : cpuhw) : cpuhw :=
  mkHw (gdt h) (ts_ss0 h) (ts_esp0 h) (gdtr h) (gs h) v (cr3 h) (idtr h) (hw_cpu h) (hw_proc h).
Definition lcr3 (v : Z) (h : cpuhw) : cpuhw :=
  mkHw (gdt h) (ts_ss0 h) (ts_esp0 h) (gdtr h) (gs h) (tr h) v (idtr h) (hw_cpu h) (hw_proc h).
Definition lidt (p size : Z) (h : cpuhw) : cpuhw :=
  mkHw (gdt h) (ts_ss0 h) (ts_esp0 h) (gdtr h) (gs h) (tr h) (cr3 h) (p, size - 1) (hw_cpu h) (hw_proc h).
Definition set_locals (c p : Z) (h : cpuhw) : cpuhw :=
  mkHw (gdt h) (ts_ss0 h) (ts_esp0 h) (gdtr h) (gs h) (tr h) (cr3 h) (idtr h) c p.
Definition set_ts (ss0 esp0 : Z) (h : cpuhw) : cpuhw :=
  mkHw (gdt h) ss0 esp0 (gdtr h) (gs h) (tr h) (cr3 h) (idtr h) (hw_cpu h) (hw_proc h).
Definition clear_s (d : segdesc) : segdesc :=
  mkSeg (lim_15_0 d) (base_15_0 d) (base_23_16 d) (sg_type d) 0 (sg_dpl d) (sg_p d) (lim_19_16 d) (sg_avl d) (sg_rsv1 d)
        (sg_db d) (sg_g d) (base_31_24 d).

(** On CPU [c]. *)
Definition seginit (c : nat) : M hwst unit :=
  upd_hw c (set_gdt SEG_KCODE (SEG (Z.lor STA_X STA_R) 0 4294967295 0)) ;;
  upd_hw c (set_gdt SEG_KDATA (SEG STA_W 0 4294967295 0)) ;;
  upd_hw c (set_gdt SEG_UCODE (SEG (Z.lor STA_X STA_R) 0 4294967295 DPL_USER)) ;;
  upd_hw c (set_gdt SEG_UDATA (SEG STA_W 0 4294967295 DPL_USER)) ;;
  upd_hw c (set_gdt SEG_KCPU (SEG STA_W (cpu_addr c + CPU_CPU) 8 0)) ;;
  upd_hw c (lgdt (cpu_addr c + CPU_GDT) (8 * Z.of_nat NSEGS)) ;;
  upd_hw c (loadgs (Z.shiftl (Z.of_nat SEG_KCPU) 3)) ;;
  upd_hw c (set_locals (cpu_addr c) 0).

Definition switchkvm (c : nat) : M hwst unit :=
  do s <- get; upd_hw c (lcr3 (v2p (kpgdir s))).

Definition kvmalloc (c : nat) (kdata : Z) : M hwst unit :=
  do d <- on_mem (setupkvm kdata);
  modify (fun s => mkHwst (hmach s) (hmem s) d (hcpu s) (idt s)) ;;
  switchkvm c.

(** [kstack] is proc->kstack, [pgdir] is p->pgdir. *)
Definition switchuvm (c : nat) (kstack pgdir : Z) : M hwst unit :=
  on_mach (pushcli c) ;;
  upd_hw c (set_gdt SEG_TSS (SEG16 STS_T32A (cpu_addr c + CPU_TS) (TS_SIZE - 1) 0)) ;;
  upd_hw c (fun h => match gdt h !! SEG_TSS with Some d => set_gdt SEG_TSS (clear_s d) h | None => h end) ;;
  upd_hw c (set_ts (Z.shiftl (Z.of_nat SEG_KDATA) 3) (u32 (kstack + KSTACK))) ;;
  upd_hw c (ltr (Z.shiftl (Z.of_nat SEG_TSS) 3)) ;;
  if pgdir =? 0 then panic "switchuvm: no pgdir"
  else
    upd_hw c (lcr3 (v2p pgdir)) ;;
    on_mach (popcli c).

Definition set_idt (i : nat) (g : gatedesc) : M hwst unit := modify (fun s =>
  mkHwst (hmach s) (hmem s) (kpgdir s) (hcpu s) (<[i := g]> (idt s))).

Definition tvinit : M hwst unit :=
  mfor 0 256 (fun i => set_idt i (SETGATE false (Z.shiftl (Z.of_nat SEG_KCODE) 3) (vectors i) 0)) ;;
  set_idt (Z.to_nat T_SYSCALL) (SETGATE true (Z.shiftl (Z.of_nat SEG_KCODE) 3) (vectors (Z.to_nat T_SYSCALL)) DPL_USER) ;;
  on_mach (initlock LkTicks "time").

Definition idtinit (c : nat) : M hwst unit := upd_hw c (lidt idt_addr (8 * 256)).

(** ** What the processor makes of a descriptor *)

Definition seg_base (d : segdesc) : Z := base_15_0 d + 65536 * base_23_16 d + 16777216 * base_31_24 d.
(** The last offset: in units of 4 KB when the granularity bit is set. *)
Definition seg_limit (d : segdesc) : Z :=
  let l := lim_15_0 d + 65536 * lim_19_16 d in if sg_g d =? 1 then l * 4096 + 4095 else l.
Definition gate_entry (g : gatedesc) : Z := off_15_0 g + 65536 * off_31_16 g.

Lemma split_base base : 0 <= base < 4294967296 ->
  Z.land (u32 base) 65535 + 65536 * Z.land (Z.shiftr (u32 base) 16) 255 + 16777216 * Z.shiftr (u32 base) 24 = base.
Proof.
  intros Hb. rewrite u32_small by done. change 65535 with (2 ^ 16 - 1). change 255 with (2 ^ 8 - 1).
  rewrite !land_mask, !Z.shiftr_div_pow2 by lia. change (2 ^ 16) with 65536. change (2 ^ 8) with 256. change (2 ^ 24) with 16777216. zlia.
Qed.

Lemma SEG_base type base lim dpl : 0 <= base < 4294967296 -> seg_base (SEG type base lim dpl) = base.
Proof. apply split_base. Qed.
Lemma SEG16_base type base lim dpl : 0 <= base < 4294967296 -> seg_base (SEG16 type base lim dpl) = base.
Proof. apply split_base. Qed.

Lemma gate_offset istrap sel off d : 0 <= off < 4294967296 -> gate_entry (SETGATE istrap sel off d) = off.
Proof.
  intros Ho. unfold gate_entry, SETGATE. cbn [off_15_0 off_31_16]. rewrite u32_small by done. change 65535 with (2 ^ 16 - 1).
  rewrite land_mask, Z.shiftr_div_pow2 by lia. change (2 ^ 16) with 65536. zlia.
Qed.

(** ** The tables of a CPU *)

Definition hw_with (c : nat) (f : cpuhw -> cpuhw) (s : hwst) : hwst :=
  mkHwst (hmach s) (hmem s) (kpgdir s) (fun i => if decide (i = c) then f (hcpu s i) else hcpu s i) (idt s).

Lemma upd_hw_then {A} c f (m : M hwst A) s : (upd_hw c f ;; m) s = m (hw_with c f s).
Proof. done. Qed.
Lemma upd_hw_last c f s : upd_hw c f s = Ok tt (hw_with c f s).
Proof. done. Qed.
Lemma hw_with_at c f s : hcpu (hw_with c f s) c = f (hcpu s c).
Proof. cbn. by rewrite decide_True. Qed.
Lemma hw_with_rest c f s : idt (hw_with c f s) = idt s /\ hmach (hw_with c f s) = hmach s.
Proof. done. Qed.
#[local] Opaque hw_with.

(** The segments after seginit: code and data of the kernel and of user programs
    are the whole address space, and %gs reaches cpu and proc. *)
Lemma seginit_segments c s :
  length (gdt (hcpu s c)) = NSEGS -> 0 <= cpu_addr c < 4294967000 ->
  exists s', seginit c s = Ok tt s' /\ idt s' = idt s /\ hmach s' = hmach s /\
    let h := hcpu s' c in
    gdtr h = (cpu_addr c + CPU_GDT, 55) /\ gs h = 24 /\ hw_cpu h = cpu_addr c /\ hw_proc h = 0 /\
    (forall (k : nat) (dpl : Z) (ex : bool), (k, dpl, ex) ∈ [(SEG_KCODE, 0, true); (SEG_KDATA, 0, false); (SEG_UCODE, DPL_USER, true); (SEG_UDATA, DPL_USER, false)] ->
      exists d, gdt h !! k = Some d /\ seg_base d = 0 /\ seg_limit d = 4294967295 /\ sg_dpl d = dpl /\ sg_p d = 1 /\
        sg_s d = 1 /\ sg_db d = 1 /\ sg_type d = if ex then Z.lor STA_X STA_R else STA_W) /\
    (exists d, gdt h !! SEG_KCPU = Some d /\ seg_base d = cpu_addr c + CPU_CPU /\ 7 <= seg_limit d /\ sg_dpl d = 0).
Proof.
  intros Hl Hc. unfold seginit. rewrite !upd_hw_then, upd_hw_last. eexists. split; [reflexivity|].
  split; [by rewrite !(proj1 (hw_with_rest _ _ _))|]. split; [by rewrite !(proj2 (hw_with_rest _ _ _))|].
  cbv zeta. rewrite !hw_with_at. cbn [gdt gdtr gs hw_cpu hw_proc set_gdt lgdt loadgs set_locals].
  destruct (gdt (hcpu s c)) as [|d0 [|d1 [|d2 [|d3 [|d4 [|d5 [|d6 [|? ?]]]]]]]]; try done. clear Hl.
  split_and!; try done.
  - intros k dpl ex. rewrite !elem_of_cons, elem_of_nil.
    intros [E|[E|[E|[E|[]]]]]; injection E as -> -> ->; (eexists; split; [reflexivity|]; done).
  - eexists. split; [reflexivity|]. unfold CPU_CPU. rewrite SEG_base by lia. done.
Qed.

Lemma set_idt_all g : forall n first s,
  mfor first n (fun i => set_idt i (g i)) s =
  Ok tt (mkHwst (hmach s) (hmem s) (kpgdir s) (hcpu s) (fold_left (fun l i => <[i := g i]> l) (seq first n) (idt s))).
Proof.
  induction n as [|n IH]; intros first s; cbn [mfor seq fold_left]; [by destruct s|].
  unfold bind, set_idt at 1, modify. rewrite IH. done.
Qed.

Lemma fold_insert_lookup {A} (g : nat -> A) n : forall first (l : list A) k,
  (first + n <= length l)%nat ->
  fold_left (fun l i => <[i := g i]> l) (seq first n) l !! k =
  if decide (first <= k < first + n)%nat then Some (g k) else l !! k.
Proof.
  induction n as [|n IH]; intros first l k Hl; cbn [seq fold_left].
  - by rewrite decide_False by lia.
  - rewrite IH by (rewrite length_insert; lia). destruct (decide (S first <= k < S first + n)%nat) as [H1|H1].
    + by rewrite decide_True by lia.
    + destruct (decide (k = first)) as [->|Hne].
      * rewrite decide_True by lia. apply list_lookup_insert_eq. lia.
      * rewrite decide_False by lia. by apply list_lookup_insert_ne.
Qed.

(** The gates after tvinit. *)
Lemma tvinit_gates s : length (idt s) = 256%nat ->
  exists s', tvinit s = Ok tt s' /\ hcpu s' = hcpu s /\
    forall n, (n < 256)%nat -> idt s' !! n =
      Some (if decide (n = Z.to_nat T_SYSCALL) then SETGATE true 8 (vectors n) DPL_USER else SETGATE false 8 (vectors n) 0).
Proof.
  intros Hl. eexists. split.
  { unfold tvinit, bind. rewrite set_idt_all. reflexivity. }
  split; [done|]. intros n Hn. cbn [idt].
  destruct (decide (n = Z.to_nat T_SYSCALL)) as [->|Hne].
  - rewrite list_lookup_insert_eq; [done|]. apply lookup_lt_is_Some. rewrite fold_insert_lookup by lia.
    rewrite decide_True by (unfold T_SYSCALL; lia). by eexists.
  - rewrite list_lookup_insert_ne by done. rewrite fold_insert_lookup, decide_True by lia. done.
Qed.

(** A segment that the processor lets a gate enter at privilege 0: present, not
    a system segment, 32-bit, executable and not conforming, of privilege 0. *)
Definition kernel_code (d : segdesc) : Prop :=
  sg_p d = 1 /\ sg_s d = 1 /\ sg_db d = 1 /\ sg_dpl d = 0 /\
  Z.testbit (sg_type d) 3 = true /\ Z.testbit (sg_type d) 2 = false.

(** C32: After seginit, tvinit and idtinit, user code can enter the kernel through
    gate 64 and through no other gate.  Every gate is present and selects, in
    the GDT and with requested privilege 0, the kernel code segment: a present
    and executable segment of privilege 0 that covers all memory.  Every gate
    leads to its entry of vectors.S; gate 64 is a trap gate, and all others are
    interrupt gates, which disable interrupts on the way. *)
Theorem gates_into_kernel c s :
  length (gdt (hcpu s c)) = NSEGS -> length (idt s) = 256%nat -> 0 <= cpu_addr c < 4294967000 ->
  (forall n, 0 <= vectors n < 4294967296) ->
  exists s', (seginit c ;; tvinit ;; idtinit c) s = Ok tt s' /\ idtr (hcpu s' c) = (idt_addr, 2047) /\
    forall n, (n < 256)%nat -> exists g code,
      idt s' !! n = Some g /\ gdt (hcpu s' c) !! Z.to_nat (gt_cs g / 8) = Some code /\
      gt_cs g mod 8 = 0 /\ kernel_code code /\
      seg_base code + gate_entry g = vectors n /\ vectors n <= seg_limit code /\ gt_p g = 1 /\ gt_s g = 0 /\
      (DPL_USER <= gt_dpl g <-> n = Z.to_nat T_SYSCALL) /\
      gt_type g = (if decide (n = Z.to_nat T_SYSCALL) then STS_TG32 else STS_IG32).
Proof.
  intros Hg Hi Hc Hv. destruct (seginit_segments c s Hg Hc) as (s1 & E1 & Ei & _ & _ & _ & _ & _ & Hsegs & _).
  destruct (tvinit_gates s1) as (s2 & E2 & Eh & Hgates); [by rewrite Ei|].
  exists (hw_with c (lidt idt_addr (8 * 256)) s2). split.
  { unfold bind at 1. rewrite E1. unfold bind. rewrite E2. apply upd_hw_last. }
  rewrite hw_with_at, (proj1 (hw_with_rest _ _ _)). split; [done|]. intros n Hn.
  destruct (Hsegs SEG_KCODE 0 true) as (code & Hcode & Hb & Hlim & Hk); [by apply elem_of_cons; left|].
  assert (Hkc : kernel_code code) by (destruct Hk as (H1 & H2 & H3 & H4 & H5); unfold kernel_code; by rewrite H5).
  pose proof (Hgates n Hn) as Hgn. eexists _, code. split; [exact Hgn|]. cbn [gdt lidt].
  rewrite Eh, Hb, Hlim. specialize (Hv n).
  destruct (decide (n = Z.to_nat T_SYSCALL)) as [E|Hne]; rewrite gate_offset by done; cbn [gt_cs gt_dpl gt_type gt_p gt_s SETGATE];
    (split; [exact Hcode|]); split_and!; try done; try lia; unfold DPL_USER; split; intros; done || lia.
Qed.

(** ** Switching to a process *)

Lemma switchuvm_no_pgdir c kstack s : switchuvm c kstack 0 s = Panic "switchuvm: no pgdir".
Proof. done. Qed.

(** switchuvm loads the page table of the process and makes traps use its kernel
    stack; the interrupt state of the CPU is as before. *)
Lemma switchuvm_loads c kstack pgdir s :
  pgdir <> 0 -> length (gdt (hcpu s c)) = NSEGS -> 0 <= cpu_addr c < 4294967000 ->
  let k := cpus (hmach s) c in 0 <= ncli k -> (0 < ncli k -> fl_if k = false) ->
  exists s', switchuvm c kstack pgdir s = Ok tt s' /\ let h := hcpu s' c in
    cr3 h = v2p pgdir /\ ts_esp0 h = u32 (kstack + KSTACK) /\ ts_ss0 h = 16 /\ tr h = 48 /\
    (exists d, gdt h !! SEG_TSS = Some d /\ seg_base d = cpu_addr c + CPU_TS /\ seg_limit d = 103 /\ sg_s d = 0 /\ sg_dpl d = 0) /\
    ncli (cpus (hmach s') c) = ncli k /\ fl_if (cpus (hmach s') c) = fl_if k.
Proof.
  intros Hp Hl Hc k Hn Hif. unfold switchuvm. rewrite (proj2 (Z.eqb_neq _ _)) by done.
  unfold bind, on_mach, pushcli, upd_hw, modify. cbn [hmach hmem kpgdir hcpu idt]. unfold popcli, upd_cpu. cbn [cpus locks].
  rewrite !decide_True by done. cbn [fl_if ncli intena]. fold k. rewrite (proj2 (Z.ltb_ge _ _)) by lia.
  eexists. split; [reflexivity|]. cbn [hcpu hmach cpus ncli fl_if intena]. rewrite !decide_True by done.
  destruct (gdt (hcpu s c)) as [|d0 [|d1 [|d2 [|d3 [|d4 [|d5 [|d6 [|? ?]]]]]]]] eqn:Eg; try done.
  unfold set_gdt. rewrite Eg. cbn. split_and!; try done; try lia.
  - eexists. split; [reflexivity|]. split; [|done].
    change (seg_base (SEG16 STS_T32A (cpu_addr c + CPU_TS) (TS_SIZE - 1) 0) = cpu_addr c + CPU_TS). apply SEG16_base. unfold CPU_TS. lia.
  - destruct (Z.eqb_spec (ncli k + 1 - 1) 0) as [E|E], (Z.eqb_spec (ncli k) 0) as [E'|E']; try lia; done.
Qed.
End tables.

(** ** A CPU *)

Module SegDemo.
Definition seg0 : segdesc := mkSeg 0 0 0 0 0 0 0 0 0 0 0 0 0.
Definition hw0 : cpuhw := mkHw (repeat seg0 7) 0 0 (0, 0) 0 0 0 (0, 0) 0 0.
Definition hs0 : hwst :=
  mkHwst (mkMach (fun _ => mkCpu 0 false false) (fun _ => mkSpin false "" None []))
         (mkK (fun _ => 0) false 0 0 (mkThread [] [])) 0 (fun _ => hw0) (repeat (mkGate 0 0 0 0 0 0 0 0 0) 256).

Lemma gates_into_kernel_witness :
  exists s', (seginit 2149580800 0 ;; tvinit (fun n => 2148532224 + 10 * Z.of_nat (n mod 256)) ;; idtinit 2149584896 0) hs0 = Ok tt s' /\
    idtr (hcpu s' 0%nat) = (2149584896, 2047).
Proof.
  destruct (gates_into_kernel 2149580800 2149584896 (fun n => 2148532224 + 10 * Z.of_nat (n mod 256)) 0 hs0) as (s' & E & Ei & _).
  - reflexivity.
  - reflexivity.
  - unfold cpu_addr, CPU_SIZE. lia.
  - intros n. pose proof (Nat.mod_upper_bound n 256). lia.
  - exists s'. split; [exact E|exact Ei].
Defined.
End SegDemo.
