(* ===== verification/Asm.v ===== *)
(** * swtch.S, trapasm.S, vectors.pl, usys.S and initcode.S

    The assembly of the kernel and of the user stubs, instruction by
    instruction, on the registers of one processor and byte memory.  The
    instructions are those the files use.  A push of a segment register writes
    16 bits, as current processors do, so the padding of struct trapframe is
    left as it was.  The step into the kernel on an interrupt and iret are
    those of the processor manual, for a change of privilege and without one.

    The theorems: a process that is switched away from and back to goes on
    behind its call of swtch with the registers a C caller relies on; a trap
    builds the frame that struct trapframe describes, for every vector, and
    trapret brings back the registers that are in the frame. *)

From S2P Require Import Prelude Memory Mmu Irq Seg.

Open Scope Z_scope.

Inductive reg : Type := EAX | ECX | EDX | EBX | ESP | EBP | ESI | EDI.
Inductive sreg : Type := CS | DS | ES | FS | GS | SS.

#[export] Instance reg_eq_dec : EqDecision reg.
Proof. solve_decision. Defined.
#[export] Instance sreg_eq_dec : EqDecision sreg.
Proof. solve_decision. Defined.

Record cpu : Type := mkCpu { gr : reg -> Z; sr : sreg -> Z; eip : Z; eflags : Z; cm : mem }.

Definition set_gr (r : reg) (v : Z) (s : cpu) : cpu :=
  mkCpu (fun q => if decide (q = r) then v else gr s q) (sr s) (eip s) (eflags s) (cm s).
Definition set_sr (r : sreg) (v : Z) (s : cpu) : cpu :=
  mkCpu (gr s) (fun q => if decide (q = r) then v else sr s q) (eip s) (eflags s) (cm s).
Definition set_eip (v : Z) (s : cpu) : cpu := mkCpu (gr s) (sr s) v (eflags s) (cm s).
Definition set_eflags (v : Z) (s : cpu) : cpu := mkCpu (gr s) (sr s) (eip s) v (cm s).
Definition set_cm (m : mem) (s : cpu) : cpu := mkCpu (gr s) (sr s) (eip s) (eflags s) m.

Definition store16 (m : mem) (a v : Z) : mem := store_bytes m a (le_bytes 2 v).

Definition push (v : Z) (s : cpu) : cpu :=
  let sp := u32 (gr s ESP - 4) in set_cm (store32 (cm s) sp v) (set_gr ESP sp s).
Definition push16 (v : Z) (s : cpu) : cpu :=
  let sp := u32 (gr s ESP - 4) in set_cm (store16 (cm s) sp v) (set_gr ESP sp s).
Definition top (s : cpu) : Z := load32 (cm s) (gr s ESP).
Definition drop_word (s : cpu) : cpu := set_gr ESP (u32 (gr s ESP + 4)) s.

Inductive instr : Type :=
| Load (disp : Z) (base dst : reg)     (* movl disp(%base), %dst *)
| Store (src : reg) (disp : Z) (base : reg)
| Mov (src dst : reg)
| MovI (v : Z) (dst : reg)
| MovwI (v : Z)                        (* movw $v, %ax *)
| MovS (dst : sreg)                    (* movw %ax, %dst *)
| Push (src : reg)
| PushI (v : Z)
| PushS (src : sreg)
| Pop (dst : reg)
| PopS (dst : sreg)
| Pushal
| Popal
| AddEsp (n : Z)
| Call (ret target : Z)                (* call target, with the next instruction at ret *)
| Ret_.

Definition pushal (s : cpu) : cpu :=
  let old := gr s ESP in
  push (gr s EDI) (push (gr s ESI) (push (gr s EBP) (push old
    (push (gr s EBX) (push (gr s EDX) (push (gr s ECX) (push (gr s EAX) s))))))).

(** popal skips the stack pointer. *)
Definition pop_to (r : reg) (s : cpu) : cpu := set_gr r (top s) (drop_word s).
Definition popal (s : cpu) : cpu :=
  pop_to EAX (pop_to ECX (pop_to EDX (pop_to EBX (drop_word (pop_to EBP (pop_to ESI (pop_to EDI s))))))).

Definition exec1 (i : instr) (s : cpu) : cpu :=
  match i with
  | Load disp base dst => set_gr dst (load32 (cm s) (u32 (gr s base + disp))) s
  | Store src disp base => set_cm (store32 (cm s) (u32 (gr s base + disp)) (gr s src)) s
  | Mov src dst => set_gr dst (gr s src) s
  | MovI v dst => set_gr dst v s
  | MovwI v => set_gr EAX (65536 * (gr s EAX / 65536) + u16 v) s
  | MovS dst => set_sr dst (u16 (gr s EAX)) s
  | Push src => push (gr s src) s
  | PushI v => push v s
  | PushS src => push16 (sr s src) s
  | Pop dst => pop_to dst s
  | PopS dst => set_sr dst (u16 (top s)) (drop_word s)
  | Pushal => pushal s
  | Popal => popal s
  | AddEsp n => set_gr ESP (u32 (gr s ESP + n)) s
  | Call ret target => set_eip target (push ret s)
  | Ret_ => set_eip (top s) (drop_word s)
  end.

Definition exec (code : list instr) (s : cpu) : cpu := fold_left (fun s i => exec1 i s) code s.

(** ** swtch.S *)

Definition swtch_code : list instr :=
  [Load 4 ESP EAX; Load 8 ESP EDX;
   Push EBP; Push EBX; Push ESI; Push EDI;
   Store ESP 0 EAX; Mov EDX ESP;
   Pop EDI; Pop ESI; Pop EBX; Pop EBP; Ret_].

Definition swtch (s : cpu) : cpu := exec swtch_code s.

(** ** vectors.pl and trapasm.S *)

(** The vectors for which the processor pushes an error code. *)
Definition has_error (n : Z) : bool := (n =? 8) || ((10 <=? n) && (n <=? 14)) || (n =? 17).

Definition vector_code (n : Z) : list instr := (if negb (has_error n) then [PushI 0] else []) ++ [PushI n].

(** [trap] is the address of trap() and [ra] that of the instruction behind the
    call. *)
Definition alltraps_code (ra trap : Z) : list instr :=
  [PushS DS; PushS ES; PushS FS; PushS GS; Pushal;
   MovwI (Z.shiftl (Z.of_nat SEG_KDATA) 3); MovS DS; MovS ES;
   MovwI (Z.shiftl (Z.of_nat SEG_KCPU) 3); MovS FS; MovS GS;
   Push ESP; Call ra trap].

Definition trapret_code : list instr := [Popal; PopS GS; PopS FS; PopS ES; PopS DS; AddEsp 8].

(** Behind the call alltraps drops the argument and falls through to trapret. *)
Definition alltraps_back_code : list instr := AddEsp 4 :: trapret_code.

(** ** The processor's part *)

(** An interrupt through a gate: [ss0] and [esp0] are the stack of the task
    state segment, taken when the processor is not at level 0; the gate gives
    the code segment and the entry.  An interrupt gate clears FL_IF. *)
Definition trap_entry (ss0 esp0 : Z) (err : option Z) (kcs entry : Z) (isr : bool) (s : cpu) : cpu :=
  let flags := if isr then Z.land (eflags s) (Z.lnot 512) else eflags s in
  let s1 :=
    if Z.land (sr s CS) 3 =? 0 then s
    else push (gr s ESP) (push (sr s SS) (set_sr SS ss0 (set_gr ESP esp0 s))) in
  let s1 := push (eip s) (push (sr s CS) (push (eflags s) s1)) in
  let s1 := match err with Some e => push e s1 | None => s1 end in
  set_eflags flags (set_eip entry (set_sr CS kcs s1)).

(** iret: the stack pointer is taken too when the level changes. *)
Definition iret (s : cpu) : cpu :=
  let ip := top s in
  let s1 := drop_word s in
  let cs := u16 (top s1) in
  let s2 := drop_word s1 in
  let fl := top s2 in
  let s3 := drop_word s2 in
  let s4 := set_eflags fl (set_eip ip (set_sr CS cs s3)) in
  if Z.land cs 3 =? Z.land (sr s CS) 3 then s4
  else set_sr SS (u16 (load32 (cm s3) (u32 (gr s3 ESP + 4)))) (set_gr ESP (top s3) s4).

Definition trapret (s : cpu) : cpu := iret (exec trapret_code s).
Definition alltraps_back (s : cpu) : cpu := iret (exec alltraps_back_code s).

(** From the interrupt to the first instruction of trap(): the processor, the
    vector and alltraps. *)
Definition enter_trap (ss0 esp0 kcs ra trap : Z) (n : Z) (err : option Z) (isr : bool) (s : cpu) : cpu :=
  exec (alltraps_code ra trap) (exec (vector_code n) (trap_entry ss0 esp0 err kcs 0 isr s)).

(** ** usys.S and initcode.S *)

(** A stub loads the number and traps with int $T_SYSCALL. *)
Definition stub (num : Z) (s : cpu) : cpu := exec [MovI num EAX] s.

(** start: the stack and the number at the first int. *)
Definition initcode_code (init argv : Z) : list instr := [PushI argv; PushI init; PushI 0; MovI 7 EAX].

(** ** The stack *)

Definition word (v : Z) : Prop := 0 <= v < 4294967296.
Definition half (v : Z) : Prop := 0 <= v < 65536.

(** A word of the stack, or one of which only the lower half is known. *)
Inductive cell : Type := W (v : Z) | H (v : Z).

Definition cell_at (m : mem) (a : Z) (c : cell) : Prop :=
  match c with W v => load32 m a = v | H v => load32 m a mod 65536 = v end.

Fixpoint cells (m : mem) (a : Z) (l : list cell) : Prop :=
  match l with
  | [] => True
  | c :: l => cell_at m a c /\ cells m (a + 4) l
  end.

Definition stack (s : cpu) (a : Z) (l : list cell) : Prop := gr s ESP = a /\ cells (cm s) a l.

(** Memory that agrees on the bytes of a list of cells. *)
Lemma cells_same m m' l : forall a,
  (forall x, a <= x < a + 4 * Z.of_nat (length l) -> load8 m' x = load8 m x) -> cells m a l -> cells m' a l.
Proof.
  induction l as [|c l IH]; intros a Hx Hc; [done|]. destruct Hc as [Hc Hl]. cbn [length] in Hx. split.
  - assert (E : load32 m' a = load32 m a) by (rewrite !load32_load8; by rewrite !Hx by lia).
    destruct c; cbn in *; by rewrite E.
  - apply IH; [|done]. intros x Hr. apply Hx. lia.
Qed.

Lemma push_stack s a l v : stack s a l -> 4 <= a < 4294967296 -> word v -> stack (push v s) (a - 4) (W v :: l).
Proof.
  intros [He Hc] Ha Hv. unfold stack, push. rewrite He, u32_small by lia. cbn [gr cm set_cm set_gr cells cell_at]. rewrite decide_True by done. split; [done|]. split.
  - rewrite load32_store32. by apply u32_small.
  - replace (a - 4 + 4) with a by lia. eapply cells_same, Hc. intros x Hx. rewrite load8_store32.
    by rewrite (proj2 (Z.ltb_ge x _)), andb_false_r by lia.
Qed.

Lemma store16_low m a v : half v -> load32 (store16 m a v) a mod 65536 = v.
Proof.
  intros Hv. unfold half in Hv. rewrite load32_load8. unfold store16. rewrite !load8_store_bytes. cbn [le_bytes length].
  rewrite Z.sub_diag. replace (a + 1 - a) with 1 by lia. cbn [Z.to_nat nth Pos.to_nat Pos.iter_op]. change (Z.to_nat 1) with 1%nat. cbn [nth].
  repeat (zif; try lia). change (Z.to_nat 0) with 0%nat. cbn [nth]. rewrite !u8_idem.
  generalize (load8 m (a + 2)) (load8 m (a + 3)). intros x y. zlia.
Qed.

Lemma push16_stack s a l v : stack s a l -> 4 <= a < 4294967296 -> half v -> stack (push16 v s) (a - 4) (H v :: l).
Proof.
  intros [He Hc] Ha Hv. unfold stack, push16. rewrite He, u32_small by lia. cbn [gr cm set_cm set_gr cells cell_at]. rewrite decide_True by done. split; [done|]. split.
  - by apply store16_low.
  - replace (a - 4 + 4) with a by lia. eapply cells_same, Hc. intros x Hx. unfold store16. rewrite load8_store_bytes.
    cbn [le_bytes length]. by rewrite (proj2 (Z.ltb_ge x _)), andb_false_r by lia.
Qed.

Lemma drop_stack s a c l : stack s a (c :: l) -> 0 <= a -> a + 4 < 4294967296 -> stack (drop_word s) (a + 4) l /\ cell_at (cm s) a c.
Proof. intros [He [Hc Hl]] H0 Ha. unfold stack, drop_word. rewrite He, u32_small by lia. cbn [gr cm set_cm set_gr]. by rewrite decide_True. Qed.

Lemma gr_set r v s q : gr (set_gr r v s) q = if decide (q = r) then v else gr s q.
Proof. done. Qed.

(** Several words pushed one after the other. *)
Definition pushes (vs : list Z) (s : cpu) : cpu := fold_left (fun s v => push v s) vs s.

Record pushed (vs : list Z) (s s' : cpu) (a : Z) : Prop := {
  ps_regs r : r <> ESP -> gr s' r = gr s r;
  ps_rest : sr s' = sr s /\ eflags s' = eflags s /\ eip s' = eip s;
  ps_mem x : x < a - 4 * Z.of_nat (length vs) \/ a <= x -> load8 (cm s') x = load8 (cm s) x
}.

Lemma push_pushed v s a : gr s ESP = a -> 4 <= a < 4294967296 -> pushed [v] s (push v s) a.
Proof.
  intros He Ha. constructor.
  - intros r Hr. unfold push. cbn [gr set_cm set_gr]. by rewrite decide_False.
  - done.
  - intros x Hx. cbn [length] in Hx. unfold push. rewrite He, u32_small by lia. cbn [cm set_cm]. rewrite load8_store32.
    destruct (Z.leb_spec (a - 4) x), (Z.ltb_spec x (a - 4 + 4)); cbn; try done; lia.
Qed.

Lemma pushes_stack vs : forall s a l,
  stack s a l -> 4 * Z.of_nat (length vs) <= a < 4294967296 -> Forall word vs ->
  stack (pushes vs s) (a - 4 * Z.of_nat (length vs)) (rev (map W vs) ++ l) /\ pushed vs s (pushes vs s) a.
Proof.
  induction vs as [|v vs IH]; intros s a l Hs Ha Hv; cbn [pushes fold_left map rev length].
  - rewrite Z.sub_0_r. split; [done|by constructor].
  - apply Forall_cons in Hv as [Hv Hvs]. cbn [length] in Ha. destruct (push_pushed v s a) as [R1 (A1 & A2 & A3) M1]; [apply Hs|lia|].
    destruct (IH (push v s) (a - 4) (W v :: l)) as [Hs' [R2 (B1 & B2 & B3) M2]]; [by apply push_stack; [|lia|]|lia|done|].
    fold (pushes vs (push v s)). rewrite <- app_assoc. split.
    + by replace (a - 4 * Z.of_nat (S (length vs))) with (a - 4 - 4 * Z.of_nat (length vs)) by lia.
    + constructor; [intros r Hr; by rewrite R2, R1|by rewrite B1, B2, B3|].
      intros x Hx. cbn [length] in Hx, M1. rewrite M2, M1 by lia. done.
Qed.

(** Several registers popped one after the other. *)
Definition pops (rs : list reg) (s : cpu) : cpu := fold_left (fun s r => pop_to r s) rs s.

Lemma pops_stack rs : forall vs s a l,
  stack s a (map W vs ++ l) -> length rs = length vs -> NoDup rs -> ESP ∉ rs ->
  0 <= a -> a + 4 * Z.of_nat (length vs) < 4294967296 ->
  let s' := pops rs s in
  stack s' (a + 4 * Z.of_nat (length vs)) l /\ (forall i r, rs !! i = Some r -> vs !! i = Some (gr s' r)) /\
  (forall r, r ∉ rs -> r <> ESP -> gr s' r = gr s r) /\ cm s' = cm s /\ sr s' = sr s /\ eflags s' = eflags s /\ eip s' = eip s.
Proof.
  induction rs as [|r rs IH]; intros [|v vs] s a l Hs Hl Hn He Ha Hb; try done; cbv zeta; cbn [pops fold_left].
  - cbn [length Z.of_nat]. rewrite Z.mul_0_r, Z.add_0_r. by split_and!.
  - apply NoDup_cons in Hn as [Hr Hn]. apply not_elem_of_cons in He as [Hre He]. cbn [map app length] in Hs, Hb.
    destruct (drop_stack s a (W v) _ Hs) as [Hd Hv]; [done|lia|].
    assert (Hp : stack (pop_to r s) (a + 4) (map W vs ++ l)).
    { destruct Hd as [Hd1 Hd2]. split; [|exact Hd2]. unfold pop_to. rewrite gr_set. by rewrite decide_False. }
    assert (Hg : gr (pop_to r s) r = v).
    { unfold pop_to. rewrite gr_set, decide_True by done. unfold top. destruct Hs as [-> _]. exact Hv. }
    destruct (IH vs (pop_to r s) (a + 4) l Hp) as (Hs' & Hi & Ho & Hm & Hsr & Hf & Hip); [by injection Hl|done|done|lia|lia|].
    cbv zeta in *. fold (pops rs (pop_to r s)) in *. split_and!; try done.
    + cbn [length]. by replace (a + 4 * Z.of_nat (S (length vs))) with (a + 4 + 4 * Z.of_nat (length vs)) by lia.
    + intros [|i] q Hq; [injection Hq as <-; cbn; by rewrite Ho, Hg|by apply Hi].
    + intros q Hq Hqe. apply not_elem_of_cons in Hq as [Hq1 Hq2]. rewrite Ho by done. unfold pop_to. rewrite gr_set.
      rewrite decide_False by done. unfold drop_word. rewrite gr_set. by rewrite decide_False.
Qed.

(** ** swtch *)

(** struct context. *)
Record context : Type := mkCtx { cx_edi : Z; cx_esi : Z; cx_ebx : Z; cx_ebp : Z; cx_eip : Z }.
Definition ctx_cells (c : context) : list cell := [W (cx_edi c); W (cx_esi c); W (cx_ebx c); W (cx_ebp c); W (cx_eip c)].

(** A call of swtch(old, new) from [ret], and the pieces of memory it uses apart
    from each other. *)
Record swtch_site (s : cpu) (a ret old new : Z) : Prop := {
  sw_stack : stack s a [W ret; W old; W new];
  sw_low : 16 <= a; sw_high : a + 12 < 4294967296;
  sw_regs r : word (gr s r);
  sw_new : 0 <= new /\ new + 20 < 4294967296;
  sw_old : 0 <= old /\ old + 4 < 4294967296;
  sw_apart_stack : new + 20 <= a - 16 \/ a <= new;
  sw_apart_old : old + 4 <= new \/ new + 20 <= old;
  sw_apart_saved : old + 4 <= a - 16 \/ a + 4 <= old
}.

(** The same with the context [c] at [new]. *)
Record swtch_call (s : cpu) (a ret old new : Z) (c : context) : Prop := {
  sw_site : swtch_site s a ret old new;
  sw_ctx : cells (cm s) new (ctx_cells c)
}.

Definition saved (s : cpu) (ret : Z) : context := mkCtx (gr s EDI) (gr s ESI) (gr s EBX) (gr s EBP) ret.

Lemma exec_app l k s : exec (l ++ k) s = exec k (exec l s).
Proof. apply fold_left_app. Qed.

Lemma exec_push4 s :
  exec [Push EBP; Push EBX; Push ESI; Push EDI] s = pushes [gr s EBP; gr s EBX; gr s ESI; gr s EDI] s.
Proof. reflexivity. Qed.
Lemma exec_pop4 s : exec [Pop EDI; Pop ESI; Pop EBX; Pop EBP] s = pops [EDI; ESI; EBX; EBP] s.
Proof. reflexivity. Qed.

Lemma swtch_parts s : swtch s =
  exec [Ret_] (exec [Pop EDI; Pop ESI; Pop EBX; Pop EBP] (exec [Store ESP 0 EAX; Mov EDX ESP]
    (exec [Push EBP; Push EBX; Push ESI; Push EDI] (exec [Load 4 ESP EAX; Load 8 ESP EDX] s)))).
Proof. unfold swtch. rewrite <- !exec_app. reflexivity. Qed.

(** swtch leaves the caller's registers below its stack, the place of them in
    [*old], and goes on in the context at [new]. *)
Lemma swtch_switches s a ret old new c :
  swtch_call s a ret old new c ->
  let s' := swtch s in
  eip s' = cx_eip c /\ gr s' ESP = new + 20 /\
  gr s' EDI = cx_edi c /\ gr s' ESI = cx_esi c /\ gr s' EBX = cx_ebx c /\ gr s' EBP = cx_ebp c /\
  load32 (cm s') old = a - 16 /\ cells (cm s') (a - 16) (ctx_cells (saved s ret)) /\
  (forall x, x < a - 16 \/ a <= x -> x < old \/ old + 4 <= x -> load8 (cm s') x = load8 (cm s) x) /\
  sr s' = sr s /\ eflags s' = eflags s.
Proof.
  intros [[Hst Hlo Hhi Hr [Hn1 Hn2] [Ho1 Ho2] Ha1 Ha2 Ha3] Hc]. cbv zeta.
  pose proof Hst as [He (Hret & Hold & Hnew & _)]. cbn [cell_at] in Hret, Hold, Hnew. replace (a + 4 + 4) with (a + 8) in Hnew by lia.
  set (s1 := set_gr EDX new (set_gr EAX old s)).
  assert (E1 : exec [Load 4 ESP EAX; Load 8 ESP EDX] s = s1).
  { unfold s1, exec. cbn [fold_left exec1]. rewrite gr_set, decide_False, He, !u32_small by (done || lia).
    cbn [cm set_gr]. by rewrite Hold, Hnew. }
  set (vs := [gr s EBP; gr s EBX; gr s ESI; gr s EDI]).
  destruct (pushes_stack vs s1 a [W ret]) as [Hs2 [R2 (A1 & A2 & A3) M2]];
    [by split|cbn; lia|by repeat constructor; apply Hr|].
  set (s2 := pushes vs s1) in *. change (4 * Z.of_nat (length vs)) with 16 in *.
  set (s3 := set_gr ESP new (set_cm (store32 (cm s2) old (a - 16)) s2)).
  assert (E3 : exec [Store ESP 0 EAX; Mov EDX ESP] s2 = s3).
  { unfold exec. cbn [fold_left exec1]. rewrite R2 by done. destruct Hs2 as [-> _]. change (gr s1 EAX) with old.
    rewrite Z.add_0_r, u32_small by lia. unfold s3. f_equal. }
  assert (M3 : forall x, x < old \/ old + 4 <= x -> load8 (cm s3) x = load8 (cm s2) x).
  { intros x Hx. unfold s3. cbn [cm set_gr set_cm]. rewrite load8_store32.
    destruct (Z.leb_spec old x), (Z.ltb_spec x (old + 4)); cbn; try done; lia. }
  assert (Hcx : stack s3 new (ctx_cells c)).
  { split; [done|]. eapply cells_same, Hc. cbn [length ctx_cells]. intros x Hx. rewrite M3, M2 by lia. done. }
  destruct (pops_stack [EDI; ESI; EBX; EBP] [cx_edi c; cx_esi c; cx_ebx c; cx_ebp c] s3 new [W (cx_eip c)])
    as (Hs4 & Hv & _ & Hm & Hsr & Hf & _); [exact Hcx|reflexivity|by apply (bool_decide_unpack _)|by apply (bool_decide_unpack _)|exact Hn1|cbn; lia|].
  cbv zeta in *. set (s4 := pops [EDI; ESI; EBX; EBP] s3) in *. cbn [length] in Hs4. change (4 * Z.of_nat 4) with 16 in Hs4.
  assert (E4 : swtch s = set_eip (top s4) (drop_word s4)).
  { rewrite swtch_parts, E1, exec_push4. change (pushes _ s1) with s2. rewrite E3, exec_pop4. reflexivity. }
  destruct (drop_stack s4 (new + 16) (W (cx_eip c)) [] Hs4) as [[Hd _] Ht]; [lia..|]. rewrite E4. cbn [eip set_eip gr cm sr eflags drop_word set_gr].
  assert (V0 : Some (cx_edi c) = Some (gr s4 EDI)) by exact (Hv 0%nat EDI eq_refl).
  assert (V1 : Some (cx_esi c) = Some (gr s4 ESI)) by exact (Hv 1%nat ESI eq_refl).
  assert (V2 : Some (cx_ebx c) = Some (gr s4 EBX)) by exact (Hv 2%nat EBX eq_refl).
  assert (V3 : Some (cx_ebp c) = Some (gr s4 EBP)) by exact (Hv 3%nat EBP eq_refl).
  clearbody s4. apply (inj Some) in V0, V1, V2, V3.
  assert (F3 : load32 (cm s3) old = a - 16) by (unfold s3; cbn [cm set_gr set_cm]; rewrite load32_store32; apply u32_small; lia).
  assert (G3 : sr s3 = sr s /\ eflags s3 = eflags s) by (unfold s3; cbn [sr eflags set_gr set_cm]; by rewrite A1, A2).
  assert (K2 : cells (cm s2) (a - 16) (ctx_cells (saved s ret))) by exact (proj2 Hs2).
  clearbody s3 s2. rewrite Hm, Hsr, Hf. destruct G3 as [-> ->].
  split_and!; [|transitivity (new + 16 + 4); [exact Hd|lia]|done..|exact F3| | |done|done].
  - unfold top. destruct Hs4 as [-> _]. exact Ht.
  - eapply (cells_same (cm s2)), K2. cbn [length ctx_cells]. intros x Hx. apply M3. lia.
  - intros x Hx1 Hx2. rewrite M3, M2 by lia. done.
Qed.

(** C25: A process that calls swtch goes on behind the call when it is switched
    back to.  Let [s1] call swtch, and let a later state [s3] call swtch with
    the context pointer that the first call stored in [*old].  If the bytes
    which the first call left in the 20 bytes up to its return address are
    still there (nothing is assumed of what they are), the second call returns
    to the first caller, with its stack pointer as after a return and its
    callee-saved registers as they were. *)
Theorem swtch_resumes s1 s3 a ret old new c a3 ret3 old3 :
  swtch_call s1 a ret old new c ->
  swtch_site s3 a3 ret3 old3 (load32 (cm (swtch s1)) old) ->
  (forall x, a - 16 <= x < a + 4 -> load8 (cm s3) x = load8 (cm (swtch s1)) x) ->
  let s4 := swtch s3 in
  eip s4 = ret /\ gr s4 ESP = a + 4 /\
  forall r, r ∈ [EBP; EBX; ESI; EDI] -> gr s4 r = gr s1 r.
Proof.
  intros H1 H3 Hx. destruct (swtch_switches _ _ _ _ _ _ H1) as (_ & _ & _ & _ & _ & _ & Ho & Hsv & _).
  cbv zeta in Ho, Hsv. rewrite Ho in H3.
  assert (Hc3 : cells (cm s3) (a - 16) (ctx_cells (saved s1 ret))).
  { eapply cells_same, Hsv. cbn [length ctx_cells]. intros x Hr. apply Hx. lia. }
  destruct (swtch_switches _ _ _ _ _ _ (Build_swtch_call _ _ _ _ _ _ H3 Hc3)) as (Hip & Hsp & Edi & Esi & Ebx & Ebp & _). cbv zeta in *.
  split_and!; [exact Hip|rewrite Hsp; lia|].
  intros r Hr. rewrite !elem_of_cons in Hr. destruct Hr as [->|[->|[->|[->|Hr]]]]; [done..|by apply not_elem_of_nil in Hr].
Qed.

(** ** Traps *)

Definition level (cs : Z) : Z := Z.land cs 3.
Definition user (s : cpu) : bool := negb (level (sr s CS) =? 0).

Record regs_ok (s : cpu) : Prop := {
  ok_gr r : word (gr s r); ok_sr r : half (sr s r); ok_eip : word (eip s); ok_flags : word (eflags s)
}.

(** struct trapframe with the registers of [u]; the last two fields exist when
    the trap came from user level. *)
Definition frame_cells (u : cpu) (oesp n err : Z) : list cell :=
  [W (gr u EDI); W (gr u ESI); W (gr u EBP); W oesp; W (gr u EBX); W (gr u EDX); W (gr u ECX); W (gr u EAX);
   H (sr u GS); H (sr u FS); H (sr u ES); H (sr u DS); W n; W err; W (eip u); W (sr u CS); W (eflags u)] ++
  if user u then [W (gr u ESP); W (sr u SS)] else [].

(** Where the stack of the trap starts, and its frame. *)
Definition trap_base (esp0 : Z) (s : cpu) : Z := if user s then esp0 else gr s ESP.
Definition frame_at (esp0 : Z) (s : cpu) : Z := trap_base esp0 s - 68 - if user s then 8 else 0.

Lemma half_word v : half v -> word v.
Proof. unfold half, word. lia. Qed.

(** The words the processor and the vector push. *)
Definition hw_words (s : cpu) (n err : Z) : list Z :=
  (if user s then [sr s SS; gr s ESP] else []) ++ [eflags s; sr s CS; eip s; err; n].

(** Every word of a list is one of the registers. *)
Ltac all_words := repeat first [apply Forall_nil_2 | apply Forall_cons_2 | apply Forall_app_2 | solve [auto using half_word]].

Record trapped (ss0 kcs : Z) (s s1 : cpu) (lo hi : Z) : Prop := {
  tp_gr r : r <> ESP -> gr s1 r = gr s r;
  tp_sr q : q <> CS -> q <> SS -> sr s1 q = sr s q;
  tp_cs : sr s1 CS = kcs;
  tp_ss : sr s1 SS = if user s then ss0 else sr s SS;
  tp_mem x : x < lo \/ hi <= x -> load8 (cm s1) x = load8 (cm s) x
}.

(** The processor pushes the old stack when it changes it, the flags, the
    code segment and the instruction pointer, and some error codes; the vector
    makes up the others. *)
Lemma entry_words ss0 esp0 kcs isr e err s :
  let b := trap_base esp0 s in
  let ws := (if user s then [sr s SS; gr s ESP] else []) ++ [eflags s; sr s CS; eip s] ++ match err with Some x => [x] | None => [] end in
  regs_ok s -> match err with Some x => word x | None => True end -> 4 * Z.of_nat (length ws) <= b < 4294967296 ->
  let s1 := trap_entry ss0 esp0 err kcs e isr s in
  stack s1 (b - 4 * Z.of_nat (length ws)) (rev (map W ws)) /\ trapped ss0 kcs s s1 (b - 4 * Z.of_nat (length ws)) b.
Proof.
  intros b ws [Hg Hs Hi Hf] He Hb s1.
  set (s0 := if user s then set_sr SS ss0 (set_gr ESP esp0 s) else s).
  assert (E0 : gr s0 ESP = b) by (unfold s0, b, trap_base; by destruct (user s)).
  assert (Ew : Forall word ws).
  { unfold ws. destruct (user s), err; all_words. }
  destruct (pushes_stack ws s0 b []) as [Hst [R (A1 & _ & _) M]]; [by split|done|done|].
  assert (E1 : exists fl, s1 = set_eflags fl (set_eip e (set_sr CS kcs (pushes ws s0)))).
  { eexists. unfold s1, trap_entry, s0, ws, pushes. unfold user, level.
    destruct (Z.land (sr s CS) 3 =? 0), err; cbn [negb app fold_left]; reflexivity. }
  destruct E1 as [fl E1]. clearbody s1. revert Hst R A1 M E1. generalize (pushes ws s0). intros p Hst R A1 M E1.
  assert (Eg : gr s1 = gr p) by (by rewrite E1). assert (Ec : cm s1 = cm p) by (by rewrite E1).
  assert (Ecs : sr s1 CS = kcs) by (by rewrite E1).
  assert (Es : forall q, q <> CS -> sr s1 q = sr p q)
    by (intros q Hq; rewrite E1; cbn [sr set_eflags set_eip set_sr]; by rewrite decide_False).
  rewrite app_nil_r in Hst. split; [split; [rewrite Eg; apply Hst|rewrite Ec; apply Hst]|].
  constructor.
  - intros r Hr. rewrite Eg, R by done. unfold s0. destruct (user s); [|done]. cbn [gr set_sr set_gr]. by rewrite decide_False.
  - intros q Hq1 Hq2. rewrite Es, A1 by done. unfold s0. destruct (user s); [|done]. cbn [sr set_sr set_gr]. by rewrite decide_False.
  - exact Ecs.
  - rewrite Es, A1 by done. unfold s0. by destruct (user s).
  - intros x Hx. rewrite Ec, M by done. unfold s0. by destruct (user s).
Qed.

Lemma exec_vector n s : exec (vector_code n) s = pushes (if has_error n then [n] else [0; n]) s.
Proof. unfold vector_code, exec, pushes. by destruct (has_error n). Qed.

(** What is on the stack when alltraps starts is the same for every vector. *)
Lemma vector_words ss0 esp0 kcs isr n err s :
  let b := trap_base esp0 s in
  let ws := hw_words s n (default 0 err) in
  regs_ok s -> word n -> match err with Some x => word x | None => True end -> (is_Some err <-> has_error n = true) ->
  4 * Z.of_nat (length ws) <= b < 4294967296 ->
  let s1 := exec (vector_code n) (trap_entry ss0 esp0 err kcs 0 isr s) in
  stack s1 (b - 4 * Z.of_nat (length ws)) (rev (map W ws)) /\ trapped ss0 kcs s s1 (b - 4 * Z.of_nat (length ws)) b.
Proof.
  intros b ws Hok Hn He Hen Hb s1. unfold s1. rewrite exec_vector.
  set (vs := if has_error n then [n] else [0; n]).
  set (w0 := (if user s then [sr s SS; gr s ESP] else []) ++ [eflags s; sr s CS; eip s] ++ match err with Some x => [x] | None => [] end).
  assert (Ews : ws = w0 ++ vs).
  { unfold ws, hw_words, w0, vs. rewrite <- !app_assoc. f_equal. destruct err as [x|], (has_error n); try done.
    - exfalso. pose proof (proj1 Hen (ex_intro _ x eq_refl)). discriminate.
    - destruct (proj2 Hen eq_refl). discriminate. }
  assert (Hl : Z.of_nat (length ws) = Z.of_nat (length w0) + Z.of_nat (length vs)) by (rewrite Ews, length_app; lia).
  destruct (entry_words ss0 esp0 kcs isr 0 err s Hok He) as [Hst [R S1 Cs Ss M]]; [change (4 * Z.of_nat (length w0) <= b < 4294967296); lia|].
  change (stack (trap_entry ss0 esp0 err kcs 0 isr s) (b - 4 * Z.of_nat (length w0)) (rev (map W w0))) in Hst.
  change (forall x, x < b - 4 * Z.of_nat (length w0) \/ b <= x -> load8 (cm (trap_entry ss0 esp0 err kcs 0 isr s)) x = load8 (cm s) x) in M.
  assert (Ev : Forall word vs) by (unfold vs; destruct (has_error n); repeat apply Forall_cons_2; (done || apply Forall_nil_2)).
  destruct (pushes_stack vs _ _ _ Hst) as [Hst2 [R2 (A1 & _ & _) M2]]; [lia|done|].
  replace (b - 4 * Z.of_nat (length ws)) with (b - 4 * Z.of_nat (length w0) - 4 * Z.of_nat (length vs)) by lia.
  split; [rewrite Ews, map_app, rev_app_distr; exact Hst2|]. constructor.
  - intros r Hr. by rewrite R2, R.
  - intros q Hq1 Hq2. by rewrite A1, S1.
  - by rewrite A1.
  - by rewrite A1.
  - intros x Hx. rewrite M2, M by lia. done.
Qed.

Lemma exec_pushal s : exec1 Pushal s =
  pushes [gr s EAX; gr s ECX; gr s EDX; gr s EBX; gr s ESP; gr s EBP; gr s ESI; gr s EDI] s.
Proof. reflexivity. Qed.

(** Segment registers pushed, each as a half word. *)
Definition push_segs (qs : list sreg) (s : cpu) : cpu := fold_left (fun s q => push16 (sr s q) s) qs s.

Lemma push_segs_stack qs : forall s a l,
  stack s a l -> 4 * Z.of_nat (length qs) <= a < 4294967296 -> (forall q, half (sr s q)) ->
  let s' := push_segs qs s in
  stack s' (a - 4 * Z.of_nat (length qs)) (rev (map (fun q => H (sr s q)) qs) ++ l) /\
  (forall r, r <> ESP -> gr s' r = gr s r) /\ sr s' = sr s /\
  (forall x, x < a - 4 * Z.of_nat (length qs) \/ a <= x -> load8 (cm s') x = load8 (cm s) x).
Proof.
  induction qs as [|q qs IH]; intros s a l Hs Ha Hq; cbv zeta; cbn [push_segs fold_left map rev length].
  - rewrite Z.sub_0_r. by split_and!.
  - cbn [length] in Ha.
    destruct (IH (push16 (sr s q) s) (a - 4) (H (sr s q) :: l)) as (Hs' & R & A & M); [by apply push16_stack; [|lia|]|lia|exact Hq|].
    cbv zeta in *. fold (push_segs qs (push16 (sr s q) s)). rewrite <- app_assoc. split_and!.
    + by replace (a - 4 * Z.of_nat (S (length qs))) with (a - 4 - 4 * Z.of_nat (length qs)) by lia.
    + intros r Hr. rewrite R by done. unfold push16. cbn [gr set_cm set_gr]. by rewrite decide_False.
    + by rewrite A.
    + intros x Hx. rewrite M by lia. destruct Hs as [He _]. unfold push16. rewrite He, u32_small by lia. cbn [cm set_cm].
      unfold store16. rewrite load8_store_bytes. cbn [le_bytes length].
      destruct (Z.leb_spec (a - 4) x), (Z.ltb_spec x (a - 4 + Z.of_nat 2)); cbn; try done; lia.
Qed.

(** The segments of the kernel are loaded through ax. *)
Definition kernel_segs : list instr :=
  [MovwI (Z.shiftl (Z.of_nat SEG_KDATA) 3); MovS DS; MovS ES; MovwI (Z.shiftl (Z.of_nat SEG_KCPU) 3); MovS FS; MovS GS].

Lemma exec_kernel_segs s : word (gr s EAX) ->
  let s' := exec kernel_segs s in
  gr s' ESP = gr s ESP /\ cm s' = cm s /\ (forall r, r <> EAX -> gr s' r = gr s r) /\
  sr s' DS = 16 /\ sr s' ES = 16 /\ sr s' FS = 24 /\ sr s' GS = 24 /\ sr s' CS = sr s CS /\ sr s' SS = sr s SS.
Proof.
  intros Hw. cbv zeta. unfold exec, kernel_segs. cbn [fold_left exec1]. change (Z.shiftl (Z.of_nat SEG_KDATA) 3) with 16.
  change (Z.shiftl (Z.of_nat SEG_KCPU) 3) with 24. cbn [gr sr cm set_gr set_sr].
  assert (E : forall x v, 0 <= v < 65536 -> u16 (65536 * x + u16 v) = v) by (intros x v Hv; zlia).
  split_and!; try done.
  - intros r Hr. by rewrite !decide_False by done.
  - rewrite !decide_False, !decide_True by done. by apply E.
  - rewrite !decide_False, !decide_True by done. by apply E.
  - rewrite !decide_False, !decide_True by done. by apply E.
  - rewrite !decide_True by done. by apply E.
Qed.

Lemma exec_push_segs s : exec [PushS DS; PushS ES; PushS FS; PushS GS] s = push_segs [DS; ES; FS; GS] s.
Proof. reflexivity. Qed.

Lemma enter_trap_parts ss0 esp0 kcs ra trap n err isr s : enter_trap ss0 esp0 kcs ra trap n err isr s =
  exec [Push ESP; Call ra trap] (exec kernel_segs (exec1 Pushal (push_segs [DS; ES; FS; GS]
    (exec (vector_code n) (trap_entry ss0 esp0 err kcs 0 isr s))))).
Proof.
  unfold enter_trap. change (alltraps_code ra trap) with ([PushS DS; PushS ES; PushS FS; PushS GS] ++ [Pushal] ++ kernel_segs ++ [Push ESP; Call ra trap]).
  rewrite !exec_app, exec_push_segs. reflexivity.
Qed.

(** The first instruction of trap(): its return address and its argument, the
    address of the frame, lie below the frame; the segments it runs with. *)
Record in_trap (s s1 : cpu) (ss0 kcs ra trap tf base n err : Z) : Prop := {
  it_stack : stack s1 (tf - 8) (W ra :: W tf :: frame_cells s (tf + 32) n err);
  it_eip : eip s1 = trap;
  it_data : sr s1 DS = 16 /\ sr s1 ES = 16;
  it_cpu : sr s1 FS = 24 /\ sr s1 GS = 24;
  it_code : sr s1 CS = kcs /\ sr s1 SS = if user s then ss0 else sr s SS;
  it_mem x : x < tf - 8 \/ base <= x -> load8 (cm s1) x = load8 (cm s) x
}.

(** The push of the argument and the call. *)
Lemma call_trap_stack s tf l ra trap :
  stack s tf l -> 8 <= tf < 4294967296 -> word ra ->
  let s' := exec [Push ESP; Call ra trap] s in
  stack s' (tf - 8) (W ra :: W tf :: l) /\ eip s' = trap /\ sr s' = sr s /\
  (forall x, x < tf - 8 \/ tf <= x -> load8 (cm s') x = load8 (cm s) x).
Proof.
  intros Hs Ht Hra. cbv zeta. assert (Ee : gr s ESP = tf) by apply Hs.
  change (exec [Push ESP; Call ra trap] s) with (set_eip trap (pushes [gr s ESP; ra] s)). rewrite Ee.
  destruct (pushes_stack [tf; ra] s tf l Hs) as [Hst [_ (A & _ & _) M]];
    [cbn; lia|repeat apply Forall_cons_2; [unfold word; lia|done|apply Forall_nil_2]|].
  split_and!; [exact Hst|done|exact A|exact M].
Qed.

Lemma enter_trap_builds ss0 esp0 kcs ra trap n err isr s :
  regs_ok s -> half kcs -> half ss0 -> word ra -> word n -> match err with Some x => word x | None => True end ->
  (is_Some err <-> has_error n = true) -> 8 <= frame_at esp0 s -> trap_base esp0 s < 4294967296 ->
  in_trap s (enter_trap ss0 esp0 kcs ra trap n err isr s) ss0 kcs ra trap (frame_at esp0 s) (trap_base esp0 s) n (default 0 err).
Proof.
  intros Hok Hkcs Hss Hra Hn He Hen Hlo Hhi. rewrite enter_trap_parts. unfold frame_at in *. set (b := trap_base esp0 s) in *.
  set (ws := hw_words s n (default 0 err)).
  assert (Hlen : Z.of_nat (length ws) = 5 + if user s then 2 else 0) by (unfold ws, hw_words; by destruct (user s)).
  set (k := if user s then 8 else 0) in *. assert (Hk : 4 * Z.of_nat (length ws) = 20 + k) by (rewrite Hlen; unfold k; by destruct (user s)).
  set (s1 := exec (vector_code n) (trap_entry ss0 esp0 err kcs 0 isr s)).
  assert (Hvw : stack s1 (b - 4 * Z.of_nat (length ws)) (rev (map W ws)) /\ trapped ss0 kcs s s1 (b - 4 * Z.of_nat (length ws)) b).
  { apply vector_words; [done..|]. change (4 * Z.of_nat (length ws) <= b < 4294967296). lia. }
  clearbody s1. rewrite Hk in Hvw. destruct Hvw as [Hst [R1 S1 Cs1 Ss1 M1]].
  assert (Hq : forall q, half (sr s1 q)).
  { destruct Hok as [_ Hs _ _]. intros q. destruct (decide (q = CS)) as [->|]; [by rewrite Cs1|].
    destruct (decide (q = SS)) as [->|]; [rewrite Ss1; by destruct (user s)|]. by rewrite S1. }
  destruct (push_segs_stack [DS; ES; FS; GS] s1 (b - (20 + k)) _ Hst) as (Hst2 & R2 & A2 & M2); [cbn; unfold k in *; destruct (user s); lia|done|].
  cbv zeta in *. set (s2 := push_segs _ s1) in *. clearbody s2. cbn [length] in Hst2, M2. rewrite exec_pushal.
  set (vs := [gr s2 EAX; gr s2 ECX; gr s2 EDX; gr s2 EBX; gr s2 ESP; gr s2 EBP; gr s2 ESI; gr s2 EDI]).
  assert (Hr2 : forall r, r <> ESP -> gr s2 r = gr s r) by (intros r Hr; by rewrite R2, R1).
  assert (He2 : gr s2 ESP = b - 68 - k + 32) by (destruct Hst2 as [-> _]; cbn; lia).
  destruct (pushes_stack vs s2 (b - 68 - k + 32) (rev (map (fun q => H (sr s1 q)) [DS; ES; FS; GS]) ++ rev (map W ws))) as [Hst3 [R3 (A3 & _ & _) M3]].
  { replace (b - 68 - k + 32) with (b - (20 + k) - 4 * Z.of_nat 4) by lia. exact Hst2. }
  { cbn. lia. }
  { destruct Hok as [Hg _ _ _]. unfold vs. rewrite He2, !Hr2 by done. all_words. unfold word. lia. }
  set (s3 := pushes vs s2) in *. change (4 * Z.of_nat (length vs)) with 32 in *.
  replace (b - 68 - k + 32 - 32) with (b - 68 - k) in * by lia.
  assert (Hw3 : word (gr s3 EAX)) by (destruct Hok as [Hg _ _ _]; rewrite R3, Hr2 by done; apply Hg).
  destruct (exec_kernel_segs s3 Hw3) as (E4 & M4 & _ & D1 & D2 & D3 & D4 & D5 & D6). cbv zeta in *.
  set (s4 := exec kernel_segs s3) in *.
  assert (Hst4 : stack s4 (b - 68 - k) (frame_cells s (b - 68 - k + 32) n (default 0 err))).
  { split; [rewrite E4; apply Hst3|]. rewrite M4. destruct Hst3 as [_ Hc]. revert Hc. unfold vs, ws, hw_words, frame_cells. cbn [map rev app].
    rewrite He2, !Hr2, !S1 by done. destruct (user s); exact (fun x => x). }
  clearbody s4 s3.
  destruct (call_trap_stack s4 (b - 68 - k) _ ra trap Hst4) as (Hst5 & E5 & A5 & M5); [lia|done|]. cbv zeta in *.
  constructor; rewrite ?A5; try done.
  - rewrite D5, D6, A3, A2. done.
  - intros x Hx. rewrite M5, M4, M3, M2, M1 by lia. done.
Qed.

(** ** The way back *)

Definition pop_segs (qs : list sreg) (s : cpu) : cpu := fold_left (fun s q => exec1 (PopS q) s) qs s.

Lemma pop_segs_stack qs : forall vs s a l,
  stack s a (map H vs ++ l) -> length qs = length vs -> NoDup qs -> 0 <= a -> a + 4 * Z.of_nat (length vs) < 4294967296 ->
  let s' := pop_segs qs s in
  stack s' (a + 4 * Z.of_nat (length vs)) l /\ (forall i q, qs !! i = Some q -> vs !! i = Some (sr s' q)) /\
  (forall q, q ∉ qs -> sr s' q = sr s q) /\ (forall r, r <> ESP -> gr s' r = gr s r) /\ cm s' = cm s.
Proof.
  induction qs as [|q qs IH]; intros [|v vs] s a l Hs Hl Hn Ha Hb; try done; cbv zeta; cbn [pop_segs fold_left].
  - cbn [length Z.of_nat]. rewrite Z.mul_0_r, Z.add_0_r. by split_and!.
  - apply NoDup_cons in Hn as [Hq Hn]. cbn [map app length] in Hs, Hb.
    destruct (drop_stack s a (H v) _ Hs) as [Hd Hv]; [done|lia|].
    assert (Hp : stack (exec1 (PopS q) s) (a + 4) (map H vs ++ l)) by exact Hd.
    assert (Hg : sr (exec1 (PopS q) s) q = v).
    { cbn [exec1 sr set_sr]. rewrite decide_True by done. unfold top, u16. destruct Hs as [-> _]. exact Hv. }
    destruct (IH vs (exec1 (PopS q) s) (a + 4) l Hp) as (Hs' & Hi & Ho & Hgr & Hm); [by injection Hl|done|lia|lia|].
    cbv zeta in *. fold (pop_segs qs (exec1 (PopS q) s)) in *. split_and!; try done.
    + cbn [length]. by replace (a + 4 * Z.of_nat (S (length vs))) with (a + 4 + 4 * Z.of_nat (length vs)) by lia.
    + intros [|i] q' Hq'; [|by apply Hi]. cbn in Hq'. apply (inj Some) in Hq' as <-. by rewrite Ho, Hg.
    + intros q' Hq'. apply not_elem_of_cons in Hq' as [Hq1 Hq2]. rewrite Ho by done. cbn [exec1 sr set_sr]. by rewrite decide_False.
    + intros r Hr. rewrite Hgr by done. cbn [exec1 gr set_sr]. unfold drop_word. rewrite gr_set. by rewrite decide_False.
Qed.

Lemma exec_popal s : exec1 Popal s = pops [EBX; EDX; ECX; EAX] (drop_word (pops [EDI; ESI; EBP] s)).
Proof. reflexivity. Qed.
Lemma exec_pop_segs s : exec [PopS GS; PopS FS; PopS ES; PopS DS] s = pop_segs [GS; FS; ES; DS] s.
Proof. reflexivity. Qed.

Lemma trapret_parts s : trapret s = iret (exec1 (AddEsp 8) (pop_segs [GS; FS; ES; DS] (exec1 Popal s))).
Proof.
  unfold trapret. change trapret_code with ([Popal] ++ [PopS GS; PopS FS; PopS ES; PopS DS] ++ [AddEsp 8]).
  rewrite !exec_app, exec_pop_segs. reflexivity.
Qed.

Lemma popal_restores s tf vs oesp v4 l :
  stack s tf (map W vs ++ W oesp :: map W v4 ++ l) -> length vs = 3%nat -> length v4 = 4%nat -> 0 <= tf -> tf + 32 < 4294967296 ->
  let s' := exec1 Popal s in
  stack s' (tf + 32) l /\ vs = [gr s' EDI; gr s' ESI; gr s' EBP] /\ v4 = [gr s' EBX; gr s' EDX; gr s' ECX; gr s' EAX] /\
  cm s' = cm s /\ sr s' = sr s.
Proof.
  intros Hs Hl3 Hl4 Ha Hb. cbv zeta. rewrite exec_popal.
  destruct (pops_stack [EDI; ESI; EBP] vs s tf _ Hs) as (Hs1 & V1 & O1 & M1 & S1 & _); [by rewrite Hl3|by apply (bool_decide_unpack _)..|done|lia|].
  cbv zeta in *. set (s1 := pops [EDI; ESI; EBP] s) in *. clearbody s1. rewrite Hl3 in Hs1.
  destruct (drop_stack s1 _ (W oesp) _ Hs1) as [Hs2 _]; [lia..|].
  destruct (pops_stack [EBX; EDX; ECX; EAX] v4 (drop_word s1) _ _ Hs2) as (Hs3 & V3 & O3 & M3 & S3 & _);
    [by rewrite Hl4|by apply (bool_decide_unpack _)..|lia|lia|].
  cbv zeta in *. set (s3 := pops [EBX; EDX; ECX; EAX] (drop_word s1)) in *. clearbody s3. rewrite Hl4 in Hs3.
  assert (G : forall r, r ∈ [EDI; ESI; EBP] -> gr s3 r = gr s1 r).
  { intros r Hr. rewrite !elem_of_cons in Hr. destruct Hr as [->|[->|[->|Hr]]]; [| | |by apply not_elem_of_nil in Hr];
      (rewrite O3; [reflexivity|by apply (bool_decide_unpack _)|done]). }
  split_and!.
  - by replace (tf + 32) with (tf + 4 * Z.of_nat 3 + 4 + 4 * Z.of_nat 4) by lia.
  - apply list_eq. intros i. destruct i as [|[|[|i]]]; cbn [lookup list_lookup]; rewrite ?G by (by apply (bool_decide_unpack _)).
    + exact (V1 0%nat EDI eq_refl).
    + exact (V1 1%nat ESI eq_refl).
    + exact (V1 2%nat EBP eq_refl).
    + apply lookup_ge_None_2. lia.
  - apply list_eq. intros i. destruct i as [|[|[|[|i]]]]; cbn [lookup list_lookup].
    + exact (V3 0%nat EBX eq_refl).
    + exact (V3 1%nat EDX eq_refl).
    + exact (V3 2%nat ECX eq_refl).
    + exact (V3 3%nat EAX eq_refl).
    + apply lookup_ge_None_2. lia.
  - rewrite M3. exact M1.
  - rewrite S3. exact S1.
Qed.

Lemma iret_restores s a u :
  stack s a ([W (eip u); W (sr u CS); W (eflags u)] ++ if user u then [W (gr u ESP); W (sr u SS)] else []) ->
  half (sr u CS) -> half (sr u SS) -> level (sr s CS) = 0 -> 0 <= a -> a + 20 < 4294967296 ->
  (user u = false -> gr u ESP = a + 12 /\ sr u SS = sr s SS) ->
  let s' := iret s in
  eip s' = eip u /\ eflags s' = eflags u /\ gr s' ESP = gr u ESP /\ sr s' CS = sr u CS /\ sr s' SS = sr u SS /\
  (forall r, r <> ESP -> gr s' r = gr s r) /\ (forall q, q <> CS -> q <> SS -> sr s' q = sr s q) /\ cm s' = cm s.
Proof.
  intros Hs Hcs Hss Hl Ha Hb Hk. cbv zeta.
  destruct (drop_stack s a _ _ Hs) as [Hs1 T0]; [lia..|]. destruct (drop_stack _ _ _ _ Hs1) as [Hs2 T1]; [lia..|].
  destruct (drop_stack _ _ _ _ Hs2) as [Hs3 T2]; [lia..|].
  assert (E0 : top s = eip u) by (unfold top; destruct Hs as [-> _]; exact T0).
  assert (E1 : u16 (top (drop_word s)) = sr u CS).
  { unfold top. destruct Hs1 as [-> _]. change (u16 (load32 (cm s) (a + 4)) = sr u CS). rewrite T1. unfold u16. by apply Z.mod_small. }
  assert (E2 : top (drop_word (drop_word s)) = eflags u) by (unfold top; destruct Hs2 as [-> _]; exact T2).
  unfold iret. rewrite E0, E1, E2. set (s3 := drop_word (drop_word (drop_word s))) in *.
  assert (R3 : forall r, r <> ESP -> gr s3 r = gr s r).
  { intros r Hr. unfold s3, drop_word. cbn [gr set_gr]. by rewrite !decide_False. }
  assert (M3 : cm s3 = cm s /\ sr s3 = sr s) by done. clearbody s3. destruct M3 as [M3 S3].
  destruct Hs3 as [Hesp Hc]. unfold level in Hl. rewrite Hl.
  replace (Z.land (sr u CS) 3 =? 0) with (negb (user u)) by (unfold user, level; by rewrite negb_involutive).
  destruct (user u); cbn [negb] in *.
  - destruct Hc as (C0 & C1 & _). rewrite Hesp, u32_small by lia. unfold top. rewrite Hesp.
    cbn [eip eflags gr sr cm set_sr set_gr set_eflags set_eip]. cbn [cell_at] in C0, C1.
    split_and!; try done.
    + unfold u16. rewrite C1. by apply Z.mod_small.
    + intros r Hr. rewrite decide_False by done. by apply R3.
    + intros q Hq1 Hq2. rewrite !decide_False by done. by rewrite S3.
  - destruct (Hk eq_refl) as [Hke Hks]. cbn [eip eflags gr sr cm set_sr set_gr set_eflags set_eip].
    split_and!; try done.
    + rewrite Hesp, Hke. lia.
    + by rewrite decide_False, S3.
    + intros q Hq1 Hq2. rewrite decide_False by done. by rewrite S3.
Qed.

Lemma trapret_restores s tf u oesp n err :
  stack s tf (frame_cells u oesp n err) -> (forall q, half (sr u q)) -> level (sr s CS) = 0 ->
  0 <= tf -> tf + 76 < 4294967296 -> (user u = false -> gr u ESP = tf + 68 /\ sr u SS = sr s SS) ->
  let s' := trapret s in
  (forall r, gr s' r = gr u r) /\ (forall q, sr s' q = sr u q) /\ eip s' = eip u /\ eflags s' = eflags u /\ cm s' = cm s.
Proof.
  intros Hs Hq Hl Ha Hb Hk. cbv zeta. rewrite trapret_parts.
  destruct (popal_restores s tf [gr u EDI; gr u ESI; gr u EBP] oesp [gr u EBX; gr u EDX; gr u ECX; gr u EAX]
    ([H (sr u GS); H (sr u FS); H (sr u ES); H (sr u DS); W n; W err; W (eip u); W (sr u CS); W (eflags u)] ++
     if user u then [W (gr u ESP); W (sr u SS)] else [])) as (Hs1 & V3 & V4 & M1 & S1); [exact Hs|done|done|done|lia|].
  cbv zeta in *. set (s1 := exec1 Popal s) in *. clearbody s1.
  injection V3 as E1 E2 E3. injection V4 as E4 E5 E6 E7.
  destruct (pop_segs_stack [GS; FS; ES; DS] [sr u GS; sr u FS; sr u ES; sr u DS] s1 (tf + 32)
    ([W n; W err; W (eip u); W (sr u CS); W (eflags u)] ++ if user u then [W (gr u ESP); W (sr u SS)] else []))
    as (Hs2 & V & O & G2 & M2); [exact Hs1|done|by apply (bool_decide_unpack _)|lia|cbn; lia|].
  cbv zeta in *. set (s2 := pop_segs _ s1) in *. clearbody s2. cbn [length] in Hs2. change (4 * Z.of_nat 4) with 16 in Hs2.
  assert (Hs3 : stack (exec1 (AddEsp 8) s2) (tf + 56)
    ([W (eip u); W (sr u CS); W (eflags u)] ++ if user u then [W (gr u ESP); W (sr u SS)] else [])).
  { destruct Hs2 as [He (_ & _ & Hc)]. split; [|replace (tf + 56) with (tf + 32 + 16 + 4 + 4) by lia; exact Hc].
    cbn [exec1]. rewrite gr_set, decide_True, He, u32_small by (done || lia). lia. }
  set (s3 := exec1 (AddEsp 8) s2) in *.
  assert (F3 : (forall r, r <> ESP -> gr s3 r = gr s1 r) /\ sr s3 = sr s2 /\ cm s3 = cm s).
  { unfold s3. split_and!; [|done|change (cm s2 = cm s); by rewrite M2].
    intros r Hr. cbn [exec1]. rewrite gr_set, decide_False by done. by apply G2. }
  clearbody s3. destruct F3 as (G3 & S3 & M3).
  assert (C3 : sr s3 CS = sr s CS) by (rewrite S3, O, S1; [done|by apply (bool_decide_unpack _)]).
  assert (X3 : sr s3 SS = sr s SS) by (rewrite S3, O, S1; [done|by apply (bool_decide_unpack _)]).
  destruct (iret_restores s3 (tf + 56) u Hs3 (Hq CS) (Hq SS)) as (I1 & I2 & I3 & I4 & I5 & I6 & I7 & I8);
    [by rewrite C3|lia|lia|rewrite X3; intros Hu; destruct (Hk Hu) as [-> ->]; split; [lia|done]|].
  cbv zeta in *. split_and!; [| |done|done|by rewrite I8].
  - intros [| | | | | | |]; try exact I3; rewrite I6, G3 by done; by symmetry.
  - intros [| | | | |]; try assumption; (rewrite I7, S3 by done; symmetry; apply (inj Some)).
    + exact (V 3%nat DS eq_refl).
    + exact (V 2%nat ES eq_refl).
    + exact (V 1%nat FS eq_refl).
    + exact (V 0%nat GS eq_refl).
Qed.

(** The argument of trap() dropped. *)
Lemma alltraps_back_eq s : alltraps_back s = trapret (exec1 (AddEsp 4) s).
Proof.
  unfold alltraps_back, trapret, alltraps_back_code. change (AddEsp 4 :: trapret_code) with ([AddEsp 4] ++ trapret_code).
  rewrite exec_app. reflexivity.
Qed.

(** The return from trap() and the drop of its argument bring the stack pointer
    to the frame. *)
Lemma trap_returns s tf ra :
  gr s ESP = tf - 8 -> load32 (cm s) (tf - 8) = ra -> 8 <= tf < 4294967296 ->
  let s' := exec1 Ret_ s in
  eip s' = ra /\ gr (exec1 (AddEsp 4) s') ESP = tf /\ sr (exec1 (AddEsp 4) s') = sr s /\ cm (exec1 (AddEsp 4) s') = cm s.
Proof.
  intros He Hr Ht. cbv zeta. cbn [exec1 eip gr sr cm set_eip set_gr drop_word]. unfold top.
  rewrite He, !decide_True, (u32_small (tf - 8 + 4)), u32_small by (done || lia). split_and!; (done || lia).
Qed.

(** C26: A trap and its return.  For every vector and from either level, the
    processor, the vector and alltraps build at [tf] the struct trapframe of
    the interrupted program, load the kernel's segments and call trap() with
    the address of the frame, without touching memory outside the stack.  When
    trap() comes to its ret with the stack pointer and the return address it
    was called with, and a frame in which only eax may differ, the ret goes
    back behind the call, and from there the drop of the argument and trapret
    resume the program with all its registers, its stack and its flags, and
    that eax. *)
Theorem trap_round_trip ss0 esp0 kcs ra trap n err isr s v :
  regs_ok s -> half kcs -> half ss0 -> word ra -> word n -> match err with Some x => word x | None => True end ->
  (is_Some err <-> has_error n = true) -> 8 <= frame_at esp0 s -> trap_base esp0 s + 8 < 4294967296 ->
  let tf := frame_at esp0 s in
  let s1 := enter_trap ss0 esp0 kcs ra trap n err isr s in
  in_trap s s1 ss0 kcs ra trap tf (trap_base esp0 s) n (default 0 err) /\
  forall s2 oesp n' err', gr s2 ESP = gr s1 ESP -> load32 (cm s2) (gr s2 ESP) = ra ->
    level (sr s2 CS) = 0 -> sr s2 SS = sr s1 SS ->
    cells (cm s2) tf (frame_cells (set_gr EAX v s) oesp n' err') ->
    eip (exec1 Ret_ s2) = ra /\
    let s3 := alltraps_back (exec1 Ret_ s2) in
    (forall r, gr s3 r = if decide (r = EAX) then v else gr s r) /\ (forall q, sr s3 q = sr s q) /\
    eip s3 = eip s /\ eflags s3 = eflags s /\ cm s3 = cm s2.
Proof.
  intros Hok Hkcs Hss Hra Hn He Hen Hlo Hhi. cbv zeta.
  pose proof (enter_trap_builds ss0 esp0 kcs ra trap n err isr s Hok Hkcs Hss Hra Hn He Hen Hlo ltac:(lia)) as Hin. split; [exact Hin|].
  intros s2 oesp n' err' H2 Hret Hl Hs Hc.
  destruct Hin as [[Hesp _] _ _ _ [_ Hsss] _]. rewrite Hesp in H2. rewrite H2 in Hret.
  assert (Htf : frame_at esp0 s + 76 < 4294967296) by (unfold frame_at in *; destruct (user s); lia).
  destruct (trap_returns s2 (frame_at esp0 s) ra H2 Hret) as (Ei & Ee & Es & Em); [lia|]. split; [exact Ei|].
  rewrite alltraps_back_eq. rewrite <- Em in Hc |- *. rewrite <- Es in Hl, Hs.
  set (s2' := exec1 (AddEsp 4) (exec1 Ret_ s2)) in *. clearbody s2'.
  apply (trapret_restores s2' (frame_at esp0 s) (set_gr EAX v s) oesp n' err'); [by split|apply Hok|done|lia|exact Htf|].
  intros Hu. change (user s = false) in Hu. rewrite Hs, Hsss, Hu.
  unfold frame_at, trap_base. rewrite Hu. split; [|done]. change (gr (set_gr EAX v s) ESP) with (gr s ESP). lia.
Qed.

Module AsmDemo.
(** A program in user mode makes system call 64 with the kernel stack at
    0x80010000, and then two processes change places. *)
Definition ustate : cpu :=
  mkCpu (fun r => match r with EAX => 7 | ECX => 1 | EDX => 2 | EBX => 3 | ESP => 4000 | EBP => 4040 | ESI => 5 | EDI => 6 end)
    (fun q => match q with CS => 35 | _ => 43 end) 77 514 (fun _ => 0).

Lemma ustate_ok : regs_ok ustate.
Proof. constructor; try (intros []); unfold word, half; cbn; lia. Qed.

(** trap(), at 0x80105000 and called from 0x80104fff, has set eax to 9 and is
    about to return. *)
Definition trapping : cpu := enter_trap 16 0x80010000 8 0x80104fff 0x80105000 64 None false ustate.
Definition returning : cpu := set_cm (store32 (cm trapping) (gr trapping ESP + 8 + 28) 9) trapping.

Lemma trap_round_trip_witness :
  let tf := frame_at 0x80010000 ustate in
  in_trap ustate trapping 16 8 0x80104fff 0x80105000 tf (trap_base 0x80010000 ustate) 64 0 /\
  eip (exec1 Ret_ returning) = 0x80104fff /\
  let s3 := alltraps_back (exec1 Ret_ returning) in
  (forall r, gr s3 r = if decide (r = EAX) then 9 else gr ustate r) /\ (forall q, sr s3 q = sr ustate q) /\
  eip s3 = eip ustate /\ eflags s3 = eflags ustate /\ cm s3 = cm returning.
Proof.
  cbv zeta. destruct (trap_round_trip 16 0x80010000 8 0x80104fff 0x80105000 64 None false ustate 9) as [H1 H2];
    try (unfold word, half; lia); [apply ustate_ok|split; [by intros [? ?]|done]|vm_compute; congruence..|].
  split; [exact H1|].
  apply (H2 returning (frame_at 0x80010000 ustate + 32) 64 0); [vm_compute; reflexivity..|].
  vm_compute. by split_and!.
Defined.

(** Process A calls swtch at 2000 with its registers; the scheduler's context
    is at 5000; later the scheduler switches back. *)
Definition put_words (l : list (Z * Z)) (m : mem) : mem := fold_left (fun m av => store32 m (fst av) (snd av)) l m.

Definition proc_a : cpu :=
  mkCpu (fun r => match r with ESP => 2000 | EBP => 11 | EBX => 12 | ESI => 13 | EDI => 14 | _ => 0 end) (fun _ => 16) 0 0
    (put_words [(2000, 100); (2004, 3000); (2008, 5000); (5000, 21); (5004, 22); (5008, 23); (5012, 24); (5016, 200)] (fun _ => 0)).
Definition sched_ctx : context := mkCtx 21 22 23 24 200.

(** The scheduler, some calls later, about to switch back to A. *)
Definition sched : cpu :=
  mkCpu (fun r => match r with ESP => 4900 | _ => 1 end) (fun _ => 16) 0 0
    (put_words [(4900, 300); (4904, 3100); (4908, 1984)] (cm (swtch proc_a))).

Lemma call_a : swtch_call proc_a 2000 100 3000 5000 sched_ctx.
Proof.
  constructor; [|vm_compute; by split_and!].
  constructor; try lia; [vm_compute; by split_and!|intros []; unfold word; cbn; lia].
Qed.

Lemma call_sched : swtch_site sched 4900 300 3100 (load32 (cm (swtch proc_a)) 3000).
Proof.
  replace (load32 (cm (swtch proc_a)) 3000) with 1984 by (vm_compute; reflexivity).
  constructor; try lia; [vm_compute; by split_and!|intros []; unfold word; cbn; lia].
Qed.

Lemma swtch_resumes_witness :
  let s4 := swtch sched in
  eip s4 = 100 /\ gr s4 ESP = 2000 + 4 /\ forall r, r ∈ [EBP; EBX; ESI; EDI] -> gr s4 r = gr proc_a r.
Proof.
  apply (swtch_resumes proc_a sched 2000 100 3000 5000 sched_ctx 4900 300 3100); [apply call_a|apply call_sched|].
  intros x Hx. unfold sched. cbn [cm put_words fold_left fst snd]. rewrite !load8_store32.
  repeat (rewrite (proj2 (Z.leb_gt _ x)) by lia; cbn [andb]). reflexivity.
Defined.
End AsmDemo.
