(* ===== verification/Start.v ===== *)
(** * bootasm.S, entry.S and entryother.S: how a processor gets into C

    The start-up code runs while the processor changes its modes, so the model
    has what the modes are made of: the control registers, the table register,
    and for each segment register the hidden descriptor that a load fetches
    from memory.  Real mode, protected mode and paging with 4 MB pages are as
    in the processor manual; an access that the processor refuses ends the run
    ([None]).  The wait loops for the keyboard controller run on fuel.

    Memory is by physical address, shifted by [bias]: 0 for the boot sector,
    KERNBASE where the kernel looks at the same bytes.

    The theorems: bootasm.S leaves the processor in 32-bit mode with segments
    over all of memory at bootmain; entry.S turns on paging in such a way that
    low and high addresses of the first 4 MB both work and reaches main;
    entryother.S does both for another processor, on the stack and at the
    address it finds below its code. *)

From S2P Require Import Prelude Memory Mmu Irq Seg Asm.

Open Scope Z_scope.

Definition CR0_PE : Z := 1.
Definition CR0_WP : Z := 65536.
Definition CR0_PG : Z := 2147483648.
Definition CR4_PSE : Z := 16.

(** asm.h: a descriptor as the assembler lays it down. *)
Definition SEG_NULLASM : list Z := repeat 0 8.
Definition SEG_ASM (type base lim : Z) : list Z :=
  le_bytes 2 (Z.land (Z.shiftr lim 12) 65535) ++ le_bytes 2 (Z.land base 65535) ++
  [Z.land (Z.shiftr base 16) 255; Z.lor 144 type; Z.lor 192 (Z.land (Z.shiftr lim 28) 15); Z.land (Z.shiftr base 24) 255].

(** The bootstrap table of bootasm.S and entryother.S. *)
Definition boot_gdt : list Z :=
  SEG_NULLASM ++ SEG_ASM (Z.lor STA_X STA_R) 0 4294967295 ++ SEG_ASM STA_W 0 4294967295.
Definition boot_gdtdesc (gdt : Z) : list Z := le_bytes 2 (8 * 3 - 1) ++ le_bytes 4 gdt.

(** ** The processor *)

(** What the processor keeps of a descriptor. *)
Record desc : Type := mkDesc { d_base : Z; d_limit : Z; d_type : Z; d_s : bool; d_p : bool; d_big : bool }.

Definition desc_of (w0 w1 : Z) : desc :=
  let lim := Z.land w0 65535 + Z.land w1 983040 in
  mkDesc (Z.shiftr w0 16 + Z.shiftl (Z.land w1 255) 16 + Z.land w1 4278190080)
         (if Z.testbit w1 23 then 4096 * lim + 4095 else lim)
         (Z.land (Z.shiftr w1 8) 15) (Z.testbit w1 12) (Z.testbit w1 15) (Z.testbit w1 22).

Definition null_desc : desc := mkDesc 0 0 0 false false false.
Definition flat_code : desc := mkDesc 0 4294967295 (Z.lor STA_X STA_R) true true true.
Definition flat_data : desc := mkDesc 0 4294967295 STA_W true true true.

Record core : Type := mkCore {
  c_gr : reg -> Z; c_sr : sreg -> Z; c_hid : sreg -> desc; c_eip : Z; c_if : bool;
  cr0 : Z; cr3 : Z; cr4 : Z; c_gdtr : Z * Z
}.

Definition PE (c : core) : bool := Z.testbit (cr0 c) 0.
Definition WP (c : core) : bool := Z.testbit (cr0 c) 16.
Definition PG (c : core) : bool := Z.testbit (cr0 c) 31.
Definition PSE (c : core) : bool := Z.testbit (cr4 c) 4.

Definition put_gr (r : reg) (v : Z) (c : core) : core :=
  mkCore (fun q => if decide (q = r) then v else c_gr c q) (c_sr c) (c_hid c) (c_eip c) (c_if c) (cr0 c) (cr3 c) (cr4 c) (c_gdtr c).
Definition put_sr (r : sreg) (v : Z) (d : desc) (c : core) : core :=
  mkCore (c_gr c) (fun q => if decide (q = r) then v else c_sr c q) (fun q => if decide (q = r) then d else c_hid c q)
         (c_eip c) (c_if c) (cr0 c) (cr3 c) (cr4 c) (c_gdtr c).
Definition put_eip (v : Z) (c : core) : core :=
  mkCore (c_gr c) (c_sr c) (c_hid c) v (c_if c) (cr0 c) (cr3 c) (cr4 c) (c_gdtr c).
Definition put_if (b : bool) (c : core) : core :=
  mkCore (c_gr c) (c_sr c) (c_hid c) (c_eip c) b (cr0 c) (cr3 c) (cr4 c) (c_gdtr c).
Definition put_gdtr (v : Z * Z) (c : core) : core :=
  mkCore (c_gr c) (c_sr c) (c_hid c) (c_eip c) (c_if c) (cr0 c) (cr3 c) (cr4 c) v.

Inductive creg : Type := CR0 | CR3 | CR4.
Definition get_cr (r : creg) (c : core) : Z := match r with CR0 => cr0 c | CR3 => cr3 c | CR4 => cr4 c end.
Definition put_cr (r : creg) (v : Z) (c : core) : core :=
  mkCore (c_gr c) (c_sr c) (c_hid c) (c_eip c) (c_if c)
    (match r with CR0 => v | _ => cr0 c end) (match r with CR3 => v | _ => cr3 c end) (match r with CR4 => v | _ => cr4 c end) (c_gdtr c).

Inductive binstr : Type :=
| Cli
| XorwAx                              (* xorw %ax, %ax *)
| MovwAx (v : Z)                      (* movw $v, %ax *)
| MovwAxS (dst : sreg)                (* movw %ax, %dst *)
| MovbAl (v : Z)                      (* movb $v, %al *)
| OutbAl (port : Z)                   (* outb %al, $port *)
| WaitKbd                             (* 1: inb $0x64, %al; testb $0x2, %al; jnz 1b *)
| Lgdt (a : Z)                        (* lgdt a *)
| FromCr (r : creg)                   (* movl %r, %eax *)
| ToCr (r : creg)                     (* movl %eax, %r *)
| OrEax (v : Z)                       (* orl $v, %eax *)
| MovlI (v : Z) (dst : reg)           (* movl $v, %dst *)
| MovlM (a : Z) (dst : reg)           (* movl (a), %dst *)
| Ljmp (sel off : Z)                  (* ljmp $sel, $off *)
| JmpEax                              (* jmp *%eax *)
| CallI (a ret : Z)                   (* call a, with the address behind it *)
| CallM (a ret : Z).                  (* call *(a) *)

Section processor.
Context (bias : Z) {D : Type} `{Ports D} (polls : nat).

(** A linear address, through the page table when paging is on; [wr] for a
    write, which a read-only page refuses when CR0_WP is set. *)
Definition translate (c : core) (m : mem) (wr : bool) (la : Z) : option Z :=
  let refused (pte : Z) := negb (Z.testbit pte 0) || (wr && WP c && negb (Z.testbit pte 1)) in
  if PG c then
    let pde := load32 m (bias + PTE_ADDR (cr3 c) + 4 * PDX la) in
    if refused pde then None
    else if PSE c && Z.testbit pde 7 then Some (Z.land pde 4290772992 + la mod 4194304)
    else
      let pte := load32 m (bias + PTE_ADDR pde + 4 * PTX la) in
      if refused pte then None else Some (PTE_ADDR pte + la mod 4096)
  else Some la.

(** [n] bytes at an offset of a segment: where they are in memory. *)
Definition address (r : sreg) (n off : Z) (c : core) (m : mem) (wr : bool) : option Z :=
  let d := c_hid c r in
  if off + n - 1 <=? d_limit d then translate c m wr (u32 (d_base d + off)) else None.

(** What each segment register takes. *)
Definition takes (r : sreg) (d : desc) : bool :=
  d_p d && d_s d &&
  match r with
  | CS => Z.testbit (d_type d) 3
  | SS => negb (Z.testbit (d_type d) 3) && Z.testbit (d_type d) 1
  | _ => negb (Z.testbit (d_type d) 3) || Z.testbit (d_type d) 1
  end.

Definition load_seg (r : sreg) (sel : Z) (c : core) (m : mem) : option core :=
  if PE c then
    if Z.land sel 65532 =? 0 then
      match r with CS | SS => None | _ => Some (put_sr r sel null_desc c) end
    else
      let off := Z.land sel 65528 in
      if Z.testbit sel 2 || (snd (c_gdtr c) <? off + 7) then None
      else
        match translate c m false (fst (c_gdtr c) + off) with
        | None => None
        | Some pa =>
            let d := desc_of (load32 m (bias + pa)) (load32 m (bias + pa + 4)) in
            if takes r d then Some (put_sr r sel d c) else None
        end
  else Some (put_sr r sel (mkDesc (16 * sel) (d_limit (c_hid c r)) (d_type (c_hid c r)) true true false) c).

Definition set_ax (v : Z) (c : core) : core := put_gr EAX (65536 * (c_gr c EAX / 65536) + u16 v) c.
Definition set_al (v : Z) (c : core) : core := put_gr EAX (256 * (c_gr c EAX / 256) + u8 v) c.

Fixpoint wait_kbd (fuel : nat) (c : core) (d : D) : option (core * D) :=
  match fuel with
  | O => None
  | S fuel =>
      let '(v, d) := inb 100 d in
      let c := set_al v c in
      if Z.land (u8 v) 2 =? 0 then Some (c, d) else wait_kbd fuel c d
  end.

(** The processor, the memory and the devices. *)
Definition bstate : Type := core * mem * D.

Definition call_to (target ret : Z) (c : core) (m : mem) (d : D) : option bstate :=
  let sp := u32 (c_gr c ESP - 4) in
  match address SS 4 sp c m true with
  | None => None
  | Some pa => Some (put_eip target (put_gr ESP sp c), store32 m (bias + pa) ret, d)
  end.

Definition bexec1 (i : binstr) (s : bstate) : option bstate :=
  let '(c, m, d) := s in
  match i with
  | Cli => Some (put_if false c, m, d)
  | XorwAx => Some (set_ax 0 c, m, d)
  | MovwAx v => Some (set_ax v c, m, d)
  | MovwAxS r => match load_seg r (u16 (c_gr c EAX)) c m with Some c => Some (c, m, d) | None => None end
  | MovbAl v => Some (set_al v c, m, d)
  | OutbAl p => Some (c, m, outb p (u8 (c_gr c EAX)) d)
  | WaitKbd => match wait_kbd polls c d with Some (c, d) => Some (c, m, d) | None => None end
  | Lgdt a =>
      match address DS 6 a c m false with
      | None => None
      | Some pa => Some (put_gdtr (Z.land (load32 m (bias + pa + 2)) (if d_big (c_hid c CS) then 4294967295 else 16777215),
                                   Z.land (load32 m (bias + pa)) 65535) c, m, d)
      end
  | FromCr r => Some (put_gr EAX (get_cr r c) c, m, d)
  | ToCr r => Some (put_cr r (c_gr c EAX) c, m, d)
  | OrEax v => Some (put_gr EAX (Z.lor (c_gr c EAX) v) c, m, d)
  | MovlI v r => Some (put_gr r v c, m, d)
  | MovlM a r =>
      match address DS 4 a c m false with
      | None => None
      | Some pa => Some (put_gr r (load32 m (bias + pa)) c, m, d)
      end
  | Ljmp sel off => match load_seg CS sel c m with Some c => Some (put_eip off c, m, d) | None => None end
  | JmpEax => Some (put_eip (c_gr c EAX) c, m, d)
  | CallI a ret => call_to a ret c m d
  | CallM a ret =>
      match address DS 4 a c m false with
      | None => None
      | Some pa => call_to (load32 m (bias + pa)) ret c m d
      end
  end.

Fixpoint brun (code : list binstr) (s : bstate) : option bstate :=
  match code with
  | [] => Some s
  | i :: code => match bexec1 i s with Some s => brun code s | None => None end
  end.

End processor.

(** ** The code *)

Definition KCODE : Z := Z.shiftl (Z.of_nat SEG_KCODE) 3.
Definition KDATA : Z := Z.shiftl (Z.of_nat SEG_KDATA) 3.

Definition zero_segments : list binstr := [Cli; XorwAx; MovwAxS DS; MovwAxS ES; MovwAxS SS].
Definition enable_a20 : list binstr := [WaitKbd; MovbAl 209; OutbAl 100; WaitKbd; MovbAl 223; OutbAl 96].
Definition enter_protected (gdtdesc start32 : Z) : list binstr :=
  [Lgdt gdtdesc; FromCr CR0; OrEax CR0_PE; ToCr CR0; Ljmp KCODE start32;
   MovwAx KDATA; MovwAxS DS; MovwAxS ES; MovwAxS SS; MovwAx 0; MovwAxS FS; MovwAxS GS].

(** bootasm.S, linked at 0x7c00. *)
Definition boot_start : Z := 31744.
Definition bootasm (gdtdesc start32 bootmain ret : Z) : list binstr :=
  zero_segments ++ enable_a20 ++ enter_protected gdtdesc start32 ++ [MovlI boot_start ESP; CallI bootmain ret].

Definition KSTACKSIZE : Z := 4096.

(** entry.S; [stack] is its .comm block. *)
Definition entry (entrypgdir stack main : Z) : list binstr :=
  [FromCr CR4; OrEax CR4_PSE; ToCr CR4; MovlI (v2p entrypgdir) EAX; ToCr CR3;
   FromCr CR0; OrEax (Z.lor CR0_PG CR0_WP); ToCr CR0;
   MovlI (stack + KSTACKSIZE) ESP; MovlI main EAX; JmpEax].

(** entryother.S, linked at 0x7000. *)
Definition other_start : Z := 28672.
Definition entryother (gdtdesc start32 ret : Z) : list binstr :=
  zero_segments ++ enter_protected gdtdesc start32 ++
  [FromCr CR4; OrEax CR4_PSE; ToCr CR4; MovlM (other_start - 12) EAX; ToCr CR3;
   FromCr CR0; OrEax (Z.lor (Z.lor CR0_PE CR0_PG) CR0_WP); ToCr CR0;
   MovlM (other_start - 4) ESP; CallM (other_start - 8) ret].

(** entrypgdir of main.c. *)
Definition entrypgdir : list Z :=
  <[Z.to_nat (Z.shiftr KERNBASE PDXSHIFT) := Z.lor (Z.lor PTE_P PTE_W) PTE_PS]>
    (<[0%nat := Z.lor (Z.lor PTE_P PTE_W) PTE_PS]> (replicate (Z.to_nat NPDENTRIES) 0)).

(** ** Running it *)

Lemma u16_ax x v : u16 (65536 * (x / 65536) + u16 v) = u16 v.
Proof. zlia. Qed.
Lemma u8_al x v : u8 (256 * (x / 256) + u8 v) = u8 v.
Proof. zlia. Qed.

Lemma load8_at m a n l i b : load_bytes m a n = l -> (i < n)%nat -> l !! i = Some b -> load8 m (a + Z.of_nat i) = b.
Proof. intros <- Hi. rewrite lookup_load_bytes by done. congruence. Qed.

Section running.
Context (bias : Z) {D : Type} `{Ports D} (polls : nat).

Lemma brun_app k1 k2 s : brun bias polls (k1 ++ k2) s =
  match brun bias polls k1 s with Some s => brun bias polls k2 s | None => None end.
Proof. revert s; induction k1 as [|i k1 IH]; intros s; cbn [app brun]; [done|]. destruct (bexec1 bias polls i s); [apply IH|done]. Qed.

(** The table and its description in memory. *)
Record table_at (m : mem) (gdt gdtdesc : Z) : Prop := {
  ta_gdt : load_bytes m (bias + gdt) 24 = boot_gdt;
  ta_desc : load_bytes m (bias + gdtdesc) 6 = boot_gdtdesc gdt;
  ta_low : 0 <= gdt < 16777216
}.

Lemma boot_descs m gdt gdtdesc : table_at m gdt gdtdesc ->
  desc_of (load32 m (bias + (gdt + 8))) (load32 m (bias + (gdt + 8) + 4)) = flat_code /\
  desc_of (load32 m (bias + (gdt + 16))) (load32 m (bias + (gdt + 16) + 4)) = flat_data.
Proof.
  intros [Hg _ _]. assert (Hb : forall i b, (i < 24)%nat -> boot_gdt !! i = Some b -> forall a, a = bias + gdt + Z.of_nat i -> load8 m a = b).
  { intros i b Hi Hl a ->. by eapply load8_at. }
  rewrite !load32_load8.
  rewrite (Hb 8%nat 255), (Hb 9%nat 255), (Hb 10%nat 0), (Hb 11%nat 0), (Hb 12%nat 0), (Hb 13%nat 154), (Hb 14%nat 207), (Hb 15%nat 0) by (done || lia).
  rewrite (Hb 16%nat 255), (Hb 17%nat 255), (Hb 18%nat 0), (Hb 19%nat 0), (Hb 20%nat 0), (Hb 21%nat 146), (Hb 22%nat 207), (Hb 23%nat 0) by (done || lia).
  done.
Qed.

Lemma boot_gdtr m gdt gdtdesc : table_at m gdt gdtdesc ->
  Z.land (load32 m (bias + gdtdesc + 2)) 16777215 = gdt /\ Z.land (load32 m (bias + gdtdesc)) 65535 = 23.
Proof.
  intros [_ Hd Hr]. assert (Hb : forall i b, (i < 6)%nat -> boot_gdtdesc gdt !! i = Some b -> forall a, a = bias + gdtdesc + Z.of_nat i -> load8 m a = b).
  { intros i b Hi Hl a ->. by eapply load8_at. }
  unfold boot_gdtdesc in Hb. cbn [le_bytes app] in Hb. change 16777215 with (2 ^ 24 - 1). change 65535 with (2 ^ 16 - 1). rewrite !land_mask by done.
  rewrite !load32_load8. split.
  - erewrite (Hb 2%nat), (Hb 3%nat), (Hb 4%nat), (Hb 5%nat) by (reflexivity || lia). zlia.
  - erewrite (Hb 0%nat), (Hb 1%nat) by (reflexivity || lia). cbn. pose proof (load32_range m (bias + gdtdesc)). zlia.
Qed.

(** [code] runs to its end and leaves [Q]. *)
Definition goes (code : list binstr) (s : bstate) (Q : bstate -> Prop) : Prop :=
  exists s', brun bias polls code s = Some s' /\ Q s'.

Lemma goes_nil s (Q : bstate -> Prop) : Q s -> goes [] s Q.
Proof. by exists s. Qed.

Lemma goes_cons i code s s1 Q : bexec1 bias polls i s = Some s1 -> goes code s1 Q -> goes (i :: code) s Q.
Proof. intros Hi (s' & Hr & Hq). exists s'. split; [|done]. cbn [brun]. by rewrite Hi. Qed.

Lemma goes_app k1 k2 s Q : goes k1 s (fun s1 => goes k2 s1 Q) -> goes (k1 ++ k2) s Q.
Proof. intros (s1 & H1 & s2 & H2 & Hq). exists s2. split; [|done]. by rewrite brun_app, H1. Qed.

Lemma movs_real c m d r : PE c = false -> bexec1 bias polls (MovwAxS r) (c, m, d) =
  Some (put_sr r (u16 (c_gr c EAX)) (mkDesc (16 * u16 (c_gr c EAX)) (d_limit (c_hid c r)) (d_type (c_hid c r)) true true false) c, m, d).
Proof. intros Hp. unfold bexec1, load_seg. by rewrite Hp. Qed.

(** Real mode: the three segments start at 0. *)
Record zeroed (c c1 : core) : Prop := {
  ze_if : c_if c1 = false; ze_cr0 : cr0 c1 = cr0 c; ze_cr4 : cr4 c1 = cr4 c; ze_cs : c_hid c1 CS = c_hid c CS;
  ze_base : d_base (c_hid c1 DS) = 0; ze_limit : d_limit (c_hid c1 DS) = d_limit (c_hid c DS)
}.

Lemma zero_segments_run c m d (Q : bstate -> Prop) : PE c = false ->
  (forall c1, zeroed c c1 -> Q (c1, m, d)) -> goes zero_segments (c, m, d) Q.
Proof.
  intros Hp HQ. unfold zero_segments. do 2 (eapply goes_cons; [reflexivity|]).
  do 3 (eapply goes_cons; [by apply movs_real|]). apply goes_nil, HQ. split; try reflexivity.
  change (16 * u16 (65536 * (c_gr c EAX / 65536) + u16 0) = 0). by rewrite u16_ax.
Qed.

(** Into protected mode. *)
Record unpaged (gdt : Z) (c : core) : Prop := { un_pe : PE c = true; un_pg : PG c = false; un_gdtr : c_gdtr c = (gdt, 23) }.

Lemma ljmp_flat c m d gdt gdtdesc off : unpaged gdt c -> table_at m gdt gdtdesc ->
  bexec1 bias polls (Ljmp KCODE off) (c, m, d) = Some (put_eip off (put_sr CS KCODE flat_code c), m, d).
Proof.
  intros [H1 H2 H3] Ht. unfold bexec1, load_seg. rewrite H1, H3. unfold translate. rewrite H2.
  change (fst (gdt, 23) + Z.land KCODE 65528) with (gdt + 8). cbv zeta. by rewrite (proj1 (boot_descs _ _ _ Ht)).
Qed.

Lemma movs_flat c m d gdt gdtdesc r : unpaged gdt c -> table_at m gdt gdtdesc -> u16 (c_gr c EAX) = KDATA -> r <> CS ->
  bexec1 bias polls (MovwAxS r) (c, m, d) = Some (put_sr r KDATA flat_data c, m, d).
Proof.
  intros [H1 H2 H3] Ht He Hr. unfold bexec1, load_seg. rewrite H1, H3, He. unfold translate. rewrite H2.
  change (fst (gdt, 23) + Z.land KDATA 65528) with (gdt + 16). cbv zeta. rewrite (proj2 (boot_descs _ _ _ Ht)). by destruct r.
Qed.

Lemma movs_null c m d gdt r : unpaged gdt c -> u16 (c_gr c EAX) = 0 -> r = FS \/ r = GS ->
  bexec1 bias polls (MovwAxS r) (c, m, d) = Some (put_sr r 0 null_desc c, m, d).
Proof. intros [H1 _ _] He Hr. unfold bexec1, load_seg. rewrite H1, He. by destruct Hr as [-> | ->]. Qed.

(** 32-bit segments over all of memory, paging off. *)
Record flat_segs (c : core) : Prop := {
  fs_cs : c_sr c CS = KCODE /\ c_hid c CS = flat_code;
  fs_data : forall r, r = DS \/ r = ES \/ r = SS -> c_sr c r = KDATA /\ c_hid c r = flat_data;
  fs_null : c_sr c FS = 0 /\ c_sr c GS = 0
}.

Record flat (c c1 : core) : Prop := {
  fl_cr0 : cr0 c1 = Z.lor (cr0 c) CR0_PE; fl_cr4 : cr4 c1 = cr4 c; fl_if : c_if c1 = c_if c; fl_segs : flat_segs c1
}.

Lemma lgdt_run c m d gdt gdtdesc : table_at m gdt gdtdesc -> PG c = false -> d_big (c_hid c CS) = false ->
  d_base (c_hid c DS) = 0 -> 0 <= gdtdesc < 65536 -> gdtdesc + 5 <= d_limit (c_hid c DS) ->
  bexec1 bias polls (Lgdt gdtdesc) (c, m, d) = Some (put_gdtr (gdt, 23) c, m, d).
Proof.
  intros Ht Hg Hb Hd Hr Hl. unfold bexec1, address, translate. rewrite Hg, Hb, Hd. cbv zeta. zif; [|lia].
  rewrite Z.add_0_l, u32_small by lia. destruct (boot_gdtr _ _ _ Ht) as [-> ->]. done.
Qed.

Lemma enter_protected_run c m d gdt gdtdesc start32 (Q : bstate -> Prop) : table_at m gdt gdtdesc -> PG c = false -> d_big (c_hid c CS) = false ->
  d_base (c_hid c DS) = 0 -> 0 <= gdtdesc < 65536 -> gdtdesc + 5 <= d_limit (c_hid c DS) ->
  (forall c1, flat c c1 -> Q (c1, m, d)) -> goes (enter_protected gdtdesc start32) (c, m, d) Q.
Proof.
  intros Ht Hg Hb Hd Hr Hl HQ. unfold enter_protected. eapply goes_cons; [by eapply lgdt_run|].
  do 3 (eapply goes_cons; [reflexivity|]). set (c0 := put_cr CR0 _ _).
  assert (Hu : unpaged gdt c0).
  { split; [| |done]; unfold PE, PG; change (cr0 c0) with (Z.lor (cr0 c) CR0_PE); rewrite Z.lor_spec; [apply orb_true_r|by unfold PG in Hg; rewrite Hg]. }
  assert (Hc : cr0 c0 = Z.lor (cr0 c) CR0_PE) by done. assert (H4 : cr4 c0 = cr4 c) by done. assert (Hi : c_if c0 = c_if c) by done.
  clearbody c0. eapply goes_cons; [by eapply ljmp_flat|]. eapply goes_cons; [reflexivity|].
  do 3 (eapply goes_cons; [eapply movs_flat; [by destruct Hu|exact Ht|apply u16_ax|done]|]).
  eapply goes_cons; [reflexivity|].
  do 2 (eapply goes_cons; [eapply (movs_null _ _ _ gdt); [by destruct Hu|apply u16_ax|by auto]|]).
  apply goes_nil, HQ. split; try done. split; try done. intros r [-> |[-> | ->]]; done.
Qed.
(** Accesses through a segment over all of memory. *)
Lemma address_flat c m r n off wr : c_hid c r = flat_data -> 0 <= off < 4294967296 -> off + n <= 4294967296 ->
  address bias r n off c m wr = translate bias c m wr off.
Proof. intros Hh Ho Hn. unfold address. rewrite Hh. cbn [d_limit d_base flat_data]. zif; [|lia]. by rewrite Z.add_0_l, u32_small. Qed.

Lemma call_flat c m (d : D) target ret sp pa : c_hid c SS = flat_data -> c_gr c ESP = sp -> 4 <= sp < 4294967296 ->
  translate bias c m true (sp - 4) = Some pa ->
  call_to bias target ret c m d = Some (put_eip target (put_gr ESP (sp - 4) c), store32 m (bias + pa) ret, d).
Proof. intros Hh <- Hs Ht. unfold call_to. rewrite u32_small by lia. rewrite address_flat by (done || lia). by rewrite Ht. Qed.

(** *** Paging with entrypgdir *)

Definition pgdir_at (m : mem) (pa : Z) : Prop :=
  forall i v, entrypgdir !! i = Some v -> load32 m (bias + pa + 4 * Z.of_nat i) = v.

Lemma entrypgdir_entry i : (i < 1024)%nat -> entrypgdir !! i = Some (if decide (i = 0%nat \/ i = 512%nat) then 131 else 0).
Proof.
  intros Hi. unfold entrypgdir. change (Z.to_nat (Z.shiftr KERNBASE PDXSHIFT)) with 512%nat. change (Z.lor (Z.lor PTE_P PTE_W) PTE_PS) with 131.
  change (Z.to_nat NPDENTRIES) with 1024%nat.
  destruct (decide (i = 512%nat)) as [->|H1]; [by rewrite list_lookup_insert_eq by (rewrite length_insert, length_replicate; lia)|].
  rewrite list_lookup_insert_ne by done. destruct (decide (i = 0%nat)) as [->|Hz]; [done|].
  rewrite list_lookup_insert_ne by done. rewrite decide_False by (intros [?|?]; done). by apply lookup_replicate_2.
Qed.

(** The first 4 MB of memory at 0 and at KERNBASE, and nothing else. *)
Definition boot_map (la : Z) : option Z :=
  if la <? 4194304 then Some la
  else if (KERNBASE <=? la) && (la <? KERNBASE + 4194304) then Some (la - KERNBASE) else None.

Lemma translate_boot c m pa wr la : PG c = true -> PSE c = true -> cr3 c = pa -> PTE_ADDR pa = pa -> pgdir_at m pa ->
  0 <= la < 4294967296 -> translate bias c m wr la = boot_map la.
Proof.
  intros Hg Hs H3 Ha Hp Hl. unfold translate. rewrite Hg, Hs, H3, Ha, PDX_div by done. cbv zeta.
  rewrite <- (Z2Nat.id (la / 4194304)) by zlia. set (pde := load32 m _).
  assert (Hpde : pde = if decide (Z.to_nat (la / 4194304) = 0%nat \/ Z.to_nat (la / 4194304) = 512%nat) then 131 else 0)
    by (apply Hp, entrypgdir_entry; zlia). clearbody pde. subst pde.
  pose proof (Z.div_mod la 4194304 ltac:(done)) as Hq. pose proof (Z.mod_pos_bound la 4194304 eq_refl) as Hm.
  set (q := la / 4194304) in *. set (r := la mod 4194304) in *. clearbody q r.
  unfold boot_map, KERNBASE. destruct (decide _) as [Hd|Hd].
  - change (negb (Z.testbit 131 0) || (wr && WP c && negb (Z.testbit 131 1))) with (false || (wr && WP c && false)).
    rewrite andb_false_r. cbn [orb andb]. change (Z.testbit 131 7) with true. cbn [andb]. change (Z.land 131 4290772992) with 0.
    zif; [f_equal; lia|]. zif; [f_equal; lia|]. lia.
  - change (negb (Z.testbit 0 0)) with true. cbn [orb]. zif; [lia|]. zif; [lia|]. done.
Qed.
End running.

(** ** entry.S *)

Section entry.
Context (bias : Z) {D : Type} `{Ports D} (polls : nat).

Record paged (pa : Z) (c : core) : Prop := {
  pg_on : PG c = true; pg_wp : WP c = true; pg_pse : PSE c = true; pg_cr3 : cr3 c = pa
}.

Lemma turn_on (c : core) v w pa : cr0 c = Z.lor v w -> Z.testbit w 31 && Z.testbit w 16 = true -> PSE c = true -> cr3 c = pa -> paged pa c.
Proof.
  intros Hc Hw Hs H3. apply andb_true_iff in Hw as [H31 H16].
  split; try done; unfold PG, WP; rewrite Hc, Z.lor_spec; [rewrite H31|rewrite H16]; apply orb_true_r.
Qed.

Lemma pse_on v : Z.testbit (Z.lor v CR4_PSE) 4 = true.
Proof. rewrite Z.lor_spec. apply orb_true_r. Qed.

(** entry.S reaches main with paging on.  Whatever the processor was doing in
    unpaged 32-bit mode, after the code of entry the page directory is
    entrypgdir, so that both the low addresses the code runs at and the high
    addresses main is linked at are the first 4 MB of memory and every other
    access is refused; writes to read-only pages are refused to the kernel
    too; the stack is the block of entry.S, and memory is as it was. *)
Theorem entry_reaches_main c m (d : D) dir stack main :
  0 <= v2p dir < 4294967296 -> v2p dir mod 4096 = 0 -> pgdir_at bias m (v2p dir) ->
  exists c', brun bias polls (entry dir stack main) (c, m, d) = Some (c', m, d) /\
    c_eip c' = main /\ c_gr c' ESP = stack + KSTACKSIZE /\ c_hid c' = c_hid c /\ paged (v2p dir) c' /\
    forall wr la, 0 <= la < 4294967296 -> translate bias c' m wr la = boot_map la.
Proof.
  intros Hr Ha Hp. eexists. split; [reflexivity|]. set (c' := put_eip _ _).
  assert (Hg : paged (v2p dir) c') by (eapply turn_on; [reflexivity|reflexivity|apply pse_on|reflexivity]).
  split; [done|]. split; [done|]. split; [done|]. split; [done|]. intros wr la Hl. destruct Hg.
  eapply translate_boot; try done. rewrite PTE_ADDR_sub, u32_small by done. lia.
Qed.
End entry.

(** ** bootasm.S *)

(** The keyboard controller: after the command 0xd1 the next byte goes to its
    output port, whose bit 1 opens address line 20.  It takes a byte when its
    status says that it is not busy, and is not busy for ever. *)
Class KbdController (D : Type) `{Ports D} (polls : nat) := {
  kc_ready : D -> bool; kc_pending : D -> bool; kc_out : D -> Z;
  kc_idle : forall d, Z.land (u8 (fst (inb 100 d))) 2 = 0 -> kc_ready (snd (inb 100 d)) = true;
  kc_look : forall d, kc_pending (snd (inb 100 d)) = kc_pending d /\ kc_out (snd (inb 100 d)) = kc_out d;
  kc_cmd : forall d, kc_ready d = true -> kc_pending (outb 100 209 d) = true;
  kc_data : forall d v, kc_ready d = true -> kc_pending d = true -> kc_out (outb 96 v d) = v;
  kc_wait : forall c d, is_Some (wait_kbd polls c d)
}.

(** Only general registers differ. *)
Record same_mode (c c' : core) : Prop := {
  sm_sr : c_sr c' = c_sr c; sm_hid : c_hid c' = c_hid c; sm_if : c_if c' = c_if c;
  sm_cr0 : cr0 c' = cr0 c; sm_cr3 : cr3 c' = cr3 c; sm_cr4 : cr4 c' = cr4 c
}.

Lemma same_mode_trans c1 c2 c3 : same_mode c1 c2 -> same_mode c2 c3 -> same_mode c1 c3.
Proof. intros [] []. split; congruence. Qed.

Lemma same_mode_gr c r v : same_mode c (put_gr r v c).
Proof. by split. Qed.

Section bootasm.
Context {D : Type} `{Ports D} (polls : nat) `{KC : !KbdController D polls}.

Lemma wait_kbd_ready fuel : forall c d c' d', wait_kbd fuel c d = Some (c', d') ->
  kc_ready d' = true /\ kc_pending d' = kc_pending d /\ same_mode c c'.
Proof.
  induction fuel as [|fuel IH]; intros c d c' d' E; [done|]. cbn [wait_kbd] in E.
  pose proof (kc_idle d) as Hi. pose proof (kc_look d) as [Hp _]. destruct (inb 100 d) as [v d1]. cbn [fst snd] in *.
  destruct (Z.eqb_spec (Z.land (u8 v) 2) 0) as [E0|E0].
  - injection E as <- <-. split; [by apply Hi|]. by split.
  - apply IH in E as (Hr & Hq & []). split; [done|]. split; [congruence|]. by split.
Qed.

Lemma enable_a20_run c m d (Q : bstate -> Prop) :
  (forall c1 d1, same_mode c c1 -> Z.testbit (kc_out d1) 1 = true -> Q (c1, m, d1)) -> goes 0 polls enable_a20 (c, m, d) Q.
Proof.
  intros HQ. destruct (kc_wait c d) as [[c1 d1] E1]. pose proof (wait_kbd_ready _ _ _ _ _ E1) as (Hr1 & _ & Hs1).
  unfold enable_a20. eapply goes_cons; [cbn [bexec1]; by rewrite E1|]. do 2 (eapply goes_cons; [reflexivity|]).
  set (c2 := set_al 209 c1). set (d2 := outb 100 _ d1).
  assert (Hp : kc_pending d2 = true).
  { unfold d2. replace (u8 (c_gr c2 EAX)) with 209; [by apply kc_cmd|]. symmetry. apply (u8_al (c_gr c1 EAX) 209). }
  destruct (kc_wait c2 d2) as [[c3 d3] E3]. pose proof (wait_kbd_ready _ _ _ _ _ E3) as (Hr3 & Hp3 & Hs3).
  eapply goes_cons; [cbn [bexec1]; by rewrite E3|]. do 2 (eapply goes_cons; [reflexivity|]). apply goes_nil, HQ.
  - eapply same_mode_trans; [exact Hs1|]. eapply same_mode_trans; [apply same_mode_gr|].
    eapply same_mode_trans; [exact Hs3|apply same_mode_gr].
  - replace (u8 (c_gr (set_al 223 c3) EAX)) with 223; [|symmetry; apply (u8_al (c_gr c3 EAX) 223)].
    rewrite kc_data; [done|done|congruence].
Qed.

(** The BIOS starts the boot sector in real mode. *)
Record real_mode (c : core) : Prop := {
  rm_pe : PE c = false; rm_pg : PG c = false; rm_cs : d_big (c_hid c CS) = false; rm_ds : d_limit (c_hid c DS) = 65535
}.

(** bootasm.S gets the first processor into C.  From real mode, with the
    boot sector in memory, the code ends in a call of bootmain in 32-bit
    protected mode: code and data segments cover all of memory, interrupts are
    off, address line 20 is open, the stack grows down from the start of the
    boot sector, and no byte of memory but the return address has changed. *)
Theorem bootasm_enters_c c m (d : D) gdt gdtdesc start32 bootmain ret :
  real_mode c -> table_at 0 m gdt gdtdesc -> 0 <= gdtdesc <= 65530 ->
  exists c' d', brun 0 polls (bootasm gdtdesc start32 bootmain ret) (c, m, d) = Some (c', store32 m (boot_start - 4) ret, d') /\
    flat_segs c' /\ PE c' = true /\ PG c' = false /\ c_if c' = false /\
    c_eip c' = bootmain /\ c_gr c' ESP = boot_start - 4 /\ Z.testbit (kc_out d') 1 = true.
Proof.
  intros [Hp Hg Hc Hd] Ht Hr.
  assert (HG : goes 0 polls (bootasm gdtdesc start32 bootmain ret) (c, m, d) (fun s => exists c' d', s = (c', store32 m (boot_start - 4) ret, d') /\
    flat_segs c' /\ PE c' = true /\ PG c' = false /\ c_if c' = false /\
    c_eip c' = bootmain /\ c_gr c' ESP = boot_start - 4 /\ Z.testbit (kc_out d') 1 = true)).
  2:{ destruct HG as (s & Hs & c' & d' & -> & ?). by exists c', d'. }
  unfold bootasm. apply goes_app, zero_segments_run; [done|]. intros c1 Z1. apply goes_app, enable_a20_run. intros c2 d2 S2 Ha.
  assert (P2 : PG c2 = false) by (unfold PG in *; destruct Z1, S2; congruence). pose proof Z1 as Z1'. pose proof S2 as S2'. destruct Z1, S2.
  apply goes_app. eapply enter_protected_run; [exact Ht|exact P2|congruence|congruence|lia|rewrite sm_hid0, ze_limit0; lia|].
  intros c3 F3. eapply goes_cons; [reflexivity|]. eapply goes_cons.
  { cbn [bexec1]. eapply call_flat; [apply (fs_data _ (fl_segs _ _ F3) SS); by auto|reflexivity|done|].
    unfold translate. replace (PG (put_gr ESP boot_start c3)) with false; [reflexivity|].
    unfold PG in *. cbn [put_gr cr0]. rewrite (fl_cr0 _ _ F3), Z.lor_spec, P2. done. }
  apply goes_nil. eexists _, _. split; [reflexivity|]. assert (C2 : cr0 c2 = cr0 c) by congruence.
  assert (C3 : cr0 c3 = Z.lor (cr0 c2) CR0_PE) by apply F3. split; [by destruct F3 as [_ _ _ []]|].
  unfold PE, PG in *. cbn [put_eip put_gr cr0 c_if]. rewrite C3, !Z.lor_spec, P2, (fl_if _ _ F3).
  split; [apply orb_true_r|]. split; [done|]. split; [congruence|]. done.
Qed.
End bootasm.

(** ** entryother.S *)

(** In C on another processor: where entryother.S leaves it. *)
Record in_c (entry sp dir : Z) (c : core) : Prop := {
  ic_segs : flat_segs c; ic_pe : PE c = true; ic_paged : paged dir c; ic_if : c_if c = false;
  ic_eip : c_eip c = entry; ic_esp : c_gr c ESP = sp
}.

Section entryother.
Context (bias : Z) {D : Type} `{Ports D} (polls : nat).

(** The words below the code. *)
Record orders (m : mem) (stack target dir : Z) : Prop := {
  or_stack : load32 m (bias + (other_start - 4)) = stack;
  or_target : load32 m (bias + (other_start - 8)) = target;
  or_dir : load32 m (bias + (other_start - 12)) = dir
}.

Lemma entryother_run c m (d : D) gdt gdtdesc start32 ret sp target dir :
  real_mode c -> table_at bias m gdt gdtdesc -> 0 <= gdtdesc <= 65530 ->
  orders m sp target dir -> PTE_ADDR dir = dir -> pgdir_at bias m dir -> KERNBASE + 4 <= sp <= KERNBASE + 4194304 ->
  exists c', brun bias polls (entryother gdtdesc start32 ret) (c, m, d) = Some (c', store32 m (bias + (sp - 4 - KERNBASE)) ret, d) /\
    in_c target (sp - 4) dir c'.
Proof.
  intros [Hp Hg Hc Hd] Ht Hr [Hsp Htg Hdr] Ha Hpd Hs.
  assert (HG : goes bias polls (entryother gdtdesc start32 ret) (c, m, d)
    (fun s => exists c', s = (c', store32 m (bias + (sp - 4 - KERNBASE)) ret, d) /\ in_c target (sp - 4) dir c')).
  2:{ destruct HG as (s & E & c' & -> & ?). by exists c'. }
  unfold entryother. apply goes_app, zero_segments_run; [done|]. intros c1 Z1.
  assert (P1 : PG c1 = false) by (unfold PG in *; destruct Z1; congruence).
  apply goes_app. eapply enter_protected_run; [exact Ht|exact P1|rewrite (ze_cs _ _ Z1); done|apply Z1|lia|rewrite (ze_limit _ _ Z1); lia|].
  intros c2 F2. pose proof (fl_segs _ _ F2) as S2. do 3 (eapply goes_cons; [reflexivity|]). set (c3 := put_cr CR4 _ _).
  assert (P3 : PG c3 = false) by (unfold PG in *; cbn [c3 put_cr put_gr cr0]; rewrite (fl_cr0 _ _ F2), Z.lor_spec, P1; done).
  eapply goes_cons. { cbn [bexec1]. rewrite address_flat by (done || apply S2; by auto). unfold translate. rewrite P3, Hdr. reflexivity. }
  do 4 (eapply goes_cons; [reflexivity|]). set (c4 := put_cr CR0 _ _).
  assert (G4 : paged dir c4) by (eapply turn_on; [reflexivity|reflexivity|apply pse_on|reflexivity]).
  assert (S4 : flat_segs c4) by (by destruct S2). assert (E4 : PE c4 = true) by (change (Z.testbit (Z.lor (cr0 c3) (Z.lor (Z.lor CR0_PE CR0_PG) CR0_WP)) 0 = true); rewrite Z.lor_spec; apply orb_true_r).
  assert (I4 : c_if c4 = false) by (change (c_if c4) with (c_if c2); rewrite (fl_if _ _ F2); apply Z1). clearbody c4.
  assert (T : forall c5 wr la, paged dir c5 -> 0 <= la < 4294967296 -> translate bias c5 m wr la = boot_map la).
  { intros c5 wr la []. by apply (translate_boot bias c5 m dir). }
  eapply goes_cons. { cbn [bexec1]. rewrite address_flat by (done || apply S4; by auto). rewrite T by done. change (boot_map (other_start - 4)) with (Some (other_start - 4)).
    cbv iota. rewrite Hsp. reflexivity. }
  set (c5 := put_gr ESP sp c4). assert (G5 : paged dir c5) by (by destruct G4). assert (S5 : flat_segs c5) by (by destruct S4).
  eapply goes_cons. { cbn [bexec1]. rewrite address_flat by (done || apply S5; by auto). rewrite T by done. change (boot_map (other_start - 8)) with (Some (other_start - 8)).
    cbv iota. rewrite Htg. eapply (call_flat _ _ _ _ _ _ sp); [apply S5; by auto|done|unfold KERNBASE in *; lia|]. rewrite T by (done || unfold KERNBASE in *; lia).
    unfold boot_map, KERNBASE in *. zif; [lia|]. zif; [reflexivity|lia]. }
  apply goes_nil. eexists. split; [reflexivity|]. split; try done; [by destruct S5|by destruct G5].
Qed.
End entryother.

(** ** A controller that is busy for a while *)

Module StartDemo.

(** Polls it stays busy, whether a command is pending, the output port. *)
Record kbc : Type := mkKbc { busy : nat; pending : bool; outport : Z }.

#[export] Instance kbc_ports : Ports kbc := {|
  inb p k := match p, busy k with 100, S n => (2, mkKbc (Nat.min n 3) (pending k) (outport k)) | _, _ => (0, k) end;
  outb p v k :=
    if p =? 100 then mkKbc 2 (v =? 209) (outport k)
    else if (p =? 96) && pending k then mkKbc 2 false v else k
|}.

Lemma kbc_waits n : forall c k, (busy k < n)%nat -> is_Some (wait_kbd n c k).
Proof.
  induction n as [|n IH]; intros c k Hk; [lia|]. cbn [wait_kbd]. destruct k as [[|b] p o]; [by eexists|].
  cbn [inb kbc_ports busy]. change (Z.land (u8 2) 2 =? 0) with false. cbv iota. apply IH. cbn in *. lia.
Qed.

#[export] Instance kbc_controller : KbdController kbc 5.
Proof.
  refine {| kc_ready k := Nat.eqb (busy k) 0; kc_pending := pending; kc_out := outport |}.
  - intros [[|b] p o]; cbn; [done|]. by intros.
  - by intros [[|b] p o].
  - done.
  - intros [b p o] v _ Hp. cbn in *. by rewrite Hp.
  - intros c [[|b] p o]; [by eexists|]. apply (kbc_waits 4 _ (mkKbc (Nat.min b 3) p o)). cbn [busy]. lia.
Defined.

Definition sector : mem := store_bytes (store_bytes (fun _ => 0) 31840 boot_gdt) 31872 (boot_gdtdesc 31840).
Definition bios : core :=
  mkCore (fun _ => 0) (fun _ => 0) (fun _ => mkDesc 0 65535 2 true true false) 31744 true 16 0 0 (0, 65535).

(** The boot sector gets into C although the controller was busy. *)
Lemma boot_sector_runs : exists c' d', brun 0 5 (bootasm 31872 31800 32000 31836) (bios, sector, mkKbc 3 false 0) =
  Some (c', store32 sector (boot_start - 4) 31836, d') /\ flat_segs c' /\ c_eip c' = 32000 /\ Z.testbit (outport d') 1 = true.
Proof.
  destruct (bootasm_enters_c 5 bios sector (mkKbc 3 false 0) 31840 31872 31800 32000 31836) as (c' & d' & Hr & Hf & _ & _ & _ & He & _ & Ha);
    [by split|split; [by vm_compute|by vm_compute|lia]|lia|].
  exists c', d'. split; [exact Hr|]. split; [exact Hf|]. split; [exact He|exact Ha].
Qed.
End StartDemo.
