(* ===== verification/Smp.v ===== *)
(** * main.c: starting the other processors

    startothers copies entryother.S to 0x7000, and for each processor of the
    table takes a page for its stack, leaves the stack, the entry mpenter and
    the page directory below the code, and sends the startup interrupt.  The
    started processor runs entryother.S one instruction at a time over the
    same memory, then mpenter and mpmain, where it sets its [started]; the
    first processor spins until it sees that.

    The code does not start a processor: it writes commands to its local APIC.
    What was sent, to which APIC id and with which vector, is read off the
    device, and the processors react to it as the processor manual says: INIT
    puts the addressed processor into the state in which it waits for a startup
    interrupt, and that interrupt makes it run at the page the vector names.

    The state has the boot processor, every other processor, and the memory
    and devices they share.  A step is one step of one of them, with the
    delivery of the interrupts it sent, so the theorems
    hold in every interleaving: each processor arrives in mpenter in the mode
    C code needs and on a stack that is its own, and all of them get there.
    Processors that are up run the scheduler on an empty process table and
    touch no page. *)

From S2P Require Import Prelude Monad Locks Memory CString Mmu Irq Kalloc Seg Apic Asm Start.

Open Scope Z_scope.
Open Scope kernel_scope.

Inductive bsp : Type :=
| BCopy                               (* before the memmove *)
| BAt (k : nat)                       (* at the head of the loop, c = cpus + k *)
| BWait (k : nat)                     (* while(c->started == 0) *)
| BDone.

Inductive ap : Type :=
| Off                                 (* waits for a startup interrupt *)
| Booting (c : core) (code : list binstr)
| Up (c : core).                      (* as it entered mpenter *)

Section smp.
Context {D : Type} `{Ports D} `{LocalApic D} (polls : nat) `{LAL : !LocalApicLaws polls}.
(** What the linker and mpinit fix: the tables of Seg, the end of the kernel,
    the code of entryother with its labels, mpenter, entrypgdir, and cpus. *)
Context (cpus_addr idt_addr kend : Z) (image size gdt gdtdesc start32 ret : Z) (mpenter_addr dir : Z).
Context (ncpu : nat) (cpu_id : nat -> Z) (init_gr : reg -> Z).
(** The machine: the id of each processor's APIC. *)
Context (apic_id : nat -> Z).

Record smp : Type := mkSmp {
  sm_hw : hwst; sm_lapic : Z; sm_cnt : Z; sm_dev : D;
  sm_bsp : bsp; sm_ap : nat -> ap; sm_started : nat -> bool; sm_said : list nat
}.

Definition smem (s : smp) : mem := kmemory (hmem (sm_hw s)).

Definition put_hw (h : hwst) (s : smp) : smp :=
  mkSmp h (sm_lapic s) (sm_cnt s) (sm_dev s) (sm_bsp s) (sm_ap s) (sm_started s) (sm_said s).
Definition put_hmem (k : kstate) (s : smp) : smp :=
  let h := sm_hw s in put_hw (mkHwst (hmach h) k (kpgdir h) (hcpu h) (idt h)) s.
Definition put_mem (m : mem) (s : smp) : smp := put_hmem (set_mem (fun _ => m) (hmem (sm_hw s))) s.
Definition put_dev (d : D) (s : smp) : smp :=
  mkSmp (sm_hw s) (sm_lapic s) (sm_cnt s) d (sm_bsp s) (sm_ap s) (sm_started s) (sm_said s).
Definition put_bsp (b : bsp) (s : smp) : smp :=
  mkSmp (sm_hw s) (sm_lapic s) (sm_cnt s) (sm_dev s) b (sm_ap s) (sm_started s) (sm_said s).
Definition put_aps (f : nat -> ap) (s : smp) : smp :=
  mkSmp (sm_hw s) (sm_lapic s) (sm_cnt s) (sm_dev s) (sm_bsp s) f (sm_started s) (sm_said s).
Definition put_ap (k : nat) (a : ap) (s : smp) : smp :=
  mkSmp (sm_hw s) (sm_lapic s) (sm_cnt s) (sm_dev s) (sm_bsp s) (fun i => if decide (i = k) then a else sm_ap s i) (sm_started s) (sm_said s).

(** lapic.c works on the same memory and device. *)
Definition lapic_of (s : smp) : lapicst := mkLa (sm_lapic s) (sm_cnt s) (smem s) (sm_dev s).
Definition put_lapic (l : lapicst) (s : smp) : smp :=
  let s := put_mem (la_mem l) s in
  mkSmp (sm_hw s) (lapic l) (cpunum_n l) (la_dev l) (sm_bsp s) (sm_ap s) (sm_started s) (sm_said s).

(** ** The first processor *)

Definition ap_code : Z := p2v other_start.

(** The body of the loop for a processor that is not this one. *)
Definition start_one (k : nat) (s : smp) : option smp :=
  match kalloc (hmem (sm_hw s)) with
  | Ok stack h =>
      let s := put_hmem h s in
      let m := store32 (smem s) (ap_code - 4) (u32 (stack + KSTACKSIZE)) in
      let m := store32 m (ap_code - 8) mpenter_addr in
      let m := store32 m (ap_code - 12) (v2p dir) in
      let s := put_lapic (lapicstartap (cpu_id k) (v2p ap_code) (lapic_of (put_mem m s))) s in
      Some (put_bsp (BWait k) s)
  | _ => None
  end.

(** startothers. *)
Definition bsp_step (s : smp) : option smp :=
  match sm_bsp s with
  | BCopy => Some (put_bsp (BAt 0) (put_mem (memmove (smem s) ap_code image size) s))
  | BAt k =>
      if (k <? ncpu)%nat then
        let '(n, _, l) := cpunum 0 (lapic_of s) in
        let s := put_lapic l s in
        if Z.of_nat k =? n then Some (put_bsp (BAt (S k)) s) else start_one k s
      else Some (put_bsp BDone s)
  | BWait k => Some (if sm_started s k then put_bsp (BAt (S k)) s else s)
  | BDone => Some s
  end.

(** ** The others *)

Definition mpmain (k : nat) (s : smp) : option smp :=
  match idtinit idt_addr k (sm_hw s) with
  | Ok _ h =>
      Some (mkSmp h (sm_lapic s) (sm_cnt s) (sm_dev s) (sm_bsp s) (sm_ap s)
                  (fun i => if decide (i = k) then true else sm_started s i) (sm_said s ++ [k]))
  | _ => None
  end.

Definition mpenter (k : nat) (s : smp) : option smp :=
  match (switchkvm k ;; seginit cpus_addr k) (sm_hw s) with
  | Ok _ h =>
      let s := put_hw h s in
      match lapicinit polls (lapic_of s) with
      | Some l => mpmain k (put_lapic l s)
      | None => None
      end
  | _ => None
  end.

Definition ap_step (k : nat) (s : smp) : option smp :=
  match sm_ap s k with
  | Booting c (i :: code) =>
      match bexec1 KERNBASE polls i (c, smem s, sm_dev s) with
      | Some (c, m, d) => Some (put_ap k (Booting c code) (put_dev d (put_mem m s)))
      | None => None
      end
  | Booting c [] =>
      if c_eip c =? mpenter_addr then
        match mpenter k s with Some s => Some (put_ap k (Up c) s) | None => None end
      else None
  | _ => Some s
  end.

(** ** The interrupts between processors *)

(** A processor that got the startup interrupt: real mode, at the page the
    vector names.  The code at 0x7000 is entryother.S; nothing is known of
    other pages. *)
Definition reset_core (vec : Z) : core :=
  mkCore init_gr (fun r => if decide (r = CS) then 256 * vec else 0)
    (fun r => mkDesc (if decide (r = CS) then 4096 * vec else 0) 65535 2 true true false) 0 false 1610612752 0 0 (0, 65535).
Definition code_at (vec : Z) : list binstr := if 4096 * vec =? other_start then entryother gdtdesc start32 ret else [].

(** A command is the high and the low word of the interrupt command register:
    the id it is meant for, unless it is for all; its kind; the vector. *)
Definition meant_for (k : nat) (cmd : Z * Z) : bool :=
  negb (Z.land (snd cmd) BCAST =? 0) || (Z.shiftr (fst cmd) 24 =? apic_id k).
Definition kind (cmd : Z * Z) : Z := Z.land (snd cmd) 1792.

(** INIT resets the processor when it is asserted; a startup interrupt is
    taken only by a processor that waits for it. *)
Definition receive (k : nat) (cmd : Z * Z) (a : ap) : ap :=
  if negb (meant_for k cmd) then a
  else if kind cmd =? INIT then (if Z.land (snd cmd) ASSERT =? 0 then a else Off)
  else if kind cmd =? STARTUP then
    match a with
    | Off => Booting (reset_core (Z.land (snd cmd) 255)) (code_at (Z.land (snd cmd) 255))
    | _ => a
    end
  else a.

(** The processors of the machine get the commands that a step sent, in order. *)
Definition deliver1 (cmd : Z * Z) (s : smp) : smp :=
  put_aps (fun k => if (k <? ncpu)%nat then receive k cmd (sm_ap s k) else sm_ap s k) s.
Definition deliver (cmds : list (Z * Z)) (s : smp) : smp := fold_left (fun s c => deliver1 c s) cmds s.
Definition sent (s : smp) : list (Z * Z) := lv_sent (lview polls (sm_dev s)).
Definition after (s s1 : smp) : smp := deliver (drop (length (sent s)) (sent s1)) s1.

Definition sstep (s s' : smp) : Prop :=
  exists s1, (bsp_step s = Some s1 \/ exists k, ap_step k s = Some s1) /\ s' = after s s1.
Definition sreach : smp -> smp -> Prop := rtc sstep.

(** ** What stays as it is *)

(** entrypgdir and the free pages; and the page of entryother. *)
Definition fixed (l : list Z) (a : Z) : Prop := dir <= a < dir + 4096 \/ exists p, p ∈ l /\ p <= a < p + 4096.
Definition untouched (l : list Z) (m m' : mem) : Prop := forall a, fixed l a -> load8 m' a = load8 m a.
Definition code_kept (m m' : mem) : Prop := forall a, KERNBASE + other_start <= a < KERNBASE + other_start + 4096 -> load8 m' a = load8 m a.
Definition only_page (p : Z) (m m' : mem) : Prop := forall a, ~ (p <= a < p + 4096) -> load8 m' a = load8 m a.

Context (dir_low : KERNBASE + EXTMEM <= dir) (dir_page : dir mod 4096 = 0) (dir_end : dir + 4096 <= kend) (kend_ok : kend < KERNBASE + PHYSTOP).
Context (gdt_in : other_start <= gdt /\ gdt + 24 <= other_start + 4096) (desc_in : other_start <= gdtdesc /\ gdtdesc + 6 <= other_start + 4096).

Lemma load32_agree m m' a : (forall i, 0 <= i < 4 -> load8 m' (a + i) = load8 m (a + i)) -> load32 m' a = load32 m a.
Proof. intros Ha. rewrite !load32_load8. pose proof (Ha 0 ltac:(lia)) as E0. rewrite Z.add_0_r in E0. by rewrite E0, !Ha by lia. Qed.

Lemma load_bytes_agree m m' n : forall a, (forall i, 0 <= i < Z.of_nat n -> load8 m' (a + i) = load8 m (a + i)) -> load_bytes m' a n = load_bytes m a n.
Proof.
  induction n as [|n IH]; intros a Ha; cbn [load_bytes]; [done|]. f_equal.
  - rewrite <- (Z.add_0_r a). apply Ha. lia.
  - apply IH. intros i Hi. rewrite <- !Z.add_assoc. apply Ha. lia.
Qed.

Lemma table_kept m m' : code_kept m m' -> table_at KERNBASE m gdt gdtdesc -> table_at KERNBASE m' gdt gdtdesc.
Proof.
  intros Hu [Hg Hd Hr]. split; [rewrite <- Hg|rewrite <- Hd|done]; apply load_bytes_agree; intros i Hi; apply Hu; lia.
Qed.

Lemma v2p_dir : v2p dir = dir - KERNBASE /\ KERNBASE + v2p dir = dir.
Proof. unfold v2p, KERNBASE, EXTMEM, PHYSTOP in *. rewrite u32_small by lia. lia. Qed.

Lemma pgdir_untouched l m m' : untouched l m m' -> pgdir_at KERNBASE m (v2p dir) -> pgdir_at KERNBASE m' (v2p dir).
Proof.
  intros Hu Hp i v Hi. rewrite <- (Hp i v Hi). assert (Hl : (i < 1024)%nat) by (apply lookup_lt_Some in Hi; revert Hi; unfold entrypgdir; rewrite !length_insert, length_replicate; done).
  apply load32_agree. intros j Hj. apply Hu. left. pose proof v2p_dir. lia.
Qed.

Lemma free_list_untouched k l m' : free_list kend k l -> untouched l (kmemory k) m' -> free_list kend (set_mem (fun _ => m') k) l.
Proof.
  intros (Hc & Hn & Ho) Hu. split; [|done]. cbn. eapply chain_frame; [|exact Hc]. intros p Hp. apply load32_agree.
  intros i Hi. apply Hu. right. exists p. split; [done|]. lia.
Qed.

(** No page that can be allocated is among them. *)
Lemma page_apart l p a : page_ok kend p -> p ∉ l -> Forall (page_ok kend) l -> p <= a < p + 4096 -> ~ fixed l a.
Proof.
  intros Hp Hl Hf Hin Ha. pose proof Hp as (_ & _ & Hk & _). destruct Ha as [Ha|(q & Hq & Ha)]; [lia|]. rewrite Forall_forall in Hf.
  destruct (decide (q = p)) as [->|Hne]; [done|]. destruct (page_ok_disjoint _ _ _ Hp (Hf q Hq)); [congruence|lia|lia].
Qed.

Lemma only_page_untouched l p m m' : page_ok kend p -> p ∉ l -> Forall (page_ok kend) l -> only_page p m m' -> untouched l m m'.
Proof. intros Hp Hl Hf Ho a Ha. apply Ho. intros Hin. by eapply page_apart in Ha. Qed.

Lemma only_page_code p m m' : page_ok kend p -> only_page p m m' -> code_kept m m'.
Proof. intros (_ & _ & Hk & _) Ho a Ha. apply Ho. unfold KERNBASE, EXTMEM, other_start in *. lia. Qed.

(** Low memory is apart from both. *)
Lemma low_untouched l m m' : Forall (page_ok kend) l -> (forall a, KERNBASE + 1048576 <= a -> load8 m' a = load8 m a) -> untouched l m m'.
Proof.
  intros Hf Hm a Ha. apply Hm. rewrite Forall_forall in Hf. unfold KERNBASE, EXTMEM in *.
  destruct Ha as [Ha|(q & Hq & Ha)]; [lia|]. apply Hf in Hq as (_ & _ & Hk & _). lia.
Qed.

(** ** The code of the other processors, one instruction at a time *)

Definition quiet (i : binstr) : bool := match i with WaitKbd | OutbAl _ => false | _ => true end.
Definition plain (i : binstr) : bool := match i with CallI _ _ | CallM _ _ => false | _ => true end.
(** Only the last instruction is a call. *)
Fixpoint call_last (code : list binstr) : bool :=
  match code with
  | [] => true
  | i :: code => quiet i && (plain i || match code with [] => true | _ => false end) && call_last code
  end.

Lemma entryother_calls : call_last (entryother gdtdesc start32 ret) = true.
Proof. reflexivity. Qed.

Lemma quiet_step i c m (d : D) c1 m1 d1 : quiet i = true -> bexec1 KERNBASE polls i (c, m, d) = Some (c1, m1, d1) ->
  d1 = d /\ (plain i = true -> m1 = m).
Proof.
  intros Hq E. destruct i; try discriminate; cbn [bexec1] in E; unfold call_to in E; repeat case_match; simplify_eq; by split.
Qed.

(** ** lapic.c and memory *)

Lemma lapicws_mem l : forall s : lapicst, la_mem (lapicws l s) = la_mem s.
Proof. induction l as [|[k v] l IH]; intros s; [done|]. exact (IH (lapicw k v s)). Qed.

Lemma lapicws_ptr l : forall s : lapicst, lapic (lapicws l s) = lapic s.
Proof. induction l as [|[k v] l IH]; intros s; [done|]. exact (IH (lapicw k v s)). Qed.

Lemma lapicinit_ptr s s' : lapicinit polls s = Some s' -> lapic s' = lapic s.
Proof.
  unfold lapicinit. destruct (lapic s =? 0); [by intros [= <-]|]. set (s1 := lapicws _ s). destruct (lapic_get VER (la_dev s1)) as [ver d].
  set (s2 := set_la_dev d s1). set (s3 := if 4 <=? _ then _ else _). set (s4 := lapicws _ s3).
  destruct (wait_delivered polls (la_dev s4)) as [d'|]; [|done]. intros [= <-]. cbn [lapicw set_la_dev lapic]. unfold s4. rewrite lapicws_ptr.
  transitivity (lapic s1); [unfold s3; by destruct (4 <=? _)|]. apply lapicws_ptr.
Qed.

Lemma cpunum_ptr f s : lapic (snd (cpunum f s)) = lapic s.
Proof.
  unfold cpunum. set (s1 := if negb (Z.land f FL_IF =? 0) then _ else s). assert (E : lapic s1 = lapic s) by (unfold s1; by destruct (negb _)).
  destruct (negb (lapic s1 =? 0)); [|done]. by destruct (lapic_get ID (la_dev s1)).
Qed.

Lemma startap_ptr id addr s : lapic (lapicstartap id addr s) = lapic s.
Proof. unfold lapicstartap, startup_ipi. cbn [lapicw set_la_dev lapic]. by rewrite lapicws_ptr. Qed.

Lemma lapicinit_mem s s' : lapicinit polls s = Some s' -> la_mem s' = la_mem s.
Proof.
  unfold lapicinit. destruct (lapic s =? 0); [by intros [= <-]|]. set (s1 := lapicws _ s). destruct (lapic_get VER (la_dev s1)) as [ver d].
  set (s2 := set_la_dev d s1). set (s3 := if 4 <=? _ then _ else _). set (s4 := lapicws _ s3).
  destruct (wait_delivered polls (la_dev s4)) as [d'|]; [|done]. intros [= <-]. cbn [lapicw set_la_dev la_mem]. unfold s4. rewrite lapicws_mem.
  transitivity (la_mem s1); [unfold s3; by destruct (4 <=? _)|]. apply lapicws_mem.
Qed.

Lemma cpunum_mem f s : la_mem (snd (cpunum f s)) = la_mem s.
Proof.
  unfold cpunum. set (s1 := if negb (Z.land f FL_IF =? 0) then _ else s). assert (E : la_mem s1 = la_mem s) by (unfold s1; by destruct (negb _)).
  destruct (negb (lapic s1 =? 0)); [|done]. by destruct (lapic_get ID (la_dev s1)).
Qed.

Lemma startap_mem id addr s a : a < KERNBASE + 1127 \/ KERNBASE + 1131 <= a -> load8 (la_mem (lapicstartap id addr s)) a = load8 (la_mem s) a.
Proof.
  intros Ha. unfold lapicstartap, startup_ipi. cbn [lapicw set_la_dev la_mem]. rewrite lapicws_mem. cbn [la_mem].
  change (p2v (Z.lor (Z.shiftl 64 4) 103)) with (KERNBASE + 1127). unfold Apic.store16, KERNBASE in *. rewrite !load8_store_bytes. cbn [length le_bytes].
  zif; [lia|]. zif; [lia|]. done.
Qed.

(** ** The invariant *)

Definition in_first_4mb (p : Z) : Prop := p + 4096 <= KERNBASE + 4194304.

Record stack_of (l : list Z) (p : Z) : Prop := { so_page : page_ok kend p; so_low : in_first_4mb p; so_taken : p ∉ l }.

Definition entered (p : Z) (c : core) : Prop := in_c mpenter_addr (p + 4092) (v2p dir) c.

Definition ap_ok (own : nat -> Z) (l : list Z) (s : smp) (k : nat) : Prop :=
  match sm_ap s k with
  | Off => sm_started s k = false
  | Booting c code =>
      stack_of l (own k) /\ call_last code = true /\ sm_bsp s = BWait k /\ sm_started s k = false /\
      exists c' m', brun KERNBASE polls code (c, smem s, sm_dev s) = Some (c', m', sm_dev s) /\
        only_page (own k) (smem s) m' /\ entered (own k) c'
  | Up c => stack_of l (own k) /\ sm_started s k = true /\ entered (own k) c
  end.

(** Where the first processor is: those from [next] on are off. *)
Definition next (b : bsp) : nat := match b with BCopy => 0%nat | BAt k => k | BWait k => S k | BDone => ncpu end.

Record inv (own : nat -> Z) (l : list Z) (s : smp) : Prop := {
  in_free : free_list kend (hmem (sm_hw s)) l;
  in_low : Forall in_first_4mb l;
  in_locks : LkKmem ∉ held (kthr (hmem (sm_hw s)));
  in_dir : pgdir_at KERNBASE (smem s) (v2p dir);
  in_table : sm_bsp s <> BCopy -> table_at KERNBASE (smem s) gdt gdtdesc;
  in_image : sm_bsp s = BCopy ->
    load_bytes (smem s) (image + (gdt - other_start)) 24 = boot_gdt /\ load_bytes (smem s) (image + (gdtdesc - other_start)) 6 = boot_gdtdesc gdt;
  in_ap : forall k, ap_ok own l s k;
  in_off : forall k, (next (sm_bsp s) <= k)%nat -> sm_ap s k = Off;
  in_own : forall j k, sm_ap s j <> Off -> sm_ap s k <> Off -> own j = own k -> j = k;
  in_enough : (ncpu - next (sm_bsp s) <= length l)%nat;
  in_range : (next (sm_bsp s) <= ncpu)%nat
}.

(** *** The steps of the first processor *)

Lemma ap_ok_idle own own' l l' s s' j : ap_ok own l s j -> (forall c code, sm_ap s j <> Booting c code) ->
  sm_ap s' j = sm_ap s j -> sm_started s' j = sm_started s j -> own' j = own j -> (forall p, p ∈ l' -> p ∈ l) -> ap_ok own' l' s' j.
Proof.
  unfold ap_ok. intros Hk Hb -> -> -> Hl. destruct (sm_ap s j) as [|c code|c]; [done|by destruct (Hb c code)|].
  destruct Hk as ([] & ? & ?). split; [|done]. split; [done|done|]. naive_solver.
Qed.

Lemma no_booting own l s j : inv own l s -> (forall k, sm_bsp s <> BWait k) -> forall c code, sm_ap s j <> Booting c code.
Proof. intros Hi Hb c code E. pose proof (in_ap _ _ _ Hi j) as Hk. unfold ap_ok in Hk. rewrite E in Hk. destruct Hk as (_ & _ & Hw & _). by apply Hb in Hw. Qed.

Context (image_in : KERNBASE + EXTMEM <= image) (size_ok : 0 <= size <= 4096) (gdt_end : gdt + 24 <= other_start + size) (desc_end : gdtdesc + 6 <= other_start + size).

Lemma load8_copy m a : load8 (memmove m ap_code image size) a =
  if (KERNBASE + other_start <=? a) && (a <? KERNBASE + other_start + size) then load8 m (a - (KERNBASE + other_start) + image) else load8 m a.
Proof. rewrite load8_memmove by lia. change ap_code with (KERNBASE + other_start). done. Qed.

Lemma copy_step own l s : inv own l s -> sm_bsp s = BCopy ->
  inv own l (put_bsp (BAt 0) (put_mem (memmove (smem s) ap_code image size) s)).
Proof.
  intros Hi Hb. pose proof (in_free _ _ _ Hi) as Hf. set (m' := memmove _ _ _ _).
  assert (Hu : untouched l (smem s) m').
  { apply low_untouched; [apply Hf|]. intros a Ha. unfold m'. rewrite load8_copy. unfold KERNBASE, other_start in *. zif; [lia|done]. }
  destruct (in_image _ _ _ Hi Hb) as [Hg Hd].
  assert (Hoff : forall k, sm_ap s k = Off) by (intros k; apply (in_off _ _ _ Hi); rewrite Hb; cbn; lia).
  assert (Hcp : forall lo n, other_start <= lo -> lo + Z.of_nat n <= other_start + size ->
    load_bytes m' (KERNBASE + lo) n = load_bytes (smem s) (image + (lo - other_start)) n).
  { intros lo n Hlo Hn0. apply list_eq. intros i. destruct (decide (i < n)%nat) as [Hn|Hn].
    - rewrite !lookup_load_bytes by done. unfold m'. rewrite load8_copy. zif; [|lia]. do 2 f_equal. lia.
    - rewrite !lookup_ge_None_2 by (rewrite length_load_bytes; lia). done. }
  assert (Hgr : 0 <= gdt < 16777216) by (unfold other_start in *; lia).
  split; try done.
  - by apply free_list_untouched.
  - apply Hi.
  - apply Hi.
  - by eapply pgdir_untouched, Hi.
  - intros _. split; [rewrite Hcp by lia; exact Hg|rewrite Hcp by lia; exact Hd|exact Hgr].
  - intros k. unfold ap_ok. cbn. rewrite Hoff. pose proof (in_ap _ _ _ Hi k) as Hk. unfold ap_ok in Hk. by rewrite Hoff in Hk.
  - intros k _. apply Hoff.
  - intros j k Hj. destruct (Hj (Hoff j)).
  - cbn. pose proof (in_enough _ _ _ Hi) as He. by rewrite Hb in He.
  - cbn. lia.
Qed.

Lemma set_mem_same (k : kstate) : set_mem (fun _ => kmemory k) k = k.
Proof. by destruct k. Qed.

Lemma put_mem_same s : hmem (sm_hw (put_mem (smem s) s)) = hmem (sm_hw s).
Proof. apply set_mem_same. Qed.

(** The first processor goes on, over the same memory, when nobody is booting. *)
Lemma go_on own l s s' : inv own l s -> sm_bsp s <> BCopy -> (forall k, sm_ap s k <> Off -> exists c, sm_ap s k = Up c) ->
  hmem (sm_hw s') = hmem (sm_hw s) -> sm_ap s' = sm_ap s -> sm_started s' = sm_started s ->
  sm_bsp s' <> BCopy -> (next (sm_bsp s) <= next (sm_bsp s') <= ncpu)%nat -> inv own l s'.
Proof.
  intros Hi Hb Hup Hh Ha Hs Hb' Hn. assert (Hm : smem s' = smem s) by (unfold smem; by rewrite Hh).
  split; rewrite ?Hh, ?Hm; try apply Hi; try done.
  - intros _. by apply Hi.
  - intros k. eapply (ap_ok_idle own _ l _ s); [apply Hi| |by rewrite Ha|by rewrite Hs|done|done].
    intros c code E. destruct (Hup k) as [c' E']; [by rewrite E|congruence].
  - intros k Hk. rewrite Ha. apply Hi. lia.
  - rewrite Ha. apply Hi.
  - pose proof (in_enough _ _ _ Hi). lia.
  - lia.
Qed.

Lemma nobody_boots own l s : inv own l s -> (forall k, sm_bsp s <> BWait k) -> forall k, sm_ap s k <> Off -> exists c, sm_ap s k = Up c.
Proof. intros Hi Hb k Hk. pose proof (no_booting _ _ _ k Hi Hb) as Hn. destruct (sm_ap s k) as [|c code|c]; [done|by destruct (Hn c code)|by exists c]. Qed.

Lemma up_when_started own l s k : inv own l s -> sm_started s k = true -> exists c, sm_ap s k = Up c.
Proof. intros Hi Hk. pose proof (in_ap _ _ _ Hi k) as Ha. unfold ap_ok in Ha. destruct (sm_ap s k) as [|c code|c]; [congruence| |by exists c]. destruct Ha as (_ & _ & _ & ? & _). congruence. Qed.

Lemma seen_step own l s k : inv own l s -> sm_bsp s = BWait k -> sm_started s k = true -> inv own l (put_bsp (BAt (S k)) s).
Proof.
  intros Hi Hb Hk. pose proof (in_range _ _ _ Hi) as Hr. rewrite Hb in Hr. eapply go_on; try done; [by rewrite Hb| |by rewrite Hb].
  intros j Hj. destruct (sm_ap s j) as [|c code|c] eqn:E; [done| |by exists c].
  pose proof (in_ap _ _ _ Hi j) as Ha. unfold ap_ok in Ha. rewrite E, Hb in Ha. destruct Ha as (_ & _ & [= <-] & Hs & _). congruence.
Qed.

(** *** Starting one *)

Definition boot_mem (stack : Z) (k : nat) (s : smp) (m : mem) : mem :=
  la_mem (lapicstartap (cpu_id k) (v2p ap_code) (lapic_of (put_mem
    (store32 (store32 (store32 m (ap_code - 4) (u32 (stack + KSTACKSIZE))) (ap_code - 8) mpenter_addr) (ap_code - 12) (v2p dir)) s))).

Lemma boot_mem_high stack k s m a : KERNBASE + other_start <= a -> load8 (boot_mem stack k s m) a = load8 m a.
Proof.
  intros Ha. unfold boot_mem. rewrite startap_mem by (unfold other_start in *; lia).
  change ap_code with (KERNBASE + other_start). unfold lapic_of, put_mem, put_hmem, put_hw, smem, set_mem. cbn [la_mem sm_hw hmem kmemory].
  rewrite !load8_store32. repeat (zif; [lia|]). done.
Qed.

Context (mpenter_ok : 0 <= mpenter_addr < 4294967296).

Lemma boot_mem_orders stack k s m : 0 <= stack -> stack + KSTACKSIZE < 4294967296 ->
  orders KERNBASE (boot_mem stack k s m) (stack + KSTACKSIZE) mpenter_addr (v2p dir).
Proof.
  intros Hs1 Hs2. unfold boot_mem. set (m3 := store32 (store32 _ _ _) _ _).
  assert (Hw : forall a, KERNBASE + 1131 <= a -> load32 (la_mem (lapicstartap (cpu_id k) (v2p ap_code) (lapic_of (put_mem m3 s)))) a = load32 m3 a).
  { intros a Ha. apply load32_agree. intros i Hi. rewrite startap_mem by lia. done. }
  split; rewrite Hw by (unfold other_start; lia); unfold m3; change ap_code with (KERNBASE + other_start).
  - rewrite !load32_store32_other by lia. rewrite Z.add_sub_assoc, load32_store32, u32_idem. apply u32_small. unfold KSTACKSIZE in *. lia.
  - rewrite load32_store32_other by lia. rewrite Z.add_sub_assoc, load32_store32. by apply u32_small.
  - rewrite Z.add_sub_assoc, load32_store32. apply u32_idem.
Qed.

Lemma reset_real vec : real_mode (reset_core vec).
Proof. by split. Qed.

(** The processor that was just started will get to mpenter. *)
Lemma will_enter stack k s m (d : D) l : stack_of l stack -> table_at KERNBASE m gdt gdtdesc -> pgdir_at KERNBASE m (v2p dir) ->
  exists c' m', brun KERNBASE polls (entryother gdtdesc start32 ret) (reset_core (Z.shiftr (v2p ap_code) 12), boot_mem stack k s m, d) = Some (c', m', d) /\
    only_page stack (boot_mem stack k s m) m' /\ entered stack c'.
Proof.
  intros [Hp Hl _] Ht Hd. pose proof Hp as (H1' & H2' & H3' & _). unfold in_first_4mb in Hl.
  assert (Hs : 0 <= stack /\ stack + KSTACKSIZE < 4294967296) by (unfold KSTACKSIZE, KERNBASE in *; lia).
  destruct (entryother_run KERNBASE polls (reset_core (Z.shiftr (v2p ap_code) 12)) (boot_mem stack k s m) d gdt gdtdesc start32 ret
    (stack + KSTACKSIZE) mpenter_addr (v2p dir)) as (c' & Hr & Hc).
  - apply reset_real.
  - eapply table_kept; [|exact Ht]. intros a Ha. apply boot_mem_high. lia.
  - unfold other_start in *. lia.
  - apply boot_mem_orders; lia.
  - rewrite (proj1 v2p_dir), PTE_ADDR_sub, u32_small by (unfold KERNBASE, EXTMEM, PHYSTOP in *; lia). unfold KERNBASE in *. zlia.
  - eapply (pgdir_untouched []); [|exact Hd]. apply low_untouched; [done|]. intros a Ha. apply boot_mem_high. unfold other_start. lia.
  - unfold KSTACKSIZE, KERNBASE, EXTMEM in *. lia.
  - eexists c', _. split; [exact Hr|]. split.
    + intros a Ha. rewrite load8_store32. unfold KSTACKSIZE, KERNBASE in *. zif; [lia|done].
    + unfold entered. by replace (stack + 4092) with (stack + KSTACKSIZE - 4) by (unfold KSTACKSIZE; lia).
Qed.

Lemma kalloc_takes own l s : inv own l s -> (next (sm_bsp s) < ncpu)%nat ->
  exists p l' h, l = p :: l' /\ kalloc (hmem (sm_hw s)) = Ok p h /\ free_list kend h l' /\ kmemory h = smem s /\ kthr h = kthr (hmem (sm_hw s)) /\
    stack_of l' p.
Proof.
  intros Hi Hn. pose proof (in_enough _ _ _ Hi) as He. destruct l as [|p l']; [cbn in He; lia|].
  pose proof (kalloc_run (hmem (sm_hw s)) (in_locks _ _ _ Hi)) as Hk.
  destruct (free_list_kalloc _ _ _ _ _ (in_free _ _ _ Hi) (in_locks _ _ _ Hi) Hk) as (Hr & Hf & Hm). cbn [default head tail] in *.
  eexists p, l', _. split; [done|]. split; [rewrite Hk; cbn in Hr; by rewrite Hr|]. rewrite Hr in Hf. split; [exact Hf|]. split; [done|]. split; [done|].
  pose proof (in_free _ _ _ Hi) as (_ & Hnd & Hok). pose proof (in_low _ _ _ Hi) as Hlow. apply NoDup_cons in Hnd as [Hnd _].
  apply Forall_cons in Hok as [Hok _]. apply Forall_cons in Hlow as [Hlow _]. by split.
Qed.

(** What start_one leaves, in one equation. *)
Definition after_start (k : nat) (stack : Z) (h : kstate) (s : smp) : smp :=
  let s1 := put_hmem h s in
  let l := lapicstartap (cpu_id k) (v2p ap_code) (lapic_of (put_mem
    (store32 (store32 (store32 (smem s1) (ap_code - 4) (u32 (stack + KSTACKSIZE))) (ap_code - 8) mpenter_addr) (ap_code - 12) (v2p dir)) s1)) in
  put_bsp (BWait k) (put_lapic l s1).

Lemma start_one_eq k s stack h : kalloc (hmem (sm_hw s)) = Ok stack h -> start_one k s = Some (after_start k stack h s).
Proof. intros E. unfold start_one. by rewrite E. Qed.

Definition given (own : nat -> Z) (k : nat) (p : Z) : nat -> Z := fun j => if decide (j = k) then p else own j.

(** The processor as the startup interrupt finds it. *)
Definition startup : ap := Booting (reset_core (Z.shiftr (v2p ap_code) 12)) (entryother gdtdesc start32 ret).

Lemma after_start_inv own p l s k h f : inv own (p :: l) s -> sm_bsp s = BAt k -> (k < ncpu)%nat ->
  free_list kend h l -> kmemory h = smem s -> kthr h = kthr (hmem (sm_hw s)) -> stack_of l p ->
  (forall j, f j = if decide (j = k) then startup else sm_ap s j) ->
  inv (given own k p) l (put_aps f (after_start k p h s)).
Proof.
  intros Hi Hb Hkn Hf Hm Ht Hp Haf. set (s' := put_aps f (after_start k p h s)).
  assert (Hm' : smem s' = boot_mem p k (put_hmem h s) (kmemory h)) by done.
  assert (Htb : table_at KERNBASE (smem s) gdt gdtdesc) by (apply (in_table _ _ _ Hi); by rewrite Hb).
  assert (Hu : untouched l (kmemory h) (smem s')).
  { apply low_untouched; [apply Hf|]. intros a Ha. rewrite Hm'. apply boot_mem_high. unfold other_start. lia. }
  assert (Hoff : forall j, (k <= j)%nat -> sm_ap s j = Off) by (intros j Hj; apply (in_off _ _ _ Hi); by rewrite Hb).
  assert (Hap : forall j, sm_ap s' j = if decide (j = k) then startup else sm_ap s j) by exact Haf.
  split; try done.
  - exact (free_list_untouched _ _ _ Hf Hu).
  - pose proof (in_low _ _ _ Hi) as Hl. by apply Forall_cons in Hl as [_ Hl].
  - change (LkKmem ∉ held (kthr h)). rewrite Ht. apply Hi.
  - eapply pgdir_untouched; [exact Hu|]. rewrite Hm. apply Hi.
  - intros _. rewrite Hm'. eapply table_kept; [|exact Htb]. intros a Ha. rewrite boot_mem_high by lia. by rewrite Hm.
  - intros j. destruct (decide (j = k)) as [->|Hj].
    + unfold ap_ok. rewrite Hap, decide_True by done. unfold given, startup. rewrite decide_True by done.
      pose proof (in_ap _ _ _ Hi k) as Hk. unfold ap_ok in Hk. rewrite Hoff in Hk by lia.
      split; [done|]. split; [apply entryother_calls|]. split; [done|]. split; [exact Hk|]. rewrite Hm'.
      eapply will_enter; [exact Hp|by rewrite Hm|rewrite Hm; apply Hi].
    + eapply (ap_ok_idle own _ (p :: l) _ s); [apply Hi|eapply no_booting; [exact Hi|by rewrite Hb]| |done| |].
      * by rewrite Hap, decide_False.
      * unfold given. by rewrite decide_False.
      * intros q Hq. by apply list_elem_of_further.
  - intros j Hj. cbn in Hj. rewrite Hap, decide_False by lia. apply Hoff. lia.
  - assert (Hne : forall j, j <> k -> sm_ap s j <> Off -> own j <> p).
    { intros j Hj Ho E. pose proof (in_ap _ _ _ Hi j) as Ha. pose proof (no_booting _ _ _ j Hi ltac:(by rewrite Hb)) as Hn. unfold ap_ok in Ha.
      destruct (sm_ap s j) as [|c code|c]; [done|by destruct (Hn c code)|]. destruct Ha as ([_ _ Ha] & _). rewrite E in Ha. by destruct Ha; left. }
    intros i j. rewrite !Hap. unfold given. destruct (decide (i = k)), (decide (j = k)); subst; try done.
    + intros _ Ho E. by destruct (Hne j).
    + intros Ho _ E. by destruct (Hne i).
    + apply Hi.
  - cbn. pose proof (in_enough _ _ _ Hi) as He. rewrite Hb in He. cbn in He. lia.
Qed.

(** *** What the interrupts do *)

(** mpinit has put the ids of the APICs into the table, and they differ. *)
Context (ids_right : forall k, (k < ncpu)%nat -> cpu_id k = apic_id k).
Context (ids_small : forall k, (k < ncpu)%nat -> 0 <= apic_id k < 128).
Context (ids_apart : forall j k, (j < ncpu)%nat -> (k < ncpu)%nat -> apic_id j = apic_id k -> j = k).

Lemma deliver_put cmds : forall s, deliver cmds s = put_aps (sm_ap (deliver cmds s)) s.
Proof.
  induction cmds as [|c cmds IH]; intros s; [by destruct s|]. change (deliver (c :: cmds) s) with (deliver cmds (deliver1 c s)).
  rewrite IH at 1. done.
Qed.

Lemma deliver_ap cmds j : forall s, sm_ap (deliver cmds s) j =
  if (j <? ncpu)%nat then fold_left (fun a c => receive j c a) cmds (sm_ap s j) else sm_ap s j.
Proof.
  induction cmds as [|c cmds IH]; intros s; [by destruct (j <? ncpu)%nat|].
  change (deliver (c :: cmds) s) with (deliver cmds (deliver1 c s)). rewrite IH. cbn [deliver1 put_aps sm_ap fold_left].
  by destruct (j <? ncpu)%nat.
Qed.

Lemma after_put s s1 : after s s1 = put_aps (sm_ap (after s s1)) s1.
Proof. apply deliver_put. Qed.

(** A step that sends nothing. *)
Lemma after_quiet s s1 : sent s1 = sent s -> after s s1 = s1.
Proof. intros E. unfold after. by rewrite E, drop_all. Qed.

(** The commands of lapicstartap start the processor they name, and no other. *)
Definition start_cmds (id : Z) : list (Z * Z) :=
  [(id * 2 ^ 24, INIT + LEVEL + ASSERT); (id * 2 ^ 24, INIT + LEVEL); (id * 2 ^ 24, STARTUP + 7); (id * 2 ^ 24, STARTUP + 7)].

Lemma receive_start j k a : (j < ncpu)%nat -> (k < ncpu)%nat ->
  fold_left (fun a c => receive j c a) (start_cmds (apic_id k)) a = if decide (j = k) then startup else a.
Proof.
  intros Hj Hk. assert (Hm : forall lo, Z.land lo BCAST = 0 -> meant_for j (apic_id k * 2 ^ 24, lo) = bool_decide (j = k)).
  { intros lo Hlo. unfold meant_for. cbn [fst snd]. rewrite Hlo. cbn [Z.eqb negb orb]. rewrite Z.shiftr_div_pow2, Z.div_mul by lia.
    destruct (Z.eqb_spec (apic_id k) (apic_id j)) as [E|E].
    - rewrite (ids_apart _ _ Hk Hj E). symmetry. by apply bool_decide_eq_true_2.
    - symmetry. apply bool_decide_eq_false_2. congruence. }
  cbn [start_cmds fold_left]. unfold receive. rewrite !Hm by reflexivity.
  destruct (decide (j = k)) as [->|Hne]; [rewrite bool_decide_eq_true_2 by done|by rewrite bool_decide_eq_false_2 by done].
  reflexivity.
Qed.

Lemma startap_sent k p h s : (k < ncpu)%nat -> sent (after_start k p h s) = sent s ++ start_cmds (apic_id k).
Proof.
  intros Hk. unfold sent, after_start. cbn [sm_dev put_bsp put_lapic put_mem put_hmem put_hw].
  destruct (lapicstartap_starts polls (cpu_id k) (v2p ap_code) (lapic_of (put_mem
    (store32 (store32 (store32 (smem (put_hmem h s)) (ap_code - 4) (u32 (p + KSTACKSIZE))) (ap_code - 8) mpenter_addr) (ap_code - 12) (v2p dir)) (put_hmem h s))))
    as [E _]; [rewrite ids_right by done; by apply ids_small|by vm_compute|by vm_compute|].
  rewrite E, ids_right by done. reflexivity.
Qed.

Lemma started_aps k p h s s0 j : sent s0 = sent s -> (k < ncpu)%nat ->
  sm_ap (after s (after_start k p h s0)) j = if decide (j = k) then startup else sm_ap s0 j.
Proof.
  intros Es Hk. unfold after. rewrite startap_sent, Es, drop_app_length, deliver_ap by done.
  change (sm_ap (after_start k p h s0) j) with (sm_ap s0 j). destruct (Nat.ltb_spec j ncpu) as [Hj|Hj]; [by apply receive_start|].
  by rewrite decide_False by lia.
Qed.

(** The INIT that lapicinit sends to all is not asserted: nobody is reset. *)
Lemma init_all_aps s s1 j : sent s1 = sent s ++ [(0, BCAST + INIT + LEVEL)] -> sm_ap (after s s1) j = sm_ap s1 j.
Proof.
  intros E. unfold after. rewrite E, drop_app_length, deliver_ap. destruct (j <? ncpu)%nat; [|done]. cbn [fold_left].
  unfold receive, meant_for, kind. by destruct (sm_ap s1 j).
Qed.

Lemma inv_aps own l s f : inv own l s -> (forall j, f j = sm_ap s j) -> inv own l (put_aps f s).
Proof.
  intros Hi Hf. split; try apply Hi.
  - intros k. pose proof (in_ap _ _ _ Hi k) as Hk. unfold ap_ok in *. cbn [sm_ap put_aps]. rewrite Hf. exact Hk.
  - intros k Hk. cbn [sm_ap put_aps]. rewrite Hf. by apply Hi.
  - intros j k. cbn [sm_ap put_aps]. rewrite !Hf. apply Hi.
Qed.

Lemma cpunum_view f (la : lapicst) : lview polls (la_dev (snd (cpunum f la))) = lview polls (la_dev la).
Proof.
  unfold cpunum. set (s1 := if negb (Z.land f FL_IF =? 0) then _ else la). assert (E : la_dev s1 = la_dev la) by (unfold s1; by destruct (negb _)).
  destruct (negb (lapic s1 =? 0)); cbn [snd]; [|by rewrite E]. pose proof (get_law polls ID (la_dev s1)) as G.
  destruct (lapic_get ID (la_dev s1)) as [v d]. cbn [snd] in *. transitivity (lview polls (la_dev s1)); [exact G|by rewrite E].
Qed.

(** [own'] extends [own]: no processor that runs changes its stack. *)
Definition extends (own own' : nat -> Z) (s : smp) : Prop := forall j, sm_ap s j <> Off -> own' j = own j.

Lemma at_lapic own l s k (la : lapicst) : inv own l s -> sm_bsp s = BAt k -> la_mem la = smem s -> inv own l (put_lapic la s).
Proof.
  intros Hi Hb Hm. pose proof (in_range _ _ _ Hi) as Hr. eapply go_on; try done; [by rewrite Hb|eapply nobody_boots; [exact Hi|by rewrite Hb]| |cbn; by rewrite Hb].
  cbn. rewrite Hm. apply put_mem_same.
Qed.

Lemma bsp_step_ok own l s : inv own l s -> exists s', bsp_step s = Some s' /\ exists own' l', inv own' l' (after s s') /\ extends own own' s.
Proof.
  intros Hi. unfold bsp_step. destruct (sm_bsp s) as [|k|k|] eqn:Hb.
  - eexists. split; [done|]. exists own, l. rewrite after_quiet by done. split; [by apply copy_step|done].
  - destruct (Nat.ltb_spec k ncpu) as [Hk|Hk].
    + assert (Hr : (k <= ncpu)%nat) by lia. pose proof (cpunum_mem 0 (lapic_of s)) as Hm. pose proof (cpunum_view 0 (lapic_of s)) as Hv.
      destruct (cpunum 0 (lapic_of s)) as [[n w] la] eqn:Ec. cbn [snd] in Hm, Hv.
      assert (Es : sent (put_lapic la s) = sent s) by (unfold sent; cbn [sm_dev put_lapic]; by rewrite Hv).
      pose proof (at_lapic _ _ _ k la Hi Hb Hm) as Hi1. destruct (Z.of_nat k =? n).
      * eexists. split; [done|]. exists own, l. rewrite after_quiet by exact Es. split; [|done].
        eapply go_on; [exact Hi1|cbn; by rewrite Hb|eapply nobody_boots; [exact Hi1|cbn; by rewrite Hb]|done..|cbn; rewrite Hb; cbn; lia].
      * destruct (kalloc_takes _ _ _ Hi1) as (p & l' & h & -> & Hka & Hf & Hmh & Ht & Hp); [cbn; rewrite Hb; done|].
        eexists. split; [by apply start_one_eq|]. exists (given own k p), l'. rewrite after_put.
        split; [apply after_start_inv; try done; intros j; by apply started_aps|].
        intros j Hj. unfold given. rewrite decide_False; [done|]. intros ->. apply Hj, (in_off _ _ _ Hi). by rewrite Hb.
    + pose proof (in_range _ _ _ Hi) as Hr. rewrite Hb in Hr. cbn in Hr. eexists. split; [done|]. exists own, l. rewrite after_quiet by done. split; [|done].
      eapply go_on; [exact Hi|by rewrite Hb|eapply nobody_boots; [exact Hi|by rewrite Hb]|done..|cbn; rewrite Hb; cbn; lia].
  - eexists. split; [done|]. exists own, l. rewrite after_quiet by (by destruct (sm_started s k)). split; [|done]. destruct (sm_started s k) eqn:Hs; [by eapply seen_step|done].
  - eexists. split; [done|]. rewrite after_quiet by done. by exists own, l.
Qed.

(** *** The steps of another processor *)

Lemma boot_step_ok own l s k c i code : inv own l s -> sm_ap s k = Booting c (i :: code) ->
  exists s', ap_step k s = Some s' /\ sm_dev s' = sm_dev s /\ inv own l s'.
Proof.
  intros Hi Ha. pose proof (in_ap _ _ _ Hi k) as Hk. unfold ap_ok in Hk. rewrite Ha in Hk.
  destruct Hk as (Hst & Hcl & Hb & Hs & c' & m' & Hr & Ho & He). unfold ap_step. rewrite Ha.
  cbn [call_last] in Hcl. apply andb_true_iff in Hcl as [Hcl Hcl']. apply andb_true_iff in Hcl as [Hq Hpl].
  cbn [brun] in Hr. destruct (bexec1 _ _ i _) as [[[c1 m1] d1]|] eqn:Ei; [|done]. destruct (quiet_step _ _ _ _ _ _ _ Hq Ei) as [-> Hm1].
  assert (Hpm : only_page (own k) (smem s) m1 /\ only_page (own k) m1 m').
  { destruct (plain i); [rewrite Hm1 by done; done|]. destruct code; [|done]. cbn [brun] in Hr. by injection Hr as -> ->. }
  destruct Hpm as [Hp1 Hp2]. pose proof Hst as [Hpg _ Hnl]. pose proof (in_free _ _ _ Hi) as Hf.
  assert (Hu : untouched l (smem s) m1) by (eapply only_page_untouched; [exact Hpg|exact Hnl|apply Hf|exact Hp1]).
  eexists. split; [done|]. split; [done|]. split; try (by apply Hi).
  - by apply free_list_untouched.
  - eapply pgdir_untouched; [exact Hu|apply Hi].
  - intros Hnb. eapply table_kept; [eapply only_page_code; [exact Hpg|exact Hp1]|by apply Hi].
  - cbn. by rewrite Hb.
  - intros j. unfold ap_ok. cbn [sm_ap put_ap put_dev put_mem put_hmem put_hw sm_started sm_bsp sm_dev]. destruct (decide (j = k)) as [->|Hj].
    + split; [done|]. split; [done|]. split; [done|]. split; [done|]. exists c', m'. done.
    + pose proof (in_ap _ _ _ Hi j) as Hj'. unfold ap_ok in Hj'. destruct (sm_ap s j) as [|cj codej|cj]; [done| |done].
      destruct Hj' as (_ & _ & Hbj & _). congruence.
  - intros j Hj. cbn in *. rewrite decide_False; [by apply Hi|]. rewrite Hb in Hj. cbn in Hj. lia.
  - intros x y. cbn. intros Hx Hy. apply Hi.
    + intros E. rewrite E in Hx. destruct (decide (x = k)) as [->|]; [congruence|done].
    + intros E. rewrite E in Hy. destruct (decide (y = k)) as [->|]; [congruence|done].
Qed.

Lemma lapicinit_sends la : exists la', lapicinit polls la = Some la' /\
  (lv_sent (lview polls (la_dev la')) = lv_sent (lview polls (la_dev la)) \/
   lv_sent (lview polls (la_dev la')) = lv_sent (lview polls (la_dev la)) ++ [(0, BCAST + INIT + LEVEL)]).
Proof.
  destruct (decide (lapic la = 0)) as [E|E].
  - exists la. unfold lapicinit. rewrite E. by split; [|left].
  - destruct (lapicinit_ready polls la E) as (la' & Hr & Hl). cbv zeta in Hl. exists la'. split; [done|right]. apply Hl.
Qed.

Lemma mpenter_effect k s : exists s', mpenter k s = Some s' /\
  hmem (sm_hw s') = hmem (sm_hw s) /\ sm_bsp s' = sm_bsp s /\ sm_ap s' = sm_ap s /\
  sm_started s' = (fun i => if decide (i = k) then true else sm_started s i) /\ sm_lapic s' = sm_lapic s /\
  (sent s' = sent s \/ sent s' = sent s ++ [(0, BCAST + INIT + LEVEL)]).
Proof.
  unfold mpenter. destruct ((switchkvm k;; seginit cpus_addr k) (sm_hw s)) as [u h| | |] eqn:E; try done.
  assert (Hh : hmem h = hmem (sm_hw s)) by (by injection E as _ <-).
  destruct (lapicinit_sends (lapic_of (put_hw h s))) as (la & Hla & Hse). rewrite Hla. pose proof (lapicinit_ptr _ _ Hla) as Hpt. apply lapicinit_mem in Hla.
  eexists. split; [reflexivity|]. split; [|split; [done|]; split; [done|]; split; [done|]; split; [exact Hpt|exact Hse]]. cbn. rewrite Hla, <- Hh. apply set_mem_same.
Qed.

Lemma enter_step_ok own l s k c : inv own l s -> sm_ap s k = Booting c [] ->
  exists s', ap_step k s = Some s' /\ inv own l (after s s') /\ sm_started (after s s') k = true.
Proof.
  intros Hi Ha. pose proof (in_ap _ _ _ Hi k) as Hk. unfold ap_ok in Hk. rewrite Ha in Hk.
  destruct Hk as (Hst & _ & Hb & _ & c' & m' & Hr & _ & He). cbn [brun] in Hr. injection Hr as <- <-.
  unfold ap_step. rewrite Ha, (ic_eip _ _ _ _ He), Z.eqb_refl. destruct (mpenter_effect k s) as (s1 & -> & Hh & Hb1 & Ha1 & Hs1 & _ & Hse).
  assert (Hm : smem s1 = smem s) by (unfold smem; by rewrite Hh).
  eexists. split; [done|]. rewrite after_put. split; [|cbn [put_aps sm_started put_ap]; by rewrite Hs1, decide_True].
  apply inv_aps.
  2:{ intros j. destruct Hse as [Hse|Hse]; [by rewrite after_quiet|by apply init_all_aps]. }
  assert (Hap : forall j, sm_ap (put_ap k (Up c) s1) j = if decide (j = k) then Up c else sm_ap s j) by (intros j; cbn; by rewrite Ha1).
  split; cbn [sm_hw put_ap sm_bsp]; change (smem (put_ap k (Up c) s1)) with (smem s1); rewrite ?Hh, ?Hm, ?Hb1; try (by apply Hi).
  - intros j. unfold ap_ok. rewrite Hap. cbn [sm_started put_ap sm_bsp sm_dev]. rewrite Hs1. destruct (decide (j = k)) as [->|Hj]; [done|].
    pose proof (in_ap _ _ _ Hi j) as Hj'. unfold ap_ok in Hj'. destruct (sm_ap s j) as [|cj codej|cj]; [done| |done].
    destruct Hj' as (_ & _ & Hbj & _). congruence.
  - intros j Hj. rewrite Hap, decide_False; [by apply Hi|]. rewrite Hb in Hj. cbn in Hj. lia.
  - intros x y. rewrite !Hap. intros Hx Hy. apply Hi.
    + intros E. rewrite E in Hx. destruct (decide (x = k)) as [->|]; [congruence|done].
    + intros E. rewrite E in Hy. destruct (decide (y = k)) as [->|]; [congruence|done].
Qed.

Lemma ap_step_ok own l s k : inv own l s -> exists s', ap_step k s = Some s' /\ inv own l (after s s').
Proof.
  intros Hi. destruct (sm_ap s k) as [|c [|i code]|c] eqn:E.
  - exists s. unfold ap_step. rewrite E, after_quiet by done. done.
  - destruct (enter_step_ok _ _ _ _ _ Hi E) as (s' & ? & ? & _). by exists s'.
  - destruct (boot_step_ok _ _ _ _ _ _ _ Hi E) as (s' & ? & Hd & ?). exists s'. rewrite after_quiet by (unfold sent; by rewrite Hd). done.
  - exists s. unfold ap_step. rewrite E, after_quiet by done. done.
Qed.

Lemma sreach_inv s s' : sreach s s' -> forall own l, inv own l s -> exists own' l', inv own' l' s'.
Proof.
  induction 1 as [s|s s1 s2 Hs Hr IH]; intros own l Hi; [by exists own, l|]. destruct Hs as (s1' & [Hs|[k Hs]] & ->).
  - destruct (bsp_step_ok _ _ _ Hi) as (s1'' & E & own' & l' & Hi' & _). rewrite E in Hs. injection Hs as <-. by eapply IH.
  - destruct (ap_step_ok _ _ _ k Hi) as (s1'' & E & Hi'). rewrite E in Hs. injection Hs as <-. by eapply IH.
Qed.

(** ** What startothers achieves *)

(** At the call of startothers: the kernel is loaded, kinit1 has made a free
    list out of pages below 4 MB with one for each processor, and all other
    processors wait for their interrupt. *)
Record before_start (l : list Z) (s : smp) : Prop := {
  bs_bsp : sm_bsp s = BCopy;
  bs_off : forall k, sm_ap s k = Off /\ sm_started s k = false;
  bs_free : free_list kend (hmem (sm_hw s)) l;
  bs_low : Forall in_first_4mb l;
  bs_locks : LkKmem ∉ held (kthr (hmem (sm_hw s)));
  bs_dir : pgdir_at KERNBASE (smem s) (v2p dir);
  bs_image : load_bytes (smem s) (image + (gdt - other_start)) 24 = boot_gdt /\
    load_bytes (smem s) (image + (gdtdesc - other_start)) 6 = boot_gdtdesc gdt;
  bs_enough : (ncpu <= length l)%nat
}.

Lemma before_start_inv l s : before_start l s -> inv (fun _ => 0) l s.
Proof.
  intros []. split; try done.
  - intros k. unfold ap_ok. destruct (bs_off0 k) as [-> ?]. done.
  - intros k _. apply bs_off0.
  - intros j k Hj. destruct Hj. apply bs_off0.
  - rewrite bs_bsp0. cbn. lia.
  - rewrite bs_bsp0. cbn. lia.
Qed.

(** C23: each processor gets a stack of its own.  In every interleaving of
    startothers with the processors it starts, no processor faults, and each
    that has reached mpenter got there in 32-bit protected mode with segments
    over all of memory, paging through entrypgdir, interrupts off and on a
    page that kalloc gave to it alone: no two processors have the same stack
    and none of the stacks is free. *)
Theorem others_on_own_stacks l s s' :
  before_start l s -> sreach s s' ->
  is_Some (bsp_step s') /\ (forall k, is_Some (ap_step k s')) /\
  exists l', free_list kend (hmem (sm_hw s')) l' /\
    (forall k c, sm_ap s' k = Up c -> exists p, page_ok kend p /\ (p ∉ l') /\ in_c mpenter_addr (p + 4092) (v2p dir) c) /\
    (forall j k cj ck, sm_ap s' j = Up cj -> sm_ap s' k = Up ck -> c_gr cj ESP = c_gr ck ESP -> j = k).
Proof.
  intros Hb Hr. destruct (sreach_inv _ _ Hr _ _ (before_start_inv _ _ Hb)) as (own & l' & Hi).
  assert (Hup : forall k c, sm_ap s' k = Up c -> stack_of l' (own k) /\ entered (own k) c).
  { intros k c E. pose proof (in_ap _ _ _ Hi k) as Hk. unfold ap_ok in Hk. rewrite E in Hk. by destruct Hk as (? & _ & ?). }
  split; [by destruct (bsp_step_ok _ _ _ Hi) as (? & -> & _)|]. split; [intros k; by destruct (ap_step_ok _ _ _ k Hi) as (? & -> & _)|].
  exists l'. split; [apply Hi|]. split.
  - intros k c E. destruct (Hup k c E) as [[] He]. by exists (own k).
  - intros j k cj ck Ej Ek E. destruct (Hup j cj Ej) as [_ Hj], (Hup k ck Ek) as [_ Hk].
    apply (in_own _ _ _ Hi); [by rewrite Ej|by rewrite Ek|]. pose proof (ic_esp _ _ _ _ Hj). pose proof (ic_esp _ _ _ _ Hk). lia.
Qed.

(** startothers does not look at what kalloc returns: with no page left the
    processor is sent off with a stack that ends at address 4096. *)
Lemma start_without_page k s : freelist (hmem (sm_hw s)) = 0 -> LkKmem ∉ held (kthr (hmem (sm_hw s))) ->
  exists s', start_one k s = Some s' /\ load32 (smem s') (ap_code - 4) = KSTACKSIZE.
Proof.
  intros Hf Hl. pose proof (kalloc_run _ Hl) as Hk. rewrite Hf in Hk. set (h := mkK _ _ _ _ _) in Hk.
  exists (after_start k 0 h s). split; [by apply start_one_eq|]. assert (Hm : smem (after_start k 0 h s) = boot_mem 0 k (put_hmem h s) (kmemory h)) by done.
  rewrite Hm. replace (ap_code - 4) with (KERNBASE + (other_start - 4)) by done.
  rewrite (or_stack _ _ _ _ _ (boot_mem_orders 0 k (put_hmem h s) (kmemory h) ltac:(done) ltac:(done))). done.
Qed.

(** *** All of them start *)

(** The number of the first processor, which its APIC tells. *)
Context (lapic0 : Z) (self : nat) (self_id : forall la : lapicst, lapic la = lapic0 -> fst (fst (cpunum 0 la)) = Z.of_nat self).

Record woken (s : smp) : Prop := {
  wk_on : forall k, (k < next (sm_bsp s))%nat -> k <> self -> sm_ap s k <> Off;
  wk_other : forall k, sm_bsp s = BWait k -> k <> self;
  wk_lapic : sm_lapic s = lapic0
}.

Lemma bsp_step_woken own l s s' : inv own l s -> woken s -> bsp_step s = Some s' -> woken (after s s').
Proof.
  intros Hi [Hw Ho Hl] E. unfold bsp_step in E. destruct (sm_bsp s) as [|k|k|] eqn:Hb.
  - injection E as <-. rewrite after_quiet by done. split; [cbn; lia|done|done].
  - destruct (Nat.ltb_spec k ncpu) as [Hk|Hk].
    + pose proof (self_id (lapic_of s) Hl) as Hs. pose proof (cpunum_ptr 0 (lapic_of s)) as Hpt. pose proof (cpunum_view 0 (lapic_of s)) as Hv.
      destruct (cpunum 0 (lapic_of s)) as [[n w] la]. cbn [fst snd] in Hs, Hpt, Hv. assert (Hla : lapic la = lapic0) by (rewrite Hpt; exact Hl).
      assert (Es : sent (put_lapic la s) = sent s) by (unfold sent; cbn [sm_dev put_lapic]; by rewrite Hv).
      destruct (Z.eqb_spec (Z.of_nat k) n) as [En|En].
      * injection E as <-. rewrite after_quiet by exact Es. split; [|done|exact Hla]. cbn. intros j Hj Hne. apply Hw; [cbn; lia|done].
      * unfold start_one in E. destruct (kalloc _) as [p h| | |]; try done. injection E as <-.
        change (woken (after s (after_start k p h (put_lapic la s)))). rewrite after_put.
        split; cbn [put_aps sm_bsp sm_ap after_start put_bsp next].
        -- intros j Hj Hne. rewrite started_aps by done. destruct (decide (j = k)); [done|]. apply Hw; [cbn; lia|done].
        -- intros j [= <-]. lia.
        -- cbn [sm_lapic put_aps after_start put_bsp put_lapic]. rewrite startap_ptr. exact Hla.
    + injection E as <-. rewrite after_quiet by done. split; [|done|done]. cbn. intros j Hj Hne. apply Hw; [cbn; lia|done].
  - injection E as <-. rewrite after_quiet by (by destruct (sm_started s k)).
    destruct (sm_started s k); [|split; rewrite ?Hb; done]. split; [|done|done]. cbn. intros j Hj Hne. by apply Hw.
  - injection E as <-. rewrite after_quiet by done. split; rewrite ?Hb; done.
Qed.

Lemma ap_step_woken own l k s s' : inv own l s -> woken s -> ap_step k s = Some s' -> woken (after s s') /\ sm_bsp (after s s') = sm_bsp s.
Proof.
  intros Hi [Hw Ho Hl] E. pose proof E as E0. unfold ap_step in E. destruct (sm_ap s k) as [|c [|i code]|c] eqn:Ea.
  - injection E as <-. by rewrite after_quiet.
  - destruct (c_eip c =? mpenter_addr); [|done]. destruct (mpenter_effect k s) as (s1 & Em & _ & Hb & Ha & _ & Hl1 & Hse). rewrite Em in E. injection E as <-.
    rewrite after_put. split; [|exact Hb]. split; cbn [put_aps sm_bsp sm_ap sm_lapic put_ap]; rewrite ?Hb; [|done|congruence].
    intros j Hj Hne. assert (Ej : sm_ap (after s (put_ap k (Up c) s1)) j = sm_ap (put_ap k (Up c) s1) j)
      by (destruct Hse; [by rewrite after_quiet|by apply init_all_aps]).
    rewrite Ej. cbn. rewrite Ha. destruct (decide (j = k)); [done|]. by apply Hw.
  - destruct (boot_step_ok _ _ _ _ _ _ _ Hi Ea) as (s1 & E1 & Hd & _). rewrite E0 in E1. injection E1 as <-. rewrite after_quiet by (unfold sent; by rewrite Hd).
    destruct (bexec1 _ _ i _) as [[[c1 m1] d1]|]; [|done]. injection E as <-. split; [|done]. split; cbn; [|done|done].
    intros j Hj Hne. destruct (decide (j = k)); [done|]. by apply Hw.
  - injection E as <-. by rewrite after_quiet.
Qed.

Lemma bsp_sstep s s' : bsp_step s = Some s' -> sreach s (after s s').
Proof. intros E. apply rtc_once. exists s'. auto. Qed.
Lemma ap_sstep k s s' : ap_step k s = Some s' -> sreach s (after s s').
Proof. intros E. apply rtc_once. exists s'. eauto. Qed.

Lemma sreach_woken s s' : sreach s s' -> forall own l, inv own l s -> woken s -> exists own' l', inv own' l' s' /\ woken s'.
Proof.
  induction 1 as [s|s s1 s2 Hs Hr IH]; intros own l Hi Hw; [by exists own, l|]. destruct Hs as (s1' & [Hs|[k Hs]] & ->).
  - destruct (bsp_step_ok _ _ _ Hi) as (s1'' & E & own' & l' & Hi' & _). pose proof (bsp_step_woken _ _ _ _ Hi Hw Hs).
    rewrite E in Hs. injection Hs as <-. by eapply IH.
  - destruct (ap_step_ok _ _ _ k Hi) as (s1'' & E & Hi'). destruct (ap_step_woken _ _ _ _ _ Hi Hw Hs) as [Hw' _]. rewrite E in Hs. injection Hs as <-. by eapply IH.
Qed.

Lemma boots code : forall own l s k c, inv own l s -> woken s -> sm_ap s k = Booting c code ->
  exists s', sreach s s' /\ sm_bsp s' = sm_bsp s /\ sm_started s' k = true.
Proof.
  induction code as [|i code IH]; intros own l s k c Hi Hw Ha.
  - destruct (enter_step_ok _ _ _ _ _ Hi Ha) as (s' & E & _ & Hs). exists (after s s'). split; [by eapply ap_sstep|]. split; [|done].
    by destruct (ap_step_woken _ _ _ _ _ Hi Hw E).
  - destruct (boot_step_ok _ _ _ _ _ _ _ Hi Ha) as (s1 & E & Hd & Hi1). destruct (ap_step_woken _ _ _ _ _ Hi Hw E) as [Hw1 Hb1].
    pose proof (ap_sstep _ _ _ E) as Hr1. rewrite after_quiet in Hw1, Hb1, Hr1 by (unfold sent; by rewrite Hd).
    assert (Ha1 : exists c1, sm_ap s1 k = Booting c1 code).
    { unfold ap_step in E. rewrite Ha in E. destruct (bexec1 _ _ i _) as [[[c1 m1] d1]|]; [|done]. injection E as <-. exists c1. cbn. by rewrite decide_True. }
    destruct Ha1 as [c1 Ha1]. destruct (IH _ _ _ _ _ Hi1 Hw1 Ha1) as (s2 & Hr & Hb2 & Hs2). exists s2.
    split; [|split; [congruence|done]]. by etrans.
Qed.

(** The first processor does not wait for ever. *)
Lemma wait_ends own l s k : inv own l s -> woken s -> sm_bsp s = BWait k -> exists s', sreach s s' /\ sm_bsp s' = BAt (S k).
Proof.
  intros Hi Hw Hb. assert (Hs : exists s1, sreach s s1 /\ sm_bsp s1 = BWait k /\ sm_started s1 k = true).
  { assert (Hk : sm_ap s k <> Off) by (apply (wk_on _ Hw); [rewrite Hb; cbn; lia|by apply (wk_other _ Hw)]).
    pose proof (in_ap _ _ _ Hi k) as Ha. unfold ap_ok in Ha. destruct (sm_ap s k) as [|c code|c] eqn:E; [done| |].
    - destruct (boots _ _ _ _ _ _ Hi Hw E) as (s1 & ? & ? & ?). exists s1. split_and!; [done|congruence|done].
    - exists s. split_and!; [apply rtc_refl|done|apply Ha]. }
  destruct Hs as (s1 & Hr & Hb1 & Hs1). exists (put_bsp (BAt (S k)) s1). split; [|done]. etrans; [exact Hr|].
  assert (E : bsp_step s1 = Some (put_bsp (BAt (S k)) s1)) by (unfold bsp_step; by rewrite Hb1, Hs1).
  apply bsp_sstep in E. by rewrite after_quiet in E.
Qed.

Lemma loop_ends n : forall own l s k, (ncpu - k <= n)%nat -> inv own l s -> woken s -> sm_bsp s = BAt k -> exists s', sreach s s' /\ sm_bsp s' = BDone.
Proof.
  induction n as [|n IH]; intros own l s k Hn Hi Hw Hb; destruct (bsp_step_ok _ _ _ Hi) as (s1 & E & own1 & l1 & Hi1 & _);
    pose proof (bsp_step_woken _ _ _ _ Hi Hw E) as Hw1; pose proof (bsp_sstep _ _ E) as Hr1;
    assert (Hc : sm_bsp (after s s1) = BDone \/ ((k < ncpu)%nat /\ (sm_bsp (after s s1) = BAt (S k) \/ sm_bsp (after s s1) = BWait k))).
  1,3: rewrite after_put; cbn [sm_bsp put_aps];
    unfold bsp_step in E; rewrite Hb in E; destruct (Nat.ltb_spec k ncpu) as [Hk|Hk]; [right; split; [done|]|injection E as <-; by left];
    destruct (cpunum 0 (lapic_of s)) as [[? ?] ?]; destruct (_ =? _); [injection E as <-; by left|]; right;
    unfold start_one in E; destruct (kalloc _); try done; by injection E as <-.
  - destruct Hc as [Hc|[Hk _]]; [by eexists|lia].
  - destruct Hc as [Hc|[Hk [Hc|Hc]]]; [by eexists| |].
    + destruct (IH _ _ _ (S k) ltac:(lia) Hi1 Hw1 Hc) as (s2 & Hr & Hd). exists s2. split; [by etrans|done].
    + destruct (wait_ends _ _ _ _ Hi1 Hw1 Hc) as (s2 & Hr2 & Hb2). destruct (sreach_woken _ _ Hr2 _ _ Hi1 Hw1) as (own2 & l2 & Hi2 & Hw2).
      destruct (IH _ _ _ (S k) ltac:(lia) Hi2 Hw2 Hb2) as (s3 & Hr3 & Hd). exists s3. split; [|done]. etrans; [exact Hr1|]. by etrans.
Qed.

(** C24: all processors start.  The table of processors has the ids of their
    APICs, and a processor runs only when a startup interrupt with its id was
    sent.  Then, whatever interleaving has happened so far, the first
    processor can get through startothers, and when it is through, each other
    processor of the table has got its interrupt, is up and has said so. *)
Theorem others_all_start l s s' :
  before_start l s -> sm_lapic s = lapic0 -> sreach s s' ->
  (exists s'', sreach s' s'' /\ sm_bsp s'' = BDone) /\
  (sm_bsp s' = BDone -> forall k, (k < ncpu)%nat -> k <> self -> sm_started s' k = true /\ exists c, sm_ap s' k = Up c).
Proof.
  intros Hb Hl Hr. assert (Hw : woken s) by (split; rewrite ?(bs_bsp _ _ Hb); cbn; [lia|done|done]).
  destruct (sreach_woken _ _ Hr _ _ (before_start_inv _ _ Hb) Hw) as (own & l' & Hi & Hw'). split.
  - destruct (sm_bsp s') as [|k|k|] eqn:E.
    + destruct (bsp_step_ok _ _ _ Hi) as (s1 & E1 & own1 & l1 & Hi1 & _). pose proof (bsp_step_woken _ _ _ _ Hi Hw' E1) as Hw1.
      assert (Hb1 : sm_bsp (after s' s1) = BAt 0) by (rewrite after_put; unfold bsp_step in E1; rewrite E in E1; by injection E1 as <-).
      destruct (loop_ends (ncpu - 0) _ _ _ _ (le_n _) Hi1 Hw1 Hb1) as (s2 & Hr2 & Hd). exists s2. split; [|done]. etrans; [by apply bsp_sstep|exact Hr2].
    + by eapply (loop_ends (ncpu - k)).
    + destruct (wait_ends _ _ _ _ Hi Hw' E) as (s2 & Hr2 & Hb2). destruct (sreach_woken _ _ Hr2 _ _ Hi Hw') as (own2 & l2 & Hi2 & Hw2).
      destruct (loop_ends (ncpu - S k) _ _ _ _ (le_n _) Hi2 Hw2 Hb2) as (s3 & Hr3 & Hd). exists s3. split; [by etrans|done].
    + exists s'. split; [apply rtc_refl|done].
  - intros E k Hk Hne. assert (Ha : sm_ap s' k <> Off) by (apply (wk_on _ Hw'); [by rewrite E|done]).
    destruct (nobody_boots _ _ _ Hi ltac:(by rewrite E) k Ha) as [c Hc]. split; [|by exists c].
    pose proof (in_ap _ _ _ Hi k) as Hk'. unfold ap_ok in Hk'. rewrite Hc in Hk'. apply Hk'.
Qed.
End smp.

(** ** Before and after *)

Lemma drop_lock_sub l hs x : x ∈ drop_lock l hs -> x ∈ hs.
Proof.
  induction hs as [|h hs IH]; cbn [drop_lock]; [done|]. destruct (decide (h = l)); [by right|].
  intros Hx. apply elem_of_cons in Hx as [->|Hx]; [by left|right; by apply IH].
Qed.

(** The pages kinit1 frees are in the first 4 MB, which is why startothers has
    to come before kinit2. *)
Lemma kinit1_low kend s : KERNBASE <= kend <= KERNBASE + 4194304 -> freelist s = 0 -> LkKmem ∉ held (kthr s) ->
  exists s' l, kinit1 kend kend (p2v (4 * 1024 * 1024)) s = Ok tt s' /\ free_list kend s' l /\ Forall in_first_4mb l /\
    length l = Z.to_nat ((KERNBASE + 4194304 - PGROUNDUP kend) / 4096) /\ LkKmem ∉ held (kthr s').
Proof.
  intros Hk Hf Hl. change (p2v (4 * 1024 * 1024)) with (KERNBASE + 4194304).
  set (s1 := set_use_lock false (set_held (drop_lock LkKmem (held (thr s))) s)).
  assert (Hl1 : LkKmem ∉ held (kthr s1)) by (cbn; intros Hin; by apply drop_lock_sub in Hin).
  destruct (freerange_correct kend kend (KERNBASE + 4194304) s1 []) as (s' & Hr & Hfl & Ht & _); try (done || (unfold KERNBASE, PHYSTOP in *; lia)).
  { split; [exact Hf|]. split; [apply NoDup_nil_2|by apply Forall_nil]. }
  { intros x Hx. by apply not_elem_of_nil in Hx. }
  set (n := Z.to_nat ((KERNBASE + 4194304 - PGROUNDUP kend) / 4096)) in *. rewrite app_nil_r in Hfl. exists s', (rev (range_pages (PGROUNDUP kend) n)). split; [exact Hr|]. split; [done|].
  destruct (PGROUNDUP_spec kend) as [_ Hu]; [unfold KERNBASE in *; lia|]. split; [|split].
  - apply Forall_rev, Forall_forall. intros p Hp. apply elem_of_range_pages in Hp as (i & Hi & ->). unfold in_first_4mb, n, KERNBASE in *. zlia.
  - rewrite length_rev. unfold range_pages. by rewrite length_map, length_seq.
  - by rewrite Ht.
Qed.

(** ** Two processors *)

Module SmpDemo.

(** A local APIC that is number 0 and delivers at once. *)
#[export] Instance demo_ports : Ports laview := {| inb _ w := (0, w); outb _ _ w := w |}.
#[export] Instance demo_lapic : LocalApic laview := {|
  lapic_get k w := (if (k =? ICRLO) || (k =? ID) then 0 else lv_reg w k, w);
  lapic_put k v w := view_write k v w
|}.

#[export] Instance demo_laws : @LocalApicLaws laview _ _ 1.
Proof. by refine {| lview w := w |}. Defined.

Definition dir : Z := 2148532224.      (* KERNBASE + 1 MB *)
Definition image : Z := 2148536320.
Definition kend : Z := 2148540416.
Definition page1 : Z := 2148544512.
Definition page2 : Z := 2148548608.
Definition mpenter_at : Z := 2148540000.

Definition demo_mem : mem :=
  let m := store32 (store32 (fun _ => 0) dir 131) (dir + 4 * 512) 131 in
  let m := store_bytes (store_bytes m (image + 16) boot_gdt) (image + 48) (boot_gdtdesc 28688) in
  store32 (store32 m page1 page2) page2 0.

Definition hw : hwst :=
  mkHwst (hmach SegDemo.hs0) (mkK demo_mem false page1 0 (mkThread [] [])) 0 (hcpu SegDemo.hs0) (idt SegDemo.hs0).
Definition start : smp := mkSmp hw 4276092928 0 (mkView (fun _ => 0) []) BCopy (fun _ => Off) (fun _ => false) [].

Definition bstep : smp -> option smp := bsp_step image 64 mpenter_at dir 2 Z.of_nat.
Definition astep : nat -> smp -> option smp := ap_step 1 2149580800 2149584896 mpenter_at.
Definition reached : smp -> smp -> Prop :=
  sreach 1 2149580800 2149584896 image 64 28720 28704 28800 mpenter_at dir 2 Z.of_nat (fun _ => 0) Z.of_nat.
Definition after_step : smp -> smp -> smp := after 1 28720 28704 28800 2 (fun _ => 0) Z.of_nat.

(** A schedule: [None] is a step of the first processor. *)
Fixpoint run (sched : list (option nat)) (s : smp) : option smp :=
  match sched with
  | [] => Some s
  | p :: sched => match (match p with None => bstep s | Some k => astep k s end) with Some s1 => run sched (after_step s s1) | None => None end
  end.

Lemma run_reached sched : forall s s', run sched s = Some s' -> reached s s'.
Proof.
  induction sched as [|p sched IH]; intros s s' E; cbn [run] in E; [injection E as ->; apply rtc_refl|].
  destruct p as [k|].
  - destruct (astep k s) as [s1|] eqn:E1; [|done]. eapply rtc_l; [exists s1; split; [right; exists k; exact E1|done]|by apply IH].
  - destruct (bstep s) as [s1|] eqn:E1; [|done]. eapply rtc_l; [exists s1; split; [left; exact E1|done]|by apply IH].
Qed.

(** Processor 1 is started, boots while the first one spins, and is seen. *)
Definition schedule : list (option nat) := [None; None; None] ++ repeat (Some 1%nat) 14 ++ [None] ++ repeat (Some 1%nat) 14 ++ [None; None].

Lemma schedule_ends : match run schedule start with
  | Some s => match sm_bsp s, sm_ap s 1 with BDone, Up c => (c_eip c =? mpenter_at) && (c_gr c ESP =? page1 + 4092) | _, _ => false end
  | None => false
  end = true.
Proof. vm_compute. reflexivity. Qed.

Lemma demo_dir : pgdir_at KERNBASE demo_mem (v2p dir).
Proof.
  assert (Hb : forallb (fun i => load32 demo_mem (KERNBASE + v2p dir + 4 * Z.of_nat i) =? default 0 (entrypgdir !! i)) (seq 0 1024) = true)
    by (vm_compute; reflexivity).
  intros i v Hi. rewrite forallb_forall in Hb. specialize (Hb i). rewrite Hi in Hb. apply Z.eqb_eq, Hb, in_seq.
  apply lookup_lt_Some in Hi. revert Hi. unfold entrypgdir. rewrite !length_insert, length_replicate. change (Z.to_nat NPDENTRIES) with 1024%nat. lia.
Qed.

Lemma demo_start : before_start kend image 28688 28720 dir 2 [page1; page2] start.
Proof.
  split; try done.
  - split; [vm_compute; done|]. split; [by apply (bool_decide_unpack _)|]. repeat (apply Forall_cons; split; [unfold page_ok; split_and!; by vm_compute|]). by apply Forall_nil.
  - repeat (apply Forall_cons; split; [unfold in_first_4mb, page1, page2, KERNBASE; lia|]). by apply Forall_nil.
  - by apply (bool_decide_unpack _).
  - apply demo_dir.
Qed.

Ltac layout_ok := solve [unfold KERNBASE, EXTMEM, PHYSTOP, other_start, dir, kend, mpenter_at; lia | reflexivity].

Lemma demo_self (la : @lapicst laview) : lapic la = 4276092928 -> fst (fst (cpunum 0 la)) = Z.of_nat 0.
Proof. intros E. unfold cpunum. change (negb (Z.land 0 FL_IF =? 0)) with false. cbv iota zeta. by rewrite E. Qed.

Lemma others_on_own_stacks_witness : exists s', reached start s' /\ sm_bsp s' = BDone /\
  exists c p, sm_ap s' 1 = Up c /\ in_c mpenter_at (p + 4092) (v2p dir) c.
Proof.
  pose proof schedule_ends as E. destruct (run schedule start) as [s'|] eqn:Er; [|done]. apply run_reached in Er.
  exists s'. split; [exact Er|]. destruct (sm_bsp s'); try done. split; [done|]. destruct (sm_ap s' 1) as [| |c] eqn:Ea; try done.
  destruct (others_on_own_stacks 1 2149580800 2149584896 kend image 64 28688 28720 28704 28800 mpenter_at dir 2 Z.of_nat (fun _ => 0) Z.of_nat)
    with (l := [page1; page2]) (s := start) (s' := s') as (_ & _ & l' & _ & Hup & _); try layout_ok;
    [apply demo_start|exact Er|].
  destruct (Hup _ _ Ea) as (p & _ & _ & Hc). by exists c, p.
Defined.

Lemma others_all_start_witness : exists s', reached start s' /\ sm_started s' 1 = true /\ exists c, sm_ap s' 1 = Up c.
Proof.
  pose proof schedule_ends as E. destruct (run schedule start) as [s'|] eqn:Er; [|done]. apply run_reached in Er.
  exists s'. split; [exact Er|]. destruct (sm_bsp s') eqn:Eb; try done.
  destruct (others_all_start 1 2149580800 2149584896 kend image 64 28688 28720 28704 28800 mpenter_at dir 2 Z.of_nat (fun _ => 0) Z.of_nat)
    with (lapic0 := 4276092928) (self := 0%nat) (l := [page1; page2]) (s := start) (s' := s') as [_ H];
    try layout_ok; [exact demo_self|apply demo_start|exact Er|].
  apply (H Eb 1%nat); lia.
Defined.
End SmpDemo.
