(* ===== verification/VmSpec.v ===== *)
(** * vm.c is correct: page tables as functions

    [pte_at] reads a page table as a function from virtual addresses to
    entries.  Under [pt_ok] (the directory and its tables are distinct pages,
    none of them free) every operation of vm.c is described by its effect on
    that function. *)

From S2P Require Import Prelude Monad Locks Memory CString Mmu Kalloc Vm.

Open Scope Z_scope.
Open Scope kernel_scope.

(** The directory entry for index [d], and the table it points to. *)
Definition pde (m : mem) (pgdir d : Z) : Z := load32 m (pgdir + 4 * d).
Definition tab (m : mem) (pgdir d : Z) : Z := p2v (PTE_ADDR (pde m pgdir d)).

(** The entry for virtual address [va]; 0 where there is no table. *)
Definition pte_at (m : mem) (pgdir va : Z) : Z :=
  if has (pde m pgdir (PDX va)) PTE_P then load32 m (tab m pgdir (PDX va) + 4 * PTX va) else 0.

Definition is_va (va : Z) : Prop := 0 <= va < 4294967296.

Lemma PDX_range va : is_va va -> 0 <= PDX va < 1024.
Proof. intros H. unfold is_va in H. rewrite PDX_div by done. zlia. Qed.

Lemma PTX_range va : is_va va -> 0 <= PTX va < 1024.
Proof. intros H. unfold is_va in H. rewrite PTX_div by done. zlia. Qed.

Lemma PDX_mono va va' : is_va va -> is_va va' -> va <= va' -> PDX va <= PDX va'.
Proof. unfold is_va. intros H H' L. rewrite !PDX_div by done. zlia. Qed.

Lemma same_page va va' :
  is_va va -> is_va va' -> (PDX va = PDX va' /\ PTX va = PTX va') <-> va / 4096 = va' / 4096.
Proof. unfold is_va. intros H H'. rewrite !PDX_div, !PTX_div by done. zlia. Qed.

Lemma has_0 : has 0 PTE_P = false.
Proof. done. Qed.

Lemma has_lor x y mask : has (Z.lor x y) mask = has x mask || has y mask.
Proof.
  unfold has. rewrite Z.land_lor_distr_l.
  destruct (Z.eqb_spec (Z.land x mask) 0) as [->|Hx]; simpl; [done|].
  destruct (Z.eqb_spec (Z.lor (Z.land x mask) (Z.land y mask)) 0) as [E|]; [|done].
  apply Z.lor_eq_0_iff in E as [E _]. done.
Qed.

(** A word of memory inside a page. *)
Definition in_page (p x : Z) : Prop := p <= x < p + 4096.

Section pt.
Context (kend : Z).

(** [pgdir] and its tables are distinct allocated pages, none of them in [l]. *)
Record pt_ok (m : mem) (pgdir : Z) (l : list Z) : Prop := mkPtOk {
  pt_dir : page_ok kend pgdir;
  pt_dir_free : pgdir ∉ l;
  pt_tab : forall d, 0 <= d < 1024 -> has (pde m pgdir d) PTE_P = true ->
    page_ok kend (tab m pgdir d) /\ tab m pgdir d <> pgdir /\ tab m pgdir d ∉ l;
  pt_inj : forall d d', 0 <= d < 1024 -> 0 <= d' < 1024 ->
    has (pde m pgdir d) PTE_P = true -> has (pde m pgdir d') PTE_P = true ->
    tab m pgdir d = tab m pgdir d' -> d = d'
}.

(** Pages that make up the page table. *)
Definition owned (m : mem) (pgdir p : Z) : Prop :=
  p = pgdir \/ exists d, 0 <= d < 1024 /\ has (pde m pgdir d) PTE_P = true /\ tab m pgdir d = p.

(** Nothing outside the pages [P] changed. *)
Definition only (P : Z -> Prop) (m m' : mem) : Prop :=
  forall x, (forall p, P p -> ~ in_page p x) -> load8 m' x = load8 m x.

Lemma only_refl P m : only P m m.
Proof. done. Qed.

Lemma only_trans P Q m m' m'' :
  only P m m' -> only Q m' m'' -> (forall p, Q p -> P p) -> only P m m''.
Proof. intros H1 H2 HQ x Hx. rewrite H2 by auto. by apply H1. Qed.

Lemma only_store32 (P : Z -> Prop) m p a v :
  P p -> in_page p a -> in_page p (a + 3) -> only P m (store32 m a v).
Proof.
  intros HP H1 H2 x Hx. rewrite load8_store32. unfold in_page in *. specialize (Hx p HP).
  zif; [lia|done].
Qed.

Lemma only_memset (P : Z -> Prop) m p c : P p -> only P m (memset m p c PGSIZE).
Proof.
  intros HP x Hx. rewrite load8_memset by (unfold PGSIZE; lia). specialize (Hx p HP).
  unfold in_page, PGSIZE in *. zif; [lia|done].
Qed.

(** A word of a page that is not touched. *)
Lemma only_load32 (P : Z -> Prop) m m' p a :
  only P m m' -> page_ok kend p -> (forall q, P q -> page_ok kend q) -> ~ P p ->
  in_page p a -> in_page p (a + 3) -> load32 m' a = load32 m a.
Proof.
  intros Ho Hp HP Hn H1 H2. rewrite !load32_load8.
  assert (Hb : forall x, in_page p x -> load8 m' x = load8 m x).
  { intros x Hx. apply Ho. intros q Hq Hqx. assert (p <> q) by (intros ->; done).
    pose proof (page_ok_disjoint kend p q Hp (HP q Hq) ltac:(done)). unfold in_page in *. lia. }
  unfold in_page in *. rewrite !Hb by lia. done.
Qed.

Lemma entry_in_page p i : 0 <= i < 1024 -> in_page p (p + 4 * i) /\ in_page p (p + 4 * i + 3).
Proof. unfold in_page. lia. Qed.

(** Changes elsewhere do not show in the page table. *)
Lemma pt_frame (P : Z -> Prop) m m' pgdir l :
  pt_ok m pgdir l -> only P m m' -> (forall q, P q -> page_ok kend q) ->
  (forall q, owned m pgdir q -> ~ P q) ->
  (forall d, 0 <= d < 1024 -> pde m' pgdir d = pde m pgdir d) /\
  (forall va, is_va va -> pte_at m' pgdir va = pte_at m pgdir va).
Proof.
  intros Pt Ho HP Hn.
  assert (H1 : forall d, 0 <= d < 1024 -> pde m' pgdir d = pde m pgdir d).
  { intros d Hd. destruct (entry_in_page pgdir d Hd).
    apply (only_load32 P m m' pgdir); try done; [apply Pt|]. apply Hn. by left. }
  split; [done|]. intros va Hva. pose proof (PDX_range va Hva). pose proof (PTX_range va Hva).
  unfold pte_at, tab. rewrite H1 by done. destruct (has _ _) eqn:E; [|done].
  destruct (entry_in_page (tab m pgdir (PDX va)) (PTX va)); [done|].
  apply (only_load32 P m m' (tab m pgdir (PDX va))); try done.
  - by apply (pt_tab _ _ _ Pt).
  - apply Hn. right. by exists (PDX va).
Qed.

Lemma pt_ok_same m m' pgdir l l' :
  pt_ok m pgdir l -> (forall d, 0 <= d < 1024 -> pde m' pgdir d = pde m pgdir d) -> l' ⊆ l ->
  pt_ok m' pgdir l'.
Proof.
  intros [P1 P2 P3 P4] Hd Hl. split.
  - done.
  - set_solver.
  - intros d H. unfold tab. rewrite Hd by done. intros Hp. destruct (P3 d H Hp) as (? & ? & ?).
    split; [done|]. split; [done|]. unfold tab in *. set_solver.
  - intros d d' H H'. unfold tab. rewrite !Hd by done. by apply P4.
Qed.

(** ** walkpgdir *)

Lemma walk_present pgdir va alloc s :
  has (pde (kmemory s) pgdir (PDX va)) PTE_P = true ->
  walkpgdir pgdir va alloc s = Ok (tab (kmemory s) pgdir (PDX va) + 4 * PTX va) s.
Proof. intros H. unfold walkpgdir, bind, rd32, gets. fold (pde (kmemory s) pgdir (PDX va)). by rewrite H. Qed.

Lemma walk_absent pgdir va s :
  has (pde (kmemory s) pgdir (PDX va)) PTE_P = false -> walkpgdir pgdir va false s = Ok 0 s.
Proof. intros H. unfold walkpgdir, bind, rd32, gets. fold (pde (kmemory s) pgdir (PDX va)). by rewrite H. Qed.

(** The directory entry a fresh table gets. *)
Definition new_pde (pg : Z) : Z := Z.lor (Z.lor (Z.lor (v2p pg) PTE_P) PTE_W) PTE_U.

Lemma new_pde_spec pg : page_ok kend pg -> has (u32 (new_pde pg)) PTE_P = true /\ PTE_ADDR (u32 (new_pde pg)) = v2p pg.
Proof.
  intros (H1 & H2 & _ & H3). unfold new_pde, PTE_P, PTE_W, PTE_U.
  assert (Hv : 0 <= v2p pg < 4294967296 /\ v2p pg mod 4096 = 0) by (unfold v2p, KERNBASE; zlia).
  rewrite <- !Z.lor_assoc. change (Z.lor 1 (Z.lor 2 4)) with 7.
  assert (E : Z.lor (v2p pg) 7 = v2p pg + 7) by (rewrite (lor_low _ _ 12); [done|..]; try change (2 ^ 12) with 4096; lia).
  split.
  - unfold u32. rewrite E, Z.mod_small by zlia. rewrite <- E, has_lor. by rewrite orb_comm.
  - rewrite E. unfold u32. rewrite Z.mod_small by zlia. rewrite <- E. apply PTE_ADDR_lor; lia.
Qed.

Lemma walk_alloc_run pgdir va s pg l :
  has (pde (kmemory s) pgdir (PDX va)) PTE_P = false -> LkKmem ∉ held (kthr s) ->
  free_list kend s (pg :: l) ->
  exists s', walkpgdir pgdir va true s = Ok (pg + 4 * PTX va) s' /\
    kmemory s' = store32 (memset (kmemory s) pg 0 PGSIZE) (pgdir + 4 * PDX va) (new_pde pg) /\
    kthr s' = kthr s /\ freelist s' = load32 (kmemory s) pg /\ use_lock s' = use_lock s.
Proof.
  intros H Hl ((Hc & Hne & Hch) & Hnd & Hok). unfold walkpgdir. unfold bind at 1, rd32, gets.
  fold (pde (kmemory s) pgdir (PDX va)). rewrite H. cbn [negb].
  pose proof (kalloc_run s Hl) as Hk. rewrite Hc in Hk. rewrite (bind_Ok _ _ _ _ _ Hk).
  destruct (Z.eqb_spec pg 0); [done|].
  unfold memset_k, wr32, bind, modify, ret. eexists. split; [reflexivity|]. done.
Qed.

(** Writes to pages that are not free keep the free list. *)
Lemma free_list_only (P : Z -> Prop) s s' l :
  free_list kend s l -> only P (kmemory s) (kmemory s') -> freelist s' = freelist s ->
  (forall q, P q -> page_ok kend q /\ q ∉ l) -> free_list kend s' l.
Proof.
  intros (Hc & Hnd & Hok) Ho Hf HP. split; [|done]. rewrite Hf.
  revert Hc. apply chain_frame. intros a Ha. rewrite Forall_forall in Hok.
  apply (only_load32 P _ _ a); try done; try (unfold in_page; lia).
  - by apply Hok.
  - intros q Hq. by apply HP.
  - intros Hp. by apply HP in Hp as [_ ?].
Qed.

(** A step that changes page-table pages only, and takes the pages of new
    tables from the front of the free list. *)
Record pt_step (pgdir : Z) (s s' : kstate) (l l' : list Z) : Prop := mkPtStep {
  ps_pt : pt_ok (kmemory s') pgdir l';
  ps_free : free_list kend s' l';
  ps_list : l' `suffix_of` l;
  ps_thr : kthr s' = kthr s;
  ps_owned : forall q, owned (kmemory s) pgdir q -> owned (kmemory s') pgdir q;
  ps_old : forall q, owned (kmemory s') pgdir q -> owned (kmemory s) pgdir q \/ (q ∈ l /\ q ∉ l');
  ps_only : only (owned (kmemory s') pgdir) (kmemory s) (kmemory s')
}.

Lemma pt_step_refl pgdir s l :
  pt_ok (kmemory s) pgdir l -> free_list kend s l -> pt_step pgdir s s l l.
Proof. intros. split; try done; auto. Qed.

Lemma pt_step_trans pgdir s s1 s2 l l1 l2 :
  pt_step pgdir s s1 l l1 -> pt_step pgdir s1 s2 l1 l2 -> pt_step pgdir s s2 l l2.
Proof.
  intros [P1 P2 P3 P4 P5 P6 P7] [Q1 Q2 Q3 Q4 Q5 Q6 Q7]. split; try done.
  - by etrans.
  - by rewrite Q4.
  - auto.
  - destruct P3 as [k1 ->], Q3 as [k2 ->].
    intros q Hq. destruct (Q6 q Hq) as [H1|[H1 H2]]; [destruct (P6 q H1) as [?|[??]]|]; [by left|..];
      right; set_solver.
  - eapply (only_trans _ (owned (kmemory s2) pgdir)); [|exact Q7|done].
    intros x Hx. apply P7. intros p Hp. apply Hx. auto.
Qed.

(** The table that is missing for [va]: one or none. *)
Definition absent (m : mem) (pgdir va : Z) : Z := if has (pde m pgdir (PDX va)) PTE_P then 0 else 1.

(** What walkpgdir with allocation gives when it succeeds: the slot of the
    entry, in a page table with the same entries. *)
Record walked (pgdir va pte : Z) (s s' : kstate) (l l' : list Z) : Prop := mkWalked {
  wk_step : pt_step pgdir s s' l l';
  wk_len : Z.of_nat (length l) = Z.of_nat (length l') + absent (kmemory s) pgdir va;
  wk_pde : has (pde (kmemory s') pgdir (PDX va)) PTE_P = true;
  wk_pte : pte = tab (kmemory s') pgdir (PDX va) + 4 * PTX va;
  wk_same : forall va', is_va va' -> pte_at (kmemory s') pgdir va' = pte_at (kmemory s) pgdir va'
}.

Lemma walked_refl s pgdir va l :
  pt_ok (kmemory s) pgdir l -> free_list kend s l ->
  has (pde (kmemory s) pgdir (PDX va)) PTE_P = true ->
  walked pgdir va (tab (kmemory s) pgdir (PDX va) + 4 * PTX va) s s l l.
Proof. intros Pt Hf Hp. split; try done; [by apply pt_step_refl|]. unfold absent. rewrite Hp. lia. Qed.

(** The directory after a fresh, zeroed table is installed at index [d]. *)
Definition new_table (m : mem) (pgdir d pg : Z) : mem :=
  store32 (memset m pg 0 PGSIZE) (pgdir + 4 * d) (new_pde pg).

Section new_table.
Context (m : mem) (pgdir va pg : Z) (l : list Z).
Context (Hva : is_va va) (Pt : pt_ok m pgdir (pg :: l)) (Hpg : page_ok kend pg) (Hn : pg ∉ l).
Context (Hd : has (pde m pgdir (PDX va)) PTE_P = false).

Lemma new_table_apart : pg + 4096 <= pgdir \/ pgdir + 4096 <= pg.
Proof using All.
  apply (page_ok_disjoint kend pg pgdir Hpg (pt_dir _ _ _ Pt)).
  pose proof (pt_dir_free _ _ _ Pt). set_solver.
Qed.

Lemma new_table_pde d :
  0 <= d < 1024 ->
  pde (new_table m pgdir (PDX va) pg) pgdir d = if d =? PDX va then u32 (new_pde pg) else pde m pgdir d.
Proof using All.
  intros H. pose proof new_table_apart. pose proof (PDX_range va Hva). unfold pde, new_table.
  zif; [subst; by rewrite load32_store32|].
  rewrite load32_store32_other by lia. apply load32_memset_other; unfold PGSIZE; lia.
Qed.

Lemma new_table_tab : tab (new_table m pgdir (PDX va) pg) pgdir (PDX va) = pg.
Proof using All.
  unfold tab. rewrite new_table_pde by (by apply PDX_range). rewrite Z.eqb_refl.
  destruct (new_pde_spec pg Hpg) as [_ ->]. apply p2v_v2p. destruct Hpg. lia.
Qed.

Lemma new_table_only : only (fun p => p = pgdir \/ p = pg) m (new_table m pgdir (PDX va) pg).
Proof using All.
  unfold new_table. eapply (only_trans _ (fun p => p = pgdir \/ p = pg)); [apply (only_memset _ _ pg); by right| |done].
  destruct (entry_in_page pgdir (PDX va)); [by apply PDX_range|].
  apply (only_store32 _ _ pgdir); auto.
Qed.

Lemma new_table_pte va' :
  is_va va' -> pte_at (new_table m pgdir (PDX va) pg) pgdir va' = pte_at m pgdir va'.
Proof using All.
  intros H'. pose proof (PDX_range va' H') as Hr. pose proof (PTX_range va' H').
  unfold pte_at at 1. rewrite new_table_pde by done.
  destruct (Z.eqb_spec (PDX va') (PDX va)) as [E|E].
  - destruct (new_pde_spec pg Hpg) as [-> _]. unfold pte_at. rewrite E, Hd, new_table_tab.
    pose proof new_table_apart. pose proof (PDX_range va Hva). unfold new_table.
    rewrite load32_store32_other by lia. apply load32_memset_zero; unfold PGSIZE; lia.
  - unfold pte_at, tab. rewrite new_table_pde by done.
    destruct (Z.eqb_spec (PDX va') (PDX va)); [done|].
    destruct (has (pde m pgdir (PDX va')) PTE_P) eqn:Ep; [|done].
    destruct (pt_tab _ _ _ Pt _ Hr Ep) as (H1 & H2 & H3).
    destruct (entry_in_page (tab m pgdir (PDX va')) (PTX va')); [done|].
    apply (only_load32 _ _ _ (tab m pgdir (PDX va')) _ new_table_only); try done.
    + intros q [->| ->]; [apply Pt|done].
    + intros [Hx|Hx]; [done|]. apply H3. rewrite Hx. set_solver.
Qed.

Lemma new_table_has d : 0 <= d < 1024 ->
  has (pde (new_table m pgdir (PDX va) pg) pgdir d) PTE_P = true ->
  (d = PDX va /\ tab (new_table m pgdir (PDX va) pg) pgdir d = pg) \/
  (d <> PDX va /\ has (pde m pgdir d) PTE_P = true /\
   tab (new_table m pgdir (PDX va) pg) pgdir d = tab m pgdir d).
Proof using All.
  intros H Hp. destruct (Z.eqb_spec d (PDX va)) as [->|E]; [left; by rewrite new_table_tab|].
  right. rewrite new_table_pde in Hp by done. unfold tab. rewrite new_table_pde by done.
  destruct (Z.eqb_spec d (PDX va)); [done|]. done.
Qed.

Lemma new_table_ok : pt_ok (new_table m pgdir (PDX va) pg) pgdir l.
Proof using All.
  destruct Pt as [P1 P2 P3 P4]. split; [done|set_solver|..].
  - intros d H Hp. destruct (new_table_has d H Hp) as [[-> ->]|(_ & Hp' & ->)].
    + split; [done|]. split; [|done]. set_solver.
    + destruct (P3 d H Hp') as (? & ? & ?). split; [done|]. split; [done|]. set_solver.
  - intros d d' H H' Hp Hp'. destruct (new_table_has d H Hp) as [[-> ->]|(_ & Hq & ->)],
      (new_table_has d' H' Hp') as [[-> ->]|(_ & Hq' & ->)]; [done|..].
    + intros Hx. destruct (P3 d' H' Hq') as (_ & _ & ?). set_solver.
    + intros Hx. destruct (P3 d H Hq) as (_ & _ & ?). set_solver.
    + by apply P4.
Qed.

Lemma walked_new s s' :
  kmemory s = m -> kmemory s' = new_table m pgdir (PDX va) pg -> free_list kend s' l ->
  kthr s' = kthr s -> walked pgdir va (pg + 4 * PTX va) s s' (pg :: l) l.
Proof using All.
  intros Em Em' Hf Ht. pose proof (PDX_range va Hva) as Hr.
  assert (Hp : has (pde (new_table m pgdir (PDX va) pg) pgdir (PDX va)) PTE_P = true).
  { rewrite new_table_pde, Z.eqb_refl by done. by apply new_pde_spec. }
  split; rewrite ?Em, ?Em'; [|unfold absent; rewrite Hd; cbn [length]; lia|done|by rewrite new_table_tab|apply new_table_pte].
  split; rewrite ?Em, ?Em'; try done.
  - by apply new_table_ok.
  - by exists [pg].
  - intros q [->|(d & H & Hq & <-)]; [by left|]. right. exists d.
    assert (d <> PDX va) by (intros ->; congruence).
    unfold tab. rewrite new_table_pde by done. zif; done.
  - intros q [->|(d & H & Hq & <-)]; [left; by left|].
    destruct (new_table_has d H Hq) as [[-> ->]|(_ & Hp' & ->)]; [right; set_solver|].
    left. right. by exists d.
  - intros x Hx. apply new_table_only. intros q [->| ->]; apply Hx; [by left|].
    right. exists (PDX va). by rewrite new_table_tab.
Qed.
End new_table.

Lemma walk_fails pgdir va s :
  has (pde (kmemory s) pgdir (PDX va)) PTE_P = false -> free_list kend s [] -> LkKmem ∉ held (kthr s) ->
  exists s', walkpgdir pgdir va true s = Ok 0 s' /\ kmemory s' = kmemory s /\ kthr s' = kthr s /\
    free_list kend s' [].
Proof.
  intros Ed Hf Hl. pose proof (kalloc_run s Hl) as Hk.
  destruct (free_list_kalloc kend _ _ _ _ Hf Hl Hk) as (Hz & Hf' & Hm).
  eexists. split; [|split; [|split; [|exact Hf']]]; [|done|done].
  unfold walkpgdir, bind at 1, rd32, gets. fold (pde (kmemory s) pgdir (PDX va)). rewrite Ed.
  cbn [negb]. rewrite (bind_Ok _ _ _ _ _ Hk), Hz. done.
Qed.

Lemma walk_alloc pgdir va s l :
  is_va va -> pt_ok (kmemory s) pgdir l -> free_list kend s l -> LkKmem ∉ held (kthr s) ->
  (exists pte s' l', walkpgdir pgdir va true s = Ok pte s' /\ walked pgdir va pte s s' l l' /\ pte <> 0) \/
  (l = [] /\ has (pde (kmemory s) pgdir (PDX va)) PTE_P = false /\ 
   exists s', walkpgdir pgdir va true s = Ok 0 s' /\ kmemory s' = kmemory s /\ kthr s' = kthr s /\
     free_list kend s' []).
Proof.
  intros Hva Pt Hf Hl. pose proof (PDX_range va Hva) as Hr. pose proof (PTX_range va Hva).
  destruct (has (pde (kmemory s) pgdir (PDX va)) PTE_P) eqn:Ed.
  - left. exists (tab (kmemory s) pgdir (PDX va) + 4 * PTX va), s, l. split; [by apply walk_present|].
    split; [by apply walked_refl|]. destruct (pt_tab _ _ _ Pt _ Hr Ed) as ((? & _) & _). lia.
  - destruct l as [|pg l].
    + right. split; [done|]. split; [done|]. by apply walk_fails.
    + left. destruct (walk_alloc_run _ _ _ _ _ Ed Hl Hf) as (s' & Hw & Hm & Ht & Hfl & _).
      pose proof Hf as (Hc & Hnd & Hok). apply NoDup_cons in Hnd as [Hn Hnd].
      inversion Hok as [|? ? Hpg Hok']; subst.
      exists (pg + 4 * PTX va), s', l. split; [done|]. fold (new_table (kmemory s) pgdir (PDX va) pg) in Hm.
      split; [|destruct Hpg; lia].
      apply (walked_new (kmemory s)); try done.
      split; [|done]. rewrite Hfl. destruct Hc as (_ & _ & Hc). revert Hc. apply chain_frame.
      intros a Ha. rewrite Hm. rewrite Forall_forall in Hok'.
      apply (only_load32 _ _ _ a _ (new_table_only _ _ _ _ _ Hva Pt Hpg Hn Ed)); try (unfold in_page; lia).
      * by apply Hok'.
      * intros q [->| ->]; [apply Pt|done].
      * intros [->| ->]; [|done]. destruct (pt_dir_free _ _ _ Pt). set_solver.
Qed.

(** ** Storing an entry *)

Section set_pte.
Context (m : mem) (pgdir va v : Z) (l : list Z).
Context (Hva : is_va va) (Pt : pt_ok m pgdir l) (Hd : has (pde m pgdir (PDX va)) PTE_P = true).

Definition set_pte : mem := store32 m (tab m pgdir (PDX va) + 4 * PTX va) v.

Lemma set_pte_only : only (fun p => p = tab m pgdir (PDX va)) m set_pte.
Proof using All.
  destruct (entry_in_page (tab m pgdir (PDX va)) (PTX va)); [by apply PTX_range|].
  by eapply only_store32.
Qed.

Lemma set_pte_pde d : 0 <= d < 1024 -> pde set_pte pgdir d = pde m pgdir d.
Proof using All.
  intros H. destruct (pt_tab _ _ _ Pt _ (PDX_range va Hva) Hd) as (H1 & H2 & H3).
  destruct (entry_in_page pgdir d H). apply (only_load32 _ _ _ pgdir _ set_pte_only); try done; [apply Pt|..].
  - by intros q ->.
Qed.

Lemma set_pte_pte va' :
  is_va va' -> pte_at set_pte pgdir va' = if va' / 4096 =? va / 4096 then u32 v else pte_at m pgdir va'.
Proof using All.
  intros H'. pose proof (PDX_range va' H') as Hr'. pose proof (PTX_range va' H').
  pose proof (PDX_range va Hva) as Hr. pose proof (PTX_range va Hva).
  unfold pte_at, tab. rewrite set_pte_pde by done. fold (tab m pgdir (PDX va')).
  destruct (Z.eqb_spec (va' / 4096) (va / 4096)) as [E|E].
  - apply same_page in E as [E1 E2]; [|done..]. rewrite E1, E2, Hd. apply load32_store32.
  - destruct (has (pde m pgdir (PDX va')) PTE_P) eqn:Ep; [|done].
    destruct (Z.eq_dec (PDX va') (PDX va)) as [Ed|Ed].
    + assert (PTX va' <> PTX va) by (intros ?; destruct E; by apply same_page).
      rewrite Ed. apply load32_store32_other. lia.
    + destruct (pt_tab _ _ _ Pt _ Hr' Ep) as (H1 & _). destruct (pt_tab _ _ _ Pt _ Hr Hd) as (H2 & _).
      destruct (entry_in_page (tab m pgdir (PDX va')) (PTX va')); [done|].
      apply (only_load32 _ _ _ (tab m pgdir (PDX va')) _ set_pte_only); try done; [by intros q ->|].
      intros Ht. destruct Ed. by apply (pt_inj _ _ _ Pt).
Qed.

Lemma set_pte_owned q : owned set_pte pgdir q <-> owned m pgdir q.
Proof using All.
  unfold owned, tab. split; (intros [->|(d & H & Hp & <-)]; [by left|]); right; exists d;
    [rewrite set_pte_pde in * by done|rewrite set_pte_pde by done]; done.
Qed.

Lemma set_pte_step s s' :
  kmemory s = m -> kmemory s' = set_pte -> freelist s' = freelist s -> kthr s' = kthr s ->
  free_list kend s l -> pt_step pgdir s s' l l.
Proof using All.
  intros Em Em' Hf Ht Hl. pose proof (PDX_range va Hva) as Hr.
  assert (Ho : only (owned set_pte pgdir) m set_pte).
  { intros x Hx. apply set_pte_only. intros p ->. apply Hx. apply set_pte_owned. right. by exists (PDX va). }
  split; rewrite ?Em, ?Em'; try done.
  - apply (pt_ok_same m set_pte pgdir l); [done|apply set_pte_pde|done].
  - eapply (free_list_only (fun p => p = tab m pgdir (PDX va))); [done|..|done|].
    + rewrite Em, Em'. apply set_pte_only.
    + intros q ->. by destruct (pt_tab _ _ _ Pt _ Hr Hd) as (? & _ & ?).
  - intros q. by apply set_pte_owned.
  - intros q Hq. left. by apply set_pte_owned.
Qed.
End set_pte.

(** ** mappages *)

(** The entry for page [i] of a range mapped to [pa]. *)
Definition map_entry (pa perm i : Z) : Z := u32 (Z.lor (Z.lor (pa + 4096 * i) perm) PTE_P).

(** The table after the [k] pages from [a] on are mapped to [pa]. *)
Definition mapped (m m' : mem) (pgdir a k pa perm : Z) : Prop :=
  forall va, is_va va ->
    pte_at m' pgdir va =
      if (a / 4096 <=? va / 4096) && (va / 4096 <? a / 4096 + k)
      then map_entry pa perm (va / 4096 - a / 4096) else pte_at m pgdir va.

Lemma mapped_0 m m' pgdir a pa perm :
  (forall va, is_va va -> pte_at m' pgdir va = pte_at m pgdir va) -> mapped m m' pgdir a 0 pa perm.
Proof. intros H va Hva. zif; [lia|]. auto. Qed.

Lemma mapped_1 m m' pgdir a pa perm :
  (forall va, is_va va -> pte_at m' pgdir va =
     if va / 4096 =? a / 4096 then map_entry pa perm 0 else pte_at m pgdir va) ->
  mapped m m' pgdir a 1 pa perm.
Proof.
  intros H va Hva. rewrite H by done. zif; zif; try done; try lia. f_equal. lia.
Qed.

Lemma mapped_S m m2 m' pgdir a k pa perm :
  is_va a -> is_va (a + 4096) -> a mod 4096 = 0 -> 0 <= k ->
  (forall va, is_va va -> pte_at m2 pgdir va =
     if va / 4096 =? a / 4096 then map_entry pa perm 0 else pte_at m pgdir va) ->
  mapped m2 m' pgdir (a + 4096) k (pa + 4096) perm -> mapped m m' pgdir a (k + 1) pa perm.
Proof.
  intros Ha Ha' Hal Hk H2 H3 va Hva. rewrite H3, H2 by done.
  assert (E4 : (a + 4096) / 4096 = a / 4096 + 1) by zlia. rewrite E4.
  destruct (Z.eqb_spec (va / 4096) (a / 4096)) as [E1|E1].
  - rewrite E1. zif; [lia|]. zif; [|lia]. by rewrite Z.sub_diag.
  - zif; zif; try done; try lia. unfold map_entry. do 3 f_equal. lia.
Qed.

Lemma map_entry_present pa perm i : has (map_entry pa perm i) PTE_P = true.
Proof.
  unfold map_entry, has, u32, PTE_P. change 4294967296 with (2 ^ 32). rewrite <- Z.land_ones by lia.
  rewrite <- Z.land_assoc. change (Z.land (Z.ones 32) 1) with 1.
  rewrite Z.land_lor_distr_l. change (Z.land 1 1) with 1.
  destruct (Z.eqb_spec (Z.lor (Z.land (Z.lor (pa + 4096 * i) perm) 1) 1) 0) as [E|]; [|done].
  by apply Z.lor_eq_0_iff in E as [_ ?].
Qed.

(** The tables that [n] pages from [a] on need at most. *)
Definition tables (m : mem) (pgdir a n : Z) : Z := PDX (a + 4096 * (n - 1)) - PDX a + absent m pgdir a.

Lemma absent_bounds m pgdir a : 0 <= absent m pgdir a <= 1.
Proof. unfold absent. destruct (has _ _); lia. Qed.

Lemma tables_1 m pgdir a : tables m pgdir a 1 = absent m pgdir a.
Proof. unfold tables. rewrite Z.mul_0_r, Z.add_0_r. lia. Qed.

Lemma tables_S m m2 pgdir a n :
  is_va a -> is_va (a + 4096) -> has (pde m2 pgdir (PDX a)) PTE_P = true ->
  tables m2 pgdir (a + 4096) n + absent m pgdir a <= tables m pgdir a (n + 1).
Proof.
  intros Ha Ha' Hp. unfold tables. replace (a + 4096 + 4096 * (n - 1)) with (a + 4096 * (n + 1 - 1)) by lia.
  pose proof (absent_bounds m2 pgdir (a + 4096)). destruct (Z.eq_dec (PDX (a + 4096)) (PDX a)) as [E|E].
  - unfold absent at 1. rewrite E, Hp. lia.
  - unfold is_va in *. rewrite !(PDX_div a), (PDX_div (a + 4096)) in * by done. zlia.
Qed.

(** The two ways the loop can end: [k] pages mapped, all of them or up to the
    point where memory ran out; or a page that was mapped already. *)
Definition map_result (pgdir a n pa perm : Z) (s : kstate) (l : list Z) (r : res kstate Z) : Prop :=
  (exists k s' l', r = Ok (if k =? n then 0 else -1) s' /\ 0 <= k <= n /\
     pt_step pgdir s s' l l' /\ mapped (kmemory s) (kmemory s') pgdir a k pa perm /\
     (forall i, 0 <= i < k -> has (pte_at (kmemory s) pgdir (a + 4096 * i)) PTE_P = false) /\
     Z.of_nat (length l) + (if k <? n then 1 else 0) <= Z.of_nat (length l') + tables (kmemory s) pgdir a n /\
     (k < n -> l' = [] /\ has (pde (kmemory s') pgdir (PDX (a + 4096 * k))) PTE_P = false)) \/
  (r = Panic "remap" /\ exists i, 0 <= i < n /\ has (pte_at (kmemory s) pgdir (a + 4096 * i)) PTE_P = true).

Lemma map_one pgdir a pa perm pte s s1 l l1 :
  is_va a -> walked pgdir a pte s s1 l l1 ->
  let s2 := set_mem (fun m => store32 m pte (Z.lor (Z.lor pa perm) PTE_P)) s1 in
  pt_step pgdir s s2 l l1 /\
  (forall va, is_va va -> pte_at (kmemory s2) pgdir va =
     if va / 4096 =? a / 4096 then map_entry pa perm 0 else pte_at (kmemory s) pgdir va).
Proof.
  intros Ha [W1 _ W2 -> W3] s2.
  assert (Em : kmemory s2 = set_pte (kmemory s1) pgdir a (Z.lor (Z.lor pa perm) PTE_P)) by done.
  pose proof (ps_pt _ _ _ _ _ W1) as Pt1. pose proof (ps_free _ _ _ _ _ W1) as Hf1.
  split.
  - eapply pt_step_trans; [exact W1|]. by eapply (set_pte_step (kmemory s1) pgdir a).
  - intros va Hva. rewrite Em. rewrite (set_pte_pte (kmemory s1) pgdir a _ l1) by done.
    unfold map_entry. by rewrite Z.mul_0_r, Z.add_0_r, W3.
Qed.

Lemma mappages_step pgdir a last pa perm s l fuel :
  is_va a -> pt_ok (kmemory s) pgdir l -> free_list kend s l -> LkKmem ∉ held (kthr s) ->
  (has (pte_at (kmemory s) pgdir a) PTE_P = false /\ exists s2 l1,
     mappages_loop pgdir a last pa perm (S fuel) s =
       (if a =? last then ret 0
        else mappages_loop pgdir (u32 (a + PGSIZE)) last (u32 (pa + PGSIZE)) perm fuel) s2 /\
     pt_step pgdir s s2 l l1 /\ Z.of_nat (length l) = Z.of_nat (length l1) + absent (kmemory s) pgdir a /\
     has (pde (kmemory s2) pgdir (PDX a)) PTE_P = true /\
     forall va, is_va va -> pte_at (kmemory s2) pgdir va =
       if va / 4096 =? a / 4096 then map_entry pa perm 0 else pte_at (kmemory s) pgdir va) \/
  (l = [] /\ has (pde (kmemory s) pgdir (PDX a)) PTE_P = false /\ exists s1,
     mappages_loop pgdir a last pa perm (S fuel) s = Ok (-1) s1 /\ kmemory s1 = kmemory s /\
     pt_step pgdir s s1 l []) \/
  (mappages_loop pgdir a last pa perm (S fuel) s = Panic "remap" /\
   has (pte_at (kmemory s) pgdir a) PTE_P = true).
Proof.
  intros Ha Pt Hf Hl. cbn [mappages_loop].
  destruct (walk_alloc pgdir a s l) as [(pte & s1 & l1 & Hw & W & Hpte)|(-> & Hd & s1 & Hw & Hm & Ht & Hf1)];
    try done; rewrite (bind_Ok _ _ _ _ _ Hw).
  - destruct (Z.eqb_spec pte 0); [done|]. 
    destruct (map_one pgdir a pa perm pte s s1 l l1 Ha W) as [Hs Hp].
    destruct W as [W1 W0 W2 -> W3].
    assert (Hrd : rd32 (tab (kmemory s1) pgdir (PDX a) + 4 * PTX a) s1 = Ok (pte_at (kmemory s) pgdir a) s1).
    { rewrite <- W3 by done. unfold pte_at. by rewrite W2. }
    rewrite (bind_Ok _ _ _ _ _ Hrd).
    destruct (has (pte_at (kmemory s) pgdir a) PTE_P); [by right; right|].
    left. split; [done|]. eexists _, l1. split; [reflexivity|]. split; [done|]. split; [done|]. split; [|done].
    cbn [kmemory set_mem]. change (has (pde (set_pte (kmemory s1) pgdir a (Z.lor (Z.lor pa perm) PTE_P)) pgdir (PDX a)) PTE_P = true).
    erewrite set_pte_pde; try done; [apply W1|by apply PDX_range].
  - right; left. split; [done|]. split; [done|]. exists s1. split; [done|]. split; [done|].
    split; rewrite ?Hm; try done; auto.
Qed.

(** The first page of the range decides. *)
Lemma map_result_fail pgdir a n pa perm s s' :
  is_va a -> is_va (a + 4096 * (n - 1)) -> 1 <= n -> kmemory s' = kmemory s -> pt_step pgdir s s' [] [] ->
  has (pde (kmemory s) pgdir (PDX a)) PTE_P = false ->
  map_result pgdir a n pa perm s [] (Ok (-1) s').
Proof.
  intros Ha Hlast Hn Hm Hs Hd. left. exists 0, s', []. zif; [lia|]. rewrite Hm.
  split; [done|]. split; [lia|]. split; [done|]. split; [by apply mapped_0|]. split; [lia|]. split.
  { zif; [|lia]. unfold tables, absent. rewrite Hd. pose proof (PDX_mono a (a + 4096 * (n - 1))). cbn [length]. unfold is_va in *. lia. }
  intros _. by rewrite Z.mul_0_r, Z.add_0_r.
Qed.

Lemma map_result_remap pgdir a n pa perm s l :
  1 <= n -> has (pte_at (kmemory s) pgdir a) PTE_P = true ->
  map_result pgdir a n pa perm s l (Panic "remap").
Proof. right. split; [done|]. exists 0. split; [lia|]. by rewrite Z.mul_0_r, Z.add_0_r. Qed.

(** The first page was mapped and the rest follows. *)
Lemma map_result_next pgdir a n pa perm s s2 l l1 r :
  is_va a -> is_va (a + 4096 * n) -> a mod 4096 = 0 -> 1 <= n ->
  has (pte_at (kmemory s) pgdir a) PTE_P = false -> pt_step pgdir s s2 l l1 ->
  Z.of_nat (length l) = Z.of_nat (length l1) + absent (kmemory s) pgdir a ->
  has (pde (kmemory s2) pgdir (PDX a)) PTE_P = true ->
  (forall va, is_va va -> pte_at (kmemory s2) pgdir va =
     if va / 4096 =? a / 4096 then map_entry pa perm 0 else pte_at (kmemory s) pgdir va) ->
  map_result pgdir (a + 4096) n (pa + 4096) perm s2 l1 r ->
  map_result pgdir a (n + 1) pa perm s l r.
Proof.
  intros Ha Hlast Hal Hn Hfirst Hs Hlen Hpd Hp.
  pose proof (tables_S (kmemory s) (kmemory s2) pgdir a n Ha ltac:(unfold is_va in *; lia) Hpd) as Htab. unfold is_va in *.
  assert (Hnext : forall i, 0 <= i < n -> pte_at (kmemory s2) pgdir (a + 4096 + 4096 * i) =
                                         pte_at (kmemory s) pgdir (a + 4096 * (i + 1))).
  { intros i Hi. rewrite Hp by (unfold is_va; lia). zif; [zlia|]. f_equal. lia. }
  intros [(k & s' & l' & -> & Hk & Hs' & Hmp & Hnp & Hlen' & Hend)|[-> (i & Hi & Hpi)]].
  - left. exists (k + 1), s', l'.
    split; [do 2 f_equal; zif; zif; lia || done|]. split; [lia|].
    split; [by eapply pt_step_trans|].
    split; [eapply (mapped_S _ (kmemory s2)); try done; unfold is_va; lia|].
    split; [|split; [revert Hlen'; zif; zif; lia|]].
    + intros i Hi. destruct (Z.eq_dec i 0) as [->|]; [by rewrite Z.mul_0_r, Z.add_0_r|].
      replace i with (i - 1 + 1) by lia. rewrite <- Hnext by lia. apply Hnp. lia.
    + intros Hlt. replace (a + 4096 * (k + 1)) with (a + 4096 + 4096 * k) by lia. apply Hend. lia.
  - right. split; [done|]. exists (i + 1). split; [lia|]. by rewrite <- Hnext.
Qed.

Lemma mappages_loop_spec n :
  forall pgdir a pa perm s l fuel,
  is_va a -> a mod 4096 = 0 -> a + 4096 * Z.of_nat n < 4294967296 ->
  0 <= pa -> pa + 4096 * Z.of_nat n < 4294967296 ->
  pt_ok (kmemory s) pgdir l -> free_list kend s l -> LkKmem ∉ held (kthr s) -> (n < fuel)%nat ->
  map_result pgdir a (Z.of_nat n + 1) pa perm s l
    (mappages_loop pgdir a (a + 4096 * Z.of_nat n) pa perm fuel s).
Proof.
  induction n as [|n IH]; intros pgdir a pa perm s l fuel Ha Hal Hlast Hpa Hpl Pt Hf Hl Hfuel;
    (destruct fuel as [|fuel]; [lia|]); pose proof Ha as Ha'; unfold is_va in Ha';
    match goal with |- map_result _ _ _ _ _ _ _ (mappages_loop _ _ ?last _ _ _ _) =>
      destruct (mappages_step pgdir a last pa perm s l fuel Ha Pt Hf Hl)
        as [(Hn & s2 & l1 & -> & Hs & Hlen & Hpd & Hp)|[(-> & Hd & s1 & -> & Hm & Hs)|(-> & Hn)]] end;
    try (by apply map_result_fail; unfold is_va; [lia..|done|done|done]); try (by apply map_result_remap; [lia|..]).
  - left. exists 1, s2, l1. zif; [|lia]. repeat (split; [done|]). split; [|split].
    + by apply mapped_1.
    + intros i Hi. replace i with 0 by lia. by rewrite Z.mul_0_r, Z.add_0_r.
    + split; [|lia]. zif; [lia|]. rewrite tables_1. lia.
  - zif; [lia|]. unfold PGSIZE. rewrite !u32_small by lia.
    replace (Z.of_nat (S n) + 1) with (Z.of_nat n + 1 + 1) by lia.
    apply (map_result_next _ _ _ _ _ _ s2 _ l1); try done; try (unfold is_va; lia).
    replace (a + 4096 * Z.of_nat (S n)) with (a + 4096 + 4096 * Z.of_nat n) by lia.
    apply IH; try lia; [unfold is_va; lia|zlia|apply Hs|apply Hs|].
    by rewrite (ps_thr _ _ _ _ _ Hs).
Qed.

(** ** User memory *)

(** A fresh zeroed page mapped at [a], writable by the user. *)
Definition user_entry (pg : Z) : Z := u32 (Z.lor (Z.lor (v2p pg) (Z.lor PTE_W PTE_U)) PTE_P).

Lemma user_entry_spec pg :
  page_ok kend pg -> has (user_entry pg) PTE_P = true /\ has (user_entry pg) PTE_U = true /\
    p2v (PTE_ADDR (user_entry pg)) = pg.
Proof.
  intros (H1 & H2 & _ & H3). unfold user_entry, PTE_P, PTE_W, PTE_U.
  assert (Hv : 0 <= v2p pg < 4294967296 /\ v2p pg mod 4096 = 0) by (unfold v2p, KERNBASE; zlia).
  rewrite <- !Z.lor_assoc. change (Z.lor 2 (Z.lor 4 1)) with 7.
  assert (E : Z.lor (v2p pg) 7 = v2p pg + 7) by (rewrite (lor_low _ _ 12); [done|..]; try change (2 ^ 12) with 4096; lia).
  assert (Eu : u32 (Z.lor (v2p pg) 7) = Z.lor (v2p pg) 7) by (rewrite E; apply u32_small; zlia).
  rewrite Eu, !has_lor, PTE_ADDR_lor, p2v_v2p by lia.
  split; [|split]; [by rewrite orb_comm..|done].
Qed.

Lemma mappages_page pgdir a pa perm s :
  is_va a -> a mod 4096 = 0 -> mappages pgdir a PGSIZE pa perm s = mappages_loop pgdir a a pa perm 1 s.
Proof.
  unfold is_va. intros Ha Hal. unfold mappages, PGSIZE. rewrite !PGROUNDDOWN_sub, (u32_small a) by lia.
  replace (a - a mod 4096) with a by lia. rewrite (u32_small (a + 4096 - 1)) by zlia.
  replace (a + 4096 - 1 - (a + 4096 - 1) mod 4096) with a by zlia. by rewrite Z.sub_diag.
Qed.

Lemma kalloc_cons s pg l :
  free_list kend s (pg :: l) -> LkKmem ∉ held (kthr s) ->
  exists s1, kalloc s = Ok pg s1 /\ kmemory s1 = kmemory s /\ kthr s1 = kthr s /\
    free_list kend s1 l /\ pg <> 0 /\ page_ok kend pg /\ pg ∉ l.
Proof.
  intros Hf Hl. pose proof (kalloc_run s Hl) as Hk.
  destruct (free_list_kalloc kend _ _ _ _ Hf Hl Hk) as (Hz & Hf' & _). simpl in Hz.
  eexists. split; [rewrite Hk; by rewrite Hz at 1|]. split; [done|]. split; [done|]. split; [done|].
  destruct Hf as ((_ & Hne & _) & Hnd & Hok). apply NoDup_cons in Hnd as [Hn _].
  apply Forall_cons in Hok as [Hpg _]. done.
Qed.

Lemma mappages_one pgdir a pa perm s l :
  is_va a -> a mod 4096 = 0 -> 0 <= pa < 4294967296 -> pt_ok (kmemory s) pgdir l -> free_list kend s l ->
  LkKmem ∉ held (kthr s) -> has (pte_at (kmemory s) pgdir a) PTE_P = false -> l <> [] ->
  exists s' l', mappages pgdir a PGSIZE pa perm s = Ok 0 s' /\ pt_step pgdir s s' l l' /\
    mapped (kmemory s) (kmemory s') pgdir a 1 pa perm /\ (length l <= S (length l'))%nat.
Proof.
  intros Ha Hal Hpa Pt Hf Hl Hnp Hne. rewrite mappages_page by done. pose proof Ha as Ha'. unfold is_va in Ha'.
  pose proof (mappages_loop_spec 0 pgdir a pa perm s l 1) as R. rewrite Z.mul_0_r, Z.add_0_r in R.
  pose proof (absent_bounds (kmemory s) pgdir a).
  destruct R as [(k & s' & l' & Hr & Hk01 & S & M & _ & Hlen & Hend)|[_ (i & Hi & Hpi)]]; try done; try lia.
  2: { replace i with 0 in Hpi by lia. rewrite Z.mul_0_r, Z.add_0_r in Hpi. congruence. }
  change (Z.of_nat 0 + 1) with 1 in *. rewrite tables_1 in Hlen.
  assert (k = 1) as ->.
  { destruct (Z.eq_dec k 1) as [|]; [done|]. destruct Hend as [-> _]; [lia|].
    revert Hlen. zif; [|lia]. destruct l; [done|cbn [length]; lia]. }
  exists s', l'. split; [done|]. split; [done|]. split; [done|]. revert Hlen. zif; lia.
Qed.

(** The page at the head of the free list, filled by [f], and the page table. *)
Lemma fresh_page pgdir s pg l f :
  only (fun q => q = pg) (kmemory s) (f (kmemory s)) ->
  pt_ok (kmemory s) pgdir (pg :: l) -> free_list kend s (pg :: l) -> LkKmem ∉ held (kthr s) ->
  exists s1, kalloc s = Ok pg s1 /\ pg <> 0 /\
  let s2 := set_mem f s1 in
    pt_ok (kmemory s2) pgdir l /\ free_list kend s2 l /\ kthr s2 = kthr s /\
    only (fun q => q = pg) (kmemory s) (kmemory s2) /\
    (forall q, owned (kmemory s2) pgdir q <-> owned (kmemory s) pgdir q) /\
    (forall va, is_va va -> pte_at (kmemory s2) pgdir va = pte_at (kmemory s) pgdir va) /\
    ~ owned (kmemory s) pgdir pg /\ page_ok kend pg /\ pg ∉ l.
Proof.
  intros Hof Pt Hf Hl. destruct (kalloc_cons s pg l Hf Hl) as (s1 & Hk & Hm & Ht & Hf1 & Hne & Hpg & Hn).
  exists s1. split; [done|]. split; [done|]. intros s2.
  assert (Ho : only (fun q => q = pg) (kmemory s) (kmemory s2)) by (simpl; by rewrite Hm).
  assert (Hno : ~ owned (kmemory s) pgdir pg).
  { intros [->|(d & H & Hp & <-)]; [destruct (pt_dir_free _ _ _ Pt); set_solver|].
    destruct (pt_tab _ _ _ Pt d H Hp) as (_ & _ & []). set_solver. }
  destruct (pt_frame _ _ _ _ _ Pt Ho) as [F1 F2]; [by intros q ->|by intros q Hq ->|].
  split; [|split; [|split; [done|split; [done|split; [|split; [done|done]]]]]].
  - eapply pt_ok_same; [exact Pt|exact F1|set_solver].
  - eapply (free_list_only (fun q => q = pg) s1 s2); try done; [by rewrite Hm|by intros q ->].
  - intros q. unfold owned, tab. split; (intros [->|(d & H & Hp & <-)]; [by left|]); right; exists d;
      [rewrite F1 in * by done|rewrite F1 by done]; done.
Qed.

(** The address space after the pages [pgs] were mapped from [a] on: page
    number [p] of the address space gets the entry [ent p pg] and the bytes
    [byte p]. *)
Section placed.
Context (ent byte : Z -> Z -> Z).

Record placed (pgdir a : Z) (pgs : list Z) (s s' : kstate) (l l' : list Z) : Prop := mkPlaced {
  pl_pt : pt_ok (kmemory s') pgdir l';
  pl_free : free_list kend s' l';
  pl_list : l' `suffix_of` l;
  pl_thr : kthr s' = kthr s;
  pl_nodup : NoDup pgs;
  pl_pgs : forall pg, pg ∈ pgs -> pg ∈ l /\ (pg ∉ l') /\ ~ owned (kmemory s') pgdir pg;
  pl_owned : forall q, owned (kmemory s) pgdir q -> owned (kmemory s') pgdir q;
  pl_old : forall q, owned (kmemory s') pgdir q -> owned (kmemory s) pgdir q \/ (q ∈ l /\ q ∉ l');
  pl_pte : forall va, is_va va -> pte_at (kmemory s') pgdir va =
    match (if va / 4096 <? a / 4096 then None else pgs !! (Z.to_nat (va / 4096 - a / 4096))) with
    | Some pg => ent (va / 4096) pg
    | None => pte_at (kmemory s) pgdir va
    end;
  pl_byte : forall i pg k, pgs !! i = Some pg -> 0 <= k < 4096 ->
    load8 (kmemory s') (pg + k) = byte (a / 4096 + Z.of_nat i) k;
  pl_only : only (fun q => owned (kmemory s') pgdir q \/ q ∈ pgs) (kmemory s) (kmemory s')
}.

Lemma placed_nil pgdir a s l :
  pt_ok (kmemory s) pgdir l -> free_list kend s l -> placed pgdir a [] s s l l.
Proof.
  intros. split; try done; auto using NoDup_nil_2; try (intros ? Hx; by apply not_elem_of_nil in Hx).
  - intros va _. by zif.
Qed.

Lemma placed_page_ok pgdir a pgs s s' l l' q :
  free_list kend s l -> placed pgdir a pgs s s' l l' ->
  owned (kmemory s') pgdir q \/ q ∈ pgs -> page_ok kend q.
Proof.
  intros (_ & _ & Hok) G. rewrite Forall_forall in Hok. intros [[->|(d & H & Hp & <-)]|Hq].
  - apply (pt_dir _ _ _ (pl_pt _ _ _ _ _ _ _ G)).
  - by apply (pt_tab _ _ _ (pl_pt _ _ _ _ _ _ _ G)).
  - apply Hok. by apply (pl_pgs _ _ _ _ _ _ _ G).
Qed.

Lemma placed_cons pgdir a pg pgs s s1 s2 l l1 l2 :
  is_va a -> a mod 4096 = 0 -> free_list kend s l ->
  placed pgdir a [pg] s s1 l l1 -> placed pgdir (a + 4096) pgs s1 s2 l1 l2 ->
  placed pgdir a (pg :: pgs) s s2 l l2.
Proof.
  intros Ha Hal Hf G H. pose proof (pl_list _ _ _ _ _ _ _ G) as [k1 E1].
  pose proof (pl_list _ _ _ _ _ _ _ H) as [k2 E2].
  destruct (pl_pgs _ _ _ _ _ _ _ G pg) as (Hin & Hn1 & Hno1); [set_solver|].
  assert (Hno2 : ~ owned (kmemory s2) pgdir pg).
  { intros Ho. destruct (pl_old _ _ _ _ _ _ _ H pg Ho) as [?|[??]]; auto. }
  assert (Hnp : pg ∉ pgs) by (intros Hp; by apply (pl_pgs _ _ _ _ _ _ _ H) in Hp as [? _]).
  split; try apply H.
  - exists (k1 ++ k2). by rewrite E1, E2, <- app_assoc.
  - rewrite (pl_thr _ _ _ _ _ _ _ H). apply G.
  - constructor; [done|apply H].
  - intros q [->|Hq]%elem_of_cons.
    + split; [done|]. split; [|done]. intros Hx. apply Hn1. rewrite E2. set_solver.
    + destruct (pl_pgs _ _ _ _ _ _ _ H q Hq) as (? & ? & ?). rewrite E1. set_solver.
  - intros q Hq. by apply H, G.
  - intros q Hq. destruct (pl_old _ _ _ _ _ _ _ H q Hq) as [Hq'|[Hq1 Hq2]].
    + destruct (pl_old _ _ _ _ _ _ _ G q Hq') as [?|[??]]; [by left|]. right. subst. set_solver.
    + right. subst. set_solver.
  - intros va Hva. rewrite (pl_pte _ _ _ _ _ _ _ H), (pl_pte _ _ _ _ _ _ _ G) by done.
    unfold is_va in *. assert (E4 : (a + 4096) / 4096 = a / 4096 + 1) by zlia. rewrite E4.
    destruct (Z.ltb_spec (va / 4096) (a / 4096)); [zif; [done|lia]|].
    destruct (Z.eq_dec (va / 4096) (a / 4096)) as [->|E5].
    + zif; [|lia]. by rewrite Z.sub_diag.
    + zif; [lia|]. replace (Z.to_nat (va / 4096 - a / 4096))
        with (S (Z.to_nat (va / 4096 - (a / 4096 + 1)))) by lia. done.
  - intros [|i] q k Hi Hk; cbn in Hi.
    + injection Hi as <-. rewrite (pl_only _ _ _ _ _ _ _ H); [by apply (pl_byte _ _ _ _ _ _ _ G 0%nat)|].
      destruct Hf as (_ & _ & Hok). rewrite Forall_forall in Hok. pose proof (Hok _ Hin) as Hpg.
      intros q Hq Hqx. assert (pg <> q) by (intros ->; tauto).
      pose proof (placed_page_ok _ _ _ _ _ _ _ q (pl_free _ _ _ _ _ _ _ G) H Hq).
      pose proof (page_ok_disjoint kend pg q Hpg ltac:(done) ltac:(done)). unfold in_page in *. lia.
    + rewrite (pl_byte _ _ _ _ _ _ _ H i q k Hi Hk). f_equal. unfold is_va in *. zlia.
  - intros x Hx. rewrite (pl_only _ _ _ _ _ _ _ H), (pl_only _ _ _ _ _ _ _ G); [done|..].
    + intros q [Hq|Hq]; apply Hx; [left; by apply H|right; set_solver].
    + intros q [Hq|Hq]; apply Hx; [by left|right; set_solver].
Qed.

Lemma placed_one pgdir a pg perm f s l :
  only (fun q => q = pg) (kmemory s) (f (kmemory s)) ->
  (forall k, 0 <= k < 4096 -> load8 (f (kmemory s)) (pg + k) = byte (a / 4096) k) ->
  ent (a / 4096) pg = map_entry (v2p pg) perm 0 ->
  is_va a -> a mod 4096 = 0 -> pt_ok (kmemory s) pgdir (pg :: l) -> free_list kend s (pg :: l) ->
  LkKmem ∉ held (kthr s) -> has (pte_at (kmemory s) pgdir a) PTE_P = false -> l <> [] ->
  exists s1, kalloc s = Ok pg s1 /\ pg <> 0 /\ exists s' l',
    mappages pgdir a PGSIZE (v2p pg) perm (set_mem f s1) = Ok 0 s' /\
    placed pgdir a [pg] s s' (pg :: l) l' /\ (length l <= S (length l'))%nat.
Proof.
  intros Hof Hbyte Hent Ha Hal Pt Hf Hl Hnp Hne.
  destruct (fresh_page pgdir s pg l f Hof Pt Hf Hl) as (s1 & Hk & Hpg0 & Pt2 & Hf2 & Ht2 & Ho2 & How2 & Hp2 & Hno & Hpg & Hn).
  exists s1. split; [done|]. split; [done|].
  assert (Hm1 : kmemory s1 = kmemory s).
  { destruct (kalloc_cons s pg l Hf Hl) as (s1' & Hk' & Hm' & _). rewrite Hk in Hk'. by injection Hk' as <-. }
  set (s2 := set_mem _ s1) in *.
  destruct (mappages_one pgdir a (v2p pg) perm s2 l) as (s' & l' & Hr & [S1 S2 [k S3] S4 S5 S6 S7] & M & Hlen); try done.
  { unfold v2p, u32. zlia. }
  { by rewrite Ht2. }
  { by rewrite Hp2. }
  exists s', l'. split; [done|]. split; [|done].
  assert (Hno' : ~ owned (kmemory s') pgdir pg).
  { intros Hx. destruct (S6 pg Hx) as [Hx'|[? ?]]; [by apply How2 in Hx'|done]. }
  split; try done.
  - exists (pg :: k). by rewrite S3.
  - by rewrite S4.
  - apply NoDup_singleton.
  - intros q ->%list_elem_of_singleton. split; [set_solver|]. split; [|done]. rewrite S3 in Hn. set_solver.
  - intros q Hq. by apply S5, How2.
  - intros q Hq. destruct (S6 q Hq) as [Hx|[? ?]]; [left; by apply How2|right; set_solver].
  - intros va Hva. rewrite M by done. rewrite Hp2 by done.
    destruct (Z.ltb_spec (va / 4096) (a / 4096)); [zif; [lia|done]|].
    destruct (Z.eq_dec (va / 4096) (a / 4096)) as [->|].
    + zif; [|lia]. rewrite Z.sub_diag. simpl. by rewrite Hent.
    + zif; [lia|]. by rewrite lookup_ge_None_2 by (simpl; lia).
  - intros [|i] q x Hi Hx; [|done]. injection Hi as <-. rewrite Z.add_0_r, S7.
    + simpl. rewrite Hm1. by apply Hbyte.
    + intros q Hq Hqx. assert (pg <> q) by (intros ->; done).
      assert (page_ok kend q) by (destruct Hq as [->|(d & ? & ? & <-)]; [apply S1|by apply (pt_tab _ _ _ S1)]).
      pose proof (page_ok_disjoint kend pg q Hpg ltac:(done) ltac:(done)). unfold in_page in *. lia.
  - intros x Hx. rewrite S7 by (intros q Hq; apply Hx; by left).
    apply Ho2. intros q ->. apply Hx. right. set_solver.
Qed.

End placed.

(** Growing: fresh pages that are zero. *)
Definition grown : Z -> Z -> list Z -> kstate -> kstate -> list Z -> list Z -> Prop :=
  placed (fun _ => user_entry) (fun _ _ => 0).

Lemma allocuvm_loop_grows n :
  forall pgdir a oldsz newsz s l fuel,
  is_va a -> a mod 4096 = 0 -> a + 4096 * Z.of_nat n < 2147487744 ->
  a + 4096 * (Z.of_nat n - 1) < newsz <= a + 4096 * Z.of_nat n ->
  pt_ok (kmemory s) pgdir l -> free_list kend s l -> LkKmem ∉ held (kthr s) ->
  (forall i, 0 <= i < Z.of_nat n -> has (pte_at (kmemory s) pgdir (a + 4096 * i)) PTE_P = false) ->
  (2 * n <= length l)%nat -> (n < fuel)%nat ->
  exists s' l' pgs, allocuvm_loop kend pgdir a oldsz newsz fuel s = Ok newsz s' /\
    length pgs = n /\ grown pgdir a pgs s s' l l'.
Proof.
  induction n as [|n IH]; intros pgdir a oldsz newsz s l fuel Ha Hal Hmax Hsz Pt Hf Hl Habs Hlen Hfuel;
    (destruct fuel as [|fuel]; [lia|]); cbn [allocuvm_loop]; pose proof Ha as Ha'; unfold is_va in Ha'.
  - zif; [lia|]. exists s, l, []. split; [done|]. split; [done|]. by apply placed_nil.
  - zif; [|lia]. destruct l as [|pg l]; [simpl in Hlen; lia|]. simpl in Hlen.
    destruct (placed_one (fun _ => user_entry) (fun _ _ => 0) pgdir a pg (Z.lor PTE_W PTE_U) (fun m => memset m pg 0 PGSIZE) s l)
      as (s1 & Hk & Hpg & s2 & l2 & Hmp & G & Hl2); try done.
    { by apply only_memset. }
    { intros k Hk. rewrite load8_memset by (unfold PGSIZE; lia). unfold PGSIZE. zif; [done|lia]. }
    { unfold user_entry, map_entry. by rewrite Z.mul_0_r, Z.add_0_r. }
    { rewrite <- (Z.add_0_r a), <- (Z.mul_0_r 4096). apply Habs. lia. }
    { intros ->. simpl in Hlen. lia. }
    rewrite (bind_Ok _ _ _ _ _ Hk). destruct (Z.eqb_spec pg 0); [done|].
    unfold memset_k. rewrite (bind_Ok _ _ _ _ _ (eq_refl : modify _ s1 = Ok tt _)).
    rewrite (bind_Ok _ _ _ _ _ Hmp). unfold PGSIZE. rewrite u32_small by lia.
    destruct (IH pgdir (a + 4096) oldsz newsz s2 l2 fuel) as (s' & l' & pgs & Hr & Hpl & G');
      try lia; [unfold is_va; lia|zlia|apply G|apply G|by rewrite (pl_thr _ _ _ _ _ _ _ _ _ G)|..].
    + intros i Hi. rewrite (pl_pte _ _ _ _ _ _ _ _ _ G) by (unfold is_va; lia).
      rewrite lookup_ge_None_2 by (simpl; zlia). replace (a + 4096 + 4096 * i) with (a + 4096 * (i + 1)) by lia.
      rewrite <- (Habs (i + 1)) by lia. by destruct (_ <? _).
    + exists s', l', (pg :: pgs). split; [done|]. split; [simpl; lia|]. by eapply placed_cons.
Qed.

(** ** Copying to user memory *)

(** The frame behind a user address, and the pages of a buffer. *)
Definition frame (m : mem) (pgdir va : Z) : Z := p2v (PTE_ADDR (pte_at m pgdir va)).

Record user_buffer (m : mem) (pgdir va len : Z) : Prop := mkUserBuffer {
  ub_range : 0 <= va /\ 0 <= len /\ va + len <= 4294967296;
  ub_present : forall x, va <= x < va + len ->
    has (pte_at m pgdir x) PTE_P = true /\ has (pte_at m pgdir x) PTE_U = true;
  ub_frame : forall x, va <= x < va + len ->
    page_ok kend (frame m pgdir x) /\ ~ owned m pgdir (frame m pgdir x);
  ub_inj : forall x y, va <= x < va + len -> va <= y < va + len ->
    frame m pgdir x = frame m pgdir y -> x / 4096 = y / 4096
}.

Definition frames_of (m : mem) (pgdir va len q : Z) : Prop :=
  exists x, va <= x < va + len /\ q = frame m pgdir x.

Lemma pte_at_page m pgdir va va' :
  is_va va -> is_va va' -> va / 4096 = va' / 4096 -> pte_at m pgdir va = pte_at m pgdir va'.
Proof. intros H H' E. apply same_page in E as [E1 E2]; [|done..]. unfold pte_at. by rewrite E1, E2. Qed.

Lemma uva2ka_run pgdir va s :
  has (pte_at (kmemory s) pgdir va) PTE_P = true -> has (pte_at (kmemory s) pgdir va) PTE_U = true ->
  forall l, is_va va -> pt_ok (kmemory s) pgdir l ->
  uva2ka pgdir va s = Ok (frame (kmemory s) pgdir va) s.
Proof.
  intros Hp Hu l Hva Pt. unfold uva2ka, frame.
  destruct (has (pde (kmemory s) pgdir (PDX va)) PTE_P) eqn:Ed.
  2: { unfold pte_at in Hp. rewrite Ed in Hp. done. }
  rewrite (bind_Ok _ _ _ _ _ (walk_present pgdir va false s Ed)).
  pose proof (PTX_range va Hva). destruct (pt_tab _ _ _ Pt _ (PDX_range va Hva) Ed) as ((? & _) & _).
  zif; [lia|]. unfold bind, rd32, gets.
  assert (Er : load32 (kmemory s) (tab (kmemory s) pgdir (PDX va) + 4 * PTX va) = pte_at (kmemory s) pgdir va)
    by (unfold pte_at; by rewrite Ed).
  by rewrite Er, Hp, Hu.
Qed.

(** One memmove inside a frame of the buffer leaves the page table and the
    source bytes of the rest. *)
Lemma frames_only m pgdir va len l p n src :
  pt_ok m pgdir l -> user_buffer m pgdir va len -> frames_of m pgdir va len p ->
  forall off, 0 <= off -> off + n <= 4096 -> 0 <= n ->
  let m' := memmove m (p + off) src n in
  only (fun q => q = p) m m' /\
  (forall x, is_va x -> pte_at m' pgdir x = pte_at m pgdir x) /\ 
  (forall d, 0 <= d < 1024 -> pde m' pgdir d = pde m pgdir d).
Proof.
  intros Pt B (x0 & Hx0 & ->) off H1 H2 H3 m'. destruct (ub_frame _ _ _ _ B x0 Hx0) as [Hok Hno].
  assert (Ho : only (fun q => q = frame m pgdir x0) m m').
  { intros x Hx. unfold m'. rewrite load8_memmove by lia. specialize (Hx _ eq_refl).
    unfold in_page in Hx. zif; [lia|done]. }
  split; [done|].
  destruct (pt_frame _ _ _ _ _ Pt Ho) as [F1 F2]; [by intros q ->|by intros q Hq ->|]. done.
Qed.

Lemma user_buffer_rest m m' pgdir va len n :
  user_buffer m pgdir va len -> 0 <= n <= len ->
  (forall x, is_va x -> pte_at m' pgdir x = pte_at m pgdir x) ->
  (forall d, 0 <= d < 1024 -> pde m' pgdir d = pde m pgdir d) ->
  user_buffer m' pgdir (va + n) (len - n).
Proof.
  intros [B1 B2 B3 B4] Hn Hp Hd. unfold is_va in Hp.
  assert (Hf : forall x, va + n <= x < va + n + (len - n) -> frame m' pgdir x = frame m pgdir x).
  { intros x Hx. unfold frame. by rewrite Hp by lia. }
  split; [lia|..].
  - intros x Hx. rewrite Hp by lia. apply B2. lia.
  - intros x Hx. rewrite Hf by lia. destruct (B3 x) as [? Hno]; [lia|]. split; [done|].
    intros Ho. apply Hno. destruct Ho as [->|(d & Hdr & Hq & <-)]; [by left|].
    right. exists d. unfold tab in *. rewrite Hd in * by done. done.
  - intros x y Hx Hy. rewrite !Hf by lia. apply B4; lia.
Qed.

(** The result of copying [len] bytes at [buf] to user address [va]. *)
Definition copied (m m' : mem) (pgdir va buf len : Z) : Prop :=
  only (frames_of m pgdir va len) m m' /\
  (forall x, is_va x -> pte_at m' pgdir x = pte_at m pgdir x) /\
  forall i, 0 <= i < len -> load8 m' (frame m pgdir (va + i) + (va + i) mod 4096) = load8 m (buf + i).

Lemma frames_apart m pgdir va len x y z :
  user_buffer m pgdir va len -> va <= x < va + len -> va <= y < va + len -> x / 4096 <> y / 4096 ->
  in_page (frame m pgdir x) z -> ~ in_page (frame m pgdir y) z.
Proof.
  intros B Hx Hy Hne H1 H2. destruct (ub_frame _ _ _ _ B x Hx) as [P1 _], (ub_frame _ _ _ _ B y Hy) as [P2 _].
  assert (frame m pgdir x <> frame m pgdir y) by (intros E; apply Hne; by apply (ub_inj _ _ _ _ B)).
  pose proof (page_ok_disjoint kend _ _ P1 P2 ltac:(done)). unfold in_page in *. lia.
Qed.

(** The bytes up to the end of the first page, then the rest. *)
Lemma copied_step m m' pgdir va buf len n l :
  pt_ok m pgdir l -> user_buffer m pgdir va len -> 0 < n <= len -> n <= 4096 - va mod 4096 ->
  n = len \/ n = 4096 - va mod 4096 ->
  (forall i x, 0 <= i < len -> va <= x < va + len -> ~ in_page (frame m pgdir x) (buf + i)) ->
  copied (memmove m (frame m pgdir va + va mod 4096) buf n) m' pgdir (va + n) (buf + n) (len - n) ->
  copied m m' pgdir va buf len.
Proof.
  intros Pt B Hn Hfit Hend Hsrc (C1 & C2 & C3). set (m1 := memmove _ _ _ _) in *.
  pose proof (ub_range _ _ _ _ B) as Hr.
  destruct (frames_only m pgdir va len l (frame m pgdir va) n buf Pt B) with (off := va mod 4096)
    as (F1 & F2 & F3); [exists va; split; [lia|done]|zlia..|]. fold m1 in F1, F2, F3.
  assert (Hf : forall x, va <= x < va + len -> frame m1 pgdir x = frame m pgdir x).
  { intros x Hx. unfold frame. rewrite F2 by (unfold is_va; lia). done. }
  assert (Hfirst : forall i, 0 <= i < n -> frame m pgdir (va + i) = frame m pgdir va).
  { intros i Hi. unfold frame. do 2 f_equal. apply pte_at_page; unfold is_va; [lia|lia|zlia]. }
  split; [|split].
  - intros x Hx. rewrite C1, F1; [done|..].
    + intros q ->. apply Hx. exists va. split; [lia|done].
    + intros q (y & Hy & ->). rewrite Hf by lia. apply Hx. exists y. split; [lia|done].
  - intros x Hx. by rewrite C2, F2.
  - intros i Hi. destruct (Z.ltb_spec i n).
    + rewrite C1.
      * unfold m1. rewrite Hfirst, load8_memmove by zlia. zif; [|zlia]. f_equal. zlia.
      * intros q (y & Hy & ->). rewrite Hf by lia.
        apply (frames_apart m pgdir va len (va + i) y _ B); [lia|lia|zlia|unfold in_page; zlia].
    + replace (va + i) with (va + n + (i - n)) by lia. rewrite <- Hf by lia. rewrite C3 by lia.
      rewrite F1; [f_equal; lia|]. intros q ->. replace (buf + n + (i - n)) with (buf + i) by lia.
      apply Hsrc; lia.
Qed.

Lemma copyout_loop_spec fuel :
  forall pgdir va buf len s l,
  pt_ok (kmemory s) pgdir l -> user_buffer (kmemory s) pgdir va len ->
  (forall i x, 0 <= i < len -> va <= x < va + len -> ~ in_page (frame (kmemory s) pgdir x) (buf + i)) ->
  (va mod 4096 + len + 4095) / 4096 < Z.of_nat fuel ->
  exists m', copyout_loop pgdir va buf len fuel s = Ok 0 (set_mem (fun _ => m') s) /\
    copied (kmemory s) m' pgdir va buf len.
Proof.
  induction fuel as [|fuel IH]; intros pgdir va buf len s l Pt B Hsrc Hfuel;
    pose proof (ub_range _ _ _ _ B) as Hr; [zlia|].
  cbn [copyout_loop]. destruct (Z.ltb_spec 0 len).
  2: { exists (kmemory s). split; [by destruct s|]. split; [done|]. split; [done|]. lia. }
  rewrite PGROUNDDOWN_sub. set (off := va mod 4096). assert (Hoff : 0 <= off < 4096) by (unfold off; zlia).
  assert (Epte : forall m, pte_at m pgdir (va - off) = pte_at m pgdir va).
  { intros m. apply pte_at_page; unfold is_va, off; zlia. }
  destruct (ub_present _ _ _ _ B va) as [Hp Hu]; [lia|].
  assert (Hk : uva2ka pgdir (va - off) s = Ok (frame (kmemory s) pgdir va) s).
  { rewrite (uva2ka_run pgdir (va - off) s) with (l := l); rewrite ?Epte; try done.
    - unfold frame. by rewrite Epte.
    - unfold is_va, off. zlia. }
  rewrite (bind_Ok _ _ _ _ _ Hk). destruct (ub_frame _ _ _ _ B va) as [Hok _]; [lia|].
  destruct (Z.eqb_spec (frame (kmemory s) pgdir va) 0) as [E0|_]; [destruct Hok; lia|].
  replace (va - (va - off)) with off by lia. unfold PGSIZE. set (n := Z.min (4096 - off) len).
  unfold memmove_k. rewrite (bind_Ok _ _ _ _ _ (eq_refl : modify _ s = Ok tt _)).
  set (s1 := set_mem _ s).
  destruct (frames_only (kmemory s) pgdir va len l (frame (kmemory s) pgdir va) n buf Pt B)
    with (off := off) as (F1 & F2 & F3); [exists va; split; [lia|done]|lia..|].
  assert (Hstep : forall m', copied (kmemory s1) m' pgdir (va + n) (buf + n) (len - n) ->
                             copied (kmemory s) m' pgdir va buf len).
  { intros m'. apply (copied_step _ _ _ _ _ _ _ l Pt B); unfold n, off in *; try done; lia. }
  destruct (Z.eq_dec n len) as [En|En].
  - exists (kmemory s1). split.
    + destruct fuel; [unfold off in *; zlia|]. cbn [copyout_loop]. zif; [lia|done].
    + apply Hstep. split; [done|]. split; [done|]. lia.
  - rewrite u32_small by lia. replace (va - off + 4096) with (va + n) by lia.
    destruct (IH pgdir (va + n) (buf + n) (len - n) s1 l) as (m' & Hc & Hcopied).
    + eapply pt_ok_same; [exact Pt|exact F3|done].
    + apply (user_buffer_rest (kmemory s)); [done|lia|exact F2|exact F3].
    + intros i x Hi Hx. replace (buf + n + i) with (buf + (n + i)) by lia.
      unfold frame. rewrite F2 by (unfold is_va; lia). apply Hsrc; lia.
    + unfold n, off in *. zlia.
    + exists m'. split; [by rewrite Hc|]. by apply Hstep.
Qed.

(** ** Releasing user memory *)

(** The frames [pgs] are mapped at consecutive pages from [a] on. *)
Record user_pages (m : mem) (pgdir a : Z) (pgs l : list Z) : Prop := mkUserPages {
  up_nodup : NoDup pgs;
  up_page : forall pg, pg ∈ pgs -> page_ok kend pg /\ (pg ∉ l) /\ ~ owned m pgdir pg;
  up_pte : forall i pg, pgs !! i = Some pg ->
    has (pte_at m pgdir (a + 4096 * Z.of_nat i)) PTE_P = true /\
    frame m pgdir (a + 4096 * Z.of_nat i) = pg
}.

(** kfree of a page outside the page table. *)
Lemma freed_page pgdir pg s l :
  page_ok kend pg -> pg ∉ l -> ~ owned (kmemory s) pgdir pg ->
  pt_ok (kmemory s) pgdir l -> free_list kend s l -> LkKmem ∉ held (kthr s) ->
  exists s1, kfree kend pg s = Ok tt s1 /\ pt_ok (kmemory s1) pgdir (pg :: l) /\
    free_list kend s1 (pg :: l) /\ kthr s1 = kthr s /\
    (forall d, 0 <= d < 1024 -> pde (kmemory s1) pgdir d = pde (kmemory s) pgdir d) /\
    (forall va, is_va va -> pte_at (kmemory s1) pgdir va = pte_at (kmemory s) pgdir va).
Proof.
  intros Hpg Hnl Hno Pt Hf Hl. pose proof (kfree_run kend pg s Hpg Hl) as Hk.
  pose proof (free_list_kfree kend _ _ _ _ Hf Hpg Hnl Hl Hk) as Hf1. set (s1 := mkK _ _ _ _ _) in Hk, Hf1.
  assert (Ho1 : only (fun q => q = pg) (kmemory s) (kmemory s1)).
  { eapply (only_trans _ (fun q => q = pg)); [by apply (only_memset _ _ pg)| |done].
    apply (only_store32 _ _ pg); unfold in_page; lia || done. }
  destruct (pt_frame _ _ _ _ _ Pt Ho1) as [F1 F2]; [by intros q ->|by intros q Hq ->|].
  exists s1. split; [done|]. split; [|done].
  destruct (pt_ok_same _ _ _ _ l Pt F1) as [P1 P2 P3 P4]; [done|]. split; try done.
  - intros Hx. apply elem_of_cons in Hx as [Hx|Hx]; [|done]. apply Hno. by left.
  - intros d Hd Hp1. destruct (P3 d Hd Hp1) as (Q1 & Q2 & Q3). split; [done|]. split; [done|].
    unfold tab in *. rewrite F1 in * by done. intros Hx. apply elem_of_cons in Hx as [Hx|Hx]; [|done].
    apply Hno. right. exists d. done.
Qed.

(** One turn of the loop of deallocuvm at a mapped page. *)
Lemma dealloc_run pgdir a oldsz fuel s s1 l :
  is_va a -> a < oldsz -> KERNBASE < kend -> pt_ok (kmemory s) pgdir l ->
  has (pte_at (kmemory s) pgdir a) PTE_P = true -> page_ok kend (frame (kmemory s) pgdir a) ->
  kfree kend (frame (kmemory s) pgdir a) s = Ok tt s1 ->
  deallocuvm_loop kend pgdir a oldsz (S fuel) s =
  deallocuvm_loop kend pgdir (u32 (a + PGSIZE)) oldsz fuel
    (set_mem (fun m => store32 m (tab (kmemory s) pgdir (PDX a) + 4 * PTX a) 0) s1).
Proof.
  intros Ha Hold Hkb Pt Hp Hpg Hk. set (m := kmemory s) in *.
  destruct (has (pde m pgdir (PDX a)) PTE_P) eqn:Ed; [|unfold pte_at in Hp; by rewrite Ed in Hp].
  destruct (pt_tab _ _ _ Pt _ (PDX_range a Ha) Ed) as ((Ht & _) & _). pose proof (PTX_range a Ha).
  cbn [deallocuvm_loop]. zif; [|lia]. rewrite (bind_Ok _ _ _ _ _ (walk_present pgdir a false s Ed)).
  fold m. zif; [lia|]. erewrite bind_Ok; [reflexivity|].
  assert (Hrd : rd32 (tab m pgdir (PDX a) + 4 * PTX a) s = Ok (pte_at m pgdir a) s)
    by (unfold pte_at; by rewrite Ed).
  rewrite (bind_Ok _ _ _ _ _ Hrd), Hp. unfold frame in Hk, Hpg.
  destruct (Z.eqb_spec (PTE_ADDR (pte_at m pgdir a)) 0) as [Ez|_].
  { rewrite Ez in Hpg. change (p2v 0) with KERNBASE in Hpg. destruct Hpg as (_ & _ & ? & _). lia. }
  by rewrite (bind_Ok _ _ _ _ _ Hk).
Qed.

Lemma dealloc_one pgdir a pg pgs s l :
  is_va a -> a mod 4096 = 0 -> a + 4096 * Z.of_nat (length pgs) < 4294967296 -> KERNBASE < kend ->
  pt_ok (kmemory s) pgdir l -> free_list kend s l -> LkKmem ∉ held (kthr s) ->
  user_pages (kmemory s) pgdir a (pg :: pgs) l ->
  exists s', (forall oldsz fuel, a < oldsz ->
      deallocuvm_loop kend pgdir a oldsz (S fuel) s =
      deallocuvm_loop kend pgdir (u32 (a + PGSIZE)) oldsz fuel s') /\
    pt_ok (kmemory s') pgdir (pg :: l) /\ free_list kend s' (pg :: l) /\ kthr s' = kthr s /\
    (forall x, is_va x -> pte_at (kmemory s') pgdir x =
       if x / 4096 =? a / 4096 then 0 else pte_at (kmemory s) pgdir x) /\
    user_pages (kmemory s') pgdir (a + 4096) pgs (pg :: l).
Proof.
  intros Ha Hal Hmax Hkb Pt Hf Hl [U1 U2 U3]. apply NoDup_cons in U1 as [Hnp U1].
  destruct (U2 pg) as (Hpg & Hnl & Hno); [set_solver|]. destruct (U3 0%nat pg) as [Hp Hfr]; [done|].
  rewrite Z.mul_0_r, Z.add_0_r in Hp, Hfr.
  destruct (freed_page pgdir pg s l) as (s1 & Hk & Pt1 & Hf1 & Ht1 & F1 & F2); try done.
  pose proof (PDX_range a Ha) as Hr.
  assert (Ed : has (pde (kmemory s) pgdir (PDX a)) PTE_P = true).
  { destruct (has (pde _ _ _) _) eqn:Ed; [done|]. unfold pte_at in Hp. by rewrite Ed in Hp. }
  assert (Ed1 : has (pde (kmemory s1) pgdir (PDX a)) PTE_P = true) by (by rewrite F1).
  assert (Et : tab (kmemory s1) pgdir (PDX a) = tab (kmemory s) pgdir (PDX a)) by (unfold tab; by rewrite F1).
  set (s2 := set_mem (fun m => store32 m (tab (kmemory s) pgdir (PDX a) + 4 * PTX a) 0) s1).
  assert (Em : kmemory s2 = set_pte (kmemory s1) pgdir a 0) by (unfold set_pte; by rewrite Et).
  assert (Ep2 : forall x, is_va x -> pte_at (kmemory s2) pgdir x =
                 if x / 4096 =? a / 4096 then 0 else pte_at (kmemory s) pgdir x).
  { intros x Hx. rewrite <- F2, Em by done. by apply (set_pte_pte (kmemory s1) pgdir a 0 (pg :: l)). }
  pose proof (set_pte_step (kmemory s1) pgdir a 0 (pg :: l) Ha Pt1 Ed1 s1 s2 eq_refl Em eq_refl eq_refl Hf1) as S2.
  exists s2. split; [|split; [apply S2|split; [apply S2|split; [done|split; [exact Ep2|]]]]].
  { intros oldsz fuel Hold. apply (dealloc_run _ _ _ _ _ s1 l); try done; by rewrite Hfr. }
  split; [done|..].
  - intros q Hq. destruct (U2 q) as (Q1 & Q2 & Q3); [set_solver|]. split; [done|]. split; [set_solver|].
    intros Ho. rewrite Em in Ho. apply (set_pte_owned (kmemory s1) pgdir a 0 (pg :: l)) in Ho; try done. apply Q3.
    destruct Ho as [->|(d & Hdr & Hq' & <-)]; [by left|]. right. exists d. unfold tab in *.
    rewrite F1 in * by done. done.
  - intros i q Hi. pose proof (lookup_lt_Some _ _ _ Hi) as Hlt. unfold is_va in *.
    destruct (U3 (S i) q Hi) as [V1 V2].
    assert (Ev : pte_at (kmemory s2) pgdir (a + 4096 + 4096 * Z.of_nat i) =
                 pte_at (kmemory s) pgdir (a + 4096 * Z.of_nat (S i))).
    { rewrite Ep2 by lia. zif; [zlia|]. f_equal. lia. }
    unfold frame in *. by rewrite Ev.
Qed.

Lemma deallocuvm_loop_spec pgs :
  forall pgdir a oldsz s l fuel,
  is_va a -> a mod 4096 = 0 -> a + 4096 * Z.of_nat (length pgs) < 4294967296 -> KERNBASE < kend ->
  a + 4096 * (Z.of_nat (length pgs) - 1) < oldsz <= a + 4096 * Z.of_nat (length pgs) ->
  pt_ok (kmemory s) pgdir l -> free_list kend s l -> LkKmem ∉ held (kthr s) ->
  user_pages (kmemory s) pgdir a pgs l -> (length pgs < fuel)%nat ->
  exists s', deallocuvm_loop kend pgdir a oldsz fuel s = Ok tt s' /\
    pt_ok (kmemory s') pgdir (rev pgs ++ l) /\ free_list kend s' (rev pgs ++ l) /\ kthr s' = kthr s /\
    (forall x, is_va x -> pte_at (kmemory s') pgdir x =
       if (a / 4096 <=? x / 4096) && (x / 4096 <? a / 4096 + Z.of_nat (length pgs)) then 0
       else pte_at (kmemory s) pgdir x).
Proof.
  induction pgs as [|pg pgs IH]; intros pgdir a oldsz s l fuel Ha Hal Hmax Hkb Hsz Pt Hf Hl U Hfuel;
    (destruct fuel as [|fuel]; [lia|]); simpl length in *.
  - exists s. cbn [deallocuvm_loop]. zif; [lia|]. do 4 (split; [done|]). intros x Hx. zif; [lia|done].
  - destruct (dealloc_one pgdir a pg pgs s l) as (s1 & Hrun & Pt1 & Hf1 & Ht1 & Hp1 & U1); try done; [lia|].
    unfold is_va in Ha. rewrite Hrun by lia. unfold PGSIZE. rewrite u32_small by lia.
    destruct (IH pgdir (a + 4096) oldsz s1 (pg :: l) fuel) as (s' & Hr & Pt2 & Hf2 & Ht2 & Hp2); try done;
      try (unfold is_va; lia); [zlia|by rewrite Ht1|].
    exists s'. cbn [rev]. rewrite <- app_assoc. split; [done|]. split; [done|]. split; [done|].
    split; [congruence|]. intros x Hx. rewrite Hp2, Hp1 by done.
    assert (E4 : (a + 4096) / 4096 = a / 4096 + 1) by zlia. rewrite E4.
    destruct (Z.eqb_spec (x / 4096) (a / 4096)); zif; zif; done || lia.
Qed.
End pt.
