(* ===== verification/Uvm.v ===== *)
(** * Correctness of user address spaces

    The theorems on mappages, allocuvm, deallocuvm and copyout, stated with
    the page-table view of VmSpec, and a concrete address space. *)

From S2P Require Import Prelude Monad Locks Memory CString Mmu Kalloc Vm VmSpec.

Open Scope Z_scope.
Open Scope kernel_scope.

Section claims.
Context (kend : Z).

(** mappages maps every page of the range to consecutive physical pages
    with the permissions given and changes no other entry; it fails with -1
    exactly when a page table is needed and no page is free, having mapped a
    prefix of the range, and it panics rather than overwrite an entry that is
    present. *)
Theorem mappages_correct pgdir va size pa perm s l :
  0 <= va -> 1 <= size -> va + size <= 4294967296 ->
  0 <= pa -> pa + size + 4096 <= 4294967296 ->
  pt_ok kend (kmemory s) pgdir l -> free_list kend s l -> LkKmem ∉ held (kthr s) ->
  map_result kend pgdir (va - va mod 4096) ((va + size - 1) / 4096 - va / 4096 + 1) pa perm s l
    (mappages pgdir va size pa perm s).
Proof.
  intros Hva Hsz Hend Hpa Hpe Pt Hf Hl. unfold mappages. rewrite !PGROUNDDOWN_sub, !u32_small by zlia.
  set (a := va - va mod 4096). set (last := va + size - 1 - (va + size - 1) mod 4096).
  set (n := Z.to_nat ((last - a) / 4096)).
  assert (Ha : 0 <= a < 4294967296 /\ a mod 4096 = 0) by (unfold a; zlia).
  assert (El : last = a + 4096 * Z.of_nat n) by (unfold n, last, a; zlia).
  replace ((va + size - 1) / 4096 - va / 4096 + 1) with (Z.of_nat n + 1) by (unfold n, last, a; zlia).
  unfold PGSIZE. rewrite El. replace (a + 4096 * Z.of_nat n - a) with (4096 * Z.of_nat n) by lia.
  apply mappages_loop_spec; unfold is_va; try done; try lia; unfold last, a in El; zlia.
Qed.

(** Growing an address space with memory to spare maps a distinct, zeroed
    page, writable by the user, at every page between the two sizes and
    changes no other entry; nothing outside the page table and those pages is
    written. *)
Theorem allocuvm_correct pgdir oldsz newsz s l :
  0 <= oldsz <= newsz -> newsz < KERNBASE ->
  pt_ok kend (kmemory s) pgdir l -> free_list kend s l -> LkKmem ∉ held (kthr s) ->
  (forall va, PGROUNDUP oldsz <= va < newsz -> has (pte_at (kmemory s) pgdir va) PTE_P = false) ->
  2 * (PGROUNDUP newsz / 4096 - PGROUNDUP oldsz / 4096) <= Z.of_nat (length l) ->
  exists s' l' pgs, allocuvm kend pgdir oldsz newsz s = Ok newsz s' /\
    Z.of_nat (length pgs) = PGROUNDUP newsz / 4096 - PGROUNDUP oldsz / 4096 /\
    grown kend pgdir (PGROUNDUP oldsz) pgs s s' l l'.
Proof.
  intros Hs Hk Pt Hf Hl Habs Hlen. unfold KERNBASE in Hk.
  destruct (PGROUNDUP_spec oldsz) as [R1 R2]; [lia|]. destruct (PGROUNDUP_spec newsz) as [R3 R4]; [lia|].
  unfold allocuvm, KERNBASE. zif; [lia|]. zif; [lia|].
  set (a := PGROUNDUP oldsz) in *. set (b := PGROUNDUP newsz) in *.
  destruct (allocuvm_loop_grows kend (Z.to_nat (b / 4096 - a / 4096)) pgdir a oldsz newsz s l
              (S (Z.to_nat (newsz / PGSIZE + 1)))) as (s' & l' & pgs & Hr & Hpl & G);
    try done; try (unfold is_va; zlia).
  - intros i Hi. apply Habs. zlia.
  - unfold PGSIZE. zlia.
  - exists s', l', pgs. split; [done|]. split; [zlia|done].
Qed.

(** allocuvm does not look at the result of mappages: with one free page
    left and no table for the new page it still reports success, the page is
    not mapped, and it is no longer on the free list. *)
Theorem allocuvm_unmapped pgdir oldsz newsz s pg :
  0 <= oldsz <= newsz -> PGROUNDUP oldsz < newsz <= PGROUNDUP oldsz + 4096 -> newsz < KERNBASE ->
  pt_ok kend (kmemory s) pgdir [pg] -> free_list kend s [pg] -> LkKmem ∉ held (kthr s) ->
  has (pde (kmemory s) pgdir (PDX (PGROUNDUP oldsz))) PTE_P = false ->
  exists s', allocuvm kend pgdir oldsz newsz s = Ok newsz s' /\
    pte_at (kmemory s') pgdir (PGROUNDUP oldsz) = 0 /\ free_list kend s' [].
Proof.
  intros Ho Hn Hk Pt Hf Hl Hd. unfold KERNBASE in Hk. set (a := PGROUNDUP oldsz) in *.
  destruct (PGROUNDUP_spec oldsz) as [R1 R2]; [lia|]. fold a in R1, R2.
  assert (Ha : is_va a) by (unfold is_va; lia).
  destruct (fresh_page kend pgdir s pg [] (fun m => memset m pg 0 PGSIZE) (only_memset _ _ pg 0 eq_refl) Pt Hf Hl) as (s1 & Hk1 & Hpg0 & Pt2 & Hf2 & Ht2 & Ho2 & How2 & Hp2 & Hno & _).
  set (s2 := set_mem _ s1) in *.
  assert (Hd2 : has (pde (kmemory s2) pgdir (PDX a)) PTE_P = false).
  { destruct (has (pde (kmemory s2) _ _) _) eqn:E2; [|done].
    destruct (pt_frame kend (fun q => q = pg) _ (kmemory s2) _ _ Pt Ho2) as [F1 _].
    - intros q ->. destruct Hf as (_ & _ & Hok). by apply Forall_cons in Hok as [? _].
    - by intros q Hq ->.
    - rewrite F1 in E2 by (by apply PDX_range). congruence. }
  destruct (walk_fails kend pgdir a s2 Hd2 Hf2) as (s3 & Hw & Hm3 & Ht3 & Hf3); [by rewrite Ht2|].
  exists s3. split; [|split; [|done]].
  - unfold allocuvm, KERNBASE. zif; [lia|]. zif; [lia|]. fold a. cbn [allocuvm_loop]. zif; [|lia].
    rewrite (bind_Ok _ _ _ _ _ Hk1). destruct (Z.eqb_spec pg 0); [done|].
    unfold memset_k. rewrite (bind_Ok _ _ _ _ _ (eq_refl : modify (set_mem (fun m => memset m pg 0 PGSIZE)) s1 = Ok tt s2)).
    assert (Hmp : mappages pgdir a PGSIZE (v2p pg) (Z.lor PTE_W PTE_U) s2 = Ok (-1) s3).
    { rewrite mappages_page by done. cbn [mappages_loop]. by rewrite (bind_Ok _ _ _ _ _ Hw). }
    rewrite (bind_Ok _ _ _ _ _ Hmp). unfold PGSIZE. rewrite u32_small by lia.
    destruct (Z.to_nat (newsz / 4096 + 1)) eqn:En; [zlia|]. cbn [allocuvm_loop]. zif; [lia|done].
  - rewrite Hm3. unfold pte_at. by rewrite Hd2.
Qed.

(** Shrinking an address space returns the frame of every page between the
    two sizes to the free list and clears exactly those entries. *)
Theorem deallocuvm_correct pgdir oldsz newsz pgs s l :
  0 <= newsz < oldsz -> oldsz <= KERNBASE -> KERNBASE < kend ->
  Z.of_nat (length pgs) = PGROUNDUP oldsz / 4096 - PGROUNDUP newsz / 4096 ->
  pt_ok kend (kmemory s) pgdir l -> free_list kend s l -> LkKmem ∉ held (kthr s) ->
  user_pages kend (kmemory s) pgdir (PGROUNDUP newsz) pgs l ->
  exists s', deallocuvm kend pgdir oldsz newsz s = Ok newsz s' /\
    free_list kend s' (rev pgs ++ l) /\ pt_ok kend (kmemory s') pgdir (rev pgs ++ l) /\
    forall x, is_va x -> pte_at (kmemory s') pgdir x =
      if (PGROUNDUP newsz <=? x) && (x <? PGROUNDUP oldsz) then 0 else pte_at (kmemory s) pgdir x.
Proof.
  intros Hs Hk Hke Hlen Pt Hf Hl U. unfold KERNBASE in Hk, Hke.
  destruct (PGROUNDUP_spec oldsz) as [R1 R2]; [lia|]. destruct (PGROUNDUP_spec newsz) as [R3 R4]; [lia|].
  unfold deallocuvm. zif; [lia|]. set (a := PGROUNDUP newsz) in *. set (b := PGROUNDUP oldsz) in *.
  destruct (deallocuvm_loop_spec kend pgs pgdir a oldsz s l (S (Z.to_nat (oldsz / PGSIZE + 1))))
    as (s' & Hr & Pt' & Hf' & _ & Hp); try done; try (unfold is_va, KERNBASE, PGSIZE; zlia).
  exists s'. rewrite (bind_Ok _ _ _ _ _ Hr). split; [done|]. split; [done|]. split; [done|].
  intros x Hx. rewrite Hp by done. zif; zif; done || zlia.
Qed.

(** Copyout to a user buffer copies every byte to the frame behind its
    address, leaves all translations as they were and writes no byte outside
    the frames of the buffer. *)
Theorem copyout_correct pgdir va p len s l :
  pt_ok kend (kmemory s) pgdir l -> user_buffer kend (kmemory s) pgdir va len ->
  (forall i x, 0 <= i < len -> va <= x < va + len -> ~ in_page (frame (kmemory s) pgdir x) (p + i)) ->
  exists m', copyout pgdir va p len s = Ok 0 (set_mem (fun _ => m') s) /\
    copied (kmemory s) m' pgdir va p len.
Proof.
  intros Pt B Hsrc. pose proof (ub_range _ _ _ _ _ B). unfold copyout.
  apply (copyout_loop_spec kend _ _ _ _ _ _ l); try done. unfold PGSIZE. zlia.
Qed.
End claims.

(** ** A concrete address space *)

Module UvmDemo.
Definition kend : Z := 2148532736.
Definition D : Z := 2148597760.
Definition page (i : Z) : Z := D + 4096 * i.

Definition zero : mem := fun _ => 0.

(** An empty directory at [D] and four free pages. *)
Definition m0 : mem := store32 (store32 (store32 zero (page 1) (page 2)) (page 2) (page 3)) (page 3) (page 4).
Definition s0 : kstate := mkK m0 true (page 1) 0 (mkThread [] []).

(** One table at page 1 that maps virtual page 0 to page 2. *)
Definition m1 : mem := store32 (store32 zero D (new_pde (page 1))) (page 1) (user_entry (page 2)).
Definition s1 : kstate := mkK m1 true 0 0 (mkThread [] []).

Lemma load32_zero a : load32 zero a = 0.
Proof. done. Qed.

Lemma page_demo_ok i : 0 <= i <= 16 -> page_ok kend (page i).
Proof. intros. unfold page_ok, page, D, kend, v2p, KERNBASE, PHYSTOP. zlia. Qed.

Lemma m0_pde d : 0 <= d < 1024 -> pde m0 D d = 0.
Proof. intros. unfold pde, m0, page, D. by rewrite !load32_store32_other by lia. Qed.

Lemma m0_pt l : Forall (fun p => p <> D) l -> pt_ok kend m0 D l.
Proof.
  intros Hl. rewrite Forall_forall in Hl. split.
  - by apply (page_demo_ok 0).
  - intros Hx. by apply (Hl D).
  - intros d Hd. by rewrite m0_pde.
  - intros d d' Hd Hd'. by rewrite m0_pde.
Qed.

Lemma s0_free : free_list kend s0 [page 1; page 2; page 3; page 4].
Proof.
  split; [repeat split; vm_compute; done|]. split.
  - apply (bool_decide_unpack _). vm_compute. done.
  - repeat constructor; by apply page_demo_ok.
Qed.

Lemma m1_pde d : 0 <= d < 1024 -> pde m1 D d = if d =? 0 then u32 (new_pde (page 1)) else 0.
Proof.
  intros. unfold pde, m1. rewrite load32_store32_other by (unfold page, D; lia).
  zif; [subst; by rewrite Z.mul_0_r, Z.add_0_r, load32_store32|]. by rewrite load32_store32_other by lia.
Qed.

Lemma m1_table d : 0 <= d < 1024 -> has (pde m1 D d) PTE_P = true -> d = 0 /\ tab m1 D d = page 1.
Proof.
  intros Hd. unfold tab. rewrite m1_pde by done. zif; [|done]. intros _. subst. split; [done|]. reflexivity.
Qed.

Lemma m1_pt l : page 1 ∉ l -> D ∉ l -> pt_ok kend m1 D l.
Proof.
  intros H1 H2. split; [by apply (page_demo_ok 0)|done|..].
  - intros d Hd Hp. destruct (m1_table d Hd Hp) as [_ ->]. split; [by apply page_demo_ok|]. done.
  - intros d d' Hd Hd' Hp Hp' _. destruct (m1_table d Hd Hp), (m1_table d' Hd' Hp'). congruence.
Qed.

Lemma m1_owned q : owned m1 D q -> q = D \/ q = page 1.
Proof. intros [->|(d & Hd & Hp & <-)]; [by left|]. right. by destruct (m1_table d Hd Hp). Qed.

Lemma m1_pte va : 0 <= va < 4096 -> pte_at m1 D va = user_entry (page 2).
Proof.
  intros Hva. rewrite (pte_at_page m1 D va 0); [reflexivity|..]; unfold is_va; zlia.
Qed.

Lemma mappages_correct_witness :
  map_result kend D (5000 - 5000 mod 4096) ((5000 + 4096 - 1) / 4096 - 5000 / 4096 + 1) (v2p (page 8)) PTE_W
    s0 [page 1; page 2; page 3; page 4] (mappages D 5000 4096 (v2p (page 8)) PTE_W s0).
Proof.
  apply (mappages_correct kend D 5000 4096 (v2p (page 8)) PTE_W s0 [page 1; page 2; page 3; page 4]).
  - lia.
  - lia.
  - lia.
  - vm_compute. done.
  - vm_compute. done.
  - apply m0_pt. repeat constructor; done.
  - exact s0_free.
  - apply not_elem_of_nil.
Defined.

Lemma allocuvm_correct_witness :
  exists s' l' pgs, allocuvm kend D 0 8000 s0 = Ok 8000 s' /\
    Z.of_nat (length pgs) = PGROUNDUP 8000 / 4096 - PGROUNDUP 0 / 4096 /\
    grown kend D (PGROUNDUP 0) pgs s0 s' [page 1; page 2; page 3; page 4] l'.
Proof.
  apply (allocuvm_correct kend D 0 8000 s0 [page 1; page 2; page 3; page 4]).
  - lia.
  - unfold KERNBASE. lia.
  - apply m0_pt. repeat constructor; done.
  - exact s0_free.
  - apply not_elem_of_nil.
  - intros va Hva. change (PGROUNDUP 0) with 0 in Hva. unfold pte_at. change (kmemory s0) with m0.
    rewrite m0_pde by (apply PDX_range; unfold is_va; lia). exact has_0.
  - vm_compute. done.
Defined.

Lemma allocuvm_unmapped_witness :
  exists s', allocuvm kend D 0 4096 (set_freelist (page 4) s0) = Ok 4096 s' /\
    pte_at (kmemory s') D (PGROUNDUP 0) = 0 /\ free_list kend s' [].
Proof.
  apply (allocuvm_unmapped kend D 0 4096 (set_freelist (page 4) s0) (page 4)).
  - lia.
  - change (PGROUNDUP 0) with 0. lia.
  - unfold KERNBASE. lia.
  - apply m0_pt. repeat constructor; done.
  - split; [repeat split; vm_compute; done|]. split; [apply NoDup_singleton|]. repeat constructor; by apply page_demo_ok.
  - apply not_elem_of_nil.
  - change (PGROUNDUP 0) with 0. change (kmemory _) with m0. rewrite m0_pde by (vm_compute; done). exact has_0.
Defined.

Lemma deallocuvm_correct_witness :
  exists s', deallocuvm kend D 4096 0 s1 = Ok 0 s' /\ free_list kend s' [page 2] /\
    pt_ok kend (kmemory s') D [page 2] /\
    forall x, is_va x -> pte_at (kmemory s') D x =
      if (PGROUNDUP 0 <=? x) && (x <? PGROUNDUP 4096) then 0 else pte_at m1 D x.
Proof.
  apply (deallocuvm_correct kend D 4096 0 [page 2] s1 []).
  - lia.
  - unfold KERNBASE. lia.
  - unfold KERNBASE, kend. lia.
  - vm_compute. done.
  - apply m1_pt; apply not_elem_of_nil.
  - split; [done|]. split; [apply NoDup_nil_2|constructor].
  - apply not_elem_of_nil.
  - split; [apply NoDup_singleton|..].
    + intros pg ->%list_elem_of_singleton. split; [by apply page_demo_ok|]. split; [apply not_elem_of_nil|].
      intros Ho. by destruct (m1_owned _ Ho).
    + intros [|i] pg Hi; [|done]. injection Hi as <-. split; reflexivity.
Defined.

Lemma copyout_correct_witness :
  exists m', copyout D 16 kend 5 s1 = Ok 0 (set_mem (fun _ => m') s1) /\ copied m1 m' D 16 kend 5.
Proof.
  assert (Hf : forall x, 16 <= x < 16 + 5 -> frame m1 D x = page 2).
  { intros x Hx. unfold frame. rewrite m1_pte by lia. reflexivity. }
  apply (copyout_correct kend D 16 kend 5 s1 []).
  - apply m1_pt; apply not_elem_of_nil.
  - split; [lia|..].
    + intros x Hx. change (kmemory s1) with m1. rewrite m1_pte by lia. split; reflexivity.
    + intros x Hx. change (kmemory s1) with m1. rewrite Hf by lia. split; [by apply page_demo_ok|].
      intros Ho. by destruct (m1_owned _ Ho).
    + intros x y Hx Hy _. zlia.
  - intros i x Hi Hx. change (kmemory s1) with m1. rewrite Hf by lia. unfold in_page, page, D, kend. lia.
Defined.
End UvmDemo.
