(* ===== verification/Kvm.v ===== *)
(** * vm.c: the kernel's part of every address space, and copying one

    setupkvm builds the table that maps the kernel; copyuvm gives fork() a
    copy of the user part.  Both are described through [pte_at], on top of the
    lemmas on mappages of VmSpec. *)

From S2P Require Import Prelude Monad Locks Memory CString Mmu Kalloc Vm VmSpec.

Open Scope Z_scope.
Open Scope kernel_scope.

Section kvm.
Context (kend : Z).

(** A range of whole pages. *)
Lemma mappages_range pgdir va n pa perm s l :
  0 <= va -> va mod 4096 = 0 -> 1 <= n -> va + 4096 * n <= 4294967296 ->
  0 <= pa -> pa + 4096 * n <= 4294967296 ->
  pt_ok kend (kmemory s) pgdir l -> free_list kend s l -> LkKmem ∉ held (kthr s) ->
  map_result kend pgdir va n pa perm s l (mappages pgdir va (4096 * n) pa perm s).
Proof.
  intros Hva Hal Hn Hend Hpa Hpe Pt Hf Hl. unfold mappages. rewrite !PGROUNDDOWN_sub, !u32_small by zlia.
  replace (va - va mod 4096) with va by lia.
  replace (va + 4096 * n - 1 - (va + 4096 * n - 1) mod 4096) with (va + 4096 * Z.of_nat (Z.to_nat (n - 1))) by zlia.
  replace n with (Z.of_nat (Z.to_nat (n - 1)) + 1) at 1 by lia. unfold PGSIZE.
  apply mappages_loop_spec; unfold is_va; try done; try lia; zlia.
Qed.

(** ** The table kmap *)

Definition km_pages (k : kmap_entry) : Z := u32 (km_end k - km_start k) / 4096.
Definition km_in (k : kmap_entry) (va : Z) : bool := (km_virt k <=? va) && (va <? km_virt k + 4096 * km_pages k).
Definition km_tables (k : kmap_entry) : Z := PDX (km_virt k + 4096 * (km_pages k - 1)) - PDX (km_virt k) + 1.

Definition kneed (ks : list kmap_entry) : Z := foldr (fun k n => km_tables k + n) 0 ks.

(** The entry that a list of ranges gives to an address. *)
Fixpoint kmap_pte (ks : list kmap_entry) (va : Z) : Z :=
  match ks with
  | [] => 0
  | k :: ks =>
      if km_in k va then map_entry (km_start k) (km_perm k) ((va - km_virt k) / 4096) else kmap_pte ks va
  end.

Record km_ok (k : kmap_entry) : Prop := mkKmOk {
  ko_virt : 0 <= km_virt k /\ km_virt k mod 4096 = 0 /\ km_virt k + 4096 * km_pages k <= 4294967296;
  ko_size : u32 (km_end k - km_start k) = 4096 * km_pages k /\ 1 <= km_pages k;
  ko_phys : 0 <= km_start k /\ km_start k + 4096 * km_pages k <= 4294967296
}.

(** No page is in two ranges. *)
Fixpoint km_apart (ks : list kmap_entry) : Prop :=
  match ks with
  | [] => True
  | k :: ks => Forall (fun k' => forall va, km_in k' va = true -> km_in k va = false) ks /\ km_apart ks
  end.

Lemma km_in_page k va : km_ok k ->
  (km_virt k / 4096 <=? va / 4096) && (va / 4096 <? km_virt k / 4096 + km_pages k) = km_in k va.
Proof. intros [(H1 & H2 & _) _ _]. unfold km_in. apply eq_true_iff_eq. rewrite !andb_true_iff, !Z.leb_le, !Z.ltb_lt. zlia. Qed.

Lemma km_tables_pos k : km_ok k -> 1 <= km_tables k.
Proof.
  intros [(H1 & _ & H2) [_ H3] _]. unfold km_tables.
  pose proof (PDX_mono (km_virt k) (km_virt k + 4096 * (km_pages k - 1))). unfold is_va in *. lia.
Qed.

(** One entry of the table. *)
Lemma map_one_range pgdir k s l : km_ok k ->
  pt_ok kend (kmemory s) pgdir l -> free_list kend s l -> LkKmem ∉ held (kthr s) ->
  (forall va, km_in k va = true -> has (pte_at (kmemory s) pgdir va) PTE_P = false) ->
  exists r s' l', mappages pgdir (km_virt k) (u32 (km_end k - km_start k)) (km_start k) (km_perm k) s = Ok r s' /\
    pt_step kend pgdir s s' l l' /\
    ((r = -1 /\ l' = [] /\ Z.of_nat (length l) < km_tables k) \/
     (r = 0 /\ Z.of_nat (length l) <= Z.of_nat (length l') + km_tables k /\
      forall va, is_va va -> pte_at (kmemory s') pgdir va =
        if km_in k va then map_entry (km_start k) (km_perm k) ((va - km_virt k) / 4096) else pte_at (kmemory s) pgdir va)).
Proof.
  intros K Pt Hf Hl Hno. pose proof K as [(V1 & V2 & V3) [S1 S2] [P1 P2]]. rewrite S1.
  assert (Htab : tables (kmemory s) pgdir (km_virt k) (km_pages k) <= km_tables k).
  { unfold tables, km_tables. pose proof (absent_bounds (kmemory s) pgdir (km_virt k)). lia. }
  destruct (mappages_range pgdir (km_virt k) (km_pages k) (km_start k) (km_perm k) s l)
    as [(j & s' & l' & -> & Hj & Hs & Hm & _ & Hlen & Hend)|[_ (i & Hi & Hpi)]]; try done; try lia.
  2:{ rewrite Hno in Hpi; [done|]. unfold km_in. apply andb_true_iff. rewrite Z.leb_le, Z.ltb_lt. lia. }
  eexists _, s', l'. split; [done|]. split; [done|]. revert Hlen. zif; intros Hlen.
  - left. split; [zif; [lia|done]|]. destruct Hend as [-> _]; [lia|]. cbn [length] in Hlen. split; [done|lia].
  - right. assert (j = km_pages k) as -> by lia. zif; [|lia]. split; [done|]. split; [lia|]. intros va Hva.
    rewrite Hm, km_in_page by done. destruct (km_in k va) eqn:Ek; [|done]. f_equal.
    unfold km_in in Ek. zbool. zlia.
Qed.

Lemma map_kernel_spec ks pgdir : forall s l,
  Forall km_ok ks -> km_apart ks ->
  pt_ok kend (kmemory s) pgdir l -> free_list kend s l -> LkKmem ∉ held (kthr s) ->
  Forall (fun k => forall va, km_in k va = true -> has (pte_at (kmemory s) pgdir va) PTE_P = false) ks ->
  exists r s' l', map_kernel pgdir ks s = Ok r s' /\ pt_step kend pgdir s s' l l' /\
    ((r = 0 /\ l' = [] /\ Z.of_nat (length l) < kneed ks) \/
     (r = pgdir /\ Z.of_nat (length l) <= Z.of_nat (length l') + kneed ks /\
      forall va, is_va va -> pte_at (kmemory s') pgdir va =
        if existsb (fun k => km_in k va) ks then kmap_pte ks va else pte_at (kmemory s) pgdir va)).
Proof.
  induction ks as [|k ks IH]; intros s l Hok Hap Pt Hf Hl Hno; cbn [map_kernel kneed foldr existsb kmap_pte].
  - exists pgdir, s, l. split; [done|]. split; [by apply pt_step_refl|]. right. split; [done|]. split; [lia|done].
  - apply Forall_cons in Hok as [K Hok], Hno as [Hk Hno]. destruct Hap as [Hd Hap].
    destruct (map_one_range pgdir k s l K Pt Hf Hl Hk) as (r & s1 & l1 & E & S1 & H1). rewrite (bind_Ok _ _ _ _ _ E).
    assert (Hpos : 0 <= kneed ks).
    { clear -Hok. induction Hok as [|k' ks' Hk' _ IH]; [done|]. cbn. pose proof (km_tables_pos k' Hk'). unfold kneed in IH. lia. }
    destruct H1 as [(-> & -> & Hlen)|(-> & Hlen & Hp)].
    { exists 0, s1, []. split; [done|]. split; [done|]. left. fold (kneed ks). split_and!; [done|done|lia]. }
    destruct (IH s1 l1) as (r & s' & l' & E' & S' & H'); [done|done|apply S1|apply S1|by rewrite (ps_thr _ _ _ _ _ _ S1)|..].
    { rewrite Forall_forall in Hd, Hno |- *. intros k' Hin va Hva. specialize (Hd k' Hin va Hva). rewrite Hp, Hd; [by apply (Hno k')|].
      rewrite Forall_forall in Hok. destruct (Hok k' Hin) as [(? & _ & ?) _ _]. unfold km_in, is_va in *. zbool; lia. }
    exists r, s', l'. split; [done|]. split; [by eapply pt_step_trans|]. fold (kneed ks).
    destruct H' as [(-> & -> & Hlen')|(-> & Hlen' & Hp')]; [left; split_and!; [done|done|lia]|right].
    split; [done|]. split; [lia|]. intros va Hva. rewrite Hp' by done. destruct (km_in k va) eqn:Ek; cbn [orb].
    + destruct (existsb _ ks) eqn:Ex; [|by rewrite Hp, Ek].
      apply existsb_exists in Ex as (k' & Hin & Hin'). rewrite Forall_forall in Hd. rewrite (Hd k') in Ek; [done|by apply list_elem_of_In|done].
    + destruct (existsb _ ks); [done|]. by rewrite Hp, Ek.
Qed.

(** ** setupkvm *)

(** The linker script puts the data of the kernel on a page of its own, after
    the text and below the end of physical memory. *)
Definition kdata_ok (kdata : Z) : Prop := kdata mod 4096 = 0 /\ KERNLINK < kdata < p2v PHYSTOP.

Ltac kmap_consts := unfold KERNLINK, p2v, v2p, KERNBASE, EXTMEM, PHYSTOP, DEVSPACE, PHYADD, PGSIZE in *.

Lemma kmap_ok kdata : kdata_ok kdata -> Forall km_ok (kmap kdata).
Proof.
  unfold kdata_ok. kmap_consts. intros [H1 H2].
  repeat (apply Forall_cons; split); [..|by apply Forall_nil];
    split; unfold km_pages; cbn [km_virt km_start km_end km_perm]; kmap_consts; zlia.
Qed.

Lemma kmap_apart kdata : kdata_ok kdata -> km_apart (kmap kdata).
Proof.
  unfold kdata_ok. kmap_consts. intros [H1 H2]. cbn [kmap km_apart].
  split_and!; [repeat (apply Forall_cons; split); try (by apply Forall_nil); intros va; unfold km_in, km_pages;
    cbn [km_virt km_start km_end km_perm]; kmap_consts; rewrite andb_true_iff, andb_false_iff, Z.leb_le, Z.ltb_lt, Z.leb_gt, Z.ltb_ge; zlia..|done].
Qed.

Lemma kmap_need kdata : kdata_ok kdata -> kneed (kmap kdata) <= 69.
Proof.
  unfold kdata_ok. kmap_consts. intros [H1 H2]. unfold kneed, kmap, km_tables, km_pages. cbn [foldr km_virt km_start km_end km_perm].
  kmap_consts. rewrite !PDX_div by zlia. zlia.
Qed.

(** What the kernel's part of an address space is: the direct map of physical
    memory and of the eight pages after it, the devices, nothing else; no
    entry for the user, and the text of the kernel read-only. *)
Definition kernel_va (va : Z) : bool :=
  ((KERNBASE <=? va) && (va <? p2v PHYSTOP + PHYADD)) || (DEVSPACE <=? va).

Definition kernel_phys (va : Z) : Z := if DEVSPACE <=? va then va else v2p va.

Record kernel_entry (kdata va e : Z) : Prop := mkKernelEntry {
  ke_present : has e PTE_P = kernel_va va;
  ke_user : has e PTE_U = false;
  ke_addr : kernel_va va = true -> PTE_ADDR e = kernel_phys va - va mod 4096;
  ke_write : has e PTE_W = kernel_va va && negb ((KERNLINK <=? va) && (va <? kdata))
}.

Lemma map_entry_bits pa perm i : (perm = 0 \/ perm = PTE_W) -> pa mod 4096 = 0 -> 0 <= pa -> 0 <= i ->
  pa + 4096 * i < 4294967296 ->
  has (map_entry pa perm i) PTE_U = false /\ has (map_entry pa perm i) PTE_W = negb (perm =? 0) /\
  PTE_ADDR (map_entry pa perm i) = pa + 4096 * i.
Proof.
  intros Hp Hal H0 Hi Hb. unfold map_entry. rewrite <- Z.lor_assoc. set (x := pa + 4096 * i) in *.
  assert (Hx : x mod 4096 = 0) by (unfold x; zlia).
  assert (Hf : Z.lor perm PTE_P = 1 \/ Z.lor perm PTE_P = 3) by (destruct Hp as [->| ->]; [by left|by right]).
  assert (E : forall f, f = 1 \/ f = 3 -> u32 (Z.lor x f) = Z.lor x f).
  { intros f Hf'. rewrite (lor_low x f 12) by (try change (2 ^ 12) with 4096; lia). apply u32_small. zlia. }
  rewrite E by done. rewrite !has_lor.
  assert (Hlow : forall k, k = 2 \/ k = 4 -> has x k = false).
  { intros k Hk. unfold has. replace x with (Z.shiftl (x / 4096) 12) by (rewrite Z.shiftl_mul_pow2 by lia; change (2 ^ 12) with 4096; zlia).
    assert (EL : Z.land (Z.shiftl (x / 4096) 12) k = 0); [|by rewrite EL].
    apply Z.bits_inj'. intros n Hn. rewrite Z.land_spec, Z.bits_0. destruct (Z_lt_dec n 12).
    - by rewrite Z.shiftl_spec_low by lia.
    - assert (Hk0 : Z.testbit k n = false); [|by rewrite Hk0, andb_false_r]. apply Z.bits_above_log2; [lia|].
      destruct Hk as [->| ->]; cbn; lia. }
  rewrite !Hlow by (unfold PTE_U, PTE_W; auto). cbn [orb].
  split; [by destruct Hp as [->| ->]|]. split; [by destruct Hp as [->| ->]|]. apply PTE_ADDR_lor; lia.
Qed.

(** One range of kmap. *)
Lemma range_kernel kdata va k : km_ok k -> km_in k va = true -> km_start k mod 4096 = 0 -> kernel_va va = true ->
  (km_perm k = 0 \/ km_perm k = PTE_W) -> (km_perm k =? 0) = (KERNLINK <=? va) && (va <? kdata) ->
  km_start k + (va - km_virt k) = kernel_phys va ->
  kernel_entry kdata va (map_entry (km_start k) (km_perm k) ((va - km_virt k) / 4096)).
Proof.
  intros [(V1 & V2 & V3) [S1 S2] [P1 P2]] Hin Hal Hk Hperm Hw Hph. unfold km_in in Hin. zbool.
  destruct (map_entry_bits (km_start k) (km_perm k) ((va - km_virt k) / 4096)) as (B1 & B2 & B3); try done; try zlia.
  split; rewrite ?Hk; [apply map_entry_present|done| |by rewrite B2, Hw]. intros _. rewrite B3, <- Hph. zlia.
Qed.

Lemma no_range_kernel kdata va : kernel_va va = false -> kernel_entry kdata va 0.
Proof. intros Hk. split; by rewrite ?Hk. Qed.

Ltac range_case :=
  apply range_kernel; [done|done|..];
  repeat match goal with H : km_ok _ |- _ => clear H end;
  unfold km_in, km_pages, kernel_va, kernel_phys in *; cbn [km_virt km_start km_end km_perm] in *; zbool;
  [..|unfold PTE_W; by auto|apply eq_true_iff_eq|]; kmap_consts;
  rewrite ?orb_true_iff, ?andb_true_iff, ?Z.leb_le, ?Z.ltb_lt, ?Z.eqb_eq; unfold PTE_W in *; try zif; zlia.

Lemma kmap_pte_kernel kdata va : kdata_ok kdata -> is_va va -> kernel_entry kdata va (kmap_pte (kmap kdata) va).
Proof.
  intros Hk Hva. pose proof (kmap_ok kdata Hk) as Hok. unfold kdata_ok in Hk. destruct Hk as [Hd1 Hd2]. unfold is_va in Hva.
  unfold kmap in *. cbn [kmap_pte].
  repeat match goal with
  | H : Forall km_ok (_ :: _) |- _ => apply Forall_cons in H as [? H]
  | |- kernel_entry _ _ (if km_in ?k va then _ else _) => destruct (km_in k va) eqn:?
  end; [range_case..|].
  apply no_range_kernel. unfold kernel_va, km_in, km_pages in *. cbn [km_virt km_start km_end km_perm] in *. kmap_consts.
  rewrite ?andb_false_iff, ?orb_false_iff, ?andb_false_iff, ?Z.leb_gt, ?Z.ltb_ge in *. zlia.
Qed.

(** A zeroed page is an empty directory. *)
Lemma empty_dir s pg l : free_list kend s (pg :: l) -> LkKmem ∉ held (kthr s) ->
  exists s1, kalloc s = Ok pg s1 /\ pg <> 0 /\
    let s2 := set_mem (fun m => memset m pg 0 PGSIZE) s1 in
    pt_ok kend (kmemory s2) pg l /\ free_list kend s2 l /\ kthr s2 = kthr s /\
    only (fun q => q = pg) (kmemory s) (kmemory s2) /\
    (forall d, 0 <= d < 1024 -> pde (kmemory s2) pg d = 0).
Proof.
  intros Hf Hl. destruct (kalloc_cons kend s pg l Hf Hl) as (s1 & Hk & Hm & Ht & Hf1 & H0 & Hpg & Hn).
  exists s1. split; [done|]. split; [done|]. cbv zeta. set (s2 := set_mem _ s1).
  assert (Ho : only (fun q => q = pg) (kmemory s1) (kmemory s2)) by (by apply only_memset).
  assert (Hz : forall d, 0 <= d < 1024 -> pde (kmemory s2) pg d = 0).
  { intros d Hd. unfold pde. cbn. apply load32_memset_zero; unfold PGSIZE; lia. }
  split; [split; [done|done|..]|split_and!; try done].
  - intros d Hd. by rewrite Hz.
  - intros d d' Hd Hd'. by rewrite Hz.
  - eapply (free_list_only kend (fun q => q = pg) s1 s2); try done. by intros q ->.
  - by rewrite <- Hm.
Qed.

Lemma empty_pte m pg va : is_va va -> (forall d, 0 <= d < 1024 -> pde m pg d = 0) -> pte_at m pg va = 0.
Proof. intros Hva Hz. unfold pte_at. rewrite Hz by (by apply PDX_range). done. Qed.

Lemma empty_owned m pg q : (forall d, 0 <= d < 1024 -> pde m pg d = 0) -> owned m pg q -> q = pg.
Proof. intros Hz [->|(d & Hd & Hp & _)]; [done|]. by rewrite Hz in Hp. Qed.

(** What setupkvm leaves: a table of pages that were free. *)
Record new_space (kdata d : Z) (s s' : kstate) (l l' : list Z) : Prop := mkNewSpace {
  ns_pt : pt_ok kend (kmemory s') d l';
  ns_free : free_list kend s' l';
  ns_list : l' `suffix_of` l;
  ns_thr : kthr s' = kthr s;
  ns_len : Z.of_nat (length l) <= Z.of_nat (length l') + 70;
  ns_owned : forall q, owned (kmemory s') d q -> q ∈ l /\ q ∉ l';
  ns_only : only (owned (kmemory s') d) (kmemory s) (kmemory s');
  ns_pte : forall va, is_va va -> kernel_entry kdata va (pte_at (kmemory s') d va)
}.

(** The table setupkvm builds maps physical memory and the eight pages
    after it at KERNBASE and the devices at their own addresses, and nothing
    else: no entry can be used from user mode, and the kernel's text cannot be
    written.  The table is made of pages that were free, no other page is
    written, and nothing is mapped twice.  Seventy free pages are enough; with
    fewer setupkvm can return 0. *)
Theorem setupkvm_correct kdata s l :
  kdata_ok kdata -> free_list kend s l -> LkKmem ∉ held (kthr s) ->
  exists d s' l', setupkvm kdata s = Ok d s' /\ free_list kend s' l' /\
    ((d = 0 /\ l' = [] /\ Z.of_nat (length l) < 70) \/ (d <> 0 /\ new_space kdata d s s' l l')).
Proof.
  intros Hk Hf Hl. unfold setupkvm. destruct l as [|pg l].
  - pose proof (kalloc_run s Hl) as Hr. destruct (free_list_kalloc kend _ _ _ _ Hf Hl Hr) as (Hz & Hf' & _). cbn in Hz, Hf'.
    eexists 0, _, []. split; [|split; [exact Hf'|left; done]]. by rewrite (bind_Ok _ _ _ _ _ Hr), Hz.
  - destruct (empty_dir s pg l Hf Hl) as (s1 & Hr & Hpg & Pt & Hf2 & Ht & Ho & Hz). cbv zeta in *.
    set (s2 := set_mem _ s1) in *. rewrite (bind_Ok _ _ _ _ _ Hr). destruct (Z.eqb_spec pg 0); [done|].
    unfold memset_k. rewrite (bind_Ok _ _ _ _ _ (eq_refl : modify (set_mem (fun m => memset m pg 0 PGSIZE)) s1 = Ok tt s2)). change (DEVSPACE <? p2v PHYSTOP) with false. cbv iota.
    destruct (map_kernel_spec (kmap kdata) pg s2 l) as (r & s' & l' & E & S & H);
      [by apply kmap_ok|by apply kmap_apart|done|done|by rewrite Ht|..].
    { pose proof (kmap_ok kdata Hk) as Hok. rewrite Forall_forall in Hok |- *. intros k Hin va Hva. rewrite empty_pte; [done| |done].
      destruct (Hok k Hin) as [(? & _ & ?) _ _]. unfold km_in, is_va in *. zbool. lia. }
    pose proof (kmap_need kdata Hk) as Hneed. exists r, s', l'. split; [done|]. split; [apply S|]. cbn [length].
    destruct H as [(-> & -> & Hlen)|(-> & Hlen & Hp)]; [left; split_and!; [done|done|lia]|right]. split; [done|].
    pose proof Hf as (_ & Hnd & _). apply NoDup_cons in Hnd as [Hn _]. pose proof (ps_list _ _ _ _ _ _ S) as [k1 Ek].
    split; try apply S; try (cbn [length]; lia).
    + exists (pg :: k1). by rewrite Ek.
    + by rewrite (ps_thr _ _ _ _ _ _ S).
    + intros q Hq. destruct (ps_old _ _ _ _ _ _ S q Hq) as [Hq'|[H1 H2]]; [|set_solver].
      apply empty_owned in Hq' as ->; [|done]. split; [set_solver|]. rewrite Ek in Hn. set_solver.
    + eapply (only_trans _ (owned (kmemory s') pg)); [|apply S|done]. intros x Hx. apply Ho. intros q ->. apply Hx. by left.
    + intros va Hva. rewrite Hp by done. pose proof (kmap_pte_kernel kdata va Hk Hva) as He.
      destruct (existsb _ _) eqn:Ex; [done|]. rewrite empty_pte by done.
      assert (Ez : kmap_pte (kmap kdata) va = 0); [|by rewrite Ez in He].
      clear -Ex. induction (kmap kdata) as [|k ks IH]; [done|]. cbn in *. destruct (km_in k va); [done|]. by apply IH.
Qed.

(** ** copyuvm *)

(** The pages below [sz] of an address space, none of them free. *)
Record user_space (m : mem) (pgdir sz : Z) (l : list Z) : Prop := mkUserSpace {
  us_pt : pt_ok kend m pgdir l;
  us_present : forall va, 0 <= va < sz -> has (pte_at m pgdir va) PTE_P = true;
  us_frame : forall va, 0 <= va < sz -> page_ok kend (frame m pgdir va) /\ frame m pgdir va ∉ l
}.

(** Another table, [d], that shares nothing with it. *)
Record beside (m : mem) (pgdir d sz : Z) (l : list Z) : Prop := mkBeside {
  bs_user : user_space m pgdir sz l;
  bs_owned : forall q, owned m pgdir q -> ~ owned m d q;
  bs_frame : forall va, 0 <= va < sz -> ~ owned m d (frame m pgdir va)
}.

(** Two memories that agree on the space below [sz]. *)
Definition same_space (pgdir sz : Z) (m m' : mem) : Prop :=
  (forall va, is_va va -> pte_at m' pgdir va = pte_at m pgdir va) /\
  (forall va x, 0 <= va < sz -> in_page (frame m pgdir va) x -> load8 m' x = load8 m x).

Lemma same_space_frame pgdir sz m m' va : same_space pgdir sz m m' -> is_va va -> frame m' pgdir va = frame m pgdir va.
Proof. intros [H _] Hva. unfold frame. by rewrite H. Qed.

Lemma same_space_trans pgdir sz m1 m2 m3 : sz <= KERNBASE ->
  same_space pgdir sz m1 m2 -> same_space pgdir sz m2 m3 -> same_space pgdir sz m1 m3.
Proof.
  unfold KERNBASE. intros Hsz H12 H23. split.
  - intros va Hva. destruct H12 as [H12 _], H23 as [H23 _]. by rewrite H23, H12.
  - intros va x Hva Hx. destruct H23 as [_ H23]. rewrite (H23 va).
    + by apply H12 with va.
    + done.
    + erewrite same_space_frame; [done|done|unfold is_va; lia].
Qed.

(** Changes to free pages and to the other table do not show. *)
Lemma space_kept (P : Z -> Prop) m m' pgdir sz l l' :
  sz <= KERNBASE -> user_space m pgdir sz l -> only P m m' -> l' `suffix_of` l ->
  (forall q, P q -> page_ok kend q) -> (forall q, owned m pgdir q -> ~ P q) ->
  (forall va, 0 <= va < sz -> ~ P (frame m pgdir va)) ->
  user_space m' pgdir sz l' /\ same_space pgdir sz m m' /\ (forall q, owned m' pgdir q -> owned m pgdir q).
Proof.
  unfold KERNBASE. intros Hsz [Pt Hp Hfr] Ho [k ->] HP Hno Hnf. destruct (pt_frame _ _ _ _ _ _ Pt Ho HP Hno) as [F1 F2].
  assert (S : same_space pgdir sz m m').
  { split; [done|]. intros va x Hva Hx. apply Ho. intros q Hq Hqx. destruct (Hfr va Hva) as [Hok _].
    assert (frame m pgdir va <> q) by (intros E; destruct (Hnf va Hva); by rewrite E).
    pose proof (page_ok_disjoint kend _ q Hok (HP q Hq) ltac:(done)). unfold in_page in *. lia. }
  split; [|split; [done|]].
  - split.
    + eapply pt_ok_same; [exact Pt|exact F1|set_solver].
    + intros va Hva. rewrite F2 by (unfold is_va; lia). by apply Hp.
    + intros va Hva. rewrite (same_space_frame _ _ _ _ _ S) by (unfold is_va; lia). destruct (Hfr va Hva). set_solver.
  - intros q [->|(e & He & Hpe & <-)]; [by left|]. right. exists e. unfold tab in *. rewrite F1 in * by done. done.
Qed.

(** The entry and the bytes of the copy of page number [p]. *)
Definition copy_ent (m : mem) (pgdir p pg : Z) : Z := map_entry (v2p pg) (PTE_FLAGS (pte_at m pgdir (4096 * p))) 0.
Definition copy_byte (m : mem) (pgdir p k : Z) : Z := load8 m (frame m pgdir (4096 * p) + k).

Definition copied (m : mem) (pgdir : Z) := placed kend (copy_ent m pgdir) (copy_byte m pgdir).

Lemma beside_step m0 pgdir d sz i pgs s s' l l' :
  sz <= KERNBASE -> free_list kend s l -> beside (kmemory s) pgdir d sz l -> copied m0 pgdir d i pgs s s' l l' ->
  beside (kmemory s') pgdir d sz l' /\ same_space pgdir sz (kmemory s) (kmemory s').
Proof.
  intros Hsz Hf [U B1 B2] C.
  assert (HP : forall q, owned (kmemory s') d q \/ q ∈ pgs -> owned (kmemory s) d q \/ q ∈ l).
  { intros q [Hq|Hq]; [destruct (pl_old _ _ _ _ _ _ _ _ _ _ C q Hq) as [?|[? _]]; auto|].
    right. by apply (pl_pgs _ _ _ _ _ _ _ _ _ _ C). }
  pose proof (us_pt _ _ _ _ U) as Pt.
  assert (Hnl : forall q, owned (kmemory s) pgdir q -> q ∉ l).
  { intros q [->|(e & He & Hpe & <-)]; [apply Pt|]. by apply (pt_tab _ _ _ _ Pt). }
  destruct (space_kept _ _ (kmemory s') pgdir sz l l' Hsz U (pl_only _ _ _ _ _ _ _ _ _ _ C)) as (U' & S & Ho).
  - apply C.
  - intros q Hq. by eapply placed_page_ok.
  - intros q Hq HPq. destruct (HP q HPq) as [Hx|Hx]; [by eapply B1|by eapply Hnl].
  - intros va Hva HPq. destruct (HP _ HPq) as [Hx|Hx]; [by eapply B2|]. by apply (us_frame _ _ _ _ U) in Hx.
  - split; [|done]. split; [done|..].
    + intros q Hq Hd. apply Ho in Hq. destruct (HP q (or_introl Hd)) as [Hx|Hx]; [by eapply B1|by eapply Hnl].
    + intros va Hva Hd. rewrite (same_space_frame _ _ _ _ _ S) in Hd by (unfold KERNBASE, is_va in *; lia).
      destruct (HP _ (or_introl Hd)) as [Hx|Hx]; [by eapply B2|]. by apply (us_frame _ _ _ _ U) in Hx.
Qed.

(** One page. *)
Lemma copy_one m0 pgdir d i sz s pg l :
  sz <= KERNBASE -> 0 <= i < sz -> i mod 4096 = 0 -> same_space pgdir sz m0 (kmemory s) -> beside (kmemory s) pgdir d sz (pg :: l) ->
  pt_ok kend (kmemory s) d (pg :: l) -> free_list kend s (pg :: l) -> LkKmem ∉ held (kthr s) ->
  has (pte_at (kmemory s) d i) PTE_P = false -> l <> [] ->
  exists s' l', copied m0 pgdir d i [pg] s s' (pg :: l) l' /\ (length l <= S (length l'))%nat /\
    forall fuel, copyuvm_loop pgdir d i sz (S fuel) s = copyuvm_loop pgdir d (u32 (i + PGSIZE)) sz fuel s'.
Proof.
  unfold KERNBASE. intros Hsz Hi Hal HS B Pt Hf Hl Hno Hne. pose proof (bs_user _ _ _ _ _ B) as U.
  pose proof (us_present _ _ _ _ U i Hi) as Hp. assert (Hva : is_va i) by (unfold is_va; lia).
  assert (E4 : 4096 * (i / 4096) = i) by zlia. pose proof (us_pt _ _ _ _ U) as Ptp.
  assert (Hd : has (pde (kmemory s) pgdir (PDX i)) PTE_P = true).
  { unfold pte_at in Hp. by destruct (has (pde _ _ _) _). }
  assert (Er : load32 (kmemory s) (tab (kmemory s) pgdir (PDX i) + 4 * PTX i) = pte_at (kmemory s) pgdir i) by (unfold pte_at; by rewrite Hd).
  set (src := frame (kmemory s) pgdir i).
  destruct (placed_one kend (copy_ent m0 pgdir) (copy_byte m0 pgdir) d i pg (PTE_FLAGS (pte_at (kmemory s) pgdir i))
    (fun m => memmove m pg src PGSIZE) s l) as (s1 & Hk & Hpg & s' & l' & Hmp & G & Hlen); try done.
  - intros x Hx. rewrite load8_memmove by (unfold PGSIZE; lia). specialize (Hx pg eq_refl). unfold in_page, PGSIZE in *. zif; [lia|done].
  - intros k Hk. rewrite load8_memmove by (unfold PGSIZE; lia). unfold PGSIZE. zif; [|lia]. unfold copy_byte. rewrite E4.
    replace (pg + k - pg + src) with (src + k) by lia. unfold src. rewrite (same_space_frame _ _ _ _ _ HS Hva).
    apply (proj2 HS i); [done|]. unfold in_page. lia.
  - unfold copy_ent. rewrite E4. by rewrite (proj1 HS i Hva).
  - exists s', l'. split; [done|]. split; [done|]. intros fuel. cbn [copyuvm_loop]. zif; [|lia].
    rewrite (bind_Ok _ _ _ _ _ (walk_present pgdir i false s Hd)).
    pose proof (PTX_range i Hva). destruct (pt_tab _ _ _ _ Ptp _ (PDX_range i Hva) Hd) as ((? & _) & _). zif; [lia|].
    rewrite (bind_Ok (rd32 _) _ _ _ _ (eq_refl : rd32 _ s = Ok _ s)). rewrite Er, Hp. cbn [negb].
    rewrite (bind_Ok _ _ _ _ _ Hk). destruct (Z.eqb_spec pg 0); [done|].
    unfold memmove_k. fold (frame (kmemory s) pgdir i). fold src.
    rewrite (bind_Ok _ _ _ _ _ (eq_refl : modify (set_mem (fun m => memmove m pg src PGSIZE)) s1 = Ok tt _)).
    by rewrite (bind_Ok _ _ _ _ _ Hmp).
Qed.

Lemma copy_loop m0 pgdir d sz n : forall i s l fuel,
  sz <= KERNBASE -> 0 <= i -> i mod 4096 = 0 -> i + 4096 * (Z.of_nat n - 1) < sz <= i + 4096 * Z.of_nat n ->
  same_space pgdir sz m0 (kmemory s) -> beside (kmemory s) pgdir d sz l ->
  pt_ok kend (kmemory s) d l -> free_list kend s l -> LkKmem ∉ held (kthr s) ->
  (forall va, i <= va < sz -> has (pte_at (kmemory s) d va) PTE_P = false) ->
  (2 * n <= length l)%nat -> (n < fuel)%nat ->
  exists s' l' pgs, copyuvm_loop pgdir d i sz fuel s = Ok (Some tt) s' /\ length pgs = n /\
    copied m0 pgdir d i pgs s s' l l' /\ same_space pgdir sz m0 (kmemory s').
Proof.
  induction n as [|n IH]; intros i s l fuel Hsz Hi Hal Hn HS B Pt Hf Hl Habs Hlen Hfuel; (destruct fuel as [|fuel]; [lia|]).
  - cbn [copyuvm_loop]. zif; [lia|]. exists s, l, []. split; [done|]. split; [done|]. split; [by apply placed_nil|done].
  - destruct l as [|pg l]; [cbn in Hlen; lia|]. cbn [length] in Hlen. assert (Hva : is_va i) by (unfold KERNBASE, is_va in *; lia).
    destruct (copy_one m0 pgdir d i sz s pg l) as (s1 & l1 & C & Hl1 & ->); try done; try lia.
    { apply Habs. lia. }
    { intros ->. cbn in Hlen. lia. }
    destruct (beside_step m0 pgdir d sz i [pg] s s1 (pg :: l) l1 Hsz Hf B C) as [B1 S1].
    unfold PGSIZE. rewrite u32_small by (unfold KERNBASE in Hsz; lia).
    destruct (IH (i + 4096) s1 l1 fuel) as (s' & l' & pgs & E & Hp & C' & S');
      [done|lia|zlia|lia|by eapply same_space_trans|done|apply C|apply C|by rewrite (pl_thr _ _ _ _ _ _ _ _ _ _ C)| |lia|lia|].
    + intros va Hv. rewrite (pl_pte _ _ _ _ _ _ _ _ _ _ C) by (unfold KERNBASE, is_va in *; lia).
      rewrite lookup_ge_None_2 by (cbn; zlia). assert (Hx := Habs va ltac:(lia)). by destruct (_ <? _).
    + exists s', l', (pg :: pgs). split; [done|]. split; [cbn; lia|]. split; [by eapply placed_cons|done].
Qed.

Lemma lor_odd fl : Z.land fl 1 <> 0 -> Z.lor fl 1 = fl.
Proof.
  intros H. apply Z.bits_inj'. intros n Hn. rewrite Z.lor_spec. destruct (Z.eq_dec n 0) as [->|Hne].
  - rewrite Z.bit0_odd, Zodd_mod. change 1 with (Z.ones 1) in H. rewrite Z.land_ones in H by done. change (2 ^ 1) with 2 in H.
    assert (E : fl mod 2 = 1) by zlia. rewrite E. done.
  - assert (E : Z.testbit 1 n = false) by (apply Z.bits_above_log2; cbn; lia). by rewrite E, orb_false_r.
Qed.

(** The entry of a copy has the flags of the original and the new frame. *)
Lemma copy_ent_spec p pg : page_ok kend pg -> has p PTE_P = true -> 0 <= p < 4294967296 ->
  PTE_FLAGS (map_entry (v2p pg) (PTE_FLAGS p) 0) = PTE_FLAGS p /\ p2v (PTE_ADDR (map_entry (v2p pg) (PTE_FLAGS p) 0)) = pg.
Proof.
  intros (H1 & H2 & _ & H3) Hp Hr.
  assert (Hv : 0 <= v2p pg < 4294967296 /\ v2p pg mod 4096 = 0) by (unfold v2p, KERNBASE; zlia).
  assert (Hf : 0 <= PTE_FLAGS p < 4096) by (rewrite PTE_FLAGS_mod; zlia).
  assert (Ho : Z.lor (PTE_FLAGS p) PTE_P = PTE_FLAGS p).
  { apply lor_odd. unfold has in Hp. apply negb_true_iff, Z.eqb_neq in Hp. unfold PTE_FLAGS, PTE_P in *.
    rewrite u32_small by done. rewrite <- Z.land_assoc. by change (Z.land 4095 1) with 1. }
  unfold map_entry. rewrite Z.mul_0_r, Z.add_0_r, <- Z.lor_assoc, Ho.
  assert (Eu : u32 (Z.lor (v2p pg) (PTE_FLAGS p)) = Z.lor (v2p pg) (PTE_FLAGS p)).
  { rewrite (lor_low _ _ 12) by (try change (2 ^ 12) with 4096; lia). apply u32_small. zlia. }
  rewrite Eu, PTE_FLAGS_lor, PTE_ADDR_lor by lia. split; [done|]. apply p2v_v2p. lia.
Qed.

(** What fork() gets: [d] maps copies of the pages below [sz]. *)
Record same_image (pgdir d sz : Z) (m m' : mem) (l : list Z) : Prop := mkSameImage {
  si_flags : forall va, 0 <= va < sz -> PTE_FLAGS (pte_at m' d va) = PTE_FLAGS (pte_at m pgdir va);
  si_fresh : forall va, 0 <= va < sz -> frame m' d va ∈ l;
  si_apart : forall va va', 0 <= va < sz -> 0 <= va' < sz -> frame m' d va = frame m' d va' -> va / 4096 = va' / 4096;
  si_byte : forall va, 0 <= va < sz -> load8 m' (frame m' d va + va mod 4096) = load8 m (frame m pgdir va + va mod 4096)
}.

Lemma pte_at_word m pgdir va : 0 <= pte_at m pgdir va < 4294967296.
Proof. unfold pte_at. destruct (has _ _); [|lia]. apply load32_range. Qed.

Lemma copied_image m pgdir d sz pgs s s' l l' :
  sz <= KERNBASE -> user_space m pgdir sz l -> free_list kend s l -> Z.of_nat (length pgs) = (sz + 4095) / 4096 ->
  copied m pgdir d 0 pgs s s' l l' -> same_image pgdir d sz m (kmemory s') l.
Proof.
  unfold KERNBASE. intros Hsz U Hf Hlen C.
  assert (Hpg : forall va, 0 <= va < sz -> exists pg, pgs !! Z.to_nat (va / 4096) = Some pg /\ pg ∈ l /\ frame (kmemory s') d va = pg /\
    PTE_FLAGS (pte_at (kmemory s') d va) = PTE_FLAGS (pte_at m pgdir va)).
  { intros va Hva. destruct (lookup_lt_is_Some_2 pgs (Z.to_nat (va / 4096))) as [pg Hpg]; [zlia|]. exists pg. split; [done|].
    assert (Hin : pg ∈ pgs) by (by eapply list_elem_of_lookup_2). destruct (pl_pgs _ _ _ _ _ _ _ _ _ _ C pg Hin) as (Hl & _).
    split; [done|]. unfold frame. rewrite (pl_pte _ _ _ _ _ _ _ _ _ _ C) by (unfold is_va; lia).
    change (0 / 4096) with 0. rewrite Z.sub_0_r, Hpg. zif; [zlia|]. unfold copy_ent.
    rewrite (pte_at_page m pgdir (4096 * (va / 4096)) va) by (unfold is_va; zlia).
    destruct (copy_ent_spec (pte_at m pgdir va) pg) as [H1 H2]; [|by apply U|apply pte_at_word|done].
    destruct Hf as (_ & _ & Hok). rewrite Forall_forall in Hok. by apply Hok. }
  split.
  - intros va Hva. by destruct (Hpg va Hva) as (pg & _ & _ & _ & ?).
  - intros va Hva. by destruct (Hpg va Hva) as (pg & _ & ? & -> & _).
  - intros va va' Hva Hva'. destruct (Hpg va Hva) as (pg & E & _ & -> & _), (Hpg va' Hva') as (pg' & E' & _ & -> & _). intros <-.
    pose proof (NoDup_lookup _ _ _ _ (pl_nodup _ _ _ _ _ _ _ _ _ _ C) E E'). zlia.
  - intros va Hva. destruct (Hpg va Hva) as (pg & E & _ & -> & _).
    rewrite (pl_byte _ _ _ _ _ _ _ _ _ _ C _ _ _ E) by zlia. unfold copy_byte, frame.
    rewrite (pte_at_page m pgdir _ va); [done|unfold is_va; zlia..].
Qed.

(** A table that setupkvm has just built lies beside every other space. *)
Lemma new_space_beside kdata pgdir d sz s s' l l' :
  sz <= KERNBASE -> free_list kend s l -> user_space (kmemory s) pgdir sz l -> new_space kdata d s s' l l' ->
  beside (kmemory s') pgdir d sz l' /\ same_space pgdir sz (kmemory s) (kmemory s').
Proof.
  intros Hsz Hf U N. pose proof (us_pt _ _ _ _ U) as Pt. pose proof Hf as (_ & _ & Hok). rewrite Forall_forall in Hok.
  assert (Hnl : forall q, owned (kmemory s) pgdir q -> q ∉ l).
  { intros q [->|(e & He & Hpe & <-)]; [apply Pt|]. by apply (pt_tab _ _ _ _ Pt). }
  assert (Hd : forall q, owned (kmemory s') d q -> q ∈ l) by (intros q Hq; by apply (ns_owned _ _ _ _ _ _ N)).
  destruct (space_kept _ _ (kmemory s') pgdir sz l l' Hsz U (ns_only _ _ _ _ _ _ N)) as (U' & S & Ho).
  - apply N.
  - intros q Hq. by apply Hok, Hd.
  - intros q Hq Hq'. by apply (Hnl q), Hd.
  - intros va Hva Hq. apply Hd in Hq. by apply (us_frame _ _ _ _ U) in Hq.
  - split; [|done]. split; [done|..].
    + intros q Hq Hq'. apply Ho in Hq. by apply (Hnl q), Hd.
    + intros va Hva Hq. rewrite (same_space_frame _ _ _ _ _ S) in Hq by (unfold KERNBASE, is_va in *; lia).
      apply Hd in Hq. by apply (us_frame _ _ _ _ U) in Hq.
Qed.

Lemma same_space_user pgdir d sz m m1 m' l l1 : sz <= KERNBASE -> l1 `suffix_of` l ->
  same_space pgdir sz m m1 -> same_image pgdir d sz m1 m' l1 -> same_image pgdir d sz m m' l.
Proof.
  unfold KERNBASE. intros Hsz [k ->] S [I1 I2 I3 I4].
  assert (Hva : forall va, 0 <= va < sz -> is_va va) by (unfold is_va; lia). split; [..|done|].
  - intros va H. by rewrite I1, (proj1 S) by auto.
  - intros va H. apply elem_of_app. right. auto.
  - intros va H. rewrite I4, (same_space_frame _ _ _ _ _ S) by auto. apply (proj2 S va); [done|]. unfold in_page. zlia.
Qed.

(** copyuvm gives fork() a copy of the address space: with memory to spare it
    returns a new table in which every page below [sz] has a frame of its own,
    taken from the free pages, with the flags and the bytes of the original;
    above it the table maps the kernel and nothing else.  The original is left
    as it was, and only pages that were free are written. *)
Theorem copyuvm_correct kdata pgdir sz s l :
  kdata_ok kdata -> 0 <= sz <= KERNBASE -> user_space (kmemory s) pgdir sz l ->
  free_list kend s l -> LkKmem ∉ held (kthr s) ->
  70 + 2 * ((sz + 4095) / 4096) <= Z.of_nat (length l) ->
  exists d s' l', copyuvm kend kdata pgdir sz s = Ok d s' /\ d <> 0 /\
    pt_ok kend (kmemory s') d l' /\ (forall q, owned (kmemory s') d q -> q ∈ l) /\
    free_list kend s' l' /\ l' `suffix_of` l /\ kthr s' = kthr s /\ only (fun q => q ∈ l) (kmemory s) (kmemory s') /\
    same_space pgdir sz (kmemory s) (kmemory s') /\ same_image pgdir d sz (kmemory s) (kmemory s') l /\
    (forall va, is_va va -> (sz + 4095) / 4096 <= va / 4096 -> kernel_entry kdata va (pte_at (kmemory s') d va)).
Proof.
  intros Hk Hsz U Hf Hl Hlen. unfold copyuvm.
  destruct (setupkvm_correct kdata s l Hk Hf Hl) as (d & s1 & l1 & E & Hf1 & [(-> & -> & Hx)|(Hd & N)]); [zlia|].
  rewrite (bind_Ok _ _ _ _ _ E). destruct (Z.eqb_spec d 0); [done|].
  destruct (new_space_beside kdata pgdir d sz s s1 l l1 ltac:(lia) Hf U N) as [B S1]. pose proof (ns_len _ _ _ _ _ _ N) as Hn.
  pose proof (ns_list _ _ _ _ _ _ N) as Hs1.
  destruct (copy_loop (kmemory s1) pgdir d sz (Z.to_nat ((sz + 4095) / 4096)) 0 s1 l1 (S (Z.to_nat (sz / PGSIZE + 1))))
    as (s' & l' & pgs & E' & Hp & C & S'); [lia|lia|done|zlia|done|done|apply N|done|by rewrite (ns_thr _ _ _ _ _ _ N)| |zlia|unfold PGSIZE; zlia|].
  { intros va Hva. rewrite (ke_present _ _ _ (ns_pte _ _ _ _ _ _ N va ltac:(unfold KERNBASE, is_va in *; lia))).
    unfold kernel_va, KERNBASE, DEVSPACE in *. zbool; lia. }
  rewrite (bind_Ok _ _ _ _ _ E'). exists d, s', l'. split; [done|]. split; [done|]. split; [apply C|].
  pose proof (pl_list _ _ _ _ _ _ _ _ _ _ C) as Hs2. assert (Hin : forall q, q ∈ l1 -> q ∈ l) by (destruct Hs1 as [k ->]; set_solver).
  assert (Ho : forall q, owned (kmemory s') d q -> q ∈ l).
  { intros q Hq. destruct (pl_old _ _ _ _ _ _ _ _ _ _ C q Hq) as [Hq'|[Hq' _]]; [|by apply Hin]. by apply (ns_owned _ _ _ _ _ _ N). }
  split_and!; [done|apply C|by etrans|by rewrite (pl_thr _ _ _ _ _ _ _ _ _ _ C), (ns_thr _ _ _ _ _ _ N)|..].
  - intros x Hx. rewrite (pl_only _ _ _ _ _ _ _ _ _ _ C), (ns_only _ _ _ _ _ _ N); [done|..].
    + intros q Hq. apply Hx. by apply (ns_owned _ _ _ _ _ _ N).
    + intros q [Hq|Hq]; apply Hx; [by apply Ho|]. by apply Hin, (pl_pgs _ _ _ _ _ _ _ _ _ _ C).
  - eapply same_space_trans; [lia|exact S1|exact S'].
  - eapply same_space_user; [lia|exact Hs1|exact S1|]. eapply copied_image; [lia|apply B|done|rewrite Hp; zlia|exact C].
  - intros va Hva Hup. rewrite (pl_pte _ _ _ _ _ _ _ _ _ _ C) by done. rewrite lookup_ge_None_2 by (rewrite Hp; change (0 / 4096) with 0; zlia).
    pose proof (ns_pte _ _ _ _ _ _ N va Hva) as Hk'. by destruct (_ <? _).
Qed.

End kvm.
