(* ===== verification/FsState.v ===== *)
(** * State of the block and file-system layers

    The globals of bio.c ([bcache]), memide.c (the disk), log.c ([log]) and
    fs.c ([icache]), with one setter per part.  A buffer or an inode in
    memory is named by its index in its table, which stands for the pointer
    the C code passes around. *)

From S2P Require Import Prelude Monad Locks.

Open Scope Z_scope.

Definition BSIZE : nat := 512.
Definition NBUF : nat := 30.
Definition NINODE : nat := 50.
Definition MAXOPBLOCKS : Z := 10.
Definition LOGSIZE : Z := 30.
Definition ROOTDEV : Z := 1.
Definition NDIRECT : nat := 12.

(** [struct buf]: the three bits of [flags] are kept apart; the list links
    [prev]/[next] are the list [lru] below. *)
Record buf : Type := mkBuf {
  b_busy : bool;
  b_valid : bool;
  b_dirty : bool;
  b_dev : Z;
  b_sector : Z;
  b_data : list Z
}.

(** [struct log] with its [struct logheader]. *)
Record logst : Type := mkLog {
  l_start : Z;
  l_size : Z;
  l_outstanding : Z;
  l_committing : bool;
  l_dev : Z;
  lh_n : Z;
  lh_sector : list Z
}.

(** [struct inode]: the in-memory copy of an inode. *)
Record inode : Type := mkInode {
  i_dev : Z;
  i_inum : Z;
  i_ref : Z;
  i_busy : bool;
  i_valid : bool;
  i_type : Z;
  i_major : Z;
  i_minor : Z;
  i_nlink : Z;
  i_size : Z;
  i_addrs : list Z
}.

Record fstate : Type := mkFs {
  bufs : list buf;
  lru : list nat;                    (* bcache.head.next first *)
  disk : gmap (Z * Z) (list Z);      (* (device, sector) to block *)
  disksize : Z;
  writes : list (Z * list Z);        (* sectors written so far, newest first *)
  log : logst;
  icache : list inode;
  fthr : thread
}.

#[export] Instance fstate_KState : KState fstate.
Proof.
  refine {| thr := fthr;
            set_thr t s := mkFs (bufs s) (lru s) (disk s) (disksize s) (writes s)
                                (log s) (icache s) t |};
    intros; try done. by destruct s.
Defined.

Definition set_bufs (v : list buf) (s : fstate) : fstate :=
  mkFs v (lru s) (disk s) (disksize s) (writes s) (log s) (icache s) (fthr s).
Definition set_lru (v : list nat) (s : fstate) : fstate :=
  mkFs (bufs s) v (disk s) (disksize s) (writes s) (log s) (icache s) (fthr s).
Definition set_log (v : logst) (s : fstate) : fstate :=
  mkFs (bufs s) (lru s) (disk s) (disksize s) (writes s) v (icache s) (fthr s).
Definition set_icache (v : list inode) (s : fstate) : fstate :=
  mkFs (bufs s) (lru s) (disk s) (disksize s) (writes s) (log s) v (fthr s).

Definition zero_block : list Z := repeat 0 BSIZE.

(** The content of a sector; one never written reads as zeros. *)
Definition dget (d : gmap (Z * Z) (list Z)) (dev sec : Z) : list Z :=
  default zero_block (d !! (dev, sec)).

Definition disk_write (dev sec : Z) (v : list Z) (s : fstate) : fstate :=
  mkFs (bufs s) (lru s) (<[(dev, sec) := v]> (disk s)) (disksize s) ((sec, v) :: writes s)
       (log s) (icache s) (fthr s).

Definition get_buf (i : nat) : M fstate buf := fun s =>
  match bufs s !! i with
  | Some b => Ok b s
  | None => Fault "bad buffer pointer"
  end.
Definition put_buf (i : nat) (b : buf) : M fstate unit :=
  modify (fun s => set_bufs (<[i := b]> (bufs s)) s).

Definition with_busy (v : bool) (b : buf) : buf :=
  mkBuf v (b_valid b) (b_dirty b) (b_dev b) (b_sector b) (b_data b).
Definition with_dirty (v : bool) (b : buf) : buf :=
  mkBuf (b_busy b) (b_valid b) v (b_dev b) (b_sector b) (b_data b).
Definition with_valid (v : bool) (b : buf) : buf :=
  mkBuf (b_busy b) v (b_dirty b) (b_dev b) (b_sector b) (b_data b).
Definition with_data (v : list Z) (b : buf) : buf :=
  mkBuf (b_busy b) (b_valid b) (b_dirty b) (b_dev b) (b_sector b) v.

Lemma dget_insert d dev sec v dev' sec' :
  dget (<[(dev, sec) := v]> d) dev' sec' =
    if decide ((dev, sec) = (dev', sec')) then v else dget d dev' sec'.
Proof. unfold dget. rewrite lookup_insert. by destruct (decide _). Qed.

Lemma length_zero_block : length zero_block = BSIZE.
Proof. apply repeat_length. Qed.

#[global] Opaque zero_block.
