(* ===== verification/FsLayout.v ===== *)
(** * fs.h: the on-disk format

    A block is a list of [BSIZE] bytes; multi-byte fields are little-endian.
    The structures are read and written at byte offsets inside a block, and
    each comes with its round trip. *)

From S2P Require Import Prelude Memory CString FsState.

Open Scope Z_scope.

(** Word [i] of a block used as an array of 32-bit integers. *)
Definition get_word (d : list Z) (i : nat) : Z := le_val (slice (4 * i) 4 d).
Definition put_word (d : list Z) (i : nat) (v : Z) : list Z := splice (4 * i) (le_bytes 4 v) d.

Lemma length_put_word d i v :
  (4 * i + 4 <= length d)%nat -> length (put_word d i v) = length d.
Proof. intros. apply length_splice. rewrite length_le_bytes. lia. Qed.

Lemma get_put_word d i v : (4 * i <= length d)%nat -> get_word (put_word d i v) i = u32 v.
Proof.
  intros. unfold get_word, put_word.
  replace 4%nat with (length (le_bytes 4 v)) at 2 by apply length_le_bytes.
  rewrite slice_splice by done. apply le_val_bytes4.
Qed.

Lemma get_put_word_other d i j v :
  (4 * i + 4 <= length d)%nat -> i <> j -> get_word (put_word d i v) j = get_word d j.
Proof.
  intros. unfold get_word, put_word. rewrite slice_splice_other; [done| |].
  - rewrite length_le_bytes. lia.
  - rewrite length_le_bytes. lia.
Qed.

(** [put_words d i ws]: words [ws] stored from index [i] on. *)
Fixpoint put_words (d : list Z) (i : nat) (ws : list Z) : list Z :=
  match ws with
  | [] => d
  | w :: ws => put_words (put_word d i w) (S i) ws
  end.

Lemma length_put_words d i ws :
  (4 * (i + length ws) <= length d)%nat -> length (put_words d i ws) = length d.
Proof.
  revert d i; induction ws as [|w ws IH]; intros d i Hl; simpl in *; [done|].
  rewrite IH; rewrite length_put_word; lia.
Qed.

Lemma get_put_words d i ws j :
  (4 * (i + length ws) <= length d)%nat ->
  get_word (put_words d i ws) j =
    if (i <=? j)%nat && (j <? i + length ws)%nat then u32 (nth (j - i) ws 0) else get_word d j.
Proof.
  revert d i; induction ws as [|w ws IH]; intros d i Hl; cbn [put_words length] in *.
  - zif; [lia|done].
  - rewrite IH by (rewrite length_put_word; lia).
    destruct (decide (j = i)) as [->|].
    + zif; [lia|]. zif; [|lia]. rewrite get_put_word by lia. by rewrite Nat.sub_diag.
    + rewrite get_put_word_other by lia. zif; zif; try lia; try done.
      replace (j - i)%nat with (S (j - S i)) by lia. done.
Qed.

Lemma put_words_snoc d i ws w :
  put_words d i (ws ++ [w]) = put_word (put_words d i ws) (i + length ws) w.
Proof.
  revert d i; induction ws as [|x ws IH]; intros d i; simpl.
  - by rewrite Nat.add_0_r.
  - rewrite IH. f_equal. lia.
Qed.

(** ** Inodes on disk *)

Definition IPB : Z := 8.
Definition BPB : Z := 4096.
Definition NINDIRECT : Z := 128.
Definition MAXFILE : Z := 140.
Definition IBLOCK (i : Z) : Z := i / IPB + 2.
Definition BBLOCK (b ninodes : Z) : Z := b / BPB + ninodes / IPB + 3.

(** [struct dinode], 64 bytes. *)
Record dinode : Type := mkDinode {
  d_type : Z; d_major : Z; d_minor : Z; d_nlink : Z; d_size : Z; d_addrs : list Z
}.

Definition encode_dinode (d : dinode) : list Z :=
  le_bytes 2 (d_type d) ++ le_bytes 2 (d_major d) ++ le_bytes 2 (d_minor d) ++
  le_bytes 2 (d_nlink d) ++ le_bytes 4 (d_size d) ++ concat (map (le_bytes 4) (d_addrs d)).

Definition decode_dinode (l : list Z) : dinode :=
  mkDinode (s16 (le_val (slice 0 2 l))) (s16 (le_val (slice 2 2 l))) (s16 (le_val (slice 4 2 l)))
           (s16 (le_val (slice 6 2 l))) (le_val (slice 8 4 l))
           (map (fun i => le_val (slice (12 + 4 * i) 4 l)) (seq 0 13)).

(** Inode [k] of a block of inodes. *)
Definition get_dinode (d : list Z) (k : nat) : dinode := decode_dinode (slice (64 * k) 64 d).
Definition put_dinode (d : list Z) (k : nat) (di : dinode) : list Z :=
  splice (64 * k) (encode_dinode di) d.

(** The values the fields of a [struct dinode] can hold. *)
Definition dinode_ok (d : dinode) : Prop :=
  -32768 <= d_type d < 32768 /\ -32768 <= d_major d < 32768 /\ -32768 <= d_minor d < 32768 /\
  -32768 <= d_nlink d < 32768 /\ 0 <= d_size d < 2 ^ 32 /\
  length (d_addrs d) = 13%nat /\ Forall (fun x => 0 <= x < 2 ^ 32) (d_addrs d).

Lemma length_concat_words (l : list Z) : length (concat (map (le_bytes 4) l)) = (4 * length l)%nat.
Proof.
  induction l as [|x l IH]; [done|]. cbn [map concat]. rewrite length_app, length_le_bytes, IH.
  simpl. lia.
Qed.

Lemma slice_concat_words (l : list Z) i x :
  l !! i = Some x -> slice (4 * i) 4 (concat (map (le_bytes 4) l)) = le_bytes 4 x.
Proof.
  revert i; induction l as [|y l IH]; intros i Hi; [done|]. destruct i as [|i].
  - injection Hi as ->. unfold slice. rewrite drop_0. cbn [map concat].
    by rewrite take_app_le, take_ge by (by rewrite length_le_bytes).
  - cbn [map concat]. unfold slice. replace (4 * S i)%nat with (length (le_bytes 4 y) + 4 * i)%nat
      by (rewrite length_le_bytes; lia).
    rewrite drop_app_add. by apply IH.
Qed.

(** Skipping a prefix of known length. *)
Lemma slice_app_skip {A} (l1 l2 : list A) n k off :
  length l1 = n -> slice (n + off) k (l1 ++ l2) = slice off k l2.
Proof. intros <-. unfold slice. by rewrite drop_app_add. Qed.

Lemma slice_app_here {A} (l1 l2 : list A) n : length l1 = n -> slice 0 n (l1 ++ l2) = l1.
Proof. intros <-. unfold slice. rewrite drop_0. by rewrite take_app_length. Qed.

Lemma decode_encode_dinode d : dinode_ok d -> decode_dinode (encode_dinode d) = d.
Proof.
  intros (H1 & H2 & H3 & H4 & H5 & H6 & H7). destruct d as [ty ma mi nl sz ad]; simpl in *.
  unfold decode_dinode, encode_dinode. cbn [d_type d_major d_minor d_nlink d_size d_addrs].
  set (tail := concat (map (le_bytes 4) ad)).
  assert (E : forall f : nat -> Z, map f (seq 0 13) = ad <-> forall i x, ad !! i = Some x -> f i = x).
  { intros f. split.
    - intros <- i x Hi. change (map f ?l) with (f <$> l) in Hi.
      rewrite list_lookup_fmap in Hi. destruct (seq 0 13 !! i) as [j|] eqn:Ej; [|done].
      apply lookup_seq in Ej as [-> _]. by injection Hi.
    - intros Hf. apply list_eq. intros i. change (map f ?l) with (f <$> l).
      rewrite list_lookup_fmap. destruct (decide (i < 13)%nat) as [Hi|Hi].
      + rewrite lookup_seq_lt by done. assert (is_Some (ad !! i)) as [x Hx]
          by (apply lookup_lt_is_Some; lia). rewrite Hx. simpl. f_equal. by apply Hf.
      + rewrite lookup_seq_ge by lia. symmetry. apply lookup_ge_None. lia. }
  f_equal.
  - rewrite slice_app_here by apply length_le_bytes. by rewrite le_val_bytes2, s16_u16.
  - rewrite (slice_app_skip _ _ 2 2 0) by apply length_le_bytes.
    rewrite slice_app_here by apply length_le_bytes. by rewrite le_val_bytes2, s16_u16.
  - rewrite (slice_app_skip _ _ 2 2 2), (slice_app_skip _ _ 2 2 0) by apply length_le_bytes.
    rewrite slice_app_here by apply length_le_bytes. by rewrite le_val_bytes2, s16_u16.
  - rewrite (slice_app_skip _ _ 2 2 4), (slice_app_skip _ _ 2 2 2), (slice_app_skip _ _ 2 2 0)
      by apply length_le_bytes.
    rewrite slice_app_here by apply length_le_bytes. by rewrite le_val_bytes2, s16_u16.
  - rewrite (slice_app_skip _ _ 2 4 6), (slice_app_skip _ _ 2 4 4), (slice_app_skip _ _ 2 4 2),
      (slice_app_skip _ _ 2 4 0) by apply length_le_bytes.
    rewrite slice_app_here by apply length_le_bytes. rewrite le_val_bytes4. by apply u32_small.
  - apply E. intros i x Hi.
    replace (12 + 4 * i)%nat with (2 + (10 + 4 * i))%nat by lia.
    rewrite slice_app_skip by apply length_le_bytes.
    replace (10 + 4 * i)%nat with (2 + (8 + 4 * i))%nat by lia.
    rewrite slice_app_skip by apply length_le_bytes.
    replace (8 + 4 * i)%nat with (2 + (6 + 4 * i))%nat by lia.
    rewrite slice_app_skip by apply length_le_bytes.
    replace (6 + 4 * i)%nat with (2 + (4 + 4 * i))%nat by lia.
    rewrite slice_app_skip by apply length_le_bytes.
    rewrite slice_app_skip by apply length_le_bytes.
    unfold tail. rewrite (slice_concat_words _ _ x) by done. rewrite le_val_bytes4.
    apply u32_small. by eapply (Forall_lookup_1 _ _ _ _ H7).
Qed.

Lemma length_encode_dinode d : length (d_addrs d) = 13%nat -> length (encode_dinode d) = 64%nat.
Proof.
  intros H. unfold encode_dinode. rewrite !length_app, !length_le_bytes, length_concat_words, H. lia.
Qed.

Lemma get_put_dinode d k di :
  dinode_ok di -> (64 * k <= length d)%nat -> get_dinode (put_dinode d k di) k = di.
Proof.
  intros Hok Hk. unfold get_dinode, put_dinode.
  rewrite <- (length_encode_dinode di) at 2 by apply Hok.
  rewrite slice_splice by done. by apply decode_encode_dinode.
Qed.

Lemma get_put_dinode_other d k k' di :
  length (d_addrs di) = 13%nat -> k <> k' -> (64 * k + 64 <= length d)%nat ->
  get_dinode (put_dinode d k di) k' = get_dinode d k'.
Proof.
  intros Hl Hne Hk. unfold get_dinode, put_dinode.
  rewrite slice_splice_other; [done|rewrite length_encode_dinode by done; lia..].
Qed.

Lemma length_put_dinode d k di :
  length (d_addrs di) = 13%nat -> (64 * k + 64 <= length d)%nat ->
  length (put_dinode d k di) = length d.
Proof. intros Hl Hk. apply length_splice. rewrite length_encode_dinode by done. lia. Qed.

(** ** Directory entries *)

Definition DIRSIZ : nat := 14.

(** [struct dirent], 16 bytes. *)
Definition de_inum (de : list Z) : Z := le_val (slice 0 2 de).
Definition de_name (de : list Z) : list Z := slice 2 DIRSIZ de.
Definition mk_dirent (inum : Z) (name : list Z) : list Z := le_bytes 2 inum ++ arr_strncpy DIRSIZ name.

Lemma length_mk_dirent inum name : length (mk_dirent inum name) = 16%nat.
Proof. unfold mk_dirent. rewrite length_app, length_le_bytes, length_arr_strncpy. done. Qed.

Lemma de_inum_mk inum name : de_inum (mk_dirent inum name) = u16 inum.
Proof.
  unfold de_inum, mk_dirent. rewrite slice_app_here by apply length_le_bytes. apply le_val_bytes2.
Qed.

Lemma de_name_mk inum name : de_name (mk_dirent inum name) = arr_strncpy DIRSIZ name.
Proof.
  unfold de_name, mk_dirent. rewrite (slice_app_skip _ _ 2 _ 0) by apply length_le_bytes.
  unfold slice. rewrite drop_0, take_ge; [done|]. by rewrite length_arr_strncpy.
Qed.
