(* ===== verification/Bio.v ===== *)
(** * bio.c and memide.c: the buffer cache over the disk

    [iderw] is the synchronous driver of memide.c.  A buffer is found by
    scanning the cache from the most recently used end and recycled from the
    other; a busy buffer puts the caller to sleep on it. *)

From S2P Require Import Prelude Monad Locks FsState.

Open Scope Z_scope.
Open Scope kernel_scope.

(** memide.c *)
Definition iderw (i : nat) : M fstate unit :=
  do b <- get_buf i;
  do dsz <- gets disksize;
  if negb (b_busy b) then panic "iderw: buf not busy"
  else if b_valid b && negb (b_dirty b) then panic "iderw: nothing to do"
  else if negb (b_dev b =? 1) then panic "iderw: request not for disk 1"
  else if dsz <=? b_sector b then panic "iderw: sector out of range"
  else if b_dirty b then
    put_buf i (with_dirty false b) ;;
    modify (disk_write (b_dev b) (b_sector b) (b_data b)) ;;
    put_buf i (with_valid true (with_dirty false b))
  else
    do d <- gets (fun s => dget (disk s) (b_dev b) (b_sector b));
    put_buf i (with_valid true (with_data d b)).

(** binit links each buffer in front of the list, with device -1. *)
Definition binit : M fstate unit :=
  initlock LkBcache ;;
  modify (fun s => set_bufs (map (fun b => mkBuf (b_busy b) (b_valid b) (b_dirty b) 4294967295
                                                (b_sector b) (b_data b)) (bufs s))
                     (set_lru (rev (seq 0 NBUF)) s)).

Definition is_block (dev sector : Z) (bs : list buf) (i : nat) : bool :=
  match bs !! i with
  | Some b => (b_dev b =? dev) && (b_sector b =? sector)
  | None => false
  end.

Definition is_spare (bs : list buf) (i : nat) : bool :=
  match bs !! i with
  | Some b => negb (b_busy b) && negb (b_dirty b)
  | None => false
  end.

(** bget: when the thread that slept is woken it starts again from [loop]. *)
Definition bget (dev sector : Z) : M fstate nat :=
  acquire LkBcache ;;
  do s <- get;
  match List.find (is_block dev sector (bufs s)) (lru s) with
  | Some i =>
      do b <- get_buf i;
      if negb (b_busy b) then
        put_buf i (with_busy true b) ;;
        release LkBcache ;;
        ret i
      else sleep (ChBuf i) LkBcache
  | None =>
      match List.find (is_spare (bufs s)) (rev (lru s)) with
      | Some i =>
          do b <- get_buf i;
          put_buf i (mkBuf true false false dev sector (b_data b)) ;;
          release LkBcache ;;
          ret i
      | None => panic "bget: no buffers"
      end
  end.

Definition bread (dev sector : Z) : M fstate nat :=
  do i <- bget dev sector;
  do b <- get_buf i;
  (if negb (b_valid b) then iderw i else ret tt) ;;
  ret i.

Definition bwrite (i : nat) : M fstate unit :=
  do b <- get_buf i;
  if negb (b_busy b) then panic "bwrite"
  else put_buf i (with_dirty true b) ;; iderw i.

Definition move_front (i : nat) (l : list nat) : list nat :=
  i :: filter (fun j => j <> i) l.

Definition brelse (i : nat) : M fstate unit :=
  do b <- get_buf i;
  if negb (b_busy b) then panic "brelse"
  else
    acquire LkBcache ;;
    modify (fun s => set_lru (move_front i (lru s)) s) ;;
    (do b <- get_buf i; put_buf i (with_busy false b)) ;;
    wakeup (ChBuf i) ;;
    release LkBcache.

(** Assignment to [bp->data] by the code that holds the buffer. *)
Definition set_data (i : nat) (d : list Z) : M fstate unit :=
  do b <- get_buf i; put_buf i (with_data d b).

Definition get_data (i : nat) : M fstate (list Z) :=
  do b <- get_buf i; ret (b_data b).

(** ** Invariant and logical view *)

(** At most one buffer per sector of the disk. *)
Definition uniq (bs : list buf) : Prop :=
  forall i j bi bj, bs !! i = Some bi -> bs !! j = Some bj ->
    b_dev bi = 1 -> b_dev bj = 1 -> b_sector bi = b_sector bj -> i = j.

(** The cache invariant; [K] are the buffers some thread holds busy. *)
Record binv (s : fstate) (K : list nat) : Prop := mkBinv {
  bi_len : length (bufs s) = NBUF;
  bi_lru : lru s ≡ₚ seq 0 NBUF;
  bi_uniq : uniq (bufs s);
  bi_data : forall i b, bufs s !! i = Some b -> length (b_data b) = BSIZE;
  bi_busy : forall i b, bufs s !! i = Some b -> b_busy b = true <-> i ∈ K;
  bi_clean : forall i b, bufs s !! i = Some b -> b_valid b = true -> b_dirty b = false ->
    b_dev b = 1 -> i ∉ K -> b_data b = dget (disk s) 1 (b_sector b);
  bi_dirty : forall i b, bufs s !! i = Some b -> b_dirty b = true ->
    b_valid b = true /\ b_dev b = 1 /\ b_sector b < disksize s;
  bi_disk : forall sec, length (dget (disk s) 1 sec) = BSIZE
}.

(** What a reader of sector [sec] sees: the cached copy if there is one. *)
Definition view (s : fstate) (sec : Z) : list Z :=
  match List.find (fun b => b_valid b && (b_dev b =? 1) && (b_sector b =? sec)) (bufs s) with
  | Some b => b_data b
  | None => dget (disk s) 1 sec
  end.

(** The sectors held back in the cache by a dirty buffer. *)
Definition is_dirty (s : fstate) (sec : Z) : Prop :=
  exists i b, bufs s !! i = Some b /\ b_dirty b = true /\ b_sector b = sec.

Lemma find_lookup {A} (f : A -> bool) (l : list A) x :
  List.find f l = Some x -> f x = true /\ exists i, l !! i = Some x.
Proof.
  intros H. apply find_some in H as [Hin Hf]. split; [done|].
  apply list_elem_of_lookup. by apply list_elem_of_In.
Qed.

Lemma find_lookup_none {A} (f : A -> bool) (l : list A) i x :
  List.find f l = None -> l !! i = Some x -> f x = false.
Proof.
  intros H Hi. eapply find_none; [exact H|]. apply list_elem_of_In, list_elem_of_lookup. eauto.
Qed.

Lemma view_hit s sec i b :
  uniq (bufs s) -> bufs s !! i = Some b -> b_valid b = true -> b_dev b = 1 ->
  b_sector b = sec -> view s sec = b_data b.
Proof.
  intros Hu Hb Hv Hd Hs. unfold view. destruct (List.find _ (bufs s)) as [b'|] eqn:E.
  - apply find_lookup in E as (Hf & j & Hj). rewrite !andb_true_iff in Hf.
    destruct Hf as [[Hv' Hd'] Hs']. zbool.
    assert (i = j) by (eapply Hu; eauto; congruence). congruence.
  - eapply find_lookup_none in E; [|exact Hb]. rewrite Hv, Hd, Hs in E. simpl in E. lia.
Qed.

Lemma view_miss s sec :
  (forall i b, bufs s !! i = Some b -> b_valid b = true -> b_dev b = 1 -> b_sector b <> sec) ->
  view s sec = dget (disk s) 1 sec.
Proof.
  intros H. unfold view. destruct (List.find _ (bufs s)) as [b'|] eqn:E; [|done].
  apply find_lookup in E as (Hf & j & Hj). rewrite !andb_true_iff in Hf.
  destruct Hf as [[Hv' Hd'] Hs']. zbool. exfalso. by eapply H.
Qed.

(** Every sector is seen either in a valid buffer or on the disk. *)
Lemma view_cases s sec :
  (exists i b, bufs s !! i = Some b /\ b_valid b = true /\ b_dev b = 1 /\ b_sector b = sec) \/
  (forall i b, bufs s !! i = Some b -> b_valid b = true -> b_dev b = 1 -> b_sector b <> sec).
Proof.
  destruct (List.find (fun b => b_valid b && (b_dev b =? 1) && (b_sector b =? sec)) (bufs s))
    as [b'|] eqn:E.
  - left. apply find_lookup in E as (Hf & j & Hj). rewrite !andb_true_iff in Hf.
    destruct Hf as [[Hv' Hd'] Hs']. zbool. eauto 10.
  - right. intros i b Hb Hv Hd Hs. eapply find_lookup_none in E; [|exact Hb].
    rewrite Hv, Hd, Hs in E. simpl in E. lia.
Qed.

Lemma view_length s K sec : binv s K -> length (view s sec) = BSIZE.
Proof.
  intros H. destruct (view_cases s sec) as [(i & b & Hb & Hv & Hd & Hs)|Hm].
  - rewrite (view_hit s sec i b) by (done || apply H). by eapply bi_data.
  - rewrite view_miss by done. by apply (bi_disk s K).
Qed.

(** Replacing one buffer. *)
Lemma lookup_upd (bs : list buf) i b j x :
  (i < length bs)%nat ->
  <[i := b]> bs !! j = Some x <-> (j = i /\ x = b) \/ (j <> i /\ bs !! j = Some x).
Proof.
  intros Hi. destruct (decide (j = i)) as [->|].
  - rewrite list_lookup_insert_eq by done. naive_solver.
  - rewrite list_lookup_insert_ne by done. naive_solver.
Qed.

Lemma uniq_upd bs i b0 b :
  uniq bs -> bs !! i = Some b0 -> b_dev b = b_dev b0 -> b_sector b = b_sector b0 ->
  uniq (<[i := b]> bs).
Proof.
  intros Hu Hi Hd Hs j k bj bk Hj Hk. pose proof (lookup_lt_Some _ _ _ Hi) as Hlt.
  rewrite lookup_upd in Hj, Hk by done. intros.
  destruct Hj as [[-> ->]|[? Hj]], Hk as [[-> ->]|[? Hk]]; try done.
  - eapply Hu; eauto; congruence.
  - eapply Hu; eauto; congruence.
  - eapply Hu; eauto.
Qed.

(** A buffer keeps its sector when only flags or data change; then only the
    view of that sector can change. *)
Lemma view_upd s i b0 b sec :
  uniq (bufs s) -> bufs s !! i = Some b0 -> b_dev b = b_dev b0 -> b_sector b = b_sector b0 ->
  b_valid b = b_valid b0 ->
  view (set_bufs (<[i := b]> (bufs s)) s) sec =
    if (b_valid b && (b_dev b =? 1) && (b_sector b =? sec)) then b_data b else view s sec.
Proof.
  intros Hu Hi Hd Hs Hv. pose proof (lookup_lt_Some _ _ _ Hi) as Hlt.
  assert (Hu' : uniq (<[i := b]> (bufs s))) by (by eapply uniq_upd).
  destruct (b_valid b && (b_dev b =? 1) && (b_sector b =? sec)) eqn:E.
  - rewrite !andb_true_iff in E. destruct E as [[? ?] ?]. zbool.
    apply (view_hit _ _ i b); try done. simpl. rewrite lookup_upd by done. by left.
  - destruct (view_cases s sec) as [(j & bj & Hj & Hvj & Hdj & Hsj)|Hm].
    + assert (j <> i).
      { intros ->. rewrite Hi in Hj. injection Hj as ->. rewrite Hv, Hd, Hs, Hvj, Hdj, Hsj in E.
        simpl in E. lia. }
      rewrite (view_hit s sec j bj) by done.
      apply (view_hit _ _ j bj); try done. simpl. rewrite lookup_upd by done. by right.
    + rewrite (view_miss s) by done.
      refine (view_miss (set_bufs (<[i := b]> (bufs s)) s) sec _). simpl. intros j bj Hj Hvj Hdj.
      rewrite lookup_upd in Hj by done. destruct Hj as [[-> ->]|[Hne Hj]]; [|by eapply Hm].
      intros Hsj. rewrite Hvj, Hdj, Hsj in E. simpl in E. lia.
Qed.

Definition set_buf (i : nat) (b : buf) (s : fstate) : fstate :=
  set_bufs (<[i := b]> (bufs s)) s.

Lemma find_unique {A} (f : A -> bool) (l : list A) x :
  x ∈ l -> f x = true -> (forall y, y ∈ l -> f y = true -> y = x) -> List.find f l = Some x.
Proof.
  intros Hin Hf Hu. destruct (List.find f l) as [y|] eqn:E.
  - apply find_some in E as [Hy Hfy]. f_equal. apply Hu; [by apply list_elem_of_In|done].
  - apply list_elem_of_In in Hin. by rewrite (find_none _ _ E x Hin) in Hf.
Qed.

Lemma lru_elem s K i : binv s K -> i ∈ lru s <-> (i < NBUF)%nat.
Proof. intros H. rewrite (bi_lru _ _ H), elem_of_seq. lia. Qed.

Lemma buf_lt s K i b : binv s K -> bufs s !! i = Some b -> (i < NBUF)%nat.
Proof. intros H Hb. rewrite <- (bi_len _ _ H). by eapply lookup_lt_Some. Qed.

Lemma set_held_same (s : fstate) : set_held (held (fthr s)) s = s.
Proof. destruct s as [? ? ? ? ? ? ? [? ?]]. done. Qed.

Lemma bget_hit s K sec i b :
  binv s K -> LkBcache ∉ held (fthr s) -> bufs s !! i = Some b -> b_dev b = 1 ->
  b_sector b = sec -> i ∉ K ->
  bget 1 sec s = Ok i (set_buf i (with_busy true b) s).
Proof.
  intros H Hl Hb Hd Hs HK. unfold bget, bind, get. rewrite acquire_ok by done. cbn [bufs lru].
  assert (Hlt : (i < NBUF)%nat) by (by eapply buf_lt).
  assert (Hf : List.find (is_block 1 sec (bufs s)) (lru s) = Some i).
  { apply find_unique.
    - by apply (lru_elem s K).
    - unfold is_block. rewrite Hb, Hd, Hs. simpl. lia.
    - intros j Hj. unfold is_block. destruct (bufs s !! j) as [bj|] eqn:Hbj; [|done].
      intros Hj'. apply andb_true_iff in Hj' as [Hj1 Hj2]. zbool.
      eapply (bi_uniq _ _ H); eauto; congruence. }
  simpl. rewrite Hf. unfold get_buf; simpl. rewrite Hb.
  assert (b_busy b = false) as ->.
  { destruct (b_busy b) eqn:E; [|done]. by apply (bi_busy _ _ H i b Hb) in E. }
  simpl. unfold ret. f_equal. destruct s as [? ? ? ? ? ? ? [? ?]]. done.
Qed.

Lemma bget_miss s K sec :
  binv s K -> LkBcache ∉ held (fthr s) ->
  (forall j bj, bufs s !! j = Some bj -> b_dev bj = 1 -> b_sector bj <> sec) ->
  (exists j bj, bufs s !! j = Some bj /\ (j ∉ K) /\ b_dirty bj = false) ->
  exists i b, bget 1 sec s = Ok i (set_buf i (mkBuf true false false 1 sec (b_data b)) s) /\
    bufs s !! i = Some b /\ (i ∉ K) /\ b_dirty b = false.
Proof.
  intros H Hl Hmiss (j & bj & Hj & HjK & Hjd).
  unfold bget, bind, get. rewrite acquire_ok by done. simpl.
  destruct (List.find (is_block 1 sec (bufs s)) (lru s)) as [k|] eqn:E.
  { apply find_some in E as [_ E]. unfold is_block in E.
    destruct (bufs s !! k) as [bk|] eqn:Hk; [|done].
    apply andb_true_iff in E as [E1 E2]. zbool. by destruct (Hmiss k bk Hk E1). }
  destruct (List.find (is_spare (bufs s)) (rev (lru s))) as [k|] eqn:E2.
  - apply find_some in E2 as [_ E2]. unfold is_spare in E2.
    destruct (bufs s !! k) as [bk|] eqn:Hk; [|done].
    apply andb_true_iff in E2 as [E3 E4]. zbool. exists k, bk.
    unfold get_buf; simpl. rewrite Hk. simpl. split; [|split; [done|split; [|done]]].
    + unfold ret. f_equal. destruct s as [? ? ? ? ? ? ? [? ?]]. done.
    + intros HkK. apply (bi_busy _ _ H k bk Hk) in HkK. congruence.
  - exfalso. assert (Hin : j ∈ rev (lru s)).
    { apply list_elem_of_In. rewrite <- in_rev. apply list_elem_of_In.
      apply (lru_elem s K); [done|]. by eapply buf_lt. }
    apply list_elem_of_In in Hin. pose proof (find_none _ _ E2 j Hin) as Hno.
    unfold is_spare in Hno. rewrite Hj, Hjd in Hno. destruct (b_busy bj) eqn:Eb; [|done].
    by apply (bi_busy _ _ H j bj Hj) in Eb.
Qed.

(** Setting one buffer, with its new busy status, keeps the invariant. *)
Lemma binv_set_buf s K K' i b :
  binv s K -> (i < NBUF)%nat -> length (b_data b) = BSIZE ->
  (forall j, j <> i -> j ∈ K' <-> j ∈ K) -> (b_busy b = true <-> i ∈ K') ->
  uniq (<[i := b]> (bufs s)) ->
  (b_valid b = true -> b_dirty b = false -> b_dev b = 1 -> i ∉ K' ->
     b_data b = dget (disk s) 1 (b_sector b)) ->
  (b_dirty b = true -> b_valid b = true /\ b_dev b = 1 /\ b_sector b < disksize s) ->
  binv (set_buf i b s) K'.
Proof.
  intros H Hi Hlen HK Hbusy Hu Hcl Hdi.
  assert (Hlt : (i < length (bufs s))%nat) by (by rewrite (bi_len _ _ H)).
  split; simpl.
  - rewrite length_insert. apply H.
  - apply (bi_lru _ _ H).
  - done.
  - intros j bj Hj. rewrite lookup_upd in Hj by done.
    destruct Hj as [[-> ->]|[_ Hj]]; [done|]. by eapply bi_data.
  - intros j bj Hj. rewrite lookup_upd in Hj by done.
    destruct Hj as [[-> ->]|[Hne Hj]]; [done|]. rewrite HK by done. by eapply bi_busy.
  - intros j bj Hj Hv Hd Hdev HjK. rewrite lookup_upd in Hj by done.
    destruct Hj as [[-> ->]|[Hne Hj]]; [by apply Hcl|].
    eapply (bi_clean _ _ H); eauto. by rewrite <- HK.
  - intros j bj Hj. rewrite lookup_upd in Hj by done.
    destruct Hj as [[-> ->]|[Hne Hj]]; [done|]. by eapply bi_dirty.
  - apply (bi_disk _ _ H).
Qed.

Lemma set_buf_set_buf i b b' s : set_buf i b (set_buf i b' s) = set_buf i b s.
Proof. unfold set_buf, set_bufs. simpl. by rewrite list_insert_insert_eq. Qed.

Lemma lookup_set_buf i b s : (i < length (bufs s))%nat -> bufs (set_buf i b s) !! i = Some b.
Proof. intros. simpl. by apply list_lookup_insert_eq. Qed.

Lemma iderw_read i b s :
  bufs s !! i = Some b -> b_busy b = true -> b_valid b = false -> b_dirty b = false ->
  b_dev b = 1 -> b_sector b < disksize s ->
  iderw i s = Ok tt (set_buf i (mkBuf true true false 1 (b_sector b)
                                  (dget (disk s) 1 (b_sector b))) s).
Proof.
  intros Hb H1 H2 H3 H4 H5. unfold iderw, bind, get_buf, gets. rewrite Hb, H1, H2, H3, H4.
  simpl. zif; [lia|]. unfold put_buf, modify, with_valid, with_data. simpl.
  by rewrite H1, H3, H4.
Qed.

Lemma iderw_write i b s :
  bufs s !! i = Some b -> b_busy b = true -> b_dirty b = true ->
  b_dev b = 1 -> b_sector b < disksize s ->
  iderw i s = Ok tt (set_buf i (mkBuf true true false 1 (b_sector b) (b_data b))
                       (disk_write 1 (b_sector b) (b_data b) s)).
Proof.
  intros Hb H1 H3 H4 H5. unfold iderw, bind, get_buf, gets. rewrite Hb, H1, H3, H4.
  rewrite andb_false_r. simpl. zif; [lia|].
  unfold put_buf, modify, with_valid, with_dirty, set_buf, set_bufs. simpl.
  rewrite H1, H4. by rewrite list_insert_insert_eq.
Qed.

(** A buffer that takes over sector [sec] while no other buffer has it. *)
Lemma uniq_take bs i b sec :
  uniq bs -> (i < length bs)%nat -> b_sector b = sec ->
  (forall j bj, bs !! j = Some bj -> b_dev bj = 1 -> b_sector bj = sec -> j = i) ->
  uniq (<[i := b]> bs).
Proof.
  intros Hu Hi Hs Ho j k bj bk Hj Hk. rewrite lookup_upd in Hj, Hk by done. intros.
  destruct Hj as [[-> ->]|[? Hj]], Hk as [[-> ->]|[? Hk]]; try done.
  - symmetry. eapply Ho; eauto. congruence.
  - eapply Ho; eauto. congruence.
  - eapply Hu; eauto.
Qed.

Definition loaded (d : bool) (sec : Z) (data : list Z) : buf := mkBuf true true d 1 sec data.

(** Loading a sector from the disk into a buffer that held nothing unwritten. *)
Lemma load_spec s K sec i b0 :
  binv s K -> bufs s !! i = Some b0 -> i ∉ K -> b_dirty b0 = false -> sec < disksize s ->
  (forall j bj, bufs s !! j = Some bj -> b_dev bj = 1 -> b_sector bj = sec ->
     j = i /\ b_valid bj = false) ->
  let s' := set_buf i (loaded false sec (dget (disk s) 1 sec)) s in
  view s sec = dget (disk s) 1 sec /\ binv s' (i :: K) /\
  (forall x, view s' x = view s x) /\ (forall x, is_dirty s' x <-> is_dirty s x) /\
  ~ is_dirty s sec.
Proof.
  intros H Hb HK Hd Hsz Ho s'.
  assert (Hlt : (i < NBUF)%nat) by (by eapply buf_lt).
  assert (Hlt' : (i < length (bufs s))%nat) by (by rewrite (bi_len _ _ H)).
  assert (Hview : view s sec = dget (disk s) 1 sec).
  { apply view_miss. intros j bj Hj Hv Hdv Hs. destruct (Ho j bj Hj Hdv Hs). congruence. }
  assert (Hu' : uniq (<[i := loaded false sec (dget (disk s) 1 sec)]> (bufs s))).
  { apply (uniq_take _ _ _ sec); [apply H|done|done|]. intros j bj Hj Hdv Hs. by eapply Ho. }
  split; [done|]. split; [|split; [|split]].
  - apply (binv_set_buf s K); try done.
    + apply (bi_disk _ _ H).
    + intros j Hj. set_solver.
    + simpl. set_solver.
  - intros x. destruct (decide (x = sec)) as [->|Hx].
    { rewrite Hview. apply (view_hit _ _ i (loaded false sec (dget (disk s) 1 sec))); try done.
      by apply lookup_set_buf. }
    destruct (view_cases s x) as [(j & bj & Hj & Hvj & Hdj & Hsj)|Hm].
    + rewrite (view_hit s x j bj) by (done || apply H). destruct (decide (j = i)) as [->|Hji].
      * rewrite Hb in Hj. injection Hj as <-.
        rewrite (bi_clean _ _ H i b0) by done. rewrite Hsj.
        refine (view_miss s' x _). simpl. intros k bk Hk Hvk Hdk.
        rewrite lookup_upd in Hk by done. destruct Hk as [[-> ->]|[Hk1 Hk]]; [simpl; congruence|].
        intros Hsk. apply Hk1. eapply (bi_uniq _ _ H); eauto. congruence.
      * apply (view_hit s' x j bj); try done. simpl. rewrite lookup_upd by done. by right.
    + rewrite (view_miss s x) by done. refine (view_miss s' x _). simpl.
      intros k bk Hk Hvk Hdk. rewrite lookup_upd in Hk by done.
      destruct Hk as [[-> ->]|[Hk1 Hk]]; [simpl; congruence|by eapply Hm].
  - intros x. unfold is_dirty. simpl. split.
    + intros (j & bj & Hj & Hdj & Hsj). rewrite lookup_upd in Hj by done.
      destruct Hj as [[-> ->]|[_ Hj]]; [done|eauto].
    + intros (j & bj & Hj & Hdj & Hsj). exists j, bj. rewrite lookup_upd by done.
      split; [|done]. right. split; [|done]. intros ->. congruence.
  - intros (j & bj & Hj & Hdj & Hsj). destruct (bi_dirty _ _ H j bj Hj Hdj) as (Hv & Hdv & _).
    destruct (Ho j bj Hj Hdv Hsj). congruence.
Qed.

Lemma busy_iff s K i b : binv s K -> bufs s !! i = Some b -> i ∉ K -> b_busy b = false.
Proof.
  intros H Hb HK. destruct (b_busy b) eqn:E; [|done]. by apply (bi_busy _ _ H i b Hb) in E.
Qed.

Lemma is_dirty_set_buf s i b0 b x :
  bufs s !! i = Some b0 -> b_dirty b = b_dirty b0 -> b_sector b = b_sector b0 ->
  is_dirty (set_buf i b s) x <-> is_dirty s x.
Proof.
  intros Hb Hd Hs. pose proof (lookup_lt_Some _ _ _ Hb) as Hlt.
  unfold is_dirty. simpl. setoid_rewrite lookup_upd; [|done]. split.
  - intros (j & bj & [[-> ->]|[? Hj]] & Hdj & Hsj); [|eauto]. exists i, b0. naive_solver congruence.
  - intros (j & bj & Hj & Hdj & Hsj). destruct (decide (j = i)) as [->|].
    + exists i, b. rewrite Hb in Hj. injection Hj as <-. naive_solver congruence.
    + exists j, bj. naive_solver.
Qed.

(** A sector can be brought in when it is cached or a clean idle buffer is left. *)
Definition can_load (s : fstate) (K : list nat) (sec : Z) : Prop :=
  (exists i b, bufs s !! i = Some b /\ b_dev b = 1 /\ b_sector b = sec) \/
  (exists i b, bufs s !! i = Some b /\ (i ∉ K) /\ b_dirty b = false).

Definition not_busy (s : fstate) (K : list nat) (sec : Z) : Prop :=
  forall i b, bufs s !! i = Some b -> b_dev b = 1 -> b_sector b = sec -> i ∉ K.

Lemma bread_spec s K sec :
  binv s K -> LkBcache ∉ held (fthr s) -> sec < disksize s -> not_busy s K sec ->
  can_load s K sec ->
  exists i d, let s' := set_buf i (loaded d sec (view s sec)) s in
    bread 1 sec s = Ok i s' /\ (i ∉ K) /\ (i < NBUF)%nat /\ binv s' (i :: K) /\
    (forall x, view s' x = view s x) /\ (forall x, is_dirty s' x <-> is_dirty s x) /\
    (d = true <-> is_dirty s sec).
Proof.
  intros H Hl Hsz Hnb Hcan.
  assert (Hdec : (exists i b, bufs s !! i = Some b /\ b_dev b = 1 /\ b_sector b = sec) \/
                 (forall i b, bufs s !! i = Some b -> b_dev b = 1 -> b_sector b <> sec)).
  { destruct (List.find (fun b => (b_dev b =? 1) && (b_sector b =? sec)) (bufs s)) as [b|] eqn:E.
    - left. apply find_lookup in E as (Hf & i & Hi). zbool. eauto.
    - right. intros i b Hi Hd Hs. eapply find_lookup_none in E; [|exact Hi]. lia. }
  destruct Hdec as [(i & b & Hb & Hd & Hs)|Hmiss].
  - pose proof (Hnb i b Hb Hd Hs) as HiK.
    assert (Hlt : (i < NBUF)%nat) by (by eapply buf_lt).
    assert (Hlt' : (i < length (bufs s))%nat) by (by rewrite (bi_len _ _ H)).
    unfold bread, bind. rewrite (bget_hit s K sec i b) by done.
    unfold get_buf. rewrite lookup_set_buf by done.
    change (b_valid (with_busy true b)) with (b_valid b).
    destruct (b_valid b) eqn:Ev.
    + assert (Hbe : with_busy true b = loaded (b_dirty b) sec (view s sec)).
      { rewrite (view_hit s sec i b) by (done || apply H).
        unfold with_busy, loaded. by rewrite Ev, Hd, Hs. }
      exists i, (b_dirty b). cbn zeta. rewrite <- Hbe. split; [done|]. split; [done|].
      split; [done|]. split; [|split; [|split]].
      * apply (binv_set_buf s K); try done.
        -- apply (bi_data _ _ H i b Hb).
        -- intros j Hj. set_solver.
        -- simpl. set_solver.
        -- by eapply uniq_upd; [apply H|exact Hb|..].
        -- intros _ _ _ Hno. set_solver.
        -- intros Hdi. by apply (bi_dirty _ _ H i b Hb).
      * intros x. unfold set_buf. rewrite (view_upd s i b) by (done || apply H). simpl.
        rewrite Ev, Hd. destruct (b_sector b =? x) eqn:Ex; simpl; [|done].
        zbool. rewrite (view_hit s x i b) by (done || apply H). done.
      * intros x. by apply (is_dirty_set_buf s i b).
      * split; [intros Hdi; exists i, b; done|].
        intros (j & bj & Hj & Hdj & Hsj).
        destruct (bi_dirty _ _ H j bj Hj Hdj) as (_ & Hdv & _).
        assert (i = j) as <- by (eapply (bi_uniq _ _ H); eauto; congruence). congruence.
    + assert (Hdf : b_dirty b = false).
      { destruct (b_dirty b) eqn:E; [|done]. destruct (bi_dirty _ _ H i b Hb E). congruence. }
      assert (Hir : iderw i (set_buf i (with_busy true b) s) =
        Ok tt (set_buf i (loaded false sec (dget (disk s) 1 sec)) s)).
      { erewrite iderw_read; [|by apply lookup_set_buf|done..|by simpl; rewrite Hs].
        rewrite set_buf_set_buf. simpl. by rewrite Hs. }
      cbn [negb]. rewrite Hir. exists i, false.
      destruct (load_spec s K sec i b H Hb HiK Hdf Hsz) as (Hv & Hb' & Hv' & Hd' & Hn).
      { intros j bj Hj Hdj Hsj.
        assert (i = j) as <- by (eapply (bi_uniq _ _ H); eauto; congruence).
        rewrite Hb in Hj. injection Hj as <-. done. }
      cbn zeta. rewrite Hv. naive_solver.
  - destruct Hcan as [(i & b & Hb & Hd & Hs)|Hcan]; [by destruct (Hmiss i b Hb Hd)|].
    destruct (bget_miss s K sec H Hl Hmiss Hcan) as (i & b & Hget & Hb & HiK & Hdf).
    assert (Hlt : (i < NBUF)%nat) by (by eapply buf_lt).
    assert (Hlt' : (i < length (bufs s))%nat) by (by rewrite (bi_len _ _ H)).
    unfold bread, bind. rewrite Hget. unfold get_buf. rewrite lookup_set_buf by done.
    cbn [b_valid negb].
    assert (Hir : iderw i (set_buf i (mkBuf true false false 1 sec (b_data b)) s) =
      Ok tt (set_buf i (loaded false sec (dget (disk s) 1 sec)) s)).
    { erewrite iderw_read; [|by apply lookup_set_buf|done..]. by rewrite set_buf_set_buf. }
    rewrite Hir. exists i, false.
    destruct (load_spec s K sec i b H Hb HiK Hdf Hsz) as (Hv & Hb' & Hv' & Hd' & Hn).
    { intros j bj Hj Hdj Hsj. by destruct (Hmiss j bj Hj Hdj). }
    cbn zeta. rewrite Hv. naive_solver.
Qed.

(** ** Writing and releasing *)

Lemma filter_absent (i : nat) (l : list nat) : i ∉ l -> filter (fun j => j <> i) l = l.
Proof.
  induction l as [|a l IH]; intros Hn; [done|]. rewrite filter_cons.
  rewrite decide_True by set_solver. f_equal. apply IH. set_solver.
Qed.

Lemma move_front_perm i l : NoDup l -> i ∈ l -> move_front i l ≡ₚ l.
Proof.
  intros Hnd Hin. unfold move_front. induction l as [|a l IH]; [set_solver|].
  apply NoDup_cons in Hnd as [Hn Hnd]. rewrite filter_cons. case_decide as Ha.
  - rewrite Permutation_swap. f_equiv. apply IH; [done|set_solver].
  - subst a. by rewrite filter_absent.
Qed.

(** The state brelse leaves. *)
Definition released (i : nat) (b : buf) (s : fstate) : fstate :=
  add_wake (ChBuf i) (set_lru (move_front i (lru s)) (set_buf i (with_busy false b) s)).

Lemma view_bufs s s' x : bufs s' = bufs s -> disk s' = disk s -> view s' x = view s x.
Proof. intros H1 H2. unfold view. by rewrite H1, H2. Qed.

Lemma brelse_spec s K K' i b :
  binv s K -> bufs s !! i = Some b -> i ∈ K -> (forall j, j ∈ K' <-> j ∈ K /\ j <> i) ->
  (b_valid b = true -> b_dirty b = false -> b_dev b = 1 ->
     b_data b = dget (disk s) 1 (b_sector b)) ->
  LkBcache ∉ held (fthr s) -> LkPtable ∉ held (fthr s) ->
  let s' := released i b s in
  brelse i s = Ok tt s' /\ binv s' K' /\ (forall x, view s' x = view s x) /\
  (forall x, is_dirty s' x <-> is_dirty s x).
Proof.
  intros H Hb HiK HK' Hcl Hl1 Hl2 s'.
  assert (Hbusy : b_busy b = true) by (by apply (bi_busy _ _ H i b Hb)).
  assert (Hlt : (i < NBUF)%nat) by (by eapply buf_lt).
  split; [|split; [|split]].
  - unfold brelse, bind, get_buf. rewrite Hb, Hbusy. cbn [negb].
    rewrite acquire_ok by done. unfold modify. cbn [bufs set_lru set_held set_thr fstate_KState].
    simpl. rewrite Hb. unfold put_buf, modify. simpl.
    rewrite wakeup_ok by (simpl; set_solver).
    erewrite release_top by reflexivity.
    unfold s', released, add_wake, set_held. simpl. done.
  - unfold s', released. split; simpl.
    + rewrite length_insert. apply H.
    + rewrite move_front_perm; [apply H| |].
      * rewrite (bi_lru _ _ H). apply NoDup_seq.
      * by apply (lru_elem s K).
    + by eapply uniq_upd; [apply H|exact Hb|..].
    + intros j bj Hj. rewrite lookup_upd in Hj by (by rewrite (bi_len _ _ H)).
      destruct Hj as [[-> ->]|[_ Hj]]; [apply (bi_data _ _ H i b Hb)|by eapply bi_data].
    + intros j bj Hj. rewrite lookup_upd in Hj by (by rewrite (bi_len _ _ H)). rewrite HK'.
      destruct Hj as [[-> ->]|[Hne Hj]]; [simpl; naive_solver|].
      rewrite (bi_busy _ _ H j bj Hj). naive_solver.
    + intros j bj Hj Hv Hd Hdv HjK. rewrite lookup_upd in Hj by (by rewrite (bi_len _ _ H)).
      destruct Hj as [[-> ->]|[Hne Hj]]; [by apply Hcl|].
      apply (bi_clean _ _ H j bj Hj Hv Hd Hdv). rewrite HK' in HjK. naive_solver.
    + intros j bj Hj. rewrite lookup_upd in Hj by (by rewrite (bi_len _ _ H)).
      destruct Hj as [[-> ->]|[Hne Hj]]; [apply (bi_dirty _ _ H i b Hb)|by eapply bi_dirty].
    + apply (bi_disk _ _ H).
  - intros x. unfold s', released.
    transitivity (view (set_buf i (with_busy false b) s) x); [by apply view_bufs|].
    unfold set_buf. rewrite (view_upd s i b) by (done || apply H). simpl.
    destruct (b_valid b && (b_dev b =? 1) && (b_sector b =? x)) eqn:E; [|done].
    rewrite !andb_true_iff in E. destruct E as [[? ?] ?]. zbool.
    rewrite (view_hit s x i b) by (done || apply H). done.
  - intros x. change (is_dirty s' x) with (is_dirty (set_buf i (with_busy false b) s) x).
    by apply (is_dirty_set_buf s i b).
Qed.

Lemma set_data_spec s K i b d :
  binv s K -> bufs s !! i = Some b -> i ∈ K -> length d = BSIZE ->
  b_valid b = true -> b_dev b = 1 ->
  let s' := set_buf i (with_data d b) s in
  set_data i d s = Ok tt s' /\ binv s' K /\
  (forall x, view s' x = if decide (x = b_sector b) then d else view s x) /\
  (forall x, is_dirty s' x <-> is_dirty s x).
Proof.
  intros H Hb HiK Hlen Hv Hd s'.
  assert (Hlt : (i < NBUF)%nat) by (by eapply buf_lt).
  split; [|split; [|split]].
  - unfold set_data, bind, get_buf. by rewrite Hb.
  - apply (binv_set_buf s K); try done.
    + simpl. apply (bi_busy _ _ H i b Hb).
    + by eapply uniq_upd; [apply H|exact Hb|..].
    + apply (bi_dirty _ _ H i b Hb).
  - intros x. unfold s', set_buf. rewrite (view_upd s i b) by (done || apply H). simpl.
    rewrite Hv, Hd. simpl. destruct (b_sector b =? x) eqn:E; zbool; simpl.
    + by rewrite decide_True.
    + by rewrite decide_False by congruence.
  - intros x. by apply (is_dirty_set_buf s i b).
Qed.

(** The state bwrite leaves for a buffer holding [sec]. *)
Definition written (i : nat) (b : buf) (s : fstate) : fstate :=
  set_buf i (loaded false (b_sector b) (b_data b)) (disk_write 1 (b_sector b) (b_data b) s).

Lemma bwrite_spec s K i b :
  binv s K -> bufs s !! i = Some b -> i ∈ K -> b_valid b = true -> b_dev b = 1 ->
  b_sector b < disksize s ->
  let s' := written i b s in
  bwrite i s = Ok tt s' /\ binv s' K /\ (forall x, view s' x = view s x) /\
  (forall x, is_dirty s' x <-> is_dirty s x /\ x <> b_sector b).
Proof.
  intros H Hb HiK Hv Hd Hsz s'.
  assert (Hlt : (i < NBUF)%nat) by (by eapply buf_lt).
  assert (Hlt' : (i < length (bufs s))%nat) by (by rewrite (bi_len _ _ H)).
  assert (Hbusy : b_busy b = true) by (by apply (bi_busy _ _ H i b Hb)).
  pose proof (bi_data _ _ H i b Hb) as Hlen.
  assert (Hu' : uniq (<[i := loaded false (b_sector b) (b_data b)]> (bufs s)))
    by (by eapply uniq_upd; [apply H|exact Hb|..]).
  split; [|split; [|split]].
  - unfold bwrite, bind, get_buf. rewrite Hb, Hbusy. cbn [negb]. unfold put_buf, modify.
    change (set_bufs (<[i := with_dirty true b]> (bufs s)) s) with (set_buf i (with_dirty true b) s).
    erewrite iderw_write; [|by apply lookup_set_buf|done..].
    unfold s', written, set_buf, set_bufs, disk_write. simpl. by rewrite list_insert_insert_eq.
  - unfold s', written.
    assert (Hd' : forall x, length (dget (<[(1, b_sector b) := b_data b]> (disk s)) 1 x) = BSIZE).
    { intros x. rewrite dget_insert. destruct (decide _); [done|apply (bi_disk _ _ H)]. }
    split; simpl; try done.
    + rewrite length_insert. apply H.
    + apply H.
    + intros j bj Hj. rewrite lookup_upd in Hj by done.
      destruct Hj as [[-> ->]|[_ Hj]]; [done|by eapply bi_data].
    + intros j bj Hj. rewrite lookup_upd in Hj by done.
      destruct Hj as [[-> ->]|[Hne Hj]]; [done|]. by eapply bi_busy.
    + intros j bj Hj Hvj Hdj Hdvj HjK. rewrite lookup_upd in Hj by done.
      destruct Hj as [[-> ->]|[Hne Hj]]; [done|]. rewrite dget_insert.
      destruct (decide _) as [Heq|]; [|by apply (bi_clean _ _ H j bj)].
      injection Heq as Heq. destruct Hne. eapply (bi_uniq _ _ H); eauto.
    + intros j bj Hj. rewrite lookup_upd in Hj by done.
      destruct Hj as [[-> ->]|[Hne Hj]]; [done|]. by eapply bi_dirty.
  - intros x. destruct (decide (x = b_sector b)) as [->|Hx].
    + rewrite (view_hit s (b_sector b) i b) by (done || apply H).
      apply (view_hit s' _ i (loaded false (b_sector b) (b_data b))); try done.
      unfold s', written. by apply lookup_set_buf.
    + destruct (view_cases s x) as [(j & bj & Hj & Hvj & Hdj & Hsj)|Hm].
      * rewrite (view_hit s x j bj) by (done || apply H).
        apply (view_hit s' x j bj); try done. simpl. rewrite lookup_upd by done. right.
        split; [|done]. intros ->. congruence.
      * rewrite (view_miss s x) by done. rewrite (view_miss s' x).
        { simpl. rewrite dget_insert. by rewrite decide_False by congruence. }
        simpl. intros j bj Hj. rewrite lookup_upd in Hj by done.
        destruct Hj as [[-> ->]|[Hne Hj]]; [simpl; congruence|by eapply Hm].
  - intros x. unfold is_dirty. simpl. setoid_rewrite lookup_upd; [|done]. split.
    + intros (j & bj & [[-> ->]|[Hne Hj]] & Hdj & Hsj); [done|]. split; [eauto|].
      intros ->. apply Hne. destruct (bi_dirty _ _ H j bj Hj Hdj) as (_ & Hdv & _).
      eapply (bi_uniq _ _ H); eauto.
    + intros [(j & bj & Hj & Hdj & Hsj) Hx]. exists j, bj. split; [|done]. right.
      split; [|done]. intros ->. congruence.
Qed.
