(* ===== verification/Ide.v ===== *)
(** * ide.c: the interrupt-driven disk driver

    The drive is a parameter: the four kinds of port access the driver makes,
    as a class.  The queue of requests is the list of buffers linked through
    qnext, as in the source, and a buffer is named by its index in the cache.
    Every access happens under idelock, so a call of iderw up to its sleep and
    an interrupt are single steps. *)

From S2P Require Import Prelude Monad Locks FsState.

Open Scope Z_scope.
Open Scope kernel_scope.

Class Drive (D : Type) := {
  inb : Z -> D -> Z * D;
  outb : Z -> Z -> D -> D;
  insl : D -> list Z * D;               (* 512/4 longs from 0x1f0 *)
  outsl : list Z -> D -> D
}.

Definition IDE_BSY : Z := 128.
Definition IDE_DRDY : Z := 64.
Definition IDE_DF : Z := 32.
Definition IDE_ERR : Z := 1.
Definition IDE_CMD_READ : Z := 32.
Definition IDE_CMD_WRITE : Z := 48.

Definition PORT_COUNT : Z := 498.       (* 0x1f2 *)
Definition PORT_LBA0 : Z := 499.
Definition PORT_LBA1 : Z := 500.
Definition PORT_LBA2 : Z := 501.
Definition PORT_DEVICE : Z := 502.      (* 0x1f6 *)
Definition PORT_COMMAND : Z := 503.     (* 0x1f7 *)
Definition PORT_CONTROL : Z := 1014.    (* 0x3f6 *)

Section driver.
Context {D : Type} `{Drive D}.
(** How often idewait may read the status. *)
Context (polls : nat).

Record ide : Type := mkIde {
  id_bufs : list buf;
  id_qnext : list (option nat);
  id_queue : option nat;
  havedisk1 : bool;
  id_drive : D;
  id_thr : thread
}.

#[export] Instance ide_KState : KState ide.
Proof.
  refine {| thr := id_thr;
            set_thr t s := mkIde (id_bufs s) (id_qnext s) (id_queue s) (havedisk1 s) (id_drive s) t |};
    intros; try done. by destruct s.
Defined.

Definition set_ibufs (v : list buf) (s : ide) : ide :=
  mkIde v (id_qnext s) (id_queue s) (havedisk1 s) (id_drive s) (id_thr s).
Definition set_qnext (v : list (option nat)) (s : ide) : ide :=
  mkIde (id_bufs s) v (id_queue s) (havedisk1 s) (id_drive s) (id_thr s).
Definition set_queue (v : option nat) (s : ide) : ide :=
  mkIde (id_bufs s) (id_qnext s) v (havedisk1 s) (id_drive s) (id_thr s).
Definition set_have1 (v : bool) (s : ide) : ide :=
  mkIde (id_bufs s) (id_qnext s) (id_queue s) v (id_drive s) (id_thr s).
Definition set_drive (v : D) (s : ide) : ide :=
  mkIde (id_bufs s) (id_qnext s) (id_queue s) (havedisk1 s) v (id_thr s).

Definition ibuf (i : nat) : M ide buf := fun s =>
  match id_bufs s !! i with Some b => Ok b s | None => Fault "bad buffer pointer" end.
Definition put_ibuf (i : nat) (b : buf) : M ide unit := modify (fun s => set_ibufs (<[i := b]> (id_bufs s)) s).

Definition port_out (p v : Z) : M ide unit := modify (fun s => set_drive (outb p v (id_drive s)) s).

(** The loop of idewait: the first status with DRDY and without BSY. *)
Fixpoint wait_ready (d : D) (fuel : nat) : option (Z * D) :=
  match fuel with
  | O => None
  | S fuel =>
      let '(r, d) := inb PORT_COMMAND d in
      if Z.land r (Z.lor IDE_BSY IDE_DRDY) =? IDE_DRDY then Some (r, d) else wait_ready d fuel
  end.

Definition idewait (checkerr : bool) : M ide Z := fun s =>
  match wait_ready (id_drive s) polls with
  | None => Fault "drive not ready"
  | Some (r, d) =>
      Ok (if checkerr && negb (Z.land r (Z.lor IDE_DF IDE_ERR) =? 0) then -1 else 0) (set_drive d s)
  end.

(** The probe for disk 1 in ideinit. *)
Fixpoint probe_disk1 (n : nat) : M ide unit :=
  match n with
  | O => ret tt
  | S n =>
      do s <- get;
      let '(r, d) := inb PORT_COMMAND (id_drive s) in
      modify (set_drive d) ;;
      if negb (r =? 0) then modify (set_have1 true) else probe_disk1 n
  end.

Definition ideinit : M ide unit :=
  initlock LkIde ;;
  idewait false ;;
  port_out PORT_DEVICE (Z.lor 224 (Z.shiftl 1 4)) ;;
  probe_disk1 1000 ;;
  port_out PORT_DEVICE (Z.lor 224 (Z.shiftl 0 4)).

Definition idestart (ob : option nat) : M ide unit :=
  match ob with
  | None => panic "idestart"
  | Some i =>
      do b <- ibuf i;
      idewait false ;;
      port_out PORT_CONTROL 0 ;;
      port_out PORT_COUNT 1 ;;
      port_out PORT_LBA0 (Z.land (b_sector b) 255) ;;
      port_out PORT_LBA1 (Z.land (Z.shiftr (b_sector b) 8) 255) ;;
      port_out PORT_LBA2 (Z.land (Z.shiftr (b_sector b) 16) 255) ;;
      port_out PORT_DEVICE
        (Z.lor (Z.lor 224 (Z.shiftl (Z.land (b_dev b) 1) 4)) (Z.land (Z.shiftr (b_sector b) 24) 15)) ;;
      if b_dirty b then
        port_out PORT_COMMAND IDE_CMD_WRITE ;;
        modify (fun s => set_drive (outsl (b_data b) (id_drive s)) s)
      else port_out PORT_COMMAND IDE_CMD_READ
  end.

(** The data of a finished read; the buffer keeps its bytes when the drive
    reports an error. *)
Definition fetch_data (i : nat) (b : buf) : M ide unit :=
  if negb (b_dirty b) then
    do r <- idewait true;
    if 0 <=? r then
      do s <- get;
      let '(data, d) := insl (id_drive s) in
      modify (set_drive d) ;; put_ibuf i (with_data data b)
    else ret tt
  else ret tt.

(** The interrupt.  With an empty queue it is passed on to ex_ideintr, the
    result, when the process is registered ([exo]); for any other process the
    code goes on with a null buffer. *)
Definition ideintr (exo : bool) : M ide bool :=
  acquire LkIde ;;
  do s <- get;
  match id_queue s with
  | None => release LkIde ;; if exo then ret true else fault "null buffer in ideintr"
  | Some i =>
      modify (fun s => set_queue (default None (id_qnext s !! i)) s) ;;
      do b <- ibuf i;
      fetch_data i b ;;
      do b <- ibuf i;
      put_ibuf i (with_dirty false (with_valid true b)) ;;
      wakeup (ChBuf i) ;;
      do s <- get;
      (match id_queue s with Some j => idestart (Some j) | None => ret tt end) ;;
      release LkIde ;;
      ret false
  end.

(** The end of the queue: [None] for idequeue itself, or the buffer whose qnext
    is null. *)
Fixpoint queue_end (qnext : list (option nat)) (holder q : option nat) (fuel : nat) : option (option nat) :=
  match fuel with
  | O => None
  | S fuel =>
      match q with
      | None => Some holder
      | Some i => queue_end qnext (Some i) (default None (qnext !! i)) fuel
      end
  end.

Definition queue_append (i : nat) : M ide unit := fun s =>
  match queue_end (id_qnext s) None (id_queue s) (S (length (id_qnext s))) with
  | None => Fault "queue has no end"
  | Some None => Ok tt (set_queue (Some i) s)
  | Some (Some j) => Ok tt (set_qnext (<[j := Some i]> (id_qnext s)) s)
  end.

(** The loop around sleep, entered with idelock held. *)
Definition iderw_wait (i : nat) : M ide unit :=
  do b <- ibuf i;
  if b_valid b && negb (b_dirty b) then release LkIde else sleep (ChBuf i) LkIde.

Definition iderw (i : nat) : M ide unit :=
  do b <- ibuf i;
  do s <- get;
  if negb (b_busy b) then panic "iderw: buf not busy"
  else if b_valid b && negb (b_dirty b) then panic "iderw: nothing to do"
  else if negb (b_dev b =? 0) && negb (havedisk1 s) then panic "iderw: ide disk 1 not present"
  else
    acquire LkIde ;;
    modify (fun s => set_qnext (<[i := None]> (id_qnext s)) s) ;;
    queue_append i ;;
    do s <- get;
    (if bool_decide (id_queue s = Some i) then idestart (Some i) else ret tt) ;;
    iderw_wait i.

(** A process that has slept takes idelock again and looks once more. *)
Definition iderw_resume (i : nat) : M ide unit := acquire LkIde ;; iderw_wait i.
End driver.

Arguments ide D : clear implicits.
