(* ===== verification/IdeSpec.v ===== *)
(** * The disk driver serves its queue in order

    What a drive promises, as a class over the port accesses of ide.c; an
    abstract disk with a list of pending requests; and the proof that iderw and
    the interrupt handler implement it, whatever the order of requests and
    interrupts.  One request on an idle drive has the effect of the synchronous
    driver memide.c, which the file system is verified over. *)

From S2P Require Import Prelude Monad Locks FsState Bio Ide.

Open Scope Z_scope.

(** ** What a drive promises *)

Definition lba (reg : Z -> Z) : Z :=
  reg PORT_LBA0 + 256 * reg PORT_LBA1 + 65536 * reg PORT_LBA2 + 16777216 * Z.land (reg PORT_DEVICE) 15.
Definition unit_no (reg : Z -> Z) : Z := Z.land (Z.shiftr (reg PORT_DEVICE) 4) 1.

Definition registers : list Z := [PORT_CONTROL; PORT_COUNT; PORT_LBA0; PORT_LBA1; PORT_LBA2; PORT_DEVICE].

(** A drive without media errors.  Its registers can be written, a command
    given and data read when it is not busy, and it is not busy when the status
    read with DRDY and without BSY; a command moves the one sector that the
    count register asks for. *)
Class DriveLaws (D : Type) `{Drive D} (polls : nat) := {
  dr_idle : D -> Prop;                     (* not busy *)
  dr_reg : D -> Z -> Z;                    (* what was last written to a register *)
  dr_sectors : D -> Z -> Z -> list Z;      (* unit and sector to contents *)
  dr_read : D -> option (Z * Z);           (* the sector that waits to be read out *)

  dr_sector_length d u n : length (dr_sectors d u n) = BSIZE;
  dr_out p v d : p ∈ registers -> dr_idle d -> dr_idle (outb p v d) /\
    (forall q, dr_reg (outb p v d) q = if q =? p then v else dr_reg d q) /\
    (forall u n, dr_sectors (outb p v d) u n = dr_sectors d u n);
  dr_cmd_read d : dr_idle d -> dr_reg d PORT_COUNT = 1 ->
    dr_read (outb PORT_COMMAND IDE_CMD_READ d) = Some (unit_no (dr_reg d), lba (dr_reg d)) /\
    forall u n, dr_sectors (outb PORT_COMMAND IDE_CMD_READ d) u n = dr_sectors d u n;
  dr_insl d u n : dr_idle d -> dr_read d = Some (u, n) ->
    fst (insl d) = dr_sectors d u n /\ forall u' n', dr_sectors (snd (insl d)) u' n' = dr_sectors d u' n';
  dr_cmd_write d data u n : dr_idle d -> dr_reg d PORT_COUNT = 1 -> length data = BSIZE ->
    dr_sectors (outsl data (outb PORT_COMMAND IDE_CMD_WRITE d)) u n =
    if (u =? unit_no (dr_reg d)) && (n =? lba (dr_reg d)) then data else dr_sectors d u n;
  dr_ready d : exists r d', wait_ready d polls = Some (r, d') /\ dr_idle d' /\ Z.land r (Z.lor IDE_DF IDE_ERR) = 0 /\
    dr_read d' = dr_read d /\ forall u n, dr_sectors d' u n = dr_sectors d u n
}.

(** ** The abstract disk *)

Definition b_key (b : buf) : Z * Z := (Z.land (b_dev b) 1, b_sector b mod 2 ^ 28).

Definition store (disk : Z -> Z -> list Z) (k : Z * Z) (v : list Z) : Z -> Z -> list Z :=
  fun u n => if (u =? fst k) && (n =? snd k) then v else disk u n.

Record adisk : Type := mkAdisk {
  a_queue : list nat;
  a_bufs : list buf;
  a_disk : Z -> Z -> list Z
}.

Definition a_request (i : nat) (a : adisk) : adisk := mkAdisk (a_queue a ++ [i]) (a_bufs a) (a_disk a).

(** The oldest request is carried out. *)
Definition a_serve (a : adisk) : adisk :=
  match a_queue a with
  | [] => a
  | i :: q =>
      match a_bufs a !! i with
      | None => a
      | Some b =>
          if b_dirty b then
            mkAdisk q (<[i := with_dirty false (with_valid true b)]> (a_bufs a)) (store (a_disk a) (b_key b) (b_data b))
          else
            mkAdisk q
              (<[i := with_dirty false (with_valid true (with_data (a_disk a (fst (b_key b)) (snd (b_key b))) b))]> (a_bufs a))
              (a_disk a)
      end
  end.

(** ** The queue *)

Fixpoint linked (qnext : list (option nat)) (q : option nat) (l : list nat) : Prop :=
  match l with
  | [] => q = None
  | i :: l => q = Some i /\ linked qnext (default None (qnext !! i)) l
  end.

Lemma queue_end_linked qnext holder q l fuel : linked qnext q l -> (length l < fuel)%nat ->
  queue_end qnext holder q fuel = Some (match last l with Some i => Some i | None => holder end).
Proof.
  revert holder q fuel. induction l as [|i l IH]; intros holder q fuel Hl Hf; (destruct fuel as [|fuel]; [simpl in Hf; lia|]);
    cbn [linked queue_end] in *.
  - by subst q.
  - destruct Hl as (-> & Hl). rewrite (IH (Some i) _ fuel Hl) by (simpl in *; lia).
    destruct l as [|j l]; [done|]. rewrite last_cons_cons.
    destruct (last (j :: l)) eqn:E; [done|by apply last_None in E].
Qed.

Lemma linked_frame qnext q l i v : i ∉ l -> linked qnext q l -> linked (<[i := v]> qnext) q l.
Proof.
  revert q. induction l as [|j l IH]; intros q Hi; cbn [linked]; [done|]. intros (-> & Hl).
  apply not_elem_of_cons in Hi as (Hne & Hi). rewrite list_lookup_insert_ne by done. auto.
Qed.

Lemma linked_app qnext q l i j :
  NoDup (l ++ [j]) -> i ∉ l ++ [j] -> (j < length qnext)%nat -> qnext !! i = Some None ->
  linked qnext q (l ++ [j]) -> linked (<[j := Some i]> qnext) q ((l ++ [j]) ++ [i]).
Proof.
  revert q. induction l as [|k l IH]; intros q Hnd Hi Hj Hn; cbn [app linked].
  - intros (-> & _). rewrite list_lookup_insert_eq by done. simpl. rewrite list_lookup_insert_ne, Hn by set_solver. done.
  - intros (-> & Hl). cbn [app] in Hnd, Hi. apply NoDup_cons in Hnd as (Hk & Hnd). apply not_elem_of_cons in Hi as (_ & Hi).
    split; [done|]. rewrite list_lookup_insert_ne by set_solver. by apply IH.
Qed.

(** ** Starting a request *)

Section drive.
Context {D : Type} `{Drive D} (polls : nat) `{!DriveLaws D polls}.

Lemma device_register e k : e = 0 \/ e = 1 -> 0 <= k < 16 ->
  Z.land (Z.lor (Z.lor 224 (Z.shiftl e 4)) k) 15 = k /\
  Z.land (Z.shiftr (Z.lor (Z.lor 224 (Z.shiftl e 4)) k) 4) 1 = e.
Proof.
  intros He Hk. assert (Hin : k ∈ [0;1;2;3;4;5;6;7;8;9;10;11;12;13;14;15]) by (set_unfold; lia).
  destruct He as [-> | ->]; set_unfold in Hin; repeat destruct Hin as [->|Hin]; done.
Qed.

Lemma sector_registers sec :
  Z.land sec 255 + 256 * Z.land (Z.shiftr sec 8) 255 + 65536 * Z.land (Z.shiftr sec 16) 255 +
  16777216 * Z.land (Z.shiftr sec 24) 15 = sec mod 2 ^ 28.
Proof.
  change 255 with (2 ^ 8 - 1). change 15 with (2 ^ 4 - 1). rewrite !land_mask, !Z.shiftr_div_pow2 by lia.
  change (2 ^ 8) with 256. change (2 ^ 16) with 65536. change (2 ^ 24) with 16777216. change (2 ^ 4) with 16.
  change (2 ^ 28) with 268435456. zlia.
Qed.

Lemma land_1 e : Z.land e 1 = 0 \/ Z.land e 1 = 1.
Proof. pose proof (land_mask e 1 ltac:(lia)) as E. change (2 ^ 1 - 1) with 1 in E. rewrite E. change (2 ^ 1) with 2. zlia. Qed.

(** What the drive is to do for the buffer [b], on the disk contents [disk]. *)
Definition started (b : buf) (disk : Z -> Z -> list Z) (d : D) : Prop :=
  if b_dirty b then forall u n, dr_sectors d u n = store disk (b_key b) (b_data b) u n
  else dr_read d = Some (b_key b) /\ forall u n, dr_sectors d u n = disk u n.

(** Writes to the registers, one after the other. *)
Definition outs (l : list (Z * Z)) (d : D) : D := fold_left (fun d pv => outb (fst pv) (snd pv) d) l d.
Definition reg_after (l : list (Z * Z)) (q r : Z) : Z := fold_left (fun r pv => if q =? fst pv then snd pv else r) l r.

Lemma dr_outs l d : Forall (fun pv => fst pv ∈ registers) l -> dr_idle d ->
  dr_idle (outs l d) /\ (forall q, dr_reg (outs l d) q = reg_after l q (dr_reg d q)) /\
  (forall u n, dr_sectors (outs l d) u n = dr_sectors d u n).
Proof.
  intros Hl. revert d. induction Hl as [|[p v] l Hp Hl IH]; intros d Hi; [done|]. cbn [outs reg_after fold_left fst snd].
  destruct (dr_out p v d Hp Hi) as (Hi1 & Hr & Hs). destruct (IH (outb p v d) Hi1) as (Hi' & Hr' & Hs').
  split; [done|]. split; intros; [rewrite <- Hr; apply Hr'|rewrite <- Hs; apply Hs'].
Qed.

Definition request_regs (b : buf) : list (Z * Z) :=
  [(PORT_CONTROL, 0); (PORT_COUNT, 1); (PORT_LBA0, Z.land (b_sector b) 255);
   (PORT_LBA1, Z.land (Z.shiftr (b_sector b) 8) 255); (PORT_LBA2, Z.land (Z.shiftr (b_sector b) 16) 255);
   (PORT_DEVICE, Z.lor (Z.lor 224 (Z.shiftl (Z.land (b_dev b) 1) 4)) (Z.land (Z.shiftr (b_sector b) 24) 15))].

Lemma request_key b d : dr_idle d -> let d' := outs (request_regs b) d in
  dr_idle d' /\ dr_reg d' PORT_COUNT = 1 /\ (unit_no (dr_reg d'), lba (dr_reg d')) = b_key b /\
  forall u n, dr_sectors d' u n = dr_sectors d u n.
Proof.
  intros Hi. destruct (dr_outs (request_regs b) d) as (Hi' & Hr & Hs); [repeat constructor; set_solver|done|].
  cbv zeta. split; [done|]. split; [by rewrite Hr|]. split; [|done].
  destruct (device_register (Z.land (b_dev b) 1) (Z.land (Z.shiftr (b_sector b) 24) 15)) as (E1 & E2); [apply land_1| |].
  { change 15 with (2 ^ 4 - 1). rewrite land_mask by lia. apply Z.mod_pos_bound. lia. }
  unfold unit_no, lba, b_key. rewrite !Hr, <- sector_registers. clear Hr Hs.
  cbn [reg_after request_regs fold_left fst snd].
  unfold PORT_CONTROL, PORT_COUNT, PORT_LBA0, PORT_LBA1, PORT_LBA2, PORT_DEVICE. cbn [Z.eqb Pos.eqb]. by rewrite E1, E2.
Qed.

Lemma idestart_spec i b s disk :
  id_bufs s !! i = Some b -> length (b_data b) = BSIZE -> (forall u n, dr_sectors (id_drive s) u n = disk u n) ->
  exists d, idestart polls (Some i) s = Ok tt (set_drive d s) /\ started b disk d.
Proof.
  intros Hb Hlen Hd. destruct (dr_ready (id_drive s)) as (r & d0 & Hw & Hi0 & _ & _ & Hs0).
  unfold idestart, bind, ibuf, idewait, port_out, modify. rewrite Hb, Hw. destruct (request_key b d0 Hi0) as (Hi & Hc & Hkey & Hs).
  set (d6 := outs (request_regs b) d0) in *. unfold started. destruct (b_dirty b).
  - exists (outsl (b_data b) (outb PORT_COMMAND IDE_CMD_WRITE d6)). split; [done|]. intros u n. rewrite dr_cmd_write by done.
    unfold store. rewrite <- Hkey. cbn [fst snd]. by rewrite Hs, Hs0, Hd.
  - exists (outb PORT_COMMAND IDE_CMD_READ d6). split; [done|]. destruct (dr_cmd_read d6 Hi Hc) as (Hr & Hs').
    split; [by rewrite Hr, Hkey|]. intros u n. by rewrite Hs', Hs, Hs0, Hd.
Qed.

(** ** The simulation *)

(** A buffer that iderw accepts. *)
Definition wants (b : buf) : Prop := b_valid b && negb (b_dirty b) = false /\ length (b_data b) = BSIZE.

Record ide_rel (s : ide D) (a : adisk) : Prop := {
  rel_bufs : id_bufs s = a_bufs a;
  rel_queue : linked (id_qnext s) (id_queue s) (a_queue a);
  rel_nodup : NoDup (a_queue a);
  rel_length : length (id_qnext s) = length (id_bufs s);
  rel_wants : forall i, i ∈ a_queue a -> exists b, a_bufs a !! i = Some b /\ wants b;
  rel_held : held (id_thr s) = [];
  rel_drive :
    match a_queue a with
    | [] => forall u n, dr_sectors (id_drive s) u n = a_disk a u n
    | i :: _ => forall b, a_bufs a !! i = Some b -> started b (a_disk a) (id_drive s)
    end
}.

Lemma NoDup_small (l : list nat) n : NoDup l -> (forall i, i ∈ l -> (i < n)%nat) -> (length l <= n)%nat.
Proof.
  intros Hnd Hl. assert (Hs : l ⊆+ seq 0 n).
  { apply NoDup_submseteq; [done|]. intros i Hi. apply elem_of_seq. specialize (Hl i Hi). lia. }
  apply submseteq_length in Hs. by rewrite length_seq in Hs.
Qed.

Lemma ibuf_ok i b (s : ide D) : id_bufs s !! i = Some b -> ibuf i s = Ok b s.
Proof. intros Hb. unfold ibuf. by rewrite Hb. Qed.

Lemma queue_append_spec bs qn q hv (d : D) t l i :
  linked qn q l -> NoDup l -> i ∉ l -> (i < length qn)%nat -> (forall j, j ∈ l -> (j < length qn)%nat) ->
  exists qn' q', queue_append i (mkIde bs (<[i := None]> qn) q hv d t) = Ok tt (mkIde bs qn' q' hv d t) /\
    linked qn' q' (l ++ [i]) /\ length qn' = length qn /\ q' = match l with [] => Some i | _ => q end.
Proof.
  intros Hl Hnd Hi Hlt Hall. apply (linked_frame _ _ _ i None Hi) in Hl as Hl'.
  unfold queue_append. cbn [id_qnext id_queue].
  rewrite (queue_end_linked _ None q l) by (try done; rewrite length_insert; pose proof (NoDup_small l _ Hnd Hall); lia).
  destruct (last l) as [j|] eqn:El.
  - apply last_Some in El as (l' & ->). exists (<[j := Some i]> (<[i := None]> qn)), q. split; [done|].
    split; [|split; [by rewrite !length_insert|by destruct l']].
    apply linked_app; [done|done|rewrite length_insert; apply Hall; set_solver|by rewrite list_lookup_insert_eq|done].
  - apply last_None in El as ->. exists (<[i := None]> qn), (Some i). split; [done|]. split; [|split; [by rewrite length_insert|done]].
    cbn [app linked]. by rewrite list_lookup_insert_eq.
Qed.

Lemma iderw_step i b s a :
  ide_rel s a -> a_bufs a !! i = Some b -> b_busy b = true -> wants b -> i ∉ a_queue a ->
  b_dev b = 0 \/ havedisk1 s = true ->
  exists s', iderw polls i s = Sleeps (ChBuf i) s' /\ ide_rel s' (a_request i a) /\ havedisk1 s' = havedisk1 s.
Proof.
  intros [Hb Hq Hnd Hlen Hw Hheld Hdr] Hi Hbusy (Hwork & Hsz) Hni Hdev.
  destruct s as [bs qn q hv d [hs ws]]. cbn in *. subst bs hs.
  assert (Hlt : forall j, j ∈ a_queue a -> (j < length qn)%nat).
  { intros j Hj. destruct (Hw j Hj) as (bj & Hbj & _). rewrite Hlen. by eapply lookup_lt_Some. }
  assert (Hilt : (i < length qn)%nat) by (rewrite Hlen; by eapply lookup_lt_Some).
  destruct (queue_append_spec (a_bufs a) qn q hv d (mkThread [LkIde] ws) _ i Hq Hnd Hni Hilt Hlt)
    as (qn' & q' & Eap & Hq' & Hlen' & Eq').
  assert (Hnd' : NoDup (a_queue a ++ [i])) by (apply NoDup_app; split_and!; [done|set_solver|apply NoDup_singleton]).
  assert (Hw' : forall j, j ∈ a_queue a ++ [i] -> exists b, a_bufs a !! j = Some b /\ wants b).
  { intros j [Hj|Hj%list_elem_of_singleton]%elem_of_app; [by apply Hw|subst j; by exists b]. }
  unfold iderw. erewrite bind_Ok by (apply ibuf_ok; exact Hi). unfold bind at 1, get.
  rewrite Hbusy, Hwork. cbn [negb havedisk1].
  replace (negb (b_dev b =? 0) && negb hv) with false by (destruct Hdev as [->| ->]; [done|by rewrite andb_false_r]).
  erewrite bind_Ok by (apply acquire_ok; cbn; set_solver). erewrite bind_Ok by done.
  erewrite bind_Ok by exact Eap. unfold bind at 1. cbn [id_queue].
  assert (Hfin : forall d', (match a_queue a ++ [i] with
      | [] => forall u n, dr_sectors d' u n = a_disk a u n
      | i :: _ => forall b, a_bufs a !! i = Some b -> started b (a_disk a) d' end) ->
    exists s', iderw_wait i (mkIde (a_bufs a) qn' q' hv d' (mkThread [LkIde] ws)) = Sleeps (ChBuf i) s' /\
      ide_rel s' (a_request i a) /\ havedisk1 s' = hv).
  { intros d' Hd'. unfold iderw_wait. erewrite bind_Ok by (apply ibuf_ok; exact Hi). rewrite Hwork.
    rewrite sleep_ok by done. eexists. split; [done|]. split; [|done]. constructor; try done. cbn. lia. }
  destruct (a_queue a) as [|k l] eqn:Ea; subst q'.
  - rewrite bool_decide_true by done.
    destruct (idestart_spec i b (mkIde (a_bufs a) qn' (Some i) hv d (mkThread [LkIde] ws)) (a_disk a)) as (d' & Est & Hst);
      [done|done|done|]. erewrite bind_Ok by exact Est. apply Hfin. cbn. congruence.
  - destruct Hq as (-> & _). rewrite bool_decide_false by set_solver. rewrite bind_ret. by apply Hfin.
Qed.

(** The part of the interrupt that ends the request of the buffer [b]. *)
Lemma fetch_data_spec i b disk bs qn q hv d t :
  bs !! i = Some b -> started b disk d ->
  exists d', fetch_data polls i b (mkIde bs qn q hv d t) =
    Ok tt (mkIde (if b_dirty b then bs else <[i := with_data (disk (fst (b_key b)) (snd (b_key b))) b]> bs) qn q hv d' t) /\
    forall u n, dr_sectors d' u n = (if b_dirty b then store disk (b_key b) (b_data b) else disk) u n.
Proof.
  intros Hb Hst. unfold started, fetch_data in *. destruct (b_dirty b); cbn [negb].
  - by exists d.
  - destruct Hst as (Hr & Hs). destruct (dr_ready d) as (r & d0 & Hw & Hi0 & Hok & Hr0 & Hs0).
    rewrite Hr in Hr0. destruct (dr_insl d0 (fst (b_key b)) (snd (b_key b)) Hi0) as (Hd & Hs1); [by rewrite Hr0; destruct (b_key b)|].
    unfold bind, idewait. cbn [id_drive]. rewrite Hw, Hok. cbn [andb negb Z.eqb get set_drive id_drive Z.leb Z.compare].
    destruct (insl d0) as [data d1]. cbn [fst snd] in *. exists d1. split.
    + unfold modify, put_ibuf, modify. cbn. by rewrite Hd, Hs0, Hs.
    + intros u n. by rewrite Hs1, Hs0, Hs.
Qed.

(** The buffers and the disk after the oldest request. *)
Lemma a_serve_cons a i q b : a_queue a = i :: q -> a_bufs a !! i = Some b ->
  exists b1,
    (if b_dirty b then a_bufs a
     else <[i := with_data (a_disk a (fst (b_key b)) (snd (b_key b))) b]> (a_bufs a)) !! i = Some b1 /\
    a_serve a =
    mkAdisk q
      (<[i := with_dirty false (with_valid true b1)]>
        (if b_dirty b then a_bufs a
         else <[i := with_data (a_disk a (fst (b_key b)) (snd (b_key b))) b]> (a_bufs a)))
      (if b_dirty b then store (a_disk a) (b_key b) (b_data b) else a_disk a).
Proof.
  intros Ea Hi. unfold a_serve. rewrite Ea, Hi. destruct (b_dirty b); [by exists b|].
  eexists. split; [apply list_lookup_insert_eq; by eapply lookup_lt_Some|]. by rewrite list_insert_insert_eq.
Qed.

Lemma ideintr_step exo i q s a :
  ide_rel s a -> a_queue a = i :: q ->
  exists s', ideintr polls exo s = Ok false s' /\ ide_rel s' (a_serve a) /\ havedisk1 s' = havedisk1 s /\
    wakes (id_thr s') = ChBuf i :: wakes (id_thr s).
Proof.
  intros [Hb Hq Hnd Hlen Hw Hheld Hdr] Ea. rewrite Ea in *. destruct (Hw i) as (b & Hi & Hwb); [set_solver|].
  specialize (Hdr b Hi). destruct s as [bs qn qh hv d [hs ws]]. cbn in *. subst bs hs. destruct Hq as (-> & Hq).
  apply NoDup_cons in Hnd as (Hni & Hnd).
  set (qh' := default None (qn !! i)) in *. set (t := mkThread [LkIde] ws).
  destruct (fetch_data_spec i b (a_disk a) (a_bufs a) qn qh' hv d t) as (d1 & E1 & Hs1); [done|done|].
  destruct (a_serve_cons a i q b Ea Hi) as (b1 & Hb1 & Eserve).
  set (bs1 := if b_dirty b then a_bufs a else <[i := _]> (a_bufs a)) in *.
  set (disk1 := if b_dirty b then store _ _ _ else a_disk a) in *.
  set (bs2 := <[i := with_dirty false (with_valid true b1)]> bs1) in *.
  assert (Hother : forall j, j <> i -> bs2 !! j = a_bufs a !! j).
  { intros j Hj. unfold bs2, bs1. rewrite list_lookup_insert_ne by done.
    destruct (b_dirty b); [done|]. by rewrite list_lookup_insert_ne. }
  assert (Hlen2 : length bs2 = length (a_bufs a)).
  { unfold bs2, bs1. rewrite length_insert. destruct (b_dirty b); [done|]. apply length_insert. }
  unfold ideintr. erewrite bind_Ok by (apply acquire_ok; cbn; set_solver). unfold bind at 1, get.
  cbn [id_queue set_held set_thr ide_KState].
  erewrite bind_Ok by done. erewrite bind_Ok by (apply ibuf_ok; exact Hi).
  erewrite bind_Ok by exact E1. erewrite bind_Ok by (apply ibuf_ok; exact Hb1).
  erewrite bind_Ok by done. erewrite bind_Ok by (apply wakeup_ok; cbn; set_solver).
  assert (Hfin : forall d2, (match q with
      | [] => forall u n, dr_sectors d2 u n = disk1 u n
      | j :: _ => forall b, bs2 !! j = Some b -> started b disk1 d2 end) ->
    exists s', (release LkIde ;; ret false)%kernel (mkIde bs2 qn qh' hv d2 (mkThread [LkIde] (ChBuf i :: ws))) = Ok false s' /\
      ide_rel s' (a_serve a) /\ havedisk1 s' = hv /\ wakes (id_thr s') = ChBuf i :: ws).
  { intros d2 Hd2. erewrite bind_Ok by (eapply release_top; done). eexists. split; [done|]. rewrite Eserve.
    split; [|done]. constructor; try done; cbn; [lia|]. intros j Hj. rewrite Hother by (intros ->; done).
    apply Hw. set_solver. }
  match goal with |- context [add_wake ?c ?x] =>
    change (add_wake c x) with (mkIde bs2 qn qh' hv d1 (mkThread [LkIde] (ChBuf i :: ws))) end.
  unfold bind at 1. cbn [id_queue]. destruct q as [|j q].
  - cbn in Hq. rewrite Hq in *. rewrite bind_ret. by apply Hfin.
  - destruct Hq as (Hq & _). rewrite Hq in *. destruct (Hw j) as (bj & Hbj & Hwj & Hlj); [set_solver|].
    assert (Hbj2 : bs2 !! j = Some bj) by (rewrite Hother; [done|intros ->; set_solver]).
    destruct (idestart_spec j bj (mkIde bs2 qn (Some j) hv d1 (mkThread [LkIde] (ChBuf i :: ws))) disk1) as (d2 & E2 & Hst);
      [done|done|done|]. erewrite bind_Ok by exact E2. apply Hfin. congruence.
Qed.

(** ** Any order of requests and interrupts *)

Inductive event : Type :=
| Request (i : nat)                  (* a process calls iderw and sleeps *)
| Interrupt (exo : bool)             (* the drive is done *)
| Change (i : nat) (b : buf).        (* a process works on a buffer that is not queued *)

Definition a_event (e : event) (a : adisk) : adisk :=
  match e with
  | Request i => a_request i a
  | Interrupt _ => a_serve a
  | Change i b => mkAdisk (a_queue a) (<[i := b]> (a_bufs a)) (a_disk a)
  end.

(** Requests are made for buffers that the caller has locked and that are not
    queued; an interrupt follows a request. *)
Definition allowed (have1 : bool) (e : event) (a : adisk) : Prop :=
  match e with
  | Request i => (i ∉ a_queue a) /\
      exists b, a_bufs a !! i = Some b /\ b_busy b = true /\ wants b /\ (b_dev b = 0 \/ have1 = true)
  | Interrupt _ => a_queue a <> []
  | Change i b => i ∉ a_queue a
  end.

Fixpoint all_allowed (have1 : bool) (es : list event) (a : adisk) : Prop :=
  match es with
  | [] => True
  | e :: es => allowed have1 e a /\ all_allowed have1 es (a_event e a)
  end.

Definition c_event (e : event) (s : ide D) : option (ide D) :=
  match e with
  | Request i => match iderw polls i s with Sleeps _ s => Some s | _ => None end
  | Interrupt exo => match ideintr polls exo s with Ok false s => Some s | _ => None end
  | Change i b => Some (set_ibufs (<[i := b]> (id_bufs s)) s)
  end.

Definition c_run (es : list event) (s : ide D) : option (ide D) :=
  fold_left (fun o e => match o with Some s => c_event e s | None => None end) es (Some s).
Definition a_run (es : list event) (a : adisk) : adisk := fold_left (fun a e => a_event e a) es a.

Lemma change_step i b s a : ide_rel s a -> i ∉ a_queue a ->
  ide_rel (set_ibufs (<[i := b]> (id_bufs s)) s) (mkAdisk (a_queue a) (<[i := b]> (a_bufs a)) (a_disk a)).
Proof.
  intros [Hb Hq Hnd Hlen Hw Hheld Hdr] Hi.
  assert (Hne : forall j, j ∈ a_queue a -> <[i := b]> (a_bufs a) !! j = a_bufs a !! j).
  { intros j Hj. apply list_lookup_insert_ne. intros ->. done. }
  constructor; cbn; try done.
  - by rewrite Hb.
  - by rewrite length_insert.
  - intros j Hj. rewrite Hne by done. by apply Hw.
  - destruct (a_queue a) as [|j q]; [done|]. intros bj. rewrite Hne by set_solver. apply Hdr.
Qed.

Lemma event_step e s a : ide_rel s a -> allowed (havedisk1 s) e a ->
  exists s', c_event e s = Some s' /\ ide_rel s' (a_event e a) /\ havedisk1 s' = havedisk1 s.
Proof.
  intros Hr. destruct e as [i|exo|i b]; cbn [allowed a_event c_event].
  - intros (Hi & b & Hb & Hbusy & Hw & Hd). destruct (iderw_step i b s a Hr Hb Hbusy Hw Hi Hd) as (s' & -> & Hr' & Hh). eauto.
  - intros Hq. destruct (a_queue a) as [|i q] eqn:Ea; [done|].
    destruct (ideintr_step exo i q s a Hr Ea) as (s' & -> & Hr' & Hh & _). eauto.
  - intros Hi. eexists. split; [done|]. split; [by apply change_step|done].
Qed.

(** C9: The interrupt-driven disk driver carries out its requests in the order
    in which they were made, whatever the interleaving of requests, interrupts
    and work on other buffers: after any allowed sequence no step has panicked
    or read through a bad pointer, the linked queue holds the requests that are
    still open, every served buffer has the contents of its sector or has been
    written to it, and the drive is at work on the oldest open request. *)
Theorem ide_in_order es s a : ide_rel s a -> all_allowed (havedisk1 s) es a ->
  exists s', c_run es s = Some s' /\ ide_rel s' (a_run es a).
Proof.
  revert s a. induction es as [|e es IH]; intros s a Hr; cbn [all_allowed]; [by exists s|].
  intros (He & Hes). destruct (event_step e s a Hr He) as (s1 & E & Hr1 & Hh). rewrite <- Hh in Hes.
  destruct (IH s1 _ Hr1 Hes) as (s' & E' & Hr'). exists s'. split; [|done].
  unfold c_run in *. cbn [fold_left]. by rewrite E.
Qed.

(** C19: A request on an idle drive behaves as in the synchronous driver: the
    caller of iderw sleeps, the interrupt wakes it, and when it returns the
    buffer and the sectors of disk 1 are those that iderw of memide.c leaves. *)
Theorem ide_matches_memide exo i b s f :
  id_bufs s = bufs f -> bufs f !! i = Some b -> b_busy b = true -> wants b ->
  b_dev b = 1 -> 0 <= b_sector b < disksize f -> disksize f <= 2 ^ 28 ->
  havedisk1 s = true -> id_queue s = None -> length (id_qnext s) = length (id_bufs s) -> held (id_thr s) = [] ->
  (forall n, 0 <= n < disksize f -> dr_sectors (id_drive s) 1 n = dget (disk f) 1 n) ->
  exists s1 s2 s3 f', iderw polls i s = Sleeps (ChBuf i) s1 /\ ideintr polls exo s1 = Ok false s2 /\
    iderw_resume i s2 = Ok tt s3 /\ Bio.iderw i f = Ok tt f' /\ id_bufs s3 = bufs f' /\ id_queue s3 = None /\
    forall n, 0 <= n < disksize f -> dr_sectors (id_drive s3) 1 n = dget (disk f') 1 n.
Proof.
  intros Ebs Hb Hbusy Hw Hdev Hsec Hsz Hh1 Hq Hlen Hheld Hd.
  set (a := mkAdisk [] (bufs f) (dr_sectors (id_drive s))).
  assert (Hr : ide_rel s a) by (constructor; cbn; try done; [constructor|intros j Hj; by apply not_elem_of_nil in Hj]).
  destruct (iderw_step i b s a Hr Hb Hbusy Hw) as (s1 & E1 & Hr1 & _); [set_solver|by right|].
  destruct (ideintr_step exo i [] s1 _ Hr1 eq_refl) as (s2 & E2 & Hr2 & _).
  assert (Hkey : b_key b = (1, b_sector b)) by (unfold b_key; rewrite Hdev, Z.mod_small by lia; done).
  destruct Hr2 as [Rb Rq _ _ _ Rh Rd]. unfold a_serve in *. cbn [a_queue a_bufs a_disk a_request app a] in *.
  rewrite Hb, Hkey in *. cbn [fst snd] in *. pose proof (lookup_lt_Some _ _ _ Hb) as Hlt.
  assert (Hres : forall b', id_bufs s2 !! i = Some b' -> b_valid b' && negb (b_dirty b') = true ->
    iderw_resume i s2 = Ok tt s2).
  { intros b' Hb' Hv. unfold iderw_resume, iderw_wait. erewrite bind_Ok by (apply acquire_ok; cbn; rewrite Rh; set_solver).
    erewrite bind_Ok by (apply ibuf_ok; exact Hb'). rewrite Hv. cbn. rewrite Rh.
    unfold release, holding. cbn. rewrite bool_decide_true by set_solver. do 2 f_equal.
    destruct s2 as [? ? ? ? ? [hs ?]]. cbn in *. by subst hs. }
  destruct Hw as (Hwork & Hsize). destruct (b_dirty b) eqn:Edirty.
  - exists s1, s2, s2. eexists. split_and!; [done|done| |by apply (Bio.iderw_write i b); try done; lia| | |].
    + eapply Hres; [by rewrite Rb; cbn; apply list_lookup_insert_eq|done].
    + rewrite Rb. cbn. destruct b. cbn in *. by subst.
    + done.
    + intros n Hn. rewrite Rd. unfold store, dget. cbn [a_disk fst snd Z.eqb Pos.eqb andb disk set_buf set_bufs disk_write].
      destruct (Z.eqb_spec n (b_sector b)) as [->|Hne]; [by rewrite lookup_insert_eq|].
      rewrite lookup_insert_ne by congruence. by apply Hd.
  - rewrite andb_true_r in Hwork. exists s1, s2, s2. eexists.
    split_and!; [done|done| |by apply (Bio.iderw_read i b); try done; lia| | |].
    + eapply Hres; [by rewrite Rb; cbn; apply list_lookup_insert_eq|done].
    + rewrite Rb, Hd by lia. cbn. destruct b. cbn in *. by subst.
    + done.
    + intros n Hn. rewrite Rd. by apply Hd.
Qed.
End drive.

(** ** A drive that keeps the promises *)

Module SimDrive.
(** Busy for one reading of the status after every command; while it is busy it
    takes no register and no command, and gives no data.  It moves a sector
    only when the count is 1. *)
Record sim : Type := mkSim {
  sm_regs : Z -> Z;
  sm_disk : Z -> Z -> list Z;
  sm_read : option (Z * Z);
  sm_busy : bool
}.

#[export] Instance sim_drive : Drive sim := {|
  inb p d := (if sm_busy d then IDE_BSY else IDE_DRDY, mkSim (sm_regs d) (sm_disk d) (sm_read d) false);
  outb p v d :=
    if sm_busy d then d
    else if p =? PORT_COMMAND then
      mkSim (sm_regs d) (sm_disk d)
        (if (v =? IDE_CMD_READ) && (sm_regs d PORT_COUNT =? 1) then Some (unit_no (sm_regs d), lba (sm_regs d)) else None) true
    else mkSim (fun q => if q =? p then v else sm_regs d q) (sm_disk d) (sm_read d) (sm_busy d);
  insl d := (match sm_read d with
             | Some (u, n) =>
                 if sm_busy d then zero_block
                 else let v := sm_disk d u n in if (length v =? BSIZE)%nat then v else zero_block
             | None => zero_block end, d);
  outsl data d :=
    if sm_regs d PORT_COUNT =? 1 then
      mkSim (sm_regs d) (store (sm_disk d) (unit_no (sm_regs d), lba (sm_regs d)) data) (sm_read d) (sm_busy d)
    else d
|}.

Definition sim_sectors (d : sim) (u n : Z) : list Z :=
  let v := sm_disk d u n in if (length v =? BSIZE)%nat then v else zero_block.

#[export] Instance sim_laws : DriveLaws sim 2.
Proof.
  refine {| dr_idle d := sm_busy d = false; dr_reg := sm_regs; dr_sectors := sim_sectors; dr_read := sm_read |}.
  - intros d u n. unfold sim_sectors. destruct (Nat.eqb_spec (length (sm_disk d u n)) BSIZE); [done|done].
  - intros p v d Hp Hi. cbn. rewrite Hi. destruct (Z.eqb_spec p PORT_COMMAND) as [->|]; [|done].
    exfalso. unfold registers in Hp. set_unfold in Hp. by decompose [or] Hp.
  - intros d Hi Hc. cbn. rewrite Hi. cbn. by rewrite Hc.
  - intros d u n Hi Hr. cbn. by rewrite Hr, Hi.
  - intros d data u n Hi Hc Hlen. unfold sim_sectors. cbn. rewrite Hi. cbn. rewrite Hc. cbn. unfold store. cbn [fst snd].
    destruct (_ && _); [|done]. by rewrite Hlen.
  - intros d. cbn. destruct (sm_busy d); cbn; eexists _, _; done.
Defined.

Definition block_of (v : Z) : list Z := repeat v BSIZE.

(** Buffer 0 waits for sector 5, buffer 1 is to be written to sector 5. *)
Definition bufs0 : list buf :=
  [mkBuf true false false 1 5 (block_of 0); mkBuf true true true 1 5 (block_of 9)].
Definition disk0 : Z -> Z -> list Z := fun u n => block_of (n mod 256).
Definition ide0 : ide sim := mkIde bufs0 [None; None] None true (mkSim (fun _ => 0) disk0 None false) (mkThread [] []).
Definition abs0 : adisk := mkAdisk [] bufs0 disk0.

Lemma ide0_rel : ide_rel 2 ide0 abs0.
Proof. constructor; cbn; try done; [constructor|]. intros j Hj. by apply not_elem_of_nil in Hj. Qed.

(** The read of buffer 0 is served first, so it sees the old contents, and the
    write of buffer 1 after it. *)
Lemma ide_in_order_witness : exists s',
  c_run 2 [Request 0; Request 1; Interrupt false; Interrupt false] ide0 = Some s' /\
  ide_rel 2 s' (mkAdisk [] [mkBuf true true false 1 5 (block_of 5); mkBuf true true false 1 5 (block_of 9)]
    (store disk0 (1, 5) (block_of 9))).
Proof.
  apply (ide_in_order 2 [Request 0; Request 1; Interrupt false; Interrupt false] ide0 abs0); [apply ide0_rel|].
  split; [split; [apply not_elem_of_nil|]|split; [split; [intros Hin%list_elem_of_singleton; done|]|done]].
  - eexists. split; [done|]. repeat split. by right.
  - eexists. split; [done|]. repeat split. by right.
Defined.

Definition fs0 : fstate := mkFs bufs0 [] (<[(1, 5) := block_of 7]> ∅) 100 [] (mkLog 0 0 0 false 0 0 []) [] (mkThread [] []).
Definition ide1 : ide sim :=
  mkIde bufs0 [None; None] None true (mkSim (fun _ => 0) (fun u n => dget (disk fs0) 1 n) None false) (mkThread [] []).

Lemma ide_matches_memide_witness : exists s1 s2 s3 f',
  iderw 2 0 ide1 = Sleeps (ChBuf 0) s1 /\ ideintr 2 false s1 = Ok false s2 /\
  iderw_resume 0 s2 = Ok tt s3 /\ Bio.iderw 0 fs0 = Ok tt f' /\ id_bufs s3 = bufs f' /\ id_queue s3 = None /\
  forall n, 0 <= n < disksize fs0 -> dr_sectors (polls := 2) (id_drive s3) 1 n = dget (disk f') 1 n.
Proof.
  apply (ide_matches_memide 2 false 0 (mkBuf true false false 1 5 (block_of 0)) ide1 fs0);
    try done.
  intros n Hn. cbn. unfold sim_sectors. cbn.
  destruct (decide (n = 5)) as [->|Hne]; [done|]. unfold dget. by rewrite lookup_insert_ne by congruence.
Defined.

(** A failed read is marked valid all the same: the buffer keeps what was in
    it. *)
Definition failing : Drive sim := {|
  inb p d := (Z.lor IDE_DRDY IDE_ERR, d); outb p v d := d; insl d := (zero_block, d); outsl data d := d
|}.

Lemma failed_read_is_valid :
  match iderw (H := failing) 2 0 ide0 with
  | Sleeps _ s =>
      match ideintr (H := failing) 2 false s with
      | Ok false s => id_bufs s !! 0%nat
      | _ => None
      end
  | _ => None
  end = Some (mkBuf true true false 1 5 (block_of 0)).
Proof. by vm_compute. Qed.
End SimDrive.
