(* ===== verification/Boot.v ===== *)
(** * bootmain.c: the boot loader

    The loader reads the kernel, an ELF file that starts at sector 1 of the
    first drive, with port accesses alone; the drive is the class of ide.c with
    the laws of IdeSpec.  Memory is physical.  bootmain either returns, when
    the file is no ELF file, or calls the entry point: [Enter].

    readseg reads whole sectors, so it also writes below and above the range
    it is asked for.  The theorem says when this is harmless: every segment
    starts, rounded down to its sector, behind the end of those before it, and
    stays off the page the headers are in. *)

From Stdlib Require Import Sorted.
From S2P Require Import Prelude Memory CString FsState Ide IdeSpec.

Open Scope Z_scope.

Definition SECTSIZE : Z := 512.
(** elf: the scratch space at 64K. *)
Definition SCRATCH : Z := 65536.

Section boot.
Context {D : Type} `{Drive D} (polls : nat).

Definition waitdisk (d : D) : option D :=
  match wait_ready d polls with Some (_, d) => Some d | None => None end.

(** outb() takes the low byte of its argument. *)
Definition readsect (dst offset : Z) (m : mem) (d : D) : option (mem * D) :=
  match waitdisk d with
  | None => None
  | Some d =>
      let d := outb PORT_COUNT 1 d in
      let d := outb PORT_LBA0 (u8 offset) d in
      let d := outb PORT_LBA1 (u8 (Z.shiftr offset 8)) d in
      let d := outb PORT_LBA2 (u8 (Z.shiftr offset 16)) d in
      let d := outb PORT_DEVICE (u8 (Z.lor (Z.shiftr offset 24) 224)) d in
      let d := outb PORT_COMMAND IDE_CMD_READ d in
      match waitdisk d with
      | None => None
      | Some d => let '(data, d) := insl d in Some (store_bytes m dst data, d)
      end
  end.

Fixpoint readseg_loop (pa epa offset : Z) (m : mem) (d : D) (fuel : nat) : option (mem * D) :=
  match fuel with
  | O => None
  | S fuel =>
      if pa <? epa then
        match readsect pa offset m d with
        | None => None
        | Some (m, d) => readseg_loop (u32 (pa + SECTSIZE)) epa (u32 (offset + 1)) m d fuel
        end
      else Some (m, d)
  end.

(** The sectors of the range and one more turn to see the end. *)
Definition readseg (pa count offset : Z) (m : mem) (d : D) : option (mem * D) :=
  let epa := u32 (pa + count) in
  let pa := u32 (pa - offset mod SECTSIZE) in
  readseg_loop pa epa (u32 (offset / SECTSIZE + 1)) m d (Z.to_nat (count / SECTSIZE + 3)).

Definition half_at (m : mem) (a : Z) : Z := load8 m a + 256 * load8 m (a + 1).

(** The loop over the program headers; ph++ advances by 32 bytes. *)
Fixpoint load_segs (ph eph : Z) (m : mem) (d : D) (fuel : nat) : option (mem * D) :=
  match fuel with
  | O => None
  | S fuel =>
      if ph <? eph then
        let pa := load32 m (ph + 12) in
        match readseg pa (load32 m (ph + 16)) (load32 m (ph + 4)) m d with
        | None => None
        | Some (m, d) =>
            let filesz := load32 m (ph + 16) in
            let memsz := load32 m (ph + 20) in
            let m := if filesz <? memsz then stosb m (u32 (pa + filesz)) 0 (Z.to_nat (memsz - filesz)) else m in
            load_segs (u32 (ph + 32)) eph m d fuel
        end
      else Some (m, d)
  end.

Variant booted : Type :=
| NotElf (m : mem) (d : D)
| Enter (entry : Z) (m : mem) (d : D)
| Hangs.

Definition bootmain (m : mem) (d : D) : booted :=
  match readseg SCRATCH 4096 0 m d with
  | None => Hangs
  | Some (m, d) =>
      if negb (load32 m SCRATCH =? 0x464C457F) then NotElf m d
      else
        let ph := u32 (SCRATCH + load32 m (SCRATCH + 28)) in
        let phnum := half_at m (SCRATCH + 44) in
        match load_segs ph (u32 (ph + 32 * phnum)) m d (S (Z.to_nat phnum)) with
        | None => Hangs
        | Some (m, d) => Enter (load32 m (SCRATCH + 24)) m d
        end
  end.

(** ** Reading sectors *)

Context `{!DriveLaws D polls}.

(** Byte [k] of the kernel file. *)
Definition kbyte (d : D) (k : Z) : Z := u8 (nth (Z.to_nat (k mod SECTSIZE)) (dr_sectors d 0 (k / SECTSIZE + 1)) 0).

Definition same_disk (d d' : D) : Prop := forall u n, dr_sectors d' u n = dr_sectors d u n.

Lemma same_kbyte d d' k : same_disk d d' -> kbyte d' k = kbyte d k.
Proof. intros Hd. unfold kbyte. by rewrite Hd. Qed.

Lemma device_bits t : 0 <= t < 16 ->
  Z.land (u8 (Z.lor t 224)) 15 = t /\ Z.land (Z.shiftr (u8 (Z.lor t 224)) 4) 1 = 0.
Proof.
  intros Ht. assert (Hc : t ∈ seqZ 0 16) by (apply elem_of_seqZ; lia).
  revert Hc. generalize t. apply Forall_forall. by repeat constructor.
Qed.

Lemma lba_bytes o : 0 <= o < 2 ^ 28 ->
  u8 o + 256 * u8 (Z.shiftr o 8) + 65536 * u8 (Z.shiftr o 16) + 16777216 * Z.shiftr o 24 = o /\ 0 <= Z.shiftr o 24 < 16.
Proof. intros Ho. rewrite !Z.shiftr_div_pow2 by lia. change (2 ^ 28) with 268435456 in Ho. zlia. Qed.

Definition sector_regs (offset : Z) : list (Z * Z) :=
  [(PORT_COUNT, 1); (PORT_LBA0, u8 offset); (PORT_LBA1, u8 (Z.shiftr offset 8)); (PORT_LBA2, u8 (Z.shiftr offset 16));
   (PORT_DEVICE, u8 (Z.lor (Z.shiftr offset 24) 224))].

Lemma readsect_reads dst offset m d :
  0 <= offset < 2 ^ 28 ->
  exists d', readsect dst offset m d = Some (store_bytes m dst (dr_sectors d 0 offset), d') /\ same_disk d d'.
Proof.
  intros Ho. unfold readsect, waitdisk.
  destruct (dr_ready d) as (r & d1 & -> & I1 & _ & _ & S1).
  destruct (dr_outs polls (sector_regs offset) d1) as (I6 & R6 & S6); [repeat constructor; set_solver|done|].
  set (d6 := outs (sector_regs offset) d1) in *. change (outb PORT_DEVICE _ _) with d6.
  destruct (lba_bytes offset Ho) as [Hb Ht]. destruct (device_bits _ Ht) as [Hd4 Hu].
  assert (Hl : lba (dr_reg d6) = offset) by (unfold lba; rewrite !R6; cbn; rewrite Hd4; lia).
  assert (Hn : unit_no (dr_reg d6) = 0) by (unfold unit_no; rewrite R6; exact Hu).
  destruct (dr_cmd_read d6 I6) as [Hr S7]; [by rewrite R6|]. set (d7 := outb PORT_COMMAND IDE_CMD_READ d6) in *.
  destruct (dr_ready d7) as (r' & d8 & -> & I8 & _ & Hr8 & S8). rewrite Hr, Hl, Hn in Hr8.
  destruct (dr_insl d8 0 offset I8 Hr8) as [Hd S9]. destruct (insl d8) as [data d9]. cbn [fst snd] in *.
  exists d9. split; [|intros u n; by rewrite S9, S8, S7, S6, S1].
  by rewrite Hd, S8, S7, S6, S1.
Qed.

(** What [n] sectors from file position [k] on leave in memory at [lo]. *)
Definition filled (d : D) (lo k n : Z) (m m' : mem) : Prop := forall x,
  load8 m' x = if (lo <=? x) && (x <? lo + 512 * n) then kbyte d (k + (x - lo)) else load8 m x.

Lemma sector_filled m d lo o :
  filled d lo (512 * (o - 1)) 1 m (store_bytes m lo (dr_sectors d 0 o)).
Proof.
  intros x. rewrite load8_store_bytes, dr_sector_length. change (lo + Z.of_nat BSIZE) with (lo + 512 * 1).
  destruct ((lo <=? x) && (x <? lo + 512 * 1)) eqn:Hx; [|done]. zbool. unfold kbyte.
  replace ((512 * (o - 1) + (x - lo)) mod SECTSIZE) with (x - lo) by (unfold SECTSIZE; zlia).
  by replace ((512 * (o - 1) + (x - lo)) / SECTSIZE + 1) with o by (unfold SECTSIZE; zlia).
Qed.

Lemma filled_trans d lo k n m m1 m2 :
  0 <= n -> filled d lo k 1 m m1 -> filled d (lo + 512) (k + 512) n m1 m2 -> filled d lo k (n + 1) m m2.
Proof.
  intros Hn H1 H2 x. rewrite (H2 x), (H1 x).
  destruct (Z.leb_spec (lo + 512) x), (Z.ltb_spec x (lo + 512 + 512 * n)), (Z.leb_spec lo x),
    (Z.ltb_spec x (lo + 512 * 1)), (Z.ltb_spec x (lo + 512 * (n + 1))); cbn [andb]; try lia; try done.
  f_equal; lia.
Qed.

Lemma same_filled d d' lo k n m m' : same_disk d d' -> filled d' lo k n m m' -> filled d lo k n m m'.
Proof. intros Hd Hf x. rewrite (Hf x). by rewrite (same_kbyte d d'). Qed.

Lemma readseg_loop_reads n : forall pa epa offset m d fuel,
  epa <= pa + 512 * Z.of_nat n -> (n <> O -> pa + 512 * (Z.of_nat n - 1) < epa) ->
  0 <= pa -> pa + 512 * Z.of_nat n < 4294967296 -> 0 <= offset -> offset + Z.of_nat n <= 2 ^ 28 -> (n < fuel)%nat ->
  exists m' d', readseg_loop pa epa offset m d fuel = Some (m', d') /\ same_disk d d' /\
    filled d pa (512 * (offset - 1)) (Z.of_nat n) m m'.
Proof.
  change (2 ^ 28) with 268435456. induction n as [|n IH]; intros pa epa offset m d fuel He1 He2 Hp Hp2 Ho Ho2 Hf;
    (destruct fuel as [|fuel]; [lia|]); cbn [readseg_loop].
  - rewrite (proj2 (Z.ltb_ge _ _)) by lia. exists m, d. split_and!; [done|done|]. intros x.
    destruct (Z.leb_spec pa x), (Z.ltb_spec x (pa + 512 * Z.of_nat 0)); cbn; try done; lia.
  - rewrite (proj2 (Z.ltb_lt _ _)) by (specialize (He2 ltac:(lia)); lia).
    destruct (readsect_reads pa offset m d) as (d1 & -> & Hd1); [change (2 ^ 28) with 268435456; lia|].
    unfold SECTSIZE. rewrite !u32_small by lia.
    destruct (IH (pa + 512) epa (offset + 1) (store_bytes m pa (dr_sectors d 0 offset)) d1 fuel) as (m2 & d2 & -> & Hd2 & Hm2); try lia.
    exists m2, d2. split_and!; [done|intros u k; by rewrite Hd2|].
    replace (Z.of_nat (S n)) with (Z.of_nat n + 1) by lia. eapply filled_trans; [lia|apply sector_filled|].
    apply (same_filled d d1); [done|]. replace (512 * (offset - 1) + 512) with (512 * (offset + 1 - 1)) by lia. done.
Qed.

(** The sectors readseg reads. *)
Definition sectors (count offset : Z) : Z := (count + offset mod 512 + 511) / 512.

Lemma readseg_reads pa count offset m d :
  offset mod 512 <= pa -> 0 <= count -> 0 <= offset -> pa + count + 512 < 4294967296 -> offset + count < 2 ^ 36 ->
  exists m' d', readseg pa count offset m d = Some (m', d') /\ same_disk d d' /\
    filled d (pa - offset mod 512) (offset - offset mod 512) (sectors count offset) m m'.
Proof.
  intros Hp Hc Ho Hpa Hoc. unfold readseg, SECTSIZE, sectors. change (2 ^ 36) with 68719476736 in Hoc.
  pose proof (Z.mod_pos_bound offset 512). pose proof (Z.div_mod offset 512).
  rewrite !u32_small by lia.
  set (n := Z.to_nat ((count + offset mod 512 + 511) / 512)).
  assert (Hn : Z.of_nat n = (count + offset mod 512 + 511) / 512) by (unfold n; rewrite Z2Nat.id; [done|zlia]).
  pose proof (Z.div_mod (count + offset mod 512 + 511) 512). pose proof (Z.mod_pos_bound (count + offset mod 512 + 511) 512).
  pose proof (Z.div_mod count 512). pose proof (Z.mod_pos_bound count 512).
  rewrite <- Hn. replace (offset - offset mod 512) with (512 * (offset / 512 + 1 - 1)) by lia.
  apply readseg_loop_reads; lia.
Qed.

(** ** Loading a kernel *)

Record phdr : Type := mkPhdr { p_off : Z; p_paddr : Z; p_filesz : Z; p_memsz : Z }.

Definition khalf (d : D) (k : Z) : Z := kbyte d k + 256 * kbyte d (k + 1).
Definition kword (d : D) (k : Z) : Z :=
  kbyte d k + 256 * (kbyte d (k + 1) + 256 * (kbyte d (k + 2) + 256 * kbyte d (k + 3))).

(** The drive holds an ELF file with these program headers. *)
Record kernel_file (d : D) (phoff : Z) (segs : list phdr) (entry : Z) : Prop := {
  kf_magic : kword d 0 = 0x464C457F;
  kf_entry : kword d 24 = entry;
  kf_phoff : kword d 28 = phoff;
  kf_phnum : khalf d 44 = Z.of_nat (length segs);
  kf_page : phoff + 32 * Z.of_nat (length segs) <= 4096;
  kf_segs i s : segs !! i = Some s ->
    kword d (phoff + 32 * Z.of_nat i + 4) = p_off s /\ kword d (phoff + 32 * Z.of_nat i + 12) = p_paddr s /\
    kword d (phoff + 32 * Z.of_nat i + 16) = p_filesz s /\ kword d (phoff + 32 * Z.of_nat i + 20) = p_memsz s
}.

(** Where a segment is written, and where its contents end. *)
Definition seg_lo (s : phdr) : Z := p_paddr s - p_off s mod 512.
Definition seg_hi (s : phdr) : Z := Z.max (seg_lo s + 512 * sectors (p_filesz s) (p_off s)) (p_paddr s + p_memsz s).
Definition seg_end (s : phdr) : Z := p_paddr s + Z.max (p_filesz s) (p_memsz s).

Record placed (s : phdr) : Prop := {
  pl_lo : 0 <= seg_lo s;
  pl_file : p_paddr s + p_filesz s + 512 < 4294967296;
  pl_mem : p_paddr s + p_memsz s < 4294967296;
  pl_apart : seg_hi s <= SCRATCH \/ SCRATCH + 4096 <= seg_lo s
}.

Definition behind (s t : phdr) : Prop := seg_end s <= seg_lo t.

(** The contents a segment is to have. *)
Definition loaded (d : D) (m : mem) (s : phdr) : Prop := forall i,
  (0 <= i < p_filesz s -> load8 m (p_paddr s + i) = kbyte d (p_off s + i)) /\
  (p_filesz s <= i < p_memsz s -> load8 m (p_paddr s + i) = 0).

Definition headers (d : D) (m : mem) : Prop := forall k, 0 <= k < 4096 -> load8 m (SCRATCH + k) = kbyte d k.

Lemma headers_word d m k : headers d m -> 0 <= k <= 4092 -> load32 m (SCRATCH + k) = kword d k.
Proof.
  intros Hh Hk. rewrite load32_load8. unfold kword. rewrite <- !Z.add_assoc. by rewrite !Hh by lia.
Qed.

Lemma kbyte_range d k : 0 <= kbyte d k < 256.
Proof. apply u8_range. Qed.
Lemma kword_range d k : 0 <= kword d k < 4294967296.
Proof.
  unfold kword. pose proof (kbyte_range d k). pose proof (kbyte_range d (k + 1)).
  pose proof (kbyte_range d (k + 2)). pose proof (kbyte_range d (k + 3)). lia.
Qed.

(** One segment: its sectors, then zeros. *)
Definition zero_tail (s : phdr) (m : mem) : mem :=
  if p_filesz s <? p_memsz s then stosb m (u32 (p_paddr s + p_filesz s)) 0 (Z.to_nat (p_memsz s - p_filesz s)) else m.

Record fields (s : phdr) : Prop := { fd_off : 0 <= p_off s < 4294967296; fd_size : 0 <= p_filesz s /\ 0 <= p_memsz s }.

Lemma zero_tail_load s m x : fields s -> placed s ->
  load8 (zero_tail s m) x =
    if (p_paddr s + p_filesz s <=? x) && (x <? p_paddr s + p_memsz s) then 0 else load8 m x.
Proof.
  intros [Ho [Hf Hm]] [Hl Hp Hq _]. unfold zero_tail, seg_lo in *. pose proof (Z.mod_pos_bound (p_off s) 512).
  destruct (Z.ltb_spec (p_filesz s) (p_memsz s)).
  - rewrite load8_stosb, u32_small by lia. by replace (p_paddr s + p_filesz s + Z.of_nat (Z.to_nat (p_memsz s - p_filesz s)))
      with (p_paddr s + p_memsz s) by lia.
  - destruct (Z.leb_spec (p_paddr s + p_filesz s) x), (Z.ltb_spec x (p_paddr s + p_memsz s)); cbn; try done; lia.
Qed.

Lemma segment_loads d m s : fields s -> placed s ->
  exists m' d', readseg (p_paddr s) (p_filesz s) (p_off s) m d = Some (m', d') /\ same_disk d d' /\
    loaded d (zero_tail s m') s /\
    (forall x, x < seg_lo s \/ seg_hi s <= x -> load8 m' x = load8 m x /\ load8 (zero_tail s m') x = load8 m x).
Proof.
  intros Hs Hp. pose proof Hs as [Ho [Hf Hm]]. pose proof Hp as [Hl Hp1 Hp2 _]. unfold seg_hi, seg_lo in *.
  pose proof (Z.mod_pos_bound (p_off s) 512).
  destruct (readseg_reads (p_paddr s) (p_filesz s) (p_off s) m d) as (m' & d' & E & Hd & Hfill); try lia.
  exists m', d'. split_and!; [done|done| |].
  - assert (Hsec : p_filesz s + p_off s mod 512 <= 512 * sectors (p_filesz s) (p_off s)).
    { unfold sectors. pose proof (Z.div_mod (p_filesz s + p_off s mod 512 + 511) 512).
      pose proof (Z.mod_pos_bound (p_filesz s + p_off s mod 512 + 511) 512). lia. }
    intros i. rewrite (zero_tail_load s) by done. split; intros Hi.
    + rewrite (proj2 (Z.leb_gt _ _)) by lia. cbn [andb]. rewrite (Hfill (p_paddr s + i)).
      rewrite (proj2 (Z.leb_le _ _)), (proj2 (Z.ltb_lt _ _)) by lia. cbn [andb]. f_equal. lia.
    + by rewrite (proj2 (Z.leb_le _ _)), (proj2 (Z.ltb_lt _ _)) by lia.
  - intros x Hx. rewrite (zero_tail_load s) by done.
    assert (Hm' : load8 m' x = load8 m x).
    { rewrite (Hfill x).
      destruct (Z.leb_spec (p_paddr s - p_off s mod 512) x),
        (Z.ltb_spec x (p_paddr s - p_off s mod 512 + 512 * sectors (p_filesz s) (p_off s))); cbn; try done; lia. }
    split; [done|]. destruct (Z.leb_spec (p_paddr s + p_filesz s) x), (Z.ltb_spec x (p_paddr s + p_memsz s)); cbn; try done; lia.
Qed.

Lemma headers_same d m m' s : placed s -> headers d m ->
  (forall x, x < seg_lo s \/ seg_hi s <= x -> load8 m' x = load8 m x) -> headers d m'.
Proof. intros [_ _ _ Ha] Hh Hx k Hk. rewrite Hx; [by apply Hh|lia]. Qed.

Lemma headers_disk d d' m : same_disk d d' -> headers d m -> headers d' m.
Proof. intros Hd Hh k Hk. rewrite (same_kbyte d d') by done. by apply Hh. Qed.

Lemma loaded_same d m m' s : (forall x, x < seg_end s -> load8 m' x = load8 m x) -> loaded d m s -> loaded d m' s.
Proof. intros Hx Hl i. unfold seg_end in Hx. split; intros Hi; (rewrite Hx by lia); by apply Hl. Qed.

Lemma kernel_disk d d' phoff segs entry : same_disk d d' -> kernel_file d phoff segs entry -> kernel_file d' phoff segs entry.
Proof.
  intros Hd [H1 H2 H3 H4 H5 H6]. unfold kword, khalf in *.
  constructor; unfold kword, khalf; try setoid_rewrite (same_kbyte d d' _ Hd); done.
Qed.

Section load.
Context (phoff entry : Z) (segs : list phdr).

(** The fields of header [i] as the loop reads them. *)
Lemma header_fields d m i s : kernel_file d phoff segs entry -> headers d m -> segs !! i = Some s ->
  let ph := SCRATCH + phoff + 32 * Z.of_nat i in
  load32 m (ph + 4) = p_off s /\ load32 m (ph + 12) = p_paddr s /\ load32 m (ph + 16) = p_filesz s /\ load32 m (ph + 20) = p_memsz s.
Proof.
  intros [_ _ Hoff _ Hpage Hsegs] Hh Hi. cbv zeta. apply lookup_lt_Some in Hi as Hlt.
  pose proof (kword_range d 28). destruct (Hsegs i s Hi) as (E1 & E2 & E3 & E4). rewrite <- !Z.add_assoc.
  rewrite !(headers_word d m) by (done || lia). by rewrite !Z.add_assoc.
Qed.

Lemma file_fields d i s : kernel_file d phoff segs entry -> segs !! i = Some s -> fields s.
Proof.
  intros [_ _ _ _ _ Hsegs] Hi. destruct (Hsegs i s Hi) as (E1 & _ & E3 & E4).
  split; [rewrite <- E1; apply kword_range|]. rewrite <- E3, <- E4. split; apply kword_range.
Qed.

Lemma load_segs_loads rest : forall i m d fuel,
  drop i segs = rest -> kernel_file d phoff segs entry -> headers d m ->
  Forall placed rest -> StronglySorted behind rest -> (length rest < fuel)%nat ->
  exists m' d', load_segs (SCRATCH + phoff + 32 * Z.of_nat i) (SCRATCH + phoff + 32 * Z.of_nat (length segs)) m d fuel = Some (m', d') /\
    same_disk d d' /\ headers d m' /\ Forall (loaded d m') rest /\
    (forall x, Forall (fun s => x < seg_lo s) rest -> load8 m' x = load8 m x).
Proof.
  induction rest as [|s rest IH]; intros i m d fuel Hdrop Hk Hh Hp Hs Hf; (destruct fuel as [|fuel]; [cbn in Hf; lia|]); cbn [load_segs].
  - assert (Hi : (length segs <= i)%nat) by (apply (f_equal length) in Hdrop; rewrite length_drop in Hdrop; cbn in Hdrop; lia).
    rewrite (proj2 (Z.ltb_ge _ _)) by lia. exists m, d. by split_and!.
  - assert (Hi : segs !! i = Some s) by (rewrite <- (Nat.add_0_r i), <- lookup_drop, Hdrop; done).
    apply lookup_lt_Some in Hi as Hlt. rewrite (proj2 (Z.ltb_lt _ _)) by lia.
    apply Forall_cons in Hp as [Hps Hp]. apply StronglySorted_inv in Hs as [Hs Hb].
    destruct (header_fields d m i s Hk Hh Hi) as (-> & -> & -> & _).
    destruct (segment_loads d m s) as (m1 & d1 & -> & Hd1 & Hl1 & Hx1); [by eapply file_fields|done|].
    assert (Hh1 : headers d m1) by (eapply headers_same; [done..|]; intros x Hx; by apply Hx1).
    destruct (header_fields d m1 i s Hk Hh1 Hi) as (_ & _ & -> & ->). fold (zero_tail s m1).
    assert (Hh2 : headers d (zero_tail s m1)) by (eapply headers_same; [done|exact Hh|]; intros x Hx; by apply Hx1).
    pose proof (kf_page _ _ _ _ Hk) as Hpage. pose proof (kword_range d 28) as Hr. rewrite (kf_phoff _ _ _ _ Hk) in Hr.
    rewrite u32_small by (unfold SCRATCH; lia).
    replace (SCRATCH + phoff + 32 * Z.of_nat i + 32) with (SCRATCH + phoff + 32 * Z.of_nat (S i)) by lia.
    destruct (IH (S i) (zero_tail s m1) d1 fuel) as (m2 & d2 & -> & Hd2 & Hh3 & Hl2 & Hx2); try done.
    { change (S i) with (1 + i)%nat. by rewrite Nat.add_comm, <- drop_drop, Hdrop. }
    { by eapply kernel_disk. } { by eapply headers_disk. } { cbn in Hf; lia. }
    exists m2, d2. split_and!; [done|intros u n; by rewrite Hd2| | |].
    + intros k Hk'. rewrite Hh3 by done. by apply same_kbyte.
    + constructor.
      * apply (loaded_same d (zero_tail s m1)); [|done]. intros x Hx. apply Hx2. eapply Forall_impl; [exact Hb|].
        unfold behind. cbn. lia.
      * eapply Forall_impl; [exact Hl2|]. intros t Ht j. destruct (Ht j) as [H1 H2]. rewrite (same_kbyte d d1) in H1 by done. done.
    + intros x Hx. apply Forall_cons in Hx as [Hx0 Hx]. rewrite Hx2 by done. by apply Hx1; left.
Qed.
End load.

(** C31: The boot loader loads a kernel.  When the drive holds an ELF file whose
    program headers lie in its first page, and the segments come in increasing
    order, each rounded down to its sector behind the end of those before it
    and off the page at 64K, then bootmain calls the entry point of the file,
    every segment has the bytes of the file at its physical address, and the
    rest of its memory size is zero: what readseg writes beyond a segment does
    no harm. *)
Theorem bootmain_loads m d phoff segs entry :
  kernel_file d phoff segs entry -> Forall placed segs -> StronglySorted behind segs ->
  exists m' d', bootmain m d = Enter entry m' d' /\ same_disk d d' /\ Forall (loaded d m') segs.
Proof.
  intros Hk Hp Hs. unfold bootmain.
  destruct (readseg_reads SCRATCH 4096 0 m d) as (m1 & d1 & -> & Hd1 & Hfill); [unfold SCRATCH; try change (0 mod 512) with 0; lia..|].
  assert (Hh : headers d m1).
  { intros k Hr. rewrite (Hfill (SCRATCH + k)). unfold SCRATCH. cbn [Z.sub Z.modulo].
    change (sectors 4096 0) with 8. change (0 mod 512) with 0.
    rewrite (proj2 (Z.leb_le _ _)), (proj2 (Z.ltb_lt _ _)) by lia. cbn [andb]. f_equal. lia. }
  pose proof (headers_word d m1 0 Hh ltac:(lia)) as E0. rewrite Z.add_0_r in E0. rewrite E0, (kf_magic _ _ _ _ Hk). cbn [negb Z.eqb Pos.eqb].
  rewrite (headers_word d m1 28), (kf_phoff _ _ _ _ Hk) by (done || lia).
  assert (E44 : half_at m1 (SCRATCH + 44) = Z.of_nat (length segs)).
  { unfold half_at. rewrite <- Z.add_assoc, !Hh by lia. apply (kf_phnum _ _ _ _ Hk). }
  rewrite E44. pose proof (kf_page _ _ _ _ Hk) as Hpage. pose proof (kword_range d 28) as Hr. rewrite (kf_phoff _ _ _ _ Hk) in Hr.
  rewrite !u32_small by (rewrite ?u32_small; unfold SCRATCH; lia).
  destruct (load_segs_loads phoff entry segs segs 0 m1 d1 (S (Z.to_nat (Z.of_nat (length segs))))) as (m2 & d2 & E & Hd2 & Hh2 & Hl & _); try done.
  { by eapply kernel_disk. } { by eapply headers_disk. } { lia. }
  rewrite Z.mul_0_r, Z.add_0_r in E. rewrite E. exists m2, d2. split_and!.
  - rewrite (headers_word d1 m2 24) by (done || lia). unfold kword. rewrite !(same_kbyte d d1) by done.
    fold (kword d 24). by rewrite (kf_entry _ _ _ _ Hk).
  - intros u n. by rewrite Hd2.
  - eapply Forall_impl; [exact Hl|]. intros t Ht j. destruct (Ht j) as [H1 H2]. by rewrite (same_kbyte d d1) in H1 by done.
Qed.
End boot.

Module BootDemo.
Import SimDrive.

(** An ELF header and two program headers: 700 bytes of file and 800 of zeros
    at 1M, and 20 bytes that start inside a sector of the file. *)
Definition word (v : Z) : list Z := le_bytes 4 v.
Definition header : list Z :=
  word 0x464C457F ++ repeat 0 12 ++ word 0 ++ word 1 ++ word 0x10000C ++ word 52 ++ word 0 ++ word 0 ++
  [52; 0; 32; 0; 2; 0; 0; 0; 0; 0; 0; 0].
Definition seg1 : phdr := mkPhdr 4096 0x100000 700 1500.
Definition seg2 : phdr := mkPhdr 5130 0x10200A 20 20.
Definition ph_bytes (s : phdr) : list Z :=
  word 1 ++ word (p_off s) ++ word (p_paddr s) ++ word (p_paddr s) ++ word (p_filesz s) ++ word (p_memsz s) ++ word 7 ++ word 4096.
Definition kfile : list Z := header ++ ph_bytes seg1 ++ ph_bytes seg2.

Definition boot_disk (u n : Z) : list Z :=
  map (fun j => let k := 512 * (n - 1) + Z.of_nat j in nth (Z.to_nat k) kfile (k mod 251)) (seq 0 512).
Definition drive : sim := mkSim (fun _ => 0) boot_disk None false.

Lemma kernel_demo : kernel_file 2 drive 52 [seg1; seg2] 0x10000C.
Proof.
  constructor; [vm_compute; reflexivity..|vm_compute; discriminate|].
  intros [|[|i]] s Hs; [injection Hs as <-|injection Hs as <-|done]; vm_compute; auto.
Qed.

Lemma bootmain_loads_witness : exists m' d',
  bootmain 2 (fun _ => 204) drive = Enter 0x10000C m' d' /\ same_disk 2 drive d' /\ Forall (loaded 2 drive m') [seg1; seg2].
Proof.
  apply (bootmain_loads 2 (fun _ => 204) drive 52 [seg1; seg2] 0x10000C); [apply kernel_demo| |].
  - apply Forall_cons; split; [|apply Forall_cons; split; [|constructor]];
      (constructor; [vm_compute; congruence..|right; vm_compute; congruence]).
  - repeat constructor. vm_compute. congruence.
Defined.
End BootDemo.
