(* ===== verification/BlockSpec.v ===== *)
(** * What the buffer cache promises

    The layers above bio.c are proved against an abstract block store: the
    content every sector appears to have, the sectors whose newest content
    is only in the cache, and the disk.  [rep] relates it to the cache, and
    one rule per operation of bio.c says how the operation changes it. *)

From S2P Require Import Prelude Monad Locks FsState Bio.

Open Scope Z_scope.
Open Scope kernel_scope.

Record ablk : Type := mkA {
  a_view : Z -> list Z;
  a_dirty : list Z;
  a_disk : gmap (Z * Z) (list Z);
  a_writes : list (Z * list Z);
  a_log : logst;
  a_icache : list inode;
  a_size : Z;
  a_held : list lock
}.

Definition a_set_view (sec : Z) (d : list Z) (a : ablk) : ablk :=
  mkA (fun x => if decide (x = sec) then d else a_view a x) (a_dirty a) (a_disk a) (a_writes a)
      (a_log a) (a_icache a) (a_size a) (a_held a).
Definition a_write (sec : Z) (a : ablk) : ablk :=
  mkA (a_view a) (filter (fun x => x <> sec) (a_dirty a))
      (<[(1, sec) := a_view a sec]> (a_disk a)) ((sec, a_view a sec) :: a_writes a)
      (a_log a) (a_icache a) (a_size a) (a_held a).
Definition a_pin (sec : Z) (a : ablk) : ablk :=
  mkA (a_view a) (sec :: a_dirty a) (a_disk a) (a_writes a) (a_log a) (a_icache a) (a_size a)
      (a_held a).
Definition a_set_log (l : logst) (a : ablk) : ablk :=
  mkA (a_view a) (a_dirty a) (a_disk a) (a_writes a) l (a_icache a) (a_size a) (a_held a).
Definition a_set_icache (c : list inode) (a : ablk) : ablk :=
  mkA (a_view a) (a_dirty a) (a_disk a) (a_writes a) (a_log a) c (a_size a) (a_held a).
Definition a_set_held (h : list lock) (a : ablk) : ablk :=
  mkA (a_view a) (a_dirty a) (a_disk a) (a_writes a) (a_log a) (a_icache a) (a_size a) h.

(** [rep s H a]: the cache [s], with the buffers [H] held for their sectors,
    stands for [a]. *)
Record rep (s : fstate) (H : list (nat * Z)) (a : ablk) : Prop := mkRep {
  rp_inv : binv s (H.*1);
  rp_hold : forall i sec, (i, sec) ∈ H ->
    exists d, bufs s !! i = Some (loaded d sec (a_view a sec));
  rp_view : forall x, view s x = a_view a x;
  rp_dirty : forall x, is_dirty s x <-> x ∈ a_dirty a;
  rp_disk : disk s = a_disk a;
  rp_writes : writes s = a_writes a;
  rp_log : log s = a_log a;
  rp_icache : icache s = a_icache a;
  rp_size : disksize s = a_size a;
  rp_held : held (fthr s) = a_held a
}.

(** The locks bio.c takes are free. *)
Definition bio_ok (a : ablk) : Prop := (LkBcache ∉ a_held a) /\ (LkPtable ∉ a_held a).

(** A sector whose newest content is on the disk, or pinned in the cache. *)
Definition synced (a : ablk) (sec : Z) : Prop :=
  sec ∈ a_dirty a \/ a_view a sec = dget (a_disk a) 1 sec.

Lemma rep_length s H a x : rep s H a -> length (a_view a x) = BSIZE.
Proof. intros R. rewrite <- (rp_view _ _ _ R). eapply view_length, R. Qed.

Lemma hold_sector s H a i j sec : rep s H a -> (i, sec) ∈ H -> (j, sec) ∈ H -> i = j.
Proof.
  intros R Hi Hj. destruct (rp_hold _ _ _ R _ _ Hi), (rp_hold _ _ _ R _ _ Hj).
  eapply (bi_uniq _ _ (rp_inv _ _ _ R)); eauto.
Qed.

Lemma hold_index s H a i sec sec' : rep s H a -> (i, sec) ∈ H -> (i, sec') ∈ H -> sec = sec'.
Proof.
  intros R Hi Hj. destruct (rp_hold _ _ _ R _ _ Hi), (rp_hold _ _ _ R _ _ Hj).
  unfold loaded in *. congruence.
Qed.

(** A sector nobody holds is synced. *)
Lemma rep_synced s H a sec : rep s H a -> sec ∉ H.*2 -> synced a sec.
Proof.
  intros R Hn. unfold synced. rewrite <- (rp_view _ _ _ R), <- (rp_disk _ _ _ R).
  destruct (view_cases s sec) as [(i & b & Hb & Hv & Hd & Hs)|Hm].
  - destruct (b_dirty b) eqn:E.
    + left. apply (rp_dirty _ _ _ R). exists i, b. done.
    + right. rewrite (view_hit s sec i b) by (done || apply R).
      rewrite (bi_clean _ _ (rp_inv _ _ _ R) i b), Hs; try done.
      intros Hi. apply list_elem_of_fmap in Hi as ([i' sec'] & -> & Hi).
      destruct (rp_hold _ _ _ R _ _ Hi) as [d Hd']. simpl in *. rewrite Hb in Hd'.
      injection Hd' as ->. simpl in Hs. subst sec'. apply Hn.
      apply list_elem_of_fmap. by exists (i', sec).
  - right. by apply view_miss.
Qed.

(** Counting: the cache has room while few sectors are pinned or held. *)
Lemma can_load_count s H a sec :
  rep s H a -> sec ∈ a_dirty a \/ (length (a_dirty a) + length H < NBUF)%nat ->
  can_load s (H.*1) sec.
Proof.
  intros R [Hd|Hcount].
  - left. apply (rp_dirty _ _ _ R) in Hd as (i & b & Hb & Hd & Hs). exists i, b.
    destruct (bi_dirty _ _ (rp_inv _ _ _ R) i b Hb Hd) as (_ & ? & _). done.
  - right.
    set (sector i := default 0 (b_sector <$> bufs s !! i)).
    set (isd i := default false (b_dirty <$> bufs s !! i)).
    set (Ds := filter (fun i => isd i = true) (seq 0 NBUF)).
    assert (HDs : (length Ds <= length (a_dirty a))%nat).
    { rewrite <- (length_map sector Ds). apply submseteq_length, NoDup_submseteq.
      - apply NoDup_fmap_2_strong; [|apply NoDup_filter, NoDup_seq].
        intros i j Hi Hj. unfold Ds in Hi, Hj. rewrite list_elem_of_filter in Hi, Hj.
        unfold sector, isd in *. destruct (bufs s !! i) as [bi|] eqn:Ei, (bufs s !! j) as [bj|] eqn:Ej;
          simpl in *; try (by destruct Hi, Hj). intros Heq.
        destruct (bi_dirty _ _ (rp_inv _ _ _ R) i bi Ei) as (_ & ? & _); [tauto|].
        destruct (bi_dirty _ _ (rp_inv _ _ _ R) j bj Ej) as (_ & ? & _); [tauto|].
        by apply (bi_uniq _ _ (rp_inv _ _ _ R) i j bi bj).
      - intros x Hx. apply list_elem_of_fmap in Hx as (i & -> & Hi). unfold Ds in Hi.
        rewrite list_elem_of_filter in Hi. destruct Hi as [Hi _]. unfold sector, isd in *.
        destruct (bufs s !! i) as [bi|] eqn:Ei; simpl in *; [|done].
        apply (rp_dirty _ _ _ R). exists i, bi. done. }
    destruct (decide (Forall (fun i => i ∈ H.*1 ++ Ds) (seq 0 NBUF))) as [Hall|Hno].
    + exfalso. assert (length (seq 0 NBUF) <= length (H.*1 ++ Ds))%nat as Hle.
      { apply submseteq_length, NoDup_submseteq; [apply NoDup_seq|].
        intros x Hx. by eapply Forall_forall in Hall. }
      rewrite length_seq, length_app, length_fmap in Hle. lia.
    + apply not_Forall_Exists in Hno; [|intros ?; apply _].
      apply Exists_exists in Hno as (i & Hi & Hn). simpl in Hn.
      assert (is_Some (bufs s !! i)) as [b Hb].
      { apply lookup_lt_is_Some. rewrite (bi_len _ _ (rp_inv _ _ _ R)).
        apply elem_of_seq in Hi. lia. }
      exists i, b. split; [done|]. split; [set_solver|].
      destruct (b_dirty b) eqn:E; [|done]. destruct Hn. apply elem_of_app. right.
      apply list_elem_of_filter. unfold isd. rewrite Hb. done.
Qed.

Section rules.
Context {s : fstate} {H : list (nat * Z)} {a : ablk} (R : rep s H a).

Lemma wp_bread sec (Q : nat -> fstate -> Prop) :
  bio_ok a -> sec < a_size a -> sec ∉ H.*2 ->
  sec ∈ a_dirty a \/ (length (a_dirty a) + length H < NBUF)%nat ->
  (forall i s', rep s' ((i, sec) :: H) a -> Q i s') ->
  wp (bread 1 sec) Q s.
Proof using R.
  intros [Hl _] Hsz Hn Hcount HQ.
  destruct (bread_spec s (H.*1) sec) as (i & d & Hrun & HiK & Hlt & Hinv & Hv & Hd & Hdd).
  - apply R.
  - by rewrite (rp_held _ _ _ R).
  - by rewrite (rp_size _ _ _ R).
  - intros i b Hb Hdev Hs Hi. apply list_elem_of_fmap in Hi as ([i' sec'] & -> & Hi).
    destruct (rp_hold _ _ _ R _ _ Hi) as [d Hd']. simpl in *. rewrite Hb in Hd'.
    injection Hd' as ->. simpl in Hs. subst sec'. apply Hn.
    apply list_elem_of_fmap. by exists (i', sec).
  - by eapply can_load_count.
  - eapply wp_eq; [exact Hrun|]. apply HQ. split; try apply R.
    + exact Hinv.
    + intros j x Hj. apply elem_of_cons in Hj as [[= -> ->]|Hj].
      * exists d. rewrite <- (rp_view _ _ _ R). apply lookup_set_buf.
        rewrite (bi_len _ _ (rp_inv _ _ _ R)). done.
      * destruct (rp_hold _ _ _ R _ _ Hj) as [dj Hbj]. exists dj. simpl.
        rewrite list_lookup_insert_ne; [done|]. intros ->. apply HiK.
        apply list_elem_of_fmap. by exists (j, x).
    + intros x. rewrite Hv. apply R.
    + intros x. rewrite Hd. apply R.
Qed.

Lemma wp_get_data i sec (Q : list Z -> fstate -> Prop) :
  (i, sec) ∈ H -> Q (a_view a sec) s -> wp (get_data i) Q s.
Proof using R.
  intros Hi HQ. destruct (rp_hold _ _ _ R _ _ Hi) as [d Hd].
  unfold wp, get_data, bind, get_buf. by rewrite Hd.
Qed.

Lemma wp_set_data i sec d (Q : unit -> fstate -> Prop) :
  (i, sec) ∈ H -> length d = BSIZE ->
  (forall s', rep s' H (a_set_view sec d a) -> Q tt s') ->
  wp (set_data i d) Q s.
Proof using R.
  intros Hi Hlen HQ. destruct (rp_hold _ _ _ R _ _ Hi) as [dd Hd].
  assert (HiK : i ∈ H.*1) by (apply list_elem_of_fmap; by exists (i, sec)).
  destruct (set_data_spec s (H.*1) i _ d (rp_inv _ _ _ R) Hd HiK Hlen) as (Hrun & Hinv & Hv & Hdi);
    [done..|].
  eapply wp_eq; [exact Hrun|]. apply HQ. split; try apply R.
  - exact Hinv.
  - intros j x Hj. simpl. destruct (decide (x = sec)) as [->|Hx].
    + assert (j = i) as -> by (by eapply hold_sector). exists dd. apply lookup_set_buf.
      by eapply lookup_lt_Some.
    + destruct (rp_hold _ _ _ R _ _ Hj) as [dj Hbj]. exists dj.
      rewrite list_lookup_insert_ne; [done|]. intros ->. apply Hx. by eapply hold_index.
  - intros x. rewrite Hv. simpl. destruct (decide _); [done|]. apply R.
  - intros x. rewrite Hdi. apply R.
Qed.

Lemma wp_bwrite i sec (Q : unit -> fstate -> Prop) :
  (i, sec) ∈ H -> sec < a_size a ->
  (forall s', rep s' H (a_write sec a) -> Q tt s') ->
  wp (bwrite i) Q s.
Proof using R.
  intros Hi Hsz HQ. destruct (rp_hold _ _ _ R _ _ Hi) as [dd Hd].
  assert (HiK : i ∈ H.*1) by (apply list_elem_of_fmap; by exists (i, sec)).
  destruct (bwrite_spec s (H.*1) i _ (rp_inv _ _ _ R) Hd HiK) as (Hrun & Hinv & Hv & Hdi);
    [done|done|by rewrite (rp_size _ _ _ R)|].
  eapply wp_eq; [exact Hrun|]. apply HQ. split; try apply R.
  - exact Hinv.
  - intros j x Hj. simpl. destruct (decide (x = sec)) as [->|Hx].
    + assert (j = i) as -> by (by eapply hold_sector). exists false.
      apply list_lookup_insert_eq. by eapply lookup_lt_Some.
    + destruct (rp_hold _ _ _ R _ _ Hj) as [dj Hbj]. exists dj.
      rewrite list_lookup_insert_ne; [done|]. intros ->. apply Hx. by eapply hold_index.
  - intros x. rewrite Hv. apply R.
  - intros x. rewrite Hdi, (rp_dirty _ _ _ R). simpl. rewrite list_elem_of_filter. tauto.
  - simpl. by rewrite (rp_disk _ _ _ R).
  - simpl. by rewrite (rp_writes _ _ _ R).
Qed.

Lemma wp_brelse i sec H' (Q : unit -> fstate -> Prop) :
  (i, sec) ∈ H -> bio_ok a -> synced a sec ->
  (forall p, p ∈ H' <-> p ∈ H /\ p <> (i, sec)) ->
  (forall s', rep s' H' a -> Q tt s') ->
  wp (brelse i) Q s.
Proof using R.
  intros Hi [Hl1 Hl2] Hsy HH' HQ. destruct (rp_hold _ _ _ R _ _ Hi) as [dd Hd].
  assert (HiK : i ∈ H.*1) by (apply list_elem_of_fmap; by exists (i, sec)).
  destruct (brelse_spec s (H.*1) (H'.*1) i _ (rp_inv _ _ _ R) Hd HiK) as (Hrun & Hinv & Hv & Hdi).
  - intros j. rewrite !list_elem_of_fmap. split.
    + intros ([j' x] & -> & Hj). apply HH' in Hj as [Hj Hne]. simpl. split; [by exists (j', x)|].
      intros ->. apply Hne. f_equal. by eapply hold_index.
    + intros [([j' x] & -> & Hj) Hne]. exists (j', x). split; [done|]. apply HH'.
      split; [done|]. simpl in Hne. congruence.
  - simpl. intros _ Hdf _. destruct Hsy as [Hsy|Hsy]; [|by rewrite (rp_disk _ _ _ R)].
    apply (rp_dirty _ _ _ R) in Hsy as (j & bj & Hj & Hdj & Hsj).
    destruct (bi_dirty _ _ (rp_inv _ _ _ R) j bj Hj Hdj) as (_ & ? & _).
    assert (j = i) as -> by (by eapply (bi_uniq _ _ (rp_inv _ _ _ R)); eauto).
    rewrite Hd in Hj. injection Hj as <-. simpl in *. congruence.
  - by rewrite (rp_held _ _ _ R).
  - by rewrite (rp_held _ _ _ R).
  - eapply wp_eq; [exact Hrun|]. apply HQ. split; try apply R.
    + exact Hinv.
    + intros j x Hj. apply HH' in Hj as [Hj Hne].
      destruct (rp_hold _ _ _ R _ _ Hj) as [dj Hbj]. exists dj. simpl.
      rewrite list_lookup_insert_ne; [done|]. intros ->. apply Hne. f_equal.
      by eapply hold_index.
    + intros x. rewrite Hv. apply R.
    + intros x. rewrite Hdi. apply R.
Qed.

End rules.

(** Changing the parts the cache does not look at. *)
Lemma rep_set_log s H a l : rep s H a -> rep (set_log l s) H (a_set_log l a).
Proof. intros [[] ? ? ? ? ? ? ? ?]. split; [split|..]; done. Qed.

Lemma rep_set_icache s H a c : rep s H a -> rep (set_icache c s) H (a_set_icache c a).
Proof. intros [[] ? ? ? ? ? ? ? ?]. split; [split|..]; done. Qed.

Lemma rep_set_held s H a h : rep s H a -> rep (set_held h s) H (a_set_held h a).
Proof. intros [[] ? ? ? ? ? ? ? ?]. split; [split|..]; done. Qed.

Lemma rep_add_wake s H a c : rep s H a -> rep (add_wake c s) H a.
Proof. intros [[] ? ? ? ? ? ? ? ?]. split; [split|..]; done. Qed.

(** ** Equivalent abstract states

    Contents are compared pointwise and pinned sectors as a set. *)
#[export] Instance ablk_equiv : Equiv ablk := fun a b =>
  (forall x, a_view a x = a_view b x) /\ (forall x, x ∈ a_dirty a <-> x ∈ a_dirty b) /\
  a_disk a = a_disk b /\ a_writes a = a_writes b /\ a_log a = a_log b /\
  a_icache a = a_icache b /\ a_size a = a_size b /\ a_held a = a_held b.

#[export] Instance ablk_equivalence : Equivalence (≡@{ablk}).
Proof.
  split.
  - intros a. by repeat split.
  - intros a b (? & ? & ? & ? & ? & ? & ? & ?). repeat split; try done; naive_solver.
  - intros a b c (Hv & Hd & ? & ? & ? & ? & ? & ?) (Hv' & Hd' & ? & ? & ? & ? & ? & ?).
    split; [intros x; by rewrite Hv|]. split; [intros x; by rewrite Hd|].
    repeat split; congruence.
Qed.

#[export] Instance rep_proper : Proper ((=) ==> (=) ==> (≡) ==> iff) rep.
Proof.
  assert (Himp : forall s H a b, a ≡ b -> rep s H a -> rep s H b).
  { intros s H a b (Hv & Hd & ? & ? & ? & ? & ? & ?) [].
    split; try done; try congruence.
    - intros i sec Hi. destruct (rp_hold0 i sec Hi) as [d Hd']. exists d. by rewrite <- Hv.
    - intros x. rewrite rp_dirty0. apply Hd. }
  intros s ? <- H ? <- a b Hab. split; apply Himp; [done|by symmetry].
Qed.

(** ** Sequences of sector writes, oldest first *)

Definition vput (ws : list (Z * list Z)) (V : Z -> list Z) : Z -> list Z :=
  foldl (fun V w x => if decide (x = fst w) then snd w else V x) V ws.
Definition dput (ws : list (Z * list Z)) (d : gmap (Z * Z) (list Z)) : gmap (Z * Z) (list Z) :=
  foldl (fun d w => <[(1, fst w) := snd w]> d) d ws.

Lemma vput_app ws ws' V : vput (ws ++ ws') V = vput ws' (vput ws V).
Proof. apply foldl_app. Qed.

Lemma dput_app ws ws' d : dput (ws ++ ws') d = dput ws' (dput ws d).
Proof. apply foldl_app. Qed.

Lemma vput_ext ws V V' x :
  (x ∉ ws.*1 -> V x = V' x) -> vput ws V x = vput ws V' x.
Proof.
  revert V V'; induction ws as [|[y v] ws IH]; intros V V' Hx; simpl; [apply Hx; set_solver|].
  apply IH. intros Hn. simpl. destruct (decide (x = y)); [done|]. apply Hx. set_solver.
Qed.

Lemma vput_notin ws V x : x ∉ ws.*1 -> vput ws V x = V x.
Proof.
  revert V; induction ws as [|[y v] ws IH]; intros V Hx; simpl; [done|].
  rewrite IH by set_solver. simpl. rewrite decide_False by set_solver. done.
Qed.

Lemma vput_cons_notin ws V x y v :
  x ∉ ws.*1 -> vput ((y, v) :: ws) V x = if decide (x = y) then v else V x.
Proof. intros Hx. exact (vput_notin ws _ x Hx). Qed.

Lemma vput_in ws V x v :
  NoDup (ws.*1) -> (x, v) ∈ ws -> vput ws V x = v.
Proof.
  revert V; induction ws as [|[y w] ws IH]; intros V Hnd Hx; simpl; [set_solver|].
  apply NoDup_cons in Hnd as [Hn Hnd]. apply elem_of_cons in Hx as [[= -> ->]|Hx].
  - rewrite vput_notin by done. simpl. by rewrite decide_True.
  - by apply IH.
Qed.

Lemma dget_dput ws d x : dget (dput ws d) 1 x = vput ws (dget d 1) x.
Proof.
  revert d; induction ws as [|[y v] ws IH]; intros d; simpl; [done|].
  rewrite IH. apply vput_ext. intros _. simpl. rewrite dget_insert.
  destruct (decide (x = y)) as [->|]; [by rewrite decide_True|]. by rewrite decide_False by congruence.
Qed.

(** The abstract state after writing [ws] through. *)
Definition a_put (ws : list (Z * list Z)) (a : ablk) : ablk :=
  mkA (vput ws (a_view a)) (filter (fun x => x ∉ ws.*1) (a_dirty a)) (dput ws (a_disk a))
      (rev ws ++ a_writes a) (a_log a) (a_icache a) (a_size a) (a_held a).

Lemma a_put_nil a : a_put [] a ≡ a.
Proof.
  split; [done|]. split; [|done]. intros x. simpl. rewrite list_elem_of_filter. set_solver.
Qed.

Lemma a_put_app ws ws' a : a_put ws' (a_put ws a) ≡ a_put (ws ++ ws') a.
Proof.
  split; [intros x; simpl; by rewrite vput_app|]. split.
  - intros x. simpl. rewrite !list_elem_of_filter, fmap_app, elem_of_app. tauto.
  - simpl. by rewrite dput_app, rev_app_distr, app_assoc.
Qed.

Lemma a_put_one sec d a : a_write sec (a_set_view sec d a) ≡ a_put [(sec, d)] a.
Proof.
  split; [done|]. split.
  - intros x. simpl. rewrite !list_elem_of_filter. set_solver.
  - simpl. by rewrite decide_True.
Qed.

Lemma a_put_set_log ws l a : a_put ws (a_set_log l a) = a_set_log l (a_put ws a).
Proof. done. Qed.

#[export] Instance a_set_log_proper l : Proper ((≡) ==> (≡)) (a_set_log l).
Proof. intros a b (? & ? & ? & ? & ? & ? & ? & ?). by repeat split; naive_solver. Qed.

#[export] Instance a_put_proper ws : Proper ((≡) ==> (≡)) (a_put ws).
Proof.
  intros a b (Hv & Hd & Hk & Hw & ? & ? & ? & ?). split.
  - intros x. simpl. by apply vput_ext.
  - split; [intros x; simpl; rewrite !list_elem_of_filter; naive_solver|].
    simpl. by rewrite Hk, Hw.
Qed.

Lemma a_set_view_twice sec d d' a : a_set_view sec d (a_set_view sec d' a) ≡ a_set_view sec d a.
Proof. split; [|done]. intros x. simpl. by destruct (decide _). Qed.

(** ** Locks and the abstract state *)

Lemma wp_acquire l s H a (Q : unit -> fstate -> Prop) :
  rep s H a -> l ∉ a_held a ->
  (forall s', rep s' H (a_set_held (l :: a_held a) a) -> Q tt s') -> wp (acquire l) Q s.
Proof.
  intros R Hl HQ. eapply wp_eq.
  - apply acquire_ok. simpl. by rewrite (rp_held _ _ _ R).
  - apply HQ. simpl. rewrite (rp_held _ _ _ R). by apply rep_set_held.
Qed.

Lemma wp_release l hs s H a (Q : unit -> fstate -> Prop) :
  rep s H a -> a_held a = l :: hs ->
  (forall s', rep s' H (a_set_held hs a) -> Q tt s') -> wp (release l) Q s.
Proof.
  intros R Hl HQ. eapply wp_eq.
  - apply release_top. simpl. by rewrite (rp_held _ _ _ R).
  - apply HQ. by apply rep_set_held.
Qed.

Lemma wp_wakeup c s H a (Q : unit -> fstate -> Prop) :
  rep s H a -> LkPtable ∉ a_held a -> (forall s', rep s' H a -> Q tt s') -> wp (wakeup c) Q s.
Proof.
  intros R Hl HQ. eapply wp_eq.
  - apply wakeup_ok. simpl. by rewrite (rp_held _ _ _ R).
  - apply HQ. by apply rep_add_wake.
Qed.

Lemma a_set_held_same a : a_set_held (a_held a) a = a.
Proof. by destruct a. Qed.

Lemma find_split {A} (f : A -> bool) (l : list A) x :
  List.find f l = Some x -> exists l1 l2, l = l1 ++ x :: l2 /\ Forall (fun y => f y = false) l1.
Proof.
  induction l as [|y l IH]; simpl; [done|]. destruct (f y) eqn:E.
  - intros [= ->]. by exists [], l.
  - intros H. destruct (IH H) as (l1 & l2 & -> & Hl). exists (y :: l1), l2. split; [done|].
    by constructor.
Qed.

(** ** Claims *)

(** A reader sees what was written last.  Writing [d] to a sector through
    the cache and then reading any sector gives [d] for that sector and the
    old content for every other one, and [d] is on the disk. *)
Theorem cache_write_then_read s a sec d sec' :
  rep s [] a -> bio_ok a -> sec < a_size a -> sec' < a_size a -> length d = BSIZE ->
  (length (a_dirty a) < NBUF)%nat ->
  wp (do i <- bread 1 sec; set_data i d ;; bwrite i ;; brelse i ;;
      do j <- bread 1 sec'; do v <- get_data j; brelse j ;; ret v)
     (fun v s' => v = (if decide (sec' = sec) then d else view s sec') /\
                  dget (disk s') 1 sec = d /\ binv s' [] /\
                  forall x, view s' x = if decide (x = sec) then d else view s x) s.
Proof.
  intros R Hok Hs Hs' Hlen Hc.
  apply wp_bind, (wp_bread R sec); [done|done|set_solver|by right; rewrite Nat.add_0_r|].
  intros i s1 R1. apply wp_bind, (wp_set_data R1 i sec); [set_solver|done|]. intros s2 R2.
  apply wp_bind, (wp_bwrite R2 i sec); [set_solver|done|]. intros s3 R3. rewrite a_put_one in R3.
  apply wp_bind, (wp_brelse R3 i sec []); [set_solver|done| |set_solver|].
  { right. simpl. by rewrite decide_True, dget_insert, decide_True by done. }
  intros s4 R4. apply wp_bind, (wp_bread R4 sec'); [done|done|set_solver| |].
  { right. rewrite Nat.add_0_r. eapply Nat.le_lt_trans; [apply length_filter|done]. }
  intros j s5 R5. apply wp_bind, (wp_get_data R5 j sec'); [set_solver|].
  apply wp_bind, (wp_brelse R5 j sec' []); [set_solver|done| |set_solver|].
  { eapply rep_synced; [exact R4|set_solver]. }
  intros s6 R6. apply wp_ret. split; [|split; [|split]].
  - simpl. by rewrite (rp_view _ _ _ R).
  - rewrite (rp_disk _ _ _ R6). simpl. by rewrite dget_insert, decide_True.
  - apply R6.
  - intros x. rewrite (rp_view _ _ _ R6), (rp_view _ _ _ R). done.
Qed.

(** A sector that is not cached takes the buffer that is least recently
    used among those that are neither held nor dirty; no other buffer changes. *)
Theorem bget_recycles_lru s K sec :
  binv s K -> LkBcache ∉ held (fthr s) ->
  (forall j bj, bufs s !! j = Some bj -> b_dev bj = 1 -> b_sector bj <> sec) ->
  (exists j bj, bufs s !! j = Some bj /\ (j ∉ K) /\ b_dirty bj = false) ->
  exists i b newer older, bget 1 sec s = Ok i (set_buf i (mkBuf true false false 1 sec (b_data b)) s) /\
    lru s = newer ++ i :: older /\ bufs s !! i = Some b /\ (i ∉ K) /\ b_dirty b = false /\
    Forall (fun j => forall bj, bufs s !! j = Some bj -> j ∈ K \/ b_dirty bj = true) older.
Proof.
  intros H Hl Hmiss Hsp.
  destruct (bget_miss s K sec H Hl Hmiss Hsp) as (i & b & Hrun & Hb & Hi & Hd).
  assert (Hfind : List.find (is_spare (bufs s)) (rev (lru s)) = Some i).
  { assert (Hno : List.find (is_block 1 sec (bufs s)) (lru s) = None).
    { destruct (List.find _ _) as [k|] eqn:E; [|done]. apply find_some in E as [_ E].
      unfold is_block in E. destruct (bufs s !! k) as [bk|] eqn:Hk; [|done].
      apply andb_true_iff in E as [E1 E2]. zbool. by destruct (Hmiss k bk Hk E1). }
    revert Hrun. unfold bget, bind, get. rewrite acquire_ok by done. simpl. rewrite Hno.
    destruct (List.find (is_spare (bufs s)) (rev (lru s))) as [k|] eqn:Es; [|done].
    apply find_some in Es as [_ Es]. unfold is_spare in Es. unfold get_buf. simpl.
    destruct (bufs s !! k) as [bk|] eqn:Hk; [|done]. simpl. intros Heq.
    injection Heq as -> _. done. }
  destruct (find_split _ _ _ Hfind) as (l1 & l2 & Hrev & Hl1).
  exists i, b, (rev l2), (rev l1). split; [done|]. split.
  { rewrite <- (rev_involutive (lru s)), Hrev, rev_app_distr. simpl. by rewrite <- app_assoc. }
  split; [done|]. split; [done|]. split; [done|].
  apply Forall_forall. intros j Hj bj Hbj. apply list_elem_of_In in Hj.
  rewrite <- in_rev in Hj. apply list_elem_of_In in Hj.
  eapply Forall_forall in Hl1; [|exact Hj]. unfold is_spare in Hl1. rewrite Hbj in Hl1.
  destruct (b_dirty bj) eqn:E; [by right|]. left. apply (bi_busy _ _ H j bj Hbj).
  by destruct (b_busy bj).
Qed.
