(* ===== verification/Log.v ===== *)
(** * log.c: the write-ahead log

    Blocks changed by file-system calls stay dirty in the cache and are
    listed in the in-memory header; [commit] writes them to the log area,
    writes the header (the commit point), installs them at their home
    sectors and clears the header.  [recover_from_log] does the second half
    after a crash. *)

From S2P Require Import Prelude Monad Locks FsState FsLayout Bio.

Open Scope Z_scope.
Open Scope kernel_scope.

Record superblock : Type := mkSb {
  sb_size : Z; sb_nblocks : Z; sb_ninodes : Z; sb_nlog : Z
}.

Definition decode_sb (d : list Z) : superblock :=
  mkSb (get_word d 0) (get_word d 1) (get_word d 2) (get_word d 3).

Definition readsb (dev : Z) : M fstate superblock :=
  do bp <- bread dev 1;
  do d <- get_data bp;
  brelse bp ;;
  ret (decode_sb d).

Definition get_log : M fstate logst := gets log.
Definition put_log (l : logst) : M fstate unit := modify (set_log l).

Definition with_lh (n : Z) (secs : list Z) (l : logst) : logst :=
  mkLog (l_start l) (l_size l) (l_outstanding l) (l_committing l) (l_dev l) n secs.
Definition with_outstanding (v : Z) (l : logst) : logst :=
  mkLog (l_start l) (l_size l) v (l_committing l) (l_dev l) (lh_n l) (lh_sector l).
Definition with_committing (v : bool) (l : logst) : logst :=
  mkLog (l_start l) (l_size l) (l_outstanding l) v (l_dev l) (lh_n l) (lh_sector l).

(** [log.lh.sector[i]], an array of LOGSIZE entries. *)
Definition lh_get (l : logst) (i : nat) : M fstate Z :=
  match lh_sector l !! i with
  | Some v => ret v
  | None => fault "log.lh.sector: index out of range"
  end.
Definition lh_set (l : logst) (i : nat) (v : Z) : M fstate logst :=
  if (i <? length (lh_sector l))%nat
  then ret (with_lh (lh_n l) (<[i := v]> (lh_sector l)) l)
  else fault "log.lh.sector: index out of range".

Definition install_trans : M fstate unit :=
  do l <- get_log;
  mfor 0 (Z.to_nat (lh_n l)) (fun tail =>
    do l <- get_log;
    do lbuf <- bread (l_dev l) (l_start l + Z.of_nat tail + 1);
    do sec <- lh_get l tail;
    do dbuf <- bread (l_dev l) sec;
    do d <- get_data lbuf;
    set_data dbuf d ;;
    bwrite dbuf ;;
    brelse lbuf ;;
    brelse dbuf).

Definition read_head : M fstate unit :=
  do l <- get_log;
  do buf <- bread (l_dev l) (l_start l);
  do d <- get_data buf;
  put_log (with_lh (s32 (get_word d 0)) (lh_sector l) l) ;;
  mfor 0 (Z.to_nat (s32 (get_word d 0))) (fun i =>
    do l <- get_log;
    do l' <- lh_set l i (get_word d (S i));
    put_log l') ;;
  brelse buf.

Definition write_head : M fstate unit :=
  do l <- get_log;
  do buf <- bread (l_dev l) (l_start l);
  (do d <- get_data buf; set_data buf (put_word d 0 (lh_n l))) ;;
  mfor 0 (Z.to_nat (lh_n l)) (fun i =>
    do sec <- lh_get l i;
    do d <- get_data buf;
    set_data buf (put_word d (S i) sec)) ;;
  bwrite buf ;;
  brelse buf.

Definition clear_lh : M fstate unit :=
  do l <- get_log; put_log (with_lh 0 (lh_sector l) l).

Definition recover_from_log : M fstate unit :=
  read_head ;; install_trans ;; clear_lh ;; write_head.

Definition initlog : M fstate unit :=
  initlock LkLog ;;
  do sb <- readsb ROOTDEV;
  (do l <- get_log;
   put_log (mkLog (s32 (sb_size sb - sb_nlog sb)) (s32 (sb_nlog sb)) (l_outstanding l)
              (l_committing l) ROOTDEV (lh_n l) (lh_sector l))) ;;
  recover_from_log.

(** begin_op: a thread that sleeps re-examines both conditions when woken. *)
Definition begin_op : M fstate unit :=
  acquire LkLog ;;
  do l <- get_log;
  if l_committing l then sleep ChLog LkLog
  else if LOGSIZE <? lh_n l + (l_outstanding l + 1) * MAXOPBLOCKS then sleep ChLog LkLog
  else put_log (with_outstanding (l_outstanding l + 1) l) ;; release LkLog.

Definition write_log : M fstate unit :=
  do l <- get_log;
  mfor 0 (Z.to_nat (lh_n l)) (fun tail =>
    do l <- get_log;
    do to <- bread (l_dev l) (l_start l + Z.of_nat tail + 1);
    do sec <- lh_get l tail;
    do from <- bread (l_dev l) sec;
    do d <- get_data from;
    set_data to d ;;
    bwrite to ;;
    brelse from ;;
    brelse to).

Definition commit : M fstate unit :=
  do l <- get_log;
  if 0 <? lh_n l then
    write_log ;; write_head ;; install_trans ;; clear_lh ;; write_head
  else ret tt.

Definition end_op : M fstate unit :=
  acquire LkLog ;;
  (do l <- get_log; put_log (with_outstanding (l_outstanding l - 1) l)) ;;
  do l <- get_log;
  if l_committing l then panic "log.committing"
  else
    do do_commit <-
      (if l_outstanding l =? 0 then put_log (with_committing true l) ;; ret true
       else wakeup ChLog ;; ret false);
    release LkLog ;;
    if do_commit : bool then
      commit ;;
      acquire LkLog ;;
      (do l <- get_log; put_log (with_committing false l)) ;;
      wakeup ChLog ;;
      release LkLog
    else ret tt.

(** log_write: the slot of a sector that is already logged is reused. *)
Definition log_write (i : nat) : M fstate unit :=
  do l <- get_log;
  do b <- get_buf i;
  if (LOGSIZE <=? lh_n l) || (l_size l - 1 <=? lh_n l) then panic "too big a transaction"
  else if l_outstanding l <? 1 then panic "log_write outside of trans"
  else
    let k := default (Z.to_nat (lh_n l))
               (find_idx (fun x => x =? b_sector b) (take (Z.to_nat (lh_n l)) (lh_sector l))) in
    do l' <- lh_set l k (b_sector b);
    put_log (with_lh (if (k =? Z.to_nat (lh_n l))%nat then lh_n l + 1 else lh_n l)
               (lh_sector l') l') ;;
    put_buf i (with_dirty true b).
