(* ===== verification/LogSpec.v ===== *)
(** * log.c is correct: what a commit writes, and recovery after a crash

    Every operation is described by the sequence of sector writes it makes.
    A crash during [commit] leaves a prefix of that sequence on the disk;
    recovery from any prefix gives the state before or after the
    transaction, never a mixture. *)

From S2P Require Import Prelude Monad Locks FsState FsLayout Bio BlockSpec Log.

Open Scope Z_scope.
Open Scope kernel_scope.

(** The sectors of the current transaction. *)
Definition lsecs (l : logst) : list Z := take (Z.to_nat (lh_n l)) (lh_sector l).

(** The log area [start, start + size). *)
Definition in_log (l : logst) (x : Z) : Prop := l_start l <= x < l_start l + l_size l.

(** Geometry of the log and of the sectors listed in its header. *)
Record log_ok (a : ablk) : Prop := mkLogOk {
  lo_dev : l_dev (a_log a) = 1;
  lo_len : length (lh_sector (a_log a)) = Z.to_nat LOGSIZE;
  lo_n : 0 <= lh_n (a_log a) < LOGSIZE;
  lo_size : lh_n (a_log a) < l_size (a_log a);
  lo_start : 0 <= l_start (a_log a);
  lo_end : l_start (a_log a) + l_size (a_log a) <= a_size a;
  lo_home : forall x, x ∈ lsecs (a_log a) -> x < a_size a /\ ~ in_log (a_log a) x;
  lo_u32 : forall x, x ∈ lsecs (a_log a) -> 0 <= x < 2 ^ 32;
  lo_bio : bio_ok a
}.

Lemma length_lsecs a : log_ok a -> length (lsecs (a_log a)) = Z.to_nat (lh_n (a_log a)).
Proof. intros G. unfold lsecs. rewrite length_take, (lo_len _ G). pose proof (lo_n _ G). lia. Qed.

Lemma lsecs_lookup a t :
  log_ok a -> (t < Z.to_nat (lh_n (a_log a)))%nat ->
  exists sec, lh_sector (a_log a) !! t = Some sec /\ lsecs (a_log a) !! t = Some sec.
Proof.
  intros G Ht. assert (is_Some (lsecs (a_log a) !! t)) as [sec Hs].
  { apply lookup_lt_is_Some. by rewrite length_lsecs. }
  exists sec. split; [|done]. unfold lsecs in Hs. by rewrite lookup_take_lt in Hs.
Qed.

(** The header block is not one of the sectors of a transaction. *)
Lemma start_not_home a : log_ok a -> l_start (a_log a) ∉ lsecs (a_log a).
Proof.
  intros G Hin. destruct (lo_home _ G _ Hin) as [_ Hno]. apply Hno.
  pose proof (lo_size _ G). pose proof (lo_n _ G). unfold in_log. lia.
Qed.

(** The geometry does not depend on the block contents. *)
Lemma log_ok_put ws a : log_ok a -> log_ok (a_put ws a).
Proof. intros []. by split. Qed.

#[export] Hint Resolve log_ok_put : kernel.

Section steps.
Context {s : fstate} {a : ablk}.

Lemma wp_get_log H (Q : logst -> fstate -> Prop) :
  rep s H a -> Q (a_log a) s -> wp get_log Q s.
Proof. intros R HQ. unfold get_log. apply wp_gets. by rewrite (rp_log _ _ _ R). Qed.

(** Copying sector [src] to [dst], reading the destination first. *)
Lemma wp_copy_to src dst (Q : unit -> fstate -> Prop) :
  rep s [] a -> bio_ok a -> src <> dst -> src < a_size a -> dst < a_size a ->
  (length (a_dirty a) < NBUF)%nat ->
  src ∈ a_dirty a \/ (length (a_dirty a) + 1 < NBUF)%nat ->
  (forall s', rep s' [] (a_put [(dst, a_view a src)] a) -> Q tt s') ->
  wp (do to <- bread 1 dst; do from <- bread 1 src; do d <- get_data from;
      set_data to d ;; bwrite to ;; brelse from ;; brelse to) Q s.
Proof.
  intros R Hok Hne Hsrc Hdst Hc1 Hc2 HQ.
  apply wp_bind, (wp_bread R dst); [done|done|set_solver|by right; rewrite Nat.add_0_r|].
  intros i s1 R1. apply wp_bind, (wp_bread R1 src); [done|done|set_solver|done|].
  intros j s2 R2. apply wp_bind, (wp_get_data R2 j src); [set_solver|].
  apply wp_bind, (wp_set_data R2 i dst); [set_solver|by eapply rep_length|].
  intros s3 R3. apply wp_bind, (wp_bwrite R3 i dst); [set_solver|done|]. intros s4 R4.
  rewrite a_put_one in R4.
  assert (Hs1 : synced (a_put [(dst, a_view a src)] a) src).
  { assert (src ∉ ([] : list (nat * Z)).*2) as Hn by set_solver.
    destruct (rep_synced _ _ _ src R Hn) as [Hd|Hd].
    - left. simpl. apply list_elem_of_filter. set_solver.
    - right. simpl. rewrite decide_False by done. rewrite dget_insert.
      by rewrite decide_False by congruence. }
  apply wp_bind, (wp_brelse R4 j src [(i, dst)]); [set_solver|done|done| |].
  { intros p. split; [|set_solver]. intros ->%list_elem_of_singleton.
    split; [set_solver|congruence]. }
  intros s5 R5. apply (wp_brelse R5 i dst []); [set_solver|done| |set_solver|].
  - right. simpl. rewrite decide_True by done. rewrite dget_insert. by rewrite decide_True.
  - apply HQ.
Qed.

(** The same with the source read first, as [install_trans] does. *)
Lemma wp_copy_from src dst (Q : unit -> fstate -> Prop) :
  rep s [] a -> bio_ok a -> src <> dst -> src < a_size a -> dst < a_size a ->
  (length (a_dirty a) < NBUF)%nat ->
  dst ∈ a_dirty a \/ (length (a_dirty a) + 1 < NBUF)%nat ->
  (forall s', rep s' [] (a_put [(dst, a_view a src)] a) -> Q tt s') ->
  wp (do from <- bread 1 src; do to <- bread 1 dst; do d <- get_data from;
      set_data to d ;; bwrite to ;; brelse from ;; brelse to) Q s.
Proof.
  intros R Hok Hne Hsrc Hdst Hc1 Hc2 HQ.
  apply wp_bind, (wp_bread R src); [done|done|set_solver|by right; rewrite Nat.add_0_r|].
  intros j s1 R1. apply wp_bind, (wp_bread R1 dst); [done|done|set_solver|done|].
  intros i s2 R2. apply wp_bind, (wp_get_data R2 j src); [set_solver|].
  apply wp_bind, (wp_set_data R2 i dst); [set_solver|by eapply rep_length|].
  intros s3 R3. apply wp_bind, (wp_bwrite R3 i dst); [set_solver|done|]. intros s4 R4.
  rewrite a_put_one in R4.
  assert (Hs1 : synced (a_put [(dst, a_view a src)] a) src).
  { assert (src ∉ ([] : list (nat * Z)).*2) as Hn by set_solver.
    destruct (rep_synced _ _ _ src R Hn) as [Hd|Hd].
    - left. simpl. apply list_elem_of_filter. set_solver.
    - right. simpl. rewrite decide_False by done. rewrite dget_insert.
      by rewrite decide_False by congruence. }
  apply wp_bind, (wp_brelse R4 j src [(i, dst)]); [set_solver|done|done| |].
  { intros p. split; [|set_solver]. intros ->%list_elem_of_singleton.
    split; [set_solver|congruence]. }
  intros s5 R5. apply (wp_brelse R5 i dst []); [set_solver|done| |set_solver|].
  - right. simpl. rewrite decide_True by done. rewrite dget_insert. by rewrite decide_True.
  - apply HQ.
Qed.

End steps.

(** ** The sequences of writes *)

(** write_log: block [t] of the log gets the content of sector [secs[t]]. *)
Definition log_writes (start : Z) (secs : list Z) (V : Z -> list Z) : list (Z * list Z) :=
  imap (fun t sec => (start + Z.of_nat t + 1, V sec)) secs.

(** install_trans: sector [secs[t]] gets the content of log block [t]. *)
Definition home_writes (start : Z) (secs : list Z) (V : Z -> list Z) : list (Z * list Z) :=
  imap (fun t sec => (sec, V (start + Z.of_nat t + 1))) secs.

(** write_head: the header block. *)
Definition head_block (d : list Z) (n : Z) (secs : list Z) : list Z :=
  put_words (put_word d 0 n) 1 secs.

Lemma log_writes_sectors start secs V x :
  x ∈ (log_writes start secs V).*1 <->
    exists t, (t < length secs)%nat /\ x = start + Z.of_nat t + 1.
Proof.
  unfold log_writes. rewrite list_elem_of_fmap. split.
  - intros ([x' d] & -> & Hin). apply elem_of_lookup_imap in Hin as (t & sec & [= -> ->] & Ht).
    exists t. split; [|done]. by eapply lookup_lt_Some.
  - intros (t & Ht & ->). apply lookup_lt_is_Some in Ht as [sec Hs].
    exists (start + Z.of_nat t + 1, V sec). split; [done|].
    apply elem_of_lookup_imap. eauto.
Qed.

Lemma log_writes_NoDup start secs V : NoDup (log_writes start secs V).*1.
Proof.
  apply NoDup_alt. intros i j x Hi Hj. unfold log_writes in *.
  rewrite list_lookup_fmap, list_lookup_imap in Hi, Hj.
  destruct (secs !! i), (secs !! j); simplify_eq/=. lia.
Qed.

Lemma home_writes_sectors start secs V : (home_writes start secs V).*1 = secs.
Proof.
  unfold home_writes. apply list_eq. intros t.
  rewrite list_lookup_fmap, list_lookup_imap. by destruct (secs !! t).
Qed.

Lemma imap_take_S {A B} (f : nat -> A -> B) (l : list A) t x :
  l !! t = Some x -> imap f (take (S t) l) = imap f (take t l) ++ [f t x].
Proof.
  intros Ht. rewrite (take_S_r _ _ x) by done. rewrite imap_app. simpl.
  rewrite length_take, Nat.add_0_r. apply lookup_lt_Some in Ht. by rewrite Nat.min_l by lia.
Qed.

(** ** The loops *)

Section loops.
Context {s : fstate} {a : ablk} (R : rep s [] a) (G : log_ok a).

Let l := a_log a.
Let secs := lsecs l.

Lemma log_block_bounds t :
  (t < Z.to_nat (lh_n l))%nat ->
  let x := l_start l + Z.of_nat t + 1 in
  x < a_size a /\ in_log l x.
Proof using G.
  intros Ht. pose proof (lo_n _ G). pose proof (lo_size _ G). pose proof (lo_end _ G).
  pose proof (lo_start _ G). unfold in_log, l in *. lia.
Qed.

Lemma wp_write_log :
  a_dirty a = secs ->
  wp write_log (fun _ s' => rep s' [] (a_put (log_writes (l_start l) secs (a_view a)) a)) s.
Proof using R G.
  intros Hdirty. unfold write_log. apply wp_bind, (wp_get_log [] _ R). fold l.
  set (I t s' := rep s' [] (a_put (log_writes (l_start l) (take t secs) (a_view a)) a)).
  eapply wp_conseq; [apply (wp_mfor _ _ _ I)|].
  - unfold I. rewrite take_0. by rewrite a_put_nil.
  - intros t s1 [_ Ht] R1. destruct (lsecs_lookup a t G Ht) as (sec & Hget & Hsec).
    pose proof (log_block_bounds t Ht) as [Hx1 Hx2].
    destruct (lo_home _ G sec) as [Hs1 Hs2]; [by eapply list_elem_of_lookup_2|].
    pose proof (length_lsecs a G) as Hlen. pose proof (lo_n _ G) as Hn.
    apply wp_bind, (wp_get_log [] _ R1). change (a_log (a_put _ a)) with l.
    assert (lh_get l t = ret sec) as -> by (unfold lh_get, l; by rewrite Hget).
    rewrite (lo_dev _ G : l_dev l = 1).
    assert (Hnew : forall y, (y ∈ (log_writes (l_start l) (take t secs) (a_view a)).*1) ->
                             in_log l y /\ y <> l_start l + Z.of_nat t + 1).
    { intros y Hy. apply log_writes_sectors in Hy as (t' & Ht' & ->).
      rewrite length_take in Ht'. split; [apply log_block_bounds|]; lia. }
    assert (Hdl : (length (filter (fun x => x ∉ (log_writes (l_start l) (take t secs) (a_view a)).*1)
                     (a_dirty a)) <= length secs)%nat).
    { rewrite Hdirty. apply length_filter. }
    assert (Hsd : sec ∈ filter (fun x => x ∉ (log_writes (l_start l) (take t secs) (a_view a)).*1)
                     (a_dirty a)).
    { apply list_elem_of_filter. split.
      - intros Hy. by apply Hnew in Hy as [Hy1 Hy2].
      - rewrite Hdirty. by eapply list_elem_of_lookup_2. }
    unfold LOGSIZE, NBUF in *.
    refine (wp_copy_to sec (l_start l + Z.of_nat t + 1) _ R1 (lo_bio _ G) _ Hs1 Hx1 _ (or_introl Hsd) _).
    + intros ->. done.
    + change (a_dirty (a_put _ a)) with
        (filter (fun x => x ∉ (log_writes (l_start l) (take t secs) (a_view a)).*1) (a_dirty a)).
      unfold secs, l, NBUF in *. lia.
    + intros s2 R2. unfold I. rewrite a_put_app in R2. unfold log_writes.
      rewrite (imap_take_S _ _ _ sec) by done.
      replace (a_view a sec) with (a_view (a_put (log_writes (l_start l) (take t secs) (a_view a)) a) sec).
      * exact R2.
      * apply vput_notin. intros Hy. by apply Hnew in Hy as [Hy1 Hy2].
  - intros [] s1 H1. unfold I in H1. rewrite Nat.add_0_l in H1.
    rewrite take_ge in H1; [done|]. unfold secs, l. rewrite length_lsecs by done. lia.
Qed.

Lemma wp_install_trans :
  (length (a_dirty a) < NBUF)%nat ->
  ((length (a_dirty a) + 1 < NBUF)%nat \/ NoDup secs /\ forall x, x ∈ secs -> x ∈ a_dirty a) ->
  wp install_trans (fun _ s' => rep s' [] (a_put (home_writes (l_start l) secs (a_view a)) a)) s.
Proof using R G.
  intros Hd1 Hd2. unfold install_trans. apply wp_bind, (wp_get_log [] _ R). fold l.
  set (I t s' := rep s' [] (a_put (home_writes (l_start l) (take t secs) (a_view a)) a)).
  eapply wp_conseq; [apply (wp_mfor _ _ _ I)|].
  - unfold I. rewrite take_0. by rewrite a_put_nil.
  - intros t s1 [_ Ht] R1. destruct (lsecs_lookup a t G Ht) as (sec & Hget & Hsec).
    pose proof (log_block_bounds t Ht) as [Hx1 Hx2].
    destruct (lo_home _ G sec) as [Hs1 Hs2]; [by eapply list_elem_of_lookup_2|].
    apply wp_bind, (wp_get_log [] _ R1). change (a_log (a_put _ a)) with l.
    assert (lh_get l t = ret sec) as -> by (unfold lh_get, l; by rewrite Hget).
    rewrite (lo_dev _ G : l_dev l = 1).
    set (D := filter (fun x => x ∉ (home_writes (l_start l) (take t secs) (a_view a)).*1) (a_dirty a)).
    assert (Hdl : (length D <= length (a_dirty a))%nat) by apply length_filter.
    refine (wp_copy_from (l_start l + Z.of_nat t + 1) sec _ R1 (lo_bio _ G) _ Hx1 Hs1 _ _ _).
    + intros <-. done.
    + change (a_dirty (a_put _ a)) with D. lia.
    + change (a_dirty (a_put _ a)) with D. destruct Hd2 as [Hd2|[Hnd Hd2]]; [right; lia|].
      left. apply list_elem_of_filter. rewrite home_writes_sectors. split.
      * intros Hin. apply list_elem_of_lookup_1 in Hin as [t' Ht'].
        apply lookup_take_Some in Ht' as [Ht' Hlt].
        assert (t' = t) by (by eapply NoDup_lookup). lia.
      * apply Hd2. by eapply list_elem_of_lookup_2.
    + intros s2 R2. unfold I. rewrite a_put_app in R2. unfold home_writes.
      rewrite (imap_take_S _ _ _ sec) by done.
      replace (a_view a (l_start l + Z.of_nat t + 1)) with
        (a_view (a_put (home_writes (l_start l) (take t secs) (a_view a)) a)
           (l_start l + Z.of_nat t + 1)).
      * exact R2.
      * apply vput_notin. rewrite home_writes_sectors. intros Hin.
        destruct (lo_home _ G (l_start l + Z.of_nat t + 1)) as [_ Hno]; [|done].
        eapply subseteq_take, Hin.
  - intros [] s1 H1. unfold I in H1. rewrite Nat.add_0_l in H1.
    rewrite take_ge in H1; [done|]. unfold secs, l. rewrite length_lsecs by done. lia.
Qed.
End loops.

Lemma length_head_block d n secs :
  length d = BSIZE -> (length secs <= Z.to_nat LOGSIZE)%nat -> length (head_block d n secs) = BSIZE.
Proof.
  unfold BSIZE, LOGSIZE. intros Hd Hs. unfold head_block.
  rewrite length_put_words; rewrite length_put_word; lia.
Qed.

Lemma wp_write_head s a :
  rep s [] a -> log_ok a -> (length (a_dirty a) < NBUF)%nat ->
  wp write_head (fun _ s' => rep s' [] (a_put [(l_start (a_log a),
       head_block (a_view a (l_start (a_log a))) (lh_n (a_log a)) (lsecs (a_log a)))] a)) s.
Proof.
  intros R G Hd. set (l := a_log a). set (st := l_start l). set (V := a_view a st).
  pose proof (lo_n _ G) as Hn. pose proof (lo_size _ G) as Hsz. pose proof (lo_end _ G) as He.
  pose proof (length_lsecs a G) as Hlen.
  unfold write_head. apply wp_bind, (wp_get_log [] _ R). fold l.
  rewrite (lo_dev _ G : l_dev l = 1).
  assert (Hst : st < a_size a) by (unfold st, l; lia).
  apply wp_bind, (wp_bread R st); [apply G|done|set_solver|right; simpl; lia|]. intros i s1 R1.
  apply wp_bind, wp_bind, (wp_get_data R1 i st); [set_solver|].
  apply (wp_set_data R1 i st); [set_solver| |].
  { rewrite length_put_word; rewrite (rep_length _ _ _ _ R); unfold BSIZE; lia. }
  intros s2 R2.
  set (I t s' := rep s' [(i, st)] (a_set_view st (head_block V (lh_n l) (take t (lsecs l))) a)).
  apply wp_bind. eapply wp_conseq; [apply (wp_mfor _ _ _ I)|].
  - unfold I. rewrite take_0. exact R2.
  - intros t s3 [_ Ht] R3. destruct (lsecs_lookup a t G Ht) as (sec & Hget & Hsec).
    apply wp_bind. unfold lh_get. rewrite (Hget : lh_sector l !! t = Some sec). apply wp_ret.
    apply wp_bind, (wp_get_data R3 i st); [set_solver|]. simpl. rewrite decide_True by done.
    assert (Hput : put_word (head_block V (lh_n l) (take t (lsecs l))) (S t) sec =
                   head_block V (lh_n l) (take (S t) (lsecs l))).
    { rewrite (take_S_r _ _ sec) by done. unfold head_block. rewrite put_words_snoc. f_equal.
      rewrite length_take. unfold l in *. lia. }
    rewrite Hput. apply (wp_set_data R3 i st); [set_solver| |].
    + apply length_head_block; [apply (rep_length _ _ _ _ R)|]. rewrite length_take.
      unfold l in *. lia.
    + intros s4 R4. unfold I. by rewrite a_set_view_twice in R4.
  - intros [] s3 R3. unfold I in R3. rewrite Nat.add_0_l in R3.
    rewrite take_ge in R3 by (unfold l in *; lia).
    apply wp_bind, (wp_bwrite R3 i st); [set_solver|done|]. intros s4 R4.
    rewrite a_put_one in R4.
    apply (wp_brelse R4 i st []); [set_solver|apply G| |set_solver|done].
    right. simpl. rewrite decide_True by done. rewrite dget_insert. by rewrite decide_True.
Qed.

(** ** Commit *)

(** All the writes of a commit, in order. *)
Definition commit_writes (l : logst) (V : Z -> list Z) : list (Z * list Z) :=
  let head := head_block (V (l_start l)) (lh_n l) (lsecs l) in
  log_writes (l_start l) (lsecs l) V ++ [(l_start l, head)] ++
  map (fun sec => (sec, V sec)) (lsecs l) ++ [(l_start l, put_word head 0 0)].

Lemma log_ok_clear a :
  log_ok a -> log_ok (a_set_log (with_lh 0 (lh_sector (a_log a)) (a_log a)) a).
Proof.
  intros G. pose proof (lo_n _ G). pose proof (lo_size _ G). destruct G. split; simpl; try done.
  - lia.
  - unfold lsecs. simpl. set_solver.
  - unfold lsecs. simpl. set_solver.
Qed.

Lemma wp_clear_lh s H a (Q : unit -> fstate -> Prop) :
  rep s H a ->
  (forall s', rep s' H (a_set_log (with_lh 0 (lh_sector (a_log a)) (a_log a)) a) -> Q tt s') ->
  wp clear_lh Q s.
Proof.
  intros R HQ. unfold clear_lh. apply wp_bind, (wp_get_log H _ R).
  unfold put_log. apply wp_modify, HQ. by apply rep_set_log.
Qed.

(** Reading a log block after write_log gives the sector it was made from. *)
Lemma vput_log_writes start secs V t sec :
  secs !! t = Some sec ->
  vput (log_writes start secs V) V (start + Z.of_nat t + 1) = V sec.
Proof.
  intros Ht. apply vput_in; [apply log_writes_NoDup|].
  unfold log_writes. apply elem_of_lookup_imap. eauto.
Qed.

Lemma home_writes_after_log l V (hd : list Z) :
  (forall x, x ∈ lsecs l -> ~ in_log l x) ->
  home_writes (l_start l) (lsecs l)
    (vput (log_writes (l_start l) (lsecs l) V ++ [(l_start l, hd)]) V) =
  map (fun sec => (sec, V sec)) (lsecs l).
Proof.
  intros Hh. unfold home_writes. apply list_eq. intros t. rewrite list_lookup_imap.
  change (map ?f ?x) with (f <$> x). rewrite list_lookup_fmap.
  destruct (lsecs l !! t) as [sec|] eqn:E; [|done]. simpl. do 2 f_equal.
  rewrite vput_app, vput_notin by (simpl; rewrite list_elem_of_singleton; lia).
  by apply vput_log_writes.
Qed.

Lemma wp_commit s a :
  rep s [] a -> log_ok a -> a_dirty a = lsecs (a_log a) -> NoDup (lsecs (a_log a)) ->
  0 < lh_n (a_log a) ->
  wp commit (fun _ s' => rep s' [] (a_set_log (with_lh 0 (lh_sector (a_log a)) (a_log a))
                                     (a_put (commit_writes (a_log a) (a_view a)) a))) s.
Proof.
  intros R G Hd Hnd Hpos. set (l := a_log a). pose proof (lo_n _ G) as Hn.
  pose proof (length_lsecs a G) as Hlen. unfold LOGSIZE in Hn.
  set (head := head_block (a_view a (l_start l)) (lh_n l) (lsecs l)).
  set (W1 := log_writes (l_start l) (lsecs l) (a_view a)).
  unfold commit. apply wp_bind, (wp_get_log [] _ R). fold l. zif; [|unfold l in *; lia].
  apply wp_bind. eapply wp_conseq; [by apply (wp_write_log R G)|]. intros [] s1 R1. fold l W1 in R1.
  assert (Hcnt : forall ws, (length (a_dirty (a_put ws a)) < NBUF)%nat).
  { intros ws. unfold NBUF. simpl. eapply Nat.le_lt_trans; [apply length_filter|].
    rewrite Hd. lia. }
  apply wp_bind. eapply wp_conseq; [apply (wp_write_head _ _ R1); auto with kernel|].
  intros [] s2 R2. rewrite a_put_app in R2.
  assert (Hst : a_view (a_put W1 a) (l_start (a_log (a_put W1 a))) = a_view a (l_start l)).
  { apply vput_notin. unfold W1. rewrite log_writes_sectors. intros (t & _ & Ht).
    simpl in Ht. fold l in Ht. lia. }
  rewrite Hst in R2. simpl a_log in R2. fold l head in R2.
  apply wp_bind. eapply wp_conseq; [apply (wp_install_trans R2); auto with kernel|].
  { right. split; [done|]. intros x Hx. simpl. apply list_elem_of_filter.
    split; [|by rewrite Hd]. rewrite fmap_app, elem_of_app. unfold W1.
    rewrite log_writes_sectors. simpl. rewrite list_elem_of_singleton.
    destruct (lo_home _ G x Hx) as [_ Hno]. pose proof (lo_size _ G).
    unfold in_log in Hno. fold l in Hno, Hx, Hlen, H, Hn, Hpos |- *.
    intros [(t & Ht & ->)| ->]; apply Hno; lia. }
  intros [] s3 R3. rewrite a_put_app in R3. simpl a_log in R3. fold l in R3. unfold W1 in R3.
  simpl a_view in R3.
  rewrite home_writes_after_log in R3 by (intros x Hx; by apply (lo_home _ G)).
  apply wp_bind, (wp_clear_lh _ _ _ _ R3). intros s4 R4.
  eapply wp_conseq; [apply (wp_write_head _ _ R4)|].
  { apply log_ok_clear. auto with kernel. }
  { apply Hcnt. }
  intros [] s5 R5. rewrite a_put_set_log, a_put_app in R5. simpl a_log in R5. fold l in R5.
  simpl l_start in R5. simpl lh_n in R5.
  change (head_block ?d 0 (lsecs (with_lh 0 _ l))) with (put_word d 0 0) in R5.
  unfold commit_writes. fold head. rewrite <- !app_assoc in R5. fold W1 in R5 |- *.
  replace (a_view (a_set_log _ _) (l_start l)) with head in R5; [exact R5|].
  cbn [a_view a_set_log a_put]. rewrite !vput_app. symmetry. rewrite vput_notin.
  - cbn [vput foldl fst snd]. by rewrite decide_True.
  - rewrite map_map, map_id. by apply start_not_home.
Qed.

(** ** Recovery *)

(** The header a block holds. *)
Definition head_n (d : list Z) : Z := s32 (get_word d 0).
Definition head_secs (d : list Z) : list Z :=
  map (fun i => get_word d (S i)) (seq 0 (Z.to_nat (head_n d))).

Lemma length_head_secs d : length (head_secs d) = Z.to_nat (head_n d).
Proof. unfold head_secs. by rewrite length_map, length_seq. Qed.

(** The in-memory header after read_head. *)
Definition read_lh (d : list Z) (l : logst) : logst :=
  with_lh (head_n d) (head_secs d ++ drop (Z.to_nat (head_n d)) (lh_sector l)) l.

Lemma lsecs_read_lh d l : lsecs (read_lh d l) = head_secs d.
Proof. unfold lsecs, read_lh. simpl. rewrite <- length_head_secs. apply take_app_length. Qed.

Lemma wp_read_head s a :
  rep s [] a -> bio_ok a -> l_dev (a_log a) = 1 -> l_start (a_log a) < a_size a ->
  (length (a_dirty a) < NBUF)%nat ->
  let d := a_view a (l_start (a_log a)) in
  (Z.to_nat (head_n d) <= length (lh_sector (a_log a)))%nat ->
  wp read_head (fun _ s' => rep s' [] (a_set_log (read_lh d (a_log a)) a)) s.
Proof.
  intros R Hok Hdev Hsz Hcnt d Hn. set (l := a_log a) in *. set (st := l_start l) in *.
  assert (Hsy : synced a st) by (eapply rep_synced; [exact R|set_solver]).
  unfold read_head. apply wp_bind, (wp_get_log [] _ R). fold l. rewrite Hdev.
  apply wp_bind, (wp_bread R st); [done|done|set_solver|right; simpl; lia|]. intros i s1 R1.
  apply wp_bind, (wp_get_data R1 i st); [set_solver|].
  apply wp_bind. unfold put_log at 1. apply wp_modify. change (s32 (get_word _ 0)) with (head_n d).
  set (lt t := with_lh (head_n d) (map (fun i => get_word d (S i)) (seq 0 t) ++
                                   drop t (lh_sector l)) l).
  set (I t s' := rep s' [(i, st)] (a_set_log (lt t) a)).
  apply wp_bind. eapply wp_conseq; [apply (wp_mfor _ _ _ I)|].
  - unfold I, lt. simpl. rewrite drop_0. by apply rep_set_log.
  - intros t s2 [_ Ht] R2. apply wp_bind, (wp_get_log _ _ R2). simpl a_log.
    assert (Hlt : (t < length (lh_sector (lt t)))%nat).
    { unfold lt. simpl. rewrite length_app, length_map, length_seq, length_drop. lia. }
    unfold lh_set. apply wp_bind. zif; [|lia]. apply wp_ret. unfold put_log. apply wp_modify.
    unfold I. change (a_set_log (lt (S t)) a) with (a_set_log (lt (S t)) (a_set_log (lt t) a)).
    replace (lt (S t)) with (with_lh (lh_n (lt t)) (<[t := get_word d (S t)]> (lh_sector (lt t))) (lt t)).
    + by apply rep_set_log.
    + unfold lt, with_lh. cbn [lh_n lh_sector l_start l_size l_outstanding l_committing l_dev]. f_equal.
      rewrite seq_S, map_app, <- app_assoc. simpl.
      assert (is_Some (lh_sector l !! t)) as [x Hx] by (apply lookup_lt_is_Some; lia).
      rewrite (drop_S _ x) by done.
      rewrite insert_app_r_alt by (rewrite length_map, length_seq; done).
      rewrite length_map, length_seq, Nat.sub_diag. done.
  - intros [] s2 R2. unfold I in R2. rewrite Nat.add_0_l in R2.
    apply (wp_brelse R2 i st []); [set_solver|done|done|set_solver|]. intros s3 R3. exact R3.
Qed.

(** The writes recovery makes. *)
Definition recover_writes (start : Z) (V : Z -> list Z) : list (Z * list Z) :=
  home_writes start (head_secs (V start)) V ++ [(start, put_word (V start) 0 0)].

Lemma wp_recover s a :
  rep s [] a -> a_dirty a = [] ->
  log_ok (a_set_log (read_lh (a_view a (l_start (a_log a))) (a_log a)) a) ->
  (Z.to_nat (head_n (a_view a (l_start (a_log a)))) <= length (lh_sector (a_log a)))%nat ->
  wp recover_from_log (fun _ s' => exists secs, rep s' []
      (a_set_log (with_lh 0 secs (a_log a))
         (a_put (recover_writes (l_start (a_log a)) (a_view a)) a))) s.
Proof.
  intros R Hd G Hlen. set (l := a_log a) in *. set (st := l_start l) in *.
  set (d := a_view a st) in *. set (a1 := a_set_log (read_lh d l) a) in *.
  pose proof (lo_end _ G). pose proof (lo_size _ G). pose proof (lo_n _ G). simpl in *.
  unfold recover_from_log. apply wp_bind. eapply wp_conseq; [apply (wp_read_head _ _ R)|].
  { apply (lo_bio _ G). }
  { apply (lo_dev _ G). }
  { fold l. lia. }
  { rewrite Hd. simpl. unfold NBUF. lia. }
  { done. }
  intros [] s1 R1. fold l st d in R1. fold a1 in R1.
  apply wp_bind. eapply wp_conseq; [apply (wp_install_trans R1 G)|].
  { unfold a1. simpl. rewrite Hd. simpl. unfold NBUF. lia. }
  { left. unfold a1. simpl. rewrite Hd. simpl. unfold NBUF. lia. }
  intros [] s2 R2. apply wp_bind, (wp_clear_lh _ _ _ _ R2). intros s3 R3.
  eapply wp_conseq; [apply (wp_write_head _ _ R3)|].
  { apply log_ok_clear. auto with kernel. }
  { simpl. rewrite Hd. simpl. unfold NBUF. lia. }
  intros [] s4 R4. exists (head_secs d ++ drop (Z.to_nat (head_n d)) (lh_sector l)).
  simpl a_log in R4. rewrite lsecs_read_lh in R4.
  change (a_put _ (a_set_log ?x ?b)) with (a_set_log x (a_put [(st, put_word (a_view b st) 0 0)] b)) in R4.
  unfold a1 in R4. rewrite a_put_set_log in R4.
  change (a_put ?w (a_set_log ?x ?b)) with (a_set_log x (a_put w b)) in R4.
  rewrite a_put_app in R4. cbn [a_view a_set_log a_put] in R4. unfold recover_writes.
  fold d. rewrite vput_notin in R4; [exact R4|].
  rewrite home_writes_sectors. pose proof (start_not_home _ G) as Hno.
  unfold a1 in Hno. simpl in Hno. by rewrite lsecs_read_lh in Hno.
Qed.

(** A header written by write_head is read back by read_head. *)
Lemma head_roundtrip d n secs :
  length d = BSIZE -> n = Z.of_nat (length secs) -> n < LOGSIZE ->
  Forall (fun x => 0 <= x < 2 ^ 32) secs ->
  head_n (head_block d n secs) = n /\ head_secs (head_block d n secs) = secs.
Proof.
  unfold LOGSIZE, BSIZE. intros Hd Hn Hlt Hall.
  assert (Hl : (4 * (1 + length secs) <= length (put_word d 0 n))%nat)
    by (rewrite length_put_word; lia).
  assert (Hhn : head_n (head_block d n secs) = n).
  { unfold head_n, head_block. rewrite get_put_words by done. zif; [lia|].
    rewrite get_put_word by lia. unfold s32, u32. zif; zlia. }
  split; [done|]. unfold head_secs. rewrite Hhn. apply list_eq. intros t.
  change (map ?f ?x) with (f <$> x). rewrite list_lookup_fmap.
  destruct (decide (t < length secs)%nat) as [Ht|Ht].
  - rewrite lookup_seq_lt by lia. simpl. unfold head_block. rewrite get_put_words by done.
    zif; [|lia]. apply lookup_lt_is_Some in Ht as [x Hx]. rewrite Hx. f_equal.
    replace (S t - 1)%nat with t by lia. rewrite (nth_lookup_Some _ _ _ x) by done.
    pose proof (Forall_lookup_1 _ _ _ _ Hall Hx). unfold u32. zlia.
  - rewrite lookup_seq_ge by lia. symmetry. apply lookup_ge_None. lia.
Qed.

Lemma head_cleared d : length d = BSIZE -> head_n (put_word d 0 0) = 0.
Proof. unfold BSIZE. intros. unfold head_n. by rewrite get_put_word by lia. Qed.

(** The disk, as contents of sectors, that recovery from [D] leaves. *)
Definition recovered (start : Z) (D : Z -> list Z) (x : Z) : list Z :=
  vput (recover_writes start D) D x.

Lemma recovered_ext start D D' x :
  (forall y, D y = D' y) -> recovered start D x = recovered start D' x.
Proof.
  intros HD. unfold recovered, recover_writes. rewrite HD.
  replace (home_writes start (head_secs (D' start)) D)
    with (home_writes start (head_secs (D' start)) D'); [by apply vput_ext|].
  unfold home_writes. apply imap_ext. intros. by rewrite HD.
Qed.

(** With an empty header recovery changes no home sector. *)
Lemma recovered_empty l D x :
  head_n (D (l_start l)) = 0 -> x <> l_start l -> recovered (l_start l) D x = D x.
Proof.
  intros H0 Hx. unfold recovered, recover_writes, head_secs. rewrite H0.
  apply vput_notin. simpl. by rewrite list_elem_of_singleton.
Qed.

(** With a committed header every home sector gets its logged content. *)
Lemma recovered_committed l D (V : Z -> list Z) secs x :
  head_secs (D (l_start l)) = secs -> NoDup secs -> x <> l_start l ->
  (forall t sec, secs !! t = Some sec -> D (l_start l + Z.of_nat t + 1) = V sec) ->
  recovered (l_start l) D x = if decide (x ∈ secs) then V x else D x.
Proof.
  intros Hs Hnd Hx HD. unfold recovered, recover_writes. rewrite Hs, vput_app.
  rewrite vput_notin by (simpl; by rewrite list_elem_of_singleton).
  destruct (decide (x ∈ secs)) as [Hin|Hin].
  - apply list_elem_of_lookup_1 in Hin as [t Ht].
    apply vput_in; [by rewrite home_writes_sectors|].
    unfold home_writes. apply elem_of_lookup_imap. exists t, x. split; [|done]. f_equal.
    symmetry. by apply HD.
  - apply vput_notin. by rewrite home_writes_sectors.
Qed.

(** ** What a crash during commit leaves on the disk *)

Section crash.
Context {s : fstate} {a : ablk} (R : rep s [] a) (G : log_ok a).
Context (Hd : a_dirty a = lsecs (a_log a)) (Hnd : NoDup (lsecs (a_log a))).
Context (Hempty : head_n (a_view a (l_start (a_log a))) = 0).

Let l := a_log a.
Let st := l_start l.
Let V := a_view a.
Let D0 := dget (a_disk a) 1.
Let W1 := log_writes st (lsecs l) V.
Let head := head_block (V st) (lh_n l) (lsecs l).
Let W3 := map (fun sec => (sec, V sec)) (lsecs l).

Lemma commit_writes_eq : commit_writes l V = W1 ++ (st, head) :: W3 ++ [(st, put_word head 0 0)].
Proof using. reflexivity. Qed.

Lemma view_clean x : x ∉ lsecs l -> V x = D0 x.
Proof using R Hd.
  intros Hx. destruct (rep_synced s [] a x R (not_elem_of_nil x)) as [H|H]; [|done].
  by rewrite Hd in H.
Qed.

Lemma W1_in_log x : x ∈ W1.*1 -> in_log l x /\ x <> st.
Proof using G.
  unfold W1. rewrite log_writes_sectors. intros (t & Ht & ->).
  unfold l in Ht. rewrite length_lsecs in Ht by done.
  split; [by apply (log_block_bounds G)|unfold st; lia].
Qed.

Lemma take_W1 k x : x ∈ (take k W1).*1 -> in_log l x /\ x <> st.
Proof using G. intros Hx. apply W1_in_log. rewrite fmap_take in Hx. by eapply subseteq_take. Qed.

Lemma W3_sectors : W3.*1 = lsecs l.
Proof using. unfold W3. change (map ?f ?x) with (f <$> x). rewrite <- list_fmap_compose.
  apply list_fmap_id. Qed.

Lemma st_in_log : in_log l st.
Proof using G.
  pose proof (lo_n _ G). pose proof (lo_size _ G). unfold in_log, st, l in *. lia.
Qed.

(** Before the header is written: the old state, and an empty header. *)
Lemma crash_before k :
  (k <= length W1)%nat ->
  let D := vput (take k (commit_writes l V)) D0 in
  head_n (D st) = 0 /\ forall x, ~ in_log l x -> D x = D0 x.
Proof using R G Hd Hempty.
  intros Hk D. unfold D. rewrite commit_writes_eq, take_app_le by done. split.
  - rewrite vput_notin by (intros Hin; by apply take_W1 in Hin as [_ ?]).
    rewrite <- view_clean by (by apply start_not_home). exact Hempty.
  - intros x Hx. apply vput_notin. intros Hin. by apply take_W1 in Hin as [? _].
Qed.

Lemma head_ok : head_n head = lh_n l /\ head_secs head = lsecs l.
Proof using R G.
  apply head_roundtrip.
  - by eapply rep_length.
  - unfold l. rewrite length_lsecs by done. pose proof (lo_n _ G). lia.
  - apply (lo_n _ G).
  - apply Forall_forall. apply (lo_u32 _ G).
Qed.

(** After it, until the header is cleared: a committed header, the log
    blocks, and home sectors that are old or already installed. *)
Lemma crash_committed j :
  let D := vput (W1 ++ (st, head) :: take j W3) D0 in
  D st = head /\
  (forall t sec, lsecs l !! t = Some sec -> D (st + Z.of_nat t + 1) = V sec) /\
  (forall x, ~ in_log l x -> x ∉ lsecs l -> D x = V x).
Proof using R G Hd.
  intros D. unfold D. rewrite vput_app.
  assert (Hj : forall x, x ∈ (take j W3).*1 -> x ∈ lsecs l).
  { intros x Hx. rewrite fmap_take, W3_sectors in Hx. by eapply subseteq_take. }
  split; [|split].
  - rewrite vput_cons_notin; [by rewrite decide_True|].
    intros Hx. by apply Hj, start_not_home in Hx.
  - intros t sec Ht. rewrite vput_cons_notin.
    + rewrite decide_False by lia. unfold W1.
      rewrite (vput_in _ _ _ (V sec)); [done|apply log_writes_NoDup|].
      unfold log_writes. apply elem_of_lookup_imap. eauto.
    + intros Hx. apply Hj in Hx. destruct (lo_home _ G _ Hx) as [_ Hno]. apply Hno.
      apply (log_block_bounds G). apply lookup_lt_Some in Ht. unfold l in Ht.
      by rewrite length_lsecs in Ht.
  - intros x Hx Hx'. rewrite vput_cons_notin by auto. rewrite decide_False by (intros ->; by apply Hx, st_in_log).
    rewrite vput_notin by (intros Hin; by apply W1_in_log in Hin as [? _]).
    symmetry. by apply view_clean.
Qed.

(** Once everything is written: the new state, and an empty header. *)
Lemma crash_after :
  let D := vput (commit_writes l V) D0 in
  head_n (D st) = 0 /\ forall x, ~ in_log l x -> D x = V x.
Proof using R G Hd Hnd.
  intros D. unfold D. rewrite commit_writes_eq, app_comm_cons, app_assoc, vput_app. split.
  - simpl. rewrite decide_True by done. apply head_cleared. apply length_head_block.
    + by eapply rep_length.
    + unfold l. rewrite length_lsecs by done. pose proof (lo_n _ G). unfold LOGSIZE in *. lia.
  - intros x Hx. simpl. rewrite decide_False by (intros ->; by apply Hx, st_in_log).
    destruct (decide (x ∈ lsecs l)) as [Hin|Hin].
    + rewrite (cons_middle _ W1), app_assoc, vput_app.
      apply vput_in; [by rewrite W3_sectors|]. unfold W3.
      apply list_elem_of_fmap. by exists x.
    + pose proof (crash_committed (length W3)) as (_ & _ & Hc).
      rewrite firstn_all in Hc. by apply Hc.
Qed.

(** Every prefix of the writes is one of the three. *)
Lemma crash_cases k :
  let D := vput (take k (commit_writes l V)) D0 in
  ((k <= length (lsecs l))%nat /\ head_n (D st) = 0 /\ forall x, ~ in_log l x -> D x = D0 x) \/
  ((length (lsecs l) < k)%nat /\ head_n (D st) = 0 /\ forall x, ~ in_log l x -> D x = V x) \/
  ((length (lsecs l) < k)%nat /\ D st = head /\
   (forall t sec, lsecs l !! t = Some sec -> D (st + Z.of_nat t + 1) = V sec) /\
   (forall x, ~ in_log l x -> x ∉ lsecs l -> D x = V x)).
Proof using R G Hd Hnd Hempty.
  intros D. unfold D. assert (HW1 : length W1 = length (lsecs l)) by apply length_imap.
  destruct (decide (k <= length W1)%nat) as [Hk|Hk].
  - left. split; [lia|]. by apply crash_before.
  - right. destruct (decide (k <= length W1 + S (length W3))%nat) as [Hk2|Hk2].
    + right. split; [lia|].
      assert (take k (commit_writes l V) = W1 ++ (st, head) :: take (k - length W1 - 1) W3) as ->.
      { rewrite commit_writes_eq, take_app_ge by lia. f_equal.
        destruct (k - length W1)%nat as [|m] eqn:E; [lia|]. simpl. f_equal.
        rewrite take_app_le by lia. f_equal. lia. }
      apply crash_committed.
    + left. split; [lia|]. rewrite take_ge.
      2:{ rewrite commit_writes_eq, length_app. cbn [length]. rewrite length_app. simpl. lia. }
      apply crash_after.
Qed.

(** The header after a crash lists nothing, or exactly the transaction. *)
Lemma crash_head k :
  let d := vput (take k (commit_writes l V)) D0 st in
  (head_n d = 0 /\ head_secs d = []) \/ (head_n d = lh_n l /\ head_secs d = lsecs l).
Proof using R G Hd Hnd Hempty.
  assert (H0 : forall d, head_n d = 0 -> head_secs d = [])
    by (intros d E; unfold head_secs; by rewrite E).
  destruct (crash_cases k) as [(_ & E & _)|[(_ & E & _)|(_ & E & _)]]; cbv zeta; [auto..|].
  rewrite E. right. apply head_ok.
Qed.

(** Recovery gives the old state or the new one, decided by the header write. *)
Lemma recovered_commit k x :
  ~ in_log l x ->
  recovered st (vput (take k (commit_writes l V)) D0) x =
    if decide (k <= length (lsecs l))%nat then D0 x else V x.
Proof using R G Hd Hnd Hempty.
  intros Hx. assert (Hxst : x <> st) by (intros ->; by apply Hx, st_in_log).
  destruct (crash_cases k) as [(Hk & H0 & HD)|[(Hk & H0 & HD)|(Hk & Hst & Hlog & Hrest)]];
    unfold st in *.
  - rewrite decide_True by done. rewrite recovered_empty by done. by apply HD.
  - rewrite decide_False by lia. rewrite recovered_empty by done. by apply HD.
  - rewrite decide_False by lia. rewrite (recovered_committed l _ V (lsecs l)); try done.
    + case_decide; [done|]. by apply Hrest.
    + rewrite Hst. apply head_ok.
Qed.

(** A sector outside the log and the transaction keeps its content throughout. *)
Lemma crash_other k x :
  ~ in_log l x -> x ∉ lsecs l -> vput (take k (commit_writes l V)) D0 x = V x.
Proof using R G Hd Hnd Hempty.
  intros Hx Hs. destruct (crash_cases k) as [(_ & _ & HD)|[(_ & _ & HD)|(_ & _ & _ & HD)]].
  - rewrite HD by done. symmetry. by apply view_clean.
  - by apply HD.
  - by apply HD.
Qed.

End crash.

(** ** Booting after a crash *)

Lemma wp_readsb s a (Q : superblock -> fstate -> Prop) :
  rep s [] a -> bio_ok a -> 1 < a_size a -> (length (a_dirty a) < NBUF)%nat ->
  (forall s', rep s' [] a -> Q (decode_sb (a_view a 1)) s') ->
  wp (readsb 1) Q s.
Proof.
  intros R Hok Hsz Hc HQ. unfold readsb.
  apply wp_bind, (wp_bread R 1); [done|done|set_solver|right; simpl; lia|]. intros i s1 R1.
  apply wp_bind, (wp_get_data R1 i 1); [set_solver|].
  apply wp_bind, (wp_brelse R1 i 1 []); [set_solver|done| |set_solver|].
  - eapply rep_synced; [exact R|set_solver].
  - intros s2 R2. apply wp_ret. by apply HQ.
Qed.

(** A machine that has just started on disk [d]: an empty cache, no lock held. *)
Definition rebooted (d : gmap (Z * Z) (list Z)) (sz : Z) (r : fstate) : Prop :=
  binv r [] /\ (forall x, ~ is_dirty r x) /\ disk r = d /\ disksize r = sz /\
  held (fthr r) = [] /\ length (lh_sector (log r)) = Z.to_nat LOGSIZE.

Definition boot_ablk (r : fstate) : ablk :=
  mkA (dget (disk r) 1) [] (disk r) (writes r) (log r) (icache r) (disksize r) [].

Lemma rebooted_rep d sz r : rebooted d sz r -> rep r [] (boot_ablk r).
Proof.
  intros (Hinv & Hd & _ & _ & Hh & _). split; simpl; try done.
  - set_solver.
  - intros x. destruct (view_cases r x) as [(i & b & Hb & Hv & Hdev & Hs)|Hm]; [|by apply view_miss].
    rewrite (view_hit r x i b) by (done || apply Hinv).
    rewrite (bi_clean _ _ Hinv i b), Hs; try done; [|set_solver].
    destruct (b_dirty b) eqn:E; [|done]. destruct (Hd x). exists i, b. done.
  - intros x. specialize (Hd x). set_solver.
Qed.

(** The log area named by the superblock of disk [D]. *)
Definition sb_log (D : Z -> list Z) (start size : Z) : Prop :=
  s32 (sb_size (decode_sb (D 1)) - sb_nlog (decode_sb (D 1))) = start /\
  s32 (sb_nlog (decode_sb (D 1))) = size.

Lemma wp_initlog d sz r start size :
  rebooted d sz r -> let D := dget d 1 in
  sb_log D start size -> 1 < sz -> 0 <= start -> start + size <= sz ->
  0 <= head_n (D start) < LOGSIZE -> head_n (D start) < size ->
  (forall x, x ∈ head_secs (D start) ->
     0 <= x < 2 ^ 32 /\ x < sz /\ ~ (start <= x < start + size)) ->
  wp initlog (fun _ r' => disk r' = dput (recover_writes start D) d /\
                          writes r' = rev (recover_writes start D) ++ writes r /\
                          forall x, view r' x = recovered start D x) r.
Proof.
  intros B D [Hst Hsize] Hsz H0 H1 Hn1 Hn2 Hs. pose proof (rebooted_rep _ _ _ B) as R.
  destruct B as (Hinv & Hd & Hdisk & Hdsz & Hh & Hll). unfold LOGSIZE in *.
  assert (Hil : initlock LkLog r = Ok tt r).
  { change (thr r) with (fthr r). unfold initlock, modify. change (thr r) with (fthr r).
    rewrite <- (set_held_same r) at 3. by rewrite Hh. }
  unfold initlog. apply wp_bind, (wp_eq _ _ _ _ _ Hil).
  apply wp_bind. change ROOTDEV with 1.
  apply (wp_readsb _ _ _ R); [split; set_solver|by simpl; rewrite Hdsz|simpl; unfold NBUF; lia|].
  intros s1 R1. apply wp_bind, wp_bind, (wp_get_log [] _ R1).
  unfold put_log. apply wp_modify. simpl a_view. rewrite Hdisk. fold D. rewrite Hst, Hsize.
  apply (rep_set_log _ _ _ (mkLog start size (l_outstanding (log r)) (l_committing (log r)) 1
                              (lh_n (log r)) (lh_sector (log r)))) in R1.
  eapply wp_conseq; [apply (wp_recover _ _ R1); [done| |]|].
  - cbn [a_log a_set_log l_start a_view boot_ablk]. rewrite Hdisk. fold D.
    split; simpl; rewrite ?Hdsz; try done.
    + rewrite length_app, length_head_secs, length_drop. unfold LOGSIZE. lia.
    + intros x Hx. apply Hs. by rewrite lsecs_read_lh in Hx.
    + intros x Hx. apply Hs. by rewrite lsecs_read_lh in Hx.
    + split; set_solver.
  - simpl. rewrite Hdisk. fold D. lia.
  - intros [] r' (secs & R'). simpl a_log in R'. simpl l_start in R'. simpl a_view in R'.
    rewrite Hdisk in R'. fold D in R'. split; [|split].
    + rewrite (rp_disk _ _ _ R'). simpl. by rewrite Hdisk.
    + by rewrite (rp_writes _ _ _ R').
    + intros x. rewrite (rp_view _ _ _ R'). simpl. rewrite Hdisk. done.
Qed.

(** ** The claims *)

(** C1: A commit is atomic.  If the log holds a transaction, [commit]
    succeeds, and if the machine stops after any number [k] of its sector
    writes and boots again with [initlog], every sector outside the log area
    has the content it had on the disk before the commit when the header was
    not yet written ([k] at most the number of logged blocks), and otherwise
    the content the transaction gave it: never a mixture of the two. *)
Theorem commit_crash_atomic s a :
  rep s [] a -> log_ok a -> a_dirty a = lsecs (a_log a) -> NoDup (lsecs (a_log a)) ->
  0 < lh_n (log s) -> head_n (view s (l_start (log s))) = 0 ->
  sb_log (view s) (l_start (log s)) (l_size (log s)) ->
  1 < disksize s -> ~ in_log (log s) 1 -> 1 ∉ lsecs (log s) ->
  exists s' W, commit s = Ok tt s' /\ writes s' = rev W ++ writes s /\
    forall k r, rebooted (dput (take k W) (disk s)) (disksize s) r ->
      wp initlog (fun _ r' => forall x, ~ in_log (log s) x ->
        dget (disk r') 1 x =
          if decide (k <= length (lsecs (log s)))%nat then dget (disk s) 1 x else view s x) r.
Proof.
  intros R G Hd Hnd Hpos Hempty Hsb Hsz Hlog1 Hsec1.
  rewrite (rp_log _ _ _ R) in *. rewrite (rp_size _ _ _ R) in *. rewrite (rp_disk _ _ _ R) in *.
  rewrite (rp_view _ _ _ R) in Hempty.
  pose proof (wp_commit _ _ R G Hd Hnd Hpos) as Hc. apply wp_iff in Hc as ([] & s' & Hrun & R').
  exists s', (commit_writes (a_log a) (a_view a)). split; [done|]. split.
  { rewrite (rp_writes _ _ _ R'), (rp_writes _ _ _ R). done. }
  intros k r B. set (D := vput (take k (commit_writes (a_log a) (a_view a))) (dget (a_disk a) 1)).
  set (dk := dput (take k (commit_writes (a_log a) (a_view a))) (a_disk a)) in *.
  assert (HD : forall x, dget dk 1 x = D x) by (intros; apply dget_dput).
  pose proof (lo_n _ G) as Hn. pose proof (lo_size _ G) as Hn'.
  assert (Hhead : (0 <= head_n (D (l_start (a_log a))) <= lh_n (a_log a)) /\
    forall x, x ∈ head_secs (D (l_start (a_log a))) -> x ∈ lsecs (a_log a)).
  { unfold D. destruct (crash_head R G Hd Hnd Hempty k) as [[-> ->]|[-> ->]];
      (split; [lia|set_solver]). }
  destruct Hhead as [Hh1 Hh2].
  eapply wp_conseq; [apply (wp_initlog dk _ r (l_start (a_log a)) (l_size (a_log a)) B)|].
  - unfold sb_log in *. rewrite (HD 1). unfold D. rewrite (crash_other R G) by done.
    by rewrite <- (rp_view _ _ _ R).
  - done.
  - apply G.
  - apply G.
  - rewrite HD. lia.
  - rewrite HD. lia.
  - intros x Hx. rewrite HD in Hx. apply Hh2 in Hx. split; [by apply (lo_u32 _ G)|].
    by apply (lo_home _ G).
  - intros [] r' [Hdisk _] x Hx. rewrite Hdisk, dget_dput. fold dk. fold (recovered (l_start (a_log a)) (dget dk 1) x).
    rewrite (recovered_ext _ _ D) by done. unfold D. rewrite (rp_view _ _ _ R).
    by rewrite (recovered_commit R G Hd Hnd Hempty).
Qed.

(** Recovery interrupted after [j] of its own writes and started again. *)
Lemma recovered_again l D j x :
  (forall y, y ∈ head_secs (D (l_start l)) -> ~ in_log l y) ->
  0 <= head_n (D (l_start l)) < l_size l -> length (D (l_start l)) = BSIZE ->
  x <> l_start l ->
  recovered (l_start l) (vput (take j (recover_writes (l_start l) D)) D) x =
    recovered (l_start l) D x.
Proof.
  intros Hh Hn Hlen Hx. set (st := l_start l) in *. set (secs := head_secs (D st)) in *.
  assert (Hst : st ∉ secs).
  { intros Hin. apply (Hh _ Hin). unfold in_log. fold st. lia. }
  set (Wh := home_writes st secs D).
  assert (HWh : length Wh = length secs) by apply length_imap.
  destruct (decide (j <= length secs)%nat) as [Hj|Hj].
  - assert (take j (recover_writes st D) = take j Wh) as ->.
    { unfold recover_writes. fold secs Wh. by rewrite take_app_le by lia. }
    assert (Hin : forall y, y ∈ (take j Wh).*1 -> y ∈ secs).
    { intros y Hy. rewrite fmap_take in Hy. unfold Wh in Hy. rewrite home_writes_sectors in Hy.
      by eapply subseteq_take. }
    set (D' := vput (take j Wh) D).
    assert (Hst' : D' st = D st) by (apply vput_notin; auto).
    assert (recover_writes st D' = recover_writes st D) as Hrw.
    { unfold recover_writes. rewrite Hst'. f_equal. fold secs. unfold home_writes.
      apply imap_ext. intros t y Ht. f_equal. apply vput_notin. intros Hy.
      apply Hin, Hh in Hy. apply Hy. apply lookup_lt_Some in Ht. unfold secs in Ht.
      rewrite length_head_secs in Ht. unfold in_log. fold st. lia. }
    unfold recovered. rewrite Hrw. apply vput_ext. intros Hnot. apply vput_notin.
    intros Hy. apply Hnot. apply Hin in Hy. unfold recover_writes.
    rewrite fmap_app, elem_of_app. left. by rewrite home_writes_sectors.
  - rewrite take_ge by (unfold recover_writes; fold st secs Wh; rewrite length_app; simpl; lia).
    unfold st. rewrite recovered_empty; [done| |done]. fold st.
    unfold recover_writes. rewrite vput_app. simpl. rewrite decide_True by done.
    by apply head_cleared.
Qed.

(** The header on a disk whose recovery stopped after [j] writes: as it was,
    or cleared. *)
Lemma recover_crash_head start D j :
  length (D start) = BSIZE -> start ∉ head_secs (D start) ->
  let d := vput (take j (recover_writes start D)) D start in
  (head_n d = head_n (D start) /\ head_secs d = head_secs (D start)) \/
  (head_n d = 0 /\ head_secs d = []).
Proof.
  intros Hlen Hst. cbv zeta.
  assert (Hi : start ∉ (take j (home_writes start (head_secs (D start)) D)).*1).
  { rewrite fmap_take, home_writes_sectors. intros Hi. by apply subseteq_take in Hi. }
  unfold recover_writes. rewrite take_app, vput_app. destruct (j - _)%nat as [|m].
  - left. simpl. by rewrite vput_notin.
  - right. simpl. destruct m; simpl; rewrite decide_True by done;
      assert (E : head_n (put_word (D start) 0 0) = 0) by (by apply head_cleared);
      (split; [done|]); unfold head_secs; by rewrite E.
Qed.

(** C10: Recovery may itself be interrupted.  Booting from a disk whose
    header lists valid home sectors makes a certain sequence [W] of sector
    writes, the one recorded in the order they are made; stopping after any
    [j] of them and booting again leaves every sector outside the log area
    as the uninterrupted recovery does. *)
Theorem recovery_restartable d sz r start size :
  rebooted d sz r -> sb_log (dget d 1) start size -> 1 < sz -> 1 < start -> start + size <= sz ->
  0 <= head_n (dget d 1 start) < LOGSIZE -> head_n (dget d 1 start) < size ->
  (forall x, x ∈ head_secs (dget d 1 start) ->
     1 < x < 2 ^ 32 /\ x < sz /\ ~ (start <= x < start + size)) ->
  exists r' W, initlog r = Ok tt r' /\ writes r' = rev W ++ writes r /\ disk r' = dput W d /\
    forall j r2, rebooted (dput (take j W) d) sz r2 ->
      wp initlog (fun _ r2' => forall x, ~ (start <= x < start + size) ->
        dget (disk r2') 1 x = dget (disk r') 1 x) r2.
Proof.
  intros B Hsb Hsz Hst Hend Hn Hn' Hs.
  set (D := dget d 1) in *. set (l := mkLog start size 0 false 1 0 []).
  pose proof (wp_initlog d sz r start size B Hsb Hsz ltac:(lia) Hend Hn Hn') as Hrun.
  apply wp_iff in Hrun as ([] & r' & Hrun & Hdisk & Hw & _).
  2:{ intros x Hx. apply Hs in Hx. lia. }
  fold D in Hdisk, Hw. exists r', (recover_writes start D). do 3 (split; [done|]).
  intros j r2 B2. assert (Hlen : length (D start) = BSIZE).
  { destruct B as (Hinv & _ & <- & _). apply (bi_disk _ _ Hinv). }
  set (dj := dput (take j (recover_writes start D)) d) in *.
  assert (HDj : forall x, dget dj 1 x = vput (take j (recover_writes start D)) D x)
    by (intros; apply dget_dput).
  assert (Hhead : _ \/ _) by (apply (recover_crash_head start D j Hlen); intros Hi; apply Hs in Hi; lia).
  rewrite <- HDj in Hhead.
  eapply wp_conseq; [apply (wp_initlog dj sz r2 start size B2)|]; try done; try lia.
  - unfold sb_log in *. rewrite (HDj 1). rewrite vput_notin; [done|].
    rewrite fmap_take. intros Hx. apply subseteq_take in Hx. unfold recover_writes in Hx.
    rewrite fmap_app, home_writes_sectors, elem_of_app in Hx.
    destruct Hx as [Hx|Hx]; [apply Hs in Hx; lia|]. apply list_elem_of_singleton in Hx. simpl in Hx. lia.
  - destruct Hhead as [[_ ->]|[_ ->]]; [|set_solver]. intros x Hx. apply Hs in Hx. lia.
  - intros [] r2' [Hdisk2 _] x Hx. rewrite Hdisk2, Hdisk, !dget_dput.
    fold (recovered start (dget dj 1) x). fold D. fold (recovered start D x).
    rewrite (recovered_ext _ _ (vput (take j (recover_writes start D)) D)) by done.
    apply (recovered_again l D j x); simpl; try done; try lia.
    intros y Hy. apply Hs in Hy. unfold in_log. simpl. tauto.
Qed.
