(* ===== verification/Txn.v ===== *)
(** * Transactions: begin_op, log_write and end_op

    The interface of log.c to the file system: what a system call may do
    between [begin_op] and [end_op], and what it can rely on afterwards. *)

From S2P Require Import Prelude Monad Locks FsState FsLayout Bio BlockSpec Log LogSpec.

Open Scope Z_scope.
Open Scope kernel_scope.

(** The header after recording sector [sec]. *)
Definition logged (sec : Z) (l : logst) : logst :=
  if decide (sec ∈ lsecs l) then l
  else with_lh (lh_n l + 1) (<[Z.to_nat (lh_n l) := sec]> (lh_sector l)) l.

Definition a_logged (sec : Z) (a : ablk) : ablk :=
  mkA (a_view a) (lsecs (logged sec (a_log a))) (a_disk a) (a_writes a)
      (logged sec (a_log a)) (a_icache a) (a_size a) (a_held a).

(** The state of the log during a transaction. *)
Record log_inv (a : ablk) : Prop := mkLogInv {
  li_ok : log_ok a;
  li_dirty : a_dirty a = lsecs (a_log a);
  li_nodup : NoDup (lsecs (a_log a))
}.

(** Room for [k] more blocks. *)
Definition room (k : Z) (a : ablk) : Prop :=
  lh_n (a_log a) + k < LOGSIZE /\ lh_n (a_log a) + k < l_size (a_log a).

(** A sector the file system may change: on the disk, outside the log. *)
Definition home (a : ablk) (sec : Z) : Prop :=
  0 <= sec < 2 ^ 32 /\ sec < a_size a /\ ~ in_log (a_log a) sec.

Lemma lsecs_logged sec a :
  log_ok a -> lsecs (logged sec (a_log a)) =
    if decide (sec ∈ lsecs (a_log a)) then lsecs (a_log a) else lsecs (a_log a) ++ [sec].
Proof.
  intros G. unfold logged. destruct (decide _) as [|Hn]; [done|].
  pose proof (lo_n _ G) as Hb. pose proof (lo_len _ G) as Hl. unfold LOGSIZE in *.
  unfold lsecs. simpl. replace (Z.to_nat (lh_n (a_log a) + 1)) with (S (Z.to_nat (lh_n (a_log a)))) by lia.
  rewrite (take_S_r _ _ sec) by (apply list_lookup_insert_eq; lia).
  by rewrite take_insert_ge by lia.
Qed.

Lemma logged_geometry sec l :
  l_start (logged sec l) = l_start l /\ l_size (logged sec l) = l_size l /\
  l_dev (logged sec l) = l_dev l /\ l_outstanding (logged sec l) = l_outstanding l /\
  l_committing (logged sec l) = l_committing l /\
  length (lh_sector (logged sec l)) = length (lh_sector l) /\
  lh_n l <= lh_n (logged sec l) <= lh_n l + 1.
Proof.
  unfold logged. destruct (decide _); simpl; rewrite ?length_insert; repeat split; lia.
Qed.

Lemma log_inv_logged sec a :
  log_inv a -> room 1 a -> home a sec -> log_inv (a_logged sec a).
Proof.
  intros [G Hd Hnd] [Hr1 Hr2] (H1 & H2 & H3).
  destruct (logged_geometry sec (a_log a)) as (E1 & E2 & E3 & _ & _ & E5 & E6).
  pose proof (lsecs_logged sec a G) as Hl. pose proof (lo_n _ G).
  assert (Hin : forall x, x ∈ lsecs (logged sec (a_log a)) -> x = sec \/ x ∈ lsecs (a_log a)).
  { intros x. rewrite Hl. destruct (decide _); set_solver. }
  split; [split|..]; simpl; try done.
  - rewrite E3. apply G.
  - rewrite E5. apply G.
  - lia.
  - lia.
  - rewrite E1. apply G.
  - rewrite E1, E2. apply G.
  - intros x Hx. unfold in_log. rewrite E1, E2. apply Hin in Hx as [->|Hx]; [done|].
    by apply (lo_home _ G).
  - intros x Hx. apply Hin in Hx as [->|Hx]; [done|]. by apply (lo_u32 _ G).
  - apply (lo_bio _ G).
  - rewrite Hl. destruct (decide _); [done|]. apply NoDup_app. split; [done|].
    split; [set_solver|]. apply NoDup_singleton.
Qed.

Lemma room_logged k sec a : room (k + 1) a -> room k (a_logged sec a).
Proof.
  intros [H1 H2]. destruct (logged_geometry sec (a_log a)) as (_ & E2 & _ & _ & _ & _ & E6).
  unfold room. simpl. rewrite E2. lia.
Qed.

(** Marking a held buffer dirty pins its sector. *)
Lemma rep_pin s H a i sec d data :
  rep s H a -> (i, sec) ∈ H -> bufs s !! i = Some (loaded d sec data) ->
  sec < a_size a ->
  rep (set_buf i (loaded true sec data) s) H (a_pin sec a).
Proof.
  intros R Hi Hb Hsz. pose proof (rp_inv _ _ _ R) as Hinv.
  assert (Hlt : (i < NBUF)%nat) by (by eapply buf_lt).
  assert (Hlt' : (i < length (bufs s))%nat) by (by rewrite (bi_len _ _ Hinv)).
  assert (HiK : i ∈ H.*1) by (apply list_elem_of_fmap; by exists (i, sec)).
  assert (Hdata : data = a_view a sec).
  { destruct (rp_hold _ _ _ R _ _ Hi) as [d' Hd']. rewrite Hb in Hd'. by injection Hd'. }
  split; try apply R.
  - apply (binv_set_buf s (H.*1)); try done.
    + by apply (bi_data _ _ Hinv i _ Hb).
    + eapply uniq_upd; [apply Hinv|exact Hb|done..].
    + intros _. simpl. by rewrite (rp_size _ _ _ R).
  - intros j x Hj. simpl. destruct (decide (j = i)) as [->|Hji].
    + assert (x = sec) as -> by (by eapply hold_index). exists true.
      rewrite <- Hdata. by apply list_lookup_insert_eq.
    + destruct (rp_hold _ _ _ R _ _ Hj) as [d' Hd']. exists d'.
      by rewrite list_lookup_insert_ne.
  - intros x. simpl. rewrite <- (rp_view _ _ _ R). unfold set_buf.
    rewrite (view_upd s i (loaded d sec data)) by (done || apply Hinv). simpl.
    destruct (Z.eqb_spec sec x) as [->|]; [|done].
    by rewrite (view_hit s x i (loaded d x data)) by (done || apply Hinv).
  - intros x. simpl. rewrite elem_of_cons, <- (rp_dirty _ _ _ R). unfold is_dirty. simpl.
    setoid_rewrite lookup_upd; [|done]. split.
    + intros (j & b & [[-> ->]|[Hne Hj]] & Hdj & Hsj); [left; done|right; eauto].
    + intros [->|(j & b & Hj & Hdj & Hsj)]; [exists i, (loaded true sec data); naive_solver|].
      destruct (decide (j = i)) as [->|]; [|exists j, b; naive_solver].
      exists i, (loaded true sec data). rewrite Hb in Hj. injection Hj as <-. naive_solver.
Qed.

(** The slot log_write chooses. *)
Lemma log_write_slot sec l :
  (Z.to_nat (lh_n l) <= length (lh_sector l))%nat ->
  let k := default (Z.to_nat (lh_n l)) (find_idx (fun x => x =? sec) (lsecs l)) in
  with_lh (if (k =? Z.to_nat (lh_n l))%nat then lh_n l + 1 else lh_n l)
          (<[k := sec]> (lh_sector l)) l = logged sec l.
Proof.
  intros Hlen k. unfold logged, k.
  destruct (find_idx (fun x => x =? sec) (lsecs l)) as [t|] eqn:E; simpl.
  - pose proof (find_idx_lt _ _ _ E) as Ht. apply find_idx_Some in E as (x & Hx & E & _).
    unfold lsecs in Ht. rewrite length_take in Ht.
    assert (x = sec) as -> by lia. rewrite decide_True by (by eapply list_elem_of_lookup_2).
    zif; [lia|]. unfold lsecs in Hx. rewrite lookup_take_lt in Hx by lia.
    rewrite list_insert_id by done. by destruct l.
  - rewrite decide_False; [by rewrite Nat.eqb_refl|].
    apply find_idx_None in E. intros Hin. eapply Forall_forall in E; [|exact Hin]. lia.
Qed.

Lemma wp_log_write s H a i sec (Q : unit -> fstate -> Prop) :
  rep s H a -> (i, sec) ∈ H -> log_inv a -> room 1 a -> sec < a_size a ->
  1 <= l_outstanding (a_log a) ->
  (forall s', rep s' H (a_logged sec a) -> Q tt s') ->
  wp (log_write i) Q s.
Proof.
  intros R Hi I [Hr1 Hr2] Hsz Hout HQ. pose proof (li_ok _ I) as G.
  pose proof (lo_n _ G) as Hn. pose proof (lo_len _ G) as Hlen. unfold LOGSIZE in *.
  destruct (rp_hold _ _ _ R _ _ Hi) as [d Hb].
  unfold log_write. apply wp_bind, (wp_get_log _ _ R).
  apply wp_bind. eapply wp_eq; [unfold get_buf; by rewrite Hb|]. unfold LOGSIZE.
  zif; [lia|]. zif; [lia|]. cbv zeta. cbn [b_sector loaded].
  fold (lsecs (a_log a)).
  set (k := default (Z.to_nat (lh_n (a_log a))) (find_idx (fun x => x =? sec) (lsecs (a_log a)))).
  assert (Hk : (k < length (lh_sector (a_log a)))%nat).
  { unfold k. destruct (find_idx _ _) as [t|] eqn:Ef; simpl; [|lia].
    apply find_idx_lt in Ef. rewrite length_lsecs in Ef by done. lia. }
  unfold lh_set. apply wp_bind. zif; [|lia]. apply wp_ret. cbn [lh_sector with_lh].
  apply wp_bind. unfold put_log. apply wp_modify. unfold put_buf. apply wp_modify.
  change (with_lh ?n ?v (with_lh _ _ (a_log a))) with (with_lh n v (a_log a)).
  unfold k. rewrite log_write_slot by lia. apply HQ.
  change (with_dirty true (loaded d sec (a_view a sec))) with (loaded true sec (a_view a sec)).
  change (set_bufs _ _) with (set_buf i (loaded true sec (a_view a sec)) (set_log (logged sec (a_log a)) s)).
  assert (Heq : a_logged sec a ≡ a_pin sec (a_set_log (logged sec (a_log a)) a)).
  { split; [done|]. split; [|done]. intros x. simpl. rewrite lsecs_logged by done.
    rewrite (li_dirty _ I). destruct (decide _); set_solver. }
  rewrite Heq. eapply rep_pin; [by apply rep_set_log|done|exact Hb|exact Hsz].
Qed.

(** The abstract effect of a logged update of one block. *)
Definition a_update (sec : Z) (d : list Z) (a : ablk) : ablk := a_logged sec (a_set_view sec d a).

Lemma log_inv_set_view sec d a : log_inv a -> log_inv (a_set_view sec d a).
Proof. intros [[] ? ?]. by split; [split|..]. Qed.

Lemma synced_logged sec a : log_ok a -> synced (a_logged sec a) sec.
Proof.
  intros G. left. simpl. rewrite lsecs_logged by done. destruct (decide _); set_solver.
Qed.

(** The tail of every block update of the file system. *)
Lemma wp_log_and_release s a i sec H (Q : unit -> fstate -> Prop) :
  rep s ((i, sec) :: H) a -> (i, sec) ∉ H -> log_inv a -> room 1 a -> sec < a_size a ->
  1 <= l_outstanding (a_log a) ->
  (forall s', rep s' H (a_logged sec a) -> Q tt s') ->
  wp (log_write i ;; brelse i) Q s.
Proof.
  intros R Hni I Hr Hh Ho HQ.
  apply wp_bind, (wp_log_write _ _ _ i sec _ R); try done; [set_solver|]. intros s1 R1.
  apply (wp_brelse R1 i sec H); [set_solver|apply (lo_bio _ (li_ok _ I))| | |done].
  - apply synced_logged, I.
  - intros p. rewrite elem_of_cons. split; [|naive_solver]. intros Hp. split; [by right|].
    intros ->. done.
Qed.

(** ** Budgets

    [fits T k a]: the sectors [T] can be logged, and [k] more.  Logging a
    sector twice costs nothing, so [T] can be named once for a whole
    operation. *)
Definition fits (T : list Z) (k : nat) (a : ablk) : Prop :=
  exists L, lsecs (a_log a) ⊆ L /\ T ⊆ L /\
    Z.of_nat (length L + k) + 2 < LOGSIZE /\ Z.of_nat (length L + k) + 2 < l_size (a_log a).

Lemma fits_room T k a : fits T k a -> log_inv a -> room 2 a.
Proof.
  intros (L & H1 & _ & H3 & H4) I. pose proof (length_lsecs a (li_ok _ I)) as Hl.
  pose proof (lo_n _ (li_ok _ I)).
  assert (length (lsecs (a_log a)) <= length L)%nat
    by (apply submseteq_length, NoDup_submseteq; [apply I|exact H1]).
  unfold room. lia.
Qed.

Lemma room_le k k' a : room k a -> k' <= k -> room k' a.
Proof. unfold room. lia. Qed.

Lemma fits_logged T k sec a : fits T k a -> log_ok a -> sec ∈ T -> fits T k (a_logged sec a).
Proof.
  intros (L & H1 & H2 & H3 & H4) G Hs.
  destruct (logged_geometry sec (a_log a)) as (_ & E2 & _). exists L. simpl. rewrite E2.
  split; [|done]. rewrite lsecs_logged by done. destruct (decide _); set_solver.
Qed.

(** One of the [k] sectors is named. *)
Lemma fits_add T k sec a : fits T (S k) a -> fits (sec :: T) k a.
Proof.
  intros (L & H1 & H2 & H3 & H4). exists (sec :: L). simpl.
  split; [set_solver|]. split; [set_solver|]. lia.
Qed.

Lemma fits_weaken T T' k k' a : fits T k a -> T' ⊆ T -> (k' <= k)%nat -> fits T' k' a.
Proof. intros (L & H1 & H2 & H3 & H4) HT Hk. exists L. split; [done|]. split; [set_solver|]. lia. Qed.

(** What holds throughout a transaction. *)
Record txn (a : ablk) : Prop := mkTxn {
  tx_inv : log_inv a;
  tx_out : 1 <= l_outstanding (a_log a)
}.

Lemma txn_update sec d a : txn a -> room 1 a -> home a sec -> txn (a_update sec d a).
Proof.
  intros [I Ho] Hr Hh. split.
  - apply log_inv_logged; [by apply log_inv_set_view|done|done].
  - simpl. destruct (logged_geometry sec (a_log a)) as (_ & _ & _ & -> & _). done.
Qed.

Lemma fits_update T k sec d a :
  fits T k a -> log_ok a -> sec ∈ T -> fits T k (a_update sec d a).
Proof. intros F G Hs. apply fits_logged; [exact F| |done]. by destruct G. Qed.

Lemma home_update sec d a x : home (a_update sec d a) x <-> home a x.
Proof.
  unfold home, in_log. simpl. destruct (logged_geometry sec (a_log a)) as (-> & -> & _). done.
Qed.

(** Read, change and log a block. *)
Lemma wp_update s H a sec f T k (Q : unit -> fstate -> Prop) :
  rep s H a -> txn a -> fits T k a -> sec < a_size a -> sec ∉ H.*2 ->
  (length H <= 2)%nat -> length (f (a_view a sec)) = BSIZE ->
  (forall s', rep s' H (a_update sec (f (a_view a sec)) a) -> Q tt s') ->
  wp (do bp <- bread 1 sec; do d <- get_data bp; set_data bp (f d) ;; log_write bp ;; brelse bp) Q s.
Proof.
  intros R [I Ho] F Hs Hn HH Hlen HQ. pose proof (li_ok _ I) as G.
  pose proof (fits_room _ _ _ F I) as Hr.
  apply wp_bind, (wp_bread R sec); [apply G|done|done| |].
  { right. rewrite (li_dirty _ I), length_lsecs by done. pose proof (lo_n _ G).
    unfold room, LOGSIZE, NBUF in *. lia. }
  intros i s1 R1. apply wp_bind, (wp_get_data R1 i sec); [set_solver|].
  apply wp_bind, (wp_set_data R1 i sec); [set_solver|done|]. intros s2 R2.
  eapply wp_log_and_release; [exact R2| |by apply log_inv_set_view|by eapply room_le|done..].
  intros Hin. apply Hn, list_elem_of_fmap. by exists (i, sec).
Qed.

(** ** Claims *)

(** The outcome of [begin_op]. *)
Lemma begin_op_run s :
  LkLog ∉ held (fthr s) ->
  let l := log s in
  begin_op s =
    if l_committing l || (LOGSIZE <? lh_n l + (l_outstanding l + 1) * MAXOPBLOCKS)
    then sleep ChLog LkLog (set_held (LkLog :: held (fthr s)) s)
    else Ok tt (set_log (with_outstanding (l_outstanding l + 1) l) s).
Proof.
  intros Hl l. unfold begin_op. erewrite bind_Ok by (by apply acquire_ok).
  erewrite (bind_Ok get_log) by reflexivity. change (log (set_held _ s)) with l.
  destruct (l_committing l); [done|]. simpl orb. zif; [done|].
  unfold put_log, bind, modify. erewrite release_top by reflexivity.
  by destruct s as [? ? ? ? ? ? ? [? ?]].
Qed.

(** [begin_op] admits a call exactly when no commit is running and the
    blocks already logged plus MAXOPBLOCKS for every call in progress,
    this one included, fit in the log; the call is then counted, and
    otherwise the thread sleeps on the log with its lock released.  *)
Theorem begin_op_admission s :
  held (fthr s) = [] ->
  (exists s', begin_op s = Ok tt s' /\ l_committing (log s) = false /\
     l_outstanding (log s') = l_outstanding (log s) + 1 /\
     lh_n (log s') + l_outstanding (log s') * MAXOPBLOCKS <= LOGSIZE /\
     held (fthr s') = [] /\ bufs s' = bufs s /\ disk s' = disk s) \/
  (exists s', begin_op s = Sleeps ChLog s' /\ log s' = log s /\ held (fthr s') = [] /\
     (l_committing (log s) = true \/
      LOGSIZE < lh_n (log s) + (l_outstanding (log s) + 1) * MAXOPBLOCKS)).
Proof.
  intros Hh. rewrite begin_op_run by (rewrite Hh; set_solver).
  destruct (_ || _) eqn:E.
  - right. rewrite Hh. rewrite sleep_ok by done. eexists. split; [done|]. split; [done|].
    split; [done|]. apply orb_true_iff in E as [E|E]; [by left|right; lia].
  - left. apply orb_false_iff in E as [E1 E2]. eexists. split; [done|]. split; [done|].
    simpl. split; [done|]. split; [lia|]. done.
Qed.

Lemma wp_put_log l s H a (Q : unit -> fstate -> Prop) :
  rep s H a -> (forall s', rep s' H (a_set_log l a) -> Q tt s') -> wp (put_log l) Q s.
Proof. intros R HQ. unfold put_log. apply wp_modify, HQ. by apply rep_set_log. Qed.

(** The abstract state after [end_op]. *)
Definition a_end_op (a : ablk) : ablk :=
  let l := with_outstanding (l_outstanding (a_log a) - 1) (a_log a) in
  if l_outstanding l =? 0 then
    if 0 <? lh_n l then
      a_set_log (with_lh 0 (lh_sector l) l) (a_put (commit_writes (a_log a) (a_view a)) a)
    else a_set_log l a
  else a_set_log l a.

Lemma wp_end_op s a :
  rep s [] a -> a_held a = [] -> log_inv a -> l_committing (a_log a) = false ->
  wp end_op (fun _ s' => rep s' [] (a_end_op a)) s.
Proof.
  intros R Hh I Hc. unfold end_op, a_end_op.
  set (l1 := with_outstanding (l_outstanding (a_log a) - 1) (a_log a)).
  apply wp_bind, (wp_acquire _ _ _ _ _ R); [rewrite Hh; set_solver|]. intros s1 R1.
  apply wp_bind, wp_bind, (wp_get_log _ _ R1), (wp_put_log _ _ _ _ _ R1). intros s2 R2.
  apply wp_bind, (wp_get_log _ _ R2). cbn [a_log a_set_log a_set_held]. fold l1.
  change (l_committing l1) with (l_committing (a_log a)). rewrite Hc.
  destruct (l_outstanding l1 =? 0) eqn:E.
  - apply wp_bind, wp_bind, (wp_put_log _ _ _ _ _ R2). intros s3 R3. apply wp_ret.
    apply wp_bind, (wp_release LkLog [] _ _ _ _ R3); [simpl; by rewrite Hh|]. intros s4 R4.
    set (l2 := with_committing true l1) in *. rewrite <- Hh in R4.
    change (rep s4 [] (a_set_log l2 (a_set_held (a_held a) a))) in R4.
    rewrite a_set_held_same in R4.
    assert (G1 : log_ok (a_set_log l2 a)) by (destruct (li_ok _ I); by split).
    apply wp_bind. eapply (wp_conseq _ (fun _ s' => rep s' [] (a_set_log (with_committing true
      (a_log (if 0 <? lh_n l1 then a_set_log (with_lh 0 (lh_sector l1) l1) a else a_set_log l1 a)))
      (if 0 <? lh_n l1 then a_put (commit_writes (a_log a) (a_view a)) a else a)))).
    { destruct (0 <? lh_n l1) eqn:En.
      - eapply wp_conseq; [apply (wp_commit _ _ R4 G1 (li_dirty _ I) (li_nodup _ I))|].
        + by apply Z.ltb_lt in En.
        + intros [] s5 R5. exact R5.
      - unfold commit. apply wp_bind, (wp_get_log _ _ R4).
        change (lh_n (a_log (a_set_log l2 a))) with (lh_n l1). rewrite En. by apply wp_ret. }
    intros [] s5 R5. apply wp_bind, (wp_acquire _ _ _ _ _ R5).
    { destruct (0 <? lh_n l1); simpl; rewrite Hh; set_solver. }
    intros s6 R6.
    apply wp_bind, wp_bind, (wp_get_log _ _ R6), (wp_put_log _ _ _ _ _ R6). intros s7 R7.
    apply wp_bind, (wp_wakeup _ _ _ _ _ R7).
    { destruct (0 <? lh_n l1); simpl; rewrite Hh; set_solver. }
    intros s8 R8. apply (wp_release LkLog [] _ _ _ _ R8).
    { destruct (0 <? lh_n l1); simpl; by rewrite Hh. }
    intros s9 R9. destruct a as [? ? ? ? la ? ? ?], la. simpl in *. subst.
    destruct (0 <? _); exact R9.
  - apply wp_bind, wp_bind, (wp_wakeup _ _ _ _ _ R2); [simpl; rewrite Hh; set_solver|].
    intros s3 R3. apply wp_ret.
    apply wp_bind, (wp_release LkLog [] _ _ _ _ R3); [simpl; by rewrite Hh|]. intros s4 R4.
    apply wp_ret. destruct a. simpl in *. by subst.
Qed.

(** C14: When the last call of a transaction ends, [end_op] commits it: it
    succeeds, every sector outside the log area is on the disk with the
    content the calls gave it, reads are unchanged, and the log is empty and
    unlocked with no buffer left pinned. *)
Theorem end_op_durable s a :
  rep s [] a -> held (fthr s) = [] -> log_inv a -> l_committing (log s) = false ->
  l_outstanding (log s) = 1 -> 0 < lh_n (log s) ->
  exists s', end_op s = Ok tt s' /\ held (fthr s') = [] /\
    (forall x, ~ in_log (log s) x -> dget (disk s') 1 x = view s x /\ view s' x = view s x) /\
    lh_n (log s') = 0 /\ l_outstanding (log s') = 0 /\ l_committing (log s') = false /\
    head_n (dget (disk s') 1 (l_start (log s))) = 0 /\ forall x, ~ is_dirty s' x.
Proof.
  intros R Hh I Hc Ho Hn. rewrite (rp_held _ _ _ R) in Hh. rewrite (rp_log _ _ _ R) in *.
  pose proof (wp_end_op s a R Hh I Hc) as Hrun. apply wp_iff in Hrun as ([] & s' & Hrun & R').
  unfold a_end_op in R'. rewrite Ho in R'. simpl in R'.
  destruct (0 <? lh_n (a_log a)) eqn:E; [|lia].
  pose proof (crash_after R (li_ok _ I) (li_dirty _ I) (li_nodup _ I)) as [Hhead Hnew].
  exists s'. split; [done|]. split; [by rewrite (rp_held _ _ _ R')|]. split.
  - intros x Hx. rewrite (rp_disk _ _ _ R'), !(rp_view _ _ _ R'), !(rp_view _ _ _ R). simpl.
    rewrite dget_dput. split; [by apply Hnew|]. rewrite <- (Hnew x Hx). apply vput_ext.
    intros Hw. apply (view_clean R (li_dirty _ I)). intros Hin. apply Hw.
    unfold commit_writes. rewrite !fmap_app, !elem_of_app. right. right. left.
    apply list_elem_of_fmap. exists (x, a_view a x). split; [done|].
    apply list_elem_of_fmap. eauto.
  - rewrite (rp_log _ _ _ R'), (rp_disk _ _ _ R'). simpl. rewrite dget_dput.
    repeat split; try done. intros x Hx. apply (rp_dirty _ _ _ R') in Hx. simpl in Hx.
    apply list_elem_of_filter in Hx as [Hx1 Hx2]. apply Hx1. rewrite (li_dirty _ I) in Hx2.
    unfold commit_writes. rewrite !fmap_app, !elem_of_app. right. right. left.
    apply list_elem_of_fmap. exists (x, a_view a x). split; [done|].
    apply list_elem_of_fmap. eauto.
Qed.

(** The last block promised to three concurrent calls does not fit.  On
    a disk laid out by mkfs (a log of LOGSIZE blocks) [begin_op] admits three
    calls, which may log MAXOPBLOCKS blocks each, 30 in all; but once 29 are
    logged [log_write] panics, even for a block that is in the log already. *)
Theorem log_last_block_panics s :
  held (fthr s) = [] -> l_committing (log s) = false -> lh_n (log s) = 0 ->
  l_outstanding (log s) = 0 ->
  (exists s', (begin_op ;; begin_op ;; begin_op) s = Ok tt s' /\ l_outstanding (log s') = 3 /\
     3 * MAXOPBLOCKS = LOGSIZE) /\
  forall s' i b, bufs s' !! i = Some b -> l_size (log s') = LOGSIZE ->
    lh_n (log s') = LOGSIZE - 1 -> log_write i s' = Panic "too big a transaction".
Proof.
  intros Hh Hc Hn Ho. split.
  - destruct s as [? ? ? ? ? [? ? ? ? ? ? ?] ? [? ?]]. simpl in *. subst.
    eexists. split; [|split].
    + erewrite bind_Ok by (rewrite begin_op_run by set_solver; reflexivity).
      erewrite bind_Ok by (rewrite begin_op_run by set_solver; reflexivity).
      rewrite begin_op_run by set_solver. reflexivity.
    + done.
    + done.
  - intros s' i b Hb Hs Hl. unfold log_write, bind, get_log, gets, get_buf. rewrite Hb.
    unfold LOGSIZE in *. zif; [done|lia].
Qed.

(** ** Booting *)

(** The kernel's data segment before [binit]: all buffers zero. *)
Definition zeroed (s : fstate) : Prop :=
  bufs s = replicate NBUF (mkBuf false false false 0 0 zero_block) /\
  held (fthr s) = [] /\ length (lh_sector (log s)) = Z.to_nat LOGSIZE /\
  forall x, length (dget (disk s) 1 x) = BSIZE.

Lemma binit_reboots s :
  zeroed s -> exists s', binit s = Ok tt s' /\ rebooted (disk s) (disksize s) s' /\
    log s' = log s /\ icache s' = icache s /\ writes s' = writes s /\
    bufs s' = replicate NBUF (mkBuf false false false 4294967295 0 zero_block).
Proof.
  intros (Hb & Hh & Hl & Hd). set (b0 := mkBuf false false false 4294967295 0 zero_block).
  set (s' := set_bufs (replicate NBUF b0) (set_lru (rev (seq 0 NBUF)) s)).
  assert (Hlk : forall i b, bufs s' !! i = Some b -> b = b0).
  { intros i b Hi. by apply lookup_replicate in Hi as [-> _]. }
  assert (Hrun : binit s = Ok tt s').
  { unfold binit, initlock, bind, modify. unfold s'. destruct s as [bs ? ? ? ? ? ? [h ?]].
    simpl in Hh, Hb. subst h bs. reflexivity. }
  assert (Hinv : binv s' []).
  { split; try done.
    - unfold s'. cbn [lru set_bufs set_lru]. symmetry. apply Permutation_rev.
    - intros i j bi bj Hi _ H1. by rewrite (Hlk i bi Hi) in H1.
    - intros i b Hi. rewrite (Hlk i b Hi). apply length_zero_block.
    - intros i b Hi. rewrite (Hlk i b Hi). simpl. set_solver.
    - intros i b Hi H1. by rewrite (Hlk i b Hi) in H1.
    - intros i b Hi H1. by rewrite (Hlk i b Hi) in H1. }
  assert (Hreb : rebooted (disk s) (disksize s) s').
  { split; [done|]. split; [|done]. intros x (i & b & Hi & H1 & _). by rewrite (Hlk i b Hi) in H1. }
  by exists s'.
Qed.

(** [binit] on the zeroed data segment establishes the cache invariant:
    every buffer is on the list exactly once, none holds a sector, and every
    sector reads as it is on the disk. *)
Theorem binit_establishes s :
  zeroed s -> exists s', binit s = Ok tt s' /\ rebooted (disk s) (disksize s) s' /\
    forall x, view s' x = dget (disk s) 1 x.
Proof.
  intros Hz. destruct (binit_reboots s Hz) as (s' & Hrun & Hreb & _).
  exists s'. split; [done|]. split; [done|]. intros x.
  rewrite (rp_view _ _ _ (rebooted_rep _ _ _ Hreb)). simpl.
  by destruct Hreb as (_ & _ & -> & _).
Qed.

(** ** A concrete disk *)

Module LogDemo.

(** Forty sectors, the last thirty of them the log. *)
Definition sb_block : list Z := put_words zero_block 0 [40; 5; 8; 30].
Definition disk0 : gmap (Z * Z) (list Z) := {[ (1, 1) := sb_block ]}.
Definition log0 : logst := mkLog 10 30 1 false 1 0 (replicate 30 0).
Definition s0 (d : gmap (Z * Z) (list Z)) : fstate :=
  mkFs (replicate NBUF (mkBuf false false false 0 0 zero_block)) [] d 40 [] log0 []
       (mkThread [] []).

Lemma length_sb_block : length sb_block = BSIZE.
Proof. unfold sb_block. rewrite length_put_words; rewrite length_zero_block; [done|]. simpl. unfold BSIZE. lia. Qed.

Lemma disk0_blocks x : length (dget disk0 1 x) = BSIZE.
Proof.
  unfold disk0, dget. destruct (decide (x = 1)) as [->|].
  - rewrite lookup_singleton_eq. apply length_sb_block.
  - rewrite lookup_singleton_ne by congruence. apply length_zero_block.
Qed.

Lemma binit_establishes_witness :
  zeroed (s0 disk0) /\
  exists s', binit (s0 disk0) = Ok tt s' /\ rebooted (disk (s0 disk0)) (disksize (s0 disk0)) s' /\
    forall x, view s' x = dget (disk (s0 disk0)) 1 x.
Proof.
  assert (H : zeroed (s0 disk0)) by (split; [done|]; split; [done|]; split; [done|apply disk0_blocks]).
  split; [exact H|]. apply (binit_establishes (s0 disk0)). exact H.
Defined.

Lemma log_last_block_panics_witness :
  exists s, (exists s', (begin_op ;; begin_op ;; begin_op) s = Ok tt s' /\
     l_outstanding (log s') = 3 /\ 3 * MAXOPBLOCKS = LOGSIZE) /\
  forall s' i b, bufs s' !! i = Some b -> l_size (log s') = LOGSIZE ->
    lh_n (log s') = LOGSIZE - 1 -> log_write i s' = Panic "too big a transaction".
Proof.
  exists (set_log (with_outstanding 0 log0) (s0 disk0)).
  apply log_last_block_panics; reflexivity.
Defined.

Lemma begin_op_admission_witness :
  (exists s', begin_op (s0 disk0) = Ok tt s' /\ l_committing (log (s0 disk0)) = false /\
     l_outstanding (log s') = l_outstanding (log (s0 disk0)) + 1 /\
     lh_n (log s') + l_outstanding (log s') * MAXOPBLOCKS <= LOGSIZE /\
     held (fthr s') = [] /\ bufs s' = bufs (s0 disk0) /\ disk s' = disk (s0 disk0)) \/
  (exists s', begin_op (s0 disk0) = Sleeps ChLog s' /\ log s' = log (s0 disk0) /\
     held (fthr s') = [] /\
     (l_committing (log (s0 disk0)) = true \/
      LOGSIZE < lh_n (log (s0 disk0)) + (l_outstanding (log (s0 disk0)) + 1) * MAXOPBLOCKS)).
Proof. apply (begin_op_admission (s0 disk0)). reflexivity. Defined.

Lemma s0_zeroed : zeroed (s0 disk0).
Proof. split; [done|]. split; [done|]. split; [done|]. apply disk0_blocks. Qed.

(** Sector 5 filled with ones inside a transaction of one call. *)
Lemma demo_txn :
  exists s a, rep s [] a /\ log_inv a /\ log s = logged 5 log0 /\ held (fthr s) = [] /\
    disksize s = 40 /\ forall x, view s x = if decide (x = 5) then repeat 1 BSIZE else dget disk0 1 x.
Proof.
  destruct (binit_reboots _ s0_zeroed) as (r & _ & Hreb & Hlog & _ & _).
  pose proof (rebooted_rep _ _ _ Hreb) as R.
  destruct Hreb as (_ & _ & Hdisk & Hsz & _ & _). simpl in Hdisk, Hsz, Hlog.
  assert (I : log_inv (boot_ablk r)).
  { split; [split|..]; simpl; rewrite ?Hlog, ?Hsz; simpl; try done; try lia.
    - set_solver.
    - set_solver.
    - split; set_solver.
    - apply NoDup_nil_2. }
  pose proof (wp_update r [] (boot_ablk r) 5 (fun _ => repeat 1 BSIZE) [5] 0
    (fun _ s => rep s [] (a_update 5 (repeat 1 BSIZE) (boot_ablk r)))) as Hw.
  apply wp_iff in Hw as ([] & s & _ & R'); try done.
  - exists s, (a_update 5 (repeat 1 BSIZE) (boot_ablk r)). split; [done|]. split.
    + apply log_inv_logged; [by apply log_inv_set_view|..].
      * unfold room. simpl. rewrite Hlog. done.
      * unfold home, in_log. simpl. rewrite Hlog, Hsz. simpl. lia.
    + rewrite (rp_log _ _ _ R'), (rp_held _ _ _ R'), (rp_size _ _ _ R'). simpl.
      rewrite Hlog, Hsz. repeat split; try done. intros x. rewrite (rp_view _ _ _ R'). simpl.
      by rewrite Hdisk.
  - split; [done|]. simpl. rewrite Hlog. done.
  - exists [5]. simpl. rewrite Hlog. split; [intros x Hx; by apply elem_of_nil in Hx|]. done.
  - simpl. rewrite Hsz. lia.
  - apply not_elem_of_nil.
  - simpl. lia.
Qed.

Lemma end_op_durable_witness :
  exists s s', end_op s = Ok tt s' /\ dget (disk s') 1 5 = repeat 1 BSIZE.
Proof.
  destruct demo_txn as (s & a & R & I & Hlog & Hh & Hsz & Hv).
  destruct (end_op_durable s a) as (s' & Hrun & _ & Hd & _); try done; try (by rewrite Hlog).
  exists s, s'. split; [done|]. destruct (Hd 5) as [-> _]; [|by rewrite Hv].
  rewrite Hlog. unfold in_log. vm_compute. intuition congruence.
Defined.

Lemma demo_sb : sb_log (dget disk0 1) 10 30.
Proof. vm_compute. done. Qed.

Lemma commit_crash_atomic_witness :
  exists s, lsecs (log s) = [5] /\ view s 5 = repeat 1 BSIZE /\
  exists s' W, commit s = Ok tt s' /\ writes s' = rev W ++ writes s /\
    forall k r, rebooted (dput (take k W) (disk s)) (disksize s) r ->
      wp initlog (fun _ r' => forall x, ~ in_log (log s) x ->
        dget (disk r') 1 x =
          if decide (k <= length (lsecs (log s)))%nat then dget (disk s) 1 x else view s x) r.
Proof.
  destruct demo_txn as (s & a & R & I & Hlog & Hh & Hsz & Hv). exists s.
  split; [by rewrite Hlog|]. split; [by rewrite Hv|].
  apply (commit_crash_atomic s a); try apply I; try done.
  - by rewrite Hlog.
  - rewrite Hlog, Hv. vm_compute. done.
  - rewrite Hlog. unfold sb_log. rewrite Hv. exact demo_sb.
  - rewrite Hsz. lia.
  - rewrite Hlog. unfold in_log. vm_compute. intuition congruence.
  - rewrite Hlog. vm_compute. intros H. inversion H as [|? ? ? H']; subst. inversion H'.
Defined.

(** A disk whose committed header lists sector 5. *)
Definition disk1 : gmap (Z * Z) (list Z) :=
  <[(1, 10) := head_block zero_block 1 [5]]> (<[(1, 11) := repeat 1 BSIZE]> disk0).

Lemma recovery_restartable_witness :
  exists r r' W, initlog r = Ok tt r' /\ writes r' = rev W ++ writes r /\ disk r' = dput W disk1 /\
    forall j r2, rebooted (dput (take j W) disk1) 40 r2 ->
      wp initlog (fun _ r2' => forall x, ~ (10 <= x < 10 + 30) ->
        dget (disk r2') 1 x = dget (disk r') 1 x) r2.
Proof.
  assert (Hz : zeroed (s0 disk1)).
  { split; [done|]. split; [done|]. split; [done|]. intros x. simpl. unfold disk1.
    rewrite !dget_insert. destruct (decide _); [vm_compute; done|].
    destruct (decide _); [vm_compute; done|]. apply disk0_blocks. }
  destruct (binit_reboots _ Hz) as (r & _ & Hreb & _). exists r.
  apply (recovery_restartable disk1 40 r 10 30 Hreb); try lia.
  - vm_compute. done.
  - vm_compute. done.
  - vm_compute. done.
  - assert (head_secs (dget disk1 1 10) = [5]) as -> by (vm_compute; done).
    intros x ->%list_elem_of_singleton. lia.
Defined.

Lemma cache_write_then_read_witness :
  exists s, wp (do i <- bread 1 3; set_data i (repeat 7 BSIZE) ;; bwrite i ;; brelse i ;;
                do j <- bread 1 3; do v <- get_data j; brelse j ;; ret v)
     (fun v s' => v = (if decide (3 = 3) then repeat 7 BSIZE else view s 3) /\
                  dget (disk s') 1 3 = repeat 7 BSIZE /\ binv s' [] /\
                  forall x, view s' x = if decide (x = 3) then repeat 7 BSIZE else view s x) s.
Proof.
  destruct (binit_reboots _ s0_zeroed) as (r & _ & Hreb & _). exists r.
  pose proof (rebooted_rep _ _ _ Hreb) as R. destruct Hreb as (_ & _ & _ & Hsz & _).
  apply (cache_write_then_read r (boot_ablk r) 3 (repeat 7 BSIZE) 3 R); simpl; try done.
  - split; apply not_elem_of_nil.
  - rewrite Hsz. simpl. lia.
  - rewrite Hsz. simpl. lia.
  - unfold NBUF. lia.
Defined.

Lemma bget_recycles_lru_witness :
  exists s i b newer older,
    bget 1 5 s = Ok i (set_buf i (mkBuf true false false 1 5 (b_data b)) s) /\
    lru s = newer ++ i :: older /\ bufs s !! i = Some b /\ (i ∉ ([] : list nat)) /\ b_dirty b = false /\
    Forall (fun j => forall bj, bufs s !! j = Some bj -> j ∈ ([] : list nat) \/ b_dirty bj = true) older.
Proof.
  destruct (binit_reboots _ s0_zeroed) as (r & _ & (Hinv & _ & _ & _ & Hh & _) & _ & _ & _ & Hb).
  exists r. apply (bget_recycles_lru r [] 5 Hinv).
  - rewrite Hh. apply not_elem_of_nil.
  - intros j bj Hj Hd. rewrite Hb in Hj. by apply lookup_replicate in Hj as [-> _].
  - exists 0%nat, (mkBuf false false false 4294967295 0 zero_block). rewrite Hb.
    split; [done|]. split; [apply not_elem_of_nil|done].
Defined.

End LogDemo.
