(* ===== verification/Fs.v ===== *)
(** * fs.c: block allocator, inodes and file contents

    The disk format is that of [FsLayout.v]; blocks are read through the
    cache and changed through the log.  A [struct inode*] is its index in
    [icache]; where the code tests a pointer for null it is an [option].
    [readi] returns the bytes it stores at its destination and [writei] takes
    the bytes it finds at its source. *)

From S2P Require Import Prelude Monad Locks FsState FsLayout Bio Log.

Open Scope Z_scope.
Open Scope kernel_scope.

Definition T_DIR : Z := 1.
Definition T_FILE : Z := 2.
Definition T_DEV : Z := 3.
Definition NDEV : Z := 10.
Definition ROOTINO : Z := 1.

(** ** Blocks *)

Definition bzero (dev bno : Z) : M fstate unit :=
  do bp <- bread dev bno;
  set_data bp zero_block ;;
  log_write bp ;;
  brelse bp.

(** Bit [bi] of a bitmap block, and its mask. *)
Definition bit_mask (bi : nat) : Z := Z.shiftl 1 (Z.of_nat (bi mod 8)).
Definition bit_byte (d : list Z) (bi : nat) : Z := nth (bi / 8) d 0.
Definition bit_free (d : list Z) (bi : nat) : bool := Z.land (bit_byte d bi) (bit_mask bi) =? 0.
Definition set_bit (d : list Z) (bi : nat) : list Z :=
  <[(bi / 8)%nat := Z.lor (bit_byte d bi) (bit_mask bi)]> d.
Definition clear_bit (d : list Z) (bi : nat) : list Z :=
  <[(bi / 8)%nat := Z.land (bit_byte d bi) (Z.lnot (bit_mask bi))]> d.

(** The inner loop of balloc: the first clear bit of a block. *)
Fixpoint balloc_scan (d : list Z) (b size : Z) (bi count : nat) : option nat :=
  match count with
  | O => None
  | S n =>
      if b + Z.of_nat bi <? size then
        if bit_free d bi then Some bi else balloc_scan d b size (S bi) n
      else None
  end.

Fixpoint balloc_loop (dev : Z) (sb : superblock) (b : Z) (count : nat) : M fstate Z :=
  match count with
  | O => panic "balloc: out of blocks"
  | S n =>
      if b <? sb_size sb then
        do bp <- bread dev (BBLOCK b (sb_ninodes sb));
        do d <- get_data bp;
        match balloc_scan d b (sb_size sb) 0 (Z.to_nat BPB) with
        | Some bi =>
            set_data bp (set_bit d bi) ;;
            log_write bp ;;
            brelse bp ;;
            bzero dev (b + Z.of_nat bi) ;;
            ret (b + Z.of_nat bi)
        | None => brelse bp ;; balloc_loop dev sb (b + BPB) n
        end
      else panic "balloc: out of blocks"
  end.

(** One turn of the outer loop per bitmap block, and one to see the end. *)
Definition balloc (dev : Z) : M fstate Z :=
  do sb <- readsb dev;
  balloc_loop dev sb 0 (S (Z.to_nat ((sb_size sb + BPB - 1) / BPB))).

Definition bfree (dev b : Z) : M fstate unit :=
  do sb <- readsb dev;
  do bp <- bread dev (BBLOCK b (sb_ninodes sb));
  do d <- get_data bp;
  let bi := Z.to_nat (b mod BPB) in
  if bit_free d bi then panic "freeing free block"
  else
    set_data bp (clear_bit d bi) ;;
    log_write bp ;;
    brelse bp.

(** ** Inodes in memory *)

Definition get_inode (i : nat) : M fstate inode := fun s =>
  match icache s !! i with
  | Some ip => Ok ip s
  | None => Fault "bad inode pointer"
  end.
Definition put_inode (i : nat) (ip : inode) : M fstate unit :=
  modify (fun s => set_icache (<[i := ip]> (icache s)) s).

Definition with_ref (v : Z) (p : inode) : inode :=
  mkInode (i_dev p) (i_inum p) v (i_busy p) (i_valid p) (i_type p) (i_major p) (i_minor p)
          (i_nlink p) (i_size p) (i_addrs p).
Definition with_flags (busy valid : bool) (p : inode) : inode :=
  mkInode (i_dev p) (i_inum p) (i_ref p) busy valid (i_type p) (i_major p) (i_minor p)
          (i_nlink p) (i_size p) (i_addrs p).
Definition with_dinode (d : dinode) (p : inode) : inode :=
  mkInode (i_dev p) (i_inum p) (i_ref p) (i_busy p) (i_valid p) (d_type d) (d_major d) (d_minor d)
          (d_nlink d) (d_size d) (d_addrs d).
Definition with_addrs (l : list Z) (p : inode) : inode :=
  mkInode (i_dev p) (i_inum p) (i_ref p) (i_busy p) (i_valid p) (i_type p) (i_major p) (i_minor p)
          (i_nlink p) (i_size p) l.
Definition with_size (v : Z) (p : inode) : inode :=
  mkInode (i_dev p) (i_inum p) (i_ref p) (i_busy p) (i_valid p) (i_type p) (i_major p) (i_minor p)
          (i_nlink p) v (i_addrs p).
Definition with_type (v : Z) (p : inode) : inode :=
  mkInode (i_dev p) (i_inum p) (i_ref p) (i_busy p) (i_valid p) v (i_major p) (i_minor p)
          (i_nlink p) (i_size p) (i_addrs p).

(** The on-disk form of an inode in memory. *)
Definition dinode_of (p : inode) : dinode :=
  mkDinode (i_type p) (i_major p) (i_minor p) (i_nlink p) (i_size p) (i_addrs p).

Definition iinit : M fstate unit := initlock LkIcache.

Definition iget (dev inum : Z) : M fstate nat :=
  acquire LkIcache ;;
  do c <- gets icache;
  match find_idx (fun p => (0 <? i_ref p) && (i_dev p =? dev) && (i_inum p =? inum)) c with
  | Some i =>
      do p <- get_inode i;
      put_inode i (with_ref (i_ref p + 1) p) ;;
      release LkIcache ;;
      ret i
  | None =>
      match find_idx (fun p => i_ref p =? 0) c with
      | None => panic "iget: no inodes"
      | Some i =>
          do p <- get_inode i;
          put_inode i (mkInode dev inum 1 false false (i_type p) (i_major p) (i_minor p)
                         (i_nlink p) (i_size p) (i_addrs p)) ;;
          release LkIcache ;;
          ret i
      end
  end.

Definition inode_index (inum : Z) : nat := Z.to_nat (inum mod IPB).

Fixpoint ialloc_loop (dev type : Z) (sb : superblock) (inum : Z) (count : nat) : M fstate nat :=
  match count with
  | O => panic "ialloc: no inodes"
  | S n =>
      if inum <? sb_ninodes sb then
        do bp <- bread dev (IBLOCK inum);
        do d <- get_data bp;
        if d_type (get_dinode d (inode_index inum)) =? 0 then
          set_data bp (put_dinode d (inode_index inum) (mkDinode type 0 0 0 0 (repeat 0 13))) ;;
          log_write bp ;;
          brelse bp ;;
          iget dev inum
        else brelse bp ;; ialloc_loop dev type sb (inum + 1) n
      else panic "ialloc: no inodes"
  end.

Definition ialloc (dev type : Z) : M fstate nat :=
  do sb <- readsb dev;
  ialloc_loop dev type sb 1 (Z.to_nat (sb_ninodes sb)).

Definition iupdate (i : nat) : M fstate unit :=
  do p <- get_inode i;
  do bp <- bread (i_dev p) (IBLOCK (i_inum p));
  do d <- get_data bp;
  set_data bp (put_dinode d (inode_index (i_inum p)) (dinode_of p)) ;;
  log_write bp ;;
  brelse bp.

Definition idup (i : nat) : M fstate nat :=
  acquire LkIcache ;;
  (do p <- get_inode i; put_inode i (with_ref (i_ref p + 1) p)) ;;
  release LkIcache ;;
  ret i.

(** ilock: a thread that finds the inode busy sleeps and tests again. *)
Definition ilock (ip : option nat) : M fstate unit :=
  match ip with
  | None => panic "ilock"
  | Some i =>
      do p <- get_inode i;
      if i_ref p <? 1 then panic "ilock"
      else
        acquire LkIcache ;;
        do p <- get_inode i;
        if i_busy p then sleep (ChInode i) LkIcache
        else
          put_inode i (with_flags true (i_valid p) p) ;;
          release LkIcache ;;
          do p <- get_inode i;
          if negb (i_valid p) then
            do bp <- bread (i_dev p) (IBLOCK (i_inum p));
            do d <- get_data bp;
            put_inode i (with_dinode (get_dinode d (inode_index (i_inum p))) p) ;;
            brelse bp ;;
            do p <- get_inode i;
            put_inode i (with_flags (i_busy p) true p) ;;
            if i_type p =? 0 then panic "ilock: no type" else ret tt
          else ret tt
  end.

Definition iunlock (ip : option nat) : M fstate unit :=
  match ip with
  | None => panic "iunlock"
  | Some i =>
      do p <- get_inode i;
      if negb (i_busy p) || (i_ref p <? 1) then panic "iunlock"
      else
        acquire LkIcache ;;
        (do p <- get_inode i; put_inode i (with_flags false false p)) ;;
        wakeup (ChInode i) ;;
        release LkIcache
  end.

(** ** Inode contents *)

(** [ip->addrs[k]]. *)
Definition addr_of (p : inode) (k : nat) : Z := nth k (i_addrs p) 0.
Definition set_addr (i k : nat) (v : Z) : M fstate unit :=
  do p <- get_inode i; put_inode i (with_addrs (<[k := v]> (i_addrs p)) p).

(** [if((addr = ip->addrs[k]) == 0) ip->addrs[k] = addr = balloc(ip->dev)]. *)
Definition addr_or_balloc (i k : nat) : M fstate Z :=
  do p <- get_inode i;
  if addr_of p k =? 0 then
    do addr <- balloc (i_dev p);
    set_addr i k addr ;;
    ret addr
  else ret (addr_of p k).

Definition bmap (i : nat) (bn : Z) : M fstate Z :=
  if bn <? Z.of_nat NDIRECT then addr_or_balloc i (Z.to_nat bn)
  else
    let bn := bn - Z.of_nat NDIRECT in
    if bn <? NINDIRECT then
      do addr <- addr_or_balloc i NDIRECT;
      do p <- get_inode i;
      do bp <- bread (i_dev p) addr;
      do a <- get_data bp;
      do addr <-
        (if get_word a (Z.to_nat bn) =? 0 then
           do addr <- balloc (i_dev p);
           (do a <- get_data bp; set_data bp (put_word a (Z.to_nat bn) addr)) ;;
           log_write bp ;;
           ret addr
         else ret (get_word a (Z.to_nat bn)));
      brelse bp ;;
      ret addr
    else panic "bmap: out of range".

(** ex_bmap does not follow the indirect block. *)
Definition ex_bmap (i : nat) (bn : Z) : M fstate Z :=
  if bn <? Z.of_nat NDIRECT then addr_or_balloc i (Z.to_nat bn)
  else if bn - Z.of_nat NDIRECT <? NINDIRECT then ret 0
  else panic "bmap: out of range".

Definition itrunc (i : nat) : M fstate unit :=
  mfor 0 NDIRECT (fun k =>
    do p <- get_inode i;
    if addr_of p k =? 0 then ret tt
    else bfree (i_dev p) (addr_of p k) ;; set_addr i k 0) ;;
  (do p <- get_inode i;
   if addr_of p NDIRECT =? 0 then ret tt
   else
     do bp <- bread (i_dev p) (addr_of p NDIRECT);
     mfor 0 (Z.to_nat NINDIRECT) (fun j =>
       do a <- get_data bp;
       if get_word a j =? 0 then ret tt else bfree (i_dev p) (get_word a j)) ;;
     brelse bp ;;
     bfree (i_dev p) (addr_of p NDIRECT) ;;
     set_addr i NDIRECT 0) ;;
  (do p <- get_inode i; put_inode i (with_size 0 p)) ;;
  iupdate i.

Definition iput (i : nat) : M fstate unit :=
  acquire LkIcache ;;
  (do p <- get_inode i;
   if (i_ref p =? 1) && i_valid p && (i_nlink p =? 0) then
     if i_busy p then panic "iput busy"
     else
       put_inode i (with_flags true (i_valid p) p) ;;
       release LkIcache ;;
       itrunc i ;;
       (do p <- get_inode i; put_inode i (with_type 0 p)) ;;
       iupdate i ;;
       acquire LkIcache ;;
       (do p <- get_inode i; put_inode i (with_flags false false p)) ;;
       wakeup (ChInode i)
   else ret tt) ;;
  (do p <- get_inode i; put_inode i (with_ref (i_ref p - 1) p)) ;;
  release LkIcache.

Definition iunlockput (i : nat) : M fstate unit := iunlock (Some i) ;; iput i.

(** [struct stat]. *)
Record stat : Type := mkStat {
  st_type : Z; st_dev : Z; st_ino : Z; st_nlink : Z; st_size : Z
}.

Definition stati (i : nat) : M fstate stat :=
  do p <- get_inode i;
  ret (mkStat (i_type p) (i_dev p) (i_inum p) (i_nlink p) (i_size p)).

(** Device files: [devsw[major].read] and [.write], null or a driver routine. *)
Record devsw : Type := mkDevsw {
  dev_read : option (nat -> Z -> M fstate (Z * list Z));
  dev_write : option (nat -> list Z -> Z -> M fstate Z)
}.

(** The copy loop of readi; [n] bytes take at most [n / BSIZE + 2] turns. *)
Fixpoint readi_loop (i : nat) (n tot off : Z) (dst : list Z) (fuel : nat) : M fstate (list Z) :=
  match fuel with
  | O => fault "readi: loop bound"
  | S fuel =>
      if tot <? n then
        do p <- get_inode i;
        do addr <- bmap i (off / Z.of_nat BSIZE);
        do bp <- bread (i_dev p) addr;
        let m := Z.min (n - tot) (Z.of_nat BSIZE - off mod Z.of_nat BSIZE) in
        do d <- get_data bp;
        brelse bp ;;
        readi_loop i n (tot + m) (off + m)
          (dst ++ slice (Z.to_nat (off mod Z.of_nat BSIZE)) (Z.to_nat m) d) fuel
      else ret dst
  end.

Definition blocks_fuel (n : Z) : nat := Z.to_nat (n / Z.of_nat BSIZE + 3).

Fixpoint writei_loop (i : nat) (src : list Z) (n tot off : Z) (fuel : nat) : M fstate Z :=
  match fuel with
  | O => fault "writei: loop bound"
  | S fuel =>
      if tot <? n then
        do p <- get_inode i;
        do addr <- bmap i (off / Z.of_nat BSIZE);
        do bp <- bread (i_dev p) addr;
        let m := Z.min (n - tot) (Z.of_nat BSIZE - off mod Z.of_nat BSIZE) in
        (do d <- get_data bp;
         set_data bp (splice (Z.to_nat (off mod Z.of_nat BSIZE))
                             (slice (Z.to_nat tot) (Z.to_nat m) src) d)) ;;
        log_write bp ;;
        brelse bp ;;
        writei_loop i src n (tot + m) (off + m) fuel
      else ret off
  end.

Section devices.
Context (dtab : Z -> devsw).

Definition readi (i : nat) (off n : Z) : M fstate (Z * list Z) :=
  do p <- get_inode i;
  if i_type p =? T_DEV then
    if (i_major p <? 0) || (NDEV <=? i_major p) then ret (-1, [])
    else match dev_read (dtab (i_major p)) with
         | None => ret (-1, [])
         | Some f => f i n
         end
  else if (i_size p <? off) || (u32 (off + n) <? off) then ret (-1, [])
  else
    let n := if i_size p <? u32 (off + n) then i_size p - off else n in
    do l <- readi_loop i n 0 off [] (blocks_fuel n);
    ret (n, l).

Definition writei (i : nat) (src : list Z) (off n : Z) : M fstate Z :=
  do p <- get_inode i;
  if i_type p =? T_DEV then
    if (i_major p <? 0) || (NDEV <=? i_major p) then ret (-1)
    else match dev_write (dtab (i_major p)) with
         | None => ret (-1)
         | Some f => f i src n
         end
  else if (i_size p <? off) || (u32 (off + n) <? off) then ret (-1)
  else if MAXFILE * Z.of_nat BSIZE <? u32 (off + n) then ret (-1)
  else
    do off <- writei_loop i src n 0 off (blocks_fuel n);
    do p <- get_inode i;
    (if (0 <? n) && (i_size p <? off) then
       put_inode i (with_size off p) ;;
       iupdate i
     else ret tt) ;;
    ret n.

End devices.
