(* ===== verification/Bitmap.v ===== *)
(** * The free bitmap of fs.c

    Bit arithmetic of [balloc] and [bfree]: a bitmap block as an array of
    bits, and the scan for the first clear one. *)

From S2P Require Import Prelude Monad Locks FsState FsLayout Bio Log Fs.

Open Scope Z_scope.

Definition bit (d : list Z) (bi : nat) : bool :=
  Z.testbit (bit_byte d bi) (Z.of_nat (bi mod 8)).

Lemma land_bit x k : 0 <= k -> (Z.land x (Z.shiftl 1 k) =? 0) = negb (Z.testbit x k).
Proof.
  intros Hk. rewrite Z.shiftl_1_l. destruct (Z.testbit x k) eqn:E; simpl.
  - apply Z.eqb_neq. intros H. assert (Z.testbit (Z.land x (2 ^ k)) k = false) as F
      by (rewrite H; apply Z.bits_0).
    rewrite Z.land_spec, E, Z.pow2_bits_true in F by done. done.
  - apply Z.eqb_eq. apply Z.bits_inj'. intros n Hn. rewrite Z.land_spec, Z.bits_0.
    destruct (Z.eq_dec n k) as [->|]; [by rewrite E|].
    rewrite Z.pow2_bits_false by done. by rewrite andb_false_r.
Qed.

Lemma bit_free_bit d bi : bit_free d bi = negb (bit d bi).
Proof. unfold bit_free, bit, bit_mask. apply land_bit. lia. Qed.

Lemma bit_byte_insert d k v bj :
  (k < length d)%nat -> bit_byte (<[k := v]> d) bj = if (bj / 8 =? k)%nat then v else bit_byte d bj.
Proof.
  intros Hk. unfold bit_byte. destruct (Nat.eqb_spec (bj / 8) k) as [->|Hne].
  - apply nth_lookup_Some. by apply list_lookup_insert_eq.
  - rewrite !nth_lookup. by rewrite list_lookup_insert_ne.
Qed.

Lemma same_bit bi bj : (bi / 8 = bj / 8)%nat -> (bi mod 8 = bj mod 8)%nat -> bi = bj.
Proof. intros. rewrite (Nat.div_mod bi 8), (Nat.div_mod bj 8) by done. congruence. Qed.

Lemma bit_set_bit d bi bj :
  (bi / 8 < length d)%nat -> bit (set_bit d bi) bj = (bi =? bj)%nat || bit d bj.
Proof.
  intros Hb. unfold bit, set_bit. rewrite bit_byte_insert by done.
  destruct (Nat.eqb_spec (bj / 8) (bi / 8)) as [Hd|Hd].
  - unfold bit_mask. rewrite Z.lor_spec, Z.shiftl_1_l, orb_comm.
    replace (bit_byte d bi) with (bit_byte d bj) by (unfold bit_byte; by rewrite Hd).
    f_equal. destruct (Nat.eqb_spec bi bj) as [->|Hne].
    + apply Z.pow2_bits_true. lia.
    + apply Z.pow2_bits_false. intros Hm. apply Hne, same_bit; lia.
  - destruct (Nat.eqb_spec bi bj) as [->|Hne]; [done|]. done.
Qed.

Lemma bit_clear_bit d bi bj :
  (bi / 8 < length d)%nat -> bit (clear_bit d bi) bj = negb (bi =? bj)%nat && bit d bj.
Proof.
  intros Hb. unfold bit, clear_bit. rewrite bit_byte_insert by done.
  destruct (Nat.eqb_spec (bj / 8) (bi / 8)) as [Hd|Hd].
  - unfold bit_mask. rewrite Z.land_spec, Z.lnot_spec, Z.shiftl_1_l, andb_comm by lia.
    replace (bit_byte d bi) with (bit_byte d bj) by (unfold bit_byte; by rewrite Hd).
    f_equal. f_equal. destruct (Nat.eqb_spec bi bj) as [->|Hne].
    + apply Z.pow2_bits_true. lia.
    + apply Z.pow2_bits_false. intros Hm. apply Hne, same_bit; lia.
  - destruct (Nat.eqb_spec bi bj) as [->|Hne]; [done|]. done.
Qed.

Lemma length_set_bit d bi : length (set_bit d bi) = length d.
Proof. apply length_insert. Qed.

Lemma length_clear_bit d bi : length (clear_bit d bi) = length d.
Proof. apply length_insert. Qed.

(** Freeing the bit just set gives back the block. *)
Lemma clear_set_bit d bi :
  (bi / 8 < length d)%nat -> bit d bi = false -> clear_bit (set_bit d bi) bi = d.
Proof.
  intros Hb Hf. unfold clear_bit. unfold set_bit at 1. rewrite bit_byte_insert by done.
  rewrite Nat.eqb_refl. unfold set_bit. rewrite list_insert_insert_eq.
  apply list_insert_id. unfold bit in Hf.
  assert (Hx : Z.land (Z.lor (bit_byte d bi) (bit_mask bi)) (Z.lnot (bit_mask bi)) = bit_byte d bi).
  { apply Z.bits_inj'. intros n Hn. unfold bit_mask.
    rewrite Z.land_spec, Z.lor_spec, Z.lnot_spec, Z.shiftl_1_l by done.
    destruct (Z.eq_dec n (Z.of_nat (bi mod 8))) as [->|Hne].
    - rewrite Z.pow2_bits_true, Hf by lia. done.
    - rewrite Z.pow2_bits_false by done. by rewrite orb_false_r, andb_true_r. }
  rewrite Hx. unfold bit_byte. apply lookup_lt_is_Some in Hb as [v Hv].
  by rewrite (nth_lookup_Some _ _ _ v).
Qed.

(** The scan finds the first clear bit below both bounds, or there is none. *)
Lemma balloc_scan_spec d b size bi count :
  match balloc_scan d b size bi count with
  | Some k => (bi <= k < bi + count)%nat /\ b + Z.of_nat k < size /\ bit d k = false /\
              forall j, (bi <= j < k)%nat -> bit d j = true
  | None => forall j, (bi <= j < bi + count)%nat -> b + Z.of_nat j < size -> bit d j = true
  end.
Proof.
  revert bi; induction count as [|n IH]; intros bi; simpl; [lia|].
  destruct (Z.ltb_spec (b + Z.of_nat bi) size) as [Hlt|Hge].
  - rewrite bit_free_bit. destruct (bit d bi) eqn:E; simpl.
    + specialize (IH (S bi)). destruct (balloc_scan d b size (S bi) n) as [k|].
      * destruct IH as (H1 & H2 & H3 & H4). split; [lia|]. split; [done|]. split; [done|].
        intros j Hj. destruct (decide (j = bi)) as [->|]; [done|]. apply H4. lia.
      * intros j Hj Hs. destruct (decide (j = bi)) as [->|]; [done|]. apply IH; lia.
    + split; [lia|]. split; [done|]. split; [done|]. lia.
  - intros j Hj Hs. lia.
Qed.
