(* ===== verification/FsSpec.v ===== *)
(** * fs.c is correct: allocation and file contents

    Proved against the block interface of [BlockSpec.v] and [Txn.v], inside a
    transaction with enough log budget. *)

From S2P Require Import Prelude Monad Locks FsState FsLayout Bio BlockSpec Log LogSpec Txn Fs Bitmap.

Open Scope Z_scope.
Open Scope kernel_scope.

(** ** The bitmap as a set of blocks *)

Definition sb_of (a : ablk) : superblock := decode_sb (a_view a 1).
Definition bblock (a : ablk) (b : Z) : Z := BBLOCK b (sb_ninodes (sb_of a)).
Definition bindex (b : Z) : nat := Z.to_nat (b mod BPB).

(** Block [b] is marked in use. *)
Definition used (a : ablk) (b : Z) : bool := bit (a_view a (bblock a b)) (bindex b).

(** The part of the layout the allocator relies on. *)
Record geo (a : ablk) : Prop := mkGeo {
  ge_sb : 1 < a_size a;
  ge_size : 0 <= sb_size (sb_of a);
  ge_ninodes : 0 <= sb_ninodes (sb_of a);
  ge_bitmap : forall b, 0 <= b < sb_size (sb_of a) -> home a (bblock a b)
}.

Lemma bblock_ge3 a b : geo a -> 0 <= b -> 3 <= bblock a b.
Proof. intros G Hb. pose proof (ge_ninodes _ G). unfold bblock, BBLOCK, BPB, IPB. zlia. Qed.

Lemma bindex_lt b : (bindex b < Z.to_nat BPB)%nat.
Proof. unfold bindex, BPB. zlia. Qed.

Lemma bindex_byte b (d : list Z) : length d = BSIZE -> (bindex b / 8 < length d)%nat.
Proof.
  intros ->. pose proof (bindex_lt b). unfold BPB, BSIZE in *. apply Nat.Div0.div_lt_upper_bound.
  lia.
Qed.

(** Updating a block other than the superblock keeps the layout. *)
Lemma sb_of_update sec d a : sec <> 1 -> sb_of (a_update sec d a) = sb_of a.
Proof. intros H. unfold sb_of. simpl. by rewrite decide_False by congruence. Qed.

Lemma geo_update sec d a : sec <> 1 -> geo a -> geo (a_update sec d a).
Proof.
  intros H []. split; rewrite ?sb_of_update by done; try done.
  intros b Hb. rewrite home_update. unfold bblock. rewrite sb_of_update by done.
  by apply ge_bitmap0.
Qed.

(** The first free block. *)
Definition first_free (a : ablk) (nb : Z) : Prop :=
  0 <= nb < sb_size (sb_of a) /\ used a nb = false /\
  forall b, 0 <= b < nb -> used a b = true.

(** What balloc does to the blocks. *)
Definition a_balloc (nb : Z) (a : ablk) : ablk :=
  a_update nb zero_block
    (a_update (bblock a nb) (set_bit (a_view a (bblock a nb)) (bindex nb)) a).

Lemma txn_read s H a sec (Q : nat -> fstate -> Prop) T k :
  rep s H a -> txn a -> fits T k a -> sec < a_size a -> sec ∉ H.*2 -> (length H <= 2)%nat ->
  (forall i s', rep s' ((i, sec) :: H) a -> Q i s') -> wp (bread 1 sec) Q s.
Proof.
  intros R [I Ho] F Hs Hn HH HQ. pose proof (li_ok _ I) as G. pose proof (fits_room _ _ _ F I) as Hr.
  apply (wp_bread R sec); [apply G|done|done| |done].
  right. rewrite (li_dirty _ I), length_lsecs by done. pose proof (lo_n _ G).
  unfold room, LOGSIZE, NBUF in *. lia.
Qed.

(** Releasing a block that was only read. *)
Lemma read_release s H a i sec (Q : unit -> fstate -> Prop) :
  rep s ((i, sec) :: H) a -> txn a -> sec ∉ H.*2 -> synced a sec ->
  (forall s', rep s' H a -> Q tt s') -> wp (brelse i) Q s.
Proof.
  intros R T Hn Hs HQ. apply (wp_brelse R i sec H); [set_solver| |done| |done].
  - apply (lo_bio _ (li_ok _ (tx_inv _ T))).
  - intros p. rewrite elem_of_cons. split; [|naive_solver]. intros Hp. split; [by right|].
    intros ->. apply Hn, list_elem_of_fmap. by exists (i, sec).
Qed.

Lemma txn_readsb s H a (Q : superblock -> fstate -> Prop) T k :
  rep s H a -> txn a -> fits T k a -> 1 < a_size a -> 1 ∉ H.*2 -> (length H <= 2)%nat ->
  (forall s', rep s' H a -> Q (sb_of a) s') -> wp (readsb 1) Q s.
Proof.
  intros R Tx F Hs Hn HH HQ. unfold readsb.
  apply wp_bind. eapply (txn_read s H a 1); try done. intros i s1 R1.
  apply wp_bind, (wp_get_data R1 i 1); [set_solver|].
  apply wp_bind, (read_release _ H a i 1 _ R1); [done|done|eapply rep_synced; [exact R|done]|].
  intros s2 R2. apply wp_ret, HQ, R2.
Qed.

Lemma wp_bzero s H a bno T k (Q : unit -> fstate -> Prop) :
  rep s H a -> txn a -> fits T k a -> bno < a_size a -> bno ∉ H.*2 -> (length H <= 2)%nat ->
  (forall s', rep s' H (a_update bno zero_block a) -> Q tt s') -> wp (bzero 1 bno) Q s.
Proof.
  intros R [I Ho] F Hh Hn HH HQ. pose proof (fits_room _ _ _ F I) as Hr.
  unfold bzero. apply wp_bind. eapply (txn_read s H a bno); try done. intros i s1 R1.
  apply wp_bind, (wp_set_data R1 i bno); [set_solver|apply length_zero_block|]. intros s2 R2.
  eapply wp_log_and_release; [exact R2| |by apply log_inv_set_view|by eapply room_le|done..].
  intros Hin. apply Hn, list_elem_of_fmap. by exists (i, bno).
Qed.

Lemma bblock_split a j k :
  (k < Z.to_nat BPB)%nat ->
  bblock a (BPB * j + Z.of_nat k) = BBLOCK (BPB * j) (sb_ninodes (sb_of a)) /\
  bindex (BPB * j + Z.of_nat k) = k.
Proof.
  intros Hk. unfold bblock, BBLOCK, bindex, BPB in *. split; [|zlia].
  f_equal. f_equal. zlia.
Qed.

(** The scan of the bitmap block by block. *)
Lemma wp_balloc_loop s H a nb T k j count (Q : Z -> fstate -> Prop) :
  rep s H a -> txn a -> geo a -> fits T k a -> bblock a nb ∈ T ->
  first_free a nb -> nb < a_size a -> nb <> 1 -> nb ∉ H.*2 -> (forall b, 0 <= b < sb_size (sb_of a) -> bblock a b ∉ H.*2) ->
  (length H <= 1)%nat -> 0 <= j -> BPB * j <= nb -> nb < BPB * (j + Z.of_nat count) ->
  (forall s', rep s' H (a_balloc nb a) -> Q nb s') ->
  wp (balloc_loop 1 (sb_of a) (BPB * j) count) Q s.
Proof.
  intros R Tx G F HT1 Hff Hh Hn1 Hnb Hbm HH. revert s j R.
  induction count as [|n IH]; intros s j R Hj Hj1 Hj2 HQ; cbn [balloc_loop]; [unfold BPB in *; lia|].
  destruct Hff as (Hr & Hfree & Hbefore). pose proof (li_ok _ (tx_inv _ Tx)) as GL.
  assert (Hroom : room 1 a) by (eapply room_le; [eapply fits_room; [exact F|apply Tx]|lia]).
  zif; [|unfold BPB in *; lia].
  assert (Hblk : bblock a (BPB * j) = BBLOCK (BPB * j) (sb_ninodes (sb_of a))) by done.
  assert (Hsz : 0 <= BPB * j < sb_size (sb_of a)) by (unfold BPB in *; lia).
  rewrite <- Hblk. apply wp_bind. eapply (txn_read s H a); try done.
  { apply (ge_bitmap _ G _ Hsz). }
  { by apply Hbm. }
  { lia. }
  intros i s1 R1. apply wp_bind, (wp_get_data R1 i (bblock a (BPB * j))); [set_solver|].
  pose proof (balloc_scan_spec (a_view a (bblock a (BPB * j))) (BPB * j) (sb_size (sb_of a)) 0
                (Z.to_nat BPB)) as Hscan.
  destruct (balloc_scan _ _ _ _ _) as [bi|].
  - destruct Hscan as (Hbi & Hlt & Hclr & Hset).
    destruct (bblock_split a j bi) as [E1 E2]; [lia|].
    assert (Hnbeq : BPB * j + Z.of_nat bi = nb).
    { destruct (Z.lt_trichotomy (BPB * j + Z.of_nat bi) nb) as [Hc|[Hc|Hc]]; [|done|].
      - assert (used a (BPB * j + Z.of_nat bi) = true) as Hu by (apply Hbefore; unfold BPB in *; lia).
        unfold used in Hu. rewrite E1, E2, <- Hblk in Hu. congruence.
      - set (k' := Z.to_nat (nb - BPB * j)). destruct (bblock_split a j k') as [E3 E4]; [lia|].
        assert (nb = BPB * j + Z.of_nat k') as Ek by lia.
        unfold used in Hfree. rewrite Ek, E3, E4, <- Hblk, Hset in Hfree; [done|lia]. }
    rewrite Hnbeq in *. assert (Hbb : bblock a (BPB * j) = bblock a nb) by (by rewrite Hblk, <- E1).
    rewrite Hbb in *. rewrite <- E2.
    apply wp_bind, (wp_set_data R1 i (bblock a nb)); [set_solver|by rewrite length_set_bit; eapply rep_length|].
    intros s2 R2. apply wp_bind.
    assert (Hw : wp (log_write i ;; brelse i)
      (fun _ s' => rep s' H (a_update (bblock a nb) (set_bit (a_view a (bblock a nb)) (bindex nb)) a)) s2).
    { eapply wp_log_and_release; [exact R2| |exact (log_inv_set_view _ _ _ (tx_inv _ Tx))|
        exact Hroom|apply (ge_bitmap _ G _ Hr)|exact (tx_out _ Tx)|done].
      intros Hin. apply (Hbm nb Hr), list_elem_of_fmap. by exists (i, bblock a nb). }
    unfold wp, bind in Hw. unfold wp. destruct (log_write i s2) as [[] s2'| | |]; try done.
    apply wp_bind. unfold wp. destruct (brelse i s2') as [[] s3| | |]; try done.
    apply wp_bind. eapply wp_bzero; [exact Hw| | | | | |].
    + apply txn_update; [done| |apply (ge_bitmap _ G _ Hr)].
      exact Hroom.
    + apply fits_update; [exact F|done|done].
    + done.
    + done.
    + lia.
    + intros s4 R4. apply wp_ret. by apply HQ.
  - apply wp_bind. eapply read_release; [exact R1|done|by apply Hbm| |].
    + eapply rep_synced; [exact R|by apply Hbm].
    + intros s2 R2. replace (BPB * j + BPB) with (BPB * (j + 1)) by lia.
      apply IH; try done; try lia.
      destruct (Z.lt_ge_cases nb (BPB * (j + 1))) as [Hc|Hc]; [|lia]. exfalso.
      set (k' := Z.to_nat (nb - BPB * j)). destruct (bblock_split a j k') as [E3 E4]; [lia|].
      assert (nb = BPB * j + Z.of_nat k') as Ek by lia.
      unfold used in Hfree. rewrite Ek, E3, E4, <- Hblk, Hscan in Hfree; [done|lia|lia].
Qed.

Lemma wp_balloc s H a nb T k (Q : Z -> fstate -> Prop) :
  rep s H a -> txn a -> geo a -> fits T k a -> bblock a nb ∈ T ->
  first_free a nb -> nb < a_size a -> nb <> 1 -> nb ∉ H.*2 ->
  (forall b, 0 <= b < sb_size (sb_of a) -> bblock a b ∉ H.*2) -> 1 ∉ H.*2 -> (length H <= 1)%nat ->
  (forall s', rep s' H (a_balloc nb a) -> Q nb s') ->
  wp (balloc 1) Q s.
Proof.
  intros R Tx G F HT1 Hff Hh Hn1 Hnb Hbm H1 HH HQ. unfold balloc.
  apply wp_bind. eapply (txn_readsb s H a); try done; [apply G|lia|]. intros s1 R1.
  change 0 with (BPB * 0) at 1.
  eapply (wp_balloc_loop s1 H a nb T k 0); try done; [destruct Hff; lia|].
  destruct Hff as [Hr _]. rewrite Nat2Z.inj_succ. unfold BPB in *. zlia.
Qed.

(** ** Metadata and data blocks *)

(** The blocks before [dstart] hold the superblock, inodes and the bitmap. *)
Definition dstart (a : ablk) : Z := bblock a (sb_size (sb_of a) - 1) + 1.

Record layout_ok (a : ablk) : Prop := mkLayout {
  la_geo : geo a;
  la_pos : 0 < sb_size (sb_of a);
  la_meta : forall x, 0 <= x < dstart a -> used a x = true;
  la_fit : dstart a <= sb_size (sb_of a);
  la_home : forall x, 1 < x < dstart a -> home a x;
  la_size : sb_size (sb_of a) <= a_size a /\ a_size a <= 2 ^ 32
}.

(** A data block in use. *)
Definition datablk (a : ablk) (x : Z) : Prop :=
  dstart a <= x < sb_size (sb_of a) /\ home a x /\ used a x = true.

Lemma bblock_lt_dstart a b : 0 <= b < sb_size (sb_of a) -> bblock a b < dstart a.
Proof. intros Hb. unfold dstart, bblock, BBLOCK, BPB, IPB. zlia. Qed.

Lemma dstart_ge a : layout_ok a -> 4 <= dstart a.
Proof.
  intros L. unfold dstart. pose proof (la_pos _ L).
  pose proof (bblock_ge3 a (sb_size (sb_of a) - 1) (la_geo _ L)). lia.
Qed.

Lemma first_free_data a nb : layout_ok a -> first_free a nb -> dstart a <= nb.
Proof.
  intros L (Hr & Hf & _). destruct (Z.lt_ge_cases nb (dstart a)) as [Hc|]; [|done].
  rewrite (la_meta _ L nb) in Hf by lia. done.
Qed.

(** A block that is neither the superblock nor part of the bitmap. *)
Definition nonbm (a : ablk) (sec : Z) : Prop :=
  sec <> 1 /\ forall b, 0 <= b < sb_size (sb_of a) -> bblock a b <> sec.

Lemma data_nonbm a sec : layout_ok a -> dstart a <= sec -> nonbm a sec.
Proof.
  intros L Hs. pose proof (dstart_ge a L). split; [lia|]. intros b Hb.
  pose proof (bblock_lt_dstart a b Hb). lia.
Qed.

(** Updates of such blocks leave layout and bitmap alone. *)
Lemma used_update sec d a b :
  nonbm a sec -> 0 <= b < sb_size (sb_of a) -> used (a_update sec d a) b = used a b.
Proof.
  intros [H1 H2] Hb. unfold used, bblock.
  rewrite sb_of_update by done. fold (bblock a b).
  simpl. by rewrite decide_False by auto.
Qed.

Lemma dstart_update sec d a : sec <> 1 -> dstart (a_update sec d a) = dstart a.
Proof. intros H. unfold dstart, bblock. by rewrite sb_of_update. Qed.

Lemma layout_update sec d a : layout_ok a -> nonbm a sec -> layout_ok (a_update sec d a).
Proof.
  intros L Hs. pose proof Hs as [H1 _]. pose proof L as [G P M F Hh Hz].
  split; rewrite ?dstart_update, ?sb_of_update by done; try done.
  - by apply geo_update.
  - intros x Hx. rewrite used_update by (done || lia). by apply M.
  - intros x Hx. rewrite home_update. by apply Hh.
Qed.

Lemma datablk_update sec d a x :
  layout_ok a -> nonbm a sec -> datablk a x -> datablk (a_update sec d a) x.
Proof.
  intros L Hs (H1 & H2 & H3). pose proof Hs as [Hn _]. pose proof (dstart_ge a L). unfold datablk.
  rewrite dstart_update, sb_of_update, home_update, used_update by (done || lia). done.
Qed.

Lemma used_balloc a nb b :
  layout_ok a -> first_free a nb -> 0 <= b < sb_size (sb_of a) -> (forall x, length (a_view a x) = BSIZE) ->
  used (a_balloc nb a) b = (b =? nb) || used a b.
Proof.
  intros L Hff Hb Hlen. pose proof (first_free_data _ _ L Hff) as Hd. destruct Hff as (Hr & _).
  pose proof (dstart_ge a L). unfold a_balloc.
  pose proof (bblock_ge3 a nb (la_geo _ L)) as Hb3. 
  set (a' := a_update (bblock a nb) _ a).
  assert (E1 : sb_of a' = sb_of a) by (apply sb_of_update; lia).
  assert (E2 : sb_of (a_update nb zero_block a') = sb_of a) by (rewrite sb_of_update by lia; done).
  unfold used, bblock. rewrite E2. fold (bblock a b).
  pose proof (bblock_lt_dstart a b Hb). simpl. rewrite decide_False by lia.
  destruct (decide (bblock a b = bblock a nb)) as [Hbb|Hbb].
  - rewrite bit_set_bit by (apply bindex_byte; done). f_equal; [|by rewrite Hbb].
    unfold bindex. destruct (Z.eqb_spec b nb) as [->|Hne]; [apply Nat.eqb_refl|].
    apply Nat.eqb_neq. intros He. apply Hne.
    assert (b mod BPB = nb mod BPB) by (unfold BPB in *; zlia).
    assert (b / BPB = nb / BPB) by (unfold bblock, BBLOCK in Hbb; lia).
    unfold BPB in *. zlia.
  - destruct (Z.eqb_spec b nb) as [->|Hne]; [done|]. done.
Qed.

Lemma layout_balloc a nb :
  layout_ok a -> first_free a nb -> (forall x, length (a_view a x) = BSIZE) ->
  layout_ok (a_balloc nb a).
Proof.
  intros L Hff Hlen. pose proof (first_free_data _ _ L Hff) as Hd. pose proof (dstart_ge a L).
  pose proof (bblock_ge3 a nb (la_geo _ L)) as Hb3. pose proof Hff as (Hr & _). pose proof L as [G P M F Hh Hz].
  split; unfold a_balloc; rewrite ?dstart_update, ?sb_of_update by lia; try done.
  - apply geo_update; [lia|]. by apply geo_update; [lia|].
  - intros x Hx. fold (a_balloc nb a). rewrite used_balloc by (done || lia).
    rewrite M by done. apply orb_true_r.
  - intros x Hx. rewrite !home_update. by apply Hh.
Qed.

Lemma datablk_balloc a nb x :
  layout_ok a -> first_free a nb -> (forall x, length (a_view a x) = BSIZE) ->
  datablk a x -> datablk (a_balloc nb a) x.
Proof.
  intros L Hff Hlen (H1 & H2 & H3). pose proof (dstart_ge a L).
  pose proof (first_free_data _ _ L Hff) as Hd.
  pose proof (bblock_ge3 a nb (la_geo _ L)) as Hb3. destruct Hff as (Hr & Hff').
  assert (sb_of (a_balloc nb a) = sb_of a) as E.
  { unfold a_balloc. by rewrite !sb_of_update by lia. }
  unfold datablk. rewrite E. split; [|split].
  - unfold a_balloc. rewrite !dstart_update by lia. done.
  - unfold a_balloc. by rewrite !home_update.
  - pose proof (dstart_ge a L). rewrite used_balloc by (done || lia). rewrite H3. apply orb_true_r.
Qed.

(** balloc touches no block in use except the bitmap block. *)
Lemma view_balloc a nb x :
  x <> nb -> x <> bblock a nb -> a_view (a_balloc nb a) x = a_view a x.
Proof. intros H1 H2. unfold a_balloc. simpl. by rewrite !decide_False. Qed.

Lemma wp_bfree s H a b T k (Q : unit -> fstate -> Prop) :
  rep s H a -> txn a -> geo a -> fits T k a -> 0 <= b < sb_size (sb_of a) -> used a b = true ->
  bblock a b ∉ H.*2 -> 1 ∉ H.*2 -> (length H <= 2)%nat ->
  (forall s', rep s' H (a_update (bblock a b) (clear_bit (a_view a (bblock a b)) (bindex b)) a) ->
     Q tt s') ->
  wp (bfree 1 b) Q s.
Proof.
  intros R Tx G F Hb Hu Hbm H1 HH HQ. unfold bfree.
  apply wp_bind. eapply (txn_readsb s H a); try done; [apply G|]. intros s1 R1.
  fold (bblock a b). apply wp_bind. eapply (txn_read s1 H a); try done; [apply (ge_bitmap _ G _ Hb)|].
  intros i s2 R2. apply wp_bind, (wp_get_data R2 i (bblock a b)); [set_solver|].
  fold (bindex b). rewrite bit_free_bit. unfold used in Hu. rewrite Hu. cbn [negb].
  apply wp_bind, (wp_set_data R2 i (bblock a b)); [set_solver|by rewrite length_clear_bit; eapply rep_length|].
  intros s3 R3. eapply wp_log_and_release; [exact R3| | | | |apply Tx|done].
  - intros Hin. apply Hbm, list_elem_of_fmap. by exists (i, bblock a b).
  - exact (log_inv_set_view _ _ _ (tx_inv _ Tx)).
  - eapply (room_le 2); [exact (fits_room _ _ _ F (tx_inv _ Tx))|lia].
  - apply (ge_bitmap _ G _ Hb).
Qed.

(** ** Claims: the block allocator *)

(** [balloc] returns the first free block of the bitmap, zeroed; exactly
    that block becomes used, and no block changes except it and the bitmap
    block that records it. *)
Theorem balloc_first_free s a nb :
  rep s [] a -> txn a -> layout_ok a -> fits [] 2 a -> first_free a nb -> home a nb ->
  exists s' a', balloc 1 s = Ok nb s' /\ rep s' [] a' /\ txn a' /\ layout_ok a' /\
    view s' nb = zero_block /\
    (forall b, 0 <= b < sb_size (sb_of a) -> used a' b = (b =? nb) || used a b) /\
    (forall x, x <> nb -> x <> bblock a nb -> view s' x = view s x).
Proof.
  intros R Tx L F Hff Hh. pose proof (dstart_ge a L). pose proof (first_free_data _ _ L Hff) as Hd.
  assert (Hlen : forall x, length (a_view a x) = BSIZE) by (intros; by eapply rep_length).
  apply (fits_add [] 1 (bblock a nb)), (fits_add _ 0 nb) in F.
  pose proof (fits_room _ _ _ F (tx_inv _ Tx)) as Hr.
  assert (Hrun : wp (balloc 1) (fun r s' => r = nb /\ rep s' [] (a_balloc nb a)) s).
  { eapply (wp_balloc s [] a nb); try done; try exact (la_geo _ L); try apply Hh; try lia; set_solver. }
  apply wp_iff in Hrun as (r & s' & Hrun & -> & R').
  exists s', (a_balloc nb a). split; [done|]. split; [done|]. split; [|split; [|split; [|split]]].
  - apply txn_update; [apply txn_update; [done|by eapply room_le|]| |by rewrite home_update].
    + apply (ge_bitmap _ (la_geo _ L)). apply Hff.
    + apply room_logged, (room_le 2); [done|lia].
  - by apply layout_balloc.
  - rewrite (rp_view _ _ _ R'). simpl. by rewrite decide_True.
  - intros b Hb. by apply used_balloc.
  - intros x Hx1 Hx2. rewrite (rp_view _ _ _ R'), (rp_view _ _ _ R). by apply view_balloc.
Qed.

(** Freeing the block just allocated gives back the bitmap: [bfree]
    after [balloc] succeeds and leaves every block as it was except the freed
    one, which stays zero.  *)
Theorem bfree_after_balloc s a nb :
  rep s [] a -> txn a -> layout_ok a -> fits [] 2 a -> first_free a nb -> home a nb ->
  wp (do b <- balloc 1; bfree 1 b)
     (fun _ s' => forall x, view s' x = if decide (x = nb) then zero_block else view s x) s.
Proof.
  intros R Tx L F Hff Hh. pose proof (dstart_ge a L). pose proof (first_free_data _ _ L Hff) as Hd.
  assert (Hlen : forall x, length (a_view a x) = BSIZE) by (intros; by eapply rep_length).
  apply (fits_add [] 1 (bblock a nb)), (fits_add _ 0 nb) in F.
  pose proof (fits_room _ _ _ F (tx_inv _ Tx)) as Hr. pose proof Hff as (Hnb & Hfree & _).
  pose proof (ge_bitmap _ (la_geo _ L) nb Hnb) as Hbh.
  pose proof (bblock_lt_dstart a nb Hnb) as Hlt. pose proof (bblock_ge3 a nb (la_geo _ L)).
  apply wp_bind. eapply (wp_balloc s [] a nb); try done; try exact (la_geo _ L); try apply Hh; try lia; try set_solver.
  intros s1 R1. assert (Tx1 : txn (a_update (bblock a nb) (set_bit (a_view a (bblock a nb)) (bindex nb)) a))
    by (apply txn_update; [done|by eapply room_le|done]).
  assert (E : bblock (a_balloc nb a) nb = bblock a nb).
  { unfold bblock, a_balloc. by rewrite !sb_of_update by lia. }
  eapply (wp_bfree s1 [] (a_balloc nb a)); [exact R1| | | | | |set_solver|set_solver|simpl; lia|].
  - apply txn_update; [done| |by rewrite home_update]. apply room_logged, (room_le 2); [done|lia].
  - by apply layout_balloc.
  - apply fits_update; [apply fits_update; [exact F|apply Tx|set_solver]|apply Tx1|set_solver].
  - unfold a_balloc. by rewrite !sb_of_update by lia.
  - rewrite used_balloc by done. by rewrite Z.eqb_refl.
  - intros s2 R2 x. rewrite (rp_view _ _ _ R2), (rp_view _ _ _ R), E. simpl.
    destruct (decide (bblock a nb = nb)) as [|_]; [lia|]. rewrite (decide_True _ _ eq_refl).
    destruct (decide (x = bblock a nb)) as [->|Hx].
    + rewrite decide_False by lia. apply clear_set_bit; [apply bindex_byte, Hlen|exact Hfree].
    + done.
Qed.

(** [balloc] can hand out a block of the log.  The bitmap mkfs writes
    does not mark the log area, and the scan runs to the end of the disk: when
    every block before the log is in use the allocator returns the log's
    header block and adds it to the transaction it is part of. *)
Theorem balloc_takes_log_header s a :
  rep s [] a -> txn a -> layout_ok a -> fits [] 2 a ->
  l_start (a_log a) < sb_size (sb_of a) -> l_start (a_log a) < a_size a ->
  (forall b, 0 <= b < l_start (a_log a) -> used a b = true) ->
  used a (l_start (a_log a)) = false ->
  wp (balloc 1) (fun r s' => r = l_start (log s) /\ l_start (log s) ∈ lsecs (log s')) s.
Proof.
  intros R Tx L F Hs1 Hs2 Hbefore Hfree. set (nb := l_start (a_log a)) in *.
  assert (Hff : first_free a nb).
  { split; [|done]. pose proof (lo_start _ (li_ok _ (tx_inv _ Tx))). unfold nb in *. lia. }
  pose proof (dstart_ge a L). pose proof (first_free_data _ _ L Hff) as Hd.
  apply (fits_add [] 1 (bblock a nb)) in F.
  eapply (wp_balloc s [] a nb); try done; try exact (la_geo _ L); try lia; try set_solver.
  intros s' R'. rewrite (rp_log _ _ _ R). split; [done|]. rewrite (rp_log _ _ _ R').
  assert (Tx1 : txn (a_update (bblock a nb) (set_bit (a_view a (bblock a nb)) (bindex nb)) a)).
  { apply txn_update; [done| |apply (ge_bitmap _ (la_geo _ L)), Hff].
    eapply room_le; [exact (fits_room _ _ _ F (tx_inv _ Tx))|lia]. }
  change (a_log (a_balloc nb a)) with
    (logged nb (a_log (a_update (bblock a nb) (set_bit (a_view a (bblock a nb)) (bindex nb)) a))).
  rewrite lsecs_logged by apply Tx1. destruct (decide _); set_solver.
Qed.
