(* ===== verification/FileSpec.v ===== *)
(** * fs.c is correct: reading and writing files

    A file is the sequence of bytes found through the block map of its
    inode.  [readi] returns a piece of it and [writei] replaces one, growing
    the file and allocating blocks as needed. *)

From S2P Require Import Prelude Monad Locks FsState FsLayout Bio BlockSpec Log LogSpec Txn Fs Bitmap FsSpec.

Open Scope Z_scope.
Open Scope kernel_scope.

(** ** The block map *)

Definition fmap (a : ablk) (p : inode) (bn : Z) : Z :=
  if bn <? Z.of_nat NDIRECT then addr_of p (Z.to_nat bn)
  else if addr_of p NDIRECT =? 0 then 0
  else get_word (a_view a (addr_of p NDIRECT)) (Z.to_nat (bn - Z.of_nat NDIRECT)).

Definition in_map (bn : Z) : Prop := 0 <= bn < MAXFILE.

Record file_ok (a : ablk) (p : inode) : Prop := mkFileOk {
  fo_dev : i_dev p = 1;
  fo_len : length (i_addrs p) = 13%nat;
  fo_ind : addr_of p NDIRECT <> 0 -> datablk a (addr_of p NDIRECT);
  fo_data : forall bn, in_map bn -> fmap a p bn <> 0 -> datablk a (fmap a p bn);
  fo_inj : forall bn bn', in_map bn -> in_map bn' -> fmap a p bn = fmap a p bn' ->
    fmap a p bn <> 0 -> bn = bn';
  fo_noind : forall bn, in_map bn -> fmap a p bn <> 0 -> fmap a p bn <> addr_of p NDIRECT
}.

(** Byte [off] of the file. *)
Definition byte_at (a : ablk) (p : inode) (off : Z) : Z :=
  nth (Z.to_nat (off mod Z.of_nat BSIZE)) (a_view a (fmap a p (off / Z.of_nat BSIZE))) 0.

(** [n] bytes of the file from [off] on. *)
Definition fbytes (a : ablk) (p : inode) (off : Z) (n : nat) : list Z :=
  map (fun k => byte_at a p (off + Z.of_nat k)) (seq 0 n).

Lemma length_fbytes a p off n : length (fbytes a p off n) = n.
Proof. unfold fbytes. by rewrite length_map, length_seq. Qed.

Lemma fbytes_lookup a p off n k :
  (k < n)%nat -> fbytes a p off n !! k = Some (byte_at a p (off + Z.of_nat k)).
Proof.
  intros Hk. unfold fbytes. change (map ?f ?l) with (f <$> l). rewrite list_lookup_fmap.
  by rewrite lookup_seq_lt.
Qed.

Lemma fbytes_app a p off n m : fbytes a p off (n + m) = fbytes a p off n ++ fbytes a p (off + Z.of_nat n) m.
Proof.
  unfold fbytes. rewrite seq_app, map_app. f_equal.
  simpl.
  apply list_eq. intros k. change (map ?f ?l) with (f <$> l). rewrite !list_lookup_fmap.
  destruct (decide (k < m)%nat).
  - rewrite !lookup_seq_lt by done. simpl. f_equal. f_equal. lia.
  - rewrite !lookup_seq_ge by lia. done.
Qed.

(** A piece of one block is a piece of the file. *)
Lemma fbytes_block a p off m :
  0 <= off -> off mod Z.of_nat BSIZE + Z.of_nat m <= Z.of_nat BSIZE ->
  length (a_view a (fmap a p (off / Z.of_nat BSIZE))) = BSIZE ->
  slice (Z.to_nat (off mod Z.of_nat BSIZE)) m (a_view a (fmap a p (off / Z.of_nat BSIZE))) =
    fbytes a p off m.
Proof.
  intros Hoff Hm Hlen. unfold BSIZE in *. apply list_eq. intros k.
  destruct (decide (k < m)%nat) as [Hk|Hk].
  - rewrite lookup_slice. zif; [|lia]. rewrite fbytes_lookup by done. unfold byte_at, BSIZE.
    replace ((off + Z.of_nat k) / Z.of_nat 512) with (off / Z.of_nat 512) by zlia.
    replace (Z.to_nat ((off + Z.of_nat k) mod Z.of_nat 512)) with (Z.to_nat (off mod Z.of_nat 512) + k)%nat
      by zlia.
    apply lookup_nth. rewrite Hlen. zlia.
  - rewrite !lookup_ge_None_2; [done|rewrite length_fbytes; lia|].
    rewrite length_slice by (rewrite Hlen; zlia). lia.
Qed.

(** ** Inode cache entries *)

Lemma wp_get_inode s H a i p (Q : inode -> fstate -> Prop) :
  rep s H a -> a_icache a !! i = Some p -> Q p s -> wp (get_inode i) Q s.
Proof. intros R Hi HQ. unfold wp, get_inode. by rewrite (rp_icache _ _ _ R), Hi. Qed.

Definition a_put_inode (i : nat) (p : inode) (a : ablk) : ablk :=
  a_set_icache (<[i := p]> (a_icache a)) a.

Lemma wp_put_inode s H a i p (Q : unit -> fstate -> Prop) :
  rep s H a -> (forall s', rep s' H (a_put_inode i p a) -> Q tt s') -> wp (put_inode i p) Q s.
Proof.
  intros R HQ. unfold put_inode. apply wp_modify. rewrite (rp_icache _ _ _ R).
  by apply HQ, rep_set_icache.
Qed.

(** ** Reading *)

Lemma addr_present_direct s H a i p k (Q : Z -> fstate -> Prop) :
  rep s H a -> a_icache a !! i = Some p -> addr_of p k <> 0 -> Q (addr_of p k) s ->
  wp (addr_or_balloc i k) Q s.
Proof.
  intros R Hi Hk HQ. unfold addr_or_balloc. apply wp_bind, (wp_get_inode _ _ _ _ _ _ R Hi).
  zif; [lia|]. by apply wp_ret.
Qed.

Lemma wp_bmap_present s a i p bn T k (Q : Z -> fstate -> Prop) :
  rep s [] a -> txn a -> fits T k a -> a_icache a !! i = Some p -> file_ok a p ->
  in_map bn -> fmap a p bn <> 0 ->
  (forall s', rep s' [] a -> Q (fmap a p bn) s') -> wp (bmap i bn) Q s.
Proof.
  intros R Tx F Hi Fo Hbn Hne HQ. unfold bmap. unfold fmap in Hne, HQ.
  destruct (Z.ltb_spec bn (Z.of_nat NDIRECT)) as [Hd|Hd].
  - by eapply addr_present_direct; [..|apply HQ].
  - destruct (Z.eqb_spec (addr_of p NDIRECT) 0) as [|Hind]; [done|].
    cbv zeta. unfold in_map, MAXFILE, NINDIRECT in *. zif; [|unfold NDIRECT in *; lia].
    apply wp_bind. eapply addr_present_direct; [exact R|exact Hi|done|].
    apply wp_bind, (wp_get_inode _ _ _ _ _ _ R Hi). rewrite (fo_dev _ _ Fo).
    pose proof (fo_ind _ _ Fo Hind) as (_ & Hh & _).
    apply wp_bind. eapply (txn_read s [] a); try done; [apply Hh|set_solver|simpl; lia|].
    intros bp s1 R1. apply wp_bind, (wp_get_data R1 bp (addr_of p NDIRECT)); [set_solver|].
    apply wp_bind. zif; [lia|]. apply wp_ret.
    apply wp_bind. eapply read_release; [exact R1|done|set_solver| |].
    + eapply rep_synced; [exact R|set_solver].
    + intros s2 R2. by apply wp_ret, HQ.
Qed.

(** All blocks of the range are allocated. *)
Definition present (a : ablk) (p : inode) (off n : Z) : Prop :=
  forall x, off <= x < off + n -> in_map (x / Z.of_nat BSIZE) /\ fmap a p (x / Z.of_nat BSIZE) <> 0.

(** Turns the copy loops take for [n] bytes from [off] on. *)
Definition turns (off n : Z) : Z :=
  if n <=? 0 then 0 else (off + n - 1) / Z.of_nat BSIZE - off / Z.of_nat BSIZE + 1.

Lemma turns_step off n :
  0 <= off -> 0 < n -> let m := Z.min n (Z.of_nat BSIZE - off mod Z.of_nat BSIZE) in
  1 <= m /\ turns (off + m) (n - m) <= turns off n - 1.
Proof.
  intros Ho Hn m. unfold turns, BSIZE in *. change (Z.of_nat 512) with 512 in *.
  pose proof (Z.mod_pos_bound off 512 ltac:(lia)) as Hmod.
  pose proof (Z.div_mod off 512 ltac:(lia)) as Hdm. assert (1 <= m) by lia. split; [done|].
  pose proof (Z.div_le_mono off (off + n - 1) 512 ltac:(lia) ltac:(lia)).
  destruct (Z.leb_spec n 0); [lia|]. destruct (Z.leb_spec (n - m) 0); [lia|].
  assert (m = 512 - off mod 512) as -> by lia.
  replace (off + (512 - off mod 512)) with ((off / 512 + 1) * 512)
    by lia.
  rewrite Z.div_mul by lia.
  replace ((off / 512 + 1) * 512 + (n - (512 - off mod 512)) - 1) with (off + n - 1)
    by lia.
  lia.
Qed.

Lemma turns_fuel off n : 0 <= off -> 0 <= n -> turns off n < Z.of_nat (blocks_fuel n).
Proof. intros. unfold turns, blocks_fuel, BSIZE. zif; zlia. Qed.

Lemma wp_readi_loop s a i p n tot off dst T k fuel (Q : list Z -> fstate -> Prop) :
  rep s [] a -> txn a -> fits T k a -> a_icache a !! i = Some p -> file_ok a p ->
  0 <= tot <= n -> 0 <= off -> present a p off (n - tot) ->
  turns off (n - tot) < Z.of_nat fuel ->
  (forall s', rep s' [] a -> Q (dst ++ fbytes a p off (Z.to_nat (n - tot))) s') ->
  wp (readi_loop i n tot off dst fuel) Q s.
Proof.
  intros R Tx F Hi Fo. revert s tot off dst R.
  induction fuel as [|fuel IH]; intros s tot off dst R Htot Hoff Hp Hf HQ.
  { unfold turns, BSIZE in Hf. destruct (n - tot <=? 0); zlia. }
  cbn [readi_loop]. zif.
  - apply wp_bind, (wp_get_inode _ _ _ _ _ _ R Hi).
    destruct (Hp off) as [Hin Hnz]; [lia|].
    apply wp_bind. eapply (wp_bmap_present s a i p); try done. intros s1 R1.
    rewrite (fo_dev _ _ Fo). pose proof (fo_data _ _ Fo _ Hin Hnz) as (_ & Hh & _).
    apply wp_bind. eapply (txn_read s1 [] a); try done; [apply Hh|set_solver|simpl; lia|].
    intros bp s2 R2. cbv zeta.
    apply wp_bind, (wp_get_data R2 bp (fmap a p (off / Z.of_nat BSIZE))); [set_solver|].
    apply wp_bind. eapply read_release; [exact R2|done|set_solver| |].
    { eapply rep_synced; [exact R1|set_solver]. }
    intros s3 R3. destruct (turns_step off (n - tot) Hoff ltac:(lia)) as [Hm Ht].
    set (m := Z.min (n - tot) (Z.of_nat BSIZE - off mod Z.of_nat BSIZE)) in *.
    rewrite fbytes_block; [|done|unfold BSIZE in *; lia|by eapply rep_length].
    apply IH; try done; try lia.
    + intros x Hx. apply Hp. lia.
    + replace (n - (tot + m)) with (n - tot - m) by lia. lia.
    + intros s4 R4. rewrite <- app_assoc.
      replace (fbytes a p off (Z.to_nat m) ++ fbytes a p (off + m) (Z.to_nat (n - (tot + m))))
        with (fbytes a p off (Z.to_nat (n - tot))); [by apply HQ|].
      replace (Z.to_nat (n - tot)) with (Z.to_nat m + Z.to_nat (n - (tot + m)))%nat by lia.
      rewrite fbytes_app. f_equal. f_equal. lia.
  - apply wp_ret. replace (n - tot) with 0 in HQ by lia. specialize (HQ s R).
    by rewrite app_nil_r in HQ.
Qed.
