(* ===== verification/WriteSpec.v ===== *)
(** * fs.c is correct: allocating blocks for a file, and [writei]

    [bmap] extends the block map of a file by freshly allocated blocks and
    changes nothing else; [writei] replaces a range of the file's bytes. *)

From S2P Require Import Prelude Monad Locks FsState FsLayout Bio BlockSpec Log LogSpec Txn Fs Bitmap FsSpec FileSpec.

Open Scope Z_scope.
Open Scope kernel_scope.

(** ** Supply of free blocks *)

(** At least [k] free blocks lie before the log. *)
Definition avail (k : nat) (a : ablk) : Prop :=
  exists L, NoDup L /\ (k <= length L)%nat /\
    forall b, b ∈ L -> 0 <= b < sb_size (sb_of a) /\ b < l_start (a_log a) /\ used a b = false.

Lemma first_free_exists a b :
  0 <= b < sb_size (sb_of a) -> used a b = false -> exists nb, first_free a nb /\ nb <= b.
Proof.
  intros Hb Hu. set (f := fun j => negb (used a (Z.of_nat j))).
  destruct (find_idx f (seq 0 (Z.to_nat (sb_size (sb_of a))))) as [j|] eqn:E.
  - apply find_idx_Some in E as (x & Hx & Hf & Hbefore). apply lookup_seq in Hx as [-> Hj].
    rewrite Nat.add_0_l in *. exists (Z.of_nat j). split.
    + split; [lia|]. split; [unfold f in Hf; by destruct (used a (Z.of_nat j))|].
      intros b' Hb'. specialize (Hbefore (Z.to_nat b') (Z.to_nat b')).
      destruct (used a b') eqn:Eu; [done|]. unfold f in Hbefore. rewrite Z2Nat.id, Eu in Hbefore by lia.
      exfalso. cut (true = false); [done|]. apply Hbefore; [lia|]. rewrite lookup_seq_lt by lia. f_equal.
    + destruct (Z.le_gt_cases (Z.of_nat j) b) as [|Hc]; [done|].
      specialize (Hbefore (Z.to_nat b) (Z.to_nat b)). unfold f in Hbefore.
      rewrite Z2Nat.id, Hu in Hbefore by lia. exfalso. cut (true = false); [done|].
      apply Hbefore; [lia|]. rewrite lookup_seq_lt by lia. f_equal.
  - apply find_idx_None in E. eapply Forall_forall in E.
    + unfold f in E. rewrite <- (Z2Nat.id b) in Hu by lia. by rewrite Hu in E.
    + apply elem_of_seq. lia.
Qed.

Lemma avail_first a k :
  layout_ok a -> avail (S k) a ->
  exists nb, first_free a nb /\ home a nb /\ nb < l_start (a_log a).
Proof.
  intros L ([|b Lb] & _ & Hl & Hin); simpl in Hl; [lia|].
  destruct (Hin b) as (Hb & Hs & Hu); [set_solver|].
  destruct (first_free_exists a b Hb Hu) as (nb & Hff & Hle). exists nb.
  split; [done|]. split; [|lia]. pose proof (la_size _ L). destruct Hff as [Hr _].
  unfold home, in_log. lia.
Qed.

Lemma avail_balloc a nb k :
  layout_ok a -> first_free a nb -> (forall x, length (a_view a x) = BSIZE) ->
  avail (S k) a -> avail k (a_balloc nb a).
Proof.
  intros L Hff Hlen (Lb & Hnd & Hl & Hin). pose proof (dstart_ge a L).
  pose proof (first_free_data _ _ L Hff) as Hd. pose proof (bblock_ge3 a nb (la_geo _ L)) as H3.
  assert (Hr : 0 <= nb) by (destruct Hff; lia).
  assert (E : sb_of (a_balloc nb a) = sb_of a) by (unfold a_balloc; by rewrite !sb_of_update by lia).
  exists (filter (fun b => b <> nb) Lb). split; [by apply NoDup_filter|]. split.
  - assert (length Lb <= S (length (filter (fun b => b <> nb) Lb)))%nat; [|lia].
    change (S (length ?l)) with (length (nb :: l)).
    apply submseteq_length, NoDup_submseteq; [done|]. intros b Hb.
    destruct (decide (b = nb)) as [->|]; [set_solver|]. apply elem_of_cons. right.
    by apply list_elem_of_filter.
  - intros b Hb. apply list_elem_of_filter in Hb as [Hne Hb]. destruct (Hin b Hb) as (H1 & H2 & H4).
    rewrite E. split; [done|]. split.
    + unfold a_balloc. simpl.
      destruct (logged_geometry nb (logged (bblock a nb) (a_log a))) as (-> & _).
      by destruct (logged_geometry (bblock a nb) (a_log a)) as (-> & _).
    + rewrite used_balloc by done. rewrite H4. destruct (Z.eqb_spec b nb); done.
Qed.

Lemma avail_le k k' a : avail k a -> (k' <= k)%nat -> avail k' a.
Proof. intros (L & H1 & H2 & H3) Hle. exists L. split; [done|]. split; [lia|done]. Qed.

Lemma avail_update sec d a k : nonbm a sec -> avail k a -> avail k (a_update sec d a).
Proof.
  intros Hn (L & H1 & H2 & H3). pose proof Hn as [Hs _]. exists L. split; [done|]. split; [done|].
  intros b Hb. destruct (H3 b Hb) as (H4 & H5 & H6). rewrite sb_of_update by done.
  split; [done|]. split; [|by rewrite used_update].
  simpl. by destruct (logged_geometry sec (a_log a)) as (-> & _).
Qed.

(** ** Operations on the inode cache leave the blocks alone *)

Section put_inode.
Context (i : nat) (p : inode) (a : ablk).

Lemma txn_put_inode : txn a -> txn (a_put_inode i p a).
Proof. intros [[[] ? ?] ?]. by repeat (split; try done). Qed.

Lemma layout_put_inode : layout_ok a -> layout_ok (a_put_inode i p a).
Proof. intros [[] ? ? ? ? ?]. by repeat (split; try done). Qed.

Lemma file_ok_put_inode q : file_ok a q -> file_ok (a_put_inode i p a) q.
Proof. intros []. by split. Qed.
End put_inode.

(** ** The state in which a file is written *)

(** [T]: the sectors already paid for, the bitmap among them; [k] more may be
    logged and [v] blocks allocated. *)
Record wctx (T : list Z) (k v : nat) (a : ablk) : Prop := mkWctx {
  wc_txn : txn a;
  wc_lay : layout_ok a;
  wc_fits : fits T k a;
  wc_avail : avail v a;
  wc_bm : forall b, 0 <= b < sb_size (sb_of a) -> bblock a b ∈ T
}.

Lemma wctx_put_inode T k v i p a : wctx T k v a -> wctx T k v (a_put_inode i p a).
Proof.
  intros [Tx L F A B]. split; [by apply txn_put_inode|by apply layout_put_inode|done|done|done].
Qed.

Lemma wctx_update T k v a sec d :
  wctx T k v a -> sec ∈ T -> home a sec -> nonbm a sec -> wctx T k v (a_update sec d a).
Proof.
  intros [Tx L F A B] Hs Hh Hn. split.
  - apply txn_update; [done| |done]. eapply room_le; [exact (fits_room _ _ _ F (tx_inv _ Tx))|lia].
  - by apply layout_update.
  - apply fits_update; [done|apply Tx|done].
  - by apply avail_update.
  - intros b. unfold bblock. rewrite sb_of_update by apply Hn. apply B.
Qed.

Lemma wctx_add T k v a sec : wctx T (S k) v a -> wctx (sec :: T) k v a.
Proof.
  intros [Tx L F A B]. split; [done|done|by apply fits_add|done|]. intros b Hb.
  apply elem_of_cons. right. by apply B.
Qed.

Lemma wctx_le T k v k' v' a : wctx T k v a -> (k' <= k)%nat -> (v' <= v)%nat -> wctx T k' v' a.
Proof.
  intros [Tx L F A B] Hk Hv. split; [done|done|by eapply fits_weaken|by eapply avail_le|done].
Qed.

Lemma wctx_balloc T k v a nb :
  wctx T k (S v) a -> (forall x, length (a_view a x) = BSIZE) -> first_free a nb -> home a nb ->
  nb ∈ T -> wctx T k v (a_balloc nb a) /\ datablk (a_balloc nb a) nb.
Proof.
  intros [Tx L F A B] Hlen Hff Hh HT. pose proof (dstart_ge a L).
  pose proof (first_free_data _ _ L Hff) as Hd. pose proof (bblock_ge3 a nb (la_geo _ L)) as H3.
  pose proof Hff as (Hr & _). pose proof (fits_room _ _ _ F (tx_inv _ Tx)) as Hroom.
  assert (E : sb_of (a_balloc nb a) = sb_of a) by (unfold a_balloc; by rewrite !sb_of_update by lia).
  assert (Tx1 : txn (a_update (bblock a nb) (set_bit (a_view a (bblock a nb)) (bindex nb)) a)).
  { apply txn_update; [done|by eapply room_le|]. by apply (ge_bitmap _ (la_geo _ L)). }
  assert (F1 : fits T k (a_update (bblock a nb) (set_bit (a_view a (bblock a nb)) (bindex nb)) a)).
  { apply fits_update; [done|apply Tx|by apply B]. }
  split; [split|].
  - apply txn_update; [done| |by rewrite home_update].
    eapply room_le; [exact (fits_room _ _ _ F1 (tx_inv _ Tx1))|lia].
  - by apply layout_balloc.
  - apply fits_update; [done|apply Tx1|done].
  - by apply avail_balloc.
  - intros b. unfold bblock. rewrite E. apply B.
  - split; [|split].
    + rewrite E. unfold a_balloc. rewrite !dstart_update by lia. lia.
    + unfold a_balloc. by rewrite !home_update.
    + rewrite used_balloc by done. by rewrite Z.eqb_refl.
Qed.

(** Allocating while at most one data block is held. *)
Lemma wp_balloc_ctx s H a T k v (Q : Z -> fstate -> Prop) :
  rep s H a -> wctx T (S k) (S v) a -> (length H <= 1)%nat ->
  (forall x, x ∈ H.*2 -> datablk a x) ->
  (forall nb s', first_free a nb -> home a nb -> rep s' H (a_balloc nb a) ->
     wctx (nb :: T) k v (a_balloc nb a) -> datablk (a_balloc nb a) nb -> Q nb s') ->
  wp (balloc 1) Q s.
Proof.
  intros R W HH Hheld HQ. pose proof W as [Tx L F A B].
  destruct (avail_first a v L A) as (nb & Hff & Hh & _).
  assert (Hlen : forall x, length (a_view a x) = BSIZE) by (intros; by eapply rep_length).
  apply (wctx_add _ _ _ _ nb) in W. pose proof (wctx_balloc _ _ _ _ nb W Hlen Hff Hh ltac:(set_solver)) as [W' D'].
  pose proof (dstart_ge a L). pose proof (first_free_data _ _ L Hff) as Hd.
  eapply (wp_balloc s H a nb); try done; try lia.
  - apply L.
  - apply B, Hff.
  - apply Hh.
  - intros Hin. destruct (Hheld _ Hin) as (_ & _ & Hu). destruct Hff as (_ & Hf & _). congruence.
  - intros b Hb Hin. destruct (Hheld _ Hin) as (Hx & _). pose proof (bblock_lt_dstart a b Hb). lia.
  - intros Hin. destruct (Hheld _ Hin) as (Hx & _). lia.
  - intros s' R'. by eapply HQ.
Qed.

(** ** Extending the block map *)

Lemma u32_block a x : layout_ok a -> 0 <= x < sb_size (sb_of a) -> u32 x = x.
Proof. intros L Hx. pose proof (la_size _ L). apply u32_small. lia. Qed.

(** The blocks of the file keep their content when a block is allocated. *)
Lemma view_balloc_data a nb x :
  layout_ok a -> first_free a nb -> datablk a x -> a_view (a_balloc nb a) x = a_view a x.
Proof.
  intros L Hff (Hx & _ & Hu). destruct Hff as (Hr & Hf & _).
  apply view_balloc; [intros ->; congruence|]. pose proof (bblock_lt_dstart a nb Hr). lia.
Qed.

(** One new block in the map. *)
Lemma file_ok_add a p a' p' bn nb :
  file_ok a p -> (forall x, datablk a x -> datablk a' x) -> datablk a' nb -> used a nb = false ->
  i_dev p' = 1 -> length (i_addrs p') = 13%nat -> addr_of p' NDIRECT = addr_of p NDIRECT ->
  (forall bn', in_map bn' -> fmap a' p' bn' = if decide (bn' = bn) then nb else fmap a p bn') ->
  file_ok a' p'.
Proof.
  intros Fo Hd Hnb Hu Hdev Hl Hi Hm.
  assert (Hold : forall x, datablk a x -> x <> nb) by (intros x (_ & _ & Hx) ->; congruence).
  split; try done.
  - rewrite Hi. intros H0. by apply Hd, (fo_ind _ _ Fo).
  - intros x Hx. rewrite Hm by done. destruct (decide (x = bn)); [done|]. intros H0. by apply Hd, (fo_data _ _ Fo).
  - intros x y Hx Hy. rewrite !Hm by done. destruct (decide (x = bn)), (decide (y = bn)); subst; try done.
    + intros E H0. rewrite E in H0. exfalso. by apply (Hold (fmap a p y)); [apply (fo_data _ _ Fo)|].
    + intros E H0. exfalso. by apply (Hold (fmap a p x)); [apply (fo_data _ _ Fo)|].
    + by apply (fo_inj _ _ Fo).
  - intros x Hx. rewrite Hm by done. rewrite Hi. destruct (decide (x = bn)).
    + intros H0 E. destruct (decide (addr_of p NDIRECT = 0)) as [E0|E0]; [congruence|].
      by apply (Hold (addr_of p NDIRECT)); [apply (fo_ind _ _ Fo)|].
    + by apply (fo_noind _ _ Fo).
Qed.

(** A fresh indirect block, whose entries are all zero. *)
Lemma file_ok_indirect a p a' p' nb :
  file_ok a p -> (forall x, datablk a x -> datablk a' x) -> datablk a' nb -> used a nb = false ->
  i_dev p' = 1 -> length (i_addrs p') = 13%nat -> addr_of p' NDIRECT = nb ->
  (forall bn', in_map bn' -> fmap a' p' bn' = fmap a p bn') -> file_ok a' p'.
Proof.
  intros Fo Hd Hnb Hu Hdev Hl Hi Hm.
  assert (Hold : forall x, datablk a x -> x <> nb) by (intros x (_ & _ & Hx) ->; congruence).
  split; try done.
  - by rewrite Hi.
  - intros x Hx. rewrite Hm by done. intros H0. by apply Hd, (fo_data _ _ Fo).
  - intros x y Hx Hy. rewrite !Hm by done. by apply (fo_inj _ _ Fo).
  - intros x Hx. rewrite Hm, Hi by done. intros H0. by apply Hold, (fo_data _ _ Fo).
Qed.

Definition set_addr_of (k : nat) (v : Z) (p : inode) : inode := with_addrs (<[k := v]> (i_addrs p)) p.

Lemma addr_of_set k v p j :
  (k < length (i_addrs p))%nat ->
  addr_of (set_addr_of k v p) j = if decide (j = k) then v else addr_of p j.
Proof.
  intros Hk. unfold addr_of, set_addr_of. simpl. rewrite !nth_lookup. case_decide as E.
  - subst. by rewrite list_lookup_insert_eq.
  - by rewrite list_lookup_insert_ne.
Qed.

(** One more block is needed while the file has no indirect block. *)
Definition ind (p : inode) : nat := if addr_of p NDIRECT =? 0 then 1 else 0.

(** The state and inode [a', p'] after the block map of [a, p] was extended so
    that block [bn] is at [addr]. *)
Record extended (i : nat) (bn addr : Z) (a : ablk) (p : inode) (a' : ablk) (p' : inode) : Prop :=
mkExt {
  ex_icache : a_icache a' = <[i := p']> (a_icache a);
  ex_fields : p' = with_addrs (i_addrs p') p;
  ex_file : file_ok a' p';
  ex_at : fmap a' p' bn = addr /\ addr <> 0;
  ex_keep : fmap a p bn <> 0 -> addr = fmap a p bn;
  ex_other : forall bn', in_map bn' -> bn' <> bn -> fmap a' p' bn' = fmap a p bn';
  ex_view : forall x, 0 <= x < sb_size (sb_of a) -> used a x = true -> nonbm a x ->
    x <> addr_of p' NDIRECT -> a_view a' x = a_view a x;
  ex_sb : sb_of a' = sb_of a;
  ex_data : forall x, datablk a x -> datablk a' x;
  ex_home : forall x, home a' x <-> home a x;
  ex_ind : addr_of p NDIRECT <> 0 -> addr_of p' NDIRECT = addr_of p NDIRECT;
  ex_new : addr_of p' NDIRECT <> 0 ->
    addr_of p' NDIRECT = addr_of p NDIRECT \/ used a (addr_of p' NDIRECT) = false;
  ex_fresh : fmap a p bn = 0 -> used a addr = false;
  ex_used : forall x, 0 <= x < sb_size (sb_of a) -> used a x = true -> used a' x = true;
  ex_same : fmap a p bn <> 0 -> p' = p
}.

Lemma nonbm_data a x : layout_ok a -> datablk a x -> nonbm a x.
Proof. intros L (H & _). apply data_nonbm; [done|lia]. Qed.

(** Nothing was missing. *)
Lemma extended_refl i bn a p :
  a_icache a !! i = Some p -> file_ok a p -> fmap a p bn <> 0 ->
  extended i bn (fmap a p bn) a p a p.
Proof.
  intros Hi Fo Hne. split; try done.
  - by rewrite list_insert_id.
  - by destruct p.
  - by left.
Qed.

(** A block [nb] was allocated for entry [k] of [addrs]. *)
Definition a_alloc (i k : nat) (nb : Z) (p : inode) (a : ablk) : ablk :=
  a_put_inode i (set_addr_of k nb p) (a_balloc nb a).

Lemma sb_of_balloc a nb : layout_ok a -> first_free a nb -> sb_of (a_balloc nb a) = sb_of a.
Proof.
  intros L Hff. pose proof (first_free_data _ _ L Hff). pose proof (dstart_ge a L).
  pose proof (bblock_ge3 a nb (la_geo _ L)). unfold a_balloc. by rewrite !sb_of_update by lia.
Qed.

Lemma view_alloc_used i k nb p a x :
  layout_ok a -> first_free a nb -> 0 <= x < sb_size (sb_of a) -> used a x = true -> nonbm a x ->
  a_view (a_alloc i k nb p a) x = a_view a x.
Proof.
  intros L (Hr & Hf & _) Hx Hu [_ Hn]. apply view_balloc; [intros ->; congruence|].
  intros ->. by apply (Hn nb Hr).
Qed.

Lemma used_alloc i k nb p a x :
  layout_ok a -> first_free a nb -> (forall x, length (a_view a x) = BSIZE) ->
  0 <= x < sb_size (sb_of a) -> used a x = true -> used (a_alloc i k nb p a) x = true.
Proof.
  intros L Hff Hlen Hx Hu. change (used (a_balloc nb a) x = true).
  rewrite used_balloc by done. rewrite Hu. apply orb_true_r.
Qed.

Lemma wp_addr_absent s a i p k T kk v (Q : Z -> fstate -> Prop) :
  rep s [] a -> wctx T (S kk) (S v) a -> a_icache a !! i = Some p -> i_dev p = 1 ->
  addr_of p k = 0 ->
  (forall nb s', first_free a nb -> rep s' [] (a_alloc i k nb p a) ->
     wctx (nb :: T) kk v (a_alloc i k nb p a) -> datablk (a_alloc i k nb p a) nb ->
     (forall x, datablk a x -> datablk (a_alloc i k nb p a) x) ->
     (forall x, home (a_alloc i k nb p a) x <-> home a x) -> Q nb s') ->
  wp (addr_or_balloc i k) Q s.
Proof.
  intros R W Hi Hdev H0 HQ. unfold addr_or_balloc. apply wp_bind, (wp_get_inode _ _ _ _ _ _ R Hi).
  rewrite H0, Hdev. cbn [Z.eqb]. apply wp_bind.
  eapply (wp_balloc_ctx s [] a); try done; [simpl; lia|set_solver|].
  intros nb s1 Hff Hh R1 W1 D1. apply wp_bind. unfold set_addr.
  apply wp_bind, (wp_get_inode _ _ _ _ _ _ R1 Hi), (wp_put_inode _ _ _ _ _ _ R1). intros s2 R2.
  apply wp_ret. apply (HQ nb); try done.
  - by apply wctx_put_inode.
  - intros x Hx. apply datablk_balloc; [apply W|done|intros; by eapply rep_length|done].
  - intros x. unfold a_alloc, a_balloc.
    change (home (a_put_inode i ?q ?b) x) with (home b x). by rewrite !home_update.
Qed.

Lemma fmap_alloc_direct i k nb p a bn' :
  layout_ok a -> first_free a nb -> file_ok a p -> (k < NDIRECT)%nat -> in_map bn' ->
  fmap (a_alloc i k nb p a) (set_addr_of k nb p) bn' =
    if decide (bn' = Z.of_nat k) then nb else fmap a p bn'.
Proof.
  intros L Hff Fo Hk Hbn. unfold in_map, NDIRECT in *. unfold fmap.
  rewrite !addr_of_set by (rewrite (fo_len _ _ Fo); unfold NDIRECT; lia). unfold NDIRECT.
  rewrite (decide_False (P := 12%nat = k)) by lia.
  destruct (Z.ltb_spec bn' (Z.of_nat 12)).
  - destruct (decide (bn' = Z.of_nat k)) as [->|]; [by rewrite decide_True by lia|].
    by rewrite decide_False by lia.
  - rewrite decide_False by lia. destruct (Z.eqb_spec (addr_of p 12) 0); [done|].
    f_equal. apply view_balloc_data; [done|done|]. by apply (fo_ind _ _ Fo).
Qed.

Lemma fmap_alloc_indirect i nb p a bn' :
  layout_ok a -> first_free a nb -> file_ok a p -> addr_of p NDIRECT = 0 -> in_map bn' ->
  fmap (a_alloc i NDIRECT nb p a) (set_addr_of NDIRECT nb p) bn' = fmap a p bn'.
Proof.
  intros L Hff Fo H0 Hbn. pose proof (first_free_data _ _ L Hff). pose proof (dstart_ge a L).
  unfold in_map, MAXFILE, NDIRECT in *. unfold fmap.
  rewrite !addr_of_set by (rewrite (fo_len _ _ Fo); unfold NDIRECT; lia). unfold NDIRECT.
  rewrite (decide_True (P := 12%nat = 12%nat)) by done. rewrite H0. change (0 =? 0) with true. cbv iota.
  destruct (Z.ltb_spec bn' (Z.of_nat 12)); [by rewrite decide_False by lia|].
  zif; [done|]. unfold a_alloc, a_balloc. simpl a_view. rewrite decide_True by done.
  unfold get_word. set (j := (4 * _)%nat).
  assert (Hz : slice j 4 zero_block = repeat 0 4); [|by rewrite Hz].
  apply list_eq. intros t. rewrite lookup_slice. destruct (Nat.ltb_spec t 4).
  - assert (Hj : (j + t < 512)%nat) by (unfold j; lia).
    change zero_block with (repeat 0 512).
    change (repeat 0 ?n) with (replicate n 0). rewrite !lookup_replicate_2 by lia. done.
  - symmetry. apply lookup_ge_None. by simpl.
Qed.

(** A direct block that is missing. *)
Lemma extended_direct i k nb p a :
  layout_ok a -> first_free a nb -> file_ok a p -> (k < NDIRECT)%nat -> fmap a p (Z.of_nat k) = 0 ->
  datablk (a_alloc i k nb p a) nb -> (forall x, length (a_view a x) = BSIZE) ->
  (forall x, datablk a x -> datablk (a_alloc i k nb p a) x) ->
  (forall x, home (a_alloc i k nb p a) x <-> home a x) ->
  extended i (Z.of_nat k) nb a p (a_alloc i k nb p a) (set_addr_of k nb p).
Proof.
  intros L Hff Fo Hk H0 D Hlv Hd Hh. pose proof (first_free_data _ _ L Hff). pose proof (dstart_ge a L).
  assert (Hlen : (k < length (i_addrs p))%nat) by (rewrite (fo_len _ _ Fo); unfold NDIRECT in *; lia).
  assert (Hi : addr_of (set_addr_of k nb p) NDIRECT = addr_of p NDIRECT).
  { rewrite addr_of_set by done. by rewrite decide_False by lia. }
  assert (Hm : forall bn', in_map bn' -> fmap (a_alloc i k nb p a) (set_addr_of k nb p) bn' =
                 if decide (bn' = Z.of_nat k) then nb else fmap a p bn')
    by (intros; by apply fmap_alloc_direct).
  assert (Hin : in_map (Z.of_nat k)) by (unfold in_map, MAXFILE, NDIRECT in *; lia).
  split; try done.
  - apply (file_ok_add a p _ _ (Z.of_nat k) nb); try done; [apply Hff|apply Fo|].
    simpl. rewrite length_insert. apply Fo.
  - rewrite Hm by done. rewrite decide_True by done. split; [done|lia].
  - intros bn' Hb Hne. rewrite Hm by done. by rewrite decide_False.
  - intros x Hx Hu Hn _. by apply view_alloc_used.
  - by apply sb_of_balloc.
  - by rewrite Hi; left.
  - intros _. apply Hff.
  - intros x Hx Hu. by apply used_alloc.
Qed.

(** Entry [j] of the indirect block gets block [nb]. *)
Lemma fmap_put_word a p j nb bn' :
  layout_ok a -> file_ok a p -> addr_of p NDIRECT <> 0 -> 0 <= j < NINDIRECT ->
  0 <= nb < sb_size (sb_of a) -> length (a_view a (addr_of p NDIRECT)) = BSIZE -> in_map bn' ->
  fmap (a_update (addr_of p NDIRECT) (put_word (a_view a (addr_of p NDIRECT)) (Z.to_nat j) nb) a) p bn' =
    if decide (bn' = j + Z.of_nat NDIRECT) then nb else fmap a p bn'.
Proof.
  intros L Fo Hind Hj Hnb Hlen Hbn. unfold in_map, MAXFILE, NINDIRECT, BSIZE in *. unfold fmap.
  destruct (Z.ltb_spec bn' (Z.of_nat NDIRECT)); [by rewrite decide_False by lia|].
  destruct (Z.eqb_spec (addr_of p NDIRECT) 0); [done|]. simpl a_view.
  rewrite (decide_True (P := addr_of p NDIRECT = addr_of p NDIRECT)) by done.
  destruct (decide (bn' = j + Z.of_nat NDIRECT)) as [->|Hne].
  - replace (j + Z.of_nat NDIRECT - Z.of_nat NDIRECT) with j by lia.
    rewrite get_put_word by lia. by eapply u32_block.
  - apply get_put_word_other; [lia|]. unfold NDIRECT in *. lia.
Qed.

(** The part of bmap that looks into the indirect block. *)
Definition bmap_entry (i : nat) (addr j : Z) : M fstate Z :=
  do p <- get_inode i;
  do bp <- bread (i_dev p) addr;
  do a <- get_data bp;
  do addr <-
    (if get_word a (Z.to_nat j) =? 0 then
       do addr <- balloc (i_dev p);
       (do a <- get_data bp; set_data bp (put_word a (Z.to_nat j) addr)) ;;
       log_write bp ;;
       ret addr
     else ret (get_word a (Z.to_nat j)));
  brelse bp ;;
  ret addr.

Lemma fmap_entry a p j :
  addr_of p NDIRECT <> 0 -> 0 <= j ->
  fmap a p (j + Z.of_nat NDIRECT) = get_word (a_view a (addr_of p NDIRECT)) (Z.to_nat j).
Proof.
  intros H0 Hj. unfold fmap. zif; [lia|]. zif; [lia|]. f_equal. lia.
Qed.

(** Filling entry [j] with a freshly allocated block. *)
Lemma extended_entry i j nb p a :
  let ia := addr_of p NDIRECT in
  let b := a_balloc nb a in
  let a' := a_update ia (put_word (a_view a ia) (Z.to_nat j) nb) b in
  layout_ok a -> layout_ok b -> (forall x, length (a_view a x) = BSIZE) ->
  first_free a nb -> file_ok a p -> a_icache a !! i = Some p -> ia <> 0 ->
  0 <= j < NINDIRECT -> fmap a p (j + Z.of_nat NDIRECT) = 0 -> datablk b nb ->
  (forall x, datablk a x -> datablk b x) ->
  extended i (j + Z.of_nat NDIRECT) nb a p a' p.
Proof.
  intros ia b a' L Lb Hlen Hff Fo Hi Hia Hj H0 D Hd.
  pose proof (first_free_data _ _ L Hff). pose proof (dstart_ge a L). pose proof Hff as (Hr & Hf & _).
  pose proof (fo_ind _ _ Fo Hia) as Dia. pose proof (sb_of_balloc _ _ L Hff) as Esb. fold b in Esb.
  assert (Nia : nonbm b ia) by (by apply nonbm_data, Hd).
  assert (Eia : a_view b ia = a_view a ia) by (by apply view_balloc_data).
  assert (Fb : file_ok b p).
  { destruct Fo as [F1 F2 F3 F4 F5 F6]. split; try done.
    all: assert (Hm : forall bn, fmap b p bn = fmap a p bn)
      by (intros bn; unfold fmap; fold ia; by rewrite Eia).
    - intros. by apply Hd, F3.
    - intros bn. rewrite Hm. intros. by apply Hd, F4.
    - intros bn bn'. rewrite !Hm. apply F5.
    - intros bn. rewrite Hm. apply F6. }
  assert (Hm : forall bn', in_map bn' -> fmap a' p bn' =
                 if decide (bn' = j + Z.of_nat NDIRECT) then nb else fmap a p bn').
  { intros bn' Hb. unfold a'. rewrite <- Eia. unfold ia at 1 2.
    rewrite fmap_put_word; try done; [|by rewrite Esb|fold ia; by rewrite Eia].
    case_decide; [done|]. unfold fmap. fold ia. by rewrite Eia. }
  assert (Hin : in_map (j + Z.of_nat NDIRECT))
    by (unfold in_map, MAXFILE, NDIRECT, NINDIRECT in *; lia).
  split; try done.
  - simpl. by rewrite list_insert_id.
  - by destruct p.
  - apply (file_ok_add a p _ _ (j + Z.of_nat NDIRECT) nb); try done; try apply Fo.
    + intros x Hx. by apply datablk_update, Hd.
    + by apply datablk_update.
  - rewrite Hm by done. rewrite decide_True by done. split; [done|lia].
  - intros bn' Hb Hne. rewrite Hm by done. by rewrite decide_False.
  - intros x Hx Hu Hn Hne. unfold a'. simpl. rewrite decide_False by done.
    apply (view_alloc_used i 0 nb p); done.
  - unfold a'. rewrite sb_of_update; [done|]. apply Nia.
  - intros x Hx. by apply datablk_update, Hd.
  - intros x. unfold a'. rewrite home_update. unfold b, a_balloc. by rewrite !home_update.
  - by left.
  - intros x Hx Hu. unfold a'. rewrite used_update; [|done|by rewrite Esb].
    by apply (used_alloc i 0 nb p).
Qed.

Lemma wp_bmap_entry s a i p j T k v (Q : Z -> fstate -> Prop) :
  rep s [] a -> wctx T (S k) (S v) a -> a_icache a !! i = Some p -> file_ok a p ->
  addr_of p NDIRECT <> 0 -> addr_of p NDIRECT ∈ T -> 0 <= j < NINDIRECT ->
  (forall addr s' a' T', rep s' [] a' -> extended i (j + Z.of_nat NDIRECT) addr a p a' p ->
     wctx T' k v a' -> T ⊆ T' -> addr ∈ T' -> Q addr s') ->
  wp (bmap_entry i (addr_of p NDIRECT) j) Q s.
Proof.
  intros R W Hi Fo Hia HT Hj HQ. set (ia := addr_of p NDIRECT) in *. unfold bmap_entry.
  pose proof W as [Tx L F A B]. pose proof (fo_ind _ _ Fo Hia) as Dia. fold ia in Dia.
  apply wp_bind, (wp_get_inode _ _ _ _ _ _ R Hi). rewrite (fo_dev _ _ Fo).
  apply wp_bind. eapply (txn_read s [] a); try done; [apply Dia|set_solver|simpl; lia|].
  intros bp s1 R1. apply wp_bind, (wp_get_data R1 bp ia); [set_solver|].
  pose proof (fmap_entry a p j Hia ltac:(lia)) as Hfe. fold ia in Hfe. rewrite <- Hfe.
  assert (Hlen : forall x, length (a_view a x) = BSIZE) by (intros; by eapply rep_length).
  destruct (Z.eqb_spec (fmap a p (j + Z.of_nat NDIRECT)) 0) as [H0|H0].
  - apply wp_bind, wp_bind. eapply (wp_balloc_ctx s1 [(bp, ia)] a); try done.
    { intros x Hx. assert (x = ia) as -> by set_solver. done. }
    intros nb s2 Hff Hh R2 W2 D2. pose proof Hff as (Hr & _).
    assert (Eia : a_view (a_balloc nb a) ia = a_view a ia) by (by apply view_balloc_data).
    apply wp_bind, wp_bind, (wp_get_data R2 bp ia); [set_solver|]. rewrite Eia.
    apply (wp_set_data R2 bp ia); [set_solver| |].
    { rewrite length_put_word; rewrite Hlen; [done|]. unfold BSIZE, NINDIRECT in *. lia. }
    intros s3 R3. set (d := put_word (a_view a ia) (Z.to_nat j) nb) in *.
    assert (Hd : forall x, datablk a x -> datablk (a_balloc nb a) x)
      by (intros; by apply datablk_balloc).
    assert (W3 : wctx (nb :: T) k v (a_update ia d (a_balloc nb a))).
    { apply wctx_update; [done|set_solver|apply (Hd _ Dia)|].
      apply nonbm_data; [apply W2|by apply Hd]. }
    pose proof W2 as [Tx2 L2 F2 _ _].
    apply wp_bind, (wp_log_write _ _ _ bp ia _ R3); [set_solver| | | | |].
    { exact (log_inv_set_view _ _ _ (tx_inv _ Tx2)). }
    { eapply (room_le 2); [exact (fits_room _ _ _ F2 (tx_inv _ Tx2))|lia]. }
    { apply (Hd _ Dia). }
    { exact (tx_out _ Tx2). }
    intros s4 R4. apply wp_ret. apply wp_bind. eapply read_release; [exact R4|apply W3|set_solver| |].
    { apply synced_logged. exact (li_ok _ (log_inv_set_view _ _ _ (tx_inv _ Tx2))). }
    intros s5 R5. apply wp_ret. eapply (HQ nb s5 _ (nb :: T)); [exact R5| |exact W3|set_solver|set_solver].
    apply extended_entry; try done.
  - apply wp_bind, wp_ret. apply wp_bind. eapply read_release; [exact R1|done|set_solver| |].
    { eapply rep_synced; [exact R|set_solver]. }
    intros s2 R2. apply wp_ret.
    eapply (HQ _ s2 a (fmap a p (j + Z.of_nat NDIRECT) :: T)); [done| | |set_solver|set_solver].
    + by apply extended_refl.
    + eapply wctx_le; [by apply wctx_add|lia|lia].
Qed.

(** A file without an indirect block gets an empty one. *)
Lemma alloc_indirect_file i nb p a :
  layout_ok a -> first_free a nb -> file_ok a p -> addr_of p NDIRECT = 0 ->
  datablk (a_alloc i NDIRECT nb p a) nb ->
  (forall x, datablk a x -> datablk (a_alloc i NDIRECT nb p a) x) ->
  file_ok (a_alloc i NDIRECT nb p a) (set_addr_of NDIRECT nb p) /\
  addr_of (set_addr_of NDIRECT nb p) NDIRECT = nb.
Proof.
  intros L Hff Fo H0 D Hd. pose proof (first_free_data _ _ L Hff). pose proof (dstart_ge a L).
  assert (Hi : addr_of (set_addr_of NDIRECT nb p) NDIRECT = nb).
  { rewrite addr_of_set by (rewrite (fo_len _ _ Fo); unfold NDIRECT; lia). by rewrite decide_True. }
  split; [|done]. apply (file_ok_indirect a p _ _ nb); try done.
  - apply Hff.
  - apply Fo.
  - simpl. rewrite length_insert. apply Fo.
  - intros. by apply fmap_alloc_indirect.
Qed.

(** Allocating the indirect block and then an entry of it. *)
Lemma extended_trans i bn addr nb p a a' :
  let p1 := set_addr_of NDIRECT nb p in
  let a1 := a_alloc i NDIRECT nb p a in
  layout_ok a -> first_free a nb -> file_ok a p -> addr_of p NDIRECT = 0 ->
  (forall x, length (a_view a x) = BSIZE) -> in_map bn -> Z.of_nat NDIRECT <= bn ->
  (forall x, datablk a x -> datablk a1 x) -> (forall x, home a1 x <-> home a x) ->
  extended i bn addr a1 p1 a' p1 -> extended i bn addr a p a' p1.
Proof.
  intros p1 a1 L Hff Fo H0 Hlen Hbn Hge Hd Hh [E1 E2 E3 E4 E5 E6 E7 E8 E9 E10 E11 E12 E13 E14 E15].
  pose proof (first_free_data _ _ L Hff). pose proof (dstart_ge a L). pose proof Hff as (Hr & Hf & _).
  assert (Hm : forall bn', in_map bn' -> fmap a1 p1 bn' = fmap a p bn')
    by (intros; by apply fmap_alloc_indirect).
  assert (Esb : sb_of a1 = sb_of a) by (by apply (sb_of_balloc a nb)).
  assert (Hi : addr_of p1 NDIRECT = nb).
  { unfold p1. rewrite addr_of_set by (rewrite (fo_len _ _ Fo); unfold NDIRECT; lia).
    by rewrite decide_True. }
  split; try done.
  - rewrite E1. simpl. by rewrite list_insert_insert_eq.
  - rewrite Hm in E5 by done. done.
  - intros bn' Hb Hne. rewrite E6 by done. by apply Hm.
  - intros x Hx Hu Hn Hne. rewrite E7.
    + by apply view_alloc_used.
    + by rewrite Esb.
    + by apply used_alloc.
    + destruct Hn as [Hn1 Hn2]. split; [done|]. intros b. unfold bblock. rewrite Esb. apply Hn2.
    + done.
  - by rewrite E8.
  - intros x Hx. by apply E9, Hd.
  - intros x. by rewrite E10.
  - by rewrite Hi; right.
  - intros Hz. rewrite <- Hm in Hz by done. specialize (E13 Hz).
    assert (Ha : datablk a' addr).
    { destruct E4 as [<- Hne]. by apply (fo_data _ _ E3). }
    destruct Ha as (Har & _). rewrite E8, Esb in Har.
    change (used a1 addr) with (used (a_balloc nb a) addr) in E13.
    assert (0 <= dstart a') by (unfold dstart, bblock, BBLOCK, BPB, IPB; rewrite E8, Esb;
      pose proof (ge_ninodes _ (la_geo _ L)); pose proof (la_pos _ L); zlia).
    rewrite used_balloc in E13 by (done || lia). by apply orb_false_iff in E13 as [_ ?].
  - intros x Hx Hu. apply E14; [by rewrite Esb|]. by apply used_alloc.
  - intros Hz. unfold fmap in Hz. rewrite H0 in Hz. unfold NDIRECT in *.
    destruct (Z.ltb_spec bn (Z.of_nat 12)); [lia|done].
Qed.

Lemma wp_bmap s a i p bn T k v (Q : Z -> fstate -> Prop) :
  rep s [] a -> wctx T (S k + ind p) (S v + ind p) a -> a_icache a !! i = Some p -> file_ok a p ->
  (addr_of p NDIRECT <> 0 -> addr_of p NDIRECT ∈ T) -> in_map bn ->
  (forall addr s' a' p' T', rep s' [] a' -> extended i bn addr a p a' p' ->
     wctx T' (k + ind p') (v + ind p') a' -> T ⊆ T' -> addr ∈ T' ->
     (addr_of p' NDIRECT <> 0 -> addr_of p' NDIRECT ∈ T') -> Q addr s') ->
  wp (bmap i bn) Q s.
Proof.
  intros R W Hi Fo HT Hbn HQ. pose proof (wc_lay _ _ _ _ W) as L.
  assert (Hlen : forall x, length (a_view a x) = BSIZE) by (intros; by eapply rep_length).
  unfold bmap. destruct (Z.ltb_spec bn (Z.of_nat NDIRECT)) as [Hd|Hd].
  - assert (Hbk : Z.of_nat (Z.to_nat bn) = bn) by (unfold in_map in Hbn; lia).
    assert (Hf : fmap a p bn = addr_of p (Z.to_nat bn)) by (unfold fmap; zif; [done|lia]).
    destruct (decide (addr_of p (Z.to_nat bn) = 0)) as [H0|H0].
    + eapply (wp_addr_absent s a i p (Z.to_nat bn) T); [exact R|exact W|done|apply Fo|done|].
      intros nb s1 Hff R1 W1 D1 Hd1 Hh1.
      assert (Hind : addr_of (set_addr_of (Z.to_nat bn) nb p) NDIRECT = addr_of p NDIRECT).
      { rewrite addr_of_set by (rewrite (fo_len _ _ Fo); unfold NDIRECT in *; lia).
        rewrite decide_False; [done|]. lia. }
      eapply (HQ nb s1 _ (set_addr_of (Z.to_nat bn) nb p) (nb :: T)); [exact R1| | |set_solver|set_solver|].
      * rewrite <- Hbk at 1. apply extended_direct; try done; [lia|]. by rewrite Hbk, Hf.
      * unfold ind in *. rewrite Hind. exact W1.
      * rewrite Hind. intros Hne. apply elem_of_cons. right. by apply HT.
    + eapply addr_present_direct; [exact R|exact Hi|done|]. rewrite <- Hf in *.
      eapply (HQ _ s a p (fmap a p bn :: T)); [done|by apply extended_refl| |set_solver|set_solver|set_solver].
      eapply wctx_le; [apply (wctx_add _ (k + ind p)); exact W|lia|lia].
  - cbv zeta. set (j := bn - Z.of_nat NDIRECT) in *.
    assert (Hj : 0 <= j < NINDIRECT) by (unfold j, in_map, MAXFILE, NDIRECT, NINDIRECT in *; lia).
    assert (Hbj : j + Z.of_nat NDIRECT = bn) by lia.
    zif; [|lia]. apply wp_bind.
    destruct (decide (addr_of p NDIRECT = 0)) as [H0|H0].
    + assert (Hip : ind p = 1%nat) by (unfold ind; by rewrite H0). rewrite Hip in W.
      eapply (wp_addr_absent s a i p NDIRECT T (S k) (S v)); [exact R| |done|apply Fo|done|].
      { eapply wctx_le; [exact W|lia|lia]. }
      intros ni s1 Hff R1 W1 D1 Hd1 Hh1.
      destruct (alloc_indirect_file i ni p a) as [Fo1 Hi1]; try done.
      pose proof (first_free_data _ _ L Hff). pose proof (dstart_ge a L).
      assert (Hic : a_icache (a_alloc i NDIRECT ni p a) !! i = Some (set_addr_of NDIRECT ni p)).
      { simpl. apply list_lookup_insert_eq. by eapply lookup_lt_Some. }
      change (wp (bmap_entry i ni j) Q s1). rewrite <- Hi1 at 1.
      eapply (wp_bmap_entry s1 _ i (set_addr_of NDIRECT ni p) j (ni :: T) k v); try done.
      { rewrite Hi1. lia. }
      { rewrite Hi1. set_solver. }
      intros addr s2 a2 T2 R2 X2 W2 HT2 Ha2. rewrite Hbj in X2.
      assert (Hi2 : ind (set_addr_of NDIRECT ni p) = 0%nat) by (unfold ind; rewrite Hi1; zif; [lia|done]).
      eapply (HQ addr s2 a2 (set_addr_of NDIRECT ni p) T2); try done.
      * by apply (extended_trans i bn addr ni p a a2).
      * rewrite Hi2, !Nat.add_0_r. done.
      * set_solver.
      * rewrite Hi1. set_solver.
    + eapply addr_present_direct; [exact R|exact Hi|done|].
      assert (Hip : ind p = 0%nat) by (unfold ind; zif; [lia|done]). rewrite Hip, !Nat.add_0_r in W.
      change (wp (bmap_entry i (addr_of p NDIRECT) j) Q s).
      eapply (wp_bmap_entry s a i p j T k v); try done; [by apply HT|].
      intros addr s2 a2 T2 R2 X2 W2 HT2 Ha2. rewrite Hbj in X2.
      eapply (HQ addr s2 a2 p T2); try done.
      * by rewrite Hip, !Nat.add_0_r.
      * set_solver.
Qed.
