(* ===== verification/WriteiSpec.v ===== *)
(** * fs.c is correct: [writei] and [readi] as operations on file contents *)

From S2P Require Import Prelude Monad Locks FsState FsLayout Bio BlockSpec Log LogSpec Txn Fs Bitmap FsSpec FileSpec WriteSpec.

Open Scope Z_scope.
Open Scope kernel_scope.

(** [wrote i off l a p a' p']: bytes [l] now stand at [off] in the file; the
    block map was only extended, and no other byte of the file and no other
    block changed, the bitmap apart. *)
Record wrote (i : nat) (off : Z) (l : list Z) (a : ablk) (p : inode) (a' : ablk) (p' : inode) : Prop :=
mkWrote {
  w_icache : a_icache a' = <[i := p']> (a_icache a);
  w_fields : p' = with_addrs (i_addrs p') p;
  w_file : file_ok a' p';
  w_new : forall k, (k < length l)%nat ->
    fmap a' p' ((off + Z.of_nat k) / Z.of_nat BSIZE) <> 0 /\
    byte_at a' p' (off + Z.of_nat k) = nth k l 0;
  w_keep : forall bn, in_map bn -> fmap a p bn <> 0 -> fmap a' p' bn = fmap a p bn;
  w_old : forall x, 0 <= x -> in_map (x / Z.of_nat BSIZE) -> fmap a p (x / Z.of_nat BSIZE) <> 0 ->
    x < off \/ off + Z.of_nat (length l) <= x -> byte_at a' p' x = byte_at a p x;
  w_frame : forall y, 0 < y < sb_size (sb_of a) -> used a y = true -> nonbm a y ->
    (forall bn, in_map bn -> fmap a p bn <> y) -> y <> addr_of p NDIRECT -> a_view a' y = a_view a y;
  w_sb : sb_of a' = sb_of a;
  w_data : forall x, datablk a x -> datablk a' x;
  w_home : forall x, home a' x <-> home a x;
  w_used : forall x, 0 <= x < sb_size (sb_of a) -> used a x = true -> used a' x = true;
  w_map_new : forall bn, in_map bn -> fmap a' p' bn <> 0 ->
    fmap a' p' bn = fmap a p bn \/ used a (fmap a' p' bn) = false;
  w_ind_new : addr_of p' NDIRECT <> 0 ->
    addr_of p' NDIRECT = addr_of p NDIRECT \/ used a (addr_of p' NDIRECT) = false;
  w_same : (forall k, (k < length l)%nat ->
      in_map ((off + Z.of_nat k) / Z.of_nat BSIZE) /\ fmap a p ((off + Z.of_nat k) / Z.of_nat BSIZE) <> 0) ->
    p' = p
}.

Lemma wrote_nil i off a p :
  a_icache a !! i = Some p -> file_ok a p -> wrote i off [] a p a p.
Proof.
  intros Hi Fo. split; try done.
  - by rewrite list_insert_id.
  - by destruct p.
  - simpl. lia.
  - by left.
  - by left.
Qed.

Lemma datablk_range a x : layout_ok a -> datablk a x -> 0 <= x < sb_size (sb_of a) /\ used a x = true /\ nonbm a x.
Proof.
  intros L D. pose proof (dstart_ge a L). split; [destruct D; lia|].
  split; [apply D|by apply nonbm_data].
Qed.

Lemma nonbm_sb a a' x : sb_of a' = sb_of a -> nonbm a x -> nonbm a' x.
Proof. intros E [H1 H2]. split; [done|]. intros b. unfold bblock. rewrite E. apply H2. Qed.

(** Blocks in use stay in use. *)
Lemma unused_back a a1 a2 x :
  layout_ok a -> sb_of a1 = sb_of a -> sb_of a2 = sb_of a -> datablk a2 x ->
  (forall x, 0 <= x < sb_size (sb_of a) -> used a x = true -> used a1 x = true) ->
  used a1 x = false -> used a x = false.
Proof.
  intros L E1 E2 (Hx & _) Hu H1. destruct (used a x) eqn:E; [|done].
  rewrite Hu in H1; [done| |done]. pose proof (dstart_ge a L) as Hd.
  assert (dstart a2 = dstart a) as Hd2 by (unfold dstart, bblock; by rewrite E2).
  rewrite Hd2, E2 in Hx. lia.
Qed.

Lemma wrote_app i off l1 l2 a p a1 p1 a2 p2 :
  layout_ok a -> 0 <= off ->
  wrote i off l1 a p a1 p1 -> wrote i (off + Z.of_nat (length l1)) l2 a1 p1 a2 p2 ->
  (forall k, (k < length l1)%nat -> in_map ((off + Z.of_nat k) / Z.of_nat BSIZE)) ->
  wrote i off (l1 ++ l2) a p a2 p2.
Proof.
  intros L Hoff X Y Hmap. pose proof (w_sb _ _ _ _ _ _ _ X) as E1. pose proof (w_sb _ _ _ _ _ _ _ Y) as E2.
  split.
  - rewrite (w_icache _ _ _ _ _ _ _ Y), (w_icache _ _ _ _ _ _ _ X). by rewrite list_insert_insert_eq.
  - rewrite (w_fields _ _ _ _ _ _ _ Y) at 1. by rewrite (w_fields _ _ _ _ _ _ _ X).
  - apply Y.
  - intros k Hk. rewrite length_app in Hk. destruct (decide (k < length l1)%nat) as [Hk1|Hk1].
    + destruct (w_new _ _ _ _ _ _ _ X k Hk1) as [H1 H2]. specialize (Hmap k Hk1).
      rewrite (w_keep _ _ _ _ _ _ _ Y) by done. split; [done|].
      rewrite (w_old _ _ _ _ _ _ _ Y) by (done || lia). rewrite H2. by rewrite app_nth1.
    + destruct (w_new _ _ _ _ _ _ _ Y (k - length l1)) as [H1 H2]; [lia|].
      replace (off + Z.of_nat (length l1) + Z.of_nat (k - length l1)) with (off + Z.of_nat k) in * by lia.
      split; [done|]. rewrite H2. by rewrite app_nth2 by lia.
  - intros bn Hb H0. rewrite (w_keep _ _ _ _ _ _ _ Y) by (done || by rewrite (w_keep _ _ _ _ _ _ _ X)).
    by rewrite (w_keep _ _ _ _ _ _ _ X).
  - intros x Hx Hin H0 Hr. rewrite length_app in Hr.
    rewrite (w_old _ _ _ _ _ _ _ Y) by (done || lia || by rewrite (w_keep _ _ _ _ _ _ _ X)).
    apply (w_old _ _ _ _ _ _ _ X); (done || lia).
  - intros y Hy Hu Hn Hm Hi. rewrite (w_frame _ _ _ _ _ _ _ Y).
    + by apply (w_frame _ _ _ _ _ _ _ X).
    + by rewrite E1.
    + apply (w_used _ _ _ _ _ _ _ X); [lia|done].
    + by eapply nonbm_sb.
    + intros bn Hb Hf. destruct (decide (fmap a1 p1 bn = 0)) as [H0|H0]; [lia|].
      destruct (w_map_new _ _ _ _ _ _ _ X bn Hb H0) as [E|E]; [|congruence].
      apply (Hm bn Hb). congruence.
    + intros ->. destruct (w_ind_new _ _ _ _ _ _ _ X) as [E|E]; [lia|congruence|congruence].
  - congruence.
  - intros x Hx. by apply Y, X.
  - intros x. rewrite (w_home _ _ _ _ _ _ _ Y). apply X.
  - intros x Hx Hu. apply (w_used _ _ _ _ _ _ _ Y); [by rewrite E1|]. by apply (w_used _ _ _ _ _ _ _ X).
  - intros bn Hb H0. destruct (w_map_new _ _ _ _ _ _ _ Y bn Hb H0) as [E|E].
    + rewrite E in H0 |- *. by apply (w_map_new _ _ _ _ _ _ _ X).
    + right. pose proof (fo_data _ _ (w_file _ _ _ _ _ _ _ Y) _ Hb H0) as D.
      apply (unused_back a a1 a2); try done; [congruence|]. apply X.
  - intros H0. destruct (w_ind_new _ _ _ _ _ _ _ Y H0) as [E|E].
    + rewrite E in H0 |- *. by apply (w_ind_new _ _ _ _ _ _ _ X).
    + right. pose proof (fo_ind _ _ (w_file _ _ _ _ _ _ _ Y) H0) as D.
      apply (unused_back a a1 a2); try done; [congruence|]. apply X.
  - intros Hp. rewrite length_app in Hp.
    assert (p1 = p) as E by (apply (w_same _ _ _ _ _ _ _ X); intros k Hk; apply Hp; lia).
    rewrite (w_same _ _ _ _ _ _ _ Y); [done|]. intros k Hk.
    destruct (Hp (length l1 + k)%nat) as [H1 H2]; [lia|].
    replace (off + Z.of_nat (length l1) + Z.of_nat k) with (off + Z.of_nat (length l1 + k)) by lia.
    split; [done|]. by rewrite (w_keep _ _ _ _ _ _ _ X).
Qed.

(** The same map in a state where the data blocks are still there. *)
Lemma file_ok_same a p a' :
  file_ok a p -> (forall bn, fmap a' p bn = fmap a p bn) -> (forall x, datablk a x -> datablk a' x) ->
  file_ok a' p.
Proof.
  intros [F1 F2 F3 F4 F5 F6] Hm Hd. split; try done.
  - intros. by apply Hd, F3.
  - intros bn. rewrite Hm. intros. by apply Hd, F4.
  - intros bn bn'. rewrite !Hm. apply F5.
  - intros bn. rewrite Hm. apply F6.
Qed.

(** One turn of the loop: the block is found or allocated, and [m] bytes of
    it are replaced. *)
Lemma wrote_block i off l addr a p a1 p1 :
  let bn := off / Z.of_nat BSIZE in
  let d := splice (Z.to_nat (off mod Z.of_nat BSIZE)) l (a_view a1 addr) in
  layout_ok a -> layout_ok a1 -> (forall x, length (a_view a1 x) = BSIZE) ->
  0 <= off -> in_map bn -> (0 < length l)%nat ->
  off mod Z.of_nat BSIZE + Z.of_nat (length l) <= Z.of_nat BSIZE ->
  file_ok a p -> extended i bn addr a p a1 p1 -> wrote i off l a p (a_update addr d a1) p1.
Proof.
  intros bn d L L1 Hlen Hoff Hbn Hl0 Hl Fo X. destruct X as [X1 X2 X3 [X4 X4'] X5 X6 X7 X8 X9 X10 X11 X12 X13 X14 X15].
  assert (Da : datablk a1 addr) by (rewrite <- X4; apply (fo_data _ _ X3); [done|by rewrite X4]).
  pose proof (nonbm_data _ _ L1 Da) as Na.
  assert (Hia : addr <> addr_of p1 NDIRECT).
  { rewrite <- X4. apply (fo_noind _ _ X3); [done|by rewrite X4]. }
  set (a2 := a_update addr d a1).
  assert (Hm : forall bn', fmap a2 p1 bn' = fmap a1 p1 bn').
  { intros bn'. unfold fmap. simpl a_view. by rewrite decide_False by done. }
  assert (Hb : forall x, 0 <= x -> in_map (x / Z.of_nat BSIZE) -> fmap a1 p1 (x / Z.of_nat BSIZE) <> 0 ->
    byte_at a2 p1 x = if decide (x / Z.of_nat BSIZE = bn)
                      then nth (Z.to_nat (x mod Z.of_nat BSIZE)) d 0 else byte_at a1 p1 x).
  { intros x Hx Hin H0. unfold byte_at. rewrite Hm. simpl a_view.
    destruct (decide (x / Z.of_nat BSIZE = bn)) as [->|Hne]; [by rewrite X4, decide_True|].
    rewrite decide_False; [done|]. intros E. apply Hne. apply (fo_inj _ _ X3); try done. by rewrite E, X4. }
  pose proof (Hlen addr) as Hla. unfold BSIZE in *. change (Z.of_nat 512) with 512 in *.
  assert (Hdn : forall j, nth j d 0 = if (Z.to_nat (off mod 512) <=? j)%nat && (j <? Z.to_nat (off mod 512) + length l)%nat
                 then nth (j - Z.to_nat (off mod 512)) l 0 else nth j (a_view a1 addr) 0).
  { intros j. rewrite !nth_lookup. unfold d. rewrite lookup_splice by (rewrite Hla; zlia).
    by destruct (_ && _). }
  split; try done; unfold BSIZE in *; try change (Z.of_nat 512) with 512 in *.
  - apply (file_ok_same a1 p1); [done|done|]. intros. by apply datablk_update.
  - intros k Hk. pose proof (Z.div_mod off 512 ltac:(lia)) as Hdm.
    assert (Hq : (off + Z.of_nat k) / 512 = bn) by (unfold bn; zlia).
    assert (Hr : Z.to_nat ((off + Z.of_nat k) mod 512) = (Z.to_nat (off mod 512) + k)%nat) by zlia.
    rewrite Hm, Hq, X4. split; [done|].
    rewrite Hb by (rewrite ?Hq, ?X4; (done || lia)). rewrite decide_True by done. rewrite Hr, Hdn. zif; [|lia]. f_equal. lia.
  - intros bn' Hin H0. rewrite Hm. destruct (decide (bn' = bn)) as [->|]; [rewrite X4; auto|auto].
  - intros x Hx Hin H0 Hr.
    assert (Hf : fmap a1 p1 (x / 512) = fmap a p (x / 512)).
    { destruct (decide (x / 512 = bn)) as [E|E]; [|auto]. rewrite E in *. rewrite X4. auto. }
    assert (Hv : a_view a1 (fmap a p (x / 512)) = a_view a (fmap a p (x / 512))).
    { destruct (datablk_range a (fmap a p (x / 512)) L) as (R1 & R2 & R3);
        [by apply (fo_data _ _ Fo)|]. apply X7; try done. rewrite <- Hf.
      apply (fo_noind _ _ X3); [done|by rewrite Hf]. }
    rewrite Hb by (done || by rewrite Hf). unfold byte_at, BSIZE.
    change (Z.of_nat 512) with 512. rewrite Hf, Hv.
    destruct (decide (x / 512 = bn)) as [E|E]; [|done]. rewrite Hdn.
    rewrite <- Hf, E, X4 in Hv. rewrite Hv, <- X4, <- E, Hf.
    zif; [|done]. exfalso. pose proof (Z.div_mod off 512 ltac:(lia)). pose proof (Z.div_mod x 512 ltac:(lia)).
    pose proof (Z.mod_pos_bound x 512 ltac:(lia)). pose proof (Z.mod_pos_bound off 512 ltac:(lia)).
    unfold bn in E. lia.
  - intros y Hy Hu Hn Hmap Hi. simpl a_view. rewrite decide_False.
    + apply X7; try done; [lia|]. intros ->. destruct X12 as [E|E]; [lia|congruence|congruence].
    + intros ->. destruct (decide (fmap a p bn = 0)) as [E|E]; [by rewrite X13 in Hu|].
      apply (Hmap bn Hbn). symmetry. auto.
  - rewrite <- X8. apply sb_of_update, Na.
  - intros x Hx. apply datablk_update; auto.
  - intros x. unfold a2. by rewrite home_update.
  - intros x Hx Hu. unfold a2. rewrite used_update; [auto|done|by rewrite X8].
  - intros bn' Hin. rewrite Hm. destruct (decide (bn' = bn)) as [->|Hne].
    + rewrite X4. intros _. destruct (decide (fmap a p bn = 0)) as [E|E]; [right|left]; auto.
    + rewrite X6 by done. by left.
  - intros Hp. apply X15. destruct (Hp 0%nat) as [_ H1]; [lia|]. by rewrite Z.add_0_r in H1.
Qed.

Lemma turns_nonneg off n : 0 <= off -> 0 <= turns off n.
Proof.
  intros Ho. unfold turns, BSIZE. zif; [lia|].
  pose proof (Z.div_le_mono off (off + n - 1) (Z.of_nat 512) ltac:(lia) ltac:(lia)). lia.
Qed.

Lemma wp_writei_loop s a i p src n tot off fuel T k v (Q : Z -> fstate -> Prop) :
  let t := Z.to_nat (turns off (n - tot)) in
  rep s [] a -> wctx T (t + k + ind p) (t + v + ind p) a -> a_icache a !! i = Some p -> file_ok a p ->
  (addr_of p NDIRECT <> 0 -> addr_of p NDIRECT ∈ T) ->
  0 <= tot <= n -> (Z.to_nat n <= length src)%nat -> 0 <= off ->
  off + (n - tot) <= MAXFILE * Z.of_nat BSIZE -> turns off (n - tot) < Z.of_nat fuel ->
  (forall s' a' p' T', rep s' [] a' ->
     wrote i off (slice (Z.to_nat tot) (Z.to_nat (n - tot)) src) a p a' p' ->
     wctx T' (k + ind p') (v + ind p') a' -> T ⊆ T' -> Q (off + (n - tot)) s') ->
  wp (writei_loop i src n tot off fuel) Q s.
Proof.
  revert s a p tot off T. induction fuel as [|fuel IH];
    intros s a p tot off T t R W Hi Fo HT Htot Hn Hoff Hmax Hf HQ.
  { pose proof (turns_nonneg off (n - tot) Hoff). lia. }
  cbn [writei_loop]. zif.
  - destruct (turns_step off (n - tot) Hoff ltac:(lia)) as [Hm Ht].
    set (m := Z.min (n - tot) (Z.of_nat BSIZE - off mod Z.of_nat BSIZE)) in *.
    pose proof (turns_nonneg (off + m) (n - tot - m) ltac:(lia)) as Ht0.
    pose proof (Z.mod_pos_bound off (Z.of_nat BSIZE) ltac:(unfold BSIZE; lia)) as Hmod.
    assert (Hbn : in_map (off / Z.of_nat BSIZE)).
    { unfold in_map, MAXFILE, BSIZE in *. split; [apply Z.div_pos; lia|].
      apply Z.div_lt_upper_bound; lia. }
    set (t' := Z.to_nat (turns (off + m) (n - (tot + m)))).
    assert (Htt : (S t' <= t)%nat).
    { unfold t', t. replace (n - (tot + m)) with (n - tot - m) by lia. lia. }
    apply wp_bind, (wp_get_inode _ _ _ _ _ _ R Hi). rewrite (fo_dev _ _ Fo).
    pose proof (wc_lay _ _ _ _ W) as L.
    apply wp_bind. eapply (wp_bmap s a i p _ T (t' + k) (t' + v)); try done.
    { eapply wctx_le; [exact W|lia|lia]. }
    intros addr s1 a1 p1 T1 R1 X1 W1 HT1 Ha1 Hind1.
    assert (Da : datablk a1 addr).
    { destruct (ex_at _ _ _ _ _ _ _ X1) as [<- Hne]. by apply (fo_data _ _ (ex_file _ _ _ _ _ _ _ X1)). }
    pose proof (wc_lay _ _ _ _ W1) as L1. pose proof Da as (_ & Hh & _).
    apply wp_bind. eapply (txn_read s1 [] a1); [exact R1|apply W1|apply W1|apply Hh|set_solver|simpl; lia|].
    intros bp s2 R2. cbv zeta. apply wp_bind, wp_bind, (wp_get_data R2 bp addr); [set_solver|].
    set (l := slice (Z.to_nat tot) (Z.to_nat m) src).
    assert (Hl : length l = Z.to_nat m) by (apply length_slice; lia).
    assert (Hlen : forall x, length (a_view a1 x) = BSIZE) by (intros; by eapply rep_length).
    set (d := splice (Z.to_nat (off mod Z.of_nat BSIZE)) l (a_view a1 addr)).
    apply (wp_set_data R2 bp addr); [set_solver| |].
    { unfold d. rewrite length_splice; [apply Hlen|]. rewrite Hl, Hlen. unfold BSIZE in *. lia. }
    intros s3 R3. pose proof (fits_room _ _ _ (wc_fits _ _ _ _ W1) (tx_inv _ (wc_txn _ _ _ _ W1))) as Hr.
    apply wp_bind, (wp_log_write _ _ _ bp addr _ R3); [set_solver| |by eapply (room_le 2)|apply Hh|apply W1|].
    { exact (log_inv_set_view _ _ _ (tx_inv _ (wc_txn _ _ _ _ W1))). }
    intros s4 R4. assert (W2 : wctx T1 (t' + k + ind p1) (t' + v + ind p1) (a_update addr d a1)).
    { apply wctx_update; [exact W1|done|done|by apply nonbm_data]. }
    apply wp_bind. eapply read_release; [exact R4|apply W2|set_solver| |].
    { apply synced_logged. exact (li_ok _ (log_inv_set_view _ _ _ (tx_inv _ (wc_txn _ _ _ _ W1)))). }
    intros s5 R5. change (a_logged addr (a_set_view addr d a1)) with (a_update addr d a1) in R5.
    assert (Xw : wrote i off l a p (a_update addr d a1) p1).
    { apply wrote_block; try done; rewrite Hl; [lia|]. unfold BSIZE in *. lia. }
    eapply (IH s5 (a_update addr d a1) p1 (tot + m) (off + m) T1); try done; try lia.
    { rewrite (w_icache _ _ _ _ _ _ _ Xw). apply list_lookup_insert_eq. by eapply lookup_lt_Some. }
    { apply Xw. }
    intros s6 a6 p6 T6 R6 X6 W6 HT6.
    replace (off + m + (n - (tot + m))) with (off + (n - tot)) by lia.
    eapply (HQ s6 a6 p6 T6); [exact R6| |exact W6|set_solver].
    replace (slice (Z.to_nat tot) (Z.to_nat (n - tot)) src) with
      (l ++ slice (Z.to_nat (tot + m)) (Z.to_nat (n - (tot + m))) src).
    + eapply wrote_app; [exact L|done|exact Xw|by rewrite Hl, Z2Nat.id by lia|].
      intros k' Hk'. unfold in_map, MAXFILE, BSIZE in *. split; [apply Z.div_pos; lia|].
      apply Z.div_lt_upper_bound; lia.
    + unfold l, slice. replace (Z.to_nat (n - tot)) with (Z.to_nat m + Z.to_nat (n - (tot + m)))%nat by lia.
      replace (Z.to_nat (tot + m)) with (Z.to_nat tot + Z.to_nat m)%nat by lia.
      rewrite <- drop_drop. apply take_take_drop.
  - apply wp_ret. replace (n - tot) with 0 in * by lia. rewrite <- (Z.add_0_r off).
    eapply (HQ s a p T); [done| | |done].
    + unfold slice. simpl. by apply wrote_nil.
    + eapply wctx_le; [exact W|lia|lia].
Qed.

(** ** Claims *)

(** A regular file or directory, in memory, with its blocks in place. *)
Record open_file (a : ablk) (i : nat) (p : inode) : Prop := mkOpen {
  of_at : a_icache a !! i = Some p;
  of_type : i_type p <> T_DEV;
  of_size : 0 <= i_size p <= MAXFILE * Z.of_nat BSIZE;
  of_file : file_ok a p;
  of_present : present a p 0 (i_size p)
}.

Lemma wp_readi dtab s a i p off n T k (Q : Z * list Z -> fstate -> Prop) :
  rep s [] a -> txn a -> fits T k a -> open_file a i p -> 0 <= off < 2 ^ 32 -> 0 <= n < 2 ^ 32 ->
  let bad := (i_size p <? off) || (2 ^ 32 <=? off + n) in
  let m := Z.min n (i_size p - off) in
  (forall s', rep s' [] a ->
     Q (if bad then (-1, []) else (m, fbytes a p off (Z.to_nat m))) s') ->
  wp (readi dtab i off n) Q s.
Proof.
  intros R Tx F [Hi Hty Hsz Fo Hp] Hoff Hn bad m HQ.
  unfold readi. apply wp_bind, (wp_get_inode _ _ _ _ _ _ R Hi).
  zif; [lia|]. unfold bad in *. unfold MAXFILE, BSIZE in Hsz.
  assert (Hu : (u32 (off + n) <? off) = (2 ^ 32 <=? off + n)).
  { unfold u32. destruct (Z.leb_spec (2 ^ 32) (off + n)).
    - apply Z.ltb_lt. replace ((off + n) mod 4294967296) with (off + n - 4294967296) by zlia. lia.
    - apply Z.ltb_ge. rewrite Z.mod_small; lia. }
  rewrite Hu. destruct (_ || _) eqn:Eb; [by apply wp_ret, HQ|].
  apply orb_false_iff in Eb as [E1 E2].
  assert (Hmn : (if i_size p <? u32 (off + n) then i_size p - off else n) = m).
  { unfold u32. rewrite Z.mod_small by lia. unfold m. zif; lia. }
  rewrite Hmn. apply wp_bind.
  eapply (wp_readi_loop s a i p m 0 off []); try done; try (unfold m; lia).
  - intros x Hx. apply Hp. unfold m in Hx. lia.
  - rewrite Z.sub_0_r. apply turns_fuel; unfold m; lia.
  - intros s1 R1. rewrite Z.sub_0_r. apply wp_ret. by apply HQ.
Qed.

(** [readi] on a file returns the bytes of the file from [off] on, as
    many as asked for and as the file has, and changes no block; it returns
    -1 exactly when [off] is past the end or [off + n] wraps around. *)
Theorem readi_correct dtab s a i p off n :
  rep s [] a -> txn a -> fits [] 0 a -> open_file a i p -> 0 <= off < 2 ^ 32 -> 0 <= n < 2 ^ 32 ->
  exists s', rep s' [] a /\
    readi dtab i off n s =
      Ok (if (i_size p <? off) || (2 ^ 32 <=? off + n) then (-1, [])
          else let m := Z.min n (i_size p - off) in (m, fbytes a p off (Z.to_nat m))) s'.
Proof.
  intros R Tx F O Hoff Hn.
  pose proof (wp_readi dtab s a i p off n [] 0 (fun r s' => rep s' [] a /\
    r = (if (i_size p <? off) || (2 ^ 32 <=? off + n) then (-1, [])
         else let m := Z.min n (i_size p - off) in (m, fbytes a p off (Z.to_nat m)))) R Tx F O Hoff Hn) as H.
  apply wp_iff in H as (r & s' & Hrun & R' & ->); [by exists s'|].
  intros s' R'. split; [done|]. by destruct (_ || _).
Qed.

(** ** The inode on disk *)

(** The inode on disk is the one in memory. *)
Definition isync (a : ablk) (p : inode) : Prop :=
  get_dinode (a_view a (IBLOCK (i_inum p))) (inode_index (i_inum p)) = dinode_of p.

Definition inum_ok (a : ablk) (p : inode) : Prop := 0 <= i_inum p < sb_ninodes (sb_of a).

Lemma iblock_meta a p :
  layout_ok a -> inum_ok a p -> 1 < IBLOCK (i_inum p) < dstart a /\ nonbm a (IBLOCK (i_inum p)).
Proof.
  intros L Hi. pose proof (la_pos _ L). unfold inum_ok, dstart, nonbm, bblock, IBLOCK, BBLOCK, BPB, IPB in *.
  split; [zlia|]. split; [zlia|]. intros b Hb. zlia.
Qed.

Lemma inode_index_lt inum : (64 * inode_index inum + 64 <= BSIZE)%nat.
Proof. unfold inode_index, IPB, BSIZE. zlia. Qed.

Lemma wp_iupdate s a i p T k v (Q : unit -> fstate -> Prop) :
  rep s [] a -> wctx T k v a -> a_icache a !! i = Some p -> i_dev p = 1 -> inum_ok a p ->
  length (i_addrs p) = 13%nat ->
  (forall s', rep s' [] (a_update (IBLOCK (i_inum p))
      (put_dinode (a_view a (IBLOCK (i_inum p))) (inode_index (i_inum p)) (dinode_of p)) a) -> Q tt s') ->
  wp (iupdate i) Q s.
Proof.
  intros R [Tx L F A B] Hi Hdev Hin Hl HQ. destruct (iblock_meta a p L Hin) as [Hr _].
  unfold iupdate. apply wp_bind, (wp_get_inode _ _ _ _ _ _ R Hi). rewrite Hdev.
  eapply (wp_update s [] a (IBLOCK (i_inum p))
    (fun d => put_dinode d (inode_index (i_inum p)) (dinode_of p))); try done.
  - apply (la_home _ L _ Hr).
  - set_solver.
  - simpl. lia.
  - rewrite length_put_dinode; [by eapply rep_length|done|]. rewrite (rep_length _ _ _ _ R).
    apply inode_index_lt.
Qed.

(** Addresses in the block map fit the on-disk format. *)
Lemma file_ok_addrs a p : layout_ok a -> file_ok a p -> Forall (fun x => 0 <= x < 2 ^ 32) (i_addrs p).
Proof.
  intros L Fo. pose proof (dstart_ge a L). pose proof (la_size _ L). apply Forall_lookup. intros k x Hk.
  assert (Ex : addr_of p k = x) by (unfold addr_of; by apply nth_lookup_Some).
  destruct (decide (x = 0)) as [->|Hx]; [lia|].
  assert (D : datablk a x).
  { pose proof (lookup_lt_Some _ _ _ Hk) as Hlt. rewrite (fo_len _ _ Fo) in Hlt.
    destruct (decide (k = NDIRECT)) as [->|Hne].
    - rewrite <- Ex. apply (fo_ind _ _ Fo). by rewrite Ex.
    - assert (fmap a p (Z.of_nat k) = x) as <-.
      { unfold fmap, NDIRECT in *. zif; [|lia]. by rewrite Nat2Z.id. }
      apply (fo_data _ _ Fo); [unfold in_map, MAXFILE, NDIRECT in *; lia|].
      unfold fmap, NDIRECT in *. zif; [|lia]. by rewrite Nat2Z.id, Ex. }
  destruct D as (Hd & _). lia.
Qed.

(** An update of a metadata block does not show in the file. *)
Lemma file_update_meta a p sec d :
  layout_ok a -> file_ok a p -> nonbm a sec -> sec < dstart a ->
  file_ok (a_update sec d a) p /\
  forall bn, fmap (a_update sec d a) p bn = fmap a p bn.
Proof.
  intros L Fo Hn Hs.
  assert (Hm : forall bn, fmap (a_update sec d a) p bn = fmap a p bn).
  { intros bn. unfold fmap. zif; [done|]. zif; [done|]. simpl a_view. rewrite decide_False; [done|].
    intros Eq. pose proof (fo_ind _ _ Fo ltac:(lia)) as (Hd & _). lia. }
  split; [|done]. apply (file_ok_same a p); try done. intros. by apply datablk_update.
Qed.

Lemma byte_update_meta a p sec d x :
  layout_ok a -> file_ok a p -> nonbm a sec -> sec < dstart a -> in_map (x / Z.of_nat BSIZE) ->
  fmap a p (x / Z.of_nat BSIZE) <> 0 -> byte_at (a_update sec d a) p x = byte_at a p x.
Proof.
  intros L Fo Hn Hs Hin H0. unfold byte_at. destruct (file_update_meta a p sec d) as [_ ->]; try done.
  simpl a_view. rewrite decide_False; [done|]. intros E.
  pose proof (fo_data _ _ Fo _ Hin H0) as (Hd & _). lia.
Qed.

Lemma fmap_fields a p q bn : i_addrs p = i_addrs q -> fmap a p bn = fmap a q bn.
Proof. intros E. unfold fmap, addr_of. by rewrite E. Qed.

Lemma file_ok_fields a p q : i_addrs p = i_addrs q -> i_dev p = i_dev q -> file_ok a p -> file_ok a q.
Proof.
  intros E Ed [F1 F2 F3 F4 F5 F6].
  assert (Ei : forall k, addr_of q k = addr_of p k) by (intros; unfold addr_of; by rewrite E).
  assert (Hm : forall bn, fmap a q bn = fmap a p bn) by (intros; by apply fmap_fields).
  split; rewrite <- ?E, <- ?Ed; rewrite ?Ei; try done.
  - intros bn. rewrite Hm. apply F4.
  - intros bn bn'. rewrite !Hm. apply F5.
  - intros bn. rewrite Hm. apply F6.
Qed.

(** ** Writing *)

(** The file after [n] bytes of [src] were written at [off]. *)
Record written_file (i : nat) (src : list Z) (off n : Z) (a : ablk) (p : inode) (a' : ablk) (p' : inode)
  : Prop := mkWritten {
  wf_open : open_file a' i p';
  wf_sync : isync a' p';
  wf_size : i_size p' = Z.max (i_size p) (off + n);
  wf_bytes : forall x, 0 <= x < i_size p' ->
    byte_at a' p' x =
      if (off <=? x) && (x <? off + n) then nth (Z.to_nat (x - off)) src 0 else byte_at a p x;
  wf_frame : forall y, dstart a <= y < sb_size (sb_of a) -> used a y = true ->
    (forall bn, in_map bn -> fmap a p bn <> y) -> y <> addr_of p NDIRECT -> a_view a' y = a_view a y
}.

Lemma in_map_lt x : 0 <= x < MAXFILE * Z.of_nat BSIZE -> in_map (x / Z.of_nat BSIZE).
Proof.
  unfold in_map, MAXFILE, BSIZE. intros Hx. split; [apply Z.div_pos; lia|].
  apply Z.div_lt_upper_bound; lia.
Qed.

Section written.
Context (i : nat) (src : list Z) (off n : Z) (a : ablk) (p : inode) (a1 : ablk) (p1 : inode).
Context (L : layout_ok a) (L1 : layout_ok a1) (O : open_file a i p) (Hsync : isync a p).
Context (Hin : inum_ok a p) (Hok : dinode_ok (dinode_of p)).
Context (Hoff : 0 <= off <= i_size p) (Hn : 0 <= n) (Hsrc : (Z.to_nat n <= length src)%nat).
Context (Hmax : off + n <= MAXFILE * Z.of_nat BSIZE).
Context (X : wrote i off (slice 0 (Z.to_nat n) src) a p a1 p1).

Lemma slice_len : length (slice 0 (Z.to_nat n) src) = Z.to_nat n.
Proof using All. apply length_slice. lia. Qed.

Lemma written_byte x :
  0 <= x < Z.max (i_size p) (off + n) ->
  byte_at a1 p1 x =
    (if (off <=? x) && (x <? off + n) then nth (Z.to_nat (x - off)) src 0 else byte_at a p x) /\
  in_map (x / Z.of_nat BSIZE) /\ fmap a1 p1 (x / Z.of_nat BSIZE) <> 0.
Proof using All.
  intros Hx. pose proof (of_size _ _ _ O) as Hsz.
  assert (Him : in_map (x / Z.of_nat BSIZE)) by (apply in_map_lt; lia).
  destruct ((off <=? x) && (x <? off + n)) eqn:E.
  - destruct (w_new _ _ _ _ _ _ _ X (Z.to_nat (x - off))) as [H1 H2]; [rewrite slice_len; lia|].
    replace (off + Z.of_nat (Z.to_nat (x - off))) with x in * by lia.
    split; [|done]. rewrite H2, !nth_lookup, lookup_slice. zif; [done|lia].
  - destruct (of_present _ _ _ O x) as [_ H1]; [lia|].
    rewrite (w_keep _ _ _ _ _ _ _ X) by done. split; [|done].
    apply (w_old _ _ _ _ _ _ _ X); try done; [lia|]. rewrite slice_len. lia.
Qed.

Lemma written_meta y :
  1 < y < dstart a -> nonbm a y -> a_view a1 y = a_view a y.
Proof using All.
  intros Hy Hnb. pose proof (la_fit _ L).
  assert (Hd : forall x, datablk a x -> x <> y) by (intros x (Hx & _); lia).
  apply (w_frame _ _ _ _ _ _ _ X); try done; [lia|apply (la_meta _ L); lia| |].
  - intros bn Hb E. destruct (decide (fmap a p bn = 0)) as [H0|H0]; [lia|].
    by apply (Hd (fmap a p bn)); [apply (fo_data _ _ (of_file _ _ _ O))|].
  - intros ->. destruct (decide (addr_of p NDIRECT = 0)) as [H0|H0]; [lia|].
    by apply (Hd (addr_of p NDIRECT)); [apply (fo_ind _ _ (of_file _ _ _ O))|].
Qed.

Lemma written_frame y :
  dstart a <= y < sb_size (sb_of a) -> used a y = true ->
  (forall bn, in_map bn -> fmap a p bn <> y) -> y <> addr_of p NDIRECT -> a_view a1 y = a_view a y.
Proof using All.
  intros Hy Hu Hm Hi. pose proof (dstart_ge a L). apply (w_frame _ _ _ _ _ _ _ X); try done; [lia|].
  apply data_nonbm; [exact L|lia].
Qed.

(** No growth: the map is unchanged and so is the inode. *)
Lemma written_within :
  off + n <= i_size p \/ n = 0 -> p1 = p /\ written_file i src off n a p a1 p1.
Proof using All.
  intros Hle. assert (p1 = p) as E.
  { apply (w_same _ _ _ _ _ _ _ X). intros k Hk. rewrite slice_len in Hk.
    apply (of_present _ _ _ O). lia. }
  split; [done|]. destruct (iblock_meta a p L Hin) as [Hib Hnb].
  assert (Hsz : Z.max (i_size p) (off + n) = i_size p) by lia.
  assert (E1 : i_size p1 = i_size p) by (by rewrite E). split.
  - pose proof O as [O1 O2 O3 O4 O5]. split.
    + rewrite (w_icache _ _ _ _ _ _ _ X). apply list_lookup_insert_eq. by eapply lookup_lt_Some.
    + by rewrite E.
    + by rewrite E1.
    + apply X.
    + intros x Hx. rewrite E1 in Hx. destruct (O5 x Hx) as [H1 H2]. split; [done|].
      by rewrite (w_keep _ _ _ _ _ _ _ X).
  - rewrite E. unfold isync. rewrite written_meta by done. exact Hsync.
  - lia.
  - intros x Hx. apply written_byte. lia.
  - intros y. apply written_frame.
Qed.

(** Growth: the new size and map are written to the inode on disk. *)
Lemma written_grown :
  i_size p < off + n -> 0 < n -> length (a_view a1 (IBLOCK (i_inum p))) = BSIZE ->
  let p2 := with_size (off + n) p1 in
  let b := IBLOCK (i_inum p) in
  written_file i src off n a p
    (a_update b (put_dinode (a_view a1 b) (inode_index (i_inum p)) (dinode_of p2))
       (a_put_inode i p2 a1)) p2.
Proof using All.
  intros Hlt Hpos Hlen p2 b. destruct (iblock_meta a p L Hin) as [Hib Hnb].
  pose proof (w_sb _ _ _ _ _ _ _ X) as Esb. pose proof (w_file _ _ _ _ _ _ _ X) as Fo1.
  assert (Hds : dstart a1 = dstart a) by (unfold dstart, bblock; by rewrite Esb).
  assert (Hnb1 : nonbm a1 b) by (by eapply nonbm_sb).
  set (d := put_dinode _ _ _). set (a2 := a_put_inode i p2 a1).
  assert (Fo2 : file_ok a2 p2) by (apply file_ok_put_inode; by eapply file_ok_fields; [..|exact Fo1]).
  assert (L2 : layout_ok a2) by (by apply layout_put_inode).
  assert (Hb2 : nonbm a2 b /\ b < dstart a2).
  { split; [exact Hnb1|]. change (dstart a2) with (dstart a1). unfold b. lia. }
  destruct Hb2 as [Hnb2 Hbs].
  destruct (file_update_meta a2 p2 b d) as [Fo3 Hm3]; try done.
  assert (Hbyte : forall x, 0 <= x < off + n ->
    byte_at (a_update b d a2) p2 x = byte_at a1 p1 x /\ in_map (x / Z.of_nat BSIZE) /\
    fmap a2 p2 (x / Z.of_nat BSIZE) <> 0).
  { intros x Hx. destruct (written_byte x) as (_ & H1 & H2); [lia|].
    rewrite byte_update_meta by done. done. }
  assert (Ef : p1 = with_addrs (i_addrs p1) p) by apply X.
  assert (Einum : i_inum p2 = i_inum p) by (unfold p2; rewrite Ef; done).
  split.
  - split.
    + simpl. apply list_lookup_insert_eq. rewrite (w_icache _ _ _ _ _ _ _ X), length_insert.
      eapply lookup_lt_Some, O.
    + unfold p2. rewrite Ef. simpl. apply O.
    + simpl. lia.
    + exact Fo3.
    + intros x Hx. simpl in Hx. rewrite Hm3. destruct (Hbyte x) as (_ & H1 & H2); [lia|]. done.
  - unfold isync. rewrite Einum. fold b. simpl a_view. rewrite decide_True by done.
    unfold d. apply get_put_dinode.
    + destruct Hok as (K1 & K2 & K3 & K4 & K5 & K6 & K7). unfold p2. rewrite Ef.
      repeat split; simpl; try apply K1; try apply K2; try apply K3; try apply K4.
      all: unfold MAXFILE, BSIZE in Hmax; try lia.
      * rewrite (fo_len _ _ Fo1). done.
      * by apply (file_ok_addrs a1 p1).
    + fold b. unfold b. rewrite Hlen. pose proof (inode_index_lt (i_inum p)). lia.
  - simpl. lia.
  - intros x Hx. simpl in Hx. destruct (Hbyte x Hx) as (-> & _). apply written_byte. lia.
  - intros y Hy Hu Hmp Hi. simpl a_view. rewrite decide_False by (unfold b; lia). by apply written_frame.
Qed.
End written.

Lemma wp_writei dtab s a i p src off n T (Q : Z -> fstate -> Prop) :
  let t := Z.to_nat (turns off n) in
  rep s [] a -> wctx T (t + ind p) (t + ind p) a -> open_file a i p -> isync a p -> inum_ok a p ->
  dinode_ok (dinode_of p) -> (addr_of p NDIRECT <> 0 -> addr_of p NDIRECT ∈ T) ->
  IBLOCK (i_inum p) ∈ T ->
  0 <= off <= i_size p -> 0 <= n -> (Z.to_nat n <= length src)%nat ->
  off + n <= MAXFILE * Z.of_nat BSIZE ->
  (forall s' a' p' T', rep s' [] a' -> written_file i src off n a p a' p' -> wctx T' 0 0 a' -> Q n s') ->
  wp (writei dtab i src off n) Q s.
Proof.
  intros t R W O Hsync Hin Hok HT HTi Hoff Hn Hsrc Hmax HQ. pose proof O as [O1 O2 O3 O4 O5].
  pose proof (wc_lay _ _ _ _ W) as L. unfold MAXFILE, BSIZE in Hmax, O3.
  unfold writei. apply wp_bind, (wp_get_inode _ _ _ _ _ _ R O1).
  zif; [lia|]. assert (Eu : u32 (off + n) = off + n) by (apply u32_small; lia). rewrite Eu.
  zif; [lia|]. unfold MAXFILE, BSIZE. zif; [lia|]. apply wp_bind.
  eapply (wp_writei_loop s a i p src n 0 off (blocks_fuel n) T 0 0); try done; try lia.
  { rewrite Z.sub_0_r. fold t. rewrite Nat.add_0_r. exact W. }
  { rewrite Z.sub_0_r. unfold MAXFILE, BSIZE. lia. }
  { rewrite Z.sub_0_r. apply turns_fuel; lia. }
  intros s1 a1 p1 T1 R1 X1 W1 HT1. rewrite Z.sub_0_r in *. change (Z.to_nat 0) with 0%nat in X1.
  pose proof (wc_lay _ _ _ _ W1) as L1.
  assert (Hi1 : a_icache a1 !! i = Some p1).
  { rewrite (w_icache _ _ _ _ _ _ _ X1). apply list_lookup_insert_eq. by eapply lookup_lt_Some. }
  assert (Es : i_size p1 = i_size p /\ i_dev p1 = i_dev p /\ i_inum p1 = i_inum p)
    by (rewrite (w_fields _ _ _ _ _ _ _ X1); done).
  destruct Es as (Es & Ed & Ei).
  assert (Hmax' : off + n <= MAXFILE * Z.of_nat BSIZE) by (unfold MAXFILE, BSIZE; lia).
  apply wp_bind, (wp_get_inode _ _ _ _ _ _ R1 Hi1). rewrite Es.
  destruct ((0 <? n) && (i_size p <? off + n)) eqn:Eg.
  - apply andb_true_iff in Eg as [Eg1 Eg2]. apply wp_bind, wp_bind, (wp_put_inode _ _ _ _ _ _ R1).
    intros s2 R2. set (p2 := with_size (off + n) p1) in *.
    assert (Hlen : length (a_view a1 (IBLOCK (i_inum p))) = BSIZE) by (by eapply rep_length).
    assert (Wf := written_grown i src off n a p a1 p1 L L1 O Hsync Hin Hok Hoff Hn Hsrc Hmax' X1
                    ltac:(lia) ltac:(lia) Hlen). cbv zeta in Wf. fold p2 in Wf.
    destruct (iblock_meta a p L Hin) as [Hib Hnb]. pose proof (w_sb _ _ _ _ _ _ _ X1) as Esb.
    assert (W2 : wctx T1 (0 + ind p1) (0 + ind p1) (a_put_inode i p2 a1)) by (by apply wctx_put_inode).
    eapply (wp_iupdate s2 _ i p2); [exact R2|exact W2| | | | |].
    + simpl. apply list_lookup_insert_eq. by eapply lookup_lt_Some.
    + simpl. rewrite Ed. apply O4.
    + unfold inum_ok. change (i_inum p2) with (i_inum p1). rewrite Ei.
      change (sb_of (a_put_inode i p2 a1)) with (sb_of a1). by rewrite Esb.
    + simpl. apply X1.
    + intros s3 R3. apply wp_ret. change (i_inum p2) with (i_inum p1) in R3. rewrite Ei in R3.
      assert (W3 : wctx T1 (0 + ind p1) (0 + ind p1) (a_update (IBLOCK (i_inum p))
        (put_dinode (a_view (a_put_inode i p2 a1) (IBLOCK (i_inum p))) (inode_index (i_inum p)) (dinode_of p2))
        (a_put_inode i p2 a1))).
      { apply wctx_update; [done|set_solver| |by eapply nonbm_sb].
        apply (w_home _ _ _ _ _ _ _ X1). by apply (la_home _ L). }
      eapply HQ; [exact R3|exact Wf|]. eapply wctx_le; [exact W3|lia|lia].
  - apply andb_false_iff in Eg.
    destruct (written_within i src off n a p a1 p1) as [Ep Wf]; try done; [lia|].
    apply wp_bind, wp_ret, wp_ret. eapply HQ; [exact R1|exact Wf|]. eapply wctx_le; [exact W1|lia|lia].
Qed.

(** C13: [writei] of [n] bytes at an offset inside the file or at its end
    returns [n] and makes the file's bytes [off .. off + n) those of the
    source, leaves its other bytes and the data blocks of other files alone,
    grows the size when the range ends past it, and keeps the inode on disk
    in step with the one in memory.  The block map may have to be extended,
    through the indirect block as well. *)
Theorem writei_correct dtab s a i p src off n T :
  let t := (Z.to_nat (turns off n) + ind p)%nat in
  rep s [] a -> wctx T t t a -> open_file a i p -> isync a p -> inum_ok a p ->
  dinode_ok (dinode_of p) -> (addr_of p NDIRECT <> 0 -> addr_of p NDIRECT ∈ T) ->
  IBLOCK (i_inum p) ∈ T ->
  0 <= off <= i_size p -> 0 <= n -> (Z.to_nat n <= length src)%nat ->
  off + n <= MAXFILE * Z.of_nat BSIZE ->
  exists s' a' p', writei dtab i src off n s = Ok n s' /\ rep s' [] a' /\
    written_file i src off n a p a' p' /\ exists T', wctx T' 0 0 a'.
Proof.
  intros t R W O Hsync Hin Hok HT HTi Hoff Hn Hsrc Hmax.
  pose proof (wp_writei dtab s a i p src off n T (fun r s' => r = n /\ exists a' p',
    rep s' [] a' /\ written_file i src off n a p a' p' /\ exists T', wctx T' 0 0 a')) as H.
  apply wp_iff in H as (r & s' & Hrun & -> & a' & p' & H'); try done.
  - by exists s', a', p'.
  - intros s' a' p' T' ? ? ?. split; [done|]. exists a', p'. split; [done|]. split; [done|]. by exists T'.
Qed.

(** C4: What is written is what is read: reading the range just written
    returns the bytes given to [writei]. *)
Theorem readi_after_writei dtab s a i p src off n T :
  let t := (Z.to_nat (turns off n) + ind p)%nat in
  rep s [] a -> wctx T t t a -> open_file a i p -> isync a p -> inum_ok a p ->
  dinode_ok (dinode_of p) -> (addr_of p NDIRECT <> 0 -> addr_of p NDIRECT ∈ T) ->
  IBLOCK (i_inum p) ∈ T ->
  0 <= off <= i_size p -> 0 <= n -> (Z.to_nat n <= length src)%nat ->
  off + n <= MAXFILE * Z.of_nat BSIZE ->
  wp (writei dtab i src off n ;; readi dtab i off n)
     (fun r _ => r = (n, take (Z.to_nat n) src)) s.
Proof.
  intros t R W O Hsync Hin Hok HT HTi Hoff Hn Hsrc Hmax. apply wp_bind.
  eapply (wp_writei dtab s a i p src off n T); try done. intros s1 a1 p1 T1 R1 [Wo Ws Wz Wb Wf] [Tx1 L1 F1 _ _].
  pose proof (of_size _ _ _ Wo) as Hsz. unfold MAXFILE, BSIZE in Hmax, Hsz.
  eapply (wp_readi dtab s1 a1 i p1 off n); [exact R1|exact Tx1|exact F1|done|lia|lia|].
  intros s2 R2. replace (_ || _) with false by lia. rewrite Z.min_l by lia. f_equal.
  apply list_eq. intros k. destruct (decide (k < Z.to_nat n)%nat) as [Hk|Hk].
  - rewrite fbytes_lookup by done. rewrite Wb by lia. zif; [|lia].
    rewrite lookup_take_lt by done. replace (Z.to_nat (off + Z.of_nat k - off)) with k by lia.
    symmetry. apply lookup_nth. lia.
  - rewrite !lookup_ge_None_2; [done|rewrite length_take; lia|rewrite length_fbytes; lia].
Qed.
