(* ===== verification/FsDemo.v ===== *)
(** * A small file system

    Forty sectors: superblock, one block of inodes, the bitmap at sector 4,
    data blocks 5 to 9 and a log of thirty.  The theorems about fs.c are
    applied to it. *)

From S2P Require Import Prelude Monad Locks FsState FsLayout Bio BlockSpec Log LogSpec Txn Fs Bitmap FsSpec FileSpec WriteSpec WriteiSpec.

Open Scope Z_scope.
Open Scope kernel_scope.

(** Inode 1, an empty file, locked in slot 0 of the inode cache. *)
Definition p0 : inode := mkInode 1 1 1 true true T_FILE 0 0 1 0 (replicate 13 0).

(** The disk, with the bytes [bm] at the start of the bitmap. *)
Definition ddisk (bm : list Z) : gmap (Z * Z) (list Z) :=
  <[(1, 1) := LogDemo.sb_block]>
  (<[(1, 2) := put_dinode zero_block 1 (dinode_of p0)]>
  {[ (1, 4) := splice 0 bm zero_block ]}).

Definition ds (bm : list Z) : fstate :=
  mkFs (replicate NBUF (mkBuf false false false 0 0 zero_block)) [] (ddisk bm) 40 []
       LogDemo.log0 [p0] (mkThread [] []).

(** The abstract state of the machine booted from it, inside a transaction. *)
Definition da (bm : list Z) : ablk :=
  mkA (dget (ddisk bm) 1) [] (ddisk bm) [] LogDemo.log0 [p0] 40 [].

Lemma ddisk_blocks bm x : (length bm <= 2)%nat -> length (dget (ddisk bm) 1 x) = BSIZE.
Proof.
  intros Hbm. unfold ddisk. rewrite !dget_insert.
  destruct (decide _); [apply LogDemo.length_sb_block|].
  destruct (decide _).
  { rewrite length_put_dinode; rewrite ?length_zero_block; unfold BSIZE; simpl; lia. }
  unfold dget. destruct (decide (x = 4)) as [->|].
  - rewrite lookup_singleton_eq. simpl. rewrite length_splice; rewrite length_zero_block; [done|].
    unfold BSIZE. lia.
  - rewrite lookup_singleton_ne by congruence. apply length_zero_block.
Qed.

Lemma da_rep bm : (length bm <= 2)%nat -> exists s, rep s [] (da bm).
Proof.
  intros Hbm. destruct (binit_reboots (ds bm)) as (r & _ & Hreb & Hlog & Hic & Hw & _).
  { split; [done|]. split; [done|]. split; [done|]. intros x. by apply ddisk_blocks. }
  exists r. pose proof (rebooted_rep _ _ _ Hreb) as R.
  destruct Hreb as (_ & _ & Hdisk & Hsz & _). unfold boot_ablk in R.
  rewrite Hlog, Hic, Hw, Hdisk, Hsz in R. exact R.
Qed.

Section layout.
Context (bm : list Z).

Lemma da_sb : sb_of (da bm) = mkSb 40 5 8 30.
Proof. unfold sb_of, da, ddisk. cbn [a_view]. rewrite dget_insert, decide_True by done. vm_compute. done. Qed.

Lemma da_bblock b : 0 <= b < 40 -> bblock (da bm) b = 4.
Proof. intros Hb. unfold bblock. rewrite da_sb. unfold BBLOCK, BPB, IPB. simpl. zlia. Qed.

Lemma da_dstart : dstart (da bm) = 5.
Proof. unfold dstart. rewrite da_bblock; [done|]. rewrite da_sb. simpl. lia. Qed.

Lemma da_home x : 0 <= x < 10 -> home (da bm) x.
Proof. intros Hx. unfold home, in_log. simpl. lia. Qed.

Lemma da_txn : txn (da bm).
Proof.
  split; [|simpl; lia]. split; [|done|apply NoDup_nil_2].
  split; simpl; try done; try lia.
  - unfold lsecs. simpl. set_solver.
  - unfold lsecs. simpl. set_solver.
  - split; apply not_elem_of_nil.
Qed.

Lemma da_view4 : a_view (da bm) 4 = splice 0 bm zero_block.
Proof. reflexivity. Qed.

Lemma da_used b : 0 <= b < 40 -> used (da bm) b = bit (splice 0 bm zero_block) (Z.to_nat b).
Proof.
  intros Hb. unfold used. rewrite da_bblock by done. rewrite da_view4. f_equal.
  unfold bindex, BPB. rewrite Z.mod_small; lia.
Qed.

Lemma da_layout :
  (forall b, (b < 5)%nat -> bit (splice 0 bm zero_block) b = true) -> layout_ok (da bm).
Proof.
  intros Hm. split.
  - split; rewrite ?da_sb; simpl; try lia. intros b Hb. rewrite da_bblock by lia. by apply da_home.
  - rewrite da_sb. simpl. lia.
  - rewrite da_dstart. intros x Hx. rewrite da_used by lia. apply Hm. lia.
  - rewrite da_dstart, da_sb. simpl. lia.
  - rewrite da_dstart. intros x Hx. apply da_home. lia.
  - rewrite da_sb. simpl. lia.
Qed.

Lemma da_fits T k : (length T + k < 27)%nat -> fits T k (da bm).
Proof.
  intros HT. exists T. unfold lsecs. simpl. unfold LOGSIZE. split; [set_solver|]. split; [done|]. lia.
Qed.
End layout.

(** Blocks 0 to 4 in use: the first free one is 5. *)
Definition bm_fresh : list Z := [31].
(** Every block before the log in use. *)
Definition bm_full : list Z := [255; 3].

Lemma fresh_layout : layout_ok (da bm_fresh).
Proof. apply da_layout. intros b Hb. do 5 (destruct b as [|b]; [vm_compute; done|]). lia. Qed.

Lemma fresh_free b : 5 <= b < 10 -> used (da bm_fresh) b = false.
Proof.
  intros Hb. rewrite da_used by lia.
  assert (b = 5 \/ b = 6 \/ b = 7 \/ b = 8 \/ b = 9) as Hc by lia.
  destruct Hc as [->|[->|[->|[->| ->]]]]; vm_compute; done.
Qed.

Lemma fresh_first : first_free (da bm_fresh) 5.
Proof.
  split; [rewrite da_sb; simpl; lia|]. split; [apply fresh_free; lia|].
  intros b Hb. apply fresh_layout. rewrite da_dstart. lia.
Qed.

Lemma balloc_first_free_witness :
  exists s s' a', balloc 1 s = Ok 5 s' /\ rep s' [] a' /\ txn a' /\ layout_ok a' /\
    view s' 5 = zero_block /\
    (forall b, 0 <= b < sb_size (sb_of (da bm_fresh)) -> used a' b = (b =? 5) || used (da bm_fresh) b) /\
    (forall x, x <> 5 -> x <> bblock (da bm_fresh) 5 -> view s' x = view s x).
Proof.
  destruct (da_rep bm_fresh) as [s R]; [simpl; lia|]. exists s.
  apply (balloc_first_free s (da bm_fresh) 5 R (da_txn _) fresh_layout).
  - apply da_fits. simpl. lia.
  - exact fresh_first.
  - apply da_home. lia.
Defined.

Lemma bfree_after_balloc_witness :
  exists s, wp (do b <- balloc 1; bfree 1 b)
     (fun _ s' => forall x, view s' x = if decide (x = 5) then zero_block else view s x) s.
Proof.
  destruct (da_rep bm_fresh) as [s R]; [simpl; lia|]. exists s.
  apply (bfree_after_balloc s (da bm_fresh) 5 R (da_txn _) fresh_layout).
  - apply da_fits. simpl. lia.
  - exact fresh_first.
  - apply da_home. lia.
Defined.

Lemma balloc_takes_log_header_witness :
  exists s, wp (balloc 1) (fun r s' => r = l_start (log s) /\ l_start (log s) ∈ lsecs (log s')) s.
Proof.
  destruct (da_rep bm_full) as [s R]; [simpl; lia|]. exists s.
  assert (Hu : forall b, (b < 10)%nat -> bit (splice 0 bm_full zero_block) b = true).
  { intros b Hb. do 10 (destruct b as [|b]; [vm_compute; done|]). lia. }
  apply (balloc_takes_log_header s (da bm_full) R (da_txn _)).
  - apply da_layout. intros. apply Hu. lia.
  - apply da_fits. simpl. lia.
  - rewrite da_sb. simpl. lia.
  - simpl. lia.
  - simpl. intros b Hb. rewrite da_used by lia. apply Hu. lia.
  - simpl. rewrite da_used by lia. vm_compute. done.
Defined.

Lemma fresh_map bn : in_map bn -> fmap (da bm_fresh) p0 bn = 0.
Proof.
  intros Hb. unfold fmap, addr_of. cbn [i_addrs p0]. zif; [|done].
  unfold in_map, NDIRECT in *. by rewrite nth_lookup, lookup_replicate_2 by lia.
Qed.

Lemma fresh_open : open_file (da bm_fresh) 0 p0.
Proof.
  split; try done.
  - split; try done.
    + intros bn Hb. by rewrite fresh_map.
    + intros bn bn' Hb _. by rewrite fresh_map.
  - intros x Hx. simpl in Hx. lia.
Qed.

Lemma fresh_sync : isync (da bm_fresh) p0.
Proof. vm_compute. done. Qed.

Lemma fresh_ctx : wctx [4; 2] 3 3 (da bm_fresh).
Proof.
  split.
  - apply da_txn.
  - exact fresh_layout.
  - apply da_fits. simpl. lia.
  - exists [5; 6; 7]. split; [|split; [done|]].
    + repeat (apply NoDup_cons; split; [set_solver|]). apply NoDup_nil_2.
    + intros b Hb. rewrite da_sb. simpl.
      assert (5 <= b < 8) by (rewrite !elem_of_cons, elem_of_nil in Hb; lia).
      split; [lia|]. split; [lia|]. apply fresh_free. lia.
  - intros b Hb. rewrite da_sb in Hb. simpl in Hb. rewrite da_bblock by lia. set_solver.
Qed.

Lemma fresh_inum : inum_ok (da bm_fresh) p0.
Proof. unfold inum_ok. rewrite da_sb. simpl. lia. Qed.

Lemma fresh_dinode : dinode_ok (dinode_of p0).
Proof. unfold dinode_ok. simpl. unfold T_FILE. repeat (split; [lia|]). by repeat constructor. Qed.

(** Seven hundred bytes, which need two blocks. *)
Definition text : list Z := replicate 700 65.

Lemma text_turns : (Z.to_nat (turns 0 700) + ind p0 = 3)%nat.
Proof. reflexivity. Qed.

Lemma writei_correct_witness :
  exists s s' a' p', writei (fun _ => mkDevsw None None) 0 text 0 700 s = Ok 700 s' /\ rep s' [] a' /\
    written_file 0 text 0 700 (da bm_fresh) p0 a' p' /\ exists T', wctx T' 0 0 a'.
Proof.
  destruct (da_rep bm_fresh) as [s R]; [simpl; lia|]. exists s.
  apply (writei_correct (fun _ => mkDevsw None None) s (da bm_fresh) 0 p0 text 0 700 [4; 2] R).
  - rewrite text_turns. exact fresh_ctx.
  - exact fresh_open.
  - exact fresh_sync.
  - exact fresh_inum.
  - exact fresh_dinode.
  - intros H. by destruct H.
  - vm_compute. set_solver.
  - simpl. lia.
  - lia.
  - unfold text. rewrite length_replicate. lia.
  - unfold MAXFILE, BSIZE. lia.
Defined.

Lemma readi_after_writei_witness :
  exists s, wp (writei (fun _ => mkDevsw None None) 0 text 0 700 ;;
                readi (fun _ => mkDevsw None None) 0 0 700)
     (fun r _ => r = (700, take (Z.to_nat 700) text)) s.
Proof.
  destruct (da_rep bm_fresh) as [s R]; [simpl; lia|]. exists s.
  apply (readi_after_writei (fun _ => mkDevsw None None) s (da bm_fresh) 0 p0 text 0 700 [4; 2] R).
  - rewrite text_turns. exact fresh_ctx.
  - exact fresh_open.
  - exact fresh_sync.
  - exact fresh_inum.
  - exact fresh_dinode.
  - intros H. by destruct H.
  - vm_compute. set_solver.
  - simpl. lia.
  - lia.
  - unfold text. rewrite length_replicate. lia.
  - unfold MAXFILE, BSIZE. lia.
Defined.

Lemma readi_correct_witness :
  exists s s', rep s' [] (da bm_fresh) /\
    readi (fun _ => mkDevsw None None) 0 0 10 s =
      Ok (if (i_size p0 <? 0) || (2 ^ 32 <=? 0 + 10) then (-1, [])
          else let m := Z.min 10 (i_size p0 - 0) in (m, fbytes (da bm_fresh) p0 0 (Z.to_nat m))) s'.
Proof.
  destruct (da_rep bm_fresh) as [s R]; [simpl; lia|]. exists s.
  apply (readi_correct (fun _ => mkDevsw None None) s (da bm_fresh) 0 p0 0 10 R (da_txn _)); try lia.
  - apply da_fits. simpl. lia.
  - exact fresh_open.
Defined.
