(* ===== verification/InodeSpec.v ===== *)
(** * fs.c is correct: the inode cache

    Reference counts and the uniqueness of cache entries, and what
    [iunlockput] does to an unlinked file. *)

From S2P Require Import Prelude Monad Locks FsState FsLayout Bio Log Fs.

Open Scope Z_scope.
Open Scope kernel_scope.

(** An entry in use for inode [inum] of [dev]. *)
Definition holds (dev inum : Z) (p : inode) : Prop :=
  0 < i_ref p /\ i_dev p = dev /\ i_inum p = inum.

#[export] Instance holds_dec dev inum p : Decision (holds dev inum p).
Proof. unfold holds. apply _. Defined.

(** At most one entry in use per inode, and no count below zero. *)
Record ic_ok (c : list inode) : Prop := mkIcOk {
  ic_uniq : forall i j p q dev inum, c !! i = Some p -> c !! j = Some q ->
    holds dev inum p -> holds dev inum q -> i = j;
  ic_ref : forall i p, c !! i = Some p -> 0 <= i_ref p
}.

Lemma ic_ok_insert c i p :
  ic_ok c -> (i < length c)%nat -> 0 <= i_ref p ->
  (forall j q dev inum, c !! j = Some q -> holds dev inum q -> holds dev inum p -> j = i) ->
  ic_ok (<[i := p]> c).
Proof.
  intros [Hu Hr] Hi Hp Hn.
  assert (Hl : forall j q, <[i := p]> c !! j = Some q -> (j = i /\ q = p) \/ (j <> i /\ c !! j = Some q)).
  { intros j q. destruct (decide (j = i)) as [->|].
    - rewrite list_lookup_insert_eq by done. naive_solver.
    - rewrite list_lookup_insert_ne by done. naive_solver. }
  split.
  - intros j k q r dev inum Hj Hk Hq Hr'.
    destruct (Hl _ _ Hj) as [[-> ->]|[? Hj']], (Hl _ _ Hk) as [[-> ->]|[? Hk']]; [done| | |eauto].
    + symmetry. by eapply Hn.
    + by eapply Hn.
  - intros j q Hj. destruct (Hl _ _ Hj) as [[-> ->]|[_ Hj']]; [done|eauto].
Qed.

Lemma match_holds dev inum p :
  (0 <? i_ref p) && (i_dev p =? dev) && (i_inum p =? inum) = true <-> holds dev inum p.
Proof. unfold holds. lia. Qed.

(** The outcome of iget. *)
Lemma iget_run dev inum s :
  LkIcache ∉ held (fthr s) ->
  let c := icache s in
  iget dev inum s =
    match find_idx (fun p => (0 <? i_ref p) && (i_dev p =? dev) && (i_inum p =? inum)) c with
    | Some i =>
        match c !! i with
        | Some p => Ok i (set_icache (<[i := with_ref (i_ref p + 1) p]> c) s)
        | None => Fault "bad inode pointer"
        end
    | None =>
        match find_idx (fun p => i_ref p =? 0) c with
        | Some i =>
            match c !! i with
            | Some p => Ok i (set_icache (<[i := mkInode dev inum 1 false false (i_type p) (i_major p)
                                (i_minor p) (i_nlink p) (i_size p) (i_addrs p)]> c) s)
            | None => Fault "bad inode pointer"
            end
        | None => Panic "iget: no inodes"
        end
    end.
Proof.
  intros Hl c. destruct s as [bs lr dk sz ws lg ic [h w]]. simpl in Hl. subst c.
  unfold iget. erewrite bind_Ok by (apply acquire_ok; exact Hl).
  unfold bind, gets, get_inode, put_inode, modify, ret, panic. simpl.
  destruct (find_idx _ ic) as [i|].
  - simpl. destruct (ic !! i); [|done]. by erewrite release_top by reflexivity.
  - destruct (find_idx _ ic) as [i|]; [|done]. simpl.
    destruct (ic !! i); [|done]. by erewrite release_top by reflexivity.
Qed.

(** [iget] gives the one cache entry of an inode.  If an entry is in use
    for it, that entry is returned with one more reference; otherwise a free
    entry is set up with one reference and not valid.  No other entry
    changes, there is still at most one entry per inode, and it fails only
    when every entry is in use. *)
Theorem iget_unique dev inum s :
  ic_ok (icache s) -> LkIcache ∉ held (fthr s) ->
  (exists i s' p', iget dev inum s = Ok i s' /\ ic_ok (icache s') /\
     icache s' !! i = Some p' /\ holds dev inum p' /\
     (forall j, j <> i -> icache s' !! j = icache s !! j) /\
     held (fthr s') = held (fthr s) /\
     ((exists p, icache s !! i = Some p /\ holds dev inum p /\ p' = with_ref (i_ref p + 1) p) \/
      ((forall j q, icache s !! j = Some q -> ~ holds dev inum q) /\
       (exists p, icache s !! i = Some p /\ i_ref p = 0) /\ i_ref p' = 1 /\ i_valid p' = false)))
  \/ (iget dev inum s = Panic "iget: no inodes" /\
      forall j q, icache s !! j = Some q -> 0 < i_ref q).
Proof.
  intros Hok Hl. rewrite iget_run by done. destruct (find_idx _ (icache s)) as [i|] eqn:E.
  - apply find_idx_Some in E as (p & Hp & Hm & _). apply match_holds in Hm. rewrite Hp. left.
    pose proof (lookup_lt_Some _ _ _ Hp) as Hlt.
    eexists i, _, (with_ref (i_ref p + 1) p). split; [done|]. simpl.
    assert (Hh : forall d n, holds d n (with_ref (i_ref p + 1) p) -> holds d n p)
      by (unfold holds in *; simpl; intros; lia).
    split; [|split; [by apply list_lookup_insert_eq|split; [unfold holds in *; simpl; lia|]]].
    + apply ic_ok_insert; [done|done|unfold holds in *; simpl; lia|].
      intros j q d n Hj Hq Hp'. by eapply (ic_uniq _ Hok); [..|apply Hh].
    + split; [intros; by apply list_lookup_insert_ne|]. split; [done|]. left. by exists p.
  - assert (Hno : forall j q, icache s !! j = Some q -> ~ holds dev inum q).
    { apply find_idx_None in E. intros j q Hj Hq. apply match_holds in Hq.
      rewrite (Forall_lookup_1 _ _ _ _ E Hj) in Hq. done. }
    destruct (find_idx (fun p => i_ref p =? 0) (icache s)) as [i|] eqn:Ef.
    + left. apply find_idx_Some in Ef as (p & Hp & Hr & _). rewrite Hp.
      pose proof (lookup_lt_Some _ _ _ Hp) as Hlt.
      eexists i, _, _. split; [done|]. simpl.
      split; [|split; [by apply list_lookup_insert_eq|split; [unfold holds; simpl; lia|]]].
      * apply ic_ok_insert; [done|done|simpl; lia|]. intros j q d n Hj Hq (_ & <- & <-).
        by destruct (Hno j q Hj).
      * split; [intros; by apply list_lookup_insert_ne|]. split; [done|]. right.
        split; [done|]. split; [exists p; split; [done|lia]|]. done.
    + right. split; [done|]. intros j q Hj. apply find_idx_None in Ef.
      pose proof (Forall_lookup_1 _ _ _ _ Ef Hj). pose proof (ic_ref _ Hok _ _ Hj). simpl in *. lia.
Qed.

(** C40: An unlinked file is never freed.  [iunlock] clears the valid flag, so
    the [iput] that follows it in [iunlockput] only drops the reference: even
    for the last reference to an inode without links nothing is truncated, no
    block is read or written and the inode keeps its type. *)
Theorem iunlockput_never_frees s i p :
  held (fthr s) = [] -> icache s !! i = Some p -> i_busy p = true -> 1 <= i_ref p ->
  exists s', iunlockput i s = Ok tt s' /\
    icache s' = <[i := with_ref (i_ref p - 1) (with_flags false false p)]> (icache s) /\
    bufs s' = bufs s /\ disk s' = disk s /\ writes s' = writes s /\ log s' = log s.
Proof.
  intros Hh Hp Hb Hr. destruct s as [bs lr dk sz ws lg ic [h w]]. simpl in Hh, Hp. subst h.
  pose proof (lookup_lt_Some _ _ _ Hp) as Hlt.
  set (p1 := with_flags false false p).
  assert (E1 : iunlock (Some i) (mkFs bs lr dk sz ws lg ic (mkThread [] w)) =
    Ok tt (mkFs bs lr dk sz ws lg (<[i := p1]> ic) (mkThread [] (wakes (fthr (add_wake (ChInode i)
      (mkFs bs lr dk sz ws lg ic (mkThread [] w)))))))).
  { unfold iunlock, bind, get_inode. simpl icache. rewrite Hp, Hb. zif; [lia|].
    rewrite acquire_ok by (simpl; apply not_elem_of_nil). unfold put_inode, modify. simpl. rewrite Hp.
    rewrite wakeup_ok by (simpl; set_solver). by erewrite release_top by reflexivity. }
  unfold iunlockput. rewrite (bind_Ok _ _ _ _ _ E1). unfold iput.
  erewrite bind_Ok by (apply acquire_ok; simpl; apply not_elem_of_nil).
  unfold bind, get_inode, put_inode, modify, ret. simpl.
  rewrite list_lookup_insert_eq by done. rewrite andb_false_r. simpl.
  rewrite list_lookup_insert_eq by done. erewrite release_top by reflexivity.
  eexists. split; [reflexivity|]. simpl. by rewrite list_insert_insert_eq.
Qed.

Module InodeDemo.

Definition unlinked : inode := mkInode 1 7 1 true true T_FILE 0 0 0 512 (replicate 13 9).
Definition s0 : fstate :=
  mkFs [] [] ∅ 40 [] (mkLog 10 30 1 false 1 0 []) [unlinked] (mkThread [] []).

Lemma iunlockput_never_frees_witness :
  i_nlink unlinked = 0 /\ i_ref unlinked = 1 /\
  exists s', iunlockput 0 s0 = Ok tt s' /\
    icache s' = <[0%nat := with_ref (i_ref unlinked - 1) (with_flags false false unlinked)]> (icache s0) /\
    bufs s' = bufs s0 /\ disk s' = disk s0 /\ writes s' = writes s0 /\ log s' = log s0.
Proof.
  split; [reflexivity|]. split; [reflexivity|].
  apply (iunlockput_never_frees s0 0 unlinked); try reflexivity.
Defined.

Lemma iget_unique_witness :
  (exists i s' p', iget 1 7 s0 = Ok i s' /\ ic_ok (icache s') /\
     icache s' !! i = Some p' /\ holds 1 7 p' /\
     (forall j, j <> i -> icache s' !! j = icache s0 !! j) /\
     held (fthr s') = held (fthr s0) /\
     ((exists p, icache s0 !! i = Some p /\ holds 1 7 p /\ p' = with_ref (i_ref p + 1) p) \/
      ((forall j q, icache s0 !! j = Some q -> ~ holds 1 7 q) /\
       (exists p, icache s0 !! i = Some p /\ i_ref p = 0) /\ i_ref p' = 1 /\ i_valid p' = false)))
  \/ (iget 1 7 s0 = Panic "iget: no inodes" /\
      forall j q, icache s0 !! j = Some q -> 0 < i_ref q).
Proof.
  apply (iget_unique 1 7 s0).
  - split.
    + intros [|i] [|j] p q dev inum Hi Hj; simpl in *; done.
    + intros [|i] p Hi; simpl in Hi; [|done]. injection Hi as <-. simpl. lia.
  - simpl. apply not_elem_of_nil.
Defined.

End InodeDemo.
