(* ===== verification/Mkfs.v ===== *)
(** * mkfs.c: building the disk image

    The image is a function from sectors to blocks.  A file on the host is its
    name as it stands on the command line and the pieces that read delivers, of
    at most 512 bytes each.  An assertion that fails, or an exit, is [None].
    xshort and xint are the identity on a little-endian host and are left out
    of the definitions. *)

From S2P Require Import Prelude Monad Locks Memory CString FsState FsLayout Bio Log Fs.

Open Scope Z_scope.

(** The bytes [a[0]], [a[1]], ... of [y], read back as a number. *)
Definition xshort (x : Z) : Z := le_val [u8 x; u8 (Z.shiftr x 8)].
Definition xint (x : Z) : Z := le_val [u8 x; u8 (Z.shiftr x 8); u8 (Z.shiftr x 16); u8 (Z.shiftr x 24)].

Lemma xint_id x : 0 <= x < 2 ^ 32 -> xint x = x.
Proof. intros Hx. unfold xint, u8. cbn [le_val]. rewrite !Z.shiftr_div_pow2 by lia. zlia. Qed.

Lemma xshort_id x : 0 <= x < 2 ^ 16 -> xshort x = x.
Proof. intros Hx. unfold xshort, u8. cbn [le_val]. rewrite !Z.shiftr_div_pow2 by lia. zlia. Qed.

Definition fs_nlog : Z := LOGSIZE.
Definition fs_nblocks : Z := 995 - LOGSIZE.
Definition fs_ninodes : Z := 200.
Definition fs_size : Z := 1024.

Record mkst : Type := mkMk {
  mk_img : Z -> list Z;
  freeblock : Z;
  usedblocks : Z;
  freeinode : Z
}.

Definition wsect (sec : Z) (buf : list Z) (s : mkst) : mkst :=
  mkMk (fun x => if x =? sec then buf else mk_img s x) (freeblock s) (usedblocks s) (freeinode s).
Definition rsect (sec : Z) (s : mkst) : list Z := mk_img s sec.

(** freeblock++ and usedblocks++. *)
Definition take_freeblock (s : mkst) : Z * mkst :=
  (freeblock s, mkMk (mk_img s) (u32 (freeblock s + 1)) (u32 (usedblocks s + 1)) (freeinode s)).

Definition i2b (inum : Z) : Z := inum / IPB + 2.

Definition winode (inum : Z) (ip : dinode) (s : mkst) : mkst :=
  wsect (i2b inum) (put_dinode (rsect (i2b inum) s) (inode_index inum) ip) s.
Definition rinode (inum : Z) (s : mkst) : dinode := get_dinode (rsect (i2b inum) s) (inode_index inum).

Definition ialloc (type : Z) (s : mkst) : Z * mkst :=
  let inum := freeinode s in
  let s := mkMk (mk_img s) (freeblock s) (usedblocks s) (u32 (freeinode s + 1)) in
  (inum, winode inum (mkDinode (s16 type) 0 0 1 0 (repeat 0 13)) s).

(** The bitmap with the first [n] bits set. *)
Fixpoint first_bits (n : nat) : list Z :=
  match n with
  | O => zero_block
  | S n => set_bit (first_bits n) n
  end.

Definition balloc (used : Z) (s : mkst) : option mkst :=
  if used <? 512 * 8 then Some (wsect (fs_ninodes / IPB + 3) (first_bits (Z.to_nat used)) s) else None.

Definition d_addr (din : dinode) (k : nat) : Z := nth k (d_addrs din) 0.
Definition set_d_addr (k : nat) (v : Z) (din : dinode) : dinode :=
  mkDinode (d_type din) (d_major din) (d_minor din) (d_nlink din) (d_size din) (<[k := v]> (d_addrs din)).
Definition set_d_size (v : Z) (din : dinode) : dinode :=
  mkDinode (d_type din) (d_major din) (d_minor din) (d_nlink din) v (d_addrs din).

(** The block of the file behind [fbn], allocated if there is none. *)
Definition direct_block (fbn : Z) (din : dinode) (s : mkst) : Z * dinode * mkst :=
  let k := Z.to_nat fbn in
  let '(din, s) :=
    if d_addr din k =? 0 then let '(b, s) := take_freeblock s in (set_d_addr k b din, s) else (din, s) in
  (d_addr din k, din, s).

Definition indirect_block (fbn : Z) (din : dinode) (s : mkst) : Z * dinode * mkst :=
  let k := Z.to_nat (fbn - Z.of_nat NDIRECT) in
  let '(din, s) :=
    if d_addr din NDIRECT =? 0 then let '(b, s) := take_freeblock s in (set_d_addr NDIRECT b din, s) else (din, s) in
  let indirect := rsect (d_addr din NDIRECT) s in
  if get_word indirect k =? 0 then
    let '(b, s) := take_freeblock s in
    let indirect := put_word indirect k b in
    (get_word indirect k, din, wsect (d_addr din NDIRECT) indirect s)
  else (get_word indirect k, din, s).

Definition file_block (fbn : Z) (din : dinode) (s : mkst) : Z * dinode * mkst :=
  if fbn <? Z.of_nat NDIRECT then direct_block fbn din s else indirect_block fbn din s.

(** The loop of iappend: the bytes [p] that are left, at [off].  A turn takes
    at least one byte. *)
Fixpoint iappend_loop (p : list Z) (off : Z) (din : dinode) (s : mkst) (fuel : nat) : option (Z * dinode * mkst) :=
  match p with
  | [] => Some (off, din, s)
  | _ =>
      match fuel with
      | O => None
      | S fuel =>
          let fbn := off / 512 in
          if fbn <? MAXFILE then
            let '(x, din, s) := file_block fbn din s in
            let n1 := Z.min (Z.of_nat (length p)) ((fbn + 1) * 512 - off) in
            let buf := splice (Z.to_nat (off - fbn * 512)) (take (Z.to_nat n1) p) (rsect x s) in
            iappend_loop (drop (Z.to_nat n1) p) (off + n1) din (wsect x buf s) fuel
          else None
      end
  end.

Definition iappend (inum : Z) (p : list Z) (s : mkst) : option mkst :=
  let din := rinode inum s in
  match iappend_loop p (d_size din) din s (length p) with
  | Some (off, din, s) => Some (winode inum (set_d_size off din) s)
  | None => None
  end.

(** *** main *)

Fixpoint append_all (inum : Z) (chunks : list (list Z)) (s : mkst) : option mkst :=
  match chunks with
  | [] => Some s
  | c :: chunks => match iappend inum c s with Some s => append_all inum chunks s | None => None end
  end.

Definition skip_underscore (name : list Z) : list Z :=
  match name with c :: name' => if c =? 95 then name' else name | [] => name end.

Definition add_file (rootino : Z) (arg : list Z) (chunks : list (list Z)) (s : mkst) : option mkst :=
  if bool_decide (47 ∈ arg) then None
  else
    let '(inum, s) := ialloc T_FILE s in
    match iappend rootino (mk_dirent inum (skip_underscore arg)) s with
    | Some s => append_all inum chunks s
    | None => None
    end.

Fixpoint add_files (rootino : Z) (files : list (list Z * list (list Z))) (s : mkst) : option mkst :=
  match files with
  | [] => Some s
  | (arg, chunks) :: files =>
      match add_file rootino arg chunks s with Some s => add_files rootino files s | None => None end
  end.

(** The empty image: every sector zero, and the superblock. *)
Definition mk_start : mkst :=
  let bitblocks := fs_size / (512 * 8) + 1 in
  let used := fs_ninodes / IPB + 3 + bitblocks in
  wsect 1 (put_words zero_block 0 [fs_size; fs_nblocks; fs_ninodes; fs_nlog]) (mkMk (fun _ => zero_block) used used 1).

(** The size of the root directory is rounded up to the next block. *)
Definition fix_root (rootino : Z) (s : mkst) : mkst :=
  let din := rinode rootino s in
  winode rootino (set_d_size ((d_size din / 512 + 1) * 512) din) s.

Definition mkfs (files : list (list Z * list (list Z))) : option mkst :=
  let s := mk_start in
  if negb (fs_nblocks + usedblocks s + fs_nlog =? fs_size) then None
  else
    let '(rootino, s) := ialloc T_DIR s in
    if negb (rootino =? ROOTINO) then None
    else
      match iappend rootino (mk_dirent rootino [46]) s with
      | None => None
      | Some s =>
          match iappend rootino (mk_dirent rootino [46; 46]) s with
          | None => None
          | Some s =>
              match add_files rootino files s with
              | None => None
              | Some s => let s := fix_root rootino s in balloc (usedblocks s) s
              end
          end
      end.
