(* ===== verification/MkfsSpec.v ===== *)
(** * mkfs.c builds a file system the kernel can use

    The image holds the files it was given: their bytes are found through the
    block maps of their inodes, no block belongs to two files, and the bitmap
    marks what is in use.  The layout is the one fs.c is verified for. *)

From S2P Require Import Prelude Monad Locks Memory CString FsState FsLayout Bio BlockSpec Log LogSpec Txn Fs Bitmap FsSpec FileSpec WriteSpec WriteiSpec Mkfs.

Open Scope Z_scope.

(** ** The block map of an inode in an image *)

Definition dblk (img : Z -> list Z) (din : dinode) (bn : Z) : Z :=
  if bn <? Z.of_nat NDIRECT then d_addr din (Z.to_nat bn)
  else if d_addr din NDIRECT =? 0 then 0
  else get_word (img (d_addr din NDIRECT)) (Z.to_nat (bn - Z.of_nat NDIRECT)).

(** Blocks that a file of [len] bytes needs, its indirect block included. *)
Definition nblk (len : Z) : Z := (len + 511) / 512 + (if 6144 <? len then 1 else 0).

(** The first data block. *)
Definition DATA : Z := 29.

(** Who a block belongs to: an inode and a place in its map, -1 for the indirect
    block. *)
Definition owners : Type := Z -> nat * Z.

(** The map of inode [i] for a file of [len] bytes. *)
Record file_map (img : Z -> list Z) (fb : Z) (own : owners) (din : dinode) (i : nat) (len : Z) : Prop := {
  fm_addrs : length (d_addrs din) = 13%nat;
  fm_range : forall k, 0 <= d_addr din k < 2 ^ 32;
  fm_len : 0 <= len <= 71680;
  fm_ind : d_addr din NDIRECT <> 0 -> DATA <= d_addr din NDIRECT < fb /\ own (d_addr din NDIRECT) = (i, -1);
  fm_own : forall bn, in_map bn -> dblk img din bn <> 0 -> DATA <= dblk img din bn < fb /\ own (dblk img din bn) = (i, bn);
  fm_there : forall bn, in_map bn -> dblk img din bn <> 0 <-> 512 * bn < len;
  fm_indirect : d_addr din NDIRECT <> 0 <-> 6144 < len
}.

(** The bytes of the file. *)
Definition file_holds (img : Z -> list Z) (din : dinode) (c : list Z) : Prop :=
  forall off, 0 <= off < Z.of_nat (length c) ->
    nth (Z.to_nat (off mod 512)) (img (dblk img din (off / 512))) 0 = nth (Z.to_nat off) c 0.

(** Two images that agree on the blocks of inode [i]. *)
Definition agree_on (i : nat) (fb : Z) (own own' : owners) (img img' : Z -> list Z) : Prop :=
  forall x, DATA <= x < fb -> fst (own x) = i -> img' x = img x /\ own' x = own x.

Lemma dblk_frame img img' fb own own' din i len bn :
  file_map img fb own din i len -> agree_on i fb own own' img img' -> dblk img' din bn = dblk img din bn.
Proof.
  intros H Ha. unfold dblk. destruct (_ <? _); [done|]. destruct (Z.eqb_spec (d_addr din NDIRECT) 0) as [|Hne]; [done|].
  destruct (fm_ind _ _ _ _ _ _ H Hne) as (Hr & Ho). destruct (Ha _ Hr) as (-> & _); [by rewrite Ho|done].
Qed.

Lemma file_map_frame img img' fb fb' own own' din i len :
  file_map img fb own din i len -> agree_on i fb own own' img img' -> fb <= fb' -> file_map img' fb' own' din i len.
Proof.
  intros H Ha Hfb. pose proof (fun bn => dblk_frame _ _ _ _ _ _ _ _ bn H Ha) as E.
  destruct H as [H1 H2 H3 H4 H5 H6 H7]. constructor; try done.
  - intros Hne. destruct (H4 Hne) as (Hr & Ho). destruct (Ha _ Hr) as (_ & ->); [by rewrite Ho|]. split; [lia|done].
  - intros bn Hbn. rewrite E. intros Hne. destruct (H5 bn Hbn Hne) as (Hr & Ho).
    destruct (Ha _ Hr) as (_ & ->); [by rewrite Ho|]. split; [lia|done].
  - intros bn Hbn. rewrite E. by apply H6.
Qed.

Lemma block_in_map off len : 0 <= off < len -> len <= 71680 -> in_map (off / 512) /\ 512 * (off / 512) < len.
Proof. intros. unfold in_map, MAXFILE. zlia. Qed.

Lemma file_holds_frame img img' fb own own' din i c :
  file_map img fb own din i (Z.of_nat (length c)) -> agree_on i fb own own' img img' ->
  file_holds img din c -> file_holds img' din c.
Proof.
  intros H Ha Hc off Hoff. rewrite <- (Hc off Hoff), (dblk_frame _ _ _ _ _ _ _ _ _ H Ha).
  destruct (block_in_map off _ Hoff) as (Hm & Hlt); [apply (fm_len _ _ _ _ _ _ H)|].
  destruct (fm_own _ _ _ _ _ _ H _ Hm) as (Hr & Ho); [by apply (fm_there _ _ _ _ _ _ H)|].
  destruct (Ha _ Hr) as (-> & _); [by rewrite Ho|done].
Qed.

(** ** Finding or allocating the block at the end of a file *)

(** What the allocator keeps: blocks from freeblock on are zero. *)
Record alloc_ok (s : mkst) : Prop := {
  ao_fb : DATA <= freeblock s /\ freeblock s + 2 < 2 ^ 32;
  ao_used : usedblocks s = freeblock s;
  ao_zero : forall x, freeblock s <= x -> mk_img s x = zero_block;
  ao_len : forall x, length (mk_img s x) = BSIZE
}.

(** The outcome of file_block for the block [bn] at the end of a file of [len]
    bytes. *)
Record found (s : mkst) (din : dinode) (i : nat) (own : owners) (len bn x : Z) (din' : dinode) (s' : mkst)
    (own' : owners) : Prop := {
  fd_map : forall len', len < len' <= (bn + 1) * 512 -> file_map (mk_img s') (freeblock s') own' din' i len';
  fd_here : dblk (mk_img s') din' bn = x;
  fd_before : forall bn', in_map bn' -> 512 * bn' < len -> dblk (mk_img s') din' bn' = dblk (mk_img s) din bn';
  fd_fb : freeblock s' = freeblock s + (nblk (len + 1) - nblk len);
  fd_same : forall y, y < freeblock s -> y < DATA \/ own y <> (i, -1) -> mk_img s' y = mk_img s y;
  fd_own : forall y, y < freeblock s -> own' y = own y;
  fd_zero : forall y, freeblock s' <= y -> mk_img s' y = zero_block;
  fd_lens : forall y, length (mk_img s' y) = BSIZE;
  fd_used : usedblocks s' = freeblock s';
  fd_inode : freeinode s' = freeinode s;
  fd_din : d_type din' = d_type din /\ d_major din' = d_major din /\ d_minor din' = d_minor din /\
    d_nlink din' = d_nlink din /\ d_size din' = d_size din
}.

Lemma map_extend img fb own din i len len' bn :
  file_map img fb own din i len -> 512 * bn < len -> bn = len / 512 -> len < len' <= (bn + 1) * 512 -> len' <= 71680 ->
  file_map img fb own din i len'.
Proof.
  intros [H1 H2 H3 H4 H5 H6 H7] Hin Hbn Hl Hmax. constructor; try done; [lia| |].
  - intros bn' Hbn'. rewrite H6 by done. zlia.
  - rewrite H7. zlia.
Qed.

Lemma found_there s din i own len bn :
  alloc_ok s -> file_map (mk_img s) (freeblock s) own din i len -> bn = len / 512 -> 512 * bn < len -> len < 71680 ->
  file_block bn din s = (dblk (mk_img s) din bn, din, s) /\ found s din i own len bn (dblk (mk_img s) din bn) din s own.
Proof.
  intros Ha Hm Hbn Hin Hlt. pose proof (fm_len _ _ _ _ _ _ Hm) as Hlen. assert (Him : in_map bn) by (unfold in_map, MAXFILE; zlia).
  assert (Hne : dblk (mk_img s) din bn <> 0) by (by apply (fm_there _ _ _ _ _ _ Hm)).
  split.
  - unfold file_block, direct_block, indirect_block. unfold dblk in *. destruct (bn <? Z.of_nat NDIRECT).
    + destruct (Z.eqb_spec (d_addr din (Z.to_nat bn)) 0); done.
    + destruct (Z.eqb_spec (d_addr din NDIRECT) 0); [done|]. unfold rsect.
      destruct (Z.eqb_spec (get_word (mk_img s (d_addr din NDIRECT)) (Z.to_nat (bn - Z.of_nat NDIRECT))) 0); done.
  - destruct Ha. constructor; try done.
    + intros len' Hl. eapply map_extend; try done. unfold in_map, MAXFILE in Him. lia.
    + unfold nblk. assert ((len + 1 + 511) / 512 = (len + 511) / 512) by zlia.
      destruct (Z.ltb_spec 6144 len), (Z.ltb_spec 6144 (len + 1)); lia || zlia.
Qed.

Definition own_add (x : Z) (v : nat * Z) (own : owners) : owners := fun y => if y =? x then v else own y.

Lemma d_addr_set k k' v din : (k < length (d_addrs din))%nat ->
  d_addr (set_d_addr k v din) k' = if decide (k' = k) then v else d_addr din k'.
Proof.
  intros Hk. unfold d_addr, set_d_addr. cbn [d_addrs]. rewrite !nth_lookup.
  destruct (decide (k' = k)) as [->|]; [by rewrite list_lookup_insert_eq|by rewrite list_lookup_insert_ne].
Qed.

Lemma nblk_block bn : 0 <= bn -> nblk (512 * bn + 1) - nblk (512 * bn) = if bn =? 12 then 2 else 1.
Proof.
  intros. unfold nblk. destruct (Z.eqb_spec bn 12), (Z.ltb_spec 6144 (512 * bn)), (Z.ltb_spec 6144 (512 * bn + 1)); zlia.
Qed.

(** A data block that is added at the end of the map. *)
Lemma file_map_add img img' fb own din din' i bn x len' :
  file_map img fb own din i (512 * bn) -> in_map bn -> 512 * bn < len' <= (bn + 1) * 512 ->
  length (d_addrs din') = 13%nat -> (forall k, 0 <= d_addr din' k < 2 ^ 32) ->
  (d_addr din' NDIRECT <> 0 -> DATA <= d_addr din' NDIRECT < x /\ own (d_addr din' NDIRECT) = (i, -1)) ->
  (d_addr din' NDIRECT <> 0 <-> 6144 < len') ->
  DATA <= fb <= x ->
  (forall bn', in_map bn' -> dblk img' din' bn' = if bn' =? bn then x else dblk img din bn') ->
  file_map img' (x + 1) (own_add x (i, bn) own) din' i len'.
Proof.
  intros Hm Hbn Hl Ha Hr Hind Hii Hx Hd. unfold in_map, MAXFILE in Hbn. unfold DATA in *.
  constructor; try done; [lia|..].
  - intros Hne. destruct (Hind Hne) as (Hlt & Ho). unfold own_add. rewrite (proj2 (Z.eqb_neq _ _)) by lia. split; [unfold DATA; lia|done].
  - intros bn' Hbn'. rewrite Hd by done. unfold own_add. destruct (Z.eqb_spec bn' bn) as [->|Hne]; intros Hz.
    + rewrite Z.eqb_refl. split; [unfold DATA; lia|done].
    + destruct (fm_own _ _ _ _ _ _ Hm bn' Hbn' Hz) as (Hlt & Ho). unfold DATA in *.
      rewrite (proj2 (Z.eqb_neq _ _)) by lia. split; [unfold DATA; lia|done].
  - intros bn' Hbn'. rewrite Hd by done. destruct (Z.eqb_spec bn' bn) as [->|Hne]; [lia|].
    rewrite (fm_there _ _ _ _ _ _ Hm) by done. lia.
Qed.

Lemma take_freeblock_ok s : alloc_ok s ->
  take_freeblock s = (freeblock s, mkMk (mk_img s) (freeblock s + 1) (freeblock s + 1) (freeinode s)).
Proof.
  intros [Hfb Hu _ _]. unfold take_freeblock. rewrite Hu, u32_small; [done|]. unfold DATA in *. lia.
Qed.

Lemma found_direct s din i own bn :
  alloc_ok s -> file_map (mk_img s) (freeblock s) own din i (512 * bn) -> 0 <= bn < 12 ->
  exists din' s', file_block bn din s = (freeblock s, din', s') /\
    found s din i own (512 * bn) bn (freeblock s) din' s' (own_add (freeblock s) (i, bn) own).
Proof.
  intros Ha Hm Hbn. assert (Him : in_map bn) by (unfold in_map, MAXFILE; lia).
  assert (Hz : dblk (mk_img s) din bn = 0).
  { destruct (Z.eq_dec (dblk (mk_img s) din bn) 0) as [|Hne]; [done|]. apply (fm_there _ _ _ _ _ _ Hm) in Hne; [lia|done]. }
  assert (Hlt : (bn <? Z.of_nat NDIRECT) = true) by (apply Z.ltb_lt; unfold NDIRECT; lia).
  unfold dblk in Hz. rewrite Hlt in Hz. pose proof (fm_addrs _ _ _ _ _ _ Hm) as Hlen.
  set (din' := set_d_addr (Z.to_nat bn) (freeblock s) din). destruct (ao_fb _ Ha) as (Hfb & Hfb2).
  assert (Hset : forall k, d_addr din' k = if decide (k = Z.to_nat bn) then freeblock s else d_addr din k).
  { intros k. apply d_addr_set. lia. }
  exists din', (mkMk (mk_img s) (freeblock s + 1) (freeblock s + 1) (freeinode s)). split.
  { unfold file_block, direct_block. rewrite Hlt, Hz, Z.eqb_refl, take_freeblock_ok by done. fold din'.
    by rewrite Hset, decide_True. }
  assert (Hind : d_addr din' NDIRECT = d_addr din NDIRECT).
  { rewrite Hset, decide_False; [done|]. unfold NDIRECT. lia. }
  assert (Hd : forall bn', in_map bn' -> dblk (mk_img s) din' bn' = if bn' =? bn then freeblock s else dblk (mk_img s) din bn').
  { intros bn' Hbn'. unfold in_map in Hbn'. unfold dblk. rewrite Hind, Hset. unfold NDIRECT.
    destruct (Z.ltb_spec bn' (Z.of_nat 12)), (Z.eqb_spec bn' bn); subst; try lia; try done.
    - by rewrite decide_True.
    - rewrite decide_False by lia. done. }
  constructor; cbn [mk_img freeblock usedblocks freeinode]; try done.
  - intros len' Hl. eapply file_map_add; try done.
    + unfold din', set_d_addr. cbn. by rewrite length_insert.
    + intros k. rewrite Hset. destruct (decide _); [unfold DATA in *; lia|apply Hm].
    + rewrite Hind. intros Hne. destruct (fm_ind _ _ _ _ _ _ Hm Hne). split; [lia|done].
    + rewrite Hind, (fm_indirect _ _ _ _ _ _ Hm). lia.
  - by rewrite Hd, Z.eqb_refl.
  - intros bn' Hbn' Hl. rewrite Hd by done. by rewrite (proj2 (Z.eqb_neq _ _)) by lia.
  - rewrite nblk_block by lia. destruct (Z.eqb_spec bn 12); lia.
  - intros y Hy. unfold own_add. by rewrite (proj2 (Z.eqb_neq _ _)) by lia.
  - intros y Hy. apply Ha. lia.
  - apply Ha.
Qed.

(** An entry of the indirect block [A] that is filled in. *)
Lemma dblk_put_word img din bn A b :
  d_addr din NDIRECT = A -> A <> 0 -> length (img A) = BSIZE -> 12 <= bn < 140 -> 0 <= b < 2 ^ 32 ->
  forall bn', in_map bn' ->
    dblk (fun x => if x =? A then put_word (img A) (Z.to_nat (bn - Z.of_nat NDIRECT)) b else img x) din bn' =
    if bn' =? bn then b else dblk img din bn'.
Proof.
  intros HA Hne Hlen Hbn Hb bn' Hbn'. unfold in_map, MAXFILE, NDIRECT, BSIZE in *. unfold dblk, NDIRECT. rewrite HA.
  destruct (Z.ltb_spec bn' (Z.of_nat 12)); [by rewrite (proj2 (Z.eqb_neq _ _)) by lia|].
  rewrite Z.eqb_refl, (proj2 (Z.eqb_neq A 0)) by done. destruct (Z.eqb_spec bn' bn) as [->|Hn].
  - rewrite get_put_word by lia. by rewrite u32_small by lia.
  - by rewrite get_put_word_other by lia.
Qed.

Lemma zero_block_all : Forall (eq 0) zero_block.
Proof. change zero_block with (repeat 0 512). apply Forall_forall. intros x Hx%list_elem_of_In%repeat_spec. done. Qed.

Lemma get_word_zero k : get_word zero_block k = 0.
Proof.
  unfold get_word. assert (H : Forall (eq 0) (slice (4 * k) 4 zero_block)).
  { unfold slice. apply Forall_take, Forall_drop, zero_block_all. }
  induction H as [|x l <- _ IH]; [done|]. cbn [le_val]. by rewrite IH.
Qed.

(** The indirect block that is there already, or a fresh one: the same map. *)
Lemma indirect_ready s din i own bn :
  alloc_ok s -> file_map (mk_img s) (freeblock s) own din i (512 * bn) -> 12 <= bn < 140 ->
  exists din1 s1 own1,
    (if d_addr din NDIRECT =? 0 then let '(b, s) := take_freeblock s in (set_d_addr NDIRECT b din, s) else (din, s)) = (din1, s1) /\
    mk_img s1 = mk_img s /\ freeblock s1 = freeblock s + (if bn =? 12 then 1 else 0) /\ usedblocks s1 = freeblock s1 /\
    freeinode s1 = freeinode s /\
    d_addr din1 NDIRECT <> 0 /\ DATA <= d_addr din1 NDIRECT < freeblock s1 /\ own1 (d_addr din1 NDIRECT) = (i, -1) /\
    length (d_addrs din1) = 13%nat /\ (forall k, 0 <= d_addr din1 k < 2 ^ 32) /\
    (forall bn', in_map bn' -> dblk (mk_img s) din1 bn' = dblk (mk_img s) din bn') /\
    (forall y, y < freeblock s -> own1 y = own y) /\
    (d_type din1 = d_type din /\ d_major din1 = d_major din /\ d_minor din1 = d_minor din /\
      d_nlink din1 = d_nlink din /\ d_size din1 = d_size din) /\
    (d_addr din1 NDIRECT < freeblock s \/ d_addr din1 NDIRECT = freeblock s).
Proof.
  intros Ha Hm Hbn. destruct (ao_fb _ Ha) as (Hfb & Hfb2). pose proof (fm_addrs _ _ _ _ _ _ Hm) as Hlen.
  pose proof (fm_indirect _ _ _ _ _ _ Hm) as Hii. unfold DATA in *.
  destruct (Z.eqb_spec (d_addr din NDIRECT) 0) as [E|Hne].
  - assert (bn = 12) as -> by (destruct (Z.eq_dec bn 12); [done|]; exfalso; apply Hii; lia || done).
    rewrite take_freeblock_ok by done. set (din1 := set_d_addr NDIRECT (freeblock s) din).
    assert (Hset : forall k, d_addr din1 k = if decide (k = NDIRECT) then freeblock s else d_addr din k).
    { intros k. apply d_addr_set. unfold NDIRECT. lia. }
    exists din1, (mkMk (mk_img s) (freeblock s + 1) (freeblock s + 1) (freeinode s)), (own_add (freeblock s) (i, -1) own).
    cbn [mk_img freeblock usedblocks freeinode].
    assert (Hind : d_addr din1 NDIRECT = freeblock s) by (rewrite Hset; by rewrite decide_True).
    rewrite Hind. unfold own_add, DATA. change (12 =? 12) with true.
    split_and!; try done; try lia.
    + by rewrite Z.eqb_refl.
    + unfold din1, set_d_addr. cbn. by rewrite length_insert.
    + intros k. rewrite Hset. destruct (decide _); [lia|apply Hm].
    + intros bn' Hbn'. unfold dblk. rewrite Hind, E, Hset. change (0 =? 0) with true.
      destruct (Z.ltb_spec bn' (Z.of_nat NDIRECT)); [rewrite decide_False; [done|unfold in_map, NDIRECT in *; lia]|].
      rewrite (proj2 (Z.eqb_neq _ _)) by lia. rewrite (ao_zero _ Ha) by lia. apply get_word_zero.
    + intros y Hy. by rewrite (proj2 (Z.eqb_neq _ _)) by lia.
  - assert (bn <> 12) by (intros ->; apply Hii in Hne; lia). destruct (fm_ind _ _ _ _ _ _ Hm Hne) as (Hr & Ho).
    unfold DATA in *. exists din, s, own. unfold DATA. rewrite (proj2 (Z.eqb_neq bn 12)) by done.
    split_and!; try done; try lia; try apply Hm; try apply Ha.
Qed.

Lemma found_indirect s din i own bn :
  alloc_ok s -> file_map (mk_img s) (freeblock s) own din i (512 * bn) -> 12 <= bn < 140 ->
  exists x din' s' own', file_block bn din s = (x, din', s') /\ found s din i own (512 * bn) bn x din' s' own' /\
    DATA <= x < freeblock s' /\ own' x = (i, bn).
Proof.
  intros Ha Hm Hbn. assert (Him : in_map bn) by (unfold in_map, MAXFILE; lia).
  assert (Hz : dblk (mk_img s) din bn = 0).
  { destruct (Z.eq_dec (dblk (mk_img s) din bn) 0) as [|Hne]; [done|]. apply (fm_there _ _ _ _ _ _ Hm) in Hne; [lia|done]. }
  destruct (indirect_ready s din i own bn Ha Hm Hbn)
    as (din1 & s1 & own1 & Eready & Eimg & Efb & Eused & Eino & Hne & HA & HoA & Hlen1 & Hr1 & Hd1 & Hown1 & Hfields & Hcase).
  set (A := d_addr din1 NDIRECT) in *. set (b := freeblock s1) in *. set (k := Z.to_nat (bn - Z.of_nat NDIRECT)).
  destruct (ao_fb _ Ha) as (Hfb & Hfb2). pose proof (ao_len _ Ha A) as HlenA.
  assert (Hlt : (bn <? Z.of_nat NDIRECT) = false) by (apply Z.ltb_ge; unfold NDIRECT; lia).
  assert (Hw : get_word (mk_img s A) k = 0).
  { rewrite <- (Hd1 bn Him) in Hz. unfold dblk in Hz. rewrite Hlt in Hz. fold A in Hz.
    by rewrite (proj2 (Z.eqb_neq A 0)) in Hz. }
  assert (Hb : 0 <= b < 2 ^ 32 /\ b + 1 < 2 ^ 32 /\ freeblock s <= b).
  { unfold DATA in *. destruct (bn =? 12); lia. }
  set (img' := fun x => if x =? A then put_word (mk_img s A) k b else mk_img s x).
  set (s' := mkMk img' (b + 1) (b + 1) (freeinode s)).
  exists b, din1, s', (own_add b (i, bn) own1).
  assert (Hd : forall bn', in_map bn' -> dblk img' din1 bn' = if bn' =? bn then b else dblk (mk_img s) din bn').
  { intros bn' Hbn'. rewrite <- Hd1 by done. unfold img', k. apply dblk_put_word; [done|done|done|lia|lia|done]. }
  assert (Eblk : file_block bn din s = (b, din1, s')).
  { unfold file_block, indirect_block. rewrite Hlt. fold k. rewrite Eready. unfold rsect. fold A. rewrite Eimg, Hw, Z.eqb_refl.
    unfold take_freeblock. fold b. rewrite Eused, Eimg, Eino. fold b. rewrite u32_small by lia.
    rewrite get_put_word, u32_small by (unfold k, BSIZE, NDIRECT in *; lia). done. }
  split; [exact Eblk|]. split; [|split; [unfold DATA in *; cbn; lia|unfold own_add; by rewrite Z.eqb_refl]].
  assert (HbA : b <> A) by lia.
  constructor; cbn [mk_img freeblock usedblocks freeinode s']; try done.
  - intros len' Hl. apply (file_map_add (mk_img s) img' (freeblock s) own1 din din1 i bn b len'); try done.
    + eapply file_map_frame; [exact Hm| |lia]. intros y Hy _. split; [done|]. apply Hown1. lia.
    + lia.
    + unfold DATA in *. lia.
  - by rewrite Hd, Z.eqb_refl.
  - intros bn' Hbn' Hl. rewrite Hd by done. by rewrite (proj2 (Z.eqb_neq _ _)) by lia.
  - rewrite nblk_block by lia. destruct (bn =? 12); lia.
  - intros y Hy Hn. unfold img'. rewrite (proj2 (Z.eqb_neq _ _)); [done|]. intros ->.
    destruct Hn as [Hn|Hn]; [unfold DATA in *; lia|]. apply Hn. by rewrite <- Hown1 by lia.
  - intros y Hy. unfold own_add. rewrite (proj2 (Z.eqb_neq _ _)) by lia. by apply Hown1.
  - intros y Hy. unfold img'. rewrite (proj2 (Z.eqb_neq _ _)) by lia. apply Ha. lia.
  - intros y. unfold img'. destruct (Z.eqb_spec y A); [|apply Ha]. rewrite length_put_word; [done|].
    unfold k, BSIZE, NDIRECT in *. lia.
Qed.

Lemma file_block_spec s din i own len :
  alloc_ok s -> file_map (mk_img s) (freeblock s) own din i len -> len < 71680 ->
  exists x din' s' own', file_block (len / 512) din s = (x, din', s') /\ found s din i own len (len / 512) x din' s' own' /\
    DATA <= x < freeblock s' /\ own' x = (i, len / 512).
Proof.
  intros Ha Hm Hlt. pose proof (fm_len _ _ _ _ _ _ Hm) as Hlen. set (bn := len / 512).
  destruct (Z.eq_dec len (512 * bn)) as [E|Hne].
  - assert (Hm' : file_map (mk_img s) (freeblock s) own din i (512 * bn)) by congruence. rewrite E.
    destruct (Z.lt_ge_cases bn 12) as [Hd|Hi].
    + destruct (found_direct s din i own bn Ha Hm') as (din' & s' & Eb & Hf); [unfold bn in *; zlia|].
      eexists _, din', s', _. split; [done|]. split; [done|]. unfold own_add. rewrite Z.eqb_refl. split; [|done].
      rewrite (fd_fb _ _ _ _ _ _ _ _ _ _ Hf), nblk_block by (unfold bn; zlia).
      destruct (ao_fb _ Ha) as (Hfb & _). unfold DATA in *. destruct (bn =? 12); lia.
    + destruct (found_indirect s din i own bn Ha Hm') as (x & din' & s' & own' & H); [unfold bn in *; zlia|]. eauto 10.
  - destruct (found_there s din i own len bn Ha Hm eq_refl) as (Eb & Hf); [unfold bn in *; zlia|done|].
    eexists _, din, s, own. split; [done|]. split; [done|]. apply (fm_own _ _ _ _ _ _ Hm).
    + unfold in_map, MAXFILE, bn. zlia.
    + apply (fm_there _ _ _ _ _ _ Hm); unfold in_map, MAXFILE, bn in *; zlia.
Qed.

(** ** Appending to a file *)

Lemma nblk_turn len n1 : 0 <= len -> 0 < n1 <= (len / 512 + 1) * 512 - len -> nblk (len + n1) = nblk (len + 1).
Proof.
  intros Hl Hn. unfold nblk. destruct (Z.ltb_spec 6144 (len + n1)), (Z.ltb_spec 6144 (len + 1)); zlia.
Qed.

Lemma nblk_mono len n : 0 <= len -> 0 <= n -> nblk len <= nblk (len + n).
Proof. intros. unfold nblk. destruct (Z.ltb_spec 6144 (len + n)), (Z.ltb_spec 6144 len); zlia. Qed.

(** The inode [i] with the map and the contents [c], in memory as [din]. *)
Definition has_file (s : mkst) (own : owners) (din : dinode) (i : nat) (c : list Z) : Prop :=
  file_map (mk_img s) (freeblock s) own din i (Z.of_nat (length c)) /\ file_holds (mk_img s) din c.

(** What other inodes and the fields of this one see. *)
Record kept (i : nat) (s s' : mkst) (own own' : owners) (din din' : dinode) : Prop := {
  kp_img : forall y, y < freeblock s -> y < DATA \/ fst (own y) <> i -> mk_img s' y = mk_img s y;
  kp_own : forall y, y < freeblock s -> own' y = own y;
  kp_fb : freeblock s <= freeblock s';
  kp_inode : freeinode s' = freeinode s;
  kp_din : d_type din' = d_type din /\ d_major din' = d_major din /\ d_minor din' = d_minor din /\
    d_nlink din' = d_nlink din
}.

Lemma kept_refl i s own din : kept i s s own own din din.
Proof. constructor; try done. Qed.

Lemma kept_trans i s1 s2 s3 o1 o2 o3 d1 d2 d3 :
  kept i s1 s2 o1 o2 d1 d2 -> kept i s2 s3 o2 o3 d2 d3 -> kept i s1 s3 o1 o3 d1 d3.
Proof.
  intros [H1 H2 H3 H4 H5] [K1 K2 K3 K4 K5]. constructor.
  - intros y Hy Ho. rewrite K1, H1; [done|done|done|lia|]. by rewrite H2.
  - intros y Hy. rewrite K2, H2; [done|done|lia].
  - lia.
  - congruence.
  - naive_solver congruence.
Qed.

(** The bytes of a block after new ones are put at the end of the file. *)
Lemma splice_nth off n (l buf : list Z) k :
  (off + length l <= length buf)%nat -> nth k (splice off l buf) n =
  if (off <=? k)%nat && (k <? off + length l)%nat then nth (k - off) l n else nth k buf n.
Proof.
  intros Hl. rewrite !nth_lookup, lookup_splice by lia. by destruct (_ && _).
Qed.

(** The data written into the block at the end of the file. *)
Lemma write_end s din i own c q :
  let len := Z.of_nat (length c) in
  let x := dblk (mk_img s) din (len / 512) in
  alloc_ok s -> file_map (mk_img s) (freeblock s) own din i (len + Z.of_nat (length q)) -> file_holds (mk_img s) din c ->
  q <> [] -> len + Z.of_nat (length q) <= (len / 512 + 1) * 512 ->
  let s' := wsect x (splice (Z.to_nat (len - len / 512 * 512)) q (rsect x s)) s in
  alloc_ok s' /\ has_file s' own din i (c ++ q) /\
  forall y, y <> x -> mk_img s' y = mk_img s y.
Proof.
  intros len x Ha Hm Hc Hq Hfit s'. pose proof (fm_len _ _ _ _ _ _ Hm) as Hlen.
  assert (Hq1 : (0 < length q)%nat) by (destruct q; simpl; [done|lia]).
  destruct (block_in_map len (len + Z.of_nat (length q))) as (Hin & Hlt); [unfold len; lia|lia|].
  destruct (fm_own _ _ _ _ _ _ Hm (len / 512) Hin) as (Hr & Ho); [by apply (fm_there _ _ _ _ _ _ Hm)|]. fold x in Hr, Ho.
  assert (Hoff : (Z.to_nat (len - len / 512 * 512) + length q <= length (rsect x s))%nat).
  { unfold rsect. rewrite (ao_len _ Ha). unfold BSIZE, len in *. zlia. }
  assert (Himg : forall y, y <> x -> mk_img s' y = mk_img s y).
  { intros y Hy. cbn. by rewrite (proj2 (Z.eqb_neq _ _)). }
  assert (Hdb : forall bn, dblk (mk_img s') din bn = dblk (mk_img s) din bn).
  { intros bn. unfold dblk. destruct (_ <? _); [done|]. destruct (Z.eqb_spec (d_addr din NDIRECT) 0) as [|Hne]; [done|].
    destruct (fm_ind _ _ _ _ _ _ Hm Hne) as (_ & HoA). rewrite Himg; [done|]. intros E. rewrite E, Ho in HoA.
    unfold in_map in Hin. injection HoA. lia. }
  split; [|split; [|done]].
  - destruct Ha as [H1 H2 H3 H4]. constructor; try done; cbn [mk_img freeblock wsect s'].
    + intros y Hy. rewrite (proj2 (Z.eqb_neq _ _)) by lia. by apply H3.
    + intros y. destruct (Z.eqb_spec y x); [|done]. rewrite length_splice by lia. unfold rsect. apply H4.
  - split.
    + rewrite length_app, Nat2Z.inj_add. fold len. destruct Hm as [M1 M2 M3 M4 M5 M6 M7].
      constructor; try done; intros bn Hbn; rewrite Hdb; auto.
    + intros off Hoff'. rewrite length_app in Hoff'. rewrite Hdb.
      destruct (Z.eq_dec (off / 512) (len / 512)) as [E|Hne].
      * rewrite E. fold x. cbn [mk_img wsect s']. rewrite Z.eqb_refl, splice_nth by done.
        destruct (Z.lt_ge_cases off len) as [Hl|Hl].
        { rewrite app_nth1 by (unfold len in *; lia). rewrite (proj2 (Nat.leb_gt _ _)) by (unfold len in *; zlia).
          cbn [andb]. rewrite <- (Hc off) by (unfold len in *; lia). by rewrite E. }
        rewrite app_nth2 by (unfold len in *; lia). rewrite (proj2 (Nat.leb_le _ _)) by (unfold len in *; zlia).
        rewrite (proj2 (Nat.ltb_lt _ _)) by (unfold len in *; zlia). cbn [andb]. f_equal. unfold len in *. zlia.
      * assert (Hl : off < len) by (unfold len in *; zlia).
        destruct (block_in_map off (len + Z.of_nat (length q))) as (Hin' & _); [lia|lia|].
        rewrite Himg.
        { rewrite app_nth1 by (unfold len in *; lia). apply Hc. unfold len in *. lia. }
        intros E. assert (Hn : dblk (mk_img s) din (off / 512) <> 0) by (unfold DATA in *; lia).
        destruct (fm_own _ _ _ _ _ _ Hm _ Hin' Hn) as (_ & Ho'). rewrite E, Ho in Ho'. by injection Ho'.
Qed.

Lemma found_holds s din i own c x din' s' own' :
  file_map (mk_img s) (freeblock s) own din i (Z.of_nat (length c)) -> file_holds (mk_img s) din c ->
  found s din i own (Z.of_nat (length c)) (Z.of_nat (length c) / 512) x din' s' own' -> file_holds (mk_img s') din' c.
Proof.
  intros Hm Hc Hf off Hoff. destruct (block_in_map off _ Hoff) as (Hin & Hlt); [apply (fm_len _ _ _ _ _ _ Hm)|].
  rewrite <- (Hc off Hoff), (fd_before _ _ _ _ _ _ _ _ _ _ Hf _ Hin Hlt).
  destruct (fm_own _ _ _ _ _ _ Hm _ Hin) as (Hr & Ho); [by apply (fm_there _ _ _ _ _ _ Hm)|].
  rewrite (fd_same _ _ _ _ _ _ _ _ _ _ Hf); [done|lia|]. right. rewrite Ho. unfold in_map in Hin.
  intros E. injection E. lia.
Qed.

Lemma found_alloc s din i own len x din' s' own' :
  alloc_ok s -> 0 <= len -> found s din i own len (len / 512) x din' s' own' -> freeblock s' + 2 < 2 ^ 32 -> alloc_ok s'.
Proof.
  intros Ha Hl Hf Hb. destruct Hf as [_ _ _ Efb _ _ Hz Hlen Hu _ _]. destruct (ao_fb _ Ha).
  pose proof (nblk_mono len 1 Hl). constructor; try done. split; [lia|done].
Qed.

Lemma found_kept s din i own len bn x din' s' own' :
  0 <= len -> found s din i own len bn x din' s' own' -> kept i s s' own own' din din'.
Proof.
  intros Hl Hf. pose proof (nblk_mono len 1 Hl). constructor; try apply Hf.
  - intros y Hy Ho. apply (fd_same _ _ _ _ _ _ _ _ _ _ Hf); [done|]. destruct Ho as [|Ho]; [by left|right].
    intros E. by rewrite E in Ho.
  - rewrite (fd_fb _ _ _ _ _ _ _ _ _ _ Hf). lia.
  - destruct (fd_din _ _ _ _ _ _ _ _ _ _ Hf). tauto.
Qed.

Lemma iappend_loop_spec fuel : forall p s own din i c,
  let len := Z.of_nat (length c) in
  let total := len + Z.of_nat (length p) in
  alloc_ok s -> has_file s own din i c -> total <= 71680 ->
  freeblock s + (nblk total - nblk len) + 2 < 2 ^ 32 -> (length p <= fuel)%nat ->
  exists din' s' own', iappend_loop p len din s fuel = Some (total, din', s') /\ alloc_ok s' /\
    has_file s' own' din' i (c ++ p) /\ kept i s s' own own' din din' /\ freeblock s' = freeblock s + (nblk total - nblk len).
Proof.
  induction fuel as [|fuel IH]; intros p s own din i c len total Ha (Hm & Hc) Ht Hb Hf.
  { destruct p as [|b p]; [|simpl in Hf; lia]. exists din, s, own. unfold total. cbn [length].
    rewrite app_nil_r, Z.add_0_r. split; [done|]. split; [done|]. split; [done|]. split; [apply kept_refl|lia]. }
  destruct (decide (p = [])) as [->|Hne].
  { exists din, s, own. unfold total. cbn [length]. rewrite app_nil_r, Z.add_0_r.
    split; [done|]. split; [done|]. split; [done|]. split; [apply kept_refl|lia]. }
  assert (Hp : (0 < length p)%nat) by (destruct p; [done|simpl; lia]).
  destruct (file_block_spec s din i own len Ha Hm) as (x & din1 & s1 & own1 & Eb & Hfd & Hx & Hox); [unfold total in *; lia|].
  set (n1 := Z.min (Z.of_nat (length p)) ((len / 512 + 1) * 512 - len)).
  assert (Hn1 : 0 < n1 <= Z.of_nat (length p) /\ n1 <= (len / 512 + 1) * 512 - len) by (unfold n1, len in *; zlia).
  set (q := take (Z.to_nat n1) p). assert (Hq : Z.of_nat (length q) = n1) by (unfold q; rewrite length_take; lia).
  assert (Hl0 : 0 <= len) by (unfold len; lia).
  pose proof (nblk_turn len n1 Hl0 ltac:(lia)) as En. pose proof (nblk_mono (len + n1) (total - len - n1) ltac:(lia) ltac:(unfold total; lia)) as Hmono.
  replace (len + n1 + (total - len - n1)) with total in Hmono by lia.
  pose proof (fd_fb _ _ _ _ _ _ _ _ _ _ Hfd) as Efb.
  assert (Ha1 : alloc_ok s1) by (eapply found_alloc; [exact Ha|exact Hl0|exact Hfd|lia]).
  pose proof (fd_here _ _ _ _ _ _ _ _ _ _ Hfd) as Ex.
  destruct (write_end s1 din1 i own1 c q) as (Ha2 & (Hm2 & Hc2) & Himg2).
  { done. } { fold len. rewrite Hq. apply (fd_map _ _ _ _ _ _ _ _ _ _ Hfd). lia. }
  { by eapply found_holds. } { intros E. rewrite E in Hq. simpl in Hq. lia. } { fold len. lia. }
  fold len in Ha2, Hm2, Hc2, Himg2. rewrite Ex in Ha2, Hm2, Hc2, Himg2.
  set (s2 := wsect x _ s1) in *.
  assert (Elen : Z.of_nat (length (c ++ q)) = len + n1) by (rewrite length_app, Nat2Z.inj_add, Hq; done).
  assert (Ep : c ++ p = (c ++ q) ++ drop (Z.to_nat n1) p) by (by rewrite <- app_assoc; unfold q; rewrite take_drop).
  assert (Ed : Z.of_nat (length (drop (Z.to_nat n1) p)) = Z.of_nat (length p) - n1) by (rewrite length_drop; lia).
  destruct (IH (drop (Z.to_nat n1) p) s2 own1 din1 i (c ++ q)) as (din' & s' & own' & E & Ha' & Hh' & Hk' & Efb').
  { done. } { by split. } { rewrite Elen, Ed. unfold total in *. lia. }
  { rewrite Elen, Ed. replace (len + n1 + (Z.of_nat (length p) - n1)) with total by (unfold total; lia).
    change (freeblock s2) with (freeblock s1). lia. }
  { lia. }
  rewrite Elen, Ed in E, Efb'. replace (len + n1 + (Z.of_nat (length p) - n1)) with total in E, Efb' by (unfold total; lia).
  exists din', s', own'. rewrite <- Ep in Hh'. split; [|split; [done|split; [done|split]]].
  - cbn [iappend_loop]. destruct p as [|b p]; [done|]. rewrite (proj2 (Z.ltb_lt _ _)) by (unfold MAXFILE, len, total in *; zlia).
    rewrite Eb. exact E.
  - eapply kept_trans; [by eapply found_kept|]. eapply kept_trans; [|exact Hk']. constructor; try done.
    intros y Hy Ho. apply Himg2. intros ->. rewrite Hox in Ho. simpl in Ho. unfold DATA in *. lia.
  - change (freeblock s2) with (freeblock s1) in Efb'. lia.
Qed.

(** ** The whole image *)

Lemma i2b_range inum : 0 <= inum < 208 -> 2 <= i2b inum <= 27.
Proof. intros. unfold i2b, IPB. zlia. Qed.

Lemma winode_img inum d s x : x <> i2b inum -> mk_img (winode inum d s) x = mk_img s x.
Proof. intros Hx. cbn. by rewrite (proj2 (Z.eqb_neq _ _)). Qed.

Lemma rinode_winode inum inum' d s :
  dinode_ok d -> (forall x, length (mk_img s x) = BSIZE) -> 0 <= inum < 208 -> 0 <= inum' < 208 ->
  rinode inum' (winode inum d s) = if inum' =? inum then d else rinode inum' s.
Proof.
  intros Hd Hlen Hi Hi'. unfold rinode, rsect, winode, rsect, wsect. cbn [mk_img].
  assert (Hidx : forall k, (64 * inode_index k + 64 <= BSIZE)%nat) by apply inode_index_lt.
  destruct (Z.eqb_spec inum' inum) as [->|Hne].
  - rewrite Z.eqb_refl. apply get_put_dinode; [done|]. rewrite Hlen. pose proof (Hidx inum). lia.
  - destruct (Z.eqb_spec (i2b inum') (i2b inum)) as [E|]; [|done]. rewrite get_put_dinode_other; [by rewrite E| |..].
    + apply Hd.
    + unfold inode_index, i2b, IPB in *. zlia.
    + rewrite Hlen. apply Hidx.
Qed.

Lemma winode_lens inum d s : length (d_addrs d) = 13%nat -> (forall x, length (mk_img s x) = BSIZE) ->
  forall x, length (mk_img (winode inum d s) x) = BSIZE.
Proof.
  intros Hd Hlen x. cbn [mk_img winode wsect]. destruct (x =? i2b inum); [|done]. unfold rsect. rewrite length_put_dinode; [done|done|].
  rewrite Hlen. apply inode_index_lt.
Qed.

(** Only the data blocks matter for a file. *)
Lemma has_file_data s s' own din i c :
  has_file s own din i c -> (forall x, DATA <= x -> mk_img s' x = mk_img s x) -> freeblock s' = freeblock s ->
  has_file s' own din i c.
Proof.
  intros (Hm & Hc) Himg Hfb. assert (Ha : agree_on i (freeblock s) own own (mk_img s) (mk_img s')).
  { intros x Hx _. split; [apply Himg; lia|done]. }
  split; [eapply file_map_frame; [exact Hm|exact Ha|lia]|by eapply file_holds_frame].
Qed.

Lemma has_file_size s own din i c v : has_file s own din i c -> has_file s own (set_d_size v din) i c.
Proof. intros (Hm & Hc). split; [|exact Hc]. by destruct Hm; constructor. Qed.

Fixpoint total (cs : list (list Z)) : Z :=
  match cs with [] => 0 | c :: cs => nblk (Z.of_nat (length c)) + total cs end.

Lemma total_app cs cs' : total (cs ++ cs') = total cs + total cs'.
Proof. induction cs as [|c cs IH]; cbn [app total]; lia. Qed.

Lemma total_insert cs k c c' : cs !! k = Some c ->
  total (<[k := c']> cs) = total cs + (nblk (Z.of_nat (length c')) - nblk (Z.of_nat (length c))).
Proof.
  revert k. induction cs as [|d cs IH]; intros k Hk; [done|]. destruct k as [|k].
  - injection Hk as ->. cbn. lia.
  - change (<[S k := c']> (d :: cs)) with (d :: <[k := c']> cs). cbn [total]. rewrite (IH k Hk). lia.
Qed.

Lemma nblk_nonneg len : 0 <= len -> 0 <= nblk len.
Proof. intros. unfold nblk. destruct (_ <? _); zlia. Qed.

Lemma total_nonneg cs : 0 <= total cs.
Proof. induction cs as [|c cs IH]; cbn [total]; [lia|]. pose proof (nblk_nonneg (Z.of_nat (length c))). lia. Qed.

(** The image with the files [cs], of the types [ts]; entry [k] is inode [k + 1]. *)
Record image (s : mkst) (own : owners) (cs : list (list Z)) (ts : list Z) : Prop := {
  im_alloc : alloc_ok s;
  im_count : freeblock s = DATA + total cs;
  im_inode : freeinode s = Z.of_nat (S (length cs)) /\ (length cs < 208)%nat;
  im_files : forall k c, cs !! k = Some c -> has_file s own (rinode (Z.of_nat (S k)) s) k c;
  im_dins : forall k c, cs !! k = Some c -> let d := rinode (Z.of_nat (S k)) s in
    ts !! k = Some (d_type d) /\ d_major d = 0 /\ d_minor d = 0 /\ d_nlink d = 1 /\ d_size d = Z.of_nat (length c);
  im_types : Forall (fun t => 0 < t < 3) ts /\ length ts = length cs;
  im_sb : mk_img s 1 = mk_img mk_start 1
}.

Lemma dins_ok s own ts din k c v :
  has_file s own din k c -> d_major din = 0 -> d_minor din = 0 -> d_nlink din = 1 -> Forall (fun t => 0 < t < 3) ts ->
  ts !! k = Some (d_type din) -> 0 <= v < 2 ^ 32 -> dinode_ok (set_d_size v din).
Proof.
  intros (Hm & _) H1 H2 H3 Hts Ht Hv. apply (Forall_lookup_1 _ _ _ _ Hts) in Ht.
  unfold dinode_ok, set_d_size. cbn. rewrite H1, H2, H3. split_and!; try lia; [apply Hm|].
  apply Forall_lookup. intros j x Hx. pose proof (fm_range _ _ _ _ _ _ Hm j) as Hr. unfold d_addr in Hr.
  by rewrite (nth_lookup_Some _ _ _ _ Hx) in Hr.
Qed.

Lemma d_addr_repeat t ma mi nl sz k : d_addr (mkDinode t ma mi nl sz (repeat 0 13)) k = 0.
Proof.
  unfold d_addr. cbn [d_addrs]. destruct (nth_in_or_default k (repeat 0 13) 0) as [H|H]; [|done].
  by apply repeat_spec in H.
Qed.

Lemma has_file_empty s own i t ma mi nl sz : has_file s own (mkDinode t ma mi nl sz (repeat 0 13)) i [].
Proof.
  split; [|intros off Hoff; simpl in Hoff; lia]. set (d := mkDinode t ma mi nl sz (repeat 0 13)).
  assert (Hz : forall bn, dblk (mk_img s) d bn = 0).
  { intros bn. unfold dblk, d. rewrite !d_addr_repeat. by destruct (_ <? _). }
  constructor.
  - done.
  - intros k. unfold d. rewrite d_addr_repeat. lia.
  - simpl. lia.
  - unfold d. by rewrite d_addr_repeat.
  - intros bn Hbn. by rewrite Hz.
  - intros bn Hbn. rewrite Hz. unfold in_map in Hbn. simpl. lia.
  - unfold d. rewrite d_addr_repeat. simpl. lia.
Qed.

(** An inode block that is written with a good inode. *)
Lemma alloc_ok_winode s inum d : alloc_ok s -> 0 <= inum < 208 -> length (d_addrs d) = 13%nat -> alloc_ok (winode inum d s).
Proof.
  intros Ha Hi Hd. pose proof (i2b_range inum Hi) as Hb. destruct (ao_fb _ Ha) as (Hfb & _). constructor; try apply Ha.
  - intros x Hx. change (freeblock (winode inum d s)) with (freeblock s) in Hx.
    rewrite winode_img by (unfold DATA in *; lia). by apply Ha.
  - apply winode_lens; [done|apply Ha].
Qed.

Lemma ialloc_spec s own cs ts t :
  image s own cs ts -> (length cs < 207)%nat -> 0 < t < 3 ->
  exists s', ialloc t s = (Z.of_nat (S (length cs)), s') /\ image s' own (cs ++ [[]]) (ts ++ [t]).
Proof.
  intros H Hn Ht. destruct (im_inode _ _ _ _ H) as (Ei & _). unfold ialloc. rewrite Ei.
  rewrite (u32_small (_ + 1)) by lia. assert (Et : s16 t = t) by (assert (t = 1 \/ t = 2) as [-> | ->] by lia; done). rewrite Et.
  set (n := length cs) in *. set (s1 := mkMk _ _ _ (Z.of_nat (S n) + 1)). set (d := mkDinode t 0 0 1 0 (repeat 0 13)).
  exists (winode (Z.of_nat (S n)) d s1). split; [done|].
  assert (Ha1 : alloc_ok s1) by (destruct (im_alloc _ _ _ _ H); by constructor).
  assert (Hd : dinode_ok d).
  { unfold dinode_ok, d. cbn [d_type d_major d_minor d_nlink d_size d_addrs]. split_and!; try lia; [done|].
    apply Forall_forall. intros x Hx%list_elem_of_In%repeat_spec. lia. }
  assert (Hold : forall k c, cs !! k = Some c -> rinode (Z.of_nat (S k)) (winode (Z.of_nat (S n)) d s1) = rinode (Z.of_nat (S k)) s).
  { intros k c Hk%lookup_lt_Some. rewrite rinode_winode by (done || apply Ha1 || lia).
    by rewrite (proj2 (Z.eqb_neq _ _)) by lia. }
  assert (Hnew : rinode (Z.of_nat (S n)) (winode (Z.of_nat (S n)) d s1) = d).
  { rewrite rinode_winode by (done || apply Ha1 || lia). by rewrite Z.eqb_refl. }
  assert (Hdata : forall x, DATA <= x -> mk_img (winode (Z.of_nat (S n)) d s1) x = mk_img s x).
  { intros x Hx. pose proof (i2b_range (Z.of_nat (S n)) ltac:(lia)). rewrite winode_img by (unfold DATA in *; lia). done. }
  constructor.
  - apply alloc_ok_winode; [done|lia|done].
  - rewrite total_app. cbn [total length]. change (nblk (Z.of_nat 0)) with 0.
    change (freeblock s = DATA + (total cs + (0 + 0))). rewrite (im_count _ _ _ _ H). lia.
  - rewrite length_app. cbn [length]. fold n. split; [cbn; lia|lia].
  - intros k c. rewrite lookup_app_Some. intros [Hk|[Hk Hc]].
    + rewrite (Hold _ _ Hk). eapply has_file_data; [by apply H|done|done].
    + apply list_lookup_singleton_Some in Hc as [Hk0 <-]. replace k with n by (unfold n; lia).
      rewrite Hnew. apply has_file_empty.
  - intros k c. rewrite lookup_app_Some. intros [Hk|[Hk Hc]].
    + rewrite (Hold _ _ Hk). destruct (im_dins _ _ _ _ H k c Hk) as (E & R). split; [|done].
      by apply lookup_app_l_Some.
    + apply list_lookup_singleton_Some in Hc as [Hk0 <-]. replace k with n by (unfold n; lia).
      rewrite Hnew. split; [|done]. apply (list_lookup_middle ts []). destruct (im_types _ _ _ _ H). done.
  - destruct (im_types _ _ _ _ H) as (Hf & Hl). split; [|by rewrite !length_app, Hl].
    apply Forall_app. split; [done|]. by apply Forall_singleton.
  - rewrite winode_img; [apply H|]. pose proof (i2b_range (Z.of_nat (S n)) ltac:(lia)). lia.
Qed.

Lemma kept_rinode i s s' own own' din din' inum :
  alloc_ok s -> kept i s s' own own' din din' -> 0 <= inum < 208 -> rinode inum s' = rinode inum s.
Proof.
  intros Ha Hk Hi. unfold rinode, rsect. pose proof (i2b_range inum Hi). destruct (ao_fb _ Ha).
  rewrite (kp_img _ _ _ _ _ _ _ Hk); [done|unfold DATA in *; lia|left; unfold DATA; lia].
Qed.

Lemma kept_has_file i j s s' own own' din din' d c :
  kept i s s' own own' din din' -> i <> j -> has_file s own d j c -> has_file s' own' d j c.
Proof.
  intros Hk Hij (Hm & Hc). assert (Ha : agree_on j (freeblock s) own own' (mk_img s) (mk_img s')).
  { intros x Hx Ho. split; [|apply (kp_own _ _ _ _ _ _ _ Hk); lia].
    apply (kp_img _ _ _ _ _ _ _ Hk); [lia|right; congruence]. }
  split; [eapply file_map_frame; [exact Hm|exact Ha|apply Hk]|by eapply file_holds_frame].
Qed.

Lemma iappend_spec s own cs ts k c p :
  image s own cs ts -> cs !! k = Some c -> Z.of_nat (length (c ++ p)) <= 71680 ->
  DATA + total (<[k := c ++ p]> cs) + 2 < 2 ^ 32 ->
  exists s' own', iappend (Z.of_nat (S k)) p s = Some s' /\ image s' own' (<[k := c ++ p]> cs) ts.
Proof.
  intros H Hk Hlen Hb. pose proof (im_alloc _ _ _ _ H) as Ha. pose proof (lookup_lt_Some _ _ _ Hk) as Hlt.
  destruct (im_inode _ _ _ _ H) as (Ei & Hn). destruct (im_dins _ _ _ _ H k c Hk) as (Ht & Hma & Hmi & Hnl & Hsz).
  pose proof (im_files _ _ _ _ H k c Hk) as Hf. set (I := Z.of_nat (S k)) in *. set (din := rinode I s) in *.
  rewrite length_app, Nat2Z.inj_add in Hlen. rewrite (total_insert _ _ _ _ Hk), length_app, Nat2Z.inj_add in Hb.
  destruct (iappend_loop_spec (length p) p s own din k c Ha Hf Hlen) as (din' & s1 & own' & E & Ha1 & Hf1 & Hkp & Efb).
  { rewrite (im_count _ _ _ _ H). lia. } { done. }
  set (tot := Z.of_nat (length c) + Z.of_nat (length p)) in *. exists (winode I (set_d_size tot din') s1), own'.
  split. { unfold iappend. fold din. by rewrite Hsz, E. }
  destruct (kp_din _ _ _ _ _ _ _ Hkp) as (Et & Ema & Emi & Enl).
  assert (HI : 0 <= I < 208) by (unfold I; lia).
  assert (Hd : dinode_ok (set_d_size tot din')).
  { eapply (dins_ok _ own' ts); [exact Hf1|congruence..|apply H|by rewrite Et|]. unfold tot. lia. }
  assert (Hr : forall J, 0 <= J < 208 -> rinode J (winode I (set_d_size tot din') s1) = if J =? I then set_d_size tot din' else rinode J s).
  { intros J HJ. rewrite rinode_winode by (done || apply Ha1). destruct (J =? I); [done|]. by eapply kept_rinode. }
  assert (Hdata : forall x, DATA <= x -> mk_img (winode I (set_d_size tot din') s1) x = mk_img s1 x).
  { intros x Hx. pose proof (i2b_range I HI). by rewrite winode_img by (unfold DATA in *; lia). }
  constructor.
  - apply alloc_ok_winode; [done|lia|apply Hd].
  - rewrite (total_insert _ _ _ _ Hk), length_app, Nat2Z.inj_add. change (freeblock s1 = DATA + (total cs + (nblk tot - nblk (Z.of_nat (length c))))).
    rewrite Efb, (im_count _ _ _ _ H). lia.
  - rewrite length_insert. split; [|done]. change (freeinode s1 = Z.of_nat (S (length cs))). by rewrite (kp_inode _ _ _ _ _ _ _ Hkp).
  - intros j cj [(<- & <- & _)|(Hne & Hj)]%list_lookup_insert_Some; fold I.
    + rewrite Hr, Z.eqb_refl by done. eapply has_file_data; [|exact Hdata|done]. by apply has_file_size.
    + pose proof (lookup_lt_Some _ _ _ Hj). rewrite Hr, (proj2 (Z.eqb_neq _ _)) by (unfold I; lia).
      eapply has_file_data; [|exact Hdata|done]. eapply kept_has_file; [exact Hkp|done|by apply H].
  - intros j cj [(<- & <- & _)|(Hne & Hj)]%list_lookup_insert_Some; fold I.
    + rewrite Hr, Z.eqb_refl by done. cbn. rewrite Et, Ema, Emi, Enl, length_app, Nat2Z.inj_add. done.
    + pose proof (lookup_lt_Some _ _ _ Hj). rewrite Hr, (proj2 (Z.eqb_neq _ _)) by (unfold I; lia). by apply H.
  - rewrite length_insert. apply H.
  - pose proof (i2b_range I HI). rewrite winode_img by lia. rewrite (kp_img _ _ _ _ _ _ _ Hkp); [apply H| |left; unfold DATA; lia].
    destruct (ao_fb _ Ha). unfold DATA in *. lia.
Qed.

(** ** Adding the files *)

Lemma total_insert_le cs k c c' : cs !! k = Some c -> (length c <= length c')%nat -> total cs <= total (<[k := c']> cs).
Proof.
  intros Hk Hl. rewrite (total_insert _ _ _ _ Hk).
  pose proof (nblk_mono (Z.of_nat (length c)) (Z.of_nat (length c') - Z.of_nat (length c)) ltac:(lia) ltac:(lia)) as H.
  replace (_ + (_ - _)) with (Z.of_nat (length c')) in H by lia. lia.
Qed.

Lemma append_all_spec chunks : forall s own cs ts k c,
  let c' := c ++ concat chunks in
  image s own cs ts -> cs !! k = Some c -> Z.of_nat (length c') <= 71680 ->
  DATA + total (<[k := c']> cs) + 2 < 2 ^ 32 ->
  exists s' own', append_all (Z.of_nat (S k)) chunks s = Some s' /\ image s' own' (<[k := c']> cs) ts.
Proof.
  induction chunks as [|q chunks IH]; intros s own cs ts k c c' H Hk Hlen Hb.
  { exists s, own. unfold c'. cbn [concat append_all]. rewrite app_nil_r, list_insert_id by done. done. }
  unfold c' in *. cbn [concat] in *. rewrite app_assoc in *. pose proof (lookup_lt_Some _ _ _ Hk) as Hlt.
  assert (Hk1 : <[k := c ++ q]> cs !! k = Some (c ++ q)) by (by apply list_lookup_insert_eq).
  assert (Eins : <[k := (c ++ q) ++ concat chunks]> (<[k := c ++ q]> cs) = <[k := (c ++ q) ++ concat chunks]> cs).
  { apply list_insert_insert_eq. }
  destruct (iappend_spec s own cs ts k c q H Hk) as (s1 & own1 & E & H1).
  { rewrite length_app in Hlen. lia. }
  { pose proof (total_insert_le _ _ _ ((c ++ q) ++ concat chunks) Hk1). rewrite Eins in *. rewrite (length_app (c ++ q)) in *. lia. }
  destruct (IH s1 own1 _ ts k _ H1 Hk1) as (s2 & own2 & E2 & H2).
  { done. } { by rewrite Eins. }
  exists s2, own2. rewrite Eins in H2. split; [|done]. cbn [append_all]. by rewrite E.
Qed.

(** The entries of the root directory for the files, from inode [n] on. *)
Fixpoint dir_bytes (n : Z) (files : list (list Z * list (list Z))) : list Z :=
  match files with
  | [] => []
  | (arg, _) :: files => mk_dirent n (skip_underscore arg) ++ dir_bytes (n + 1) files
  end.

Definition contents (f : list Z * list (list Z)) : list Z := concat (snd f).

Lemma length_dir_bytes files : forall n, length (dir_bytes n files) = (16 * length files)%nat.
Proof.
  induction files as [|(arg & ch) files IH]; intros n; [done|].
  cbn [dir_bytes length]. rewrite length_app, length_mk_dirent, IH. lia.
Qed.

Lemma nblk_le a b : 0 <= a <= b -> nblk a <= nblk b.
Proof. intros H. pose proof (nblk_mono a (b - a) ltac:(lia) ltac:(lia)) as Hm. by replace (a + (b - a)) with b in Hm by lia. Qed.

(** What the loop of main accepts: no slash in a name, and no file too long. *)
Definition file_fits (f : list Z * list (list Z)) : Prop := (47 ∉ fst f) /\ Z.of_nat (length (contents f)) <= 71680.

Lemma add_file_spec s own r cs ts arg chunks :
  let n := Z.of_nat (S (S (length cs))) in
  let r' := r ++ mk_dirent n (skip_underscore arg) in
  image s own (r :: cs) ts -> (S (length cs) < 207)%nat -> file_fits (arg, chunks) ->
  Z.of_nat (length r') <= 71680 -> DATA + total (r' :: cs ++ [concat chunks]) + 2 < 2 ^ 32 ->
  exists s' own', add_file ROOTINO arg chunks s = Some s' /\ image s' own' (r' :: cs ++ [concat chunks]) (ts ++ [T_FILE]).
Proof.
  intros n r' H Hn (Hs & Hc) Hr Hb. unfold contents in Hc. cbn [fst snd] in Hs, Hc.
  destruct (ialloc_spec s own _ ts T_FILE H Hn) as (s1 & E1 & H1); [unfold T_FILE; lia|]. cbn [app] in H1.
  cbn [total] in Hb. rewrite total_app in Hb. cbn [total] in Hb. pose proof (total_nonneg cs) as Htot.
  pose proof (nblk_nonneg (Z.of_nat (length (concat chunks)))) as Hnb.
  destruct (iappend_spec s1 own _ _ 0 r (mk_dirent n (skip_underscore arg)) H1 eq_refl Hr) as (s2 & own2 & E2 & H2).
  { change (<[0%nat := ?v]> (?a :: ?l)) with (v :: l). fold r'. cbn [total]. rewrite total_app. cbn [total length].
    change (nblk (Z.of_nat 0)) with 0. lia. }
  change (<[0%nat := ?v]> (?a :: ?l)) with (v :: l) in H2. fold r' in H2.
  assert (Hk : (r' :: cs ++ [[]]) !! S (length cs) = Some []).
  { change (cs ++ [[]]) with (cs ++ [] :: @nil (list Z)). by apply list_lookup_middle. }
  assert (Ei : <[S (length cs) := concat chunks]> (r' :: cs ++ [[]]) = r' :: cs ++ [concat chunks]).
  { change (<[S ?k := ?v]> (?a :: ?l)) with (a :: <[k := v]> l). f_equal.
    rewrite insert_app_r_alt by done. by rewrite Nat.sub_diag. }
  destruct (append_all_spec chunks s2 own2 _ _ (S (length cs)) [] H2 Hk) as (s3 & own3 & E3 & H3).
  { done. } { cbn [app]. rewrite Ei. cbn [total]. rewrite total_app. cbn [total]. lia. }
  cbn [app] in H3. rewrite Ei in H3. exists s3, own3. split; [|done].
  unfold add_file. rewrite bool_decide_eq_false_2 by done. rewrite E1. cbn [length] in *. fold n.
  change ROOTINO with (Z.of_nat 1). rewrite E2. exact E3.
Qed.

Lemma add_files_spec files : forall s own r cs ts,
  let n := Z.of_nat (S (S (length cs))) in
  let r' := r ++ dir_bytes n files in
  image s own (r :: cs) ts -> (length cs + length files < 207)%nat -> Forall file_fits files ->
  Z.of_nat (length r') <= 71680 -> DATA + total (r' :: cs ++ map contents files) + 2 < 2 ^ 32 ->
  exists s' own', add_files ROOTINO files s = Some s' /\
    image s' own' (r' :: cs ++ map contents files) (ts ++ repeat T_FILE (length files)).
Proof.
  induction files as [|(arg & chunks) files IH]; intros s own r cs ts n r' H Hn Hf Hr Hb; unfold r' in *.
  { exists s, own. cbn [dir_bytes map repeat length]. by rewrite !app_nil_r. }
  apply Forall_cons in Hf as (Hf1 & Hf). cbn [dir_bytes map contents snd length] in *.
  change (contents (arg, chunks)) with (concat chunks) in *.
  rewrite app_assoc in Hr, Hb. replace (cs ++ concat chunks :: map contents files) with ((cs ++ [concat chunks]) ++ map contents files) in * by (by rewrite <- app_assoc).
  set (r1 := r ++ mk_dirent n (skip_underscore arg)) in *.
  destruct (add_file_spec s own r cs ts arg chunks H) as (s1 & own1 & E1 & H1); [lia|done|..].
  { fold n r1. rewrite length_app in Hr. lia. }
  { fold n r1. cbn [total] in Hb |- *. rewrite (total_app _ (map _ _)) in Hb. pose proof (total_nonneg (map contents files)).
    pose proof (nblk_le (Z.of_nat (length r1)) (Z.of_nat (length (r1 ++ dir_bytes (n + 1) files)))) as Hle.
    rewrite length_app in Hle at 1. lia. }
  assert (En : Z.of_nat (S (S (length (cs ++ [concat chunks])))) = n + 1) by (rewrite length_app; unfold n; simpl; lia).
  fold n r1 in H1. destruct (IH s1 own1 r1 (cs ++ [concat chunks]) _ H1) as (s2 & own2 & E2 & H2).
  { rewrite length_app. simpl. lia. } { done. } { by rewrite En. } { by rewrite En. }
  rewrite En in H2.
  exists s2, own2. cbn [add_files]. rewrite E1. split; [done|].
  replace (r ++ _ ++ _) with (r1 ++ dir_bytes (n + 1) files) by (unfold r1; by rewrite <- app_assoc).
  rewrite <- (app_assoc ts) in H2. exact H2.
Qed.

(** ** The finished image *)

Lemma first_bits_spec n : (n <= 4096)%nat ->
  length (first_bits n) = BSIZE /\ forall i, bit (first_bits n) i = (i <? n)%nat.
Proof.
  induction n as [|n IH]; intros Hn.
  - split; [apply length_zero_block|]. intros i. cbn [first_bits]. unfold bit, bit_byte.
    assert (E : nth (i / 8) zero_block 0 = 0).
    { destruct (nth_in_or_default (i / 8) zero_block 0) as [Hi|]; [|done].
      apply list_elem_of_In in Hi. by apply (proj1 (Forall_forall _ _) zero_block_all) in Hi. }
    rewrite E. by rewrite Z.bits_0.
  - destruct IH as (IHl & IHb); [lia|]. cbn [first_bits]. split; [by rewrite length_set_bit|].
    intros i. rewrite bit_set_bit, IHb by (rewrite IHl; unfold BSIZE; apply Nat.Div0.div_lt_upper_bound; lia).
    destruct (Nat.eqb_spec n i), (Nat.ltb_spec i n), (Nat.ltb_spec i (S n)); done || lia.
Qed.

Lemma mk_start_image own : image mk_start own [] [].
Proof.
  constructor; try done; [|cbn; lia].
  constructor; try done.
  - intros x Hx. change (freeblock mk_start) with 29 in Hx. unfold mk_start. cbn [mk_img wsect].
    by rewrite (proj2 (Z.eqb_neq _ _)) by lia.
  - intros x. unfold mk_start. cbn [mk_img wsect]. destruct (x =? 1); [|apply length_zero_block].
    rewrite length_put_words; rewrite length_zero_block; unfold BSIZE; simpl; lia.
Qed.

(** The files of the image: the root directory, then the ones given. *)
Definition all_files (files : list (list Z * list (list Z))) : list (list Z) :=
  (mk_dirent 1 [46] ++ mk_dirent 1 [46; 46] ++ dir_bytes 2 files) :: map contents files.

(** The files have their inodes and the blocks before the log. *)
Definition disk_fits (files : list (list Z * list (list Z))) : Prop :=
  (length files < 199)%nat /\ Forall file_fits files /\ DATA + total (all_files files) <= fs_size - fs_nlog.

(** What mkfs itself checks of their number and size: the bitmap is one block. *)
Definition mkfs_accepts (files : list (list Z * list (list Z))) : Prop :=
  (length files < 199)%nat /\ Forall file_fits files /\ DATA + total (all_files files) < 512 * 8.

Lemma disk_fits_accepts files : disk_fits files -> mkfs_accepts files.
Proof. intros (H1 & H2 & H3). split_and!; try done. unfold fs_size, fs_nlog, LOGSIZE in H3. lia. Qed.

Record built (s : mkst) (own : owners) (files : list (list Z * list (list Z))) : Prop := {
  bu_lens : forall x, length (mk_img s x) = BSIZE;
  bu_sb : mk_img s 1 = mk_img mk_start 1;
  bu_bits : mk_img s 28 = first_bits (Z.to_nat (freeblock s));
  bu_free : freeblock s = DATA + total (all_files files);
  bu_files : forall k c, all_files files !! k = Some c -> has_file s own (rinode (Z.of_nat (S k)) s) k c;
  bu_dins : forall k c, all_files files !! k = Some c -> let d := rinode (Z.of_nat (S k)) s in
    d_type d = (if (k =? 0)%nat then T_DIR else T_FILE) /\ d_nlink d = 1 /\
    d_size d = (if (k =? 0)%nat then (Z.of_nat (length c) / 512 + 1) * 512 else Z.of_nat (length c))
}.

Lemma total_all_nonneg files : 0 <= total (all_files files).
Proof. apply total_nonneg. Qed.

Lemma length_root files : length (mk_dirent 1 [46] ++ mk_dirent 1 [46; 46] ++ dir_bytes 2 files) = (16 * (length files + 2))%nat.
Proof. rewrite !length_app, !length_mk_dirent, length_dir_bytes. lia. Qed.

(** The steps of main up to the end of its loop. *)
Lemma mkfs_files files : mkfs_accepts files ->
  exists s0 s1 s2 s own, ialloc T_DIR mk_start = (ROOTINO, s0) /\ iappend ROOTINO (mk_dirent ROOTINO [46]) s0 = Some s1 /\
    iappend ROOTINO (mk_dirent ROOTINO [46; 46]) s1 = Some s2 /\ add_files ROOTINO files s2 = Some s /\
    image s own (all_files files) (T_DIR :: repeat T_FILE (length files)).
Proof.
  intros (Hn & Hf & Ht). unfold DATA in Ht.
  destruct (ialloc_spec mk_start (fun _ => (0%nat, 0)) [] [] T_DIR (mk_start_image _)) as (s0 & E0 & H0);
    [simpl; lia|unfold T_DIR; lia|]. cbn [app length] in *.
  destruct (iappend_spec s0 _ _ _ 0 [] (mk_dirent 1 [46]) H0 eq_refl) as (s1 & own1 & E1 & H1);
    [rewrite ?length_app, length_mk_dirent; simpl; lia|done|]. cbn [app] in H1.
  change (<[0%nat := ?v]> (?a :: ?l)) with (v :: l) in H1.
  destruct (iappend_spec s1 _ _ _ 0 _ (mk_dirent 1 [46; 46]) H1 eq_refl) as (s2 & own2 & E2 & H2);
    [rewrite length_app, !length_mk_dirent; simpl; lia|done|].
  change (<[0%nat := ?v]> (?a :: ?l)) with (v :: l) in H2.
  destruct (add_files_spec files s2 own2 _ [] _ H2) as (s & own & E & H).
  - simpl. lia.
  - done.
  - rewrite <- app_assoc. cbn [length]. rewrite length_root. lia.
  - rewrite <- app_assoc. change (29 + total (all_files files) + 2 < 2 ^ 32). lia.
  - rewrite <- app_assoc in H. cbn [app length] in H. exists s0, s1, s2, s, own. split_and!; done.
Qed.

Lemma all_files_length files : length (all_files files) = S (length files).
Proof. unfold all_files. cbn [length]. by rewrite length_map. Qed.

(** The last steps: the size of the root directory and the bitmap. *)
Lemma finish_built s own files :
  mkfs_accepts files -> image s own (all_files files) (T_DIR :: repeat T_FILE (length files)) ->
  exists s', balloc (usedblocks (fix_root ROOTINO s)) (fix_root ROOTINO s) = Some s' /\ built s' own files.
Proof.
  intros (Hn & Hf & Ht) H. pose proof (im_alloc _ _ _ _ H) as Ha. destruct (ao_fb _ Ha) as (Hfb & _).
  pose proof (im_count _ _ _ _ H) as Ec.
  unfold fix_root. set (din := rinode ROOTINO s). set (d1 := set_d_size _ din). set (s1 := winode ROOTINO d1 s).
  assert (Eu : usedblocks s1 = freeblock s) by apply Ha.
  unfold balloc. rewrite Eu, (proj2 (Z.ltb_lt _ _)) by lia. change (fs_ninodes / IPB + 3) with 28.
  destruct (first_bits_spec (Z.to_nat (freeblock s))) as (Hbl & _); [lia|].
  exists (wsect 28 (first_bits (Z.to_nat (freeblock s))) s1). split; [done|].
  pose proof (im_files _ _ _ _ H 0%nat _ eq_refl) as Hroot. destruct (im_dins _ _ _ _ H 0%nat _ eq_refl) as (Et & Ema & Emi & Enl & Esz).
  change (Z.of_nat 1) with ROOTINO in Hroot, Et, Ema, Emi, Enl, Esz. fold din in Hroot, Et, Ema, Emi, Enl, Esz.
  rewrite length_root in Esz.
  assert (Hd1 : dinode_ok d1).
  { eapply dins_ok; [exact Hroot|done..|apply H|done|]. rewrite Esz. zlia. }
  assert (Hlens : forall x, length (mk_img s1 x) = BSIZE) by (apply winode_lens; [apply Hd1|apply Ha]).
  assert (Hr : forall J, 0 <= J < 208 -> rinode J (wsect 28 (first_bits (Z.to_nat (freeblock s))) s1) = if J =? ROOTINO then d1 else rinode J s).
  { intros J HJ. unfold rinode at 1, rsect. pose proof (i2b_range J HJ). cbn [mk_img wsect].
    rewrite (proj2 (Z.eqb_neq _ 28)) by lia. unfold s1. change (rinode J s1 = if J =? ROOTINO then d1 else rinode J s).
    apply rinode_winode; [done|apply Ha|unfold ROOTINO; lia|done]. }
  assert (Hdata : forall x, DATA <= x -> mk_img (wsect 28 (first_bits (Z.to_nat (freeblock s))) s1) x = mk_img s x).
  { intros x Hx. unfold DATA in Hx. cbn [mk_img wsect]. rewrite (proj2 (Z.eqb_neq _ _)) by lia.
    apply winode_img. change (i2b ROOTINO) with 2. lia. }
  constructor.
  - intros x. cbn [mk_img wsect]. by destruct (x =? 28).
  - rewrite <- (im_sb _ _ _ _ H). cbn [mk_img wsect]. apply winode_img. change (i2b ROOTINO) with 2. lia.
  - done.
  - done.
  - intros k c Hk. pose proof (lookup_lt_Some _ _ _ Hk) as Hl. rewrite all_files_length in Hl. rewrite Hr by lia.
    eapply has_file_data; [|exact Hdata|done]. destruct (Z.eqb_spec (Z.of_nat (S k)) ROOTINO) as [E|]; [|by apply H].
    assert (k = 0%nat) as -> by (unfold ROOTINO in *; lia). apply has_file_size. exact (im_files _ _ _ _ H 0%nat c Hk).
  - intros k c Hk. pose proof (lookup_lt_Some _ _ _ Hk) as Hl. rewrite all_files_length in Hl. cbv zeta. rewrite Hr by lia.
    destruct (im_dins _ _ _ _ H k c Hk) as (Htk & _ & _ & Hnk & Hsk). destruct k as [|k].
    + apply (inj Some) in Hk as <-. injection Et as Et. rewrite length_root. change (Z.of_nat 1 =? ROOTINO) with true. unfold d1.
      rewrite Esz. split; [by rewrite Et|]. done.
    + rewrite (proj2 (Z.eqb_neq _ _)) by (unfold ROOTINO; lia). change (repeat T_FILE (length files) !! k = Some (d_type (rinode (Z.of_nat (S (S k))) s))) in Htk.
      apply list_elem_of_lookup_2, list_elem_of_In, repeat_spec in Htk. done.
Qed.

(** ** The kernel on the image *)

(** A machine whose disk holds the image, with the log where the superblock
    puts it. *)
Record on_disk (s : mkst) (a : ablk) : Prop := {
  od_view : forall x, 0 <= x < fs_size -> a_view a x = mk_img s x;
  od_size : a_size a = fs_size;
  od_log : l_start (a_log a) = fs_size - fs_nlog /\ l_size (a_log a) = fs_nlog
}.

Section kernel_side.
Context (s : mkst) (own : owners) (files : list (list Z * list (list Z))) (a : ablk).
Context (B : built s own files) (Hfit : disk_fits files) (D : on_disk s a).

Lemma disk_sb : sb_of a = mkSb fs_size fs_nblocks fs_ninodes fs_nlog.
Proof using B D. clear Hfit. unfold sb_of. rewrite (od_view _ _ D), (bu_sb _ _ _ B) by (unfold fs_size; lia). vm_compute. done. Qed.

Lemma disk_bblock b : 0 <= b < fs_size -> bblock a b = 28.
Proof using B D.
  clear Hfit. unfold fs_size. intros Hb. unfold bblock. rewrite disk_sb. unfold BBLOCK, BPB, IPB. cbn [sb_ninodes]. unfold fs_ninodes. zlia.
Qed.

Lemma disk_dstart : dstart a = DATA.
Proof using B D. clear Hfit. unfold dstart. rewrite disk_bblock; [done|]. rewrite disk_sb. unfold fs_size. cbn [sb_size]. lia. Qed.

Lemma disk_free : DATA <= freeblock s <= fs_size - fs_nlog.
Proof using B Hfit.
  clear D. destruct Hfit as (_ & _ & Ht). pose proof (total_all_nonneg files). rewrite (bu_free _ _ _ B). lia.
Qed.

(** A block is marked in use exactly when it is before the first free one. *)
Lemma disk_used b : 0 <= b < fs_size -> used a b = (b <? freeblock s).
Proof using B Hfit D.
  intros Hb. pose proof disk_free as Hf. unfold used. rewrite disk_bblock by done.
  rewrite (od_view _ _ D) by (unfold fs_size; lia). rewrite (bu_bits _ _ _ B).
  unfold fs_size, fs_nlog, LOGSIZE, DATA in *. destruct (first_bits_spec (Z.to_nat (freeblock s))) as (_ & ->); [lia|].
  unfold bindex, BPB. rewrite Z.mod_small by lia. destruct (Z.ltb_spec b (freeblock s)); [apply Nat.ltb_lt|apply Nat.ltb_ge]; lia.
Qed.

Lemma disk_home x : 0 <= x < fs_size - fs_nlog -> home a x.
Proof using D.
  clear Hfit B. destruct D as [_ Hs (E1 & E2)]. unfold home, in_log. rewrite Hs, E1, E2. unfold fs_size, fs_nlog, LOGSIZE. lia.
Qed.

Lemma disk_layout : layout_ok a.
Proof using B Hfit D.
  pose proof disk_free as Hf. unfold fs_nlog, LOGSIZE, DATA in Hf.
  split.
  - split; rewrite ?disk_sb; cbn [sb_size sb_ninodes].
    + rewrite (od_size _ _ D). done.
    + done.
    + done.
    + intros b Hb. rewrite disk_bblock by done. by apply disk_home.
  - by rewrite disk_sb.
  - rewrite disk_dstart. unfold DATA. intros x Hx. rewrite disk_used by (unfold fs_size in *; lia). apply Z.ltb_lt. lia.
  - rewrite disk_dstart, disk_sb. done.
  - rewrite disk_dstart. unfold DATA. intros x Hx. apply disk_home. unfold fs_size, fs_nlog, LOGSIZE. lia.
  - rewrite disk_sb, (od_size _ _ D). done.
Qed.

Lemma disk_data x : DATA <= x < freeblock s -> datablk a x /\ a_view a x = mk_img s x.
Proof using B Hfit D.
  intros Hx. pose proof disk_free as Hf. unfold datablk. rewrite disk_dstart, disk_sb. cbn [sb_size].
  unfold DATA in *. rewrite (od_view _ _ D) by (unfold fs_nlog, LOGSIZE in *; lia). split; [|done].
  split; [unfold fs_nlog, LOGSIZE in *; lia|]. split; [apply disk_home; lia|].
  rewrite disk_used by (unfold fs_nlog, LOGSIZE in *; lia). apply Z.ltb_lt. lia.
Qed.

(** An inode of the image, in the inode cache. *)
Section inode.
Context (k i : nat) (c : list Z) (p : inode).
Context (Hk : all_files files !! k = Some c) (Hi : a_icache a !! i = Some p).
Context (Hdev : i_dev p = 1) (Hinum : i_inum p = Z.of_nat (S k)) (Hsync : isync a p).

Lemma inum_small : (S k < 200)%nat.
Proof using Hfit Hk. clear - Hfit Hk. destruct Hfit as (Hn & _). apply lookup_lt_Some in Hk. rewrite all_files_length in Hk. lia. Qed.

Lemma disk_inode : dinode_of p = rinode (Z.of_nat (S k)) s.
Proof using Hfit D Hk Hinum Hsync.
  clear B Hi Hdev. pose proof inum_small as Hs. unfold isync in Hsync. rewrite <- Hsync, Hinum. unfold rinode, rsect, IBLOCK, i2b.
  rewrite (od_view _ _ D); [done|]. unfold fs_size, IPB. zlia.
Qed.

Lemma disk_addr j : addr_of p j = d_addr (rinode (Z.of_nat (S k)) s) j.
Proof using Hfit D Hk Hinum Hsync. clear B Hi Hdev. by rewrite <- disk_inode. Qed.

Lemma disk_fmap bn : fmap a p bn = dblk (mk_img s) (rinode (Z.of_nat (S k)) s) bn.
Proof using All.
  destruct (bu_files _ _ _ B k c Hk) as (Hm & _). unfold fmap, dblk. rewrite !disk_addr. destruct (_ <? _); [done|].
  destruct (Z.eqb_spec (d_addr (rinode (Z.of_nat (S k)) s) NDIRECT) 0) as [|Hne]; [done|].
  destruct (fm_ind _ _ _ _ _ _ Hm Hne) as (Hr & _). destruct (disk_data _ Hr) as (_ & ->). done.
Qed.

Lemma disk_file : file_ok a p.
Proof using All.
  destruct (bu_files _ _ _ B k c Hk) as (Hm & _). split.
  - done.
  - pose proof (fm_addrs _ _ _ _ _ _ Hm) as H. rewrite <- disk_inode in H. exact H.
  - rewrite disk_addr. intros Hne. by apply disk_data, (fm_ind _ _ _ _ _ _ Hm).
  - intros bn Hbn. rewrite disk_fmap. intros Hne. by apply disk_data, (fm_own _ _ _ _ _ _ Hm).
  - intros bn bn' Hbn Hbn'. rewrite !disk_fmap. intros E Hne.
    destruct (fm_own _ _ _ _ _ _ Hm bn Hbn Hne) as (_ & Ho). rewrite E in Hne, Ho.
    destruct (fm_own _ _ _ _ _ _ Hm bn' Hbn' Hne) as (_ & Ho'). rewrite Ho in Ho'. by injection Ho'.
  - intros bn Hbn. rewrite disk_fmap, disk_addr. intros Hne E.
    destruct (fm_own _ _ _ _ _ _ Hm bn Hbn Hne) as (_ & Ho). rewrite E in Hne, Ho.
    destruct (fm_ind _ _ _ _ _ _ Hm Hne) as (_ & Ho'). rewrite Ho in Ho'. injection Ho' as ->. unfold in_map in Hbn. lia.
Qed.

(** The root directory is rounded up by a whole block when it is full. *)
Context (Hroot : k = 0%nat -> Z.of_nat (length c) mod 512 <> 0).

Lemma disk_open : open_file a i p /\ Z.of_nat (length c) <= i_size p.
Proof using All.
  destruct (bu_files _ _ _ B k c Hk) as (Hm & _). pose proof (fm_len _ _ _ _ _ _ Hm) as Hlen.
  destruct (bu_dins _ _ _ B k c Hk) as (Et & _ & Es). rewrite <- disk_inode in Et, Es. cbn [d_type d_size dinode_of] in Et, Es.
  assert (Hsz : Z.of_nat (length c) <= i_size p <= (Z.of_nat (length c) + 511) / 512 * 512).
  { rewrite Es. destruct (Nat.eqb_spec k 0) as [E|_]; [specialize (Hroot E)|]; zlia. }
  split; [|apply Hsz]. split.
  - done.
  - rewrite Et. by destruct (k =? 0)%nat.
  - unfold MAXFILE, BSIZE. zlia.
  - apply disk_file.
  - intros x Hx. rewrite Z.add_0_l in Hx. unfold BSIZE in *. assert (Hin : in_map (x / Z.of_nat 512)) by (unfold in_map, MAXFILE; zlia).
    split; [done|]. rewrite disk_fmap. apply (fm_there _ _ _ _ _ _ Hm); [done|]. zlia.
Qed.

Lemma disk_bytes : fbytes a p 0 (length c) = c.
Proof using All.
  destruct (bu_files _ _ _ B k c Hk) as (Hm & Hc). apply (nth_ext _ _ 0 0); [apply length_fbytes|].
  intros j Hj. rewrite length_fbytes in Hj. rewrite (nth_lookup_Some _ _ _ _ (fbytes_lookup a p 0 _ j Hj)), Z.add_0_l.
  destruct (block_in_map (Z.of_nat j) (Z.of_nat (length c))) as (Hin & Hlt); [lia|apply (fm_len _ _ _ _ _ _ Hm)|].
  destruct (fm_own _ _ _ _ _ _ Hm _ Hin) as (Hr & _); [by apply (fm_there _ _ _ _ _ _ Hm)|].
  unfold byte_at. rewrite disk_fmap. change (Z.of_nat BSIZE) with 512. destruct (disk_data _ Hr) as (_ & ->).
  rewrite (Hc (Z.of_nat j)) by lia. by rewrite Nat2Z.id.
Qed.
End inode.
End kernel_side.

(** mkfs builds an image of whatever passes its own checks. *)
Lemma mkfs_builds files : mkfs_accepts files -> exists s own, mkfs files = Some s /\ built s own files.
Proof.
  intros Hfit. destruct (mkfs_files files Hfit) as (s0 & s1 & s2 & s3 & own & E0 & E1 & E2 & E3 & Him).
  destruct (finish_built s3 own files Hfit Him) as (s & Es & B). exists s, own. split; [|done].
  unfold mkfs. rewrite E0. change (negb (_ =? fs_size)) with false. cbv iota zeta.
  change (negb (ROOTINO =? ROOTINO)) with false. cbv iota. by rewrite E1, E2, E3.
Qed.

(** Nothing compares freeblock with the start of the log: files that do not fit
    before it are written over it. *)
Lemma mkfs_into_log files : mkfs_accepts files -> fs_size - fs_nlog < DATA + total (all_files files) ->
  exists s, mkfs files = Some s /\ fs_size - fs_nlog < freeblock s.
Proof.
  intros Hf Ht. destruct (mkfs_builds files Hf) as (s & own & E & B). exists s. by rewrite (bu_free _ _ _ B).
Qed.

(** C28: The kernel reads back the files mkfs was given.  When the files fit, mkfs
    builds an image; on a machine booted from it the layout fs.c relies on
    holds, and readi on a file, or on the root directory, returns its bytes. *)
Theorem mkfs_then_readi files : disk_fits files ->
  exists s, mkfs files = Some s /\
  forall dtab ks a, rep ks [] a -> txn a -> fits [] 0 a -> on_disk s a ->
    layout_ok a /\
    forall k i c p, all_files files !! k = Some c -> (k = 0%nat -> Z.of_nat (length c) mod 512 <> 0) ->
      a_icache a !! i = Some p -> i_dev p = 1 -> i_inum p = Z.of_nat (S k) -> isync a p ->
      exists ks', rep ks' [] a /\ readi dtab i 0 (Z.of_nat (length c)) ks = Ok (Z.of_nat (length c), c) ks'.
Proof.
  intros Hfit. destruct (mkfs_builds files (disk_fits_accepts _ Hfit)) as (s & own & E & B). exists s. split; [done|].
  intros dtab ks a R Tx F D. split; [by eapply disk_layout|]. intros k i c p Hk Hroot Hi Hdev Hinum Hsync.
  destruct (disk_open s own files a B Hfit D k i c p Hk Hi Hdev Hinum Hsync Hroot) as (O & Hle).
  pose proof (of_size _ _ _ O) as Hsz. unfold MAXFILE, BSIZE in Hsz.
  pose proof (wp_readi dtab ks a i p 0 (Z.of_nat (length c)) [] 0
    (fun r ks' => rep ks' [] a /\ r = (Z.of_nat (length c), c)) R Tx F O ltac:(lia) ltac:(lia)) as H.
  apply wp_iff in H as (r & ks' & Hrun & R' & ->); [by exists ks'|]. intros ks' R'. split; [done|].
  rewrite (proj2 (Z.ltb_ge _ _)), (proj2 (Z.leb_gt _ _)) by lia. cbn [orb]. rewrite Z.sub_0_r, Z.min_l, Nat2Z.id by lia.
  by rewrite (disk_bytes s own files a B Hfit D k i c p Hk Hi Hdev Hinum Hsync Hroot).
Qed.

(** ** A small image *)

Module MkfsDemo.

(** One file of 700 bytes, read in two pieces. *)
Definition piece (n : nat) : list Z := map (fun k => Z.of_nat k mod 251) (seq 0 n).
Definition demo_files : list (list Z * list (list Z)) := [([95; 97], [piece 512; piece 188])].

Lemma demo_fits : disk_fits demo_files.
Proof.
  split; [simpl; lia|]. split; [|vm_compute; done].
  apply Forall_singleton. split; [|vm_compute; done]. cbn. rewrite !elem_of_cons, elem_of_nil. lia.
Qed.

Definition sectors (s : mkst) : gmap (Z * Z) (list Z) :=
  list_to_map (map (fun x => ((1, x), mk_img s x)) (seqZ 0 fs_size)).

Lemma sectors_get s x : 0 <= x < fs_size -> dget (sectors s) 1 x = mk_img s x.
Proof.
  intros Hx. unfold dget, sectors. rewrite (elem_of_list_to_map_1 _ (1, x) (mk_img s x)); [done| |].
  - rewrite <- list_fmap_compose. apply NoDup_fmap_2; [intros y z E; by injection E|apply NoDup_seqZ].
  - apply list_elem_of_fmap. exists x. split; [done|]. apply elem_of_seqZ. lia.
Qed.

Lemma sectors_lens s : (forall x, length (mk_img s x) = BSIZE) -> forall x, length (dget (sectors s) 1 x) = BSIZE.
Proof.
  intros Hl x. unfold dget. destruct (sectors s !! (1, x)) as [v|] eqn:E; [|apply length_zero_block].
  apply elem_of_list_to_map_2, list_elem_of_fmap in E as (y & E & _). injection E as <- ->. apply Hl.
Qed.

#[local] Opaque sectors.

(** The machine booted from the image, in a transaction, with inode 2 locked. *)
Definition demo_inode (s : mkst) : inode :=
  let d := rinode 2 s in
  mkInode 1 2 1 true true (d_type d) (d_major d) (d_minor d) (d_nlink d) (d_size d) (d_addrs d).
Definition demo_log : logst := mkLog 994 30 1 false 1 0 (repeat 0 30).
Definition demo_state (s : mkst) : fstate :=
  mkFs (replicate NBUF (mkBuf false false false 0 0 zero_block)) [] (sectors s) fs_size []
       demo_log [demo_inode s] (mkThread [] []).
Definition demo_a (s : mkst) : ablk :=
  mkA (dget (sectors s) 1) [] (sectors s) [] demo_log [demo_inode s] fs_size [].

Lemma demo_rep s : (forall x, length (mk_img s x) = BSIZE) -> exists ks, rep ks [] (demo_a s).
Proof.
  intros Hl. destruct (binit_reboots (demo_state s)) as (r & _ & Hreb & Hlog & Hic & Hw & _).
  { split; [done|]. split; [done|]. split; [done|]. by apply sectors_lens. }
  exists r. pose proof (rebooted_rep _ _ _ Hreb) as R. destruct Hreb as (_ & _ & Hdisk & Hsz & _).
  unfold boot_ablk in R. rewrite Hlog, Hic, Hw, Hdisk, Hsz in R. exact R.
Qed.

Lemma mkfs_demo_txn s : txn (demo_a s).
Proof.
  split; [|simpl; lia]. split; [|done|apply NoDup_nil_2].
  split; simpl; try done; try lia.
  - unfold lsecs. simpl. set_solver.
  - unfold lsecs. simpl. set_solver.
  - split; apply not_elem_of_nil.
Qed.

Lemma mkfs_then_readi_witness :
  exists s ks ks', mkfs demo_files = Some s /\
    readi (fun _ => mkDevsw None None) 0 0 700 ks = Ok (700, piece 512 ++ piece 188) ks'.
Proof.
  destruct (mkfs_builds demo_files (disk_fits_accepts _ demo_fits)) as (s & own & E & B).
  destruct (mkfs_then_readi demo_files demo_fits) as (s' & E' & H). rewrite E in E'. injection E' as <-.
  destruct (demo_rep s (bu_lens _ _ _ B)) as (ks & R).
  destruct (H (fun _ => mkDevsw None None) ks (demo_a s) R (mkfs_demo_txn s)) as (_ & Hread).
  - exists []. unfold lsecs. simpl. unfold LOGSIZE. split; [set_solver|]. split; [done|]. lia.
  - split; [intros x Hx; exact (sectors_get s x Hx)|reflexivity|split; reflexivity].
  - destruct (Hread 1%nat 0%nat (piece 512 ++ piece 188) (demo_inode s)) as (ks' & _ & E').
    + vm_compute. reflexivity.
    + discriminate.
    + reflexivity.
    + reflexivity.
    + reflexivity.
    + unfold isync. cbn [i_inum demo_inode]. change (IBLOCK 2) with 2. cbn [a_view demo_a].
      rewrite sectors_get by (unfold fs_size; lia). change (get_dinode (mk_img s 2) (inode_index 2)) with (rinode 2 s).
      unfold dinode_of, demo_inode. cbn [i_type i_major i_minor i_nlink i_size i_addrs]. destruct (rinode 2 s). reflexivity.
    + exists s, ks, ks'. split; [exact E|]. replace (Z.of_nat _) with 700 in E' by (vm_compute; reflexivity). exact E'.
Defined.
End MkfsDemo.
