(* ===== verification/Dir.v ===== *)
(** * fs.c: directories and path names

    A name or a path is the byte list of the C string; a path element is cut
    to DIRSIZ bytes as [skipelem] does. *)

From S2P Require Import Prelude Monad Locks Memory CString FsState FsLayout Bio Log Fs.

Open Scope Z_scope.
Open Scope kernel_scope.

Definition namecmp (s t : list Z) : Z := arr_strncmp DIRSIZ s t.

Definition SIZEOF_DIRENT : Z := 16.

(** One turn per entry, and one to see the end. *)
Definition dir_fuel (size : Z) : nat := S (Z.to_nat ((size + SIZEOF_DIRENT - 1) / SIZEOF_DIRENT)).

Section directories.
Context (dtab : Z -> devsw).

(** [readi(dp, (char * )&de, off, sizeof(de))], which has to return 16 bytes. *)
Definition read_dirent (dp : nat) (off : Z) : M fstate (list Z) :=
  do ' (r, de) <- readi dtab dp off SIZEOF_DIRENT;
  if r =? SIZEOF_DIRENT then ret de else panic "dirlink read".

(** The scan of dirlookup; an entry that matches is returned with its offset. *)
Fixpoint dirlookup_loop (dp : nat) (name : list Z) (off : Z) (fuel : nat)
  : M fstate (option (nat * Z)) :=
  match fuel with
  | O => fault "dirlookup: loop bound"
  | S fuel =>
      do p <- get_inode dp;
      if off <? i_size p then
        do de <- read_dirent dp off;
        if de_inum de =? 0 then dirlookup_loop dp name (off + SIZEOF_DIRENT) fuel
        else if namecmp name (de_name de) =? 0 then
          do p <- get_inode dp;
          do ip <- iget (i_dev p) (de_inum de);
          ret (Some (ip, off))
        else dirlookup_loop dp name (off + SIZEOF_DIRENT) fuel
      else ret None
  end.

Definition dirlookup (dp : nat) (name : list Z) : M fstate (option (nat * Z)) :=
  do p <- get_inode dp;
  if negb (i_type p =? T_DIR) then panic "dirlookup not DIR"
  else dirlookup_loop dp name 0 (dir_fuel (i_size p)).

(** The search of dirlink for an empty entry. *)
Fixpoint dirlink_slot (dp : nat) (off : Z) (fuel : nat) : M fstate Z :=
  match fuel with
  | O => fault "dirlink: loop bound"
  | S fuel =>
      do p <- get_inode dp;
      if off <? i_size p then
        do de <- read_dirent dp off;
        if de_inum de =? 0 then ret off else dirlink_slot dp (off + SIZEOF_DIRENT) fuel
      else ret off
  end.

Definition dirlink (dp : nat) (name : list Z) (inum : Z) : M fstate Z :=
  do found <- dirlookup dp name;
  match found with
  | Some (ip, _) => iput ip ;; ret (-1)
  | None =>
      do p <- get_inode dp;
      do off <- dirlink_slot dp 0 (dir_fuel (i_size p));
      do r <- writei dtab dp (mk_dirent inum name) off SIZEOF_DIRENT;
      if r =? SIZEOF_DIRENT then ret 0 else panic "dirlink"
  end.

(** ** Paths *)

Definition slash : Z := 47.

Fixpoint skip_slashes (path : list Z) : list Z :=
  match path with
  | c :: rest => if c =? slash then skip_slashes rest else path
  | [] => []
  end.

Fixpoint take_elem (path : list Z) : list Z * list Z :=
  match path with
  | c :: rest =>
      if c =? slash then ([], path)
      else let '(e, r) := take_elem rest in (c :: e, r)
  | [] => ([], [])
  end.

(** skipelem: the rest of the path and the element, or [None] for null. *)
Definition skipelem (path : list Z) : option (list Z * list Z) :=
  match skip_slashes path with
  | [] => None
  | path =>
      let '(e, r) := take_elem path in
      Some (skip_slashes r, take DIRSIZ e)
  end.

Fixpoint namex_loop (ip : nat) (path : list Z) (nameiparent : bool) (name : list Z) (fuel : nat)
  : M fstate (option (nat * list Z)) :=
  match fuel with
  | O => fault "namex: loop bound"
  | S fuel =>
      match skipelem path with
      | None =>
          if nameiparent then iput ip ;; ret None else ret (Some (ip, name))
      | Some (path, name) =>
          ilock (Some ip) ;;
          do p <- get_inode ip;
          if negb (i_type p =? T_DIR) then iunlockput ip ;; ret None
          else if nameiparent && (match path with [] => true | _ => false end) then
            iunlock (Some ip) ;; ret (Some (ip, name))
          else
            do next <- dirlookup ip name;
            match next with
            | None => iunlockput ip ;; ret None
            | Some (next, _) => iunlockput ip ;; namex_loop next path nameiparent name fuel
            end
      end
  end.

(** Every turn removes at least one byte of the path. *)
Definition namex (cwd : nat) (path : list Z) (nameiparent : bool) : M fstate (option (nat * list Z)) :=
  do ip <- (match path with
            | c :: _ => if c =? slash then iget ROOTDEV ROOTINO else idup cwd
            | [] => idup cwd
            end);
  namex_loop ip path nameiparent [] (S (length path)).

Definition namei (cwd : nat) (path : list Z) : M fstate (option nat) :=
  do r <- namex cwd path false;
  ret (option_map fst r).

Definition nameiparent (cwd : nat) (path : list Z) : M fstate (option (nat * list Z)) :=
  namex cwd path true.

End directories.

(** ** Splitting paths *)

(** The elements of a path, in order. *)
Fixpoint elements (path : list Z) (fuel : nat) : list (list Z) :=
  match fuel with
  | O => []
  | S fuel =>
      match skipelem path with
      | None => []
      | Some (rest, e) => e :: elements rest fuel
      end
  end.

Lemma skip_slashes_length p : (length (skip_slashes p) <= length p)%nat.
Proof. induction p as [|c p IH]; simpl; [lia|]. destruct (c =? slash); simpl; lia. Qed.

Lemma take_elem_app p : let '(e, r) := take_elem p in p = e ++ r.
Proof.
  induction p as [|c p IH]; simpl; [done|]. destruct (c =? slash); [done|].
  destruct (take_elem p). simpl. by f_equal.
Qed.

Lemma skip_slashes_head p : match skip_slashes p with [] => True | c :: _ => c <> slash end.
Proof.
  induction p as [|c p IH]; simpl; [done|]. destruct (Z.eqb_spec c slash); [done|]. done.
Qed.

(** skipelem shortens the path, so [namex] stops. *)
Lemma skipelem_shorter p rest e : skipelem p = Some (rest, e) -> (length rest < length p)%nat.
Proof.
  unfold skipelem. pose proof (skip_slashes_length p) as H1.
  pose proof (skip_slashes_head p) as Hh.
  destruct (skip_slashes p) as [|c q]; [done|]. intros H.
  pose proof (take_elem_app (c :: q)) as Hq. simpl in *.
  destruct (Z.eqb_spec c slash); [done|]. destruct (take_elem q) as [e' r'].
  injection H as <- _. pose proof (skip_slashes_length r').
  simpl in Hq. injection Hq as ->. rewrite length_app in H1. lia.
Qed.

(** The rest has no leading slash: it is empty exactly after the last element. *)
Lemma skipelem_rest p rest e :
  skipelem p = Some (rest, e) -> match rest with [] => True | c :: _ => c <> slash end.
Proof.
  unfold skipelem. destruct (skip_slashes p) as [|c q]; [done|].
  destruct (take_elem (c :: q)) as [e' r]. intros H. injection H as <- _. apply skip_slashes_head.
Qed.
