(* ===== verification/Kernel.v ===== *)
(** * The kernel as one state

    The components of the kernel are modelled on states of their own (memory,
    file system, console).  Here they become one state, with the process
    table, the open files and the pipes.  [zoom] runs an operation of a
    component inside the kernel: the component sees the locks the CPU holds,
    the wakeups it issues mark processes of the table runnable, and when it
    goes to sleep the current process is parked in the table. *)

From S2P Require Import Prelude Monad Locks Memory CString Mmu Kalloc Vm VmSpec FsState FsLayout Fs Dir Console.

Open Scope Z_scope.
Open Scope kernel_scope.

Definition NPROC : nat := 64.
Definition NOFILE : nat := 16.
Definition NFILE : nat := 100.
Definition KSTACKSIZE : Z := 4096.

Inductive procstate : Type := UNUSED | EMBRYO | SLEEPING | RUNNABLE | RUNNING | ZOMBIE.

#[export] Instance procstate_eq_dec : EqDecision procstate.
Proof. solve_decision. Defined.

(** A process and a file are named by their index in the table; the null
    pointer is [None].  The trap frame and the saved context lie on the kernel
    stack, in memory. *)
Record proc : Type := mkProc {
  p_sz : Z;
  p_pgdir : Z;
  p_kstack : Z;
  p_state : procstate;
  p_pid : Z;
  p_parent : option nat;
  p_tf : Z;
  p_context : Z;
  p_chan : option chan;
  p_killed : bool;
  p_ofile : list (option nat);
  p_cwd : option nat;
  p_name : list Z;
  p_type : Z
}.

Inductive ftype : Type := FD_NONE | FD_PIPE | FD_INODE.

#[export] Instance ftype_eq_dec : EqDecision ftype.
Proof. solve_decision. Defined.

Record file : Type := mkFile {
  f_type : ftype;
  f_ref : Z;
  f_readable : bool;
  f_writable : bool;
  f_pipe : Z;
  f_ip : nat;
  f_off : Z
}.

(** struct pipe, at the page that kalloc gave for it. *)
Record pipe : Type := mkPipe {
  pp_data : list Z;
  pp_nread : Z;
  pp_nwrite : Z;
  pp_readopen : bool;
  pp_writeopen : bool
}.

(** The queue of ex_ide.c: addresses of the first and the last struct buffer,
    the count of finished transfers, and the sector and device of the command
    the drive was last given. *)
Record exide : Type := mkExide {
  idequeue : Z;
  idelast : Z;
  transfercount : Z;
  ide_cmd : option (Z * Z)
}.

Record kernel : Type := mkKernel {
  k_mem : kstate;
  k_fs : fstate;
  k_cons : console;
  k_procs : list proc;
  k_nextpid : Z;
  k_initproc : option nat;
  k_cur : option nat;            (* the process this CPU runs: proc *)
  k_files : list file;
  k_pipes : gmap Z pipe;
  k_ticks : Z;
  k_first : bool;                (* forkret has not run yet *)
  k_exo : bool;                  (* ExProcess of trap.c *)
  k_ide : exide;
  k_thr : thread
}.

#[export] Instance kernel_KState : KState kernel.
Proof.
  refine {| thr := k_thr;
            set_thr t s := mkKernel (k_mem s) (k_fs s) (k_cons s) (k_procs s) (k_nextpid s) (k_initproc s)
                             (k_cur s) (k_files s) (k_pipes s) (k_ticks s) (k_first s) (k_exo s) (k_ide s) t |};
    intros; try done. by destruct s.
Defined.

Definition set_kmem (v : kstate) (s : kernel) : kernel :=
  mkKernel v (k_fs s) (k_cons s) (k_procs s) (k_nextpid s) (k_initproc s) (k_cur s) (k_files s) (k_pipes s)
    (k_ticks s) (k_first s) (k_exo s) (k_ide s) (k_thr s).
Definition set_kfs (v : fstate) (s : kernel) : kernel :=
  mkKernel (k_mem s) v (k_cons s) (k_procs s) (k_nextpid s) (k_initproc s) (k_cur s) (k_files s) (k_pipes s)
    (k_ticks s) (k_first s) (k_exo s) (k_ide s) (k_thr s).
Definition set_kcons (v : console) (s : kernel) : kernel :=
  mkKernel (k_mem s) (k_fs s) v (k_procs s) (k_nextpid s) (k_initproc s) (k_cur s) (k_files s) (k_pipes s)
    (k_ticks s) (k_first s) (k_exo s) (k_ide s) (k_thr s).
Definition set_procs (v : list proc) (s : kernel) : kernel :=
  mkKernel (k_mem s) (k_fs s) (k_cons s) v (k_nextpid s) (k_initproc s) (k_cur s) (k_files s) (k_pipes s)
    (k_ticks s) (k_first s) (k_exo s) (k_ide s) (k_thr s).
Definition set_nextpid (v : Z) (s : kernel) : kernel :=
  mkKernel (k_mem s) (k_fs s) (k_cons s) (k_procs s) v (k_initproc s) (k_cur s) (k_files s) (k_pipes s)
    (k_ticks s) (k_first s) (k_exo s) (k_ide s) (k_thr s).
Definition set_initproc (v : option nat) (s : kernel) : kernel :=
  mkKernel (k_mem s) (k_fs s) (k_cons s) (k_procs s) (k_nextpid s) v (k_cur s) (k_files s) (k_pipes s)
    (k_ticks s) (k_first s) (k_exo s) (k_ide s) (k_thr s).
Definition set_cur (v : option nat) (s : kernel) : kernel :=
  mkKernel (k_mem s) (k_fs s) (k_cons s) (k_procs s) (k_nextpid s) (k_initproc s) v (k_files s) (k_pipes s)
    (k_ticks s) (k_first s) (k_exo s) (k_ide s) (k_thr s).
Definition set_files (v : list file) (s : kernel) : kernel :=
  mkKernel (k_mem s) (k_fs s) (k_cons s) (k_procs s) (k_nextpid s) (k_initproc s) (k_cur s) v (k_pipes s)
    (k_ticks s) (k_first s) (k_exo s) (k_ide s) (k_thr s).
Definition set_pipes (v : gmap Z pipe) (s : kernel) : kernel :=
  mkKernel (k_mem s) (k_fs s) (k_cons s) (k_procs s) (k_nextpid s) (k_initproc s) (k_cur s) (k_files s) v
    (k_ticks s) (k_first s) (k_exo s) (k_ide s) (k_thr s).
Definition set_ticks (v : Z) (s : kernel) : kernel :=
  mkKernel (k_mem s) (k_fs s) (k_cons s) (k_procs s) (k_nextpid s) (k_initproc s) (k_cur s) (k_files s) (k_pipes s)
    v (k_first s) (k_exo s) (k_ide s) (k_thr s).
Definition set_first (v : bool) (s : kernel) : kernel :=
  mkKernel (k_mem s) (k_fs s) (k_cons s) (k_procs s) (k_nextpid s) (k_initproc s) (k_cur s) (k_files s) (k_pipes s)
    (k_ticks s) v (k_exo s) (k_ide s) (k_thr s).
Definition set_exo (v : bool) (s : kernel) : kernel :=
  mkKernel (k_mem s) (k_fs s) (k_cons s) (k_procs s) (k_nextpid s) (k_initproc s) (k_cur s) (k_files s) (k_pipes s)
    (k_ticks s) (k_first s) v (k_ide s) (k_thr s).

Definition set_ide (v : exide) (s : kernel) : kernel :=
  mkKernel (k_mem s) (k_fs s) (k_cons s) (k_procs s) (k_nextpid s) (k_initproc s) (k_cur s) (k_files s) (k_pipes s)
    (k_ticks s) (k_first s) (k_exo s) v (k_thr s).

(** ** Processes *)

Definition with_state (v : procstate) (p : proc) : proc :=
  mkProc (p_sz p) (p_pgdir p) (p_kstack p) v (p_pid p) (p_parent p) (p_tf p) (p_context p) (p_chan p)
    (p_killed p) (p_ofile p) (p_cwd p) (p_name p) (p_type p).
Definition with_chan (v : option chan) (p : proc) : proc :=
  mkProc (p_sz p) (p_pgdir p) (p_kstack p) (p_state p) (p_pid p) (p_parent p) (p_tf p) (p_context p) v
    (p_killed p) (p_ofile p) (p_cwd p) (p_name p) (p_type p).
Definition with_killed (v : bool) (p : proc) : proc :=
  mkProc (p_sz p) (p_pgdir p) (p_kstack p) (p_state p) (p_pid p) (p_parent p) (p_tf p) (p_context p) (p_chan p)
    v (p_ofile p) (p_cwd p) (p_name p) (p_type p).
Definition with_pid (v : Z) (p : proc) : proc :=
  mkProc (p_sz p) (p_pgdir p) (p_kstack p) (p_state p) v (p_parent p) (p_tf p) (p_context p) (p_chan p)
    (p_killed p) (p_ofile p) (p_cwd p) (p_name p) (p_type p).
Definition with_parent (v : option nat) (p : proc) : proc :=
  mkProc (p_sz p) (p_pgdir p) (p_kstack p) (p_state p) (p_pid p) v (p_tf p) (p_context p) (p_chan p)
    (p_killed p) (p_ofile p) (p_cwd p) (p_name p) (p_type p).
Definition with_kstack (ks tf cx : Z) (p : proc) : proc :=
  mkProc (p_sz p) (p_pgdir p) ks (p_state p) (p_pid p) (p_parent p) tf cx (p_chan p)
    (p_killed p) (p_ofile p) (p_cwd p) (p_name p) (p_type p).
Definition with_vm (sz pgdir : Z) (p : proc) : proc :=
  mkProc sz pgdir (p_kstack p) (p_state p) (p_pid p) (p_parent p) (p_tf p) (p_context p) (p_chan p)
    (p_killed p) (p_ofile p) (p_cwd p) (p_name p) (p_type p).
Definition with_ofile (v : list (option nat)) (p : proc) : proc :=
  mkProc (p_sz p) (p_pgdir p) (p_kstack p) (p_state p) (p_pid p) (p_parent p) (p_tf p) (p_context p) (p_chan p)
    (p_killed p) v (p_cwd p) (p_name p) (p_type p).
Definition with_cwd (v : option nat) (p : proc) : proc :=
  mkProc (p_sz p) (p_pgdir p) (p_kstack p) (p_state p) (p_pid p) (p_parent p) (p_tf p) (p_context p) (p_chan p)
    (p_killed p) (p_ofile p) v (p_name p) (p_type p).
Definition with_name (v : list Z) (p : proc) : proc :=
  mkProc (p_sz p) (p_pgdir p) (p_kstack p) (p_state p) (p_pid p) (p_parent p) (p_tf p) (p_context p) (p_chan p)
    (p_killed p) (p_ofile p) (p_cwd p) v (p_type p).
Definition with_ptype (v : Z) (p : proc) : proc :=
  mkProc (p_sz p) (p_pgdir p) (p_kstack p) (p_state p) (p_pid p) (p_parent p) (p_tf p) (p_context p) (p_chan p)
    (p_killed p) (p_ofile p) (p_cwd p) (p_name p) v.
Definition with_tf (v : Z) (p : proc) : proc :=
  mkProc (p_sz p) (p_pgdir p) (p_kstack p) (p_state p) (p_pid p) (p_parent p) v (p_context p) (p_chan p)
    (p_killed p) (p_ofile p) (p_cwd p) (p_name p) (p_type p).

Definition get_proc (i : nat) : M kernel proc := fun s =>
  match k_procs s !! i with
  | Some p => Ok p s
  | None => Fault "process index"
  end.

Definition upd_proc (i : nat) (f : proc -> proc) : M kernel unit :=
  modify (fun s => set_procs (alter f i (k_procs s)) s).

(** The current process; following a null [proc] is a fault. *)
Definition cur : M kernel nat := fun s =>
  match k_cur s with
  | Some i => Ok i s
  | None => Fault "null proc"
  end.

Definition cur_proc : M kernel proc := do i <- cur; get_proc i.
Definition upd_cur (f : proc -> proc) : M kernel unit := do i <- cur; upd_proc i f.

(** wakeup1 on the table. *)
Definition wake_one (c : chan) (p : proc) : proc :=
  if bool_decide (p_state p = SLEEPING) && bool_decide (p_chan p = Some c) then with_state RUNNABLE p else p.

Definition wakeup1 (c : chan) : M kernel unit :=
  modify (fun s => set_procs (wake_one c <$> k_procs s) s).

Definition kwakeup (c : chan) : M kernel unit :=
  acquire LkPtable ;; wakeup1 c ;; release LkPtable.

(** sched, up to the switch to the scheduler: the checks.  On a CPU that holds
    one lock, pushcli has disabled interrupts, so the last check cannot fail
    and is not repeated here; the depth of pushcli is the number of locks. *)
Definition sched_checks : M kernel unit :=
  do s <- get;
  if negb (holding LkPtable s) then panic "sched ptable.lock"
  else if negb (length (held (k_thr s)) =? 1)%nat then panic "sched locks"
  else
    do p <- cur_proc;
    if bool_decide (p_state p = RUNNING) then panic "sched running" else ret tt.

(** The process is parked and the CPU is back in the scheduler, which gives up
    the table lock. *)
Definition park {A} (c : chan) : M kernel A := fun s => Sleeps c (set_cur None (set_held [] s)).

(** sleep: parks the current process on the channel.  The code after sched,
    which runs when the process is chosen again, is [sleep_resume]. *)
Definition ksleep {A} (c : chan) (l : lock) : M kernel A :=
  do s <- get;
  match k_cur s with
  | None => panic "sleep"
  | Some i =>
      (if decide (l = LkPtable) then ret tt else acquire LkPtable ;; release l) ;;
      upd_proc i (fun p => with_state SLEEPING (with_chan (Some c) p)) ;;
      sched_checks ;;
      park c
  end.

Definition sleep_resume (i : nat) (l : lock) : M kernel unit :=
  upd_proc i (with_chan None) ;;
  if decide (l = LkPtable) then ret tt else release LkPtable ;; acquire l.

(** ** Components inside the kernel *)

Section zoom.
Context {Sub : Type} `{!KState Sub} (getf : kernel -> Sub) (putf : Sub -> kernel -> kernel).

(** The component's state with the CPU's locks and no wakeup issued yet. *)
Definition enter (s : kernel) : Sub := set_thr (mkThread (held (k_thr s)) []) (getf s).

(** Back in the kernel: the wakeups act on the table, oldest first. *)
Definition leave (sub : Sub) (s : kernel) : kernel :=
  let s := putf sub (set_held (held (thr sub)) s) in
  set_procs (foldr (fun c ps => wake_one c <$> ps) (k_procs s) (wakes (thr sub))) s.

Definition zoom {A} (f : M Sub A) : M kernel A := fun s =>
  match f (enter s) with
  | Ok a sub => Ok a (leave sub s)
  | Panic msg => Panic msg
  | Fault why => Fault why
  | Sleeps c sub =>
      match k_cur s with
      | None => Panic "sleep"
      | Some i =>
          let s := leave sub s in
          Sleeps c (set_cur None (set_procs
            (alter (fun p => with_state SLEEPING (with_chan (Some c) p)) i (k_procs s)) s))
      end
  end.
End zoom.

Definition in_mem {A} (f : M kstate A) : M kernel A := zoom k_mem set_kmem f.
Definition in_fs {A} (f : M fstate A) : M kernel A := zoom k_fs set_kfs f.
Definition in_cons {A} (f : M console A) : M kernel A := zoom k_cons set_kcons f.

Definition kload32 (a : Z) : M kernel Z := gets (fun s => load32 (kmemory (k_mem s)) a).
Definition kstore32 (a v : Z) : M kernel unit := in_mem (wr32 a v).

(** ** User memory

    The kernel follows user pointers with the page table of the current
    process loaded: a byte is reached through the entry of its page, and a
    missing page is a page fault in the kernel. *)

Definition user_addr (m : mem) (pgdir va : Z) : option Z :=
  let pte := pte_at m pgdir va in
  if has pte PTE_P then Some (p2v (PTE_ADDR pte) + va mod 4096) else None.

Definition uload8 (va : Z) : M kernel Z :=
  do p <- cur_proc;
  fun s =>
    match user_addr (kmemory (k_mem s)) (p_pgdir p) (u32 va) with
    | Some a => Ok (load8 (kmemory (k_mem s)) a) s
    | None => Fault "page fault in the kernel"
    end.

Definition ustore8 (va v : Z) : M kernel unit :=
  do p <- cur_proc;
  fun s =>
    match user_addr (kmemory (k_mem s)) (p_pgdir p) (u32 va) with
    | Some a => Ok tt (set_kmem (set_mem (fun m => store8 m a v) (k_mem s)) s)
    | None => Fault "page fault in the kernel"
    end.

Fixpoint uload (va : Z) (n : nat) : M kernel (list Z) :=
  match n with
  | O => ret []
  | S n => do b <- uload8 va; do l <- uload (va + 1) n; ret (b :: l)
  end.

Fixpoint ustore (va : Z) (l : list Z) : M kernel unit :=
  match l with
  | [] => ret tt
  | b :: l => ustore8 va b ;; ustore (va + 1) l
  end.
