(* ===== verification/KernelSpec.v ===== *)
(** * Laws of the kernel state

    How the operations of [Kernel.v] act on the whole state: locks, wakeups,
    sleeping, the current process, and what a component's operation inside the
    kernel leaves alone. *)

From S2P Require Import Prelude Monad Locks Memory CString Mmu Kalloc Vm VmSpec FsState FsLayout Fs Dir Console Kernel.

Open Scope Z_scope.
Open Scope kernel_scope.

(** The states the operations below lead to. *)
Definition woken (c : chan) (s : kernel) : kernel := set_procs (wake_one c <$> k_procs s) s.

Definition parked (i : nat) (c : chan) (s : kernel) : kernel :=
  set_cur None (set_held [] (set_procs
    (alter (fun p => with_state SLEEPING (with_chan (Some c) p)) i (k_procs s)) s)).

(** The process [p] in slot [i] runs. *)
Definition runs (i : nat) (p : proc) (s : kernel) : Prop :=
  k_cur s = Some i /\ k_procs s !! i = Some p.

Lemma held_k (s : kernel) : held (thr s) = held (k_thr s).
Proof. done. Qed.

Lemma kset_held_same (s : kernel) hs : held (k_thr s) = hs -> set_held hs s = s.
Proof. intros <-. exact (set_held_id s). Qed.

(** [destruct_kernel s] exposes the fields, after which states are compared by
    computation. *)
Ltac destruct_kernel s :=
  let t := fresh "t" in
  destruct s as [? ? ? ? ? ? ? ? ? ? ? ? ? t]; destruct t as [? ?]; simpl in *; subst.

Lemma kwakeup_ok c (s : kernel) : LkPtable ∉ held (k_thr s) -> kwakeup c s = Ok tt (woken c s).
Proof.
  intros H. unfold kwakeup, bind. rewrite acquire_ok by done. simpl.
  erewrite release_top by reflexivity. f_equal. by destruct_kernel s.
Qed.

Lemma cur_ok i p s : runs i p s -> cur s = Ok i s.
Proof. intros [H _]. unfold cur. by rewrite H. Qed.

Lemma get_proc_ok i p s : k_procs s !! i = Some p -> get_proc i s = Ok p s.
Proof. intros H. unfold get_proc. by rewrite H. Qed.

Lemma cur_proc_ok i p s : runs i p s -> cur_proc s = Ok p s.
Proof.
  intros H. unfold cur_proc, bind. rewrite (cur_ok i p) by done. apply get_proc_ok, H.
Qed.

Lemma upd_cur_ok i p f s : runs i p s -> upd_cur f s = Ok tt (set_procs (alter f i (k_procs s)) s).
Proof. intros H. unfold upd_cur, bind. by rewrite (cur_ok i p). Qed.

(** sleep with exactly one other lock held. *)
Lemma ksleep_ok {A} c l i p s :
  runs i p s -> held (k_thr s) = [l] -> l <> LkPtable ->
  ksleep (A := A) c l s = Sleeps c (parked i c s).
Proof.
  intros [Hc Hp] Hh Hl. unfold ksleep, bind, get. cbn. rewrite Hc.
  rewrite decide_False by done. rewrite acquire_ok by (rewrite held_k, Hh; set_solver).
  unfold release, holding. rewrite held_set_held, bool_decide_true by (rewrite held_k, Hh; set_solver).
  rewrite !(held_k s), Hh. simpl. rewrite decide_False by congruence. rewrite decide_True by done.
  unfold upd_proc, modify, sched_checks, bind, get, cur_proc, cur, get_proc, holding. simpl.
  unfold bind. simpl. rewrite Hc. simpl. rewrite list_lookup_alter_eq, Hp. simpl.
  done.
Qed.

(** sleep on the process table's own lock. *)
Lemma ksleep_ptable {A} c i p s :
  runs i p s -> held (k_thr s) = [LkPtable] ->
  ksleep (A := A) c LkPtable s = Sleeps c (parked i c s).
Proof.
  intros [Hc Hp] Hh. unfold ksleep, bind, get. cbn. rewrite Hc.
  unfold upd_proc, modify, sched_checks, bind, get, cur_proc, cur, get_proc, holding. simpl.
  rewrite Hh. simpl. unfold bind. simpl. rewrite Hc. simpl. rewrite list_lookup_alter_eq, Hp. simpl.
  done.
Qed.

Lemma runs_woken i p c s :
  runs i p s -> p_state p <> SLEEPING -> runs i p (woken c s).
Proof.
  intros [Hc Hp] Hs. split; [done|]. simpl. rewrite list_lookup_fmap, Hp. simpl.
  unfold wake_one. by rewrite bool_decide_false.
Qed.

Lemma runs_wake i p c s : runs i p s -> runs i (wake_one c p) (woken c s).
Proof. intros [Hc Hp]. split; [done|]. simpl. by rewrite list_lookup_fmap, Hp. Qed.

(** ** What an operation of a component leaves alone

    An operation of a component changes its own part of the state; of the
    process table it can at most make sleeping processes runnable. *)

Definition roused (p p' : proc) : Prop :=
  p' = p \/ (p_state p = SLEEPING /\ p' = with_state RUNNABLE p).

Definition quiet (s s' : kernel) : Prop :=
  k_cur s' = k_cur s /\ k_files s' = k_files s /\ k_pipes s' = k_pipes s /\
  k_nextpid s' = k_nextpid s /\ k_initproc s' = k_initproc s /\
  Forall2 roused (k_procs s) (k_procs s').

Lemma roused_refl p : roused p p.
Proof. by left. Qed.

Lemma roused_trans p q r : roused p q -> roused q r -> roused p r.
Proof.
  intros [->|[Hp ->]] [->|[Hq ->]]; [by left|by right|by right|].
  by destruct p.
Qed.

#[export] Instance roused_preorder : PreOrder roused.
Proof. split; [exact roused_refl|exact roused_trans]. Qed.

#[export] Instance quiet_preorder : PreOrder quiet.
Proof.
  split.
  - intros s. repeat split. reflexivity.
  - intros s1 s2 s3 (? & ? & ? & ? & ? & H) (? & ? & ? & ? & ? & H'). repeat split; try congruence.
    by transitivity (k_procs s2).
Qed.

Lemma roused_wake c p : roused p (wake_one c p).
Proof.
  unfold wake_one. destruct (bool_decide_reflect (p_state p = SLEEPING)); [|by left].
  destruct (bool_decide (p_chan p = Some c)); [by right|by left].
Qed.

Lemma roused_wakes ws ps : Forall2 roused ps (foldr (fun c ps => wake_one c <$> ps) ps ws).
Proof.
  induction ws as [|c ws IH]; simpl; [reflexivity|].
  etransitivity; [exact IH|].
  apply Forall2_fmap_r, Forall_Forall2_diag, Forall_true, roused_wake.
Qed.

(** [quietly f]: when [f] returns, it was quiet. *)
Definition quietly {A} (f : M kernel A) : Prop := forall s a s', f s = Ok a s' -> quiet s s'.

Lemma quietly_ret {A} (a : A) : quietly (ret a).
Proof. by intros s b s' [= _ <-]. Qed.

Lemma quietly_panic {A} msg : quietly (panic (A := A) msg).
Proof. done. Qed.

Lemma quietly_fault {A} why : quietly (fault (A := A) why).
Proof. done. Qed.

Lemma quietly_get : quietly get.
Proof. by intros s b s' [= _ <-]. Qed.

Lemma quietly_gets {A} (f : kernel -> A) : quietly (gets f).
Proof. by intros s b s' [= _ <-]. Qed.

Lemma quietly_bind {A B} (m : M kernel A) (k : A -> M kernel B) :
  quietly m -> (forall a, quietly (k a)) -> quietly (bind m k).
Proof.
  intros Hm Hk s b s'. unfold bind. destruct (m s) as [a s1| | |] eqn:E; try done.
  intros E'. transitivity s1; [by eapply Hm|by eapply Hk].
Qed.

Lemma quietly_cur : quietly cur.
Proof. intros s i s'. unfold cur. destruct (k_cur s); [by intros [= _ <-]|done]. Qed.

Lemma quietly_get_proc i : quietly (get_proc i).
Proof. intros s p s'. unfold get_proc. destruct (k_procs s !! i); [by intros [= _ <-]|done]. Qed.

Lemma quietly_cur_proc : quietly cur_proc.
Proof. apply quietly_bind; [apply quietly_cur|apply quietly_get_proc]. Qed.

Lemma quietly_acquire l : quietly (acquire l).
Proof.
  intros s a s'. unfold acquire. destruct (holding l s); [done|]. intros [= _ <-].
  repeat split. reflexivity.
Qed.

Lemma quietly_release l : quietly (release l).
Proof.
  intros s a s'. unfold release. destruct (holding l s); [|done]. intros [= _ <-].
  repeat split. reflexivity.
Qed.

Lemma quietly_kwakeup c : quietly (kwakeup c).
Proof.
  apply quietly_bind; [apply quietly_acquire|]. intros _.
  apply quietly_bind; [|intros _; apply quietly_release]. intros s a s' [= _ <-].
  repeat split. apply Forall2_fmap_r, Forall_Forall2_diag, Forall_true, roused_wake.
Qed.

Lemma quietly_ksleep {A} c l : quietly (ksleep (A := A) c l).
Proof.
  intros s a s'. unfold ksleep, bind, get. destruct (k_cur s); [|done].
  destruct (decide (l = LkPtable)); simpl; [by destruct (sched_checks _)|].
  destruct (acquire LkPtable s) as [[] s1| | |]; try done. destruct (release l s1); try done.
  simpl. by destruct (sched_checks _).
Qed.

Section quietly_zoom.
Context {Sub : Type} `{!KState Sub} (getf : kernel -> Sub) (putf : Sub -> kernel -> kernel).

Lemma quietly_zoom {A} (f : M Sub A) :
  (forall sub s, quiet s (putf sub s) /\ k_procs (putf sub s) = k_procs s) -> quietly (zoom getf putf f).
Proof.
  intros Hput s a s'. unfold zoom. destruct (f (enter getf s)) as [b sub| | |]; try done.
  - intros [= _ <-]. unfold leave.
    destruct (Hput sub (set_held (held (thr sub)) s)) as [(Hc & Hf & Hp & Hn & Hi & _) Eq].
    split_and!; [exact Hc|exact Hf|exact Hp|exact Hn|exact Hi|].
    cbn [k_procs set_procs]. rewrite Eq. apply roused_wakes.
  - by destruct (k_cur s).
Qed.
End quietly_zoom.

Lemma quiet_same s s' :
  k_cur s' = k_cur s -> k_files s' = k_files s -> k_pipes s' = k_pipes s ->
  k_nextpid s' = k_nextpid s -> k_initproc s' = k_initproc s -> k_procs s' = k_procs s -> quiet s s'.
Proof.
  intros ? ? ? ? ? E. unfold quiet. rewrite E. by split_and!.
Qed.

Lemma quietly_in_mem {A} (f : M kstate A) : quietly (in_mem f).
Proof. apply quietly_zoom. intros sub s. split; [by apply quiet_same|done]. Qed.

Lemma quietly_in_fs {A} (f : M fstate A) : quietly (in_fs f).
Proof. apply quietly_zoom. intros sub s. split; [by apply quiet_same|done]. Qed.

Lemma quietly_in_cons {A} (f : M console A) : quietly (in_cons f).
Proof. apply quietly_zoom. intros sub s. split; [by apply quiet_same|done]. Qed.

Lemma quietly_uload8 va : quietly (uload8 va).
Proof.
  apply quietly_bind; [apply quietly_cur_proc|]. intros p s a s'.
  destruct (user_addr _ _ _); [by intros [= _ <-]|done].
Qed.

Lemma quietly_ustore8 va v : quietly (ustore8 va v).
Proof.
  apply quietly_bind; [apply quietly_cur_proc|]. intros p s a s'.
  destruct (user_addr _ _ _); [|done]. intros [= _ <-]. by apply quiet_same.
Qed.

Create HintDb quiet.
#[export] Hint Resolve quietly_ret quietly_panic quietly_fault quietly_get quietly_gets quietly_cur
  quietly_get_proc quietly_cur_proc quietly_acquire quietly_release quietly_kwakeup quietly_ksleep
  quietly_in_mem quietly_in_fs quietly_in_cons quietly_uload8 quietly_ustore8 : quiet.

(** [solve_quiet] follows the structure of a program. *)
Ltac quiet_step :=
  match goal with
  | |- quietly (bind _ _) => apply quietly_bind; [|intros ?]
  | |- quietly (match ?x with _ => _ end) => destruct x
  | |- quietly (fun _ => _) => fail 1
  | |- quietly _ => solve [auto with quiet]
  end.
Ltac solve_quiet := repeat quiet_step.

Lemma quietly_uload va n : quietly (uload va n).
Proof. revert va. induction n as [|n IH]; intros va; cbn [uload]; solve_quiet. Qed.

Lemma quietly_ustore va l : quietly (ustore va l).
Proof. revert va. induction l as [|b l IH]; intros va; cbn [ustore]; solve_quiet. Qed.

Lemma quietly_kload32 a : quietly (kload32 a).
Proof. apply quietly_gets. Qed.

Lemma quietly_kstore32 a v : quietly (kstore32 a v).
Proof. apply quietly_in_mem. Qed.

#[export] Hint Resolve quietly_uload quietly_ustore quietly_kload32 quietly_kstore32 : quiet.

(** A kernel for examples: zero memory, an empty disk, one process that runs
    in the first slot and a second, unused slot. *)
Module Blank.
Definition thread0 : thread := mkThread [] [].
Definition mem0 : kstate := mkK (fun _ => 0) true 0 0 thread0.
Definition fs0 : fstate := mkFs [] [] ∅ 40 [] (mkLog 10 30 0 false 1 0 []) [] thread0.
Definition cons0 : console := mkConsole (repeat 0 128) 0 0 0 true false 0 (repeat 0 2000) false [] thread0.
Definition proc0 : proc :=
  mkProc 4096 0 0 RUNNING 1 None 0 0 None false (repeat None 16) (Some 0%nat) (repeat 0 16) 0.
Definition unused0 : proc :=
  mkProc 0 0 0 UNUSED 0 None 0 0 None false (repeat None 16) None (repeat 0 16) 0.
Definition file0 : file := mkFile FD_NONE 0 false false 0 0 0.
Definition kernel0 : kernel :=
  mkKernel mem0 fs0 cons0 [proc0; unused0] 2 (Some 0%nat) (Some 0%nat) (repeat file0 4) ∅ 0 false false
    (mkExide 0 0 0 None) thread0.
End Blank.
