(* ===== verification/Pipe.v ===== *)
(** * pipe.c: pipes

    A pipe is a ring of 512 bytes between free-running counters.  The bytes a
    writer passes are taken from its memory before the call, the bytes a
    reader gets are the result of the call. *)

From S2P Require Import Prelude Monad Locks Memory CString Mmu Kalloc Vm Kernel.

Open Scope Z_scope.
Open Scope kernel_scope.

Definition PIPESIZE : Z := 512.

Definition get_pipe (p : Z) : M kernel pipe := fun s =>
  match k_pipes s !! p with
  | Some v => Ok v s
  | None => Fault "dangling pipe"
  end.

Definition put_pipe (p : Z) (v : pipe) : M kernel unit :=
  modify (fun s => set_pipes (<[p := v]> (k_pipes s)) s).

Section pipe.
Context (kend : Z).

Definition pipeclose (p : Z) (writable : bool) : M kernel unit :=
  acquire (LkPipe p) ;;
  do v <- get_pipe p;
  (if writable then
     put_pipe p (mkPipe (pp_data v) (pp_nread v) (pp_nwrite v) (pp_readopen v) false) ;;
     kwakeup (ChPipeRead p)
   else
     put_pipe p (mkPipe (pp_data v) (pp_nread v) (pp_nwrite v) false (pp_writeopen v)) ;;
     kwakeup (ChPipeWrite p)) ;;
  do v <- get_pipe p;
  if negb (pp_readopen v) && negb (pp_writeopen v) then
    release (LkPipe p) ;;
    modify (fun s => set_pipes (delete p (k_pipes s)) s) ;;
    in_mem (kfree kend p)
  else release (LkPipe p).

(** The loop of pipewrite over the bytes still to be written. *)
Fixpoint pipewrite_loop (p : Z) (bs : list Z) (n : Z) : M kernel Z :=
  match bs with
  | [] => kwakeup (ChPipeRead p) ;; release (LkPipe p) ;; ret n
  | b :: bs =>
      do v <- get_pipe p;
      if pp_nwrite v =? u32 (pp_nread v + PIPESIZE) then
        do me <- cur_proc;
        if negb (pp_readopen v) || p_killed me then release (LkPipe p) ;; ret (-1)
        else kwakeup (ChPipeRead p) ;; ksleep (ChPipeWrite p) (LkPipe p)
      else
        put_pipe p (mkPipe (<[cell PIPESIZE (pp_nwrite v) := u8 b]> (pp_data v)) (pp_nread v)
                           (u32 (pp_nwrite v + 1)) (pp_readopen v) (pp_writeopen v)) ;;
        pipewrite_loop p bs n
  end.

Definition pipewrite (p : Z) (bs : list Z) (n : Z) : M kernel Z :=
  acquire (LkPipe p) ;; pipewrite_loop p (take (Z.to_nat n) bs) n.

(** The copy loop of piperead: at most [n] bytes. *)
Fixpoint piperead_loop (p : Z) (n : nat) : M kernel (list Z) :=
  match n with
  | O => ret []
  | S n =>
      do v <- get_pipe p;
      if pp_nread v =? pp_nwrite v then ret []
      else
        put_pipe p (mkPipe (pp_data v) (u32 (pp_nread v + 1)) (pp_nwrite v) (pp_readopen v) (pp_writeopen v)) ;;
        do l <- piperead_loop p n;
        ret (nth (cell PIPESIZE (pp_nread v)) (pp_data v) 0 :: l)
  end.

Definition piperead (p n : Z) : M kernel (Z * list Z) :=
  acquire (LkPipe p) ;;
  do v <- get_pipe p;
  if (pp_nread v =? pp_nwrite v) && pp_writeopen v then
    do me <- cur_proc;
    if p_killed me then release (LkPipe p) ;; ret (-1, [])
    else ksleep (ChPipeRead p) (LkPipe p)
  else
    do l <- piperead_loop p (Z.to_nat n);
    kwakeup (ChPipeWrite p) ;;
    release (LkPipe p) ;;
    ret (Z.of_nat (length l), l).
End pipe.
