(* ===== verification/PipeSpec.v ===== *)
(** * Pipes are queues

    A pipe holds a queue of at most 512 bytes.  pipewrite appends and piperead
    takes from the front, for every value of the free-running counters; full
    and empty pipes put the caller to sleep, end the call with -1 or, for a
    reader whose writers are gone, with what is left. *)

From S2P Require Import Prelude Monad Locks Memory CString Mmu Kalloc Vm Console Kernel KernelSpec Pipe.

Open Scope Z_scope.
Open Scope kernel_scope.

(** [v] holds the queue [q]. *)
Definition pipe_rep (v : pipe) (q : list Z) : Prop :=
  length (pp_data v) = 512%nat /\ (length q <= 512)%nat /\
  pp_nwrite v = u32 (pp_nread v + Z.of_nat (length q)) /\ 0 <= pp_nread v < 4294967296 /\
  rslice PIPESIZE (pp_data v) (pp_nread v) (length q) = q.

Definition same_ends (v v' : pipe) : Prop :=
  pp_readopen v' = pp_readopen v /\ pp_writeopen v' = pp_writeopen v.

Definition with_pipe (p : Z) (v : pipe) (s : kernel) : kernel := set_pipes (<[p := v]> (k_pipes s)) s.

Lemma pipe_div : (PIPESIZE | 4294967296).
Proof. by exists 8388608. Qed.

Lemma pipe_rep_full v q : pipe_rep v q -> (pp_nwrite v =? u32 (pp_nread v + PIPESIZE)) = (length q =? 512)%nat.
Proof.
  intros (_ & Hq & -> & Hr & _). unfold PIPESIZE.
  destruct (Nat.eqb_spec (length q) 512) as [->|H]; [by rewrite Z.eqb_refl|].
  apply Z.eqb_neq. unfold u32. zlia.
Qed.

Lemma pipe_rep_empty v q : pipe_rep v q -> (pp_nread v =? pp_nwrite v) = (length q =? 0)%nat.
Proof.
  intros (_ & Hq & -> & Hr & _).
  destruct (Nat.eqb_spec (length q) 0) as [->|H].
  - rewrite Z.add_0_r, u32_small by done. apply Z.eqb_refl.
  - apply Z.eqb_neq. unfold u32. zlia.
Qed.

Definition pushed (v : pipe) (b : Z) : pipe :=
  mkPipe (<[cell PIPESIZE (pp_nwrite v) := u8 b]> (pp_data v)) (pp_nread v)
    (u32 (pp_nwrite v + 1)) (pp_readopen v) (pp_writeopen v).
Definition popped (v : pipe) : pipe :=
  mkPipe (pp_data v) (u32 (pp_nread v + 1)) (pp_nwrite v) (pp_readopen v) (pp_writeopen v).

Lemma pipe_rep_push v q b : pipe_rep v q -> (length q < 512)%nat -> pipe_rep (pushed v b) (q ++ [u8 b]).
Proof.
  intros (Hl & Hq & Hw & Hr & Hs) Hroom. unfold pipe_rep, pushed; simpl.
  rewrite length_insert, length_app. simpl. repeat split; [done|lia| |lia|lia|].
  - rewrite Hw. unfold u32. zlia.
  - rewrite Nat.add_1_r, Hw. rewrite (cell_u32 PIPESIZE).
    rewrite rslice_push by (try apply pipe_div; unfold PIPESIZE; lia). by rewrite Hs.
Qed.

Lemma pipe_rep_pop v b q :
  pipe_rep v (b :: q) -> pipe_rep (popped v) q /\ nth (cell PIPESIZE (pp_nread v)) (pp_data v) 0 = b.
Proof.
  intros (Hl & Hq & Hw & Hr & Hs). cbn [length] in Hs, Hq, Hw. rewrite rslice_cons in Hs.
  injection Hs as Hb Hs. split; [|done]. unfold pipe_rep, popped; simpl.
  repeat split; [done|lia| |apply u32_range|apply u32_range|done].
  rewrite Hw. unfold u32. zlia.
Qed.

Lemma get_pipe_ok p v s : k_pipes s !! p = Some v -> get_pipe p s = Ok v s.
Proof. intros H. unfold get_pipe. by rewrite H. Qed.

Lemma with_pipe_id p v s : k_pipes s !! p = Some v -> with_pipe p v s = s.
Proof. intros H. unfold with_pipe. rewrite insert_id by done. by destruct s. Qed.

Lemma with_pipe_twice p v v' s : with_pipe p v' (with_pipe p v s) = with_pipe p v' s.
Proof. unfold with_pipe. simpl. rewrite insert_insert_eq. by destruct s. Qed.

(** What a write of [bs] leads to, by what fits. *)
Definition write_outcome (p : Z) (i : nat) (me : proc) (v v' : pipe) (fits : bool) (n : Z) (s : kernel)
  : res kernel Z :=
  let s' := with_pipe p v' s in
  if fits then Ok n (woken (ChPipeRead p) (set_held [] s'))
  else if negb (pp_readopen v) || p_killed me then Ok (-1) (set_held [] s')
  else Sleeps (ChPipeWrite p) (parked i (ChPipeWrite p) (woken (ChPipeRead p) s')).

Lemma pipewrite_loop_run p i me n bs s v q :
  runs i me s -> held (k_thr s) = [LkPipe p] -> k_pipes s !! p = Some v -> pipe_rep v q ->
  exists v', pipe_rep v' (q ++ (u8 <$> take (512 - length q) bs)) /\ same_ends v v' /\
    pipewrite_loop p bs n s = write_outcome p i me v v' (length bs <=? 512 - length q)%nat n s.
Proof.
  revert s v q. induction bs as [|b bs IH]; intros s v q Hr Hh Hv Hq; cbn [pipewrite_loop].
  - exists v. rewrite take_nil. cbn [fmap list_fmap]. rewrite app_nil_r. split; [done|split; [done|]].
    unfold write_outcome, bind. rewrite kwakeup_ok by (rewrite Hh; set_solver).
    erewrite release_top by exact Hh. by rewrite with_pipe_id.
  - unfold bind at 1. rewrite (get_pipe_ok p v) by done. rewrite (pipe_rep_full v q) by done.
    destruct (Nat.eqb_spec (length q) 512) as [Hfull|Hfull].
    + exists v. rewrite Hfull. cbn [Nat.sub take fmap list_fmap]. rewrite app_nil_r. split; [done|split; [done|]].
      unfold write_outcome, bind at 1. rewrite (cur_proc_ok i me), with_pipe_id by done.
      destruct (negb (pp_readopen v) || p_killed me).
      * unfold bind. by erewrite release_top by exact Hh.
      * unfold bind. rewrite kwakeup_ok by (rewrite Hh; set_solver).
        by apply (ksleep_ok _ _ i _ _ (runs_wake _ _ _ _ Hr)).
    + assert (Hlt : (length q < 512)%nat) by (destruct Hq as (_ & ? & _); lia).
      destruct (IH (with_pipe p (pushed v b) s) (pushed v b) (q ++ [u8 b])) as (v' & Hv' & He & Hrun);
        [done|done|simpl; apply lookup_insert_eq|by apply pipe_rep_push|].
      exists v'. rewrite length_app in *. simpl in *.
      replace (512 - length q)%nat with (S (512 - (length q + 1))) by lia. cbn [take fmap list_fmap].
      rewrite <- app_assoc in Hv'. split; [done|]. split; [done|].
      unfold bind. unfold put_pipe, modify. change (set_pipes _ s) with (with_pipe p (pushed v b) s).
      rewrite Hrun. unfold write_outcome. rewrite with_pipe_twice. done.
Qed.

(** The outcome of a write that starts without locks. *)
Definition write_result (p : Z) (i : nat) (me : proc) (v v' : pipe) (fits : bool) (n : Z) (s : kernel)
  : res kernel Z :=
  let s' := with_pipe p v' s in
  if fits then Ok n (woken (ChPipeRead p) s')
  else if negb (pp_readopen v) || p_killed me then Ok (-1) s'
  else Sleeps (ChPipeWrite p) (parked i (ChPipeWrite p) (woken (ChPipeRead p) s')).

Lemma write_outcome_locked p i me v v' fits n s :
  held (k_thr s) = [] ->
  write_outcome p i me v v' fits n (set_held [LkPipe p] s) = write_result p i me v v' fits n s.
Proof.
  intros Hh. unfold write_outcome, write_result.
  destruct fits; [|destruct (negb (pp_readopen v) || p_killed me)]; f_equal; by destruct_kernel s.
Qed.

(** A write to a pipe puts the bytes behind those already there, in order
    and without loss: all of them when they fit, in which case it returns their
    number and wakes the readers.  Otherwise it fills the pipe, and then returns
    -1 if no reader is left or the process was killed, or wakes the readers and
    sleeps. *)
Lemma pipewrite_run p i me bs s v q :
  runs i me s -> held (k_thr s) = [] -> k_pipes s !! p = Some v -> pipe_rep v q ->
  exists v', pipe_rep v' (q ++ (u8 <$> take (512 - length q) bs)) /\ same_ends v v' /\
    pipewrite p bs (Z.of_nat (length bs)) s =
      write_result p i me v v' (length bs <=? 512 - length q)%nat (Z.of_nat (length bs)) s.
Proof.
  intros Hr Hh Hv Hq.
  destruct (pipewrite_loop_run p i me (Z.of_nat (length bs)) bs (set_held [LkPipe p] s) v q)
    as (v' & H1 & H2 & H3); [done|done|done|done|].
  exists v'. split; [done|]. split; [done|].
  unfold pipewrite. rewrite Nat2Z.id, firstn_all. unfold bind.
  rewrite acquire_ok, held_k, Hh by (rewrite held_k, Hh; set_solver).
  rewrite H3. by apply write_outcome_locked.
Qed.

(** ** Reading *)

Lemma piperead_loop_run p n s v q :
  k_pipes s !! p = Some v -> pipe_rep v q ->
  exists v', pipe_rep v' (drop n q) /\ same_ends v v' /\
    piperead_loop p n s = Ok (take n q) (with_pipe p v' s).
Proof.
  revert s v q. induction n as [|n IH]; intros s v q Hv Hq; cbn [piperead_loop].
  - exists v. by rewrite with_pipe_id.
  - unfold bind at 1. rewrite (get_pipe_ok p v), (pipe_rep_empty v q) by done.
    destruct q as [|b q]; cbn [length Nat.eqb take drop].
    + exists v. by rewrite with_pipe_id.
    + destruct (pipe_rep_pop v b q Hq) as [Hq' Hb].
      destruct (IH (with_pipe p (popped v) s) (popped v) q) as (v' & H1 & H2 & H3);
        [simpl; apply lookup_insert_eq|done|].
      exists v'. split; [done|]. split; [done|]. unfold bind, put_pipe, modify.
      change (set_pipes _ s) with (with_pipe p (popped v) s).
      by rewrite H3, with_pipe_twice, Hb.
Qed.

(** A read of a pipe takes bytes from the front, at most as many as asked
    for, and wakes the writers.  On an empty pipe it sleeps while a writer is
    left (or returns -1 when killed), and returns no bytes when none is. *)
Lemma piperead_run p i me n s v q :
  runs i me s -> held (k_thr s) = [] -> k_pipes s !! p = Some v -> pipe_rep v q ->
  if (length q =? 0)%nat && pp_writeopen v then
    piperead p (Z.of_nat n) s =
      if p_killed me then Ok (-1, []) s else Sleeps (ChPipeRead p) (parked i (ChPipeRead p) s)
  else exists v', pipe_rep v' (drop n q) /\ same_ends v v' /\
    piperead p (Z.of_nat n) s =
      Ok (Z.of_nat (length (take n q)), take n q) (woken (ChPipeWrite p) (with_pipe p v' s)).
Proof.
  intros Hr Hh Hv Hq. unfold piperead. erewrite (bind_Ok (acquire _)) by (apply acquire_ok; rewrite held_k, Hh; set_solver).
  erewrite bind_Ok by by apply (get_pipe_ok p v). rewrite (pipe_rep_empty v q), held_k, Hh by done.
  destruct ((length q =? 0)%nat && pp_writeopen v).
  - unfold bind at 1. rewrite (cur_proc_ok i me) by done. destruct (p_killed me).
    + unfold bind. erewrite release_top by reflexivity. rewrite set_held_set_held. by rewrite kset_held_same.
    + by erewrite (ksleep_ok _ _ i me).
  - destruct (piperead_loop_run p n (set_held [LkPipe p] s) v q) as (v' & H1 & H2 & H3); [done|done|].
    exists v'. split; [done|]. split; [done|]. unfold bind at 1. rewrite Nat2Z.id, H3.
    unfold bind. rewrite kwakeup_ok by set_solver. erewrite release_top by reflexivity.
    simpl. f_equal. by destruct_kernel s.
Qed.

(** ** The stream of bytes *)

Inductive pipe_op : Type :=
| WriteOp (bs : list Z)
| ReadOp (n : nat).

Fixpoint written (ops : list pipe_op) : list Z :=
  match ops with
  | [] => []
  | WriteOp bs :: ops => bs ++ written ops
  | ReadOp _ :: ops => written ops
  end.

(** The calls one after the other; the result is all that was read. *)
Fixpoint pipe_calls (p : Z) (ops : list pipe_op) : M kernel (list Z) :=
  match ops with
  | [] => ret []
  | WriteOp bs :: ops => pipewrite p bs (Z.of_nat (length bs)) ;; pipe_calls p ops
  | ReadOp n :: ops =>
      do ' (_, l) <- piperead p (Z.of_nat n);
      do l' <- pipe_calls p ops;
      ret (l ++ l')
  end.

(** The pipe at [p] holds [q] and both its ends are open. *)
Definition open_pipe (p : Z) (q : list Z) (s : kernel) : Prop :=
  exists v, k_pipes s !! p = Some v /\ pipe_rep v q /\ pp_readopen v = true /\ pp_writeopen v = true.

Lemma open_pipe_with p v' q s v :
  pipe_rep v' q -> same_ends v v' -> pp_readopen v = true -> pp_writeopen v = true ->
  open_pipe p q (with_pipe p v' s).
Proof.
  intros Hq [Hr Hw] Er Ew. exists v'. simpl. rewrite lookup_insert_eq. split; [done|].
  split; [done|]. by rewrite Hr, Hw.
Qed.

(** The call [op] made after the calls [before] on a pipe that held [q]
    sleeps on [c] and leaves [q']: a write has filled the pipe with the first
    bytes it was given, a read has found the pipe empty.  Nothing that was in
    the pipe or was written to it is missing from what was read and what is
    still there. *)
Definition sleeps_at (p : Z) (q : list Z) (before : list pipe_op) (out : list Z) (op : pipe_op) (c : chan)
    (q' : list Z) : Prop :=
  match op with
  | WriteOp bs => c = ChPipeWrite p /\ length q' = 512%nat /\
      exists k, (k < length bs)%nat /\ out ++ q' = q ++ (u8 <$> written before ++ take k bs)
  | ReadOp _ => c = ChPipeRead p /\ q' = [] /\ out = q ++ (u8 <$> written before)
  end.

(** One more call in front. *)
Lemma sleeps_at_write p q bs before out op c q' :
  sleeps_at p (q ++ (u8 <$> bs)) before out op c q' -> sleeps_at p q (WriteOp bs :: before) out op c q'.
Proof.
  unfold sleeps_at. cbn [written]. destruct op as [bs'|n].
  - intros (-> & Hl & k & Hk & E). split; [done|]. split; [done|]. exists k. split; [done|].
    rewrite E. rewrite <- (app_assoc bs), (fmap_app u8 bs), app_assoc. done.
  - intros (-> & -> & ->). by rewrite fmap_app, app_assoc.
Qed.

Lemma sleeps_at_read p q n before out op c q' :
  sleeps_at p (drop n q) before out op c q' ->
  sleeps_at p q (ReadOp n :: before) (take n q ++ out) op c q'.
Proof.
  unfold sleeps_at. cbn [written]. destruct op as [bs'|n'].
  - intros (-> & Hl & k & Hk & E). split; [done|]. split; [done|]. exists k. split; [done|].
    by rewrite <- app_assoc, E, app_assoc, take_drop.
  - intros (-> & -> & ->). by rewrite app_assoc, take_drop.
Qed.

(** C6: whatever calls of write and read are made on a pipe, the bytes that
    were read, followed by those still inside, are the bytes that were there
    followed by the bytes written, in order.  A call blocks only on a full pipe
    (a write) or an empty one (a read), and none panics.  When one blocks, the
    calls before it have returned, and what they read followed by what is
    inside is what was there, followed by what they wrote and by the first
    bytes of the blocked write: nothing is lost or overwritten. *)
Theorem pipe_stream p i me ops s q :
  runs i me s -> p_state me = RUNNING -> p_killed me = false -> held (k_thr s) = [] -> open_pipe p q s ->
  match pipe_calls p ops s with
  | Ok out s' => exists q', open_pipe p q' s' /\ out ++ q' = q ++ (u8 <$> written ops)
  | Sleeps c s' => exists before op after out s1 q', ops = before ++ op :: after /\
      pipe_calls p before s = Ok out s1 /\ open_pipe p q' s' /\ sleeps_at p q before out op c q'
  | Panic _ => False
  | Fault _ => False
  end.
Proof.
  intros Hr Hst Hk. revert s q Hr. induction ops as [|[bs|n] ops IH]; intros s q Hr Hh (v & Hv & Hq & Er & Ew);
    cbn [pipe_calls written].
  - exists q. split; [by exists v|]. simpl. by rewrite app_nil_r.
  - destruct (pipewrite_run p i me bs s v q) as (v' & H1 & H2 & H3); [done..|].
    unfold bind. rewrite H3. unfold write_result. rewrite Er, Hk. simpl negb. cbn [orb].
    destruct (Nat.leb_spec (length bs) (512 - length q)) as [Hfit|Hfit].
    + rewrite take_ge in H1 by done. rewrite fmap_app, (app_assoc q).
      set (s1 := woken _ _).
      specialize (IH s1 (q ++ (u8 <$> bs)) ltac:(apply runs_woken; [done|congruence]) Hh
                    ltac:(by eapply open_pipe_with)).
      assert (Hrun : forall before out s', pipe_calls p before s1 = Ok out s' ->
                pipe_calls p (WriteOp bs :: before) s = Ok out s').
      { intros before out s' E. cbn [pipe_calls]. unfold bind. rewrite H3. unfold write_result.
        exact E. }
      destruct (pipe_calls p ops s1) as [out s'|msg|c s'|why]; [done|done| |done].
      destruct IH as (before & op & after & out & s2 & q' & -> & E & Ho & Hs).
      exists (WriteOp bs :: before), op, after, out, s2, q'. auto using sleeps_at_write.
    + exists [], (WriteOp bs), ops, [], s. eexists. split; [done|]. split; [done|].
      split; [by eapply open_pipe_with|]. split; [done|]. split; [|by exists (512 - length q)%nat].
      rewrite length_app, length_fmap, length_take. destruct Hq as (_ & ? & _). lia.
  - pose proof (piperead_run p i me n s v q Hr Hh Hv Hq) as H. rewrite Ew, Hk, andb_true_r in H.
    unfold bind at 1. destruct (Nat.eqb_spec (length q) 0) as [Hz|Hz].
    + rewrite H. apply nil_length_inv in Hz as ->. exists [], (ReadOp n), ops, [], s, [].
      split; [done|]. split; [done|]. split; [|done]. by exists v.
    + destruct H as (v' & H1 & H2 & H3). rewrite H3. unfold bind at 1.
      assert (Hs' : open_pipe p (drop n q) (with_pipe p v' s)) by (by eapply open_pipe_with).
      specialize (IH _ (drop n q) (runs_woken _ _ (ChPipeWrite p) (with_pipe p v' s) Hr ltac:(congruence)) Hh Hs').
      destruct (pipe_calls p ops _) as [out s'|msg|c s'|why]; [|done| |done].
      * destruct IH as (q' & Hq' & E). exists q'. split; [done|].
        by rewrite <- app_assoc, E, app_assoc, take_drop.
      * destruct IH as (before & op & after & out & s2 & q' & -> & E & Ho & Hs).
        exists (ReadOp n :: before), op, after, (take n q ++ out), s2, q'.
        split; [done|]. split; [|split; [done|by apply sleeps_at_read]].
        cbn [pipe_calls]. unfold bind at 1. rewrite H3. unfold bind. by rewrite E.
Qed.

Module PipeDemo.
Import Blank.

(** A pipe whose counters are about to wrap around, with two bytes in it. *)
Definition pipe0 : pipe :=
  mkPipe (<[510%nat := 1]> (<[511%nat := 2]> (repeat 0 512))) 4294967294 0 true true.
Definition s0 : kernel := set_pipes {[ 7 := pipe0 ]} kernel0.

Lemma pipe0_rep : pipe_rep pipe0 [1; 2].
Proof. repeat split; vm_compute; try done; lia. Qed.

(** Two bytes are read; of the 600 then written 512 go in. *)
Definition long_ops : list pipe_op := [ReadOp 2; WriteOp (repeat 9 600)].

Definition parks (r : res kernel (list Z)) : bool := match r with Sleeps _ _ => true | _ => false end.

Lemma pipe_stream_witness :
  (exists q', open_pipe 7 q' (woken (ChPipeWrite 7) (with_pipe 7
               (mkPipe (<[0%nat := 3]> (<[1%nat := 4]> (pp_data pipe0))) 1 2 true true) s0)) /\
    [1; 2; 3] ++ q' = [1; 2] ++ (u8 <$> written [WriteOp [3; 260]; ReadOp 3])) /\
  (exists c s' before op after out s1 q', pipe_calls 7 long_ops s0 = Sleeps c s' /\
    long_ops = before ++ op :: after /\ pipe_calls 7 before s0 = Ok out s1 /\ open_pipe 7 q' s' /\
    sleeps_at 7 [1; 2] before out op c q').
Proof.
  assert (Ho : open_pipe 7 [1; 2] s0) by (exists pipe0; split; [done|]; split; [apply pipe0_rep|done]).
  assert (Hr : runs 0 proc0 s0) by done.
  split.
  - exact (pipe_stream 7 0 proc0 [WriteOp [3; 260]; ReadOp 3] s0 [1; 2] Hr eq_refl eq_refl eq_refl Ho).
  - pose proof (pipe_stream 7 0 proc0 long_ops s0 [1; 2] Hr eq_refl eq_refl eq_refl Ho) as H.
    assert (E : parks (pipe_calls 7 long_ops s0) = true) by (vm_compute; reflexivity).
    destruct (pipe_calls 7 long_ops s0) as [| |c s'|]; try discriminate E.
    exists c, s'. destruct H as (before & op & after & out & s1 & q' & H).
    exists before, op, after, out, s1, q'. auto.
Defined.
End PipeDemo.
