(* ===== verification/File.v ===== *)
(** * file.c and pipealloc: open files

    The file table is shared by all processes; an entry is in use while its
    reference count is positive.  Device files go to the console, the only
    driver registered in [devsw]. *)

From S2P Require Import Prelude Monad Locks Memory CString Mmu Kalloc Vm FsState FsLayout Log Fs Dir Console Kernel Pipe.

Open Scope Z_scope.
Open Scope kernel_scope.

Definition CONSOLE : Z := 1.

(** The device table as the file system sees it: no driver inside it. *)
Definition nodev (_ : Z) : devsw := mkDevsw None None.

Definition with_fref (v : Z) (f : file) : file :=
  mkFile (f_type f) v (f_readable f) (f_writable f) (f_pipe f) (f_ip f) (f_off f).
Definition with_foff (v : Z) (f : file) : file :=
  mkFile (f_type f) (f_ref f) (f_readable f) (f_writable f) (f_pipe f) (f_ip f) v.
Definition with_ftype (v : ftype) (f : file) : file :=
  mkFile v (f_ref f) (f_readable f) (f_writable f) (f_pipe f) (f_ip f) (f_off f).

Definition get_file (i : nat) : M kernel file := fun s =>
  match k_files s !! i with
  | Some f => Ok f s
  | None => Fault "file index"
  end.

Definition upd_file (i : nat) (g : file -> file) : M kernel unit :=
  modify (fun s => set_files (alter g i (k_files s)) s).

Definition fileinit : M kernel unit := initlock LkFtable.

Definition filealloc : M kernel (option nat) :=
  acquire LkFtable ;;
  do s <- get;
  match list_find (fun f => f_ref f = 0) (k_files s) with
  | Some (i, _) => upd_file i (with_fref 1) ;; release LkFtable ;; ret (Some i)
  | None => release LkFtable ;; ret None
  end.

Definition filedup (i : nat) : M kernel nat :=
  acquire LkFtable ;;
  do f <- get_file i;
  if f_ref f <? 1 then panic "filedup"
  else upd_file i (with_fref (f_ref f + 1)) ;; release LkFtable ;; ret i.

Section file.
Context (kend : Z).

Definition fileclose (i : nat) : M kernel unit :=
  acquire LkFtable ;;
  do f <- get_file i;
  if f_ref f <? 1 then panic "fileclose"
  else if 0 <? f_ref f - 1 then upd_file i (with_fref (f_ref f - 1)) ;; release LkFtable
  else
    upd_file i (fun f => with_ftype FD_NONE (with_fref 0 f)) ;;
    release LkFtable ;;
    match f_type f with
    | FD_PIPE => pipeclose kend (f_pipe f) (f_writable f)
    | FD_INODE => in_fs begin_op ;; in_fs (iput (f_ip f)) ;; in_fs end_op
    | FD_NONE => ret tt
    end.

Definition filestat (i : nat) : M kernel (option stat) :=
  do f <- get_file i;
  match f_type f with
  | FD_INODE =>
      in_fs (ilock (Some (f_ip f))) ;;
      do st <- in_fs (stati (f_ip f));
      in_fs (iunlock (Some (f_ip f))) ;;
      ret (Some st)
  | _ => ret None
  end.

(** readi and writei with the console behind its device number; both give up
    the inode while they wait for the console. *)
Definition kreadi (ip : nat) (off n : Z) : M kernel (Z * list Z) :=
  do p <- in_fs (get_inode ip);
  if (i_type p =? T_DEV) && (i_major p =? CONSOLE) then
    in_fs (iunlock (Some ip)) ;;
    do me <- cur_proc;
    do r <- in_cons (consoleread (p_killed me) n);
    in_fs (ilock (Some ip)) ;;
    ret r
  else in_fs (readi nodev ip off n).

Definition kwritei (ip : nat) (src : list Z) (off n : Z) : M kernel Z :=
  do p <- in_fs (get_inode ip);
  if (i_type p =? T_DEV) && (i_major p =? CONSOLE) then
    in_fs (iunlock (Some ip)) ;;
    do r <- in_cons (consolewrite src n);
    in_fs (ilock (Some ip)) ;;
    ret r
  else in_fs (writei nodev ip src off n).

Definition fileread (i : nat) (n : Z) : M kernel (Z * list Z) :=
  do f <- get_file i;
  if negb (f_readable f) then ret (-1, [])
  else match f_type f with
       | FD_PIPE => piperead (f_pipe f) n
       | FD_INODE =>
           in_fs (ilock (Some (f_ip f))) ;;
           do ' (r, l) <- kreadi (f_ip f) (f_off f) (u32 n);
           (if 0 <? r then upd_file i (with_foff (u32 (f_off f + r))) else ret tt) ;;
           in_fs (iunlock (Some (f_ip f))) ;;
           ret (r, l)
       | FD_NONE => panic "fileread"
       end.

(** The most a single transaction of filewrite carries. *)
Definition FILEWRITE_MAX : Z := ((LOGSIZE - 1 - 1 - 2) / 2) * 512.

(** The loop of filewrite: [src] are the bytes from position [i] on. *)
Fixpoint filewrite_loop (fd : nat) (src : list Z) (i n : Z) (fuel : nat) : M kernel Z :=
  match fuel with
  | O => fault "filewrite: loop bound"
  | S fuel =>
      if i <? n then
        let n1 := if FILEWRITE_MAX <? n - i then FILEWRITE_MAX else n - i in
        in_fs begin_op ;;
        do f <- get_file fd;
        in_fs (ilock (Some (f_ip f))) ;;
        do r <- kwritei (f_ip f) (take (Z.to_nat n1) src) (f_off f) n1;
        (if 0 <? r then upd_file fd (with_foff (u32 (f_off f + r))) else ret tt) ;;
        in_fs (iunlock (Some (f_ip f))) ;;
        in_fs end_op ;;
        if r <? 0 then ret (-1)
        else if negb (r =? n1) then panic "short filewrite"
        else filewrite_loop fd (drop (Z.to_nat r) src) (i + r) n fuel
      else ret (if i =? n then n else -1)
  end.

Definition filewrite (i : nat) (src : list Z) (n : Z) : M kernel Z :=
  do f <- get_file i;
  if negb (f_writable f) then ret (-1)
  else match f_type f with
       | FD_PIPE => pipewrite (f_pipe f) src n
       | FD_INODE => filewrite_loop i src 0 n (S (Z.to_nat (n / FILEWRITE_MAX + 1)))
       | FD_NONE => panic "filewrite"
       end.

(** pipealloc: two files and a page; what was taken is given back when
    something is missing.  The data bytes of a fresh pipe are whatever the page
    holds; they are not read before they are written, and are zeros here. *)
Definition pipealloc : M kernel (option (nat * nat)) :=
  do f0 <- filealloc;
  match f0 with
  | None => ret None
  | Some f0 =>
      do f1 <- filealloc;
      match f1 with
      | None => fileclose f0 ;; ret None
      | Some f1 =>
          do p <- in_mem kalloc;
          if p =? 0 then fileclose f0 ;; fileclose f1 ;; ret None
          else
            put_pipe p (mkPipe (repeat 0 512) 0 0 true true) ;;
            initlock (LkPipe p) ;;
            upd_file f0 (fun f => mkFile FD_PIPE (f_ref f) true false p (f_ip f) (f_off f)) ;;
            upd_file f1 (fun f => mkFile FD_PIPE (f_ref f) false true p (f_ip f) (f_off f)) ;;
            ret (Some (f0, f1))
      end
  end.
End file.
