(* ===== verification/Proc.v ===== *)
(** * proc.c: processes

    [kend] and [kdata] are the linker symbols the memory code uses, [trapret]
    and [forkret] the addresses of the two routines a new process starts in.
    Loading the page table and the task state (switchuvm, switchkvm) is in Seg
    and the saving of registers in swtch is in Asm; here the state of a process
    is its entry in the table.  exit and a process that sleeps end in the
    scheduler. *)

From S2P Require Import Prelude Monad Spinlock Locks Memory CString Mmu Kalloc Vm FsState FsLayout Log Fs Dir Printf Console Kernel Pipe File.

Open Scope Z_scope.
Open Scope kernel_scope.

(** struct trapframe and struct context: sizes and offsets of the fields. *)
Definition SIZEOF_TF : Z := 76.
Definition TF_EAX : Z := 28.
Definition TF_ES : Z := 40.
Definition TF_DS : Z := 44.
Definition TF_TRAPNO : Z := 48.
Definition TF_ERR : Z := 52.
Definition TF_EIP : Z := 56.
Definition TF_CS : Z := 60.
Definition TF_EFLAGS : Z := 64.
Definition TF_ESP : Z := 68.
Definition TF_SS : Z := 72.
Definition SIZEOF_CONTEXT : Z := 20.
Definition CX_EBP : Z := 12.
Definition CX_EIP : Z := 16.
Definition USER_CS : Z := 35.        (* (SEG_UCODE << 3) | DPL_USER *)
Definition USER_DS : Z := 43.        (* (SEG_UDATA << 3) | DPL_USER *)
Definition FL_IF : Z := 512.

Definition kmemset (dst c n : Z) : M kernel unit := in_mem (memset_k dst c n).
Definition kmemmove (dst src n : Z) : M kernel unit := in_mem (memmove_k dst src n).

Definition pinit : M kernel unit := initlock LkPtable.

(** [safestrcpy(p->name, l, sizeof(p->name))] *)
Definition proc_name (l : list Z) (p : proc) : proc := with_name (arr_safestrcpy 15 (p_name p) l) p.

Section proc.
Context (kend kdata trapret forkret : Z).

Definition find_unused (ps : list proc) : option nat :=
  option_map fst (list_find (fun p => p_state p = UNUSED) ps).

Definition allocproc : M kernel (option nat) :=
  acquire LkPtable ;;
  do s <- get;
  match find_unused (k_procs s) with
  | None => release LkPtable ;; ret None
  | Some i =>
      upd_proc i (fun p => with_pid (k_nextpid s) (with_state EMBRYO p)) ;;
      modify (set_nextpid (s32 (k_nextpid s + 1))) ;;
      release LkPtable ;;
      do ks <- in_mem kalloc;
      if ks =? 0 then
        upd_proc i (fun p => with_state UNUSED (with_kstack 0 (p_tf p) (p_context p) p)) ;; ret None
      else
        let tf := ks + KSTACKSIZE - SIZEOF_TF in
        let sp := tf - 4 in
        let cx := sp - SIZEOF_CONTEXT in
        kstore32 sp trapret ;;
        upd_proc i (with_kstack ks tf cx) ;;
        kmemset cx 0 SIZEOF_CONTEXT ;;
        kstore32 (cx + CX_EIP) forkret ;;
        ret (Some i)
  end.

(** userinit: the first process; [initcode] and [initsz] are the linked-in
    program.  allocproc cannot fail here, its result is not tested. *)
Definition userinit (initcode initsz : Z) : M kernel unit :=
  do r <- allocproc;
  modify (set_initproc r) ;;
  match r with
  | None => fault "null proc"
  | Some i =>
      do pgdir <- in_mem (setupkvm kdata);
      upd_proc i (fun p => with_vm (p_sz p) pgdir p) ;;
      if pgdir =? 0 then panic "userinit: out of memory?"
      else
        in_mem (inituvm pgdir initcode initsz) ;;
        upd_proc i (fun p => with_vm PGSIZE pgdir p) ;;
        do p <- get_proc i;
        kmemset (p_tf p) 0 SIZEOF_TF ;;
        kstore32 (p_tf p + TF_CS) USER_CS ;;
        kstore32 (p_tf p + TF_DS) USER_DS ;;
        kstore32 (p_tf p + TF_ES) USER_DS ;;
        kstore32 (p_tf p + TF_SS) USER_DS ;;
        kstore32 (p_tf p + TF_EFLAGS) FL_IF ;;
        kstore32 (p_tf p + TF_ESP) PGSIZE ;;
        kstore32 (p_tf p + TF_EIP) 0 ;;
        upd_proc i (proc_name [105; 110; 105; 116; 99; 111; 100; 101]) ;;
        do root <- in_fs (namei nodev 0 [slash]);
        upd_proc i (with_cwd root) ;;
        upd_proc i (with_state RUNNABLE)
  end.

Definition growproc (n : Z) : M kernel Z :=
  do me <- cur_proc;
  let sz := p_sz me in
  do r <- (if 0 <? n then in_mem (allocuvm kend (p_pgdir me) sz (u32 (sz + n)))
           else if n <? 0 then in_mem (deallocuvm kend (p_pgdir me) sz (u32 (sz + n)))
           else ret sz);
  if negb (n =? 0) && (r =? 0) then ret (-1)
  else upd_cur (fun p => with_vm r (p_pgdir p) p) ;; ret 0.

(** The descriptors of the parent, duplicated one by one. *)
Fixpoint dup_files (np : nat) (k : nat) (fs : list (option nat)) : M kernel unit :=
  match fs with
  | [] => ret tt
  | None :: fs => dup_files np (S k) fs
  | Some f :: fs =>
      filedup f ;;
      upd_proc np (fun p => with_ofile (<[k := Some f]> (p_ofile p)) p) ;;
      dup_files np (S k) fs
  end.

Definition fork : M kernel Z :=
  do r <- allocproc;
  match r with
  | None => ret (-1)
  | Some np =>
      do me <- cur;
      do p <- get_proc me;
      do pgdir <- in_mem (copyuvm kend kdata (p_pgdir p) (p_sz p));
      upd_proc np (fun q => with_vm (p_sz q) pgdir q) ;;
      if pgdir =? 0 then
        do q <- get_proc np;
        in_mem (kfree kend (p_kstack q)) ;;
        upd_proc np (fun q => with_state UNUSED (with_kstack 0 (p_tf q) (p_context q) q)) ;;
        ret (-1)
      else
        upd_proc np (fun q => with_parent (Some me) (with_vm (p_sz p) pgdir q)) ;;
        do q <- get_proc np;
        kmemmove (p_tf q) (p_tf p) SIZEOF_TF ;;
        kstore32 (p_tf q + TF_EAX) 0 ;;
        dup_files np 0 (p_ofile p) ;;
        match p_cwd p with
        | None => fault "null cwd"
        | Some d =>
            in_fs (idup d) ;;
            upd_proc np (with_cwd (Some d)) ;;
            upd_proc np (proc_name (p_name p)) ;;
            acquire LkPtable ;;
            upd_proc np (with_state RUNNABLE) ;;
            release LkPtable ;;
            ret (p_pid q)
        end
  end.

(** exit closes the descriptors one by one. *)
Fixpoint close_files (k : nat) (fs : list (option nat)) : M kernel unit :=
  match fs with
  | [] => ret tt
  | None :: fs => close_files (S k) fs
  | Some f :: fs =>
      fileclose kend f ;;
      upd_cur (fun p => with_ofile (<[k := None]> (p_ofile p)) p) ;;
      close_files (S k) fs
  end.

(** The children of [me] go to init, which is woken for a zombie. *)
Fixpoint reparent (me init : nat) (i : nat) (count : nat) : M kernel unit :=
  match count with
  | O => ret tt
  | S count =>
      (do p <- get_proc i;
       if bool_decide (p_parent p = Some me) then
         upd_proc i (with_parent (Some init)) ;;
         if bool_decide (p_state p = ZOMBIE) then wakeup1 (ChProc init) else ret tt
       else ret tt) ;;
      reparent me init (S i) count
  end.

(** exit up to its switch to the scheduler: the table part, with the lock. *)
Definition exit_table (me init : nat) : M kernel unit :=
  acquire LkPtable ;;
  do p <- get_proc me;
  (match p_parent p with Some pa => wakeup1 (ChProc pa) | None => ret tt end) ;;
  do s <- get;
  reparent me init 0 (length (k_procs s)) ;;
  upd_proc me (with_state ZOMBIE) ;;
  sched_checks.

(** exit does not return: the process is a zombie, its CPU in the scheduler. *)
Definition exit_proc : M kernel unit :=
  do s <- get;
  match k_cur s, k_initproc s with
  | Some me, Some init =>
      if (me =? init)%nat then panic "init exiting"
      else
        do p <- get_proc me;
        close_files 0 (p_ofile p) ;;
        in_fs begin_op ;;
        (match p_cwd p with Some d => in_fs (iput d) | None => fault "null cwd" end) ;;
        in_fs end_op ;;
        upd_cur (with_cwd None) ;;
        exit_table me init ;;
        modify (fun s => set_cur None (set_held [] s))
  | _, _ => fault "null proc"
  end.

(** wait: the first zombie child, and whether there are children. *)
Definition find_zombie (me : nat) (ps : list proc) : option nat :=
  option_map fst (list_find (fun p => p_parent p = Some me /\ p_state p = ZOMBIE) ps).

Definition have_kids (me : nat) (ps : list proc) : bool :=
  existsb (fun p => bool_decide (p_parent p = Some me)) ps.

Definition wait_child : M kernel Z :=
  acquire LkPtable ;;
  do me <- cur;
  do s <- get;
  match find_zombie me (k_procs s) with
  | Some i =>
      do p <- get_proc i;
      in_mem (kfree kend (p_kstack p)) ;;
      upd_proc i (with_kstack 0 (p_tf p) (p_context p)) ;;
      in_mem (freevm kend (p_pgdir p)) ;;
      upd_proc i (fun q => with_killed false (with_name (0 :: tl (p_name q))
                             (with_parent None (with_pid 0 (with_state UNUSED q))))) ;;
      release LkPtable ;;
      ret (p_pid p)
  | None =>
      do p <- cur_proc;
      if negb (have_kids me (k_procs s)) || p_killed p then release LkPtable ;; ret (-1)
      else ksleep (ChProc me) LkPtable
  end.

(** ** Scheduling *)

(** One turn of the scheduler's loop over the table, from [i] on: the first
    runnable process is made current.  The CPU holds the table lock. *)
Fixpoint pick (ps : list proc) (i : nat) (count : nat) : option nat :=
  match count with
  | O => None
  | S count =>
      match ps !! i with
      | Some p => if bool_decide (p_state p = RUNNABLE) then Some i else pick ps (S i) count
      | None => None
      end
  end.

Definition dispatch (i : nat) : M kernel unit :=
  modify (set_cur (Some i)) ;;
  upd_proc i (with_state RUNNING).

(** scheduler, entered at slot [i] of a sweep: takes the lock at the start of a
    sweep and gives it up at the end. *)
Definition scheduler_step (i : nat) : M kernel (option nat) :=
  (if (i =? 0)%nat then acquire LkPtable else ret tt) ;;
  do s <- get;
  match pick (k_procs s) i (length (k_procs s) - i) with
  | Some j => dispatch j ;; ret (Some j)
  | None => release LkPtable ;; ret None
  end.

(** yield up to the switch. *)
Definition yield : M kernel unit :=
  acquire LkPtable ;;
  upd_cur (with_state RUNNABLE) ;;
  sched_checks.

Definition forkret_run : M kernel unit :=
  release LkPtable ;;
  do s <- get;
  if k_first s then modify (set_first false) ;; in_fs initlog else ret tt.

Definition kill (pid : Z) : M kernel Z :=
  acquire LkPtable ;;
  do s <- get;
  match list_find (fun p => p_pid p = pid) (k_procs s) with
  | Some (i, _) =>
      upd_proc i (with_killed true) ;;
      do p <- get_proc i;
      (if bool_decide (p_state p = SLEEPING) then upd_proc i (with_state RUNNABLE) else ret tt) ;;
      release LkPtable ;;
      ret 0
  | None => release LkPtable ;; ret (-1)
  end.

End proc.

(** procdump prints one line per process.  The two strings cprintf reads are
    laid out in a scratch memory: the state at 16, the name at 64. *)
Definition state_text (st : procstate) : list Z :=
  match st with
  | UNUSED => [117; 110; 117; 115; 101; 100]
  | EMBRYO => [101; 109; 98; 114; 121; 111]
  | SLEEPING => [115; 108; 101; 101; 112; 32]
  | RUNNABLE => [114; 117; 110; 98; 108; 101]
  | RUNNING => [114; 117; 110; 32; 32; 32]
  | ZOMBIE => [122; 111; 109; 98; 105; 101]
  end.

(** "%d %s %s" *)
Definition dump_fmt : list Z := [37; 100; 32; 37; 115; 32; 37; 115].

Fixpoint print_chain (pcs : list Z) : M console unit :=
  match pcs with
  | [] => ret tt
  | pc :: pcs =>
      if pc =? 0 then ret tt
      else cprintf (fun _ => 0) (Some pc_fmt) (fun _ => pc) 1 ;; print_chain pcs
  end.

(** The line of a process; [km] is the memory with its saved context. *)
Definition dump_proc (km : mem) (p : proc) : M console unit :=
  if bool_decide (p_state p = UNUSED) then ret tt
  else
    let m := store_bytes (store_bytes (fun _ => 0) 16 (state_text (p_state p))) 64 (p_name p) in
    cprintf m (Some dump_fmt) (fun k => nth k [p_pid p; 16; 64] 0) 64 ;;
    (if bool_decide (p_state p = SLEEPING) then
       print_chain (getcallerpcs km (load32 km (p_context p + CX_EBP) + 8))
     else ret tt) ;;
    cprintf (fun _ => 0) (Some [NEWLINE]) (fun _ => 0) 1.

Fixpoint dump_procs (km : mem) (ps : list proc) : M console unit :=
  match ps with
  | [] => ret tt
  | p :: ps => dump_proc km p ;; dump_procs km ps
  end.

Definition procdump : M kernel unit :=
  do s <- get; in_cons (dump_procs (kmemory (k_mem s)) (k_procs s)).

(** consoleintr in the kernel: control-P prints the process table as the
    interrupt finds it. *)
Definition kconsoleintr (cs : list Z) : M kernel unit :=
  do s <- get; in_cons (consoleintr (dump_procs (kmemory (k_mem s)) (k_procs s)) cs).
