(* ===== verification/SysArg.v ===== *)
(** * syscall.c: fetching the arguments of a system call

    The arguments lie on the user stack, above the saved program counter.
    Integers are checked and read, pointers and strings are checked against
    the size of the process.  [None] is the -1 of the C functions. *)

From S2P Require Import Prelude Monad Locks Memory CString Mmu Kalloc Vm VmSpec FsState FsLayout Fs Dir Console Kernel Pipe File Proc.

Open Scope Z_scope.
Open Scope kernel_scope.

(** A word of user memory. *)
Definition uload32 (va : Z) : M kernel Z := do l <- uload va 4; ret (le_val l).
Definition ustore32 (va v : Z) : M kernel unit := ustore va (le_bytes 4 v).

Definition fetchint (addr : Z) : M kernel (option Z) :=
  do p <- cur_proc;
  if (p_sz p <=? addr) || (p_sz p <? u32 (addr + 4)) then ret None
  else do v <- uload32 addr; ret (Some (s32 v)).

(** The scan of fetchstr from [s] towards the end of the process. *)
Fixpoint fetchstr_loop (s : Z) (n : nat) : M kernel (option (list Z)) :=
  match n with
  | O => ret None
  | S n =>
      do c <- uload8 s;
      if c =? 0 then ret (Some [])
      else do r <- fetchstr_loop (s + 1) n; ret (option_map (cons c) r)
  end.

(** The string itself is the result: the caller reads it at [addr]. *)
Definition fetchstr (addr : Z) : M kernel (option (list Z)) :=
  do p <- cur_proc;
  if p_sz p <=? addr then ret None
  else fetchstr_loop addr (Z.to_nat (p_sz p - addr)).

Definition argint (n : Z) : M kernel (option Z) :=
  do p <- cur_proc;
  do esp <- kload32 (p_tf p + TF_ESP);
  fetchint (u32 (esp + 4 + 4 * n)).

Definition argptr (n size : Z) : M kernel (option Z) :=
  do i <- argint n;
  match i with
  | None => ret None
  | Some i =>
      do p <- cur_proc;
      if (p_sz p <=? u32 i) || (p_sz p <? u32 (u32 i + size)) then ret None
      else ret (Some (u32 i))
  end.

Definition argstr (n : Z) : M kernel (option (list Z)) :=
  do a <- argint n;
  match a with
  | None => ret None
  | Some a => fetchstr (u32 a)
  end.
