(* ===== verification/ArgSpec.v ===== *)
(** * What the argument checks guarantee

    The kernel uses user pointers only after these checks.  [upage] says that
    the pages of a range of user addresses are present, which they are below
    the size of a process. *)

From S2P Require Import Prelude Monad Locks Memory CString Mmu Kalloc Vm VmSpec FsState FsLayout Fs Dir Console Kernel KernelSpec Pipe File Proc SysArg.

Open Scope Z_scope.
Open Scope kernel_scope.

(** The byte the process [p] has at [va]. *)
Definition ubyte (s : kernel) (p : proc) (va : Z) : option Z :=
  load8 (kmemory (k_mem s)) <$> user_addr (kmemory (k_mem s)) (p_pgdir p) va.

Lemma uload8_ok i p s va b :
  runs i p s -> 0 <= va < 4294967296 -> ubyte s p va = Some b -> uload8 va s = Ok b s.
Proof.
  intros Hr Hva Hb. unfold uload8, bind. rewrite (cur_proc_ok i p) by done. rewrite u32_small by done.
  unfold ubyte in Hb. destruct (user_addr _ _ va); [|done]. by injection Hb as <-.
Qed.

Lemma uload_ok i p s l va :
  runs i p s -> 0 <= va -> va + Z.of_nat (length l) <= 4294967296 ->
  (forall k b, l !! k = Some b -> ubyte s p (va + Z.of_nat k) = Some b) ->
  uload va (length l) s = Ok l s.
Proof.
  intros Hr. revert va. induction l as [|b l IH]; intros va H0 Hlen Hl; [done|].
  cbn [length uload] in *. erewrite bind_Ok.
  2:{ apply (uload8_ok i p); [done|lia|]. specialize (Hl 0%nat b eq_refl). by rewrite Z.add_0_r in Hl. }
  erewrite bind_Ok; [done|]. apply IH; [lia|lia|]. intros k c Hk.
  specialize (Hl (S k) c Hk). by replace (va + 1 + Z.of_nat k) with (va + Z.of_nat (S k)) by lia.
Qed.

(** ** Integers and pointers *)

(** An argument word is read only when all its four bytes lie below the
    size of the process; otherwise the call fails without a read. *)
Lemma fetchint_checks i p s addr l :
  runs i p s -> p_sz p <= KERNBASE -> 0 <= addr < 4294967296 -> length l = 4%nat ->
  (forall k b, l !! k = Some b -> addr + 4 <= p_sz p -> ubyte s p (addr + Z.of_nat k) = Some b) ->
  fetchint addr s = Ok (if addr + 4 <=? p_sz p then Some (s32 (le_val l)) else None) s.
Proof.
  intros Hr Hsz Ha Hlen Hl. unfold fetchint, bind at 1. rewrite (cur_proc_ok i p) by done.
  unfold KERNBASE in *. destruct (Z.leb_spec (addr + 4) (p_sz p)) as [H|H].
  - rewrite u32_small by lia. destruct (Z.leb_spec (p_sz p) addr); [lia|].
    destruct (Z.ltb_spec (p_sz p) (addr + 4)); [lia|]. simpl.
    unfold uload32, bind. rewrite <- Hlen, (uload_ok i p s l) by (try done; try lia; eauto). done.
  - destruct (Z.leb_spec (p_sz p) addr); [done|]. rewrite u32_small by lia.
    by destruct (Z.ltb_spec (p_sz p) (addr + 4)); [|lia].
Qed.

(** C22: a pointer argument with a size that is not negative is accepted
    exactly when the whole block lies below the size of the process; no
    overflow lets a block past the end through. *)
Theorem argptr_checks i p s n size v :
  runs i p s -> 0 <= p_sz p <= KERNBASE -> argint n s = Ok (Some v) s -> 0 <= size < 2147483648 ->
  argptr n size s = Ok (if (u32 v <? p_sz p) && (u32 v + size <=? p_sz p) then Some (u32 v) else None) s.
Proof.
  intros Hr Hsz Hv Hsize. unfold argptr. erewrite bind_Ok by exact Hv. cbv beta iota.
  erewrite bind_Ok by by eapply cur_proc_ok. pose proof (u32_range v). unfold KERNBASE in *.
  destruct (Z.leb_spec (p_sz p) (u32 v)); destruct (Z.ltb_spec (u32 v) (p_sz p)); try lia; [done|].
  cbn [orb andb]. rewrite (u32_small (u32 v + size)) by lia.
  destruct (Z.ltb_spec (p_sz p) (u32 v + size)); destruct (Z.leb_spec (u32 v + size) (p_sz p)); try lia; done.
Qed.

(** A negative size passes the check for every pointer inside the process that
    is not smaller than its absolute value: the caller's count is not tested
    for its sign. *)
Lemma argptr_negative i p s n size v :
  runs i p s -> argint n s = Ok (Some v) s -> u32 v < p_sz p -> - u32 v <= size < 0 ->
  argptr n size s = Ok (Some (u32 v)) s.
Proof.
  intros Hr Hv Hin Hsize. unfold argptr. erewrite bind_Ok by exact Hv. cbv beta iota.
  erewrite bind_Ok by by eapply cur_proc_ok. pose proof (u32_range v).
  rewrite (u32_small (u32 v + size)) by lia.
  destruct (Z.leb_spec (p_sz p) (u32 v)); [lia|]. by destruct (Z.ltb_spec (p_sz p) (u32 v + size)); [lia|].
Qed.

(** ** Strings *)

Lemma fetchstr_loop_run i p s l addr :
  runs i p s -> 0 <= addr -> addr + Z.of_nat (length l) <= 4294967296 ->
  (forall k b, l !! k = Some b -> ubyte s p (addr + Z.of_nat k) = Some b) ->
  exists r, fetchstr_loop addr (length l) s = Ok r s /\
    match r with
    | Some t => exists rest, l = t ++ 0 :: rest /\ 0 ∉ t
    | None => 0 ∉ l
    end.
Proof.
  intros Hr. revert addr. induction l as [|c l IH]; intros addr H0 Hlen Hl; cbn [length fetchstr_loop] in *.
  - exists None. split; [done|]. apply not_elem_of_nil.
  - erewrite bind_Ok.
    2:{ apply (uload8_ok i p _ _ c); [done|lia|]. specialize (Hl 0%nat c eq_refl). by rewrite Z.add_0_r in Hl. }
    destruct (Z.eqb_spec c 0) as [->|Hc].
    + exists (Some []). split; [done|]. exists l. split; [done|]. apply not_elem_of_nil.
    + destruct (IH (addr + 1)) as (r & E & H); [lia|lia| |].
      { intros k b Hk. specialize (Hl (S k) b Hk).
        by replace (addr + 1 + Z.of_nat k) with (addr + Z.of_nat (S k)) by lia. }
      exists (option_map (cons c) r). erewrite bind_Ok by exact E. split; [done|].
      destruct r as [t|]; simpl; [|rewrite elem_of_cons; naive_solver].
      destruct H as (rest & -> & Ht). exists rest. split; [done|]. rewrite elem_of_cons. naive_solver.
Qed.

(** Fetchstr delivers the bytes from the address up to the first NUL, or
    fails when there is none below the size of the process.  [l] are the bytes
    of the process from the address on. *)
Theorem fetchstr_correct i p s l addr :
  runs i p s -> 0 <= addr -> 0 <= p_sz p <= KERNBASE -> length l = Z.to_nat (p_sz p - addr) ->
  (forall k b, l !! k = Some b -> ubyte s p (addr + Z.of_nat k) = Some b) ->
  exists r, fetchstr addr s = Ok r s /\
    match r with
    | Some t => exists rest, l = t ++ 0 :: rest /\ 0 ∉ t
    | None => 0 ∉ l
    end.
Proof.
  intros Hr H0 Hsz Hlen Hl. unfold fetchstr. erewrite bind_Ok by by eapply cur_proc_ok.
  unfold KERNBASE in *. destruct (Z.leb_spec (p_sz p) addr) as [Hle|Hle].
  - exists None. split; [done|]. destruct l; [apply not_elem_of_nil|]. simpl in Hlen. lia.
  - rewrite <- Hlen. apply (fetchstr_loop_run i p); [done|lia|lia|done].
Qed.
