(* ===== verification/SysProc.v ===== *)
(** * sysproc.c and sysmem.c: system calls on processes and on frames

    One definition per system call; the result is the C value as an unsigned
    or signed word, as the C return type says.  The sysmem.c calls hand frames
    and page table entries to exokernel processes. *)

From S2P Require Import Prelude Monad Locks Memory CString Mmu Kalloc Vm VmSpec FsState FsLayout Fs Dir Printf Console Kernel Pipe File Proc SysArg.

Open Scope Z_scope.
Open Scope kernel_scope.

(** A message of cprintf without conversions, with its newline. *)
Definition text (s : string) : list Z := (fun c => Z.of_nat (Ascii.nat_of_ascii c)) <$> String.list_ascii_of_string s.
Definition message (s : string) : M kernel unit :=
  in_cons (cprintf (fun _ => 0) (Some (text s ++ [NEWLINE])) (fun _ => 0) 1).

Section sysproc.
Context (kend kdata trapret forkret start_addr : Z).

Definition sys_fork : M kernel Z := fork kend kdata trapret forkret.

(** exit leaves the CPU without a process; the 0 is not reached. *)
Definition sys_exit : M kernel Z := exit_proc kend ;; ret 0.

Definition sys_wait : M kernel Z := wait_child kend.

Definition sys_kill : M kernel Z :=
  do pid <- argint 0;
  match pid with
  | None => ret (-1)
  | Some pid => kill pid
  end.

Definition sys_getpid : M kernel Z := do p <- cur_proc; ret (p_pid p).

Definition sys_sbrk : M kernel Z :=
  do n <- argint 0;
  match n with
  | None => ret (-1)
  | Some n =>
      do p <- cur_proc;
      do r <- growproc kend n;
      ret (if r <? 0 then -1 else p_sz p)
  end.

(** The loop of sys_sleep, from a test of its condition on.  A process that
    sleeps comes back here with the same [ticks0]. *)
Definition sys_sleep_wait (ticks0 n : Z) : M kernel Z :=
  do s <- get;
  if u32 (k_ticks s - ticks0) <? u32 n then
    do p <- cur_proc;
    if p_killed p then release LkTicks ;; ret (-1) else ksleep ChTicks LkTicks
  else release LkTicks ;; ret 0.

Definition sys_sleep : M kernel Z :=
  do n <- argint 0;
  match n with
  | None => ret (-1)
  | Some n =>
      acquire LkTicks ;;
      do s <- get;
      sys_sleep_wait (k_ticks s) n
  end.

Definition sys_uptime : M kernel Z :=
  acquire LkTicks ;; do s <- get; release LkTicks ;; ret (k_ticks s).

(** ** sysmem.c *)

Definition SetExProcess : M kernel unit := modify (set_exo true).

Definition sys_ExRegister : M kernel Z :=
  upd_cur (with_ptype 1) ;; SetExProcess ;; ret 0.

(** The walk of sys_ExGetFrame along the free list, at most [num_frames]
    steps: the number of frames seen. *)
Fixpoint count_frames (r : Z) (num_frames : nat) : M kernel Z :=
  match num_frames with
  | O => ret 0
  | S n =>
      if r =? 0 then ret 0
      else do nx <- kload32 r; do k <- count_frames nx n; ret (k + 1)
  end.

Definition sys_ExGetFrame : M kernel Z :=
  do n <- argint 0;
  match n with
  | None => ret 0
  | Some num_frames =>
      do r <- in_mem getfreelist;
      do num <- count_frames r (Z.to_nat num_frames);
      if negb (num =? num_frames) then ret 0 else in_mem getfreelist
  end.

Definition sys_ExGetVA : M kernel Z := do p <- cur_proc; ret (PGROUNDUP (p_sz p)).

Definition sys_ExGetPDE : M kernel Z :=
  do i <- argint 0;
  match i with
  | None => ret (-1)
  | Some index =>
      if (index <? 0) || (NPTENTRIES - 1 <? index) then ret (-1)
      else do p <- cur_proc; kload32 (p_pgdir p + 4 * index)
  end.

Definition getpgtab (pgdir va : Z) (alloc : bool) : M kernel Z :=
  let pde := pgdir + 4 * PDX va in
  do v <- kload32 pde;
  if has v PTE_P then ret (p2v (PTE_ADDR v) + 4 * PTX va)
  else
    message "Page table NOT present!" ;;
    if negb alloc then ret 0
    else
      do pgtab <- in_mem getfreelist;
      if pgtab =? 0 then ret 0
      else
        do me <- cur_proc;
        do fl <- in_mem getfreelist;
        in_mem (allocadd start_addr (p_pid me) fl) ;;
        message "Page table alloc success!" ;;
        kmemset pgtab 0 PGSIZE ;;
        kstore32 pde (Z.lor (Z.lor (Z.lor (v2p pgtab) PTE_P) PTE_W) PTE_U) ;;
        ret (pgtab + 4 * PTX va).

Definition sys_ExGetPTE : M kernel Z :=
  do va <- argint 0;
  match va with
  | None => ret 0
  | Some va => do p <- cur_proc; getpgtab (p_pgdir p) (u32 va) false
  end.

Definition sys_ExAddPage : M kernel Z :=
  do me <- cur_proc;
  do va <- argint 0;
  match va with
  | None => ret 0
  | Some va =>
      do frame <- argint 1;
      match frame with
      | None => ret 0
      | Some frame =>
          if negb (Z.rem va PGSIZE =? 0) then ret 0
          else
            do r <- in_mem (allocadd start_addr (p_pid me) (u32 frame));
            if r =? 0 then ret 0
            else
              do pgtab <- getpgtab (p_pgdir me) (u32 va) true;
              if pgtab =? 0 then ret 0
              else
                do e <- kload32 pgtab;
                (if has e PTE_P then message "Page Entry Present!" else ret tt) ;;
                kstore32 pgtab (Z.lor (Z.lor (Z.lor (u32 frame) PTE_U) PTE_W) PTE_P) ;;
                upd_cur (fun p => with_vm (u32 (p_sz p + PGSIZE)) (p_pgdir p) p) ;;
                ret 1
      end
  end.
End sysproc.
