(* ===== verification/Exec.v ===== *)
(** * exec.c and loaduvm of vm.c: loading a program

    The path and the argument strings are the bytes the caller's pointers
    reach; the ELF headers are the bytes readi delivers.  A header that readi
    could not deliver is an uninitialised local of exec, whose use is a
    fault. *)

From S2P Require Import Prelude Monad Locks Memory CString Mmu Kalloc Vm VmSpec FsState FsLayout Log Fs Dir Console Kernel Pipe File Proc.

Open Scope Z_scope.
Open Scope kernel_scope.

Definition MAXARG : nat := 32.

(** Fields of struct elfhdr and struct proghdr in their byte form. *)
Definition field32 (o : nat) (h : list Z) : Z := le_val (slice o 4 h).
Definition field16 (o : nat) (h : list Z) : Z := le_val (slice o 2 h).

Definition ELF_MAGIC : Z := 0x464C457F.
Definition ELF_PROG_LOAD : Z := 1.
Definition SIZEOF_ELFHDR : Z := 52.
Definition SIZEOF_PROGHDR : Z := 32.

Definition elf_magic (h : list Z) : Z := field32 0 h.
Definition elf_entry (h : list Z) : Z := field32 24 h.
Definition elf_phoff (h : list Z) : Z := field32 28 h.
Definition elf_phnum (h : list Z) : Z := field16 44 h.
Definition ph_type (h : list Z) : Z := field32 0 h.
Definition ph_off (h : list Z) : Z := field32 4 h.
Definition ph_vaddr (h : list Z) : Z := field32 8 h.
Definition ph_filesz (h : list Z) : Z := field32 16 h.
Definition ph_memsz (h : list Z) : Z := field32 20 h.

(** Paths of the current process; an absolute one does not need its directory. *)
Definition at_cwd {A} (path : list Z) (f : nat -> M fstate A) : M kernel A :=
  do p <- cur_proc;
  match p_cwd p, path with
  | Some d, _ => in_fs (f d)
  | None, c :: _ => if c =? slash then in_fs (f 0%nat) else fault "null cwd"
  | None, [] => fault "null cwd"
  end.

Definition knamei (path : list Z) : M kernel (option nat) := at_cwd path (fun d => namei nodev d path).
Definition knameiparent (path : list Z) : M kernel (option (nat * list Z)) :=
  at_cwd path (fun d => nameiparent nodev d path).

(** ** loaduvm *)

Fixpoint loaduvm_loop (pgdir addr : Z) (ip : nat) (offset i sz : Z) (fuel : nat) : M kernel Z :=
  match fuel with
  | O => fault "loaduvm: loop bound"
  | S fuel =>
      if i <? sz then
        do pte <- in_mem (walkpgdir pgdir (u32 (addr + i)) false);
        if pte =? 0 then panic "loaduvm: address should exist"
        else
          do v <- kload32 pte;
          let pa := PTE_ADDR v in
          let n := if sz - i <? PGSIZE then sz - i else PGSIZE in
          do ' (r, bs) <- kreadi ip (u32 (offset + i)) n;
          in_mem (modify (set_mem (fun m => store_bytes m (p2v pa) bs))) ;;
          if negb (u32 r =? n) then ret (-1)
          else loaduvm_loop pgdir addr ip offset (u32 (i + PGSIZE)) sz fuel
      else ret 0
  end.

Definition loaduvm (pgdir addr : Z) (ip : nat) (offset sz : Z) : M kernel Z :=
  if negb (addr mod PGSIZE =? 0) then panic "loaduvm: addr must be page aligned"
  else loaduvm_loop pgdir addr ip offset 0 sz (S (Z.to_nat (sz / PGSIZE + 1))).

(** copyout of bytes that lie outside the memory it writes: a user string of
    the old image, or a local array of exec. *)
Fixpoint copyout_bytes_loop (pgdir va : Z) (bs : list Z) (fuel : nat) : M kstate Z :=
  match fuel with
  | O => fault "copyout: loop bound"
  | S fuel =>
      match bs with
      | [] => ret 0
      | _ =>
          let va0 := PGROUNDDOWN va in
          do pa0 <- uva2ka pgdir va0;
          if pa0 =? 0 then ret (-1)
          else
            let n := Z.to_nat (Z.min (PGSIZE - (va - va0)) (Z.of_nat (length bs))) in
            modify (set_mem (fun m => store_bytes m (pa0 + (va - va0)) (take n bs))) ;;
            copyout_bytes_loop pgdir (u32 (va0 + PGSIZE)) (drop n bs) fuel
      end
  end.

Definition copyout_bytes (pgdir va : Z) (bs : list Z) : M kernel Z :=
  in_mem (copyout_bytes_loop pgdir va bs (S (Z.to_nat (Z.of_nat (length bs) / PGSIZE + 2)))).

Section exec.
Context (kend kdata : Z).

(** The label bad. *)
Definition exec_bad (pgdir : Z) (ip : option nat) : M kernel Z :=
  (if negb (pgdir =? 0) then in_mem (freevm kend pgdir) else ret tt) ;;
  (match ip with Some ip => in_fs (iunlockput ip) ;; in_fs end_op | None => ret tt end) ;;
  ret (-1).

(** The program headers, [count] of them still to do; [None] goes to bad. *)
Fixpoint load_segments (pgdir : Z) (ip : nat) (off sz : Z) (count : nat) : M kernel (option Z) :=
  match count with
  | O => ret (Some sz)
  | S count =>
      do ' (r, ph) <- kreadi ip (u32 off) SIZEOF_PROGHDR;
      if negb (r =? SIZEOF_PROGHDR) then ret None
      else if negb (ph_type ph =? ELF_PROG_LOAD) then
        load_segments pgdir ip (off + SIZEOF_PROGHDR) sz count
      else if ph_memsz ph <? ph_filesz ph then ret None
      else
        do sz <- in_mem (allocuvm kend pgdir sz (u32 (ph_vaddr ph + ph_memsz ph)));
        if sz =? 0 then ret None
        else
          do r <- loaduvm pgdir (ph_vaddr ph) ip (ph_off ph) (ph_filesz ph);
          if r <? 0 then ret None
          else load_segments pgdir ip (off + SIZEOF_PROGHDR) sz count
  end.

(** The argument strings, pushed from the first on: the stack pointer and the
    addresses, in order. *)
Fixpoint push_args (pgdir sp : Z) (argc : nat) (argv : list (list Z)) : M kernel (option (Z * list Z)) :=
  match argv with
  | [] => ret (Some (sp, []))
  | a :: argv =>
      if (MAXARG <=? argc)%nat then ret None
      else
        let sp := Z.land (u32 (sp - (Z.of_nat (length a) + 1))) (Z.lnot 3) in
        do r <- copyout_bytes pgdir sp (a ++ [0]);
        if r <? 0 then ret None
        else
          do rest <- push_args pgdir sp (S argc) argv;
          ret (match rest with Some (sp', l) => Some (sp', sp :: l) | None => None end)
  end.

(** The part of the path after its last slash. *)
Fixpoint last_elem (last s : list Z) : list Z :=
  match s with
  | [] => last
  | c :: s => if c =? slash then last_elem s s else last_elem last s
  end.

(** exec once the image is loaded: the stack, and the commit. *)
Definition exec_stack (path : list Z) (argv : list (list Z)) (elf : list Z) (pgdir sz : Z) : M kernel Z :=
  let sz := PGROUNDUP sz in
  do sz <- in_mem (allocuvm kend pgdir sz (u32 (sz + 2 * PGSIZE)));
  if sz =? 0 then exec_bad pgdir None
  else
    in_mem (clearpteu pgdir (u32 (sz - 2 * PGSIZE))) ;;
    do pushed <- push_args pgdir sz 0 argv;
    match pushed with
    | None => exec_bad pgdir None
    | Some (sp, ptrs) =>
        let argc := Z.of_nat (length argv) in
        let ustack := [0xffffffff; argc; u32 (sp - (argc + 1) * 4)] ++ ptrs ++ [0] in
        let sp := u32 (sp - (3 + argc + 1) * 4) in
        do r <- copyout_bytes pgdir sp (flat_map (le_bytes 4) ustack);
        if r <? 0 then exec_bad pgdir None
        else
          do me <- cur_proc;
          upd_cur (proc_name (last_elem path path)) ;;
          upd_cur (with_vm sz pgdir) ;;
          kstore32 (p_tf me + TF_EIP) (elf_entry elf) ;;
          kstore32 (p_tf me + TF_ESP) sp ;;
          upd_cur (with_ptype 0) ;;
          in_mem (freevm kend (p_pgdir me)) ;;
          ret 0
    end.

(** The size of the header is unsigned, so the -1 of a failing readi passes
    the first test. *)
Definition exec (path : list Z) (argv : list (list Z)) : M kernel Z :=
  in_fs begin_op ;;
  do ip <- knamei path;
  match ip with
  | None => in_fs end_op ;; ret (-1)
  | Some ip =>
      in_fs (ilock (Some ip)) ;;
      do ' (r, elf) <- kreadi ip 0 SIZEOF_ELFHDR;
      if u32 r <? SIZEOF_ELFHDR then exec_bad 0 (Some ip)
      else if r <? 0 then fault "uninitialised elf header"
      else if negb (elf_magic elf =? ELF_MAGIC) then exec_bad 0 (Some ip)
      else
        do pgdir <- in_mem (setupkvm kdata);
        if pgdir =? 0 then exec_bad 0 (Some ip)
        else
          do loaded <- load_segments pgdir ip (s32 (elf_phoff elf)) 0 (Z.to_nat (elf_phnum elf));
          match loaded with
          | None => exec_bad pgdir (Some ip)
          | Some sz =>
              in_fs (iunlockput ip) ;;
              in_fs end_op ;;
              exec_stack path argv elf pgdir sz
          end
  end.
End exec.
