(* ===== verification/ExecSpec.v ===== *)
(** * exec commits last

    Everything exec does before its commit is done on a page table of its own
    and on the file system; the calling process is changed only once nothing
    can fail any more. *)

From S2P Require Import Prelude Monad Locks Memory CString Mmu Kalloc Vm VmSpec FsState FsLayout Log Fs Dir Console Kernel KernelSpec Pipe File Proc SysArg Exec.

Open Scope Z_scope.
Open Scope kernel_scope.

Lemma quietly_at_cwd {A} path (f : nat -> M fstate A) : quietly (at_cwd path f).
Proof. unfold at_cwd. solve_quiet. Qed.

Lemma quietly_kreadi ip off n : quietly (kreadi ip off n).
Proof. unfold kreadi. solve_quiet. Qed.

#[export] Hint Resolve quietly_at_cwd quietly_kreadi : quiet.

Lemma quietly_loaduvm pgdir addr ip offset sz : quietly (loaduvm pgdir addr ip offset sz).
Proof.
  unfold loaduvm. destruct (negb _); [auto with quiet|].
  generalize (S (Z.to_nat (sz / PGSIZE + 1))) 0. intros fuel. induction fuel as [|fuel IH]; intros i;
    cbn [loaduvm_loop]; solve_quiet.
Qed.

Lemma quietly_copyout_bytes pgdir va bs : quietly (copyout_bytes pgdir va bs).
Proof. apply quietly_in_mem. Qed.

#[export] Hint Resolve quietly_loaduvm quietly_copyout_bytes : quiet.

Lemma quietly_load_segments kend pgdir ip off sz count : quietly (load_segments kend pgdir ip off sz count).
Proof. revert off sz. induction count as [|count IH]; intros off sz; cbn [load_segments]; solve_quiet. Qed.

Lemma quietly_push_args pgdir sp argc argv : quietly (push_args pgdir sp argc argv).
Proof. revert sp argc. induction argv as [|a argv IH]; intros sp argc; cbn [push_args]; solve_quiet. Qed.

Lemma quietly_exec_bad kend pgdir ip : quietly (exec_bad kend pgdir ip).
Proof. unfold exec_bad. solve_quiet. Qed.

Lemma quietly_knamei path : quietly (knamei path).
Proof. apply quietly_at_cwd. Qed.

#[export] Hint Resolve quietly_load_segments quietly_push_args quietly_exec_bad quietly_knamei : quiet.

(** [fails_quietly f]: when [f] returns -1, it was quiet. *)
Definition fails_quietly (f : M kernel Z) : Prop := forall s s', f s = Ok (-1) s' -> quiet s s'.

Lemma quietly_fails f : quietly f -> fails_quietly f.
Proof. intros H s s'. apply H. Qed.

Lemma fails_quietly_bind {A} (m : M kernel A) k :
  quietly m -> (forall a, fails_quietly (k a)) -> fails_quietly (bind m k).
Proof.
  intros Hm Hk s s'. unfold bind. destruct (m s) as [a s1| | |] eqn:E; try done.
  intros E'. transitivity s1; [by eapply Hm|by eapply Hk].
Qed.

(** A program that ends in success whatever it does before. *)
Definition succeeds (f : M kernel Z) : Prop := forall s r s', f s = Ok r s' -> r = 0.

Lemma succeeds_bind {A} (m : M kernel A) k : (forall a, succeeds (k a)) -> succeeds (bind m k).
Proof. intros Hk s r s'. unfold bind. destruct (m s); try done. apply Hk. Qed.

Lemma succeeds_ret : succeeds (ret 0).
Proof. by intros s r s' [= <- _]. Qed.

Lemma succeeds_fails f : succeeds f -> fails_quietly f.
Proof. intros H s s' E. by specialize (H _ _ _ E). Qed.

Ltac fails_step :=
  match goal with
  | |- fails_quietly (bind _ _) => apply fails_quietly_bind; [solve [auto with quiet]|intros ?]
  | |- fails_quietly (match ?x with _ => _ end) => destruct x
  | |- fails_quietly _ => solve [apply quietly_fails; auto with quiet]
  end.

Lemma fails_exec_stack kend path argv elf pgdir sz : fails_quietly (exec_stack kend path argv elf pgdir sz).
Proof.
  unfold exec_stack. repeat fails_step.
  all: apply succeeds_fails; repeat (apply succeeds_bind; intros _); apply succeeds_ret.
Qed.

(** exec returns 0 or -1. *)
Definition two_results (f : M kernel Z) : Prop := forall s r s', f s = Ok r s' -> r = 0 \/ r = -1.

Lemma two_results_bind {A} (m : M kernel A) k : (forall a, two_results (k a)) -> two_results (bind m k).
Proof. intros Hk s r s'. unfold bind. destruct (m s); try done. apply Hk. Qed.

Lemma two_results_ret r : r = 0 \/ r = -1 -> two_results (ret r).
Proof. intros H s r' s' [= <- _]. exact H. Qed.

Ltac two_results_step :=
  match goal with
  | |- two_results (bind _ _) => apply two_results_bind; intros ?
  | |- two_results (ret _) => apply two_results_ret; auto
  | |- two_results (fault _) => intros ? ? ? [=]
  | |- two_results (match ?x with _ => _ end) => destruct x
  end.

Lemma exec_result kend kdata path argv : two_results (exec kend kdata path argv).
Proof. unfold exec, exec_stack, exec_bad. repeat two_results_step. Qed.

(** A running process keeps its entry when only sleepers are woken. *)
Lemma quiet_runs s s' i me : quiet s s' -> runs i me s -> p_state me <> SLEEPING -> runs i me s'.
Proof.
  intros (Hc & _ & _ & _ & _ & Hp) [Hcur Hi] Hst. split; [by rewrite Hc|].
  destruct (Forall2_lookup_l _ _ _ _ _ Hp Hi) as (me' & Hi' & [->|[? _]]); done.
Qed.

(** C17: an exec that fails leaves the calling process as it was in the process
    table: its entry, with its page table, size, trap frame, open files,
    directory and name, is the same.  No other entry is changed either, except
    that processes which slept may have been made runnable, as end_op does
    with those that wait for the log; the open files, the pipes and the next
    process number are the same.  A failing exec returns -1; when it returns
    anything else it returns 0. *)
Theorem exec_failure_keeps_image kend kdata path argv s r s' i me :
  runs i me s -> p_state me = RUNNING -> exec kend kdata path argv s = Ok r s' ->
  r = 0 \/
  r = -1 /\ runs i me s' /\ Forall2 roused (k_procs s) (k_procs s') /\
  k_files s' = k_files s /\ k_pipes s' = k_pipes s /\ k_nextpid s' = k_nextpid s /\ k_initproc s' = k_initproc s.
Proof.
  intros Hr Hst E. destruct (decide (r = -1)) as [->|Hne].
  - right. assert (Hq : quiet s s').
    { revert s s' Hr E. intros s s' _. revert s s'. change (fails_quietly (exec kend kdata path argv)). unfold exec.
      repeat fails_step; apply fails_exec_stack. }
    split; [done|]. split; [apply (quiet_runs _ _ _ _ Hq Hr); congruence|]. destruct Hq as (_ & ? & ? & ? & ? & ?). by split_and!.
  - left. by destruct (exec_result _ _ _ _ _ _ _ E).
Qed.
