(* ===== verification/SysFile.v ===== *)
(** * sysfile.c: the file system calls

    The calls check their arguments with the functions of [SysArg.v] and work
    on the file table of [File.v].  What link, unlink and create do between
    begin_op and end_op stays inside the file system and is written on its
    state; [dp] and [cwd] are the inode of the current directory. *)

From S2P Require Import Prelude Monad Locks Memory CString Mmu Kalloc Vm VmSpec FsState FsLayout Log Fs Dir Console Kernel Pipe File Proc SysArg Exec.

Open Scope Z_scope.
Open Scope kernel_scope.

Definition O_RDONLY : Z := 0.
Definition O_WRONLY : Z := 1.
Definition O_RDWR : Z := 2.
Definition O_CREATE : Z := 512.

(** ** Descriptors *)

Definition argfd (n : Z) : M kernel (option (nat * nat)) :=
  do fd <- argint n;
  match fd with
  | None => ret None
  | Some fd =>
      if (fd <? 0) || (Z.of_nat NOFILE <=? fd) then ret None
      else
        do p <- cur_proc;
        match p_ofile p !! Z.to_nat fd with
        | Some (Some f) => ret (Some (Z.to_nat fd, f))
        | _ => ret None
        end
  end.

(** The first free slot of the descriptor table. *)
Definition fdalloc (f : nat) : M kernel Z :=
  do p <- cur_proc;
  match list_find (fun o => o = None) (p_ofile p) with
  | Some (fd, _) => upd_cur (fun p => with_ofile (<[fd := Some f]> (p_ofile p)) p) ;; ret (Z.of_nat fd)
  | None => ret (-1)
  end.

Definition clear_fd (fd : nat) : M kernel unit :=
  upd_cur (fun p => with_ofile (<[fd := None]> (p_ofile p)) p).

Definition sys_dup : M kernel Z :=
  do r <- argfd 0;
  match r with
  | None => ret (-1)
  | Some (_, f) =>
      do fd <- fdalloc f;
      if fd <? 0 then ret (-1) else filedup f ;; ret fd
  end.

(** The arguments of read and write: the file, the count and the buffer. *)
Definition io_args : M kernel (option (nat * Z * Z)) :=
  do r <- argfd 0;
  match r with
  | None => ret None
  | Some (_, f) =>
      do n <- argint 2;
      match n with
      | None => ret None
      | Some n =>
          do p <- argptr 1 n;
          ret (option_map (fun p => (f, n, p)) p)
      end
  end.

Definition sys_read : M kernel Z :=
  do a <- io_args;
  match a with
  | None => ret (-1)
  | Some (f, n, p) =>
      do ' (r, bs) <- fileread f n;
      ustore p bs ;; ret r
  end.

Definition sys_write : M kernel Z :=
  do a <- io_args;
  match a with
  | None => ret (-1)
  | Some (f, n, p) =>
      do bs <- uload p (Z.to_nat n);
      filewrite f bs n
  end.

(** struct stat in user memory; its padding is left alone. *)
Definition SIZEOF_STAT : Z := 20.
Definition store_stat (a : Z) (st : stat) : M kernel unit :=
  ustore a (le_bytes 2 (st_type st)) ;;
  ustore (a + 4) (le_bytes 4 (st_dev st)) ;;
  ustore (a + 8) (le_bytes 4 (st_ino st)) ;;
  ustore (a + 12) (le_bytes 2 (st_nlink st)) ;;
  ustore (a + 16) (le_bytes 4 (st_size st)).

Definition sys_fstat : M kernel Z :=
  do r <- argfd 0;
  match r with
  | None => ret (-1)
  | Some (_, f) =>
      do a <- argptr 1 SIZEOF_STAT;
      match a with
      | None => ret (-1)
      | Some a =>
          do st <- filestat f;
          match st with
          | None => ret (-1)
          | Some st => store_stat a st ;; ret 0
          end
      end
  end.

(** ** Links *)

Definition with_nlink (v : Z) (p : inode) : inode :=
  mkInode (i_dev p) (i_inum p) (i_ref p) (i_busy p) (i_valid p) (i_type p) (i_major p) (i_minor p)
          v (i_size p) (i_addrs p).
Definition with_device (major minor nlink : Z) (p : inode) : inode :=
  mkInode (i_dev p) (i_inum p) (i_ref p) (i_busy p) (i_valid p) (i_type p) (s16 major) (s16 minor)
          nlink (i_size p) (i_addrs p).

(** [ip->nlink += d; iupdate(ip)] on a short. *)
Definition add_link (ip : nat) (d : Z) : M fstate unit :=
  do p <- get_inode ip;
  put_inode ip (with_nlink (s16 (i_nlink p + d)) p) ;;
  iupdate ip.

(** The label bad of sys_link. *)
Definition link_bad (ip : nat) : M fstate Z :=
  ilock (Some ip) ;; add_link ip (-1) ;; iunlockput ip ;; end_op ;; ret (-1).

Definition link_op (cwd : nat) (old new : list Z) : M fstate Z :=
  begin_op ;;
  do ip <- namei nodev cwd old;
  match ip with
  | None => end_op ;; ret (-1)
  | Some ip =>
      ilock (Some ip) ;;
      do p <- get_inode ip;
      if i_type p =? T_DIR then iunlockput ip ;; end_op ;; ret (-1)
      else
        add_link ip 1 ;;
        iunlock (Some ip) ;;
        do r <- nameiparent nodev cwd new;
        match r with
        | None => link_bad ip
        | Some (dp, name) =>
            ilock (Some dp) ;;
            do d <- get_inode dp;
            do p <- get_inode ip;
            do r <- (if negb (i_dev d =? i_dev p) then ret (-1) else dirlink nodev dp name (i_inum p));
            if r <? 0 then iunlockput dp ;; link_bad ip
            else iunlockput dp ;; iput ip ;; end_op ;; ret 0
        end
  end.

(** The scan of isdirempty behind the entries for "." and "..". *)
Fixpoint isdirempty_loop (dp : nat) (off : Z) (fuel : nat) : M fstate bool :=
  match fuel with
  | O => fault "isdirempty: loop bound"
  | S fuel =>
      do p <- get_inode dp;
      if off <? i_size p then
        do ' (r, de) <- readi nodev dp off SIZEOF_DIRENT;
        if negb (r =? SIZEOF_DIRENT) then panic "isdirempty: readi"
        else if negb (de_inum de =? 0) then ret false
        else isdirempty_loop dp (off + SIZEOF_DIRENT) fuel
      else ret true
  end.

Definition isdirempty (dp : nat) : M fstate bool :=
  do p <- get_inode dp;
  isdirempty_loop dp (2 * SIZEOF_DIRENT) (dir_fuel (i_size p)).

Definition dot : list Z := [46].
Definition dotdot : list Z := [46; 46].

(** The label bad of sys_unlink. *)
Definition unlink_bad (dp : nat) : M fstate Z := iunlockput dp ;; end_op ;; ret (-1).

Definition unlink_op (cwd : nat) (path : list Z) : M fstate Z :=
  begin_op ;;
  do r <- nameiparent nodev cwd path;
  match r with
  | None => end_op ;; ret (-1)
  | Some (dp, name) =>
      ilock (Some dp) ;;
      if (namecmp name dot =? 0) || (namecmp name dotdot =? 0) then unlink_bad dp
      else
        do found <- dirlookup nodev dp name;
        match found with
        | None => unlink_bad dp
        | Some (ip, off) =>
            ilock (Some ip) ;;
            do p <- get_inode ip;
            if i_nlink p <? 1 then panic "unlink: nlink < 1"
            else
              do empty <- (if i_type p =? T_DIR then isdirempty ip else ret true);
              if negb empty then iunlockput ip ;; unlink_bad dp
              else
                do w <- writei nodev dp (repeat 0 16) off SIZEOF_DIRENT;
                if negb (w =? SIZEOF_DIRENT) then panic "unlink: writei"
                else
                  (if i_type p =? T_DIR then add_link dp (-1) else ret tt) ;;
                  iunlockput dp ;;
                  add_link ip (-1) ;;
                  iunlockput ip ;;
                  end_op ;;
                  ret 0
        end
  end.

(** A new inode with its entry in the parent directory, returned locked. *)
Definition create (cwd : nat) (path : list Z) (type major minor : Z) : M fstate (option nat) :=
  do r <- nameiparent nodev cwd path;
  match r with
  | None => ret None
  | Some (dp, name) =>
      ilock (Some dp) ;;
      do found <- dirlookup nodev dp name;
      match found with
      | Some (ip, _) =>
          iunlockput dp ;;
          ilock (Some ip) ;;
          do p <- get_inode ip;
          if (type =? T_FILE) && (i_type p =? T_FILE) then ret (Some ip)
          else iunlockput ip ;; ret None
      | None =>
          do d <- get_inode dp;
          do ip <- ialloc (i_dev d) type;
          ilock (Some ip) ;;
          (do p <- get_inode ip; put_inode ip (with_device major minor 1 p)) ;;
          iupdate ip ;;
          (if type =? T_DIR then
             add_link dp 1 ;;
             do p <- get_inode ip;
             do r1 <- dirlink nodev ip dot (i_inum p);
             if r1 <? 0 then panic "create dots"
             else
               do d <- get_inode dp;
               do r2 <- dirlink nodev ip dotdot (i_inum d);
               if r2 <? 0 then panic "create dots" else ret tt
           else ret tt) ;;
          do p <- get_inode ip;
          do r <- dirlink nodev dp name (i_inum p);
          if r <? 0 then panic "create: dirlink"
          else iunlockput dp ;; ret (Some ip)
      end
  end.

Section sysfile.
Context (kend kdata : Z).

Definition sys_close : M kernel Z :=
  do r <- argfd 0;
  match r with
  | None => ret (-1)
  | Some (fd, f) => clear_fd fd ;; fileclose kend f ;; ret 0
  end.

Definition sys_link : M kernel Z :=
  do old <- argstr 0;
  match old with
  | None => ret (-1)
  | Some old =>
      do new <- argstr 1;
      match new with
      | None => ret (-1)
      | Some new => at_cwd (old ++ new) (fun d => link_op d old new)
      end
  end.

Definition sys_unlink : M kernel Z :=
  do path <- argstr 0;
  match path with
  | None => ret (-1)
  | Some path => at_cwd path (fun d => unlink_op d path)
  end.

(** The inode sys_open works on, locked, inside the transaction. *)
Definition open_inode (cwd : nat) (path : list Z) (omode : Z) : M fstate (option nat) :=
  begin_op ;;
  if has omode O_CREATE then
    do ip <- create cwd path T_FILE 0 0;
    match ip with
    | None => end_op ;; ret None
    | Some ip => ret (Some ip)
    end
  else
    do ip <- namei nodev cwd path;
    match ip with
    | None => end_op ;; ret None
    | Some ip =>
        ilock (Some ip) ;;
        do p <- get_inode ip;
        if (i_type p =? T_DIR) && negb (omode =? O_RDONLY) then iunlockput ip ;; end_op ;; ret None
        else ret (Some ip)
    end.

Definition sys_open : M kernel Z :=
  do path <- argstr 0;
  match path with
  | None => ret (-1)
  | Some path =>
      do omode <- argint 1;
      match omode with
      | None => ret (-1)
      | Some omode =>
          do ip <- at_cwd path (fun d => open_inode d path omode);
          match ip with
          | None => ret (-1)
          | Some ip =>
              do f <- filealloc;
              match f with
              | None => in_fs (iunlockput ip) ;; in_fs end_op ;; ret (-1)
              | Some f =>
                  do fd <- fdalloc f;
                  if fd <? 0 then fileclose kend f ;; in_fs (iunlockput ip) ;; in_fs end_op ;; ret (-1)
                  else
                    in_fs (iunlock (Some ip)) ;;
                    in_fs end_op ;;
                    upd_file f (fun f => mkFile FD_INODE (f_ref f) (negb (has omode O_WRONLY))
                                           (has omode O_WRONLY || has omode O_RDWR) (f_pipe f) ip 0) ;;
                    ret fd
              end
          end
      end
  end.

(** The end of mkdir and mknod. *)
Definition made (ip : option nat) : M kernel Z :=
  match ip with
  | None => in_fs end_op ;; ret (-1)
  | Some ip => in_fs (iunlockput ip) ;; in_fs end_op ;; ret 0
  end.

Definition sys_mkdir : M kernel Z :=
  in_fs begin_op ;;
  do path <- argstr 0;
  match path with
  | None => made None
  | Some path => do ip <- at_cwd path (fun d => create d path T_DIR 0 0); made ip
  end.

Definition sys_mknod : M kernel Z :=
  in_fs begin_op ;;
  do path <- argstr 0;
  match path with
  | None => made None
  | Some path =>
      do major <- argint 1;
      match major with
      | None => made None
      | Some major =>
          do minor <- argint 2;
          match minor with
          | None => made None
          | Some minor => do ip <- at_cwd path (fun d => create d path T_DEV major minor); made ip
          end
      end
  end.

Definition sys_chdir : M kernel Z :=
  in_fs begin_op ;;
  do path <- argstr 0;
  match path with
  | None => in_fs end_op ;; ret (-1)
  | Some path =>
      do ip <- knamei path;
      match ip with
      | None => in_fs end_op ;; ret (-1)
      | Some ip =>
          in_fs (ilock (Some ip)) ;;
          do p <- in_fs (get_inode ip);
          if negb (i_type p =? T_DIR) then in_fs (iunlockput ip) ;; in_fs end_op ;; ret (-1)
          else
            in_fs (iunlock (Some ip)) ;;
            do me <- cur_proc;
            (match p_cwd me with Some d => in_fs (iput d) | None => fault "null cwd" end) ;;
            in_fs end_op ;;
            upd_cur (with_cwd (Some ip)) ;;
            ret 0
      end
  end.

(** The argument vector of exec, from its [i]th word on; the array of the
    kernel has MAXARG entries. *)
Fixpoint fetch_argv (uargv : Z) (i : Z) (room : nat) : M kernel (option (list (list Z))) :=
  match room with
  | O => ret None
  | S room =>
      do uarg <- fetchint (u32 (uargv + 4 * i));
      match uarg with
      | None => ret None
      | Some uarg =>
          if uarg =? 0 then ret (Some [])
          else
            do a <- fetchstr (u32 uarg);
            match a with
            | None => ret None
            | Some a => do rest <- fetch_argv uargv (i + 1) room; ret (option_map (cons a) rest)
            end
      end
  end.

Definition sys_exec : M kernel Z :=
  do path <- argstr 0;
  match path with
  | None => ret (-1)
  | Some path =>
      do uargv <- argint 1;
      match uargv with
      | None => ret (-1)
      | Some uargv =>
          do argv <- fetch_argv uargv 0 MAXARG;
          match argv with
          | None => ret (-1)
          | Some argv => exec kend kdata path argv
          end
      end
  end.

Definition sys_pipe : M kernel Z :=
  do fd <- argptr 0 8;
  match fd with
  | None => ret (-1)
  | Some fd =>
      do r <- pipealloc kend;
      match r with
      | None => ret (-1)
      | Some (rf, wf) =>
          do fd0 <- fdalloc rf;
          if fd0 <? 0 then fileclose kend rf ;; fileclose kend wf ;; ret (-1)
          else
            do fd1 <- fdalloc wf;
            if fd1 <? 0 then
              clear_fd (Z.to_nat fd0) ;; fileclose kend rf ;; fileclose kend wf ;; ret (-1)
            else
              ustore32 fd fd0 ;; ustore32 (fd + 4) fd1 ;; ret 0
      end
  end.
End sysfile.
