(* ===== verification/ExIde.v ===== *)
(** * ex_ide.c and sysfs.c: disk reads for exokernel processes

    A request is a [struct buffer] that is written into the very user memory
    the sector is read to; the queue links those structures.  The drive is
    given one command at a time and delivers the sector of the last one.
    [ready] is the result of idewait(1): the drive's status had no error. *)

From S2P Require Import Prelude Monad Locks Memory CString Mmu Kalloc Vm VmSpec FsState FsLayout Log Fs Dir Console Kernel Pipe File Proc SysArg Exec.

Open Scope Z_scope.
Open Scope kernel_scope.

(** struct buffer. *)
Definition BUF_DEVICE : Z := 0.
Definition BUF_SECTOR : Z := 4.
Definition BUF_LOCATION : Z := 8.
Definition BUF_NEXT : Z := 12.

Definition upd_ide (f : exide -> exide) : M kernel unit := modify (fun s => set_ide (f (k_ide s)) s).

Definition ResetTransferCount : M kernel unit :=
  acquire LkExTransfer ;;
  upd_ide (fun x => mkExide (idequeue x) (idelast x) 0 (ide_cmd x)) ;;
  release LkExTransfer ;;
  acquire LkExBuffer ;;
  upd_ide (fun x => mkExide 0 0 (transfercount x) (ide_cmd x)) ;;
  release LkExBuffer.

Definition GetTransferCount : M kernel Z :=
  acquire LkExTransfer ;;
  do s <- get;
  release LkExTransfer ;;
  ret (transfercount (k_ide s)).

(** The command registers: 28 bits of sector, one of device. *)
Definition ideread (sector device : Z) : M kernel unit :=
  upd_ide (fun x => mkExide (idequeue x) (idelast x) (transfercount x)
                      (Some (Z.land device 1, Z.land sector 0xfffffff))).

Definition ProcessBuffer : M kernel unit :=
  do s <- get;
  let q := idequeue (k_ide s) in
  if q =? 0 then ret tt
  else
    do sector <- uload32 (q + BUF_SECTOR);
    do device <- uload32 (q + BUF_DEVICE);
    ideread sector device.

Definition ex_addbuffer (sector device location : Z) : M kernel unit :=
  ustore32 (location + BUF_DEVICE) device ;;
  ustore32 (location + BUF_SECTOR) sector ;;
  ustore32 (location + BUF_LOCATION) location ;;
  ustore32 (location + BUF_NEXT) 0 ;;
  acquire LkExBuffer ;;
  do s <- get;
  let x := k_ide s in
  (if idequeue x =? 0 then upd_ide (fun x => mkExide location location (transfercount x) (ide_cmd x))
   else
     ustore32 (idelast x + BUF_NEXT) location ;;
     upd_ide (fun x => mkExide (idequeue x) location (transfercount x) (ide_cmd x))) ;;
  release LkExBuffer.

(** insl of 128 words: the sector of the last command. *)
Definition insl_sector (location : Z) : M kernel unit :=
  do s <- get;
  match ide_cmd (k_ide s) with
  | None => fault "data port read without a command"
  | Some (dev, sec) => ustore location (dget (disk (k_fs s)) dev sec)
  end.

(** A queue that is empty is followed like any other. *)
Definition ex_ideintr (ready : bool) : M kernel unit :=
  acquire LkExBuffer ;;
  do s <- get;
  let q := idequeue (k_ide s) in
  do location <- uload32 (q + BUF_LOCATION);
  do next <- uload32 (q + BUF_NEXT);
  upd_ide (fun x => mkExide next (if next =? 0 then 0 else idelast x) (transfercount x) (ide_cmd x)) ;;
  (if ready then
     insl_sector location ;;
     acquire LkExTransfer ;;
     upd_ide (fun x => mkExide (idequeue x) (idelast x) (u32 (transfercount x + 1)) (ide_cmd x)) ;;
     release LkExTransfer
   else ret tt) ;;
  release LkExBuffer ;;
  ProcessBuffer.

(** ** sysfs.c *)

(** The path of sys_ExFileRead is used where it lies, unchecked.  A path of
    more than [path_bound] bytes is outside the model. *)
Definition path_bound : nat := Z.to_nat 4096.

Definition user_path (a : Z) : M kernel (list Z) :=
  do r <- fetchstr_loop a path_bound;
  match r with
  | Some l => ret l
  | None => fault "path longer than the model allows"
  end.

(** One request per block of the file. *)
Fixpoint queue_blocks (ip : nat) (offset location : Z) (fuel : nat) : M kernel (Z * Z) :=
  match fuel with
  | O => fault "ExFileRead: loop bound"
  | S fuel =>
      do p <- in_fs (get_inode ip);
      if offset <? i_size p then
        do b <- in_fs (bmap ip (offset / Z.of_nat BSIZE));
        ex_addbuffer b (i_dev p) location ;;
        queue_blocks ip (offset + 512) (u32 (location + 512)) fuel
      else ret (offset, location)
  end.

Definition sys_ExFileRead : M kernel Z :=
  do file <- argint 0;
  match file with
  | None => ret 0
  | Some file =>
      do location <- argint 1;
      match location with
      | None => ret 0
      | Some location =>
          do path <- user_path (u32 file);
          do ip <- knamei path;
          in_fs (ilock ip) ;;
          match ip with
          | None => fault "null inode"
          | Some ip =>
              do p <- in_fs (get_inode ip);
              do ' (offset, location) <-
                queue_blocks ip 0 (u32 location) (S (Z.to_nat (i_size p / 512 + 1)));
              do p <- in_fs (get_inode ip);
              let location := location - 512 in
              let offset := offset - 512 in
              let location := u32 (location + (i_size p - offset)) in
              let offset := offset + (i_size p - offset) in
              do b <- in_fs (bmap ip (offset / Z.of_nat BSIZE));
              ex_addbuffer b (i_dev p) location ;;
              in_fs (iunlock (Some ip)) ;;
              do p <- in_fs (get_inode ip);
              ret (i_size p)
          end
      end
  end.

Definition sys_ExReadSector : M kernel Z := ProcessBuffer ;; ret 0.
Definition sys_ExResetTransferCount : M kernel Z := ResetTransferCount ;; ret 0.
Definition sys_ExGetTransferCount : M kernel Z := GetTransferCount.
