(* ===== verification/Syscall.v ===== *)
(** * syscall.c and trap.c: system calls and interrupts

    [syscall] looks the call up by the number in eax and stores its result
    there; [trap] is entered for every system call, interrupt and exception.
    A call after which the CPU has no process did not return to its caller:
    the process has left through exit.

    usys.S, syscall.h and the loop at the end of initcode.S are here too, by
    name: a program that calls the stub of a name has the number of that name
    in eax when it traps, and syscall() then runs the handler of that name. *)

From S2P Require Import Prelude Asm Irq Monad Locks Memory CString Mmu Kalloc Vm VmSpec FsState FsLayout Log Fs Dir Printf Console Kernel Pipe File Proc SysArg SysProc Exec SysFile ExIde.

Open Scope Z_scope.
Open Scope kernel_scope.

Section syscall.
Context (kend kdata trapret forkret start_addr : Z).

(** The table, from SYS_fork = 1 on. *)
Definition syscalls : list (M kernel Z) :=
  [sys_fork kend kdata trapret forkret; sys_exit kend; sys_wait kend; sys_pipe kend; sys_read; sys_kill;
   sys_exec kend kdata; sys_fstat; sys_chdir; sys_dup; sys_getpid; sys_sbrk kend; sys_sleep; sys_uptime;
   sys_open kend; sys_write; sys_mknod; sys_unlink; sys_link; sys_mkdir; sys_close kend;
   sys_ExGetVA; sys_ExGetFrame; sys_ExGetPDE; sys_ExGetPTE start_addr; sys_ExAddPage start_addr;
   sys_ExFileRead; sys_ExRegister; sys_ExReadSector; sys_ExResetTransferCount; sys_ExGetTransferCount].

(** "%d %s: unknown sys call %d\n", the name at 64 of a scratch memory. *)
Definition unknown_call (pid : Z) (name : list Z) (num : Z) : M kernel unit :=
  in_cons (cprintf (store_bytes (fun _ => 0) 64 name)
             (Some (text "%d %s: unknown sys call %d" ++ [NEWLINE])) (fun k => nth k [pid; 64; num] 0) 64).

(** The result goes to the trap frame of the process, unless it has left. *)
Definition set_eax (v : Z) : M kernel unit :=
  do s <- get;
  match k_cur s with
  | None => ret tt
  | Some i => do p <- get_proc i; kstore32 (p_tf p + TF_EAX) v
  end.

Definition syscall : M kernel unit :=
  do p <- cur_proc;
  do eax <- kload32 (p_tf p + TF_EAX);
  let num := s32 eax in
  match (if (0 <? num) && (num <? 1 + Z.of_nat (length syscalls)) then syscalls !! Z.to_nat (num - 1) else None) with
  | Some f => do r <- f; set_eax r
  | None => unknown_call (p_pid p) (p_name p) num ;; set_eax (-1)
  end.

(** ** Interrupts *)

Definition DPL_USER : Z := 3.

(** What the hardware has to say at a trap: the CPU's number, the faulting
    address, the characters waiting at the keyboard and at the serial line,
    and the drive's status. *)
Record devices : Type := mkDevices {
  d_cpu : Z;
  d_cr2 : Z;
  d_kbd : list Z;
  d_uart : list Z;
  d_ready : bool
}.

(** ideintr with no request of the file system in the queue.  The process is
    followed without a test, and for one that is not registered the code runs
    on with a null buffer. *)
Definition ideintr_idle (ready : bool) : M kernel unit :=
  acquire LkIde ;;
  release LkIde ;;
  do p <- cur_proc;
  if p_type p =? 1 then ex_ideintr ready else fault "null buffer in ideintr".

Definition timer_tick : M kernel unit :=
  acquire LkTicks ;;
  modify (fun s => set_ticks (u32 (k_ticks s + 1)) s) ;;
  kwakeup ChTicks ;;
  release LkTicks.

Definition report (name : list Z) (fmt : string) (args : list Z) : M kernel unit :=
  in_cons (cprintf (store_bytes (fun _ => 0) 64 name) (Some (text fmt ++ [NEWLINE])) (fun k => nth k args 0) 64).

(** The default case: a fault of the kernel, or of the program. *)
Definition unexpected (tf trapno : Z) (d : devices) : M kernel unit :=
  do cs <- kload32 (tf + TF_CS);
  do eip <- kload32 (tf + TF_EIP);
  do err <- kload32 (tf + TF_ERR);
  do s <- get;
  match k_cur s with
  | Some i =>
      if Z.land cs 3 =? 0 then
        report [] "unexpected trap %d from cpu %d eip %x (cr2=0x%x)" [trapno; d_cpu d; eip; d_cr2 d] ;; panic "trap"
      else
        do p <- get_proc i;
        report (p_name p) "pid %d %s: trap %d err %d on cpu %d eip 0x%x addr 0x%x--kill proc"
          [p_pid p; 64; trapno; err; d_cpu d; eip; d_cr2 d] ;;
        upd_proc i (with_killed true)
  | None =>
      report [] "unexpected trap %d from cpu %d eip %x (cr2=0x%x)" [trapno; d_cpu d; eip; d_cr2 d] ;; panic "trap"
  end.

Definition interrupt (tf trapno : Z) (d : devices) : M kernel unit :=
  if trapno =? T_IRQ0 + IRQ_TIMER then (if d_cpu d =? 0 then timer_tick else ret tt)
  else if trapno =? T_IRQ0 + IRQ_IDE then ideintr_idle (d_ready d)
  else if trapno =? T_IRQ0 + IRQ_IDE + 1 then ret tt
  else if trapno =? T_IRQ0 + IRQ_KBD then kconsoleintr (d_kbd d)
  else if trapno =? T_IRQ0 + IRQ_COM1 then kconsoleintr (d_uart d)
  else if (trapno =? T_IRQ0 + 7) || (trapno =? T_IRQ0 + IRQ_SPURIOUS) then
    do cs <- kload32 (tf + TF_CS);
    do eip <- kload32 (tf + TF_EIP);
    report [] "cpu%d: spurious interrupt at %x:%x" [d_cpu d; u16 cs; eip]
  else unexpected tf trapno d.

(** A killed process does not go back to user space. *)
Definition exit_if_killed (tf : Z) : M kernel unit :=
  do s <- get;
  match k_cur s with
  | None => ret tt
  | Some i =>
      do p <- get_proc i;
      do cs <- kload32 (tf + TF_CS);
      if p_killed p && (Z.land cs 3 =? DPL_USER) then exit_proc kend else ret tt
  end.

Definition trap_syscall (tf : Z) : M kernel unit :=
  do p <- cur_proc;
  if p_killed p then exit_proc kend
  else
    upd_cur (with_tf tf) ;;
    syscall ;;
    do s <- get;
    match k_cur s with
    | None => ret tt
    | Some i => do p <- get_proc i; if p_killed p then exit_proc kend else ret tt
    end.

(** trap; the result says that the process has yielded and comes back at
    [trap_resume] when it is chosen again.  The local APIC is not part of the
    kernel state, so the lapiceoi() of the interrupts is in [Apic.v] only. *)
Definition trap (tf : Z) (d : devices) : M kernel bool :=
  do trapno <- kload32 (tf + TF_TRAPNO);
  if trapno =? T_SYSCALL then trap_syscall tf ;; ret false
  else
    interrupt tf trapno d ;;
    exit_if_killed tf ;;
    do s <- get;
    match k_cur s with
    | None => ret false
    | Some i =>
        do p <- get_proc i;
        if bool_decide (p_state p = RUNNING) && (trapno =? T_IRQ0 + IRQ_TIMER) then yield ;; ret true
        else exit_if_killed tf ;; ret false
    end.

Definition trap_resume (tf : Z) : M kernel unit := release LkPtable ;; exit_if_killed tf.
End syscall.

(** ** usys.S and syscall.h *)

(** syscall.h. *)
Definition SYS : list (string * Z) :=
  [("fork", 1); ("exit", 2); ("wait", 3); ("pipe", 4); ("read", 5); ("kill", 6); ("exec", 7); ("fstat", 8); ("chdir", 9);
   ("dup", 10); ("getpid", 11); ("sbrk", 12); ("sleep", 13); ("uptime", 14); ("open", 15); ("write", 16); ("mknod", 17);
   ("unlink", 18); ("link", 19); ("mkdir", 20); ("close", 21); ("ExGetVA", 22); ("ExGetFrame", 23); ("ExGetPDE", 24);
   ("ExGetPTE", 25); ("ExAddPage", 26); ("ExFileRead", 27); ("ExRegister", 28); ("ExReadSector", 29);
   ("ExResetTransferCount", 30); ("ExGetTransferCount", 31)]%string.

(** The lines of usys.S. *)
Definition usys : list string :=
  ["fork"; "exit"; "wait"; "pipe"; "read"; "write"; "close"; "kill"; "exec"; "open"; "mknod"; "unlink"; "fstat"; "link";
   "mkdir"; "chdir"; "dup"; "getpid"; "sbrk"; "sleep"; "uptime"; "ExGetVA"; "ExGetFrame"; "ExGetPDE"; "ExGetPTE";
   "ExAddPage"; "ExFileRead"; "ExRegister"; "ExReadSector"; "ExResetTransferCount"; "ExGetTransferCount"]%string.

Fixpoint sysno (name : string) (l : list (string * Z)) : option Z :=
  match l with
  | [] => None
  | (n, v) :: l => if decide (n = name) then Some v else sysno name l
  end.

(** [SYSCALL(name)] up to its int. *)
Definition SYSCALL (name : string) (s : Asm.cpu) : option Asm.cpu := (fun num => stub num s) <$> sysno name SYS.

(** The loop of initcode.S behind the exec: one turn, up to its int. *)
Definition initcode_exit (s : Asm.cpu) : Asm.cpu := Asm.exec [MovI 2 EAX] s.

Lemma sysno_at name l num : sysno name l = Some num -> exists i, l !! i = Some (name, num).
Proof.
  induction l as [|[n v] l IH]; cbn [sysno]; [done|]. destruct (decide (n = name)) as [->|]; [intros [= ->]; by exists 0%nat|].
  intros E. destruct (IH E) as [i Hi]. by exists (S i).
Qed.

Lemma usys_numbered name : name ∈ usys -> exists num, sysno name SYS = Some num.
Proof.
  assert (Hb : forallb (fun n => match sysno n SYS with Some _ => true | None => false end) usys = true) by reflexivity.
  intros Hn. rewrite forallb_forall in Hb. specialize (Hb name). rewrite <- list_elem_of_In in Hb. specialize (Hb Hn).
  destruct (sysno name SYS) as [num|]; [by exists num|done].
Qed.

Section by_name.
Context (kend kdata trapret forkret start_addr : Z).

(** The initialisers [[SYS_name] sys_name] of the table in syscall.c. *)
Definition handlers : list (string * M kernel Z) :=
  [("fork", sys_fork kend kdata trapret forkret); ("exit", sys_exit kend); ("wait", sys_wait kend); ("pipe", sys_pipe kend); ("read", sys_read);
   ("kill", sys_kill); ("exec", sys_exec kend kdata); ("fstat", sys_fstat); ("chdir", sys_chdir); ("dup", sys_dup); ("getpid", sys_getpid);
   ("sbrk", sys_sbrk kend); ("sleep", sys_sleep); ("uptime", sys_uptime); ("open", sys_open kend); ("write", sys_write); ("mknod", sys_mknod);
   ("unlink", sys_unlink); ("link", sys_link); ("mkdir", sys_mkdir); ("close", sys_close kend); ("ExGetVA", sys_ExGetVA);
   ("ExGetFrame", sys_ExGetFrame); ("ExGetPDE", sys_ExGetPDE); ("ExGetPTE", sys_ExGetPTE start_addr); ("ExAddPage", sys_ExAddPage start_addr);
   ("ExFileRead", sys_ExFileRead); ("ExRegister", sys_ExRegister); ("ExReadSector", sys_ExReadSector);
   ("ExResetTransferCount", sys_ExResetTransferCount); ("ExGetTransferCount", sys_ExGetTransferCount)]%string.

Definition syscall_ := syscall kend kdata trapret forkret start_addr.

(** The table of Syscall has each handler at the number of its name. *)
Lemma table_by_name : Forall2 (fun h n => fst h = fst n /\ syscalls kend kdata trapret forkret start_addr !! Z.to_nat (snd n - 1) = Some (snd h) /\ 0 < snd n < 32) handlers SYS.
Proof. unfold handlers, SYS. repeat (apply List.Forall2_cons; [by repeat split|]). apply List.Forall2_nil. Qed.

Lemma syscall_dispatch p num f s : cur_proc s = Ok p s -> kload32 (p_tf p + TF_EAX) s = Ok num s -> 0 < num < 32 ->
  syscalls kend kdata trapret forkret start_addr !! Z.to_nat (num - 1) = Some f -> syscall_ s = (do r <- f; set_eax r) s.
Proof.
  intros Hp He Hn Hf. unfold syscall_, syscall, bind at 1 2. rewrite Hp. cbv beta. rewrite He, s32_small by lia.
  change (1 + Z.of_nat (length (syscalls kend kdata trapret forkret start_addr))) with 32. zif; [|lia]. by rewrite Hf.
Qed.

(** A stub reaches the handler of its name: it traps with a number in eax for
    which syscall() runs this handler and stores its result in eax. *)
Theorem stub_reaches_handler name c : name ∈ usys ->
  exists num f, SYSCALL name c = Some (stub num c) /\ gr (stub num c) EAX = num /\ (name, f) ∈ handlers /\
    forall p s, cur_proc s = Ok p s -> kload32 (p_tf p + TF_EAX) s = Ok num s -> syscall_ s = (do r <- f; set_eax r) s.
Proof.
  intros Hn. destruct (usys_numbered name Hn) as [num En]. destruct (sysno_at _ _ _ En) as [i Hi].
  destruct (Forall2_lookup_r _ _ _ _ _ table_by_name Hi) as ([n f] & Hh & Hname & Hf & Hr). cbn [fst snd] in *. subst n.
  exists num, f. split; [unfold SYSCALL; by rewrite En|]. split; [done|]. split; [by eapply list_elem_of_lookup_2|].
  intros p s Hp He. by eapply syscall_dispatch.
Qed.
End by_name.
