(* ===== verification/FileRefs.v ===== *)
(** * Reference counts of open files

    The count in an entry of the file table is the number of descriptors, over
    all processes, that name the entry, and processes that do not run have no
    descriptors.  The operations on files move a reference between the count
    and the tables; a system call as a whole keeps the balance. *)

From S2P Require Import Prelude Monad Locks Memory CString Mmu Kalloc Vm VmSpec FsState FsLayout Log Fs Dir Console Kernel KernelSpec Pipe File Proc SysArg SysProc Exec ExecSpec SysFile ExIde Syscall.

Open Scope Z_scope.
Open Scope kernel_scope.

(** ** Counting references *)

Definition names (i : nat) (o : option nat) : Z := if decide (o = Some i) then 1 else 0.
Definition cnt (i : nat) (l : list (option nat)) : Z := foldr (fun o n => names i o + n) 0 l.
Definition refs (i : nat) (ps : list proc) : Z := foldr (fun p n => cnt i (p_ofile p) + n) 0 ps.
Definition ref_of (fs : list file) (i : nat) : Z := default 0 (f_ref <$> fs !! i).
Definition balance (s : kernel) (i : nat) : Z := ref_of (k_files s) i - refs i (k_procs s).

Lemma cnt_insert i l k o o' :
  l !! k = Some o -> cnt i (<[k := o']> l) = cnt i l - names i o + names i o'.
Proof.
  revert k. induction l as [|x l IH]; intros [|k] H; try done; simpl in *.
  - injection H as ->. lia.
  - rewrite (IH k) by done. lia.
Qed.

Lemma refs_insert i ps j p p' :
  ps !! j = Some p -> refs i (<[j := p']> ps) = refs i ps - cnt i (p_ofile p) + cnt i (p_ofile p').
Proof.
  revert j. induction ps as [|x ps IH]; intros [|j] H; try done; simpl in *.
  - injection H as ->. lia.
  - rewrite (IH j) by done. lia.
Qed.

Lemma refs_same i ps ps' : p_ofile <$> ps' = p_ofile <$> ps -> refs i ps' = refs i ps.
Proof.
  revert ps'. induction ps as [|p ps IH]; intros [|p' ps'] H; try done; simpl in *.
  injection H as Hp Hps. by rewrite Hp, (IH ps').
Qed.

Lemma alter_lookup {A} (f : A -> A) j (l : list A) x : l !! j = Some x -> alter f j l = <[j := f x]> l.
Proof.
  revert j. induction l as [|y l IH]; intros [|j] H; try done; simpl in *.
  - by injection H as ->.
  - f_equal. by apply IH.
Qed.

Lemma ref_of_alter fs j g i f :
  fs !! j = Some f ->
  ref_of (alter g j fs) i = ref_of fs i + (if decide (i = j) then f_ref (g f) - f_ref f else 0).
Proof.
  intros H. unfold ref_of. destruct (decide (i = j)) as [->|Hne].
  - rewrite list_lookup_alter_eq, H. simpl. lia.
  - rewrite list_lookup_alter_ne by congruence. lia.
Qed.

(** ** Moving references *)

Definition idle (p : proc) : Prop := p_state p = UNUSED \/ p_state p = EMBRYO \/ p_state p = ZOMBIE.

(** Outside [X], processes without descriptors stay so. *)
Definition moved (X : list nat) (d : nat -> Z) (s s' : kernel) : Prop :=
  k_cur s' = k_cur s /\ length (k_procs s') = length (k_procs s) /\
  (forall i, balance s' i = balance s i + d i) /\
  (forall j p p', k_procs s !! j = Some p -> k_procs s' !! j = Some p' ->
     length (p_ofile p') = length (p_ofile p) /\ (j ∉ X -> idle p' -> idle p /\ p_ofile p' = p_ofile p)).

Definition none : nat -> Z := fun _ => 0.
Definition at_file (f : nat) (v : Z) : nat -> Z := fun i => if decide (i = f) then v else 0.

(** A process that is not idle is current. *)
Definition busy (s : kernel) : Prop := exists i p, runs i p s /\ ~ idle p.

(** Steps that touch neither counts nor descriptors. *)
Definition calm (s s' : kernel) : Prop :=
  k_cur s' = k_cur s /\ f_ref <$> k_files s' = f_ref <$> k_files s /\
  Forall2 (fun p p' => p_ofile p' = p_ofile p /\ (idle p' -> idle p)) (k_procs s) (k_procs s').

#[export] Instance calm_preorder : PreOrder calm.
Proof.
  split.
  - intros s. split; [done|]. split; [done|]. apply Forall_Forall2_diag, Forall_true. done.
  - intros s1 s2 s3 (H1 & H2 & H3) (H1' & H2' & H3'). split; [congruence|]. split; [congruence|].
    revert H3 H3'. generalize (k_procs s1) (k_procs s2) (k_procs s3). clear.
    intros ps1 ps2 ps3 H. revert ps3. induction H as [|p q ps qs [E I] H IH]; intros ps3 H3; inv H3; [done|].
    constructor; [|by apply IH]. destruct H2 as [E' I']. split; [congruence|auto].
Qed.

Lemma ref_of_same fs fs' i : f_ref <$> fs' = f_ref <$> fs -> ref_of fs' i = ref_of fs i.
Proof.
  intros H. unfold ref_of. rewrite <- !list_lookup_fmap. by rewrite H.
Qed.

Lemma calm_moved X s s' : calm s s' -> moved X none s s'.
Proof.
  intros (Hc & Hf & Hp). split; [done|]. split; [by rewrite <- (Forall2_length _ _ _ Hp)|]. split.
  - intros i. unfold balance, none. rewrite (ref_of_same _ _ i Hf), (refs_same i (k_procs s) (k_procs s')); [lia|].
    clear -Hp. induction Hp as [|p p' ps ps' [E _] _ IH]; [done|]. by rewrite !fmap_cons, E, IH.
  - intros j p p' H1 H2. destruct (Forall2_lookup_lr _ _ _ j p p' Hp H1 H2) as [E ?]. rewrite E. auto.
Qed.

Lemma moved_trans X d e s1 s2 s3 :
  moved X d s1 s2 -> moved X e s2 s3 -> moved X (fun i => d i + e i) s1 s3.
Proof.
  intros (H1 & L1 & B1 & I1) (H2 & L2 & B2 & I2). split; [congruence|]. split; [congruence|]. split.
  - intros i. rewrite B2, B1. lia.
  - intros j p p' Hp Hp'. assert (is_Some (k_procs s2 !! j)) as [q Hq].
    { apply lookup_lt_is_Some. rewrite L1. by eapply lookup_lt_Some. }
    destruct (I2 j q p') as [E2 G2]; [done..|]. destruct (I1 j p q) as [E1 G1]; [done..|].
    split; [congruence|]. intros Hj Hi. destruct (G2 Hj Hi) as [Hiq E]. destruct (G1 Hj Hiq) as [? E'].
    split; [done|congruence].
Qed.

Lemma moved_ext X d e s s' : (forall i, d i = e i) -> moved X d s s' -> moved X e s s'.
Proof. intros H (? & ? & B & ?). split_and!; try done. intros i. by rewrite B, H. Qed.

Lemma moved_weaken X d s s' : moved [] d s s' -> moved X d s s'.
Proof.
  intros (? & ? & ? & I). split_and!; try done. intros j p p' Hp Hp'.
  destruct (I j p p' Hp Hp') as [? G]. split; [done|]. intros _. apply G, not_elem_of_nil.
Qed.

Lemma busy_moved_but X d s s' :
  moved X d s s' -> (forall i, k_cur s = Some i -> i ∉ X) -> busy s -> busy s'.
Proof.
  intros (Hc & L & _ & I) HX (i & p & [Hcur Hp] & Hi).
  assert (is_Some (k_procs s' !! i)) as [p' Hp'].
  { apply lookup_lt_is_Some. rewrite L. by eapply lookup_lt_Some. }
  exists i, p'. split; [split; [congruence|done]|]. intros Hi'. apply Hi.
  destruct (I i p p' Hp Hp') as [_ G]. apply G; auto.
Qed.

Lemma busy_moved d s s' : moved [] d s s' -> busy s -> busy s'.
Proof. intros H. eapply busy_moved_but; [exact H|]. intros i _. apply not_elem_of_nil. Qed.

(** ** Calm programs *)

Definition calmly {A} (f : M kernel A) : Prop := forall s a s', f s = Ok a s' -> calm s s'.

Lemma quiet_calm s s' : quiet s s' -> calm s s'.
Proof.
  intros (Hc & Hf & _ & _ & _ & Hp). split; [done|]. split; [by rewrite Hf|].
  eapply Forall2_impl; [exact Hp|]. intros p p' [->|[Hs ->]]; [done|]. split; [done|].
  by intros [?|[?|?]].
Qed.

Lemma quietly_calmly {A} (f : M kernel A) : quietly f -> calmly f.
Proof. intros H s a s' E. by eapply quiet_calm, H. Qed.

Lemma calmly_bind {A B} (m : M kernel A) (k : A -> M kernel B) :
  calmly m -> (forall a, calmly (k a)) -> calmly (bind m k).
Proof.
  intros Hm Hk s b s'. unfold bind. destruct (m s) as [a s1| | |] eqn:E; try done.
  intros E'. transitivity s1; [by eapply Hm|by eapply Hk].
Qed.

Lemma calm_same s s' :
  k_cur s' = k_cur s -> k_files s' = k_files s -> k_procs s' = k_procs s -> calm s s'.
Proof.
  intros ? E E'. unfold calm. rewrite E, E'. split; [done|]. split; [done|].
  apply Forall_Forall2_diag, Forall_true. done.
Qed.

Lemma calmly_modify f :
  (forall s, k_cur (f s) = k_cur s /\ k_files (f s) = k_files s /\ k_procs (f s) = k_procs s) ->
  calmly (modify f).
Proof. intros H s a s' [= _ <-]. destruct (H s) as (? & ? & ?). by apply calm_same. Qed.

Definition harmless (f : proc -> proc) : Prop := forall p, p_ofile (f p) = p_ofile p /\ (idle (f p) -> idle p).

Lemma calmly_upd_proc i f : harmless f -> calmly (upd_proc i f).
Proof.
  intros Hf s a s' [= _ <-]. split; [done|]. split; [done|]. simpl.
  generalize (k_procs s). clear -Hf. intros ps. revert i. induction ps as [|p ps IH]; intros i; [by destruct i|].
  destruct i as [|i]; simpl; constructor; try done; [apply Forall_Forall2_diag, Forall_true; done|apply IH].
Qed.

Lemma calmly_upd_cur f : harmless f -> calmly (upd_cur f).
Proof. intros Hf. apply calmly_bind; [apply quietly_calmly, quietly_cur|]. intros i. by apply calmly_upd_proc. Qed.

Lemma calmly_get_file i : calmly (get_file i).
Proof. intros s f s'. unfold get_file. destruct (k_files s !! i); [by intros [= _ <-]|done]. Qed.

Lemma calmly_upd_file i g : (forall f, f_ref (g f) = f_ref f) -> calmly (upd_file i g).
Proof.
  intros Hg s a s' [= _ <-]. split; [done|]. split; [|apply Forall_Forall2_diag, Forall_true; done].
  simpl. apply list_eq. intros j. rewrite !list_lookup_fmap.
  destruct (decide (i = j)) as [<-|]; [|by rewrite list_lookup_alter_ne].
  rewrite list_lookup_alter_eq. destruct (k_files s !! i); [|done]. simpl. by rewrite Hg.
Qed.

Lemma calmly_get_pipe p : calmly (get_pipe p).
Proof. intros s v s'. unfold get_pipe. destruct (k_pipes s !! p); [by intros [= _ <-]|done]. Qed.

(** Field updates that leave the descriptors alone. *)
Ltac solve_harmless := intros ?; split; [done|]; first [done | intros [?|[?|?]]; done].

Create HintDb calm.
#[export] Hint Resolve calmly_get_file calmly_get_pipe : calm.
#[export] Hint Extern 1 (calmly (modify _)) => apply calmly_modify; done : calm.
#[export] Hint Extern 1 (calmly (put_pipe _ _)) => apply calmly_modify; done : calm.
#[export] Hint Extern 1 (calmly (upd_ide _)) => apply calmly_modify; done : calm.
#[export] Hint Extern 1 (calmly (upd_file _ _)) => apply calmly_upd_file; done : calm.
#[export] Hint Extern 1 (calmly (upd_proc _ _)) => apply calmly_upd_proc; solve_harmless : calm.
#[export] Hint Extern 1 (calmly (upd_cur _)) => apply calmly_upd_cur; solve_harmless : calm.
#[export] Hint Extern 2 (calmly _) => solve [apply quietly_calmly; auto with quiet nocore] : calm.

Ltac calm_step :=
  match goal with
  | |- calmly (bind _ _) => apply calmly_bind; [|intros ?]
  | |- calmly (match ?x with _ => _ end) => destruct x
  | |- calmly _ => solve [auto with calm]
  end.
Ltac solve_calm := repeat calm_step.

Lemma calmly_pipeclose kend p w : calmly (pipeclose kend p w).
Proof. unfold pipeclose. solve_calm. Qed.

Lemma calmly_pipewrite p bs n : calmly (pipewrite p bs n).
Proof.
  unfold pipewrite. calm_step; [solve_calm|]. generalize (take (Z.to_nat n) bs). clear bs.
  intros bs. induction bs as [|b bs IH]; cbn [pipewrite_loop]; solve_calm.
Qed.

Lemma calmly_piperead p n : calmly (piperead p n).
Proof.
  assert (forall k, calmly (piperead_loop p k)).
  { intros k. induction k as [|k IH]; cbn [piperead_loop]; solve_calm. }
  unfold piperead. solve_calm.
Qed.

#[export] Hint Resolve calmly_pipeclose calmly_pipewrite calmly_piperead : calm.

Lemma calmly_fileread i n : calmly (fileread i n).
Proof. unfold fileread. solve_calm. Qed.

Lemma quietly_kwritei ip src off n : quietly (kwritei ip src off n).
Proof. unfold kwritei. solve_quiet. Qed.
#[export] Hint Resolve quietly_kwritei : quiet.

Lemma calmly_filewrite i src n : calmly (filewrite i src n).
Proof.
  unfold filewrite. calm_step; [solve_calm|]. calm_step; [solve_calm|]. calm_step; [solve_calm..|].
  generalize (S (Z.to_nat (n / FILEWRITE_MAX + 1))) 0 src. intros fuel.
  induction fuel as [|fuel IH]; intros k l; cbn [filewrite_loop]; solve_calm.
Qed.

#[export] Hint Resolve calmly_fileread calmly_filewrite : calm.

(** ** The system calls that do not touch descriptors *)

Lemma quietly_uload32 va : quietly (uload32 va).
Proof. unfold uload32. solve_quiet. Qed.
Lemma quietly_ustore32 va v : quietly (ustore32 va v).
Proof. unfold ustore32. solve_quiet. Qed.
#[export] Hint Resolve quietly_uload32 quietly_ustore32 : quiet.

Lemma quietly_fetchint a : quietly (fetchint a).
Proof. unfold fetchint. solve_quiet. Qed.

Lemma quietly_fetchstr_loop a n : quietly (fetchstr_loop a n).
Proof. revert a. induction n as [|n IH]; intros a; cbn [fetchstr_loop]; solve_quiet. Qed.
#[export] Hint Resolve quietly_fetchint quietly_fetchstr_loop : quiet.

Lemma quietly_fetchstr a : quietly (fetchstr a).
Proof. unfold fetchstr. solve_quiet. Qed.

Lemma quietly_argint n : quietly (argint n).
Proof. unfold argint. solve_quiet. Qed.
#[export] Hint Resolve quietly_fetchstr quietly_argint : quiet.

Lemma quietly_argptr n size : quietly (argptr n size).
Proof. unfold argptr. solve_quiet. Qed.

Lemma quietly_argstr n : quietly (argstr n).
Proof. unfold argstr. solve_quiet. Qed.

Lemma quietly_argfd n : quietly (argfd n).
Proof. unfold argfd. solve_quiet. Qed.

Lemma quietly_message m : quietly (message m).
Proof. apply quietly_in_cons. Qed.
#[export] Hint Resolve quietly_argptr quietly_argstr quietly_argfd quietly_message : quiet.

Lemma quietly_io_args : quietly io_args.
Proof. unfold io_args. solve_quiet. Qed.

Lemma quietly_getpgtab start_addr pgdir va alloc : quietly (getpgtab start_addr pgdir va alloc).
Proof. unfold getpgtab, kmemset. solve_quiet. Qed.

Lemma quietly_count_frames r n : quietly (count_frames r n).
Proof. revert r. induction n as [|n IH]; intros r; cbn [count_frames]; solve_quiet. Qed.

Lemma quietly_fetch_argv uargv i room : quietly (fetch_argv uargv i room).
Proof. revert i. induction room as [|room IH]; intros i; cbn [fetch_argv]; solve_quiet. Qed.
#[export] Hint Resolve quietly_io_args quietly_getpgtab quietly_count_frames quietly_fetch_argv : quiet.

Lemma calmly_growproc kend n : calmly (growproc kend n).
Proof. unfold growproc. solve_calm. Qed.

Lemma calmly_kill pid : calmly (kill pid).
Proof. unfold kill. solve_calm. Qed.

Lemma calmly_exec kend kdata path argv : calmly (exec kend kdata path argv).
Proof. unfold exec, exec_stack. solve_calm. Qed.

Lemma calmly_filestat i : calmly (filestat i).
Proof. unfold filestat. solve_calm. Qed.

Lemma calmly_ex_addbuffer sector device location : calmly (ex_addbuffer sector device location).
Proof. unfold ex_addbuffer. solve_calm. Qed.
#[export] Hint Resolve calmly_growproc calmly_kill calmly_exec calmly_filestat calmly_ex_addbuffer : calm.

Lemma calmly_queue_blocks ip off loc fuel : calmly (queue_blocks ip off loc fuel).
Proof. revert off loc. induction fuel as [|fuel IH]; intros off loc; cbn [queue_blocks]; solve_calm. Qed.

Lemma calmly_ProcessBuffer : calmly ProcessBuffer.
Proof. unfold ProcessBuffer, ideread. solve_calm. Qed.
#[export] Hint Resolve calmly_queue_blocks calmly_ProcessBuffer : calm.

(** The table of system calls without those that open, close or copy
    descriptors and without wait. *)
Definition calm_calls (kend kdata start_addr : Z) : list (M kernel Z) :=
  [sys_read; sys_kill; sys_exec kend kdata; sys_fstat; sys_chdir; sys_getpid; sys_sbrk kend; sys_sleep;
   sys_uptime; sys_write; sys_mknod; sys_unlink; sys_link; sys_mkdir; sys_ExGetVA; sys_ExGetFrame;
   sys_ExGetPDE; sys_ExGetPTE start_addr; sys_ExAddPage start_addr; sys_ExFileRead; sys_ExRegister;
   sys_ExReadSector; sys_ExResetTransferCount; sys_ExGetTransferCount].

Lemma calm_calls_calm kend kdata start_addr f : f ∈ calm_calls kend kdata start_addr -> calmly f.
Proof.
  intros Hf. unfold calm_calls in Hf.
  repeat (apply elem_of_cons in Hf as [->|Hf]; [clear|]); [..|by apply not_elem_of_nil in Hf].
  all: unfold sys_read, sys_kill, sys_exec, sys_fstat, store_stat, sys_chdir, sys_getpid, sys_sbrk, sys_sleep,
    sys_sleep_wait, sys_uptime, sys_write, sys_mknod, sys_unlink, sys_link, sys_mkdir, made, sys_ExGetVA,
    sys_ExGetFrame, sys_ExGetPDE, sys_ExGetPTE, sys_ExAddPage, sys_ExFileRead, user_path, sys_ExRegister,
    SetExProcess, sys_ExReadSector, sys_ExResetTransferCount, ResetTransferCount, sys_ExGetTransferCount,
    GetTransferCount; solve_calm.
Qed.

(** ** The operations that move references *)

Lemma bind_inv {A B} (m : M kernel A) (k : A -> M kernel B) s b s' :
  bind m k s = Ok b s' -> exists a s1, m s = Ok a s1 /\ k a s1 = Ok b s'.
Proof. unfold bind. destruct (m s) as [a s1| | |]; try done. eauto. Qed.

Definition moves {A} (m : M kernel A) (d : A -> nat -> Z) : Prop :=
  forall s a s', busy s -> m s = Ok a s' -> moved [] (d a) s s'.

Lemma moves_bind {A B} (m : M kernel A) (k : A -> M kernel B) d e :
  moves m d -> (forall a, moves (k a) (fun b i => e b i - d a i)) -> moves (bind m k) e.
Proof.
  intros Hm Hk s b s' Hb E. apply bind_inv in E as (a & s1 & E1 & E2).
  pose proof (Hm _ _ _ Hb E1) as M1. pose proof (Hk a _ _ _ (busy_moved _ _ _ M1 Hb) E2) as M2.
  eapply moved_ext, (moved_trans _ _ _ _ _ _ M1 M2). intros i. simpl. lia.
Qed.

Lemma moves_calm {A} (m : M kernel A) d : calmly m -> (forall a i, d a i = 0) -> moves m d.
Proof.
  intros Hm Hd s a s' _ E. eapply moved_ext, (calm_moved [] _ _ (Hm _ _ _ E)).
  intros i. by rewrite Hd.
Qed.

Lemma moves_ext {A} (m : M kernel A) d e : (forall a i, d a i = e a i) -> moves m d -> moves m e.
Proof. intros H Hm s a s' Hb E. by eapply moved_ext, Hm. Qed.

(** A calm step in front. *)
Lemma moves_then {A B} (m : M kernel A) (k : A -> M kernel B) e :
  calmly m -> (forall a, moves (k a) e) -> moves (bind m k) e.
Proof.
  intros Hm Hk. apply (moves_bind _ _ (fun _ => none)); [by apply moves_calm|].
  intros a. eapply moves_ext, Hk. intros b i. unfold none. lia.
Qed.

Lemma moved_upd_file s j g f :
  k_files s !! j = Some f ->
  moved [] (at_file j (f_ref (g f) - f_ref f)) s (set_files (alter g j (k_files s)) s).
Proof.
  intros Hf. split; [done|]. split; [done|]. split.
  - intros i. unfold balance, at_file. simpl. rewrite (ref_of_alter _ _ _ _ f) by done.
    destruct (decide (i = j)); lia.
  - intros k p p' Hp Hp'. simpl in Hp'. rewrite Hp in Hp'. injection Hp' as <-. done.
Qed.

Lemma filealloc_moves :
  moves filealloc (fun r => match r with Some f => at_file f 1 | None => none end).
Proof.
  apply moves_then; [auto with calm|]. intros _ s a s' Hb E. unfold bind at 1, get at 1 in E. cbn in E.
  destruct (list_find _ (k_files s)) as [[i f]|] eqn:Ef.
  - apply list_find_Some in Ef as (Hf & Hr & _).
    apply bind_inv in E as ([] & s1 & [= <-] & E). apply bind_inv in E as ([] & s2 & E2 & [= <- <-]).
    eapply moved_ext, moved_trans.
    3:{ eapply calm_moved, (quietly_calmly _ (quietly_release _)), E2. }
    2:{ by apply (moved_upd_file s i (with_fref 1) f). }
    intros j. unfold at_file, none. simpl. rewrite Hr. destruct (decide (j = i)); lia.
  - apply bind_inv in E as ([] & s2 & E2 & [= <- <-]).
    eapply calm_moved, (quietly_calmly _ (quietly_release _)), E2.
Qed.

Lemma get_file_inv i s f s' : get_file i s = Ok f s' -> s' = s /\ k_files s !! i = Some f.
Proof. unfold get_file. destruct (k_files s !! i); [|done]. by intros [= <- <-]. Qed.

(** An update of the count of a file, then calm steps. *)
Lemma moved_upd_then {B} s i g f (k : M kernel B) b s' :
  k_files s !! i = Some f -> calmly k -> (upd_file i g ;; k) s = Ok b s' ->
  moved [] (at_file i (f_ref (g f) - f_ref f)) s s'.
Proof.
  intros Hf Hk E. apply bind_inv in E as ([] & s1 & [= <-] & E).
  eapply moved_ext, moved_trans; [|by apply (moved_upd_file s i g f)|by eapply calm_moved, Hk].
  intros j. unfold none. lia.
Qed.

Lemma filedup_moves f : moves (filedup f) (fun _ => at_file f 1).
Proof.
  apply moves_then; [auto with calm|]. intros _ s a s' Hb E.
  apply bind_inv in E as (x & s1 & E1 & E). apply get_file_inv in E1 as [-> Hf].
  destruct (f_ref x <? 1); [done|].
  eapply moved_ext, (moved_upd_then s f _ x); [|done| |exact E]; [|solve_calm].
  intros i. simpl. f_equal. lia.
Qed.

Lemma fileclose_moves kend f : moves (fileclose kend f) (fun _ => at_file f (-1)).
Proof.
  apply moves_then; [auto with calm|]. intros _ s a s' Hb E.
  apply bind_inv in E as (x & s1 & E1 & E). apply get_file_inv in E1 as [-> Hf].
  destruct (Z.ltb_spec (f_ref x) 1); [done|]. destruct (Z.ltb_spec 0 (f_ref x - 1)).
  - eapply moved_ext, (moved_upd_then s f _ x); [|done| |exact E]; [|solve_calm].
    intros i. simpl. f_equal. lia.
  - eapply moved_ext, (moved_upd_then s f _ x); [|done| |exact E]; [|solve_calm].
    intros i. simpl. f_equal. lia.
Qed.

(** Changing one descriptor. *)
Lemma moved_set_fd X s i p fd o o' :
  k_procs s !! i = Some p -> i ∈ X \/ ~ idle p -> p_ofile p !! fd = Some o ->
  moved X (fun j => names j o - names j o') s
    (set_procs (alter (fun p => with_ofile (<[fd := o']> (p_ofile p)) p) i (k_procs s)) s).
Proof.
  intros Hp Hi Ho. split; [done|]. split; [apply length_alter|]. split.
  - intros j. unfold balance. simpl. rewrite (alter_lookup _ _ _ p), (refs_insert _ _ _ p) by done. simpl.
    rewrite (cnt_insert _ _ _ o) by done. lia.
  - intros k q q' Hq Hq'. simpl in Hq'. destruct (decide (i = k)) as [<-|Hne].
    + rewrite list_lookup_alter_eq, Hp in Hq'. injection Hq' as <-. rewrite Hp in Hq. injection Hq as <-.
      split; [apply length_insert|]. intros HX Hid. by destruct Hi.
    + rewrite list_lookup_alter_ne, Hq in Hq' by done. by injection Hq' as <-.
Qed.

Lemma names_none_some j f : names j None - names j (Some f) = at_file f (-1) j.
Proof.
  unfold names, at_file. rewrite decide_False by done.
  destruct (decide (j = f)) as [->|]; [by rewrite decide_True|by rewrite decide_False by congruence].
Qed.

Lemma names_some_none j f : names j (Some f) - names j None = at_file f 1 j.
Proof. pose proof (names_none_some j f) as H. unfold at_file in *. destruct (decide (j = f)); lia. Qed.

Lemma cur_proc_inv s p s' : cur_proc s = Ok p s' -> s' = s /\ exists i, runs i p s.
Proof.
  unfold cur_proc, cur, bind, get_proc. destruct (k_cur s) as [i|] eqn:Hc; [|done].
  destruct (k_procs s !! i) as [q|] eqn:Hp; [|done]. intros [= <- <-]. split; [done|]. by exists i.
Qed.

Lemma busy_runs s i p : busy s -> runs i p s -> ~ idle p.
Proof. intros (j & q & [Hc Hq] & Hi) [Hc' Hp]. rewrite Hc in Hc'. injection Hc' as ->. by simplify_eq. Qed.

Lemma fdalloc_moves f : moves (fdalloc f) (fun fd => if fd <? 0 then none else at_file f (-1)).
Proof.
  intros s a s' Hb E. unfold fdalloc in E. apply bind_inv in E as (p & s1 & E1 & E).
  apply cur_proc_inv in E1 as (-> & i & Hr).
  destruct (list_find _ (p_ofile p)) as [[fd o]|] eqn:Ef.
  - apply list_find_Some in Ef as (Ho & -> & _). apply bind_inv in E as ([] & s1 & E & [= <- <-]).
    rewrite (upd_cur_ok i p) in E by done. injection E as <-.
    destruct (Z.ltb_spec (Z.of_nat fd) 0); [lia|].
    eapply moved_ext, (moved_set_fd [] s i p fd None (Some f)); [|apply Hr|right; by eapply busy_runs|done].
    intros j. apply names_none_some.
  - injection E as <- <-. by apply calm_moved.
Qed.

(** Closing a descriptor of which it is known what it names. *)
Lemma clear_fd_moved s fd f i p s' :
  busy s -> runs i p s -> p_ofile p !! fd = Some (Some f) -> clear_fd fd s = Ok tt s' ->
  moved [] (at_file f 1) s s'.
Proof.
  intros Hb Hr Ho E. unfold clear_fd in E. rewrite (upd_cur_ok i p) in E by done. injection E as <-.
  eapply moved_ext, (moved_set_fd [] s i p fd (Some f) None); [|apply Hr|right; by eapply busy_runs|done].
  intros j. apply names_some_none.
Qed.

Lemma argfd_slot n s fd f s' :
  argfd n s = Ok (Some (fd, f)) s' -> exists i p, runs i p s' /\ p_ofile p !! fd = Some (Some f).
Proof.
  intros E. unfold argfd in E. apply bind_inv in E as ([v|] & s1 & _ & E); [|done].
  destruct ((v <? 0) || (Z.of_nat NOFILE <=? v)); [done|].
  apply bind_inv in E as (p & s2 & E2 & E). apply cur_proc_inv in E2 as (-> & i & Hr).
  destruct (p_ofile p !! Z.to_nat v) as [[g|]|] eqn:Ho; try done. injection E as <- <- <-. eauto.
Qed.

Lemma fdalloc_slot f s fd s' :
  fdalloc f s = Ok fd s' ->
  if fd <? 0 then s' = s else exists i p, runs i p s' /\ p_ofile p !! Z.to_nat fd = Some (Some f).
Proof.
  intros E. unfold fdalloc in E. apply bind_inv in E as (p & s1 & E1 & E).
  apply cur_proc_inv in E1 as (-> & i & Hr).
  destruct (list_find _ (p_ofile p)) as [[k o]|] eqn:Ef; [|by injection E as <- <-].
  apply list_find_Some in Ef as (Ho & _). apply bind_inv in E as ([] & s1 & E & [= <- <-]).
  rewrite (upd_cur_ok i p) in E by done. injection E as <-.
  destruct (Z.ltb_spec (Z.of_nat k) 0); [lia|]. rewrite Nat2Z.id. destruct Hr as [Hc Hp].
  exists i, (with_ofile (<[k := Some f]> (p_ofile p)) p). split.
  - split; [done|]. simpl. by rewrite list_lookup_alter_eq, Hp.
  - simpl. apply list_lookup_insert_eq. by eapply lookup_lt_Some.
Qed.

Ltac moves_calm_head := apply moves_then; [solve [solve_calm]|intros ?].

Lemma sys_dup_moves : moves sys_dup (fun _ => none).
Proof.
  unfold sys_dup. moves_calm_head. destruct a as [[fd f]|]; [|by apply moves_calm; [solve_calm|]].
  eapply moves_bind; [apply fdalloc_moves|]. cbv beta. intros k. destruct (k <? 0).
  - apply moves_calm; [solve_calm|done].
  - eapply moves_bind; [apply filedup_moves|]. intros g. apply moves_calm; [solve_calm|].
    intros r i. unfold none, at_file. destruct (decide (i = f)); lia.
Qed.

Lemma sys_close_moves kend : moves (sys_close kend) (fun _ => none).
Proof.
  intros s a s' Hb E. unfold sys_close in E. apply bind_inv in E as (r & s1 & E1 & E).
  assert (M1 : moved [] none s s1).
  { by eapply calm_moved, (quietly_calmly _ (quietly_argfd 0)). }
  destruct r as [[fd f]|]; [|by injection E as <- <-].
  destruct (argfd_slot _ _ _ _ _ E1) as (i & p & Hr & Ho). pose proof (busy_moved _ _ _ M1 Hb) as Hb1.
  apply bind_inv in E as ([] & s2 & E2 & E). pose proof (clear_fd_moved _ _ _ _ _ _ Hb1 Hr Ho E2) as M2.
  apply bind_inv in E as ([] & s3 & E3 & [= <- <-]).
  pose proof (fileclose_moves kend f _ _ _ (busy_moved _ _ _ M2 Hb1) E3) as M3.
  eapply moved_ext, (moved_trans _ _ _ _ _ _ (moved_trans _ _ _ _ _ _ M1 M2) M3).
  intros j. unfold none, at_file. destruct (decide (j = f)); lia.
Qed.

Lemma sys_open_moves kend : moves (sys_open kend) (fun _ => none).
Proof.
  unfold sys_open. moves_calm_head. destruct a as [path|]; [|by apply moves_calm; [solve_calm|]].
  moves_calm_head. destruct a as [omode|]; [|by apply moves_calm; [solve_calm|]].
  moves_calm_head. destruct a as [ip|]; [|by apply moves_calm; [solve_calm|]].
  eapply moves_bind; [apply filealloc_moves|]. intros [f|].
  2:{ apply moves_calm; [solve_calm|]. intros. unfold none. lia. }
  eapply moves_bind; [apply fdalloc_moves|]. cbv beta. intros fd. destruct (fd <? 0).
  - eapply moves_bind; [apply fileclose_moves|]. intros []. apply moves_calm; [solve_calm|].
    intros r i. unfold none, at_file. destruct (decide (i = f)); lia.
  - apply moves_calm; [solve_calm|]. intros r i. unfold none, at_file. destruct (decide (i = f)); lia.
Qed.

Lemma moves_ret {A} (a : A) d : (forall i, d a i = 0) -> moves (ret a) d.
Proof. intros Hd s b s' _ [= <- <-]. by eapply moved_ext, calm_moved. Qed.

(** Sums of [at_file] are decided by comparing the index with each file. *)
Ltac solve_files :=
  intros; unfold none, at_file; repeat match goal with |- context [decide ?P] => destruct (decide P) end; lia.

Lemma pipealloc_moves kend :
  moves (pipealloc kend)
    (fun r => match r with Some (f0, f1) => fun i => at_file f0 1 i + at_file f1 1 i | None => none end).
Proof.
  unfold pipealloc. eapply moves_bind; [apply filealloc_moves|]. intros [f0|]; [|by apply moves_ret].
  eapply moves_bind; [apply filealloc_moves|]. intros [f1|].
  2:{ eapply moves_bind; [apply fileclose_moves|]. intros []. apply moves_ret. solve_files. }
  moves_calm_head. destruct (a =? 0).
  - eapply moves_bind; [apply fileclose_moves|]. intros []. eapply moves_bind; [apply fileclose_moves|].
    intros []. apply moves_ret. solve_files.
  - unfold initlock. repeat moves_calm_head. apply moves_ret. solve_files.
Qed.

(** What the failing branch of sys_pipe needs: the second fdalloc changed
    nothing, so the first descriptor is still there. *)
Lemma pipe_undo_moved kend s fd0 rf wf i p r s' :
  busy s -> runs i p s -> p_ofile p !! fd0 = Some (Some rf) ->
  (clear_fd fd0 ;; fileclose kend rf ;; fileclose kend wf ;; ret (-1)) s = Ok r s' ->
  moved [] (at_file wf (-1)) s s'.
Proof.
  intros Hb Hr Ho E. apply bind_inv in E as ([] & s1 & E1 & E).
  pose proof (clear_fd_moved _ _ _ _ _ _ Hb Hr Ho E1) as M1.
  assert (M2 : moves (fileclose kend rf ;; fileclose kend wf ;; ret (-1))
                 (fun _ i => at_file rf (-1) i + at_file wf (-1) i)).
  { eapply moves_bind; [apply fileclose_moves|]. intros []. eapply moves_bind; [apply fileclose_moves|].
    intros []. apply moves_ret. solve_files. }
  eapply moved_ext, (moved_trans _ _ _ _ _ _ M1), (M2 _ _ _ (busy_moved _ _ _ M1 Hb) E). solve_files.
Qed.

Lemma pipe_fds_moves kend fd rf wf :
  moves (do fd0 <- fdalloc rf;
         if fd0 <? 0 then fileclose kend rf ;; fileclose kend wf ;; ret (-1)
         else
           do fd1 <- fdalloc wf;
           if fd1 <? 0 then
             clear_fd (Z.to_nat fd0) ;; fileclose kend rf ;; fileclose kend wf ;; ret (-1)
           else
             ustore32 fd fd0 ;; ustore32 (fd + 4) fd1 ;; ret 0)
    (fun _ i => - at_file rf 1 i - at_file wf 1 i).
Proof.
  intros s a s' Hb E. apply bind_inv in E as (fd0 & s1 & E1 & E).
  pose proof (fdalloc_moves rf _ _ _ Hb E1) as M1. cbv beta in M1. pose proof (busy_moved _ _ _ M1 Hb) as Hb1.
  apply fdalloc_slot in E1. destruct (fd0 <? 0).
  - subst s1. assert (M2 : moves (fileclose kend rf ;; fileclose kend wf ;; ret (-1))
                 (fun _ i => at_file rf (-1) i + at_file wf (-1) i)).
    { eapply moves_bind; [apply fileclose_moves|]. intros []. eapply moves_bind; [apply fileclose_moves|].
      intros []. apply moves_ret. solve_files. }
    eapply moved_ext, (M2 _ _ _ Hb E). solve_files.
  - destruct E1 as (i & p & Hr & Ho). apply bind_inv in E as (fd1 & s2 & E2 & E).
    pose proof (fdalloc_moves wf _ _ _ Hb1 E2) as M2. cbv beta in M2. pose proof (busy_moved _ _ _ M2 Hb1) as Hb2.
    apply fdalloc_slot in E2. destruct (fd1 <? 0).
    + subst s2. eapply moved_ext, (moved_trans _ _ _ _ _ _ M1), (pipe_undo_moved _ _ _ _ _ _ _ _ _ Hb1 Hr Ho E).
      solve_files.
    + assert (M3 : moved [] none s2 s').
      { apply calm_moved. refine ((_ : calmly _) _ _ _ E). solve_calm. }
      eapply moved_ext, (moved_trans _ _ _ _ _ _ (moved_trans _ _ _ _ _ _ M1 M2) M3). solve_files.
Qed.

Lemma sys_pipe_moves kend : moves (sys_pipe kend) (fun _ => none).
Proof.
  unfold sys_pipe. moves_calm_head. destruct a as [fd|]; [|by apply moves_ret].
  eapply moves_bind; [apply pipealloc_moves|]. intros [[rf wf]|]; [|by apply moves_ret].
  eapply moves_ext, pipe_fds_moves. solve_files.
Qed.

(** ** The invariant *)

(** Counts agree with descriptors; every process has a table of NOFILE
    descriptors, which is empty when the process is idle. *)
Definition files_inv (s : kernel) : Prop :=
  (forall i, balance s i = 0) /\
  (forall j p, k_procs s !! j = Some p ->
     length (p_ofile p) = NOFILE /\ (idle p -> p_ofile p = repeat None NOFILE)).

Lemma files_inv_moved s s' : files_inv s -> moved [] none s s' -> files_inv s'.
Proof.
  intros [Hb Hp] (_ & L & B & I). split.
  - intros i. rewrite B, Hb. done.
  - intros j p' Hp'. assert (is_Some (k_procs s !! j)) as [p Hj].
    { apply lookup_lt_is_Some. rewrite <- L. by eapply lookup_lt_Some. }
    destruct (I j p p' Hj Hp') as [E G]. destruct (Hp j p Hj) as [Hl Hi]. split; [congruence|].
    intros Hid. destruct (G (not_elem_of_nil j) Hid) as [? ->]. auto.
Qed.

(** ** wait *)

Lemma quiet_lookup s s' i p :
  quiet s s' -> k_procs s !! i = Some p -> p_state p <> SLEEPING -> k_procs s' !! i = Some p.
Proof.
  intros (_ & _ & _ & _ & _ & H) Hp Hs.
  destruct (Forall2_lookup_l _ _ _ _ _ H Hp) as (p' & Hp' & [->|[? _]]); done.
Qed.

Lemma calm_upd_at s i f p :
  k_procs s !! i = Some p -> p_ofile (f p) = p_ofile p -> (idle (f p) -> idle p) ->
  calm s (set_procs (alter f i (k_procs s)) s).
Proof.
  intros Hp Ho Hi. split; [done|]. split; [done|]. simpl. rewrite (alter_lookup _ _ _ p) by done.
  apply Forall2_same_length_lookup. split; [by rewrite length_insert|].
  intros j q q' Hq Hq'. destruct (decide (i = j)) as [<-|Hne].
  - rewrite list_lookup_insert_eq in Hq' by (by eapply lookup_lt_Some). by simplify_eq.
  - rewrite list_lookup_insert_ne in Hq' by done. by simplify_eq.
Qed.

Lemma get_proc_inv i s p s' : get_proc i s = Ok p s' -> s' = s /\ k_procs s !! i = Some p.
Proof. unfold get_proc. destruct (k_procs s !! i); [|done]. by intros [= <- <-]. Qed.

(** Process [i] is in state [st]; kept by quiet steps unless it sleeps. *)
Definition in_state (i : nat) (st : procstate) (s : kernel) : Prop :=
  exists p, k_procs s !! i = Some p /\ p_state p = st.

Lemma in_state_quiet i st s s' : quiet s s' -> st <> SLEEPING -> in_state i st s -> in_state i st s'.
Proof. intros H Hs (p & Hp & E). exists p. split; [|done]. eapply quiet_lookup; [done..|congruence]. Qed.

Lemma in_state_upd i j st s f :
  (forall p, p_state (f p) = p_state p) -> in_state i st s ->
  in_state i st (set_procs (alter f j (k_procs s)) s).
Proof.
  intros Hf (p & Hp & E). destruct (decide (j = i)) as [->|Hne].
  - exists (f p). simpl. rewrite list_lookup_alter_eq, Hp, Hf. done.
  - exists p. simpl. by rewrite list_lookup_alter_ne.
Qed.

(** A process that is idle may become any other idle one. *)
Lemma calm_upd_idle s i st f :
  in_state i st s -> (st = UNUSED \/ st = EMBRYO \/ st = ZOMBIE) -> (forall p, p_ofile (f p) = p_ofile p) ->
  calm s (set_procs (alter f i (k_procs s)) s).
Proof. intros (p & Hp & <-) Hst Hf. eapply calm_upd_at; [done|apply Hf|]. intros _. exact Hst. Qed.

Lemma wait_calm kend : calmly (wait_child kend).
Proof.
  unfold wait_child. calm_step; [solve_calm|]. calm_step; [solve_calm|]. intros s r s' E.
  unfold bind at 1, get in E. cbn in E. destruct (find_zombie a0 (k_procs s)) as [i|] eqn:Ez.
  2:{ refine ((_ : calmly _) _ _ _ E). solve_calm. }
  assert (Hz : in_state i ZOMBIE s).
  { unfold find_zombie in Ez. destruct (list_find _ (k_procs s)) as [[j p]|] eqn:Ef; [|done].
    injection Ez as <-. apply list_find_Some in Ef as (Hp & [_ Hs] & _). by exists p. }
  apply bind_inv in E as (p & s1 & E1 & E). apply get_proc_inv in E1 as [-> Hp].
  apply bind_inv in E as ([] & s1 & E1 & E). apply quietly_in_mem in E1.
  pose proof (in_state_quiet i ZOMBIE _ _ E1 ltac:(done) Hz) as Hz1.
  apply bind_inv in E as ([] & s2 & E2 & E). injection E2 as <-.
  apply bind_inv in E as ([] & s3 & E3 & E). apply quietly_in_mem in E3.
  assert (Hz3 : in_state i ZOMBIE s3).
  { eapply in_state_quiet; [exact E3|done|]. by apply in_state_upd. }
  apply bind_inv in E as ([] & s4 & E4 & E). injection E4 as <-.
  etransitivity; [by apply quiet_calm|].
  etransitivity; [by apply (calm_upd_idle s1 i ZOMBIE (with_kstack 0 (p_tf p) (p_context p))); [|right; right|]|].
  etransitivity; [by apply quiet_calm|].
  apply bind_inv in E as ([] & s5 & E5 & E). injection E as <- <-.
  etransitivity; [|eapply (quietly_calmly _ (quietly_release _)), E5].
  by apply (calm_upd_idle s3 i ZOMBIE); [|right; right|].
Qed.

(** ** fork *)

(** Calm steps during which process [i] stays an embryo. *)
Definition embryo_kept (i : nat) (s s' : kernel) : Prop :=
  calm s s' /\ (in_state i EMBRYO s -> in_state i EMBRYO s').

#[export] Instance embryo_kept_preorder i : PreOrder (embryo_kept i).
Proof.
  split; [by intros s; split|]. intros s1 s2 s3 [C1 I1] [C2 I2]. split; [by transitivity s2|auto].
Qed.

Definition keeps_embryo {A} (i : nat) (m : M kernel A) : Prop :=
  forall s a s', m s = Ok a s' -> embryo_kept i s s'.

Lemma keeps_embryo_bind {A B} i (m : M kernel A) (k : A -> M kernel B) :
  keeps_embryo i m -> (forall a, keeps_embryo i (k a)) -> keeps_embryo i (bind m k).
Proof.
  intros Hm Hk s b s' E. apply bind_inv in E as (a & s1 & E1 & E2).
  destruct (Hm _ _ _ E1) as [C1 I1], (Hk _ _ _ _ E2) as [C2 I2]. split; [by transitivity s1|auto].
Qed.

Lemma keeps_embryo_quiet {A} i (m : M kernel A) : quietly m -> keeps_embryo i m.
Proof.
  intros Hm s a s' E. apply Hm in E. split; [by apply quiet_calm|]. by apply in_state_quiet.
Qed.

Lemma keeps_embryo_upd i j f :
  (forall p, p_ofile (f p) = p_ofile p /\ p_state (f p) = p_state p) -> keeps_embryo i (upd_proc j f).
Proof.
  intros Hf s a s' E. split.
  - eapply (calmly_upd_proc j f); [|exact E]. intros p. unfold idle. by destruct (Hf p) as [-> ->].
  - injection E as _ <-. apply in_state_upd, Hf.
Qed.

Lemma keeps_embryo_modify i f :
  (forall s, k_cur (f s) = k_cur s /\ k_files (f s) = k_files s /\ k_procs (f s) = k_procs s) ->
  keeps_embryo i (modify f).
Proof.
  intros Hf s a s' E. split; [by eapply calmly_modify|]. injection E as _ <-. destruct (Hf s) as (_ & _ & Hp).
  intros (p & ? & ?). exists p. by rewrite Hp.
Qed.

Ltac embryo_step :=
  match goal with
  | |- keeps_embryo _ (bind _ _) => apply keeps_embryo_bind; [|intros ?]
  | |- keeps_embryo _ (upd_proc _ _) => apply keeps_embryo_upd; done
  | |- keeps_embryo _ (modify _) => apply keeps_embryo_modify; done
  | |- keeps_embryo _ _ => apply keeps_embryo_quiet; solve [auto with quiet]
  end.
Ltac solve_embryo := repeat embryo_step.

Lemma find_unused_state ps i : find_unused ps = Some i -> exists p, ps !! i = Some p /\ p_state p = UNUSED.
Proof.
  unfold find_unused. destruct (list_find _ ps) as [[j p]|] eqn:Ef; [|done].
  intros [= <-]. apply list_find_Some in Ef as (Hp & Hs & _). by exists p.
Qed.

Lemma allocproc_calm trapret forkret s r s' :
  allocproc trapret forkret s = Ok r s' ->
  calm s s' /\ match r with Some np => in_state np EMBRYO s' | None => True end.
Proof.
  intros E. unfold allocproc in E. apply bind_inv in E as ([] & s1 & E1 & E). apply quietly_acquire, quiet_calm in E1.
  unfold bind at 1, get in E. cbn in E. destruct (find_unused (k_procs s1)) as [i|] eqn:Ez.
  2:{ apply bind_inv in E as ([] & s2 & E2 & E). injection E as <- <-. split; [|done].
      apply quietly_release, quiet_calm in E2. by transitivity s1. }
  apply find_unused_state in Ez as (p & Hp & Hu).
  apply bind_inv in E as ([] & s2 & E2 & E). injection E2 as E2.
  assert (C2 : calm s1 s2).
  { subst s2. apply (calm_upd_idle s1 i UNUSED); [by exists p|by left|done]. }
  assert (He : in_state i EMBRYO s2).
  { subst s2. eexists. simpl. by rewrite list_lookup_alter_eq, Hp. }
  assert (C : calm s s2) by (by transitivity s1).
  apply bind_inv in E as ([] & s3 & E3 & E). apply (keeps_embryo_modify i) in E3; [|done].
  apply bind_inv in E as ([] & s4 & E4 & E). apply (keeps_embryo_quiet i) in E4; [|auto with quiet].
  apply bind_inv in E as (ks & s5 & E5 & E). apply (keeps_embryo_quiet i) in E5; [|auto with quiet].
  assert (K : embryo_kept i s2 s5) by (etransitivity; [exact E3|]; by etransitivity).
  destruct K as [C5 H5]. destruct (ks =? 0).
  - apply bind_inv in E as ([] & s6 & E6 & E). injection E as <- <-. injection E6 as <-. split; [|done].
    etransitivity; [exact C|]. etransitivity; [exact C5|].
    apply (calm_upd_idle s5 i EMBRYO); [auto|by right; left|done].
  - set (tf := ks + KSTACKSIZE - SIZEOF_TF) in E.
    assert (K : keeps_embryo i (kstore32 (tf - 4) trapret ;; upd_proc i (with_kstack ks tf (tf - 4 - SIZEOF_CONTEXT)) ;;
      kmemset (tf - 4 - SIZEOF_CONTEXT) 0 SIZEOF_CONTEXT ;; kstore32 (tf - 4 - SIZEOF_CONTEXT + CX_EIP) forkret ;;
      ret (Some i))) by (unfold kmemset; solve_embryo).
    assert (r = Some i) as ->.
    { repeat (apply bind_inv in E as (? & ? & ? & E)). by injection E. }
    destruct (K _ _ _ E) as [C6 H6]. split; [|auto]. etransitivity; [exact C|]. by etransitivity.
Qed.

Lemma filedup_procs f s a s' : filedup f s = Ok a s' -> k_procs s' = k_procs s.
Proof.
  intros E. unfold filedup in E. apply bind_inv in E as ([] & s1 & E1 & E).
  apply bind_inv in E as (x & s2 & E2 & E). apply get_file_inv in E2 as [-> _].
  destruct (f_ref x <? 1); [done|]. apply bind_inv in E as ([] & s3 & E3 & E). injection E3 as <-.
  apply bind_inv in E as ([] & s4 & E4 & E). injection E as _ <-.
  unfold acquire in E1. destruct (holding LkFtable s); [done|]. injection E1 as <-.
  unfold release in E4. destruct (holding _ _); [|done]. by injection E4 as <-.
Qed.

Lemma dup_files_moved np fs k s s' q :
  busy s -> k_cur s <> Some np -> k_procs s !! np = Some q -> drop k (p_ofile q) = repeat None (length fs) ->
  dup_files np k fs s = Ok tt s' -> moved [np] none s s'.
Proof.
  revert k s q. induction fs as [|[f|] fs IH]; intros k s q Hb Hc Hq Hd E; cbn [dup_files length repeat] in *.
  - injection E as <-. by apply calm_moved.
  - assert (Hk : p_ofile q !! k = Some None).
    { rewrite <- (Nat.add_0_r k), <- lookup_drop, Hd. done. }
    apply bind_inv in E as (g & s1 & E1 & E). pose proof (filedup_procs _ _ _ _ E1) as P1.
    pose proof (moved_weaken [np] _ _ _ (filedup_moves f _ _ _ Hb E1)) as M1.
    apply bind_inv in E as ([] & s2 & E2 & E). injection E2 as E2.
    rewrite <- P1 in Hq. pose proof (moved_set_fd [np] s1 np q k None (Some f) Hq ltac:(left; set_solver) Hk) as M2.
    rewrite E2 in M2. pose proof (moved_trans _ _ _ _ _ _ M1 M2) as M.
    assert (Hc2 : forall i, k_cur s = Some i -> i ∉ [np]) by (intros i Hi; rewrite list_elem_of_singleton; congruence).
    eapply moved_ext, (moved_trans _ _ _ _ _ _ M), (IH (S k) s2).
    + intros j. unfold none. rewrite names_none_some. unfold at_file. destruct (decide (j = f)); lia.
    + by eapply busy_moved_but.
    + destruct M as [-> _]. done.
    + subst s2. simpl. by rewrite list_lookup_alter_eq, Hq.
    + simpl. rewrite drop_insert_lt by lia. replace (S k) with (k + 1)%nat by lia.
      by rewrite <- drop_drop, Hd.
    + exact E.
  - apply (IH (S k) s q); [done..| |done]. replace (S k) with (k + 1)%nat by lia.
    by rewrite <- drop_drop, Hd.
Qed.

Lemma moved_strengthen np d s s' : moved [np] d s s' -> in_state np RUNNABLE s' -> moved [] d s s'.
Proof.
  intros (Hc & L & B & I) (q & Hq & Hs). split_and!; try done. intros j p p' Hp Hp'.
  destruct (I j p p' Hp Hp') as [El G]. split; [done|]. intros _ Hi.
  destruct (decide (j = np)) as [->|Hne]; [|apply G; [by rewrite list_elem_of_singleton|done]].
  rewrite Hq in Hp'. injection Hp' as <-. destruct Hi as [?|[?|?]]; congruence.
Qed.

(** A calm step keeps the number of processes. *)
Lemma calm_length s s' : calm s s' -> length (k_procs s') = length (k_procs s).
Proof. intros (_ & _ & H). by rewrite <- (Forall2_length _ _ _ H). Qed.

(** fork behind the copy of the descriptors. *)
Lemma fork_tail_calm np (d : nat) name (pid : Z) s r s' :
  (in_fs (idup d) ;; upd_proc np (with_cwd (Some d)) ;; upd_proc np (proc_name name) ;;
   acquire LkPtable ;; upd_proc np (with_state RUNNABLE) ;; release LkPtable ;; ret pid) s = Ok r s' ->
  (np < length (k_procs s))%nat -> calm s s' /\ in_state np RUNNABLE s'.
Proof.
  intros E Hnp. split; [refine ((_ : calmly _) _ _ _ E); solve_calm|].
  apply bind_inv in E as (? & s1 & E1 & E). apply quietly_in_fs, quiet_calm, calm_length in E1.
  apply bind_inv in E as ([] & s2 & E2 & E). injection E2 as <-.
  apply bind_inv in E as ([] & s3 & E3 & E). injection E3 as <-.
  apply bind_inv in E as ([] & s4 & E4 & E). apply quietly_acquire, quiet_calm, calm_length in E4.
  apply bind_inv in E as ([] & s5 & E5 & E). injection E5 as <-.
  apply bind_inv in E as ([] & s6 & E6 & E). injection E as <- <-.
  eapply in_state_quiet; [by eapply quietly_release|done|]. simpl in *. rewrite !length_alter in E4.
  destruct (lookup_lt_is_Some_2 (k_procs s4) np) as [p Hp]; [lia|].
  eexists. simpl. by rewrite list_lookup_alter_eq, Hp.
Qed.

(** The second half of fork, from the copy of the descriptors on. *)
Definition fork_copy (np : nat) (p : proc) (pid : Z) : M kernel Z :=
  dup_files np 0 (p_ofile p) ;;
  match p_cwd p with
  | None => fault "null cwd"
  | Some d =>
      in_fs (idup d) ;;
      upd_proc np (with_cwd (Some d)) ;;
      upd_proc np (proc_name (p_name p)) ;;
      acquire LkPtable ;;
      upd_proc np (with_state RUNNABLE) ;;
      release LkPtable ;;
      ret pid
  end.

Lemma fork_copy_moved np p pid s r s' :
  files_inv s -> busy s -> in_state np EMBRYO s -> length (p_ofile p) = NOFILE ->
  fork_copy np p pid s = Ok r s' -> moved [] none s s'.
Proof.
  intros [Hbal Htab] Hb (q & Hq & Hs) Hlen E. unfold fork_copy in E.
  apply bind_inv in E as ([] & s1 & E1 & E).
  assert (Hidle : idle q) by (by right; left).
  apply (dup_files_moved np _ _ _ _ q) in E1 as M1; [|done| |done|].
  2:{ intros Hc. by apply (busy_runs s np q). }
  2:{ rewrite drop_0, Hlen. by apply (Htab np q Hq). }
  destruct (p_cwd p) as [d|]; [|done].
  destruct (fork_tail_calm np d _ pid s1 r s' E) as [C2 H2].
  { destruct M1 as (_ & -> & _). by eapply lookup_lt_Some. }
  apply (moved_strengthen np); [|done].
  eapply moved_ext, (moved_trans _ _ _ _ _ _ M1), calm_moved, C2. done.
Qed.

Lemma fork_moved kend kdata trapret forkret s r s' :
  files_inv s -> busy s -> fork kend kdata trapret forkret s = Ok r s' -> moved [] none s s'.
Proof.
  intros Hinv Hb E. unfold fork in E. apply bind_inv in E as ([np|] & s1 & E1 & E).
  2:{ injection E as <- <-. by apply calm_moved, (allocproc_calm _ _ _ _ _ E1). }
  apply allocproc_calm in E1 as [C1 H1].
  apply bind_inv in E as (me & s2 & E2 & E). unfold cur in E2. destruct (k_cur s1) as [i|] eqn:Hc; [|done].
  injection E2 as -> <-. apply bind_inv in E as (p & s3 & E3 & E). apply get_proc_inv in E3 as [-> Hp].
  apply bind_inv in E as (pgdir & s3 & E3 & E). apply (keeps_embryo_quiet np) in E3; [|auto with quiet].
  apply bind_inv in E as ([] & s4 & E4 & E). apply (keeps_embryo_upd np) in E4; [|done].
  assert (K4 : embryo_kept np s1 s4) by (by etransitivity).
  destruct (pgdir =? 0).
  - destruct K4 as [C4 H4]. apply calm_moved. etransitivity; [exact C1|]. etransitivity; [exact C4|].
    apply bind_inv in E as (q & s5 & E5 & E). apply get_proc_inv in E5 as [-> _].
    apply bind_inv in E as ([] & s5 & E5 & E). apply (keeps_embryo_quiet np) in E5 as [C5 H5]; [|auto with quiet].
    apply bind_inv in E as ([] & s6 & E6 & E). injection E as <- <-. injection E6 as <-.
    etransitivity; [exact C5|]. apply (calm_upd_idle s5 np EMBRYO); [auto|by right; left|done].
  - apply bind_inv in E as ([] & s5 & E5 & E). apply (keeps_embryo_upd np) in E5; [|done].
    apply bind_inv in E as (q & s6 & E6 & E). apply get_proc_inv in E6 as [-> _].
    apply bind_inv in E as ([] & s6 & E6 & E). apply (keeps_embryo_quiet np) in E6; [|apply quietly_in_mem].
    apply bind_inv in E as ([] & s7 & E7 & E). apply (keeps_embryo_quiet np) in E7; [|auto with quiet].
    assert (K7 : embryo_kept np s1 s7) by (repeat (etransitivity; [eassumption|]); done).
    destruct K7 as [C7 H7]. specialize (H7 H1). assert (C : calm s s7) by (by transitivity s1).
    pose proof (files_inv_moved _ _ Hinv (calm_moved [] _ _ C)) as Hinv7.
    pose proof (files_inv_moved _ _ Hinv (calm_moved [] _ _ C1)) as Hinv1.
    eapply moved_ext, (moved_trans _ _ _ _ _ _ (calm_moved [] _ _ C)), (fork_copy_moved np p (p_pid q)).
    + done.
    + done.
    + by eapply busy_moved, Hb; apply calm_moved.
    + done.
    + by apply (proj2 Hinv1 me p).
    + exact E.
Qed.

(** ** exit *)

Definition tables (s s' : kernel) : Prop :=
  k_cur s' = k_cur s /\ p_ofile <$> k_procs s' = p_ofile <$> k_procs s.

Lemma calm_tables s s' : calm s s' -> tables s s'.
Proof.
  intros (Hc & _ & Hp). split; [done|].
  induction Hp as [|p p' ps ps' [E _] _ IH]; [done|]. by rewrite !fmap_cons, E, IH.
Qed.

Lemma tables_runs s s' i p : tables s s' -> runs i p s -> exists p', runs i p' s' /\ p_ofile p' = p_ofile p.
Proof.
  intros [Hc Hp] [Hi Hl]. assert (H : (p_ofile <$> k_procs s') !! i = Some (p_ofile p)).
  { by rewrite Hp, list_lookup_fmap, Hl. }
  rewrite list_lookup_fmap in H. destruct (k_procs s' !! i) as [p'|] eqn:E; [|done].
  injection H as H. exists p'. split; [split; [congruence|done]|done].
Qed.

Lemma tables_upd_then {B} s i g (k : M kernel B) b s' :
  calmly k -> (upd_file i g ;; k) s = Ok b s' -> tables s s'.
Proof.
  intros Hk E. apply bind_inv in E as ([] & s1 & E1 & E). injection E1 as <-.
  apply Hk, calm_tables in E as [Hc Hp]. split; [by rewrite Hc|by rewrite Hp].
Qed.

Lemma fileclose_tables kend f s s' : fileclose kend f s = Ok tt s' -> tables s s'.
Proof.
  intros E. unfold fileclose in E. apply bind_inv in E as ([] & s1 & E1 & E).
  apply quietly_acquire, quiet_calm, calm_tables in E1 as [Hc Hp].
  apply bind_inv in E as (x & s2 & E2 & E). apply get_file_inv in E2 as [-> _].
  assert (T : tables s1 s').
  { destruct (f_ref x <? 1); [done|].
    destruct (0 <? f_ref x - 1); (eapply tables_upd_then; [|exact E]); solve_calm. }
  destruct T as [Hc' Hp']. split; congruence.
Qed.

Lemma close_files_run kend fs k s s' i p :
  busy s -> runs i p s -> drop k (p_ofile p) = fs -> take k (p_ofile p) = repeat None k ->
  close_files kend k fs s = Ok tt s' ->
  moved [] none s s' /\ exists p', runs i p' s' /\ p_ofile p' = repeat None (length (p_ofile p)).
Proof.
  revert k s p. induction fs as [|[f|] fs IH]; intros k s p Hb Hr Hd Ht E; cbn [close_files] in E.
  - injection E as <-. split; [by apply calm_moved|]. exists p. split; [done|].
    assert (Hl : (length (p_ofile p) <= k)%nat).
    { assert (H : length (drop k (p_ofile p)) = 0%nat) by (by rewrite Hd). rewrite length_drop in H. lia. }
    rewrite <- (take_ge (p_ofile p) k) at 1 by done. rewrite Ht.
    assert (H : length (take k (p_ofile p)) = k) by (by rewrite Ht, repeat_length).
    rewrite length_take in H. f_equal. lia.
  - apply bind_inv in E as ([] & s1 & E1 & E). pose proof (fileclose_moves kend f _ _ _ Hb E1) as M1.
    destruct (tables_runs _ _ _ _ (fileclose_tables _ _ _ _ E1) Hr) as (p1 & Hr1 & Ho1).
    pose proof (busy_moved _ _ _ M1 Hb) as Hb1.
    assert (Hk : p_ofile p1 !! k = Some (Some f)).
    { rewrite Ho1, <- (Nat.add_0_r k), <- lookup_drop, Hd. done. }
    apply bind_inv in E as ([] & s2 & E2 & E). pose proof (clear_fd_moved _ _ _ _ _ _ Hb1 Hr1 Hk E2) as M2.
    unfold clear_fd in E2. rewrite (upd_cur_ok i p1) in E2 by done. injection E2 as E2.
    pose proof (moved_trans _ _ _ _ _ _ M1 M2) as M.
    assert (Hlt : (k < length (p_ofile p1))%nat) by (by eapply lookup_lt_Some).
    destruct (IH (S k) s2 (with_ofile (<[k := None]> (p_ofile p1)) p1)) as [M3 (p' & Hr' & Ho')].
    + by eapply busy_moved.
    + subst s2. destruct Hr1 as [Hc1 Hp1]. split; [done|]. simpl. by rewrite list_lookup_alter_eq, Hp1.
    + simpl. rewrite drop_insert_lt by lia. replace (S k) with (k + 1)%nat by lia.
      by rewrite <- drop_drop, Ho1, Hd.
    + simpl. rewrite (take_S_r _ _ None) by (by apply list_lookup_insert_eq).
      rewrite take_insert_ge by lia. rewrite Ho1, Ht. by rewrite <- (repeat_cons k None).
    + exact E.
    + split; [|exists p'; split; [done|]; simpl in Ho'; by rewrite Ho', length_insert, Ho1].
      eapply moved_ext, (moved_trans _ _ _ _ _ _ M M3). solve_files.
  - assert (Hk : p_ofile p !! k = Some None) by (rewrite <- (Nat.add_0_r k), <- lookup_drop, Hd; done).
    apply (IH (S k) s p); [done|done| | |done].
    + replace (S k) with (k + 1)%nat by lia. by rewrite <- drop_drop, Hd.
    + rewrite (take_S_r _ _ None) by done. rewrite Ht. by rewrite <- (repeat_cons k None).
Qed.

Lemma files_inv_same s s' : files_inv s -> k_files s' = k_files s -> k_procs s' = k_procs s -> files_inv s'.
Proof. intros [Hb Hp] Ef Ep. split; [|rewrite Ep; exact Hp]. intros i. unfold balance. rewrite Ef, Ep. apply Hb. Qed.

Lemma files_inv_upd s i f p :
  files_inv s -> k_procs s !! i = Some p -> p_ofile (f p) = p_ofile p ->
  (idle (f p) -> p_ofile p = repeat None NOFILE) ->
  files_inv (set_procs (alter f i (k_procs s)) s).
Proof.
  intros [Hb Ht] Hp Ho Hi. split.
  - intros j. rewrite <- (Hb j). unfold balance. simpl.
    rewrite (alter_lookup _ _ _ p), (refs_insert _ _ _ p), Ho by done. lia.
  - intros j q Hq. simpl in Hq. destruct (decide (i = j)) as [<-|Hne].
    + rewrite list_lookup_alter_eq, Hp in Hq. injection Hq as <-. rewrite Ho.
      split; [by apply (Ht i p)|done].
    + rewrite list_lookup_alter_ne in Hq by done. by apply (Ht j).
Qed.

Lemma quietly_wakeup1 c : quietly (wakeup1 c).
Proof.
  intros s a s' [= _ <-]. repeat split. apply Forall2_fmap_r, Forall_Forall2_diag, Forall_true, roused_wake.
Qed.
#[export] Hint Resolve quietly_wakeup1 : quiet.

Lemma calmly_reparent me init i count : calmly (reparent me init i count).
Proof. revert i. induction count as [|count IH]; intros i; cbn [reparent]; solve_calm. Qed.

Lemma calmly_sched_checks : calmly sched_checks.
Proof. unfold sched_checks. solve_calm. Qed.
#[export] Hint Resolve calmly_reparent calmly_sched_checks : calm.

(** exit_table: calm until the process becomes a zombie, which then has no
    descriptors any more. *)
Lemma exit_table_inv me init s s' p :
  files_inv s -> runs me p s -> p_ofile p = repeat None NOFILE -> exit_table me init s = Ok tt s' -> files_inv s'.
Proof.
  intros Hinv Hr Ho E. unfold exit_table in E.
  apply bind_inv in E as ([] & s1 & E1 & E). apply quietly_acquire, quiet_calm in E1.
  apply bind_inv in E as (q & s2 & E2 & E). apply get_proc_inv in E2 as [-> _].
  apply bind_inv in E as ([] & s2 & E2 & E).
  assert (C2 : calm s1 s2) by (refine ((_ : calmly _) _ _ _ E2); solve_calm).
  apply bind_inv in E as (sx & s3 & E3 & E). injection E3 as -> <-.
  apply bind_inv in E as ([] & s3 & E3 & E). apply calmly_reparent in E3.
  assert (C : calm s s3) by (etransitivity; [exact E1|]; by etransitivity).
  destruct (tables_runs _ _ _ _ (calm_tables _ _ C) Hr) as (p3 & Hr3 & Ho3).
  pose proof (files_inv_moved _ _ Hinv (calm_moved [] _ _ C)) as Hinv3.
  apply bind_inv in E as ([] & s4 & E4 & E). injection E4 as <-.
  apply calmly_sched_checks, (calm_moved []) in E. eapply files_inv_moved; [|exact E].
  apply (files_inv_upd _ _ _ p3); [done|apply Hr3|done|congruence].
Qed.

Lemma exit_inv kend s s' : files_inv s -> busy s -> exit_proc kend s = Ok tt s' -> files_inv s'.
Proof.
  intros Hinv Hb E. unfold exit_proc in E. unfold bind at 1, get in E. cbn in E.
  destruct (k_cur s) as [me|] eqn:Hc; [|done]. destruct (k_initproc s) as [init|]; [|done].
  destruct (me =? init)%nat; [done|]. apply bind_inv in E as (p & s1 & E1 & E).
  apply get_proc_inv in E1 as [-> Hp]. assert (Hr : runs me p s) by done.
  apply bind_inv in E as ([] & s1 & E1 & E).
  destruct (close_files_run kend _ 0 s s1 me p Hb Hr (drop_0 _) eq_refl E1) as [M1 (p1 & Hr1 & Ho1)].
  rewrite (proj1 (proj2 Hinv me p Hp)) in Ho1.
  apply bind_inv in E as ([] & s2 & E2 & E). apply quietly_in_fs, quiet_calm in E2.
  apply bind_inv in E as ([] & s3 & E3 & E).
  assert (C3 : calm s2 s3) by (refine ((_ : calmly _) _ _ _ E3); solve_calm).
  apply bind_inv in E as ([] & s4 & E4 & E). apply quietly_in_fs, quiet_calm in E4.
  apply bind_inv in E as ([] & s5 & E5 & E). apply calmly_upd_cur in E5; [|solve_harmless].
  assert (C : calm s1 s5) by (repeat (etransitivity; [eassumption|]); done).
  destruct (tables_runs _ _ _ _ (calm_tables _ _ C) Hr1) as (p5 & Hr5 & Ho5).
  pose proof (files_inv_moved _ _ (files_inv_moved _ _ Hinv M1) (calm_moved [] _ _ C)) as Hinv5.
  apply bind_inv in E as ([] & s6 & E6 & E). injection E as <-.
  eapply (files_inv_same s6); [|done|done]. eapply exit_table_inv; [exact Hinv5|done|congruence|done].
Qed.

(** ** Every history of system calls *)

Section history.
Context (kend kdata trapret forkret start_addr : Z).

(** A system call that returns, or a change of the running process. *)
Inductive file_step : kernel -> kernel -> Prop :=
| step_call f r s s' :
    f ∈ syscalls kend kdata trapret forkret start_addr -> busy s -> f s = Ok r s' -> file_step s s'
| step_dispatch j s s' : in_state j RUNNABLE s -> dispatch j s = Ok tt s' -> file_step s s'
| step_yield s s' : yield s = Ok tt s' -> file_step s s'
| step_idle s : file_step s (set_cur None s).

Lemma moves_inv (f : M kernel Z) s r s' :
  moves f (fun _ => none) -> files_inv s -> busy s -> f s = Ok r s' -> files_inv s'.
Proof. intros Hf Hi Hb E. eapply files_inv_moved; [exact Hi|]. by eapply Hf. Qed.

Lemma syscall_inv f r s s' :
  f ∈ syscalls kend kdata trapret forkret start_addr -> files_inv s -> busy s -> f s = Ok r s' -> files_inv s'.
Proof.
  intros Hf Hi Hb E.
  assert (Hc : f ∈ calm_calls kend kdata start_addr -> files_inv s').
  { intros Hin. eapply files_inv_moved; [exact Hi|]. eapply calm_moved, calm_calls_calm; [exact Hin|exact E]. }
  unfold syscalls in Hf. repeat (apply elem_of_cons in Hf as [->|Hf]);
    try (apply Hc; unfold calm_calls; repeat (first [apply list_elem_of_here|apply list_elem_of_further]); done).
  - by eapply files_inv_moved, fork_moved.
  - unfold sys_exit in E. apply bind_inv in E as ([] & s1 & E1 & E). injection E as <- <-. by eapply exit_inv.
  - by eapply files_inv_moved, calm_moved, wait_calm.
  - eapply moves_inv; [apply sys_pipe_moves|done..].
  - eapply moves_inv; [apply sys_dup_moves|done..].
  - eapply moves_inv; [apply sys_open_moves|done..].
  - eapply moves_inv; [apply sys_close_moves|done..].
Qed.

(** C2: through any history of system calls and process switches, the count of
    every open file is the number of descriptors that name it, and processes
    that are unused, being made or dead hold none. *)
Theorem file_refs_invariant s s' : files_inv s -> rtc file_step s s' -> files_inv s'.
Proof.
  intros Hi H. induction H as [|s1 s2 s3 Hstep _ IH]; [done|]. apply IH. clear IH.
  destruct Hstep as [f r s s' Hf Hb E|j s s' (p & Hp & Hs) E|s s' E|s].
  - by eapply syscall_inv.
  - injection E as <-. eapply (files_inv_same (set_procs (alter (with_state RUNNING) j (k_procs s)) s)); [|done|done].
    apply (files_inv_upd _ _ _ p); [done|done|done|]. by intros [?|[?|?]].
  - eapply files_inv_moved; [exact Hi|]. apply calm_moved. refine ((_ : calmly _) _ _ _ E).
    unfold yield. solve_calm.
  - by eapply files_inv_same.
Qed.
End history.
