(* ===== verification/FirstRun.v ===== *)
(** * From fork to the first instruction of the child

    proc.c prepares the kernel stack of a new process so that the assembly of
    swtch.S and trapasm.S takes it to user mode: allocproc leaves a context
    that returns into forkret and from there into trapret, and fork copies the
    trap frame of its caller.  Here the two models meet: the bytes that the
    model of proc.c stores are the stack that the model of the assembly pops. *)

From S2P Require Import Prelude Monad Locks Memory CString Kalloc Vm FsState Fs Kernel KernelSpec File Proc FileRefs Asm.

Open Scope Z_scope.

(** Steps that touch neither the memory nor where the frames are. *)
Definition place (p : proc) : Z * Z := (p_tf p, p_pid p).
Definition kept (s s' : kernel) : Prop :=
  kmemory (k_mem s') = kmemory (k_mem s) /\ k_cur s' = k_cur s /\ place <$> k_procs s' = place <$> k_procs s.
Definition keeps {A} (f : M kernel A) : Prop := forall s a s', f s = Ok a s' -> kept s s'.

#[export] Instance kept_preorder : PreOrder kept.
Proof. split; [done|]. intros s1 s2 s3 (H1 & H2 & H3) (H4 & H5 & H6). split_and!; congruence. Qed.

Lemma keeps_bind {A B} (m : M kernel A) (k : A -> M kernel B) : keeps m -> (forall a, keeps (k a)) -> keeps (bind m k).
Proof. intros Hm Hk s b s' E. apply bind_inv in E as (a & s1 & E1 & E2). etransitivity; [by eapply Hm|by eapply Hk]. Qed.
Lemma keeps_ret {A} (a : A) : keeps (ret a : M kernel A).
Proof. by intros s b s' [= <- <-]. Qed.
Lemma keeps_panic {A} msg : keeps (panic msg : M kernel A).
Proof. by intros s b s'. Qed.
Lemma keeps_fault {A} msg : keeps (fault msg : M kernel A).
Proof. by intros s b s'. Qed.
Lemma keeps_acquire l : keeps (acquire l).
Proof. intros s [] s'. unfold acquire. destruct (holding l s); [done|]. by intros [= <-]. Qed.
Lemma keeps_release l : keeps (release l).
Proof. intros s [] s'. unfold release. destruct (holding l s); [|done]. by intros [= <-]. Qed.
Lemma keeps_get_proc i : keeps (get_proc i).
Proof. intros s p s'. unfold get_proc. destruct (k_procs s !! i); [|done]. by intros [= <- <-]. Qed.
Lemma keeps_upd_proc i f : (forall p, place (f p) = place p) -> keeps (upd_proc i f).
Proof.
  intros Hf s [] s' [= <-]. split_and!; [done|done|]. cbn. apply list_eq. intros j. rewrite !list_lookup_fmap.
  destruct (decide (i = j)) as [->|Hne]; [rewrite list_lookup_alter_eq|by rewrite list_lookup_alter_ne].
  destruct (k_procs s !! j); [|done]. cbn. by rewrite Hf.
Qed.
Lemma wakes_place (cs : list chan) (ps : list proc) : place <$> foldr (fun c ps => wake_one c <$> ps) ps cs = place <$> ps.
Proof.
  induction cs as [|c cs IH]; [done|]. cbn [foldr]. rewrite <- IH, <- list_fmap_compose. apply list_fmap_ext.
  intros i p _. unfold compose, wake_one. by destruct (_ && _).
Qed.
Lemma keeps_in_fs {A} (f : M fstate A) : keeps (in_fs f).
Proof.
  intros s a s'. unfold in_fs, zoom. destruct (f (enter k_fs s)) as [b sub|msg|c sub|why].
  - intros E. injection E as _ <-. split_and!; [done|done|]. cbn. apply wakes_place.
  - done.
  - by destruct (k_cur s).
  - done.
Qed.

Create HintDb keeps.
#[export] Hint Resolve keeps_ret keeps_panic keeps_fault keeps_acquire keeps_release keeps_get_proc keeps_in_fs : keeps.
Ltac keeps_step :=
  match goal with
  | |- keeps (bind _ _) => apply keeps_bind; [|intros ?]
  | |- keeps (match ?x with _ => _ end) => destruct x
  | |- keeps (upd_proc _ _) => by apply keeps_upd_proc
  | |- keeps _ => solve [auto with keeps]
  end.
Ltac solve_keeps := repeat keeps_step.

Lemma keeps_filedup i : keeps (filedup i).
Proof.
  unfold filedup, get_file, upd_file. solve_keeps.
  - intros s f s'. destruct (k_files s !! i); [|done]. by intros [= <- <-].
  - by intros s [] s' [= <-].
Qed.

Lemma keeps_dup_files np fs : forall k, keeps (dup_files np k fs).
Proof.
  induction fs as [|[f|] fs IH]; intros k; cbn [dup_files]; solve_keeps; auto; apply keeps_filedup.
Qed.

(** A store into memory. *)
Lemma in_mem_modify f s a s' : in_mem (modify (set_mem f)) s = Ok a s' ->
  kmemory (k_mem s') = f (kmemory (k_mem s)) /\ k_cur s' = k_cur s /\ k_procs s' = k_procs s.
Proof. intros [= <- <-]. done. Qed.

(** ** fork *)

(** The trap frame of the child is that of the parent but for eax. *)
Definition child_frame (m : mem) (tfp tfc : Z) : Prop :=
  load32 m (tfc + TF_EAX) = 0 /\
  forall k, 0 <= k < SIZEOF_TF -> k < TF_EAX \/ TF_EAX + 4 <= k -> load8 m (tfc + k) = load8 m (tfp + k).

Lemma copied_frame m tfp tfc : tfc + SIZEOF_TF <= tfp \/ tfp + SIZEOF_TF <= tfc ->
  child_frame (store32 (memmove m tfc tfp SIZEOF_TF) (tfc + TF_EAX) 0) tfp tfc.
Proof.
  unfold child_frame, SIZEOF_TF, TF_EAX. intros Ha. split; [by rewrite load32_store32|]. intros k Hk Hne.
  rewrite !load8_store32, !load8_memmove by lia.
  destruct (Z.leb_spec (tfc + 28) (tfc + k)), (Z.ltb_spec (tfc + k) (tfc + 28 + 4)),
    (Z.leb_spec (tfc + 28) (tfp + k)), (Z.ltb_spec (tfp + k) (tfc + 28 + 4)),
    (Z.leb_spec tfc (tfc + k)), (Z.ltb_spec (tfc + k) (tfc + 76)),
    (Z.leb_spec tfc (tfp + k)), (Z.ltb_spec (tfp + k) (tfc + 76)); cbn [andb]; try (exfalso; lia); f_equal; lia.
Qed.

Lemma place_lookup s s' i p : place <$> k_procs s' = place <$> k_procs s -> k_procs s !! i = Some p ->
  exists p', k_procs s' !! i = Some p' /\ p_tf p' = p_tf p /\ p_pid p' = p_pid p.
Proof.
  intros E Hp. apply (f_equal (fun l => l !! i)) in E. rewrite !list_lookup_fmap, Hp in E.
  destruct (k_procs s' !! i) as [p'|]; [|done]. exists p'. cbn in E. unfold place in E. split_and!; congruence.
Qed.

(** What follows the copy in fork() keeps memory and frames. *)
Lemma fork_rest (np : nat) (p q : proc) s pid s' :
  (dup_files np 0 (p_ofile p) ;;
   match p_cwd p with
   | None => fault "null cwd"
   | Some d =>
       in_fs (idup d) ;; upd_proc np (with_cwd (Some d)) ;; upd_proc np (proc_name (p_name p)) ;;
       acquire LkPtable ;; upd_proc np (with_state RUNNABLE) ;; release LkPtable ;; ret (p_pid q)
   end)%kernel s = Ok pid s' -> kept s s' /\ pid = p_pid q.
Proof.
  intros E. split.
  - revert E. match goal with |- ?f s = _ -> _ => assert (K : keeps f) by (solve_keeps; apply keeps_dup_files) end. apply K.
  - apply bind_inv in E as ([] & s1 & _ & E). destruct (p_cwd p); [|done].
    repeat (apply bind_inv in E as (? & ? & _ & E)). by injection E as <- _.
Qed.

(** What fork() has done when it returns the number of a child. *)
Lemma fork_copies_frame kend kdata trapret forkret s pid s' :
  fork kend kdata trapret forkret s = Ok pid s' -> pid <> -1 ->
  exists me np p q, k_cur s' = Some me /\ k_procs s' !! me = Some p /\ k_procs s' !! np = Some q /\ p_pid q = pid /\
    (p_tf q + SIZEOF_TF <= p_tf p \/ p_tf p + SIZEOF_TF <= p_tf q -> child_frame (kmemory (k_mem s')) (p_tf p) (p_tf q)).
Proof.
  intros E Hpid. unfold fork in E. apply bind_inv in E as ([np|] & s1 & _ & E); [|by injection E as <- _].
  apply bind_inv in E as (me & s2 & E2 & E). unfold cur in E2. destruct (k_cur s1) as [me'|] eqn:Ecur; [|done]. injection E2 as <- <-.
  apply bind_inv in E as (p & s3 & E3 & E). unfold get_proc in E3. destruct (k_procs s1 !! me') as [p'|] eqn:Ep; [|done]. injection E3 as <- <-.
  apply bind_inv in E as (pgdir & s4 & E4 & E).
  apply bind_inv in E as ([] & s5 & E5 & E).
  destruct (pgdir =? 0).
  { apply bind_inv in E as (q & s6 & _ & E). apply bind_inv in E as ([] & s7 & _ & E). apply bind_inv in E as ([] & s8 & _ & E).
    by injection E as <- _. }
  assert (K5 : kept s4 s5) by (by eapply (keeps_upd_proc np); [|exact E5]).
  apply bind_inv in E as ([] & s6 & E6 & E). assert (K6 : kept s5 s6) by (by eapply (keeps_upd_proc np); [|exact E6]).
  apply bind_inv in E as (q & s7 & E7 & E). unfold get_proc in E7. destruct (k_procs s6 !! np) as [q'|] eqn:Eq; [|done]. injection E7 as <- <-.
  apply bind_inv in E as ([] & s8 & E8 & E). apply in_mem_modify in E8 as (M8 & C8 & P8).
  apply bind_inv in E as ([] & s9 & E9 & E). apply in_mem_modify in E9 as (M9 & C9 & P9).
  assert (K9 : kept s9 s' /\ pid = p_pid q') by (by eapply fork_rest, E). destruct K9 as [(Mk & Ck & Pk) ->].
  assert (Q4 : quiet s1 s4) by (by eapply quietly_in_mem, E4). destruct Q4 as (Q4 & _ & _ & _ & _ & F4).
  destruct (Forall2_lookup_l _ _ _ _ _ F4 Ep) as (p4 & Hp4 & R4).
  assert (Kp : place <$> k_procs s' = place <$> k_procs s6) by (by rewrite Pk, P9, P8).
  assert (Kc : k_cur s' = Some me').
  { destruct K5 as (_ & K5 & _), K6 as (_ & K6 & _). by rewrite Ck, C9, C8, K6, K5, Q4. }
  destruct (place_lookup s6 s' np q' Kp Eq) as (q & Hq & Tq & Iq).
  assert (K46 : place <$> k_procs s' = place <$> k_procs s4).
  { destruct K5 as (_ & _ & K5), K6 as (_ & _ & K6). by rewrite Kp, K6, K5. }
  destruct (place_lookup s4 s' me' p4 K46 Hp4) as (p & Hp & Tp & _).
  exists me', np, p, q. split_and!; [done|done|done|done|].
  rewrite Mk, M9, M8, Tq, Tp. replace (p_tf p4) with (p_tf p') by (by destruct R4 as [->|[_ ->]]). apply copied_frame.
Qed.

(** Cells in another place, or in another memory. *)
Lemma cells_move m m' l : forall a a',
  (forall k, 0 <= k < 4 * Z.of_nat (length l) -> load8 m' (a' + k) = load8 m (a + k)) -> cells m a l -> cells m' a' l.
Proof.
  induction l as [|c l IH]; intros a a' Hx Hc; [done|]. destruct Hc as [Hc Hl]. cbn [length] in Hx. split.
  - assert (E : load32 m' a' = load32 m a).
    { rewrite !load32_load8. pose proof (Hx 0 ltac:(lia)) as E0. rewrite !Z.add_0_r in E0. by rewrite E0, !Hx by lia. }
    destruct c; cbn [cell_at] in *; by rewrite E.
  - apply (IH (a + 4)); [|done]. intros k Hk. rewrite <- !Z.add_assoc. apply Hx. lia.
Qed.

Lemma cells_app m l1 l2 : forall a, cells m a (l1 ++ l2) <-> cells m a l1 /\ cells m (a + 4 * Z.of_nat (length l1)) l2.
Proof.
  induction l1 as [|c l1 IH]; intros a; cbn [app cells length].
  - rewrite Z.mul_0_r, Z.add_0_r. tauto.
  - rewrite IH. replace (a + 4 + 4 * Z.of_nat (length l1)) with (a + 4 * Z.of_nat (S (length l1))) by lia. tauto.
Qed.

Lemma child_cells m tfp tfc u oesp n err : child_frame m tfp tfc -> user u = true ->
  cells m tfp (frame_cells u oesp n err) -> cells m tfc (frame_cells (set_gr EAX 0 u) oesp n err).
Proof.
  unfold child_frame, SIZEOF_TF, TF_EAX. intros [He Hk] Hu Hc.
  assert (Hu' : user (set_gr EAX 0 u) = true) by exact Hu. unfold frame_cells in *. rewrite Hu in Hc. rewrite Hu'.
  change (cells m tfc (([W (gr u EDI); W (gr u ESI); W (gr u EBP); W oesp; W (gr u EBX); W (gr u EDX); W (gr u ECX)] ++ [W 0]) ++
    [H (sr u GS); H (sr u FS); H (sr u ES); H (sr u DS); W n; W err; W (eip u); W (sr u CS); W (eflags u); W (gr u ESP); W (sr u SS)])).
  change (cells m tfp (([W (gr u EDI); W (gr u ESI); W (gr u EBP); W oesp; W (gr u EBX); W (gr u EDX); W (gr u ECX)] ++ [W (gr u EAX)]) ++
    [H (sr u GS); H (sr u FS); H (sr u ES); H (sr u DS); W n; W err; W (eip u); W (sr u CS); W (eflags u); W (gr u ESP); W (sr u SS)])) in Hc.
  rewrite !cells_app in Hc |- *. destruct Hc as [[C1 _] C3]. cbn [length app] in C3 |- *. split_and!.
  - eapply cells_move, C1. cbn [length]. intros k Hr. apply Hk; lia.
  - split; [exact He|done].
  - eapply cells_move, C3. cbn [length]. intros k Hr. rewrite <- !Z.add_assoc. apply Hk; lia.
Qed.

(** ** allocproc *)

(** The stack that allocproc lays out. *)
Lemma context_cells m cx tr fr : word tr -> word fr ->
  cells (store32 (memset (store32 m (cx + 20) tr) cx 0 20) (cx + 16) fr) cx [W 0; W 0; W 0; W 0; W fr; W tr].
Proof.
  intros Htr Hfr.
  assert (Hz : forall k, 0 <= k <= 16 -> load32 (memset (store32 m (cx + 20) tr) cx 0 20) (cx + k) = 0)
    by (intros k Hk; apply load32_memset_zero; lia).
  pose proof (Hz 0 ltac:(lia)) as H0. rewrite Z.add_0_r in H0.
  cbn [cells cell_at]. rewrite <- !Z.add_assoc. cbn [Z.add Pos.add Pos.succ]. split_and!; [..|done].
  - rewrite load32_store32_other by lia. exact H0.
  - rewrite load32_store32_other by lia. by apply Hz.
  - rewrite load32_store32_other by lia. by apply Hz.
  - rewrite load32_store32_other by lia. by apply Hz.
  - rewrite load32_store32. by apply u32_small.
  - rewrite load32_store32_other, load32_memset_other, load32_store32 by lia. by apply u32_small.
Qed.

Lemma allocproc_context tr fr s i s' :
  allocproc tr fr s = Ok (Some i) s' -> word tr -> word fr ->
  exists p, k_procs s' !! i = Some p /\ p_tf p = p_context p + 24 /\ p_tf p + SIZEOF_TF = p_kstack p + KSTACKSIZE /\
    cells (kmemory (k_mem s')) (p_context p) [W 0; W 0; W 0; W 0; W fr; W tr].
Proof.
  intros E Htr Hfr. unfold allocproc in E. apply bind_inv in E as ([] & s1 & _ & E). unfold bind at 1, get in E. cbn in E.
  destruct (find_unused (k_procs s1)) as [j|] eqn:Ez.
  2:{ apply bind_inv in E as ([] & s2 & _ & E). discriminate. }
  apply bind_inv in E as ([] & s2 & E2 & E). apply bind_inv in E as ([] & s3 & E3 & E). apply bind_inv in E as ([] & s4 & E4 & E).
  apply bind_inv in E as (ks & s5 & E5 & E). destruct (ks =? 0); [apply bind_inv in E as ([] & s6 & _ & E); discriminate|].
  apply bind_inv in E as ([] & s6 & E6 & E). apply in_mem_modify in E6 as (M6 & _ & P6).
  apply bind_inv in E as ([] & s7 & E7 & E). injection E7 as E7.
  apply bind_inv in E as ([] & s8 & E8 & E). apply in_mem_modify in E8 as (M8 & _ & P8).
  apply bind_inv in E as ([] & s9 & E9 & E). apply in_mem_modify in E9 as (M9 & _ & P9). injection E as -> <-.
  assert (Hex : exists p0, k_procs s6 !! i = Some p0).
  { apply lookup_lt_is_Some. unfold find_unused in Ez. destruct (list_find _ (k_procs s1)) as [[k pk]|] eqn:Ef; [|done].
    injection Ez as <-. apply list_find_Some in Ef as (Hk & _). apply lookup_lt_Some in Hk.
    apply keeps_release in E4 as (_ & _ & E4). apply quietly_in_mem in E5 as (_ & _ & _ & _ & _ & E5).
    apply (f_equal length) in E4. rewrite !length_fmap in E4. apply Forall2_length in E5.
    injection E2 as E2. injection E3 as E3. rewrite P6, <- E5, E4, <- E3. cbn. rewrite <- E2. cbn. by rewrite length_alter. }
  destruct Hex as [p0 Hp0]. eexists. rewrite P9, P8, <- E7. cbn [k_procs set_procs]. rewrite list_lookup_alter_eq, Hp0. split; [reflexivity|].
  cbn [p_tf p_context p_kstack with_kstack]. unfold SIZEOF_TF, KSTACKSIZE, SIZEOF_CONTEXT, CX_EIP in *.
  split_and!; [lia|lia|]. rewrite M9, M8. rewrite <- E7. cbn [k_mem set_procs]. rewrite M6.
  replace (ks + 4096 - 76 - 4) with (ks + 4096 - 76 - 4 - 20 + 20) at 1 by lia. by apply context_cells.
Qed.

(** The return of forkret, with the stack pointer where swtch left it. *)
Lemma forkret_returns c cx fr tr : gr c ESP = cx + 20 -> 0 <= cx -> cx + 24 < 4294967296 ->
  cells (cm c) cx [W 0; W 0; W 0; W 0; W fr; W tr] -> eip (exec1 Ret_ c) = tr /\ gr (exec1 Ret_ c) ESP = cx + 24.
Proof.
  intros Es H0 H1 (_ & _ & _ & _ & _ & Ht & _). cbn [cell_at] in Ht. rewrite <- !Z.add_assoc in Ht. cbn [Z.add Pos.add Pos.succ] in Ht.
  split; [cbn [exec1 eip set_eip]; unfold top; by rewrite Es|].
  cbn [exec1 set_eip gr]. unfold drop_word. rewrite gr_set, decide_True, Es, u32_small by (done || lia). lia.
Qed.

(** The first switch to a new process: swtch goes to forkret, and the return
    of forkret, which finds its stack as it got it, goes to trapret with the
    stack pointer at the trap frame. *)
Lemma new_process_starts tr fr s i s' :
  allocproc tr fr s = Ok (Some i) s' -> word tr -> word fr ->
  exists p, k_procs s' !! i = Some p /\
    forall c a ret old, swtch_site c a ret old (p_context p) ->
      p_tf p <= a - 16 \/ a <= p_context p -> old + 4 <= p_context p \/ p_tf p <= old -> p_tf p < 4294967296 ->
      (forall x, p_context p <= x < p_tf p -> load8 (cm c) x = load8 (kmemory (k_mem s')) x) ->
      let c' := swtch c in
      eip c' = fr /\ eip (exec1 Ret_ c') = tr /\ gr (exec1 Ret_ c') ESP = p_tf p.
Proof.
  intros E Htr Hfr. destruct (allocproc_context _ _ _ _ _ E Htr Hfr) as (p & Hp & Htf & _ & Hc).
  exists p. split; [done|]. intros c a ret old Hsite Ha Ho Hb Hm. cbv zeta.
  pose proof (sw_new _ _ _ _ _ Hsite) as [Hn1 Hn2].
  assert (Hcall : swtch_call c a ret old (p_context p) (mkCtx 0 0 0 0 fr)).
  { constructor; [exact Hsite|]. eapply (cells_same (kmemory (k_mem s'))).
    - cbn [length ctx_cells]. intros x Hr. apply Hm. lia.
    - destruct Hc as (C0 & C1 & C2 & C3 & C4 & _). by repeat split. }
  destruct (swtch_switches _ _ _ _ _ _ Hcall) as (Ei & Es & _ & _ & _ & _ & _ & _ & Hx & _). split; [exact Ei|].
  rewrite Htf. apply (forkret_returns _ _ fr); [exact Es|lia|lia|].
  eapply cells_same, Hc. cbn [length]. intros x Hr. rewrite <- Hm by lia. apply Hx; lia.
Qed.
