(* ===== verification/Fork.v ===== *)
(** * fork(): the child is a copy of its parent

    fork() is run forward here: from a state in which it can work (a free
    slot, memory to spare, the caller's address space and trap frame in place)
    to the state it returns in.  The child's memory is described by
    [same_image], its registers by the assembly that takes it to user mode. *)

From S2P Require Import Prelude Monad Locks Memory CString Mmu Kalloc Vm VmSpec Uvm Kvm FsState Fs Kernel KernelSpec File Proc Asm FirstRun.

Open Scope Z_scope.
Open Scope kernel_scope.

(** ** Steps of fork(), each with no lock held before and after *)

Lemma in_mem_ok {A} (f : M kstate A) s a sub :
  f (enter k_mem s) = Ok a sub -> kthr sub = mkThread (held (k_thr s)) [] -> in_mem f s = Ok a (set_kmem sub s).
Proof.
  intros E Ht. unfold in_mem, zoom. rewrite E. unfold leave. cbn [thr kstate_KState]. rewrite Ht. cbn [held wakes foldr].
  do 2 f_equal. destruct s as [? ? ? ? ? ? ? ? ? ? ? ? ? [h w]]. done.
Qed.

Lemma in_mem_store f s : in_mem (modify (set_mem f)) s = Ok tt (set_kmem (set_mem f (enter k_mem s)) s).
Proof. by apply in_mem_ok. Qed.

Lemma acquire_none l (s : kernel) : held (k_thr s) = [] -> acquire l s = Ok tt (set_held [l] s).
Proof. intros Hh. rewrite acquire_ok; cbn; rewrite Hh; [done|apply not_elem_of_nil]. Qed.

Lemma release_one l (s : kernel) : held (k_thr s) = [l] -> release l s = Ok tt (set_held [] s).
Proof. intros Hh. by apply release_top. Qed.

Lemma alter_twice {A} (f g : A -> A) i (l : list A) : alter f i (alter g i l) = alter (fun x => f (g x)) i l.
Proof.
  apply list_eq. intros j. destruct (decide (i = j)) as [->|]; [rewrite !list_lookup_alter_eq|by rewrite !list_lookup_alter_ne].
  by destruct (l !! j).
Qed.

Section fork.
Context (kend kdata tr fr : Z).

Lemma allocproc_runs s i ks l :
  held (k_thr s) = [] -> find_unused (k_procs s) = Some i -> free_list kend (k_mem s) (ks :: l) ->
  exists s', allocproc tr fr s = Ok (Some i) s' /\ k_cur s' = k_cur s /\ k_fs s' = k_fs s /\ k_files s' = k_files s /\
    held (k_thr s') = [] /\ free_list kend (k_mem s') l /\ page_ok kend ks /\ (ks ∉ l) /\
    only (fun q => q = ks) (kmemory (k_mem s)) (kmemory (k_mem s')) /\
    k_procs s' = alter (with_kstack ks (ks + KSTACKSIZE - SIZEOF_TF) (ks + KSTACKSIZE - SIZEOF_TF - 4 - SIZEOF_CONTEXT))
      i (alter (fun p => with_pid (k_nextpid s) (with_state EMBRYO p)) i (k_procs s)).
Proof.
  destruct s as [km fs co ps npid ip cu fl pps tk fi ex id [h w]]. cbn [k_thr held k_procs k_mem k_cur k_fs k_files k_nextpid].
  intros -> Hi Hf. unfold allocproc.
  set (K hs ps npid km := mkKernel km fs co ps npid ip cu fl pps tk fi ex id (mkThread hs w)).
  change (mkKernel km fs co ps npid ip cu fl pps tk fi ex id (mkThread [] w)) with (K [] ps npid km).
  rewrite (bind_Ok _ _ _ _ _ (acquire_none LkPtable (K [] ps npid km) eq_refl)).
  change (set_held [LkPtable] _) with (K [LkPtable] ps npid km).
  rewrite (bind_Ok get _ (K [LkPtable] ps npid km) _ _ eq_refl). cbn [K k_procs]. rewrite Hi.
  set (ps1 := alter (fun p => with_pid npid (with_state EMBRYO p)) i ps).
  rewrite (bind_Ok (upd_proc _ _) _ (K [LkPtable] ps npid km) tt (K [LkPtable] ps1 npid km) eq_refl).
  rewrite (bind_Ok (modify _) _ (K [LkPtable] ps1 npid km) tt (K [LkPtable] ps1 (s32 (npid + 1)) km) eq_refl).
  rewrite (bind_Ok _ _ _ _ _ (release_one LkPtable (K [LkPtable] ps1 (s32 (npid + 1)) km) eq_refl)).
  change (set_held [] _) with (K [] ps1 (s32 (npid + 1)) km).
  destruct (kalloc_cons kend (enter k_mem (K [] ps1 (s32 (npid + 1)) km)) ks l) as (km1 & Hk & Hm & Ht & Hf1 & H0 & Hpg & Hn);
    [done|apply not_elem_of_nil|].
  rewrite (bind_Ok _ _ _ _ _ (in_mem_ok _ _ _ _ Hk Ht)). 
  change (set_kmem km1 _) with (K [] ps1 (s32 (npid + 1)) km1). destruct (Z.eqb_spec ks 0); [done|].
  unfold kstore32, kmemset, wr32, memset_k. rewrite (bind_Ok _ _ _ _ _ (in_mem_store _ _)).
  rewrite (bind_Ok (upd_proc _ _) _ _ _ _ eq_refl). rewrite !(bind_Ok _ _ _ _ _ (in_mem_store _ _)).
  eexists. split; [reflexivity|]. cbn [k_cur k_fs k_files k_thr k_mem k_procs set_kmem set_procs K enter set_mem].
  assert (Ho : only (fun q => q = ks) (kmemory km)
    (store32 (memset (store32 (kmemory km1) (ks + KSTACKSIZE - SIZEOF_TF - 4) tr) (ks + KSTACKSIZE - SIZEOF_TF - 4 - SIZEOF_CONTEXT) 0 SIZEOF_CONTEXT)
       (ks + KSTACKSIZE - SIZEOF_TF - 4 - SIZEOF_CONTEXT + CX_EIP) fr)).
  { intros x Hx. specialize (Hx ks eq_refl). unfold in_page, KSTACKSIZE, SIZEOF_TF, SIZEOF_CONTEXT, CX_EIP in *.
    rewrite load8_store32. zif; [lia|]. rewrite load8_memset by lia. zif; [lia|]. rewrite load8_store32. zif; [lia|]. by rewrite Hm. }
  split_and!; [done..| |done|done|exact Ho|done].
  eapply (free_list_only kend (fun q => q = ks) km1); [done| |done|by intros q ->].
  intros x Hx. etransitivity; [exact (Ho x Hx)|]. by rewrite Hm.
Qed.

(** Duplicating the descriptors changes reference counts and the child. *)
Fixpoint ofile_after (k : nat) (fs old : list (option nat)) : list (option nat) :=
  match fs with
  | [] => old
  | None :: fs => ofile_after (S k) fs old
  | Some f :: fs => ofile_after (S k) fs (<[k := Some f]> old)
  end.

Definition open_file (s : kernel) (f : nat) : Prop := exists fl, k_files s !! f = Some fl /\ 1 <= f_ref fl.

Lemma filedup_ok s f : held (k_thr s) = [] -> open_file s f ->
  exists fls, filedup f s = Ok f (set_files fls s) /\ forall g, open_file s g -> exists fl, fls !! g = Some fl /\ 1 <= f_ref fl.
Proof.
  destruct s as [km fs co ps npid ip cu fls pps tk fi ex id [h w]]. cbn [k_thr held]. intros -> (fl & Hfl & Hr). unfold filedup.
  set (K hs fls := mkKernel km fs co ps npid ip cu fls pps tk fi ex id (mkThread hs w)).
  rewrite (bind_Ok _ _ _ _ _ (acquire_none LkFtable (K [] fls) eq_refl)). change (set_held [LkFtable] _) with (K [LkFtable] fls).
  assert (E : get_file f (K [LkFtable] fls) = Ok fl (K [LkFtable] fls)) by (unfold get_file; cbn in *; by rewrite Hfl).
  rewrite (bind_Ok _ _ _ _ _ E). zif; [lia|]. rewrite (bind_Ok (upd_file _ _) _ _ _ _ eq_refl).
  change (set_files _ (K _ fls)) with (K [LkFtable] (alter (with_fref (f_ref fl + 1)) f fls)).
  rewrite (bind_Ok _ _ _ _ _ (release_one LkFtable (K [LkFtable] _) eq_refl)).
  exists (alter (with_fref (f_ref fl + 1)) f fls). split; [reflexivity|]. intros g (fg & Hg & Hrg). cbn in Hg, Hfl.
  destruct (decide (f = g)) as [->|]; [|rewrite list_lookup_alter_ne by done; by exists fg].
  rewrite list_lookup_alter_eq, Hg. eexists. split; [reflexivity|]. cbn. lia.
Qed.

Lemma dup_files_ok np fs : forall k s, held (k_thr s) = [] -> (forall f, Some f ∈ fs -> open_file s f) ->
  exists fls, dup_files np k fs s =
    Ok tt (set_procs (alter (fun q => with_ofile (ofile_after k fs (p_ofile q)) q) np (k_procs s)) (set_files fls s)).
Proof.
  induction fs as [|[f|] fs IH]; intros k s Hh Hf; cbn [dup_files ofile_after].
  - exists (k_files s). unfold ret. f_equal. destruct s. unfold set_procs, set_files. cbn. f_equal.
    symmetry. apply list_alter_id. by intros [].
  - destruct (filedup_ok s f Hh) as (fls & E & Hfls); [apply Hf; set_solver|]. rewrite (bind_Ok _ _ _ _ _ E).
    rewrite (bind_Ok (upd_proc _ _) _ _ _ _ eq_refl).
    destruct (IH (S k) (set_procs (alter (fun p => with_ofile (<[k := Some f]> (p_ofile p)) p) np (k_procs s)) (set_files fls s)))
      as (fls' & E'); [done|intros g Hg; apply Hfls, Hf; set_solver|].
    exists fls'. etransitivity; [exact E'|]. f_equal. unfold set_procs, set_files. cbn. f_equal. by rewrite alter_twice.
  - apply IH; [done|]. intros f Hin. apply Hf. set_solver.
Qed.

Lemma idup_ok s d : held (k_thr s) = [] -> (d < length (icache (k_fs s)))%nat ->
  exists fs', in_fs (idup d) s = Ok d (set_kfs fs' s).
Proof.
  intros Hh Hd. destruct (lookup_lt_is_Some_2 _ _ Hd) as [ip Hip].
  destruct s as [km fs co ps npid iproc cu fls pps tk fi ex id [h w]]. cbn [k_thr held k_fs] in *. subst h.
  unfold in_fs, zoom, idup. set (e := enter k_fs _).
  assert (He : held (thr e) = []) by reflexivity.
  rewrite (bind_Ok _ _ _ _ _ (acquire_ok LkIcache e ltac:(rewrite He; apply not_elem_of_nil))). set (e1 := set_held _ e).
  assert (E : get_inode d e1 = Ok ip e1) by (unfold get_inode; cbn; by rewrite Hip).
  set (e2 := set_icache (<[d := with_ref (i_ref ip + 1) ip]> (icache e1)) e1).
  rewrite (bind_Ok (bind _ _) _ e1 tt e2) by (by rewrite (bind_Ok _ _ _ _ _ E)).
  assert (H2 : held (thr e2) = [LkIcache]) by reflexivity.
  rewrite (bind_Ok _ _ _ _ _ (release_top LkIcache [] e2 H2)).
  eexists. reflexivity.
Qed.

(** ** The whole of fork() *)

Record can_fork (s : kernel) (me np : nat) (p : proc) (l : list Z) : Prop := mkCanFork {
  cf_locks : held (k_thr s) = [];
  cf_cur : k_cur s = Some me;
  cf_proc : k_procs s !! me = Some p;
  cf_running : p_state p = RUNNING;
  cf_slot : find_unused (k_procs s) = Some np;
  cf_free : free_list kend (k_mem s) l;
  cf_space : user_space kend (kmemory (k_mem s)) (p_pgdir p) (p_sz p) l;
  cf_size : 0 <= p_sz p <= KERNBASE;
  cf_room : 71 + 2 * ((p_sz p + 4095) / 4096) <= Z.of_nat (length l);
  cf_stack : page_ok kend (p_kstack p) /\ (p_kstack p ∉ l) /\ p_tf p + SIZEOF_TF = p_kstack p + KSTACKSIZE;
  cf_files : forall f, Some f ∈ p_ofile p -> open_file s f;
  cf_cwd : exists d, p_cwd p = Some d /\ (d < length (icache (k_fs s)))%nat
}.

(** The child in the table. *)
Record child_of (s s' : kernel) (me np : nat) (p q : proc) : Prop := mkChildOf {
  co_cur : k_cur s' = Some me;
  co_parent : k_procs s' !! me = Some p;
  co_child : k_procs s' !! np = Some q;
  co_pid : p_pid q = k_nextpid s;
  co_state : p_state q = RUNNABLE;
  co_father : p_parent q = Some me;
  co_sz : p_sz q = p_sz p;
  co_cwd : p_cwd q = p_cwd p;
  co_name : exists q0, k_procs s !! np = Some q0 /\ p_name q = arr_safestrcpy 15 (p_name q0) (p_name p)
}.

(** The end of fork(), from the descriptors on. *)
Definition fork_end (np : nat) (p : proc) (pid : Z) : M kernel Z :=
  dup_files np 0 (p_ofile p) ;;
  match p_cwd p with
  | None => fault "null cwd"
  | Some d =>
      in_fs (idup d) ;;
      upd_proc np (with_cwd (Some d)) ;;
      upd_proc np (proc_name (p_name p)) ;;
      acquire LkPtable ;;
      upd_proc np (with_state RUNNABLE) ;;
      release LkPtable ;;
      ret pid
  end.

Definition finished (p q : proc) : proc :=
  with_state RUNNABLE (proc_name (p_name p) (with_cwd (p_cwd p) (with_ofile (ofile_after 0 (p_ofile p) (p_ofile q)) q))).

Lemma fork_end_ok np p pid s :
  held (k_thr s) = [] -> (forall f, Some f ∈ p_ofile p -> open_file s f) ->
  (exists d, p_cwd p = Some d /\ (d < length (icache (k_fs s)))%nat) ->
  exists s', fork_end np p pid s = Ok pid s' /\ k_mem s' = k_mem s /\ k_cur s' = k_cur s /\
    k_procs s' = alter (finished p) np (k_procs s).
Proof.
  intros Hh Hf (d & Ed & Hd). unfold fork_end, finished. rewrite Ed.
  destruct (dup_files_ok np (p_ofile p) 0 s Hh Hf) as (fls & E). rewrite (bind_Ok _ _ _ _ _ E).
  set (s1 := set_procs _ _). destruct (idup_ok s1 d Hh Hd) as (fs' & E1). rewrite (bind_Ok _ _ _ _ _ E1).
  rewrite !(bind_Ok (upd_proc _ _) _ _ _ _ eq_refl).
  set (s2 := set_procs _ (set_procs _ _)). assert (Hh2 : held (k_thr s2) = []) by exact Hh.
  rewrite (bind_Ok _ _ _ _ _ (acquire_none LkPtable s2 Hh2)). rewrite (bind_Ok (upd_proc _ _) _ _ _ _ eq_refl).
  set (s3 := set_procs _ (set_held [LkPtable] s2)). assert (Hh3 : held (k_thr s3) = [LkPtable]) by reflexivity.
  rewrite (bind_Ok _ _ _ _ _ (release_one LkPtable s3 Hh3)). eexists. split; [reflexivity|]. split; [done|]. split; [done|].
  cbn. by rewrite !alter_twice.
Qed.

(** Where the child's trap frame is written, its image is not. *)
Lemma image_kept ks pgdir d sz m m1 m2 l l' :
  sz <= KERNBASE -> page_ok kend ks -> ks ∉ l -> Forall (page_ok kend) l -> pt_ok kend m1 d l' -> (forall q, owned m1 d q -> q ∈ l) ->
  only (fun q => q = ks) m1 m2 -> same_image pgdir d sz m m1 l -> same_image pgdir d sz m m2 l.
Proof.
  unfold KERNBASE. intros Hsz Hks Hn Hok Pt Ho Hw [I1 I2 I3 I4]. rewrite Forall_forall in Hok.
  destruct (pt_frame kend (fun q => q = ks) m1 m2 d l' Pt Hw) as [_ F]; [by intros q ->|by intros q Hq ->; apply Hn, Ho|].
  assert (Hva : forall va, 0 <= va < sz -> is_va va) by (unfold is_va; lia).
  assert (Ff : forall va, 0 <= va < sz -> frame m2 d va = frame m1 d va) by (intros va H; unfold frame; rewrite F; auto).
  split.
  - intros va H. rewrite F; auto.
  - intros va H. rewrite Ff; auto.
  - intros va va' H H'. rewrite !Ff by done. auto.
  - intros va H. rewrite Ff, <- I4 by done. apply Hw. intros q -> Hx. pose proof (I2 va H) as Hin.
    assert (frame m1 d va <> ks) by (intros E; by rewrite E in Hin).
    pose proof (page_ok_disjoint kend _ ks (Hok _ Hin) Hks ltac:(done)). unfold in_page in *. zlia.
Qed.

Lemma unused_not_running (s : kernel) me np p :
  k_procs s !! me = Some p -> p_state p = RUNNING -> find_unused (k_procs s) = Some np -> me <> np /\ exists q, k_procs s !! np = Some q.
Proof.
  intros Hp Hr Hf. unfold find_unused in Hf. destruct (list_find _ _) as [[i q]|] eqn:E; [|done]. injection Hf as <-.
  apply list_find_Some in E as (Hq & Hu & _). split; [|by exists q]. intros ->. congruence.
Qed.

(** The stack of the new process is not part of the caller's space. *)
Lemma space_beside_stack ks m m1 pgdir sz l :
  sz <= KERNBASE -> page_ok kend ks -> user_space kend m pgdir sz (ks :: l) -> only (fun q => q = ks) m m1 ->
  user_space kend m1 pgdir sz l /\ same_space pgdir sz m m1.
Proof.
  intros Hsz Hks U Ho. pose proof (us_pt _ _ _ _ _ U) as Pt.
  destruct (space_kept kend (fun q => q = ks) m m1 pgdir sz (ks :: l) l Hsz U Ho) as (U' & S & _); [by exists [ks]|by intros q ->|..|done].
  - intros q [->|(e & He & Hpe & <-)] E; [destruct (pt_dir_free _ _ _ _ Pt); set_solver|].
    destruct (pt_tab _ _ _ _ Pt e He Hpe) as (_ & _ & []). set_solver.
  - intros va Hva E. destruct (us_frame _ _ _ _ _ U va Hva) as [_ []]. set_solver.
Qed.

(** The stores of the trap frame. *)
Lemma frame_stores ks m tfp : only (fun q => q = ks) m
  (store32 (memmove m (ks + KSTACKSIZE - SIZEOF_TF) tfp SIZEOF_TF) (ks + KSTACKSIZE - SIZEOF_TF + TF_EAX) 0).
Proof.
  intros x Hx. specialize (Hx ks eq_refl). unfold in_page, KSTACKSIZE, SIZEOF_TF, TF_EAX in *.
  rewrite load8_store32. zif; [lia|]. rewrite load8_memmove by lia. by zif; [lia|].
Qed.

(** The part of fork() that builds the child: what it has done when the
    descriptors are next. *)
Lemma fork_start s me np p l : kdata_ok kdata -> can_fork s me np p l ->
  exists s' ks d, fork kend kdata tr fr s = fork_end np p (k_nextpid s) s' /\
    held (k_thr s') = [] /\ k_cur s' = k_cur s /\ k_fs s' = k_fs s /\ k_files s' = k_files s /\
    k_procs s' = alter (fun q => with_parent (Some me) (with_vm (p_sz p) d
      (with_kstack ks (ks + KSTACKSIZE - SIZEOF_TF) (ks + KSTACKSIZE - SIZEOF_TF - 4 - SIZEOF_CONTEXT)
      (with_pid (k_nextpid s) (with_state EMBRYO q))))) np (k_procs s) /\
    page_ok kend ks /\ ks ∈ l /\ only (fun q => q ∈ l) (kmemory (k_mem s)) (kmemory (k_mem s')) /\
    child_frame (kmemory (k_mem s')) (p_tf p) (ks + KSTACKSIZE - SIZEOF_TF) /\
    same_image (p_pgdir p) d (p_sz p) (kmemory (k_mem s)) (kmemory (k_mem s')) l.
Proof.
  intros Hk [Hh Hc Hp Hr Hi Hf U Hsz Hroom (Hst & Hnst & Htf) Hfl Hcwd].
  destruct l as [|ks l]; [cbn in Hroom; zlia|]. cbn [length] in Hroom.
  destruct (unused_not_running s me np p Hp Hr Hi) as (Hne & q0 & Hq0).
  destruct (allocproc_runs s np ks l Hh Hi Hf) as (s1 & E1 & C1 & F1 & L1 & H1 & Hf1 & Hks & Hn & O1 & P1).
  destruct (space_beside_stack ks _ _ _ _ l (proj2 Hsz) Hks U O1) as [U1 S1].
  assert (Hp1 : k_procs s1 !! me = Some p) by (by rewrite P1, !list_lookup_alter_ne).
  assert (Hq1 : exists q1, k_procs s1 !! np = Some q1 /\ p_tf q1 = ks + KSTACKSIZE - SIZEOF_TF /\ p_pid q1 = k_nextpid s).
  { rewrite P1, !list_lookup_alter_eq, Hq0. eexists. split; [reflexivity|]. done. }
  destruct Hq1 as (q1 & Hq1 & Tq1 & Iq1).
  destruct (copyuvm_correct kend kdata (p_pgdir p) (p_sz p) (enter k_mem s1) l Hk Hsz)
    as (d & sub & l' & E2 & Hd & Pt & Ho & _ & _ & Ht & Oc & _ & I & _).
  { exact U1. }
  { exact Hf1. }
  { cbn. rewrite H1. apply not_elem_of_nil. }
  { lia. }
  unfold fork. rewrite (bind_Ok _ _ _ _ _ E1).
  assert (Ecur : cur s1 = Ok me s1) by (unfold cur; by rewrite C1, Hc). rewrite (bind_Ok _ _ _ _ _ Ecur).
  assert (Eget : get_proc me s1 = Ok p s1) by (unfold get_proc; by rewrite Hp1). rewrite (bind_Ok _ _ _ _ _ Eget).
  rewrite (bind_Ok _ _ _ _ _ (in_mem_ok _ _ _ _ E2 Ht)). rewrite (bind_Ok (upd_proc _ _) _ _ _ _ eq_refl).
  destruct (Z.eqb_spec d 0); [done|]. rewrite (bind_Ok (upd_proc _ _) _ _ _ _ eq_refl).
  set (s2 := set_procs _ (set_procs _ _)).
  assert (Hq2 : exists q2, get_proc np s2 = Ok q2 s2 /\ p_tf q2 = ks + KSTACKSIZE - SIZEOF_TF /\ p_pid q2 = k_nextpid s).
  { unfold get_proc. cbn. rewrite !list_lookup_alter_eq, Hq1. eexists. split; [reflexivity|]. done. }
  destruct Hq2 as (q2 & Eq2 & Tq2 & Iq2). rewrite (bind_Ok _ _ _ _ _ Eq2), Tq2, Iq2.
  unfold kmemmove, kstore32, wr32, memmove_k. rewrite !(bind_Ok _ _ _ _ _ (in_mem_store _ _)).
  eexists _, ks, d. split; [reflexivity|]. cbn -[store32 memmove]. rewrite P1, !alter_twice. split_and!; [done..|set_solver| | |].
  - eapply (only_trans _ (fun q => q = ks)); [|apply frame_stores|intros q ->; set_solver].
    eapply (only_trans _ (fun q => q ∈ l)); [|exact Oc|set_solver]. intros x Hx. apply O1. intros q ->. apply Hx. set_solver.
  - apply copied_frame. assert (Hns : p_kstack p <> ks) by set_solver.
    pose proof (page_ok_disjoint kend _ _ Hst Hks Hns). unfold SIZEOF_TF, KSTACKSIZE in *. lia.
  - eapply (same_space_user _ _ _ _ _ _ (ks :: l) l); [lia|by exists [ks]|exact S1|].
    eapply (image_kept ks); [lia|done|done|apply Hf1|exact Pt|exact Ho|apply frame_stores|exact I].
Qed.

Lemma fork_runs s me np p l : kdata_ok kdata -> can_fork s me np p l ->
  exists s' q, fork kend kdata tr fr s = Ok (k_nextpid s) s' /\ child_of s s' me np p q /\
    same_image (p_pgdir p) (p_pgdir q) (p_sz p) (kmemory (k_mem s)) (kmemory (k_mem s')) l /\
    child_frame (kmemory (k_mem s')) (p_tf p) (p_tf q) /\
    (forall x, in_page (p_kstack p) x -> load8 (kmemory (k_mem s')) x = load8 (kmemory (k_mem s)) x) /\
    page_ok kend (p_kstack q) /\ p_tf q + SIZEOF_TF = p_kstack q + KSTACKSIZE.
Proof.
  intros Hk [Hh Hc Hp Hr Hi Hf U Hsz Hroom (Hst & Hnst & Htf) Hfl Hcwd].
  pose proof (mkCanFork s me np p l Hh Hc Hp Hr Hi Hf U Hsz Hroom (conj Hst (conj Hnst Htf)) Hfl Hcwd) as CF.
  destruct (unused_not_running s me np p Hp Hr Hi) as (Hne & q0 & Hq0).
  destruct (fork_start s me np p l Hk CF) as (s1 & ks & d & E & H1 & C1 & F1 & L1 & P1 & Hks & Hin & O1 & Fr & I).
  destruct (fork_end_ok np p (k_nextpid s) s1 H1) as (s' & E' & M' & C' & P').
  { intros f Hf'. unfold open_file. rewrite L1. by apply Hfl. }
  { by rewrite F1. }
  rewrite P1, alter_twice in P'.
  assert (Hq : exists q, k_procs s' !! np = Some q /\ q = finished p (with_parent (Some me) (with_vm (p_sz p) d
      (with_kstack ks (ks + KSTACKSIZE - SIZEOF_TF) (ks + KSTACKSIZE - SIZEOF_TF - 4 - SIZEOF_CONTEXT)
      (with_pid (k_nextpid s) (with_state EMBRYO q0)))))).
  { rewrite P', list_lookup_alter_eq, Hq0. by eexists. }
  destruct Hq as (q & Hq & Eq). exists s', q. rewrite E, E', M'. split; [done|]. split.
  { split; try done; subst q; try done; [by rewrite C', C1|by rewrite P', list_lookup_alter_ne|by exists q0]. }
  subst q. cbn -[KSTACKSIZE SIZEOF_TF]. split_and!; [done|done| |done|lia].
  intros x Hx. apply O1. intros q Hql Hqx. destruct Hf as (_ & _ & Hok). rewrite Forall_forall in Hok.
  assert (Hns : p_kstack p <> q) by (intros Es; by rewrite Es in Hnst). pose proof (page_ok_disjoint kend _ _ Hst (Hok q Hql) Hns). unfold in_page in *. lia.
Qed.

(** C5: fork() returns twice.  With a free slot and memory to spare, fork()
    returns the next process number in the parent, which goes on as it was,
    and leaves a runnable child: its address space is a copy of the parent's,
    page by page, on frames of its own; and whatever registers [u] the parent
    had when it trapped into the kernel, trapret takes the child to user mode
    with the same registers, stack pointer and next instruction, and with 0 as
    the value of fork(). *)
Theorem fork_returns_twice s me np p l : kdata_ok kdata -> can_fork s me np p l ->
  exists s' q, fork kend kdata tr fr s = Ok (k_nextpid s) s' /\ child_of s s' me np p q /\
    same_image (p_pgdir p) (p_pgdir q) (p_sz p) (kmemory (k_mem s)) (kmemory (k_mem s')) l /\
    forall u oesp n err c, user u = true -> (forall r, half (sr u r)) ->
      cells (kmemory (k_mem s)) (p_tf p) (frame_cells u oesp n err) ->
      gr c ESP = p_tf q -> level (sr c CS) = 0 -> cm c = kmemory (k_mem s') ->
      let c' := Asm.trapret c in
      gr c' EAX = 0 /\ (forall r, r <> EAX -> gr c' r = gr u r) /\ (forall r, sr c' r = sr u r) /\
      eip c' = eip u /\ eflags c' = eflags u.
Proof.
  intros Hk CF. pose proof (cf_stack _ _ _ _ _ CF) as (_ & _ & Htf).
  destruct (fork_runs s me np p l Hk CF) as (s' & q & E & C & I & Fr & Hx & (Hks & _ & _ & Hph) & Hq).
  exists s', q. split_and!; [done..|]. intros u oesp n err c Hu Hs Hc Hesp Hlev Hm. cbv zeta.
  assert (Hc' : cells (kmemory (k_mem s')) (p_tf p) (frame_cells u oesp n err)).
  { eapply cells_move, Hc. intros k Hr. apply Hx. unfold frame_cells in Hr. rewrite Hu in Hr. cbn in Hr.
    unfold in_page, SIZEOF_TF, KSTACKSIZE in *. lia. }
  pose proof (child_cells _ _ _ u oesp n err Fr Hu Hc') as Hcc. rewrite <- Hm in Hcc.
  assert (Hb : 0 <= p_tf q /\ p_tf q + 76 < 4294967296).
  { unfold SIZEOF_TF, KSTACKSIZE, v2p, KERNBASE, PHYSTOP in *. zlia. }
  destruct (trapret_restores c (p_tf q) (set_gr EAX 0 u) oesp n err) as (Rg & Rs & Ri & Rf & _); [by split|done|done|lia|lia| |].
  { intros Hu'. change (user u = false) in Hu'. congruence. }
  split_and!; [by rewrite Rg| |done|done|done]. intros r Hr. rewrite Rg. cbn [gr set_gr]. by rewrite decide_False.
Qed.
End fork.

(** ** A process that can fork *)

Module ForkDemo.
Definition base : mem := UvmDemo.m1.
Definition free : list Z := (fun i => UvmDemo.page (4 + Z.of_nat i)) <$> seq 0 76.
Definition kend0 : Z := UvmDemo.kend.

(** The pages of [l] linked to a free list. *)
Fixpoint link (l : list Z) (m : mem) : mem :=
  match l with
  | [] => m
  | p :: l => store32 (link l m) p (hd 0 l)
  end.

Lemma link_only l m : only (fun q => q ∈ l) m (link l m).
Proof.
  induction l as [|p l IH]; [done|]. cbn [link]. eapply (only_trans _ (fun q => q = p)).
  - intros x Hx. apply IH. intros q Hq. apply Hx. set_solver.
  - apply (only_store32 _ _ p); unfold in_page; [done|lia|lia].
  - intros q ->. set_solver.
Qed.

Lemma link_chain l m : NoDup l -> Forall (page_ok kend0) l -> chain (link l m) (hd 0 l) l.
Proof.
  induction l as [|p l IH]; [done|]. intros [Hn Hnd]%NoDup_cons [Hp Hok]%Forall_cons. cbn [link chain hd].
  split; [done|]. split; [destruct Hp; lia|]. rewrite load32_store32.
  assert (Eh : u32 (hd 0 l) = hd 0 l) by (destruct l; [done|]; apply Forall_cons in Hok as [(? & _) _]; apply u32_small; cbn; lia).
  rewrite Eh. eapply chain_frame, IH; [|done|done]. intros a Ha. rewrite Forall_forall in Hok.
  assert (Hne : a <> p) by (intros ->; done). pose proof (page_ok_disjoint kend0 a p (Hok a Ha) Hp Hne).
  apply load32_store32_other. lia.
Qed.

Lemma free_pages_ok : Forall (page_ok kend0) free.
Proof.
  apply Forall_forall. intros q (i & -> & Hi)%list_elem_of_fmap. apply elem_of_seq in Hi.
  unfold page_ok, kend0, UvmDemo.kend, UvmDemo.page, UvmDemo.D, v2p, KERNBASE, PHYSTOP. zlia.
Qed.

Definition memory : kstate := mkK (link free base) true (hd 0 free) 0 (mkThread [] []).

Lemma memory_free : free_list kend0 memory free.
Proof.
  assert (Hnd : NoDup free) by (apply (bool_decide_unpack _); vm_compute; done).
  split; [|split; [done|apply free_pages_ok]]. apply link_chain; [done|apply free_pages_ok].
Qed.

Lemma not_free i : 0 <= i < 4 -> UvmDemo.page i ∉ free.
Proof. intros Hi (j & E & _)%list_elem_of_fmap. unfold UvmDemo.page in E. lia. Qed.

Lemma base_space : user_space kend0 base UvmDemo.D 4096 free.
Proof.
  split.
  - apply UvmDemo.m1_pt; [by apply not_free|]. by apply (not_free 0).
  - intros va Hva. rewrite UvmDemo.m1_pte by done. by apply user_entry_spec with kend0, UvmDemo.page_demo_ok.
  - intros va Hva. unfold frame. rewrite UvmDemo.m1_pte by done.
    destruct (user_entry_spec kend0 (UvmDemo.page 2)) as (_ & _ & ->); [by apply UvmDemo.page_demo_ok|].
    split; [by apply UvmDemo.page_demo_ok|by apply not_free].
Qed.

Lemma memory_space : user_space kend0 (kmemory memory) UvmDemo.D 4096 free.
Proof.
  destruct (space_kept kend0 _ base (kmemory memory) UvmDemo.D 4096 free free ltac:(unfold KERNBASE; lia) base_space (link_only _ _))
    as (U & _); [done|..|exact U].
  - intros q Hq. pose proof free_pages_ok as Hok. rewrite Forall_forall in Hok. auto.
  - intros q Hq Hf. destruct (UvmDemo.m1_owned q Hq) as [->| ->]; [by apply (not_free 0) in Hf|by apply not_free in Hf].
  - intros va Hva Hf. by apply (us_frame _ _ _ _ _ base_space va Hva) in Hf.
Qed.

Definition parent : proc :=
  mkProc 4096 UvmDemo.D (UvmDemo.page 3) RUNNING 1 None (UvmDemo.page 3 + 4020) 0 None false (repeat None 16) (Some 0%nat) (repeat 0 16) 0.
Definition root : inode := mkInode 1 1 1 false true 1 0 0 1 48 (6 :: replicate 12 0).
Definition machine : kernel :=
  set_nextpid 2 (set_procs [parent; Blank.unused0]
    (set_kfs (set_icache [root] (k_fs Blank.kernel0)) (set_kmem memory Blank.kernel0))).

Lemma machine_can_fork : can_fork kend0 machine 0 1 parent free.
Proof.
  split; try done.
  - exact memory_free.
  - exact memory_space.
  - split; [by apply UvmDemo.page_demo_ok|]. split; [by apply not_free|done].
  - intros f Hf. cbn in Hf. set_solver.
  - exists 0%nat. split; [done|]. cbn. lia.
Qed.

Lemma fork_returns_twice_witness :
  exists s' q, fork kend0 (KERNLINK + 4096) 0 0 machine = Ok 2 s' /\ child_of machine s' 0 1 parent q /\
    same_image UvmDemo.D (p_pgdir q) 4096 (kmemory memory) (kmemory (k_mem s')) free.
Proof.
  destruct (fork_returns_twice kend0 (KERNLINK + 4096) 0 0 machine 0 1 parent free) as (s' & q & E & C & I & _).
  - unfold kdata_ok, KERNLINK, p2v, KERNBASE, EXTMEM, PHYSTOP. zlia.
  - exact machine_can_fork.
  - exists s', q. split; [exact E|]. split; [exact C|exact I].
Defined.
End ForkDemo.
