(* ===== verification/ProcSpec.v ===== *)
(** * The process table

    One process runs, the one the CPU holds; sleepers wait on a channel; the
    processes in use have different numbers.  The operations of proc.c keep
    this, whether they return or put the process to sleep.  The scheduler's
    sweep reaches every process that can run. *)

From S2P Require Import Prelude Monad Locks Memory CString Mmu Kalloc Vm VmSpec FsState FsLayout Log Fs Dir Console Kernel KernelSpec Pipe File Proc SysArg SysProc Exec ExecSpec SysFile ExIde Syscall FileRefs.

Open Scope Z_scope.
Open Scope kernel_scope.

(** ** Steps that leave the table's invariant alone *)

Definition like (p p' : proc) : Prop :=
  p_pid p' = p_pid p /\ p_chan p' = p_chan p /\
  (p_state p' = p_state p \/ (p_state p = SLEEPING /\ p_state p' = RUNNABLE)).

Definition tame (s s' : kernel) : Prop :=
  k_cur s' = k_cur s /\ k_nextpid s' = k_nextpid s /\ Forall2 like (k_procs s) (k_procs s').

#[export] Instance like_preorder : PreOrder like.
Proof.
  split.
  - intros p. split_and!; [done..|by left].
  - intros p q r (A1 & B1 & C1) (A2 & B2 & C2). split_and!; [congruence|congruence|].
    destruct C1 as [E1|[E1 F1]], C2 as [E2|[E2 F2]].
    + left. congruence.
    + right. by rewrite <- E1.
    + right. by rewrite E2.
    + congruence.
Qed.

#[export] Instance tame_preorder : PreOrder tame.
Proof.
  split.
  - intros s. by split_and!.
  - intros s1 s2 s3 (? & ? & H1) (? & ? & H2). split_and!; [congruence|congruence|].
    by transitivity (k_procs s2).
Qed.

Lemma quiet_tame s s' : quiet s s' -> tame s s'.
Proof.
  intros (Hc & _ & _ & Hn & _ & Hp). split_and!; [done|done|].
  eapply Forall2_impl; [exact Hp|]. intros p p' [->|[Hs ->]]; [done|]. split_and!; [done|done|by right].
Qed.

Definition tamely {A} (m : M kernel A) : Prop := forall s a s', m s = Ok a s' -> tame s s'.

Lemma tamely_quiet {A} (m : M kernel A) : quietly m -> tamely m.
Proof. intros H s a s' E. by eapply quiet_tame, H. Qed.

Lemma tamely_bind {A B} (m : M kernel A) (k : A -> M kernel B) :
  tamely m -> (forall a, tamely (k a)) -> tamely (bind m k).
Proof.
  intros Hm Hk s b s' E. apply bind_inv in E as (a & s1 & E1 & E2).
  transitivity s1; [by eapply Hm|by eapply Hk].
Qed.

Lemma tamely_modify f :
  (forall s, k_cur (f s) = k_cur s /\ k_nextpid (f s) = k_nextpid s /\ k_procs (f s) = k_procs s) ->
  tamely (modify f).
Proof.
  intros H s a s' [= _ <-]. destruct (H s) as (? & ? & E). split_and!; [done|done|]. by rewrite E.
Qed.

Lemma tamely_upd_proc i f : (forall p, like p (f p)) -> tamely (upd_proc i f).
Proof.
  intros Hf s a s' [= _ <-]. split_and!; [done|done|]. simpl.
  generalize (k_procs s). clear -Hf. intros ps. revert i.
  induction ps as [|p ps IH]; intros i; [by destruct i|].
  destruct i as [|i]; simpl; constructor; [apply Hf|done|done|apply IH].
Qed.

Lemma tamely_upd_cur f : (forall p, like p (f p)) -> tamely (upd_cur f).
Proof. intros Hf. apply tamely_bind; [apply tamely_quiet, quietly_cur|]. intros i. by apply tamely_upd_proc. Qed.

Ltac solve_like := intros ?; split_and!; [done|done|by left].

Lemma tamely_get_file i : tamely (get_file i).
Proof. intros s f s' E. by apply get_file_inv in E as [-> _]. Qed.

Lemma tamely_get_pipe p : tamely (get_pipe p).
Proof. intros s v s'. unfold get_pipe. destruct (k_pipes s !! p); [by intros [= _ <-]|done]. Qed.

Create HintDb tame.
#[export] Hint Resolve tamely_get_file tamely_get_pipe : tame.
#[export] Hint Extern 1 (tamely (modify _)) => apply tamely_modify; done : tame.
#[export] Hint Extern 1 (tamely (put_pipe _ _)) => apply tamely_modify; done : tame.
#[export] Hint Extern 1 (tamely (upd_file _ _)) => apply tamely_modify; done : tame.
#[export] Hint Extern 1 (tamely (upd_proc _ _)) => apply tamely_upd_proc; solve_like : tame.
#[export] Hint Extern 1 (tamely (upd_cur _)) => apply tamely_upd_cur; solve_like : tame.
#[export] Hint Extern 2 (tamely _) => solve [apply tamely_quiet; auto with quiet nocore] : tame.

Ltac tame_step :=
  match goal with
  | |- tamely (bind _ _) => apply tamely_bind; [|intros ?]
  | |- tamely (match ?x with _ => _ end) => destruct x
  | |- tamely _ => solve [auto with tame]
  end.
Ltac solve_tame := repeat tame_step.

Lemma tamely_fileclose kend f : tamely (fileclose kend f).
Proof. unfold fileclose, pipeclose. solve_tame. Qed.

Lemma tamely_filedup f : tamely (filedup f).
Proof. unfold filedup. solve_tame. Qed.
#[export] Hint Resolve tamely_fileclose tamely_filedup : tame.

Lemma tamely_dup_files np k fs : tamely (dup_files np k fs).
Proof. revert k. induction fs as [|[f|] fs IH]; intros k; cbn [dup_files]; solve_tame. Qed.

Lemma tamely_close_files kend k fs : tamely (close_files kend k fs).
Proof. revert k. induction fs as [|[f|] fs IH]; intros k; cbn [close_files]; solve_tame. Qed.

Lemma tamely_reparent me init i count : tamely (reparent me init i count).
Proof. revert i. induction count as [|count IH]; intros i; cbn [reparent]; solve_tame. Qed.

Lemma tamely_sched_checks : tamely sched_checks.
Proof. unfold sched_checks. solve_tame. Qed.
#[export] Hint Resolve tamely_dup_files tamely_close_files tamely_reparent tamely_sched_checks : tame.

(** ** The invariant *)

Record table_ok (s : kernel) : Prop := mkTableOk {
  tk_running : forall j p, k_procs s !! j = Some p -> (p_state p = RUNNING <-> k_cur s = Some j);
  tk_sleeping : forall j p, k_procs s !! j = Some p -> p_state p = SLEEPING -> is_Some (p_chan p);
  tk_pid : forall j p, k_procs s !! j = Some p -> p_state p <> UNUSED -> 0 < p_pid p < k_nextpid s;
  tk_distinct : forall i j p q, k_procs s !! i = Some p -> k_procs s !! j = Some q -> i <> j ->
    p_state p <> UNUSED -> p_state q <> UNUSED -> p_pid p <> p_pid q
}.

Lemma tame_lookup s s' j p' :
  tame s s' -> k_procs s' !! j = Some p' -> exists p, k_procs s !! j = Some p /\ like p p'.
Proof. intros (_ & _ & H) Hp. by apply (Forall2_lookup_r _ _ _ _ _ H Hp). Qed.

Lemma like_used p p' : like p p' -> p_state p' <> UNUSED -> p_state p <> UNUSED.
Proof. intros (_ & _ & [E|[E _]]); congruence. Qed.

Lemma tame_ok s s' : table_ok s -> tame s s' -> table_ok s'.
Proof.
  intros [R S' P D] T. pose proof T as (Hc & Hn & _). split.
  - intros j p' Hp'. destruct (tame_lookup _ _ _ _ T Hp') as (p & Hp & _ & _ & E). rewrite Hc, <- (R j p Hp).
    destruct E as [->|[-> ->]]; done.
  - intros j p' Hp' Hs. destruct (tame_lookup _ _ _ _ T Hp') as (p & Hp & _ & -> & E).
    apply (S' j p Hp). destruct E as [<-|[? _]]; [done|congruence].
  - intros j p' Hp' Hs. destruct (tame_lookup _ _ _ _ T Hp') as (p & Hp & L). pose proof L as (-> & _).
    rewrite Hn. apply (P j p Hp). by eapply like_used.
  - intros i j p' q' Hp' Hq' Hne Hs Ht. destruct (tame_lookup _ _ _ _ T Hp') as (p & Hp & L).
    destruct (tame_lookup _ _ _ _ T Hq') as (q & Hq & L'). pose proof L as (-> & _). pose proof L' as (-> & _).
    apply (D i j p q); [done..| |]; by eapply like_used.
Qed.

(** One process changes, with the current process and the next number. *)
Lemma table_upd s s' i p p' :
  table_ok s -> k_procs s !! i = Some p -> k_procs s' = <[i := p']> (k_procs s) ->
  k_nextpid s <= k_nextpid s' ->
  (p_state p' = RUNNING <-> k_cur s' = Some i) ->
  (forall j, j <> i -> (k_cur s' = Some j <-> k_cur s = Some j)) ->
  (p_state p' = SLEEPING -> is_Some (p_chan p')) ->
  (p_state p' <> UNUSED -> 0 < p_pid p' < k_nextpid s' /\
     (p_pid p' = p_pid p /\ p_state p <> UNUSED \/ k_nextpid s <= p_pid p')) ->
  table_ok s'.
Proof.
  intros [R S' P D] Hp Hps Hn HR HC HS HP.
  assert (Hlt : (i < length (k_procs s))%nat) by (by eapply lookup_lt_Some).
  assert (Hi : forall q, k_procs s' !! i = Some q -> q = p').
  { intros q. rewrite Hps, list_lookup_insert_eq by done. congruence. }
  assert (Ho : forall j q, j <> i -> k_procs s' !! j = Some q -> k_procs s !! j = Some q).
  { intros j q Hj. by rewrite Hps, list_lookup_insert_ne by done. }
  assert (Hx : forall j q, j <> i -> k_procs s !! j = Some q -> p_state q <> UNUSED -> p_state p' <> UNUSED ->
    p_pid p' <> p_pid q).
  { intros j q Hj Hq Hu Hu'. destruct (HP Hu') as [_ [[-> Hu'']|Hge]]; [by apply (D i j p q); [..|done]|].
    specialize (P j q Hq Hu). lia. }
  split.
  - intros j q Hq. destruct (decide (j = i)) as [->|Hj]; [by rewrite (Hi q Hq)|].
    rewrite HC by done. apply R. by apply Ho.
  - intros j q Hq. destruct (decide (j = i)) as [->|Hj]; [by rewrite (Hi q Hq)|]. apply (S' j). by apply Ho.
  - intros j q Hq Hu. destruct (decide (j = i)) as [->|Hj].
    + rewrite (Hi q Hq) in *. by apply HP.
    + specialize (P j q (Ho j q Hj Hq) Hu). lia.
  - intros j k q r Hq Hr Hne Hu Hv. destruct (decide (j = i)) as [->|Hj]; [|destruct (decide (k = i)) as [->|Hk]].
    + rewrite (Hi q Hq) in *. apply (Hx k); auto.
    + rewrite (Hi r Hr) in *. apply not_eq_sym, (Hx j); auto.
    + by apply (D j k q r); auto.
Qed.

(** The same when neither the current process nor the next number change. *)
Lemma table_upd_proc s i p f :
  table_ok s -> k_procs s !! i = Some p -> p_state p <> RUNNING -> p_state (f p) <> RUNNING ->
  p_state (f p) <> SLEEPING -> (p_state (f p) <> UNUSED -> p_pid (f p) = p_pid p /\ p_state p <> UNUSED) ->
  table_ok (set_procs (alter f i (k_procs s)) s).
Proof.
  intros T Hp Hr Hr' Hs Hu. pose proof (tk_running _ T i p Hp) as HR.
  apply (table_upd s _ i p (f p)); [done|done|by apply alter_lookup|done| |done|done|].
  - split; [done|]. intros Hc. by apply HR in Hc.
  - intros Hu'. destruct (Hu Hu') as [E Hu'']. rewrite E. split; [|by left]. by apply (tk_pid _ T i p).
Qed.

(** ** allocproc and fork *)

Lemma tame_in_state i st s s' : tame s s' -> st <> SLEEPING -> in_state i st s -> in_state i st s'.
Proof.
  intros (_ & _ & H) Hst (p & Hp & Hs). destruct (Forall2_lookup_l _ _ _ _ _ H Hp) as (p' & Hp' & _ & _ & E).
  exists p'. split; [done|]. destruct E as [->|[? _]]; congruence.
Qed.

Lemma table_state s i st f :
  table_ok s -> in_state i st s -> st <> RUNNING -> (forall p, p_state (f p) <> RUNNING) ->
  (forall p, p_state (f p) <> SLEEPING) ->
  (forall p, p_state p = st -> p_state (f p) <> UNUSED -> p_pid (f p) = p_pid p /\ st <> UNUSED) ->
  table_ok (set_procs (alter f i (k_procs s)) s).
Proof.
  intros T (p & Hp & <-) H1 H2 H3 H4. apply (table_upd_proc s i p); auto.
Qed.

(** ** The processes that can run

    [kept]: the CPU's process goes on, and whoever could run still can.
    [left_cpu]: the CPU's process has left, and all others that could run
    still can. *)

Definition kept (s s' : kernel) : Prop :=
  k_cur s' = k_cur s /\ length (k_procs s') = length (k_procs s) /\
  forall k, in_state k RUNNABLE s -> in_state k RUNNABLE s'.

Definition left_cpu (s s' : kernel) : Prop :=
  k_cur s' = None /\ length (k_procs s') = length (k_procs s) /\
  exists i, k_cur s = Some i /\ forall k, k <> i -> in_state k RUNNABLE s -> in_state k RUNNABLE s'.

#[export] Instance kept_preorder : PreOrder kept.
Proof.
  split.
  - intros s. by split_and!.
  - intros s1 s2 s3 (? & ? & ?) (? & ? & ?). split_and!; [congruence|congruence|auto].
Qed.

Lemma tame_kept s s' : tame s s' -> kept s s'.
Proof.
  intros T. pose proof T as (Hc & _ & H). split_and!; [done|symmetry; by eapply Forall2_length|].
  intros k. by apply tame_in_state.
Qed.

Lemma kept_left s s1 s' : kept s s1 -> left_cpu s1 s' -> left_cpu s s'.
Proof.
  intros (Hc & Hl & Hk) (Hc' & Hl' & i & Hi & Hk'). split_and!; [done|congruence|].
  exists i. split; [congruence|auto].
Qed.

Lemma tame_left s s1 s' : tame s s1 -> left_cpu s1 s' -> left_cpu s s'.
Proof. intros H. by apply kept_left, tame_kept. Qed.

Lemma other_in_state i k st s s' f :
  k_procs s' = alter f i (k_procs s) -> k <> i -> in_state k st s -> in_state k st s'.
Proof. intros E Hk (p & Hp & Hs). exists p. by rewrite E, list_lookup_alter_ne. Qed.

Lemma kept_upd s s' i st f :
  in_state i st s -> st <> RUNNABLE -> k_cur s' = k_cur s -> k_procs s' = alter f i (k_procs s) -> kept s s'.
Proof.
  intros (p & Hp & <-) Hst Hc E. split_and!; [done|by rewrite E, length_alter|].
  intros k Hk. apply (other_in_state i k RUNNABLE s s' f E); [|done]. intros ->. destruct Hk as (q & Hq & Hs). congruence.
Qed.

Lemma left_upd s s' i f :
  k_cur s = Some i -> k_cur s' = None -> k_procs s' = alter f i (k_procs s) -> left_cpu s s'.
Proof.
  intros Hi Hc E. split_and!; [done|by rewrite E, length_alter|]. exists i. split; [done|].
  intros k Hk. by apply (other_in_state i k RUNNABLE s s' f E).
Qed.

(** The table when allocproc has taken slot [i]. *)
Lemma embryo_ok s i p :
  table_ok s -> k_procs s !! i = Some p -> p_state p = UNUSED -> 0 < k_nextpid s < 2147483647 ->
  table_ok (set_nextpid (s32 (k_nextpid s + 1))
    (set_procs (alter (fun p => with_pid (k_nextpid s) (with_state EMBRYO p)) i (k_procs s)) s)).
Proof.
  intros T Hp Hu Hn. pose proof (tk_running _ T i p Hp) as HR. rewrite Hu in HR.
  eapply (table_upd s _ i p); [done|done|simpl; by apply alter_lookup|simpl; unfold s32, u32; zif; zlia| | |done|];
    simpl.
  - split; [done|]. intros Hc. by apply HR in Hc.
  - done.
  - intros _. unfold s32, u32; zif; zlia.
Qed.

Lemma allocproc_ok trapret forkret s r s' :
  table_ok s -> 0 < k_nextpid s < 2147483647 -> allocproc trapret forkret s = Ok r s' ->
  table_ok s' /\ kept s s' /\ match r with Some np => in_state np EMBRYO s' | None => True end.
Proof.
  intros T Hn E. unfold allocproc in E. apply bind_inv in E as ([] & s1 & E1 & E).
  apply quietly_acquire, quiet_tame in E1. pose proof (tame_ok _ _ T E1) as T1.
  unfold bind at 1, get in E. cbn in E. destruct (find_unused (k_procs s1)) as [i|] eqn:Ez.
  2:{ apply bind_inv in E as ([] & s2 & E2 & E). injection E as <- <-. apply quietly_release, quiet_tame in E2.
      split; [by eapply tame_ok|]. split; [|done]. apply tame_kept. by transitivity s1. }
  apply find_unused_state in Ez as (p & Hp & Hu). pose proof E1 as (_ & En & _).
  apply bind_inv in E as ([] & s2 & E2 & E). injection E2 as E2.
  apply bind_inv in E as ([] & s3 & E3 & E). injection E3 as E3.
  assert (T3 : table_ok s3) by (subst s3 s2; apply (embryo_ok s1 i p); [done..|lia]).
  assert (H3 : in_state i EMBRYO s3).
  { subst s3 s2. eexists. simpl. by rewrite list_lookup_alter_eq, Hp. }
  assert (K3 : kept s s3).
  { transitivity s1; [by apply tame_kept|]. subst s3 s2. by apply (kept_upd s1 _ i UNUSED (fun p => with_pid (k_nextpid s1) (with_state EMBRYO p))); [exists p|..]. }
  apply bind_inv in E as ([] & s4 & E4 & E). apply quietly_release, quiet_tame in E4.
  apply bind_inv in E as (ks & s5 & E5 & E). apply quietly_in_mem, quiet_tame in E5.
  assert (t5 : tame s3 s5) by (by transitivity s4).
  assert (K5 : kept s s5) by (transitivity s3; [done|by apply tame_kept]).
  pose proof (tame_ok _ _ T3 t5) as T5. pose proof (tame_in_state i EMBRYO _ _ t5 ltac:(done) H3) as H5.
  destruct (ks =? 0).
  - apply bind_inv in E as ([] & s6 & E6 & E). injection E as <- <-. injection E6 as <-. split; [by apply (table_state s5 i EMBRYO)|].
    split; [|done]. transitivity s5; [done|by eapply (kept_upd s5 _ i EMBRYO)].
  - assert (r = Some i) as ->.
    { repeat (apply bind_inv in E as (? & ? & ? & E)). by injection E. }
    assert (t6 : tame s5 s') by (refine ((_ : tamely _) _ _ _ E); unfold kmemset; solve_tame).
    split; [by eapply tame_ok|]. split; [|by eapply tame_in_state]. transitivity s5; [done|by apply tame_kept].
Qed.

Lemma fork_ok kend kdata trapret forkret s r s' :
  table_ok s -> 0 < k_nextpid s < 2147483647 -> fork kend kdata trapret forkret s = Ok r s' ->
  table_ok s' /\ kept s s'.
Proof.
  intros T Hn E. unfold fork in E. apply bind_inv in E as ([np|] & s1 & E1 & E).
  2:{ injection E as <- <-. by destruct (allocproc_ok _ _ _ _ _ T Hn E1) as (? & ? & _). }
  apply allocproc_ok in E1 as (T1 & K1 & H1); [|done|done].
  apply bind_inv in E as (me & s2 & E2 & E). apply quietly_cur, quiet_tame in E2.
  apply bind_inv in E as (p & s3 & E3 & E). apply quietly_get_proc, quiet_tame in E3.
  apply bind_inv in E as (pgdir & s4 & E4 & E). apply quietly_in_mem, quiet_tame in E4.
  apply bind_inv in E as ([] & s5 & E5 & E). apply tamely_upd_proc in E5; [|solve_like].
  assert (t5 : tame s1 s5) by (repeat (etransitivity; [eassumption|]); done).
  destruct (pgdir =? 0).
  - apply bind_inv in E as (q & s6 & E6 & E). apply quietly_get_proc, quiet_tame in E6.
    apply bind_inv in E as ([] & s7 & E7 & E). apply quietly_in_mem, quiet_tame in E7.
    assert (t7 : tame s1 s7) by (repeat (etransitivity; [eassumption|]); done).
    apply bind_inv in E as ([] & s8 & E8 & E). injection E as <- <-. injection E8 as <-.
    pose proof (tame_in_state np EMBRYO _ _ t7 ltac:(done) H1) as H7.
    split; [apply (table_state s7 np EMBRYO); [by eapply tame_ok|done..]|].
    transitivity s1; [done|]. transitivity s7; [by apply tame_kept|by eapply (kept_upd s7 _ np EMBRYO)].
  - apply bind_inv in E as ([] & s6 & E6 & E). apply tamely_upd_proc in E6; [|solve_like].
    apply bind_inv in E as (q & s7 & E7 & E). apply quietly_get_proc, quiet_tame in E7.
    apply bind_inv in E as ([] & s8 & E8 & E). apply quietly_in_mem, quiet_tame in E8.
    apply bind_inv in E as ([] & s9 & E9 & E). apply quietly_in_mem, quiet_tame in E9.
    apply bind_inv in E as ([] & s10 & E10 & E). apply tamely_dup_files in E10.
    destruct (p_cwd p) as [d|]; [|done].
    apply bind_inv in E as (d' & s11 & E11 & E). apply quietly_in_fs, quiet_tame in E11.
    apply bind_inv in E as ([] & s12 & E12 & E). apply tamely_upd_proc in E12; [|solve_like].
    apply bind_inv in E as ([] & s13 & E13 & E). apply tamely_upd_proc in E13; [|solve_like].
    apply bind_inv in E as ([] & s14 & E14 & E). apply quietly_acquire, quiet_tame in E14.
    assert (t14 : tame s1 s14) by (repeat (etransitivity; [eassumption|]); done).
    apply bind_inv in E as ([] & s15 & E15 & E). injection E15 as <-.
    apply bind_inv in E as ([] & s16 & E16 & E). injection E as <- <-.
    apply quietly_release, quiet_tame in E16. pose proof (tame_in_state np EMBRYO _ _ t14 ltac:(done) H1) as H14.
    split; [eapply tame_ok, E16; apply (table_state s14 np EMBRYO); [by eapply tame_ok|done..]|].
    transitivity s1; [done|]. transitivity s14; [by apply tame_kept|]. etransitivity; [|by apply tame_kept].
    by eapply (kept_upd s14 _ np EMBRYO).
Qed.

(** ** exit, wait, kill and sleep *)

(** The current process gives up the CPU in state [st]. *)
Lemma table_leave s s' i p f :
  table_ok s -> runs i p s -> k_procs s' = alter f i (k_procs s) -> k_cur s' = None ->
  k_nextpid s' = k_nextpid s -> p_state (f p) <> RUNNING -> p_state (f p) <> UNUSED -> p_pid (f p) = p_pid p ->
  (p_state (f p) = SLEEPING -> is_Some (p_chan (f p))) -> table_ok s'.
Proof.
  intros T [Hc Hp] Hps Hc' Hn Hr Hu Hpid Hs.
  assert (HR : p_state p = RUNNING) by (by apply (tk_running _ T i p)).
  apply (table_upd s s' i p (f p)); [done|done|rewrite Hps; by apply alter_lookup|lia| | |done|].
  - rewrite Hc'. split; done.
  - intros j Hj. rewrite Hc', Hc. split; [done|congruence].
  - intros _. rewrite Hn, Hpid. split; [apply (tk_pid _ T i p Hp)|left; split; [done|]]; congruence.
Qed.

Lemma parked_ok s i p c : table_ok s -> runs i p s -> table_ok (parked i c s).
Proof. intros T Hr. by eapply (table_leave s _ i p). Qed.

Lemma tame_runs s s' i p : tame s s' -> runs i p s -> exists p', runs i p' s'.
Proof.
  intros (Hc & _ & H) [Hi Hp]. destruct (Forall2_lookup_l _ _ _ _ _ H Hp) as (p' & Hp' & _).
  exists p'. split; [congruence|done].
Qed.

(** Blocking: the part of a program up to the point where it sleeps. *)
Lemma bind_sleeps {A B} (m : M kernel A) (k : A -> M kernel B) s c s' :
  bind m k s = Sleeps c s' -> m s = Sleeps c s' \/ exists a s1, m s = Ok a s1 /\ k a s1 = Sleeps c s'.
Proof. unfold bind. destruct (m s) as [a s1| | |]; try done; intros H; [eauto|left; congruence]. Qed.

Definition never_sleeps {A} (m : M kernel A) : Prop := forall s c s', m s <> Sleeps c s'.

Lemma sched_checks_same s a s' : sched_checks s = Ok a s' -> s' = s.
Proof.
  intros E. unfold sched_checks in E. unfold bind at 1, get in E. cbn in E.
  destruct (negb (holding LkPtable s)); [done|]. destruct (negb _); [done|].
  apply bind_inv in E as (p & s1 & E1 & E). apply cur_proc_inv in E1 as [-> _].
  destruct (bool_decide _); [done|]. by injection E as _ <-.
Qed.

Lemma sched_checks_awake : never_sleeps sched_checks.
Proof.
  intros s c s' E. unfold sched_checks in E. unfold bind at 1, get in E. cbn in E.
  destruct (negb (holding LkPtable s)); [done|]. destruct (negb _); [done|].
  apply bind_sleeps in E as [E|(p & s1 & E1 & E)]; [|by destruct (bool_decide _)].
  unfold cur_proc, bind, cur, get_proc in E. destruct (k_cur s); [|done]. by destruct (k_procs s !! _).
Qed.

Lemma acquire_awake l : never_sleeps (acquire l).
Proof. intros s c s'. unfold acquire. by destruct (holding l s). Qed.

Lemma release_awake l : never_sleeps (release l).
Proof. intros s c s'. unfold release. by destruct (holding l s). Qed.

(** sleep parks the current process on the channel. *)
Lemma ksleep_inv {A} c l s c' s' :
  ksleep (A := A) c l s = Sleeps c' s' ->
  c' = c /\ exists i s1, k_cur s = Some i /\ quiet s s1 /\ s' = parked i c s1.
Proof.
  intros E. unfold ksleep in E. unfold bind at 1, get in E. cbn in E.
  destruct (k_cur s) as [i|] eqn:Hc; [|done].
  apply bind_sleeps in E as [E|([] & s1 & E1 & E)].
  { destruct (decide (l = LkPtable)); [done|].
    apply bind_sleeps in E as [E|([] & s1 & _ & E)]; [by apply acquire_awake in E|by apply release_awake in E]. }
  assert (Q1 : quiet s s1) by (refine ((_ : quietly _) _ _ _ E1); solve_quiet).
  apply bind_sleeps in E as [E|([] & s2 & E2 & E)]; [done|]. injection E2 as <-.
  apply bind_sleeps in E as [E|([] & s3 & E3 & E)]; [by apply sched_checks_awake in E|].
  apply sched_checks_same in E3 as ->. injection E as <- <-. split; [done|]. by exists i, s1.
Qed.

Lemma ksleep_table {A} c l i p s c' s' :
  table_ok s -> runs i p s -> ksleep (A := A) c l s = Sleeps c' s' -> table_ok s'.
Proof.
  intros T Hr E. apply ksleep_inv in E as [_ (j & s1 & Hj & Q & ->)]. apply quiet_tame in Q.
  destruct (tame_runs _ _ _ _ Q Hr) as [p1 Hr1]. assert (j = i) as -> by (destruct Hr; congruence).
  apply (parked_ok s1 i p1); [by eapply tame_ok|done].
Qed.

Lemma exit_ok kend s s' : table_ok s -> exit_proc kend s = Ok tt s' -> table_ok s' /\ left_cpu s s'.
Proof.
  intros T E. unfold exit_proc in E. unfold bind at 1, get in E. cbn in E.
  destruct (k_cur s) as [me|] eqn:Hc; [|done]. destruct (k_initproc s) as [init|]; [|done].
  destruct (me =? init)%nat; [done|]. apply bind_inv in E as (p & s1 & E1 & E).
  apply get_proc_inv in E1 as [-> Hp]. assert (Hr : runs me p s) by done.
  apply bind_inv in E as ([] & s1 & E1 & E). apply tamely_close_files in E1.
  apply bind_inv in E as ([] & s2 & E2 & E). apply quietly_in_fs, quiet_tame in E2.
  apply bind_inv in E as ([] & s3 & E3 & E).
  assert (t3 : tame s2 s3) by (refine ((_ : tamely _) _ _ _ E3); solve_tame).
  apply bind_inv in E as ([] & s4 & E4 & E). apply quietly_in_fs, quiet_tame in E4.
  apply bind_inv in E as ([] & s5 & E5 & E). apply tamely_upd_cur in E5; [|solve_like].
  apply bind_inv in E as ([] & s6 & E6 & E). injection E as <-.
  unfold exit_table in E6. apply bind_inv in E6 as ([] & s7 & E7 & E). apply quietly_acquire, quiet_tame in E7.
  apply bind_inv in E as (q & s8 & E8 & E). apply quietly_get_proc, quiet_tame in E8.
  apply bind_inv in E as ([] & s9 & E9 & E).
  assert (t9 : tame s8 s9) by (refine ((_ : tamely _) _ _ _ E9); solve_tame).
  apply bind_inv in E as (sx & s10 & E10 & E). injection E10 as -> <-.
  apply bind_inv in E as ([] & s10 & E10 & E). apply tamely_reparent in E10.
  assert (t : tame s s10) by (repeat (etransitivity; [eassumption|]); done).
  apply bind_inv in E as ([] & s11 & E11 & E). injection E11 as <-. apply sched_checks_same in E as ->.
  destruct (tame_runs _ _ _ _ t Hr) as [p10 Hr10].
  split; [eapply (table_leave s10 _ me p10 (with_state ZOMBIE)); [by eapply tame_ok|done..]|].
  eapply tame_left; [exact t|]. eapply (left_upd s10 _ me); [apply Hr10|done..].
Qed.

Lemma find_zombie_state me ps i : find_zombie me ps = Some i -> exists p, ps !! i = Some p /\ p_state p = ZOMBIE.
Proof.
  unfold find_zombie. destruct (list_find _ ps) as [[j p]|] eqn:Ef; [|done].
  intros [= <-]. apply list_find_Some in Ef as (Hp & [_ Hs] & _). by exists p.
Qed.

Lemma wait_ok kend s r s' : table_ok s -> wait_child kend s = Ok r s' -> table_ok s' /\ kept s s'.
Proof.
  intros T E. unfold wait_child in E. apply bind_inv in E as ([] & s1 & E1 & E).
  apply quietly_acquire, quiet_tame in E1. apply bind_inv in E as (me & s2 & E2 & E).
  apply quietly_cur, quiet_tame in E2. unfold bind at 1, get in E. cbn in E.
  assert (t2 : tame s s2) by (by transitivity s1). pose proof (tame_ok _ _ T t2) as T2.
  destruct (find_zombie me (k_procs s2)) as [i|] eqn:Ez.
  2:{ assert (t : tame s2 s') by (refine ((_ : tamely _) _ _ _ E); solve_tame).
      split; [by eapply tame_ok|]. apply tame_kept. by transitivity s2. }
  apply find_zombie_state in Ez as (z & Hz & Hs). assert (Hi : in_state i ZOMBIE s2) by (by exists z).
  apply bind_inv in E as (p & s3 & E3 & E). apply quietly_get_proc, quiet_tame in E3.
  apply bind_inv in E as ([] & s4 & E4 & E). apply quietly_in_mem, quiet_tame in E4.
  apply bind_inv in E as ([] & s5 & E5 & E). apply tamely_upd_proc in E5; [|solve_like].
  apply bind_inv in E as ([] & s6 & E6 & E). apply quietly_in_mem, quiet_tame in E6.
  assert (t : tame s2 s6) by (repeat (etransitivity; [eassumption|]); done).
  apply bind_inv in E as ([] & s7 & E7 & E). injection E7 as <-.
  apply bind_inv in E as ([] & s8 & E8 & E). injection E as <- <-.
  apply quietly_release, quiet_tame in E8. pose proof (tame_in_state i ZOMBIE _ _ t ltac:(done) Hi) as H6.
  split; [eapply tame_ok, E8; apply (table_state s6 i ZOMBIE); [by eapply tame_ok|done..]|].
  transitivity s6; [apply tame_kept; by transitivity s2|]. etransitivity; [|by apply tame_kept].
  by eapply (kept_upd s6 _ i ZOMBIE).
Qed.

(** ** Programs that return tamely or sleep with the invariant *)

Definition good {A} (m : M kernel A) : Prop := forall s, table_ok s ->
  match m s with
  | Ok _ s' => tame s s'
  | Sleeps _ s' => table_ok s' /\ left_cpu s s'
  | _ => True
  end.

Lemma good_bind {A B} (m : M kernel A) (k : A -> M kernel B) :
  good m -> (forall a, good (k a)) -> good (bind m k).
Proof.
  intros Hm Hk s T. specialize (Hm s T). unfold bind. destruct (m s) as [a s1| | |]; try done.
  specialize (Hk a s1 (tame_ok _ _ T Hm)). destruct (k a s1); try done; [by transitivity s1|].
  destruct Hk. split; [done|by eapply tame_left].
Qed.

Lemma good_awake {A} (m : M kernel A) : tamely m -> never_sleeps m -> good m.
Proof. intros Hm Hs s T. destruct (m s) eqn:E; [by eapply Hm|done|by apply Hs in E|done]. Qed.

Lemma alter_none {A} (f : A -> A) i (l : list A) : l !! i = None -> alter f i l = l.
Proof. revert i. induction l as [|x l IH]; intros [|i] H; try done. simpl. f_equal. by apply IH. Qed.

(** The current process goes to sleep, its slot being in the table or not. *)
Lemma table_park s i c :
  table_ok s -> k_cur s = Some i ->
  table_ok (set_cur None (set_procs
    (alter (fun p => with_state SLEEPING (with_chan (Some c) p)) i (k_procs s)) s)).
Proof.
  intros T Hc. destruct (k_procs s !! i) as [p|] eqn:Hp.
  - by eapply (table_leave s _ i p).
  - rewrite alter_none by done. destruct T as [R S' P D]. split; simpl; try done.
    intros j q Hq. split; [|done]. intros Hr. apply (R j q Hq) in Hr. congruence.
Qed.

Lemma zoom_sleeps {Sub} `{!KState Sub} getf putf {A} (f : M Sub A) s c s' :
  (forall sub s, quiet s (putf sub s) /\ k_procs (putf sub s) = k_procs s) ->
  table_ok s -> zoom getf putf f s = Sleeps c s' -> table_ok s' /\ left_cpu s s'.
Proof.
  intros Hput T. unfold zoom. destruct (f (enter getf s)) as [a sub| |c' sub|]; try done.
  destruct (k_cur s) as [i|] eqn:Hc; [|done]. intros E.
  assert (Q : quiet s (leave putf sub s)).
  { refine (quietly_zoom getf putf (fun x => Ok tt sub) Hput s tt _ _). done. }
  injection E as _ <-. pose proof Q as (Hc' & _). apply quiet_tame in Q.
  split; [apply table_park; [by eapply tame_ok|congruence]|].
  eapply tame_left; [exact Q|]. eapply (left_upd _ _ i); [congruence|done..].
Qed.

Lemma good_zoom {Sub} `{!KState Sub} getf putf {A} (f : M Sub A) :
  (forall sub s, quiet s (putf sub s) /\ k_procs (putf sub s) = k_procs s) -> good (zoom getf putf f).
Proof.
  intros Hput s T. destruct (zoom getf putf f s) eqn:E; try done.
  - by eapply quiet_tame, quietly_zoom.
  - by eapply zoom_sleeps.
Qed.

Lemma good_in_mem {A} (f : M kstate A) : good (in_mem f).
Proof. apply good_zoom. intros sub s. split; [by apply quiet_same|done]. Qed.
Lemma good_in_fs {A} (f : M fstate A) : good (in_fs f).
Proof. apply good_zoom. intros sub s. split; [by apply quiet_same|done]. Qed.
Lemma good_in_cons {A} (f : M console A) : good (in_cons f).
Proof. apply good_zoom. intros sub s. split; [by apply quiet_same|done]. Qed.

Lemma good_ksleep {A} c l : good (ksleep (A := A) c l).
Proof.
  intros s T. destruct (ksleep c l s) as [a s'| |c' s'|] eqn:E; try done.
  - by eapply quiet_tame, quietly_ksleep.
  - apply ksleep_inv in E as [_ (j & s1 & Hj & Q & ->)]. pose proof Q as (Hc & _). apply quiet_tame in Q.
    destruct (table_park s1 j c) as [R S' P D]; [by eapply tame_ok|congruence|]. split; [by split|].
    eapply tame_left; [exact Q|]. eapply (left_upd _ _ j); [congruence|done..].
Qed.

Ltac solve_awake := let s := fresh in intros s ? ?; unfold gets, get, ret, modify, panic, fault; simpl; try done.

Lemma good_ret {A} (a : A) : good (ret a).
Proof. apply good_awake; [auto with tame|solve_awake]. Qed.
Lemma good_panic {A} msg : good (panic (A := A) msg).
Proof. apply good_awake; [auto with tame|solve_awake]. Qed.
Lemma good_fault {A} msg : good (fault (A := A) msg).
Proof. apply good_awake; [auto with tame|solve_awake]. Qed.
Lemma good_get : good get.
Proof. apply good_awake; [auto with tame|solve_awake]. Qed.
Lemma good_gets {A} (f : kernel -> A) : good (gets f).
Proof. apply good_awake; [auto with tame|solve_awake]. Qed.
Lemma good_modify f : tamely (modify f) -> good (modify f).
Proof. intros H. apply good_awake; [done|solve_awake]. Qed.
Lemma good_cur : good cur.
Proof. apply good_awake; [auto with tame|]. intros s ? ?. unfold cur. by destruct (k_cur s). Qed.
Lemma good_get_proc i : good (get_proc i).
Proof. apply good_awake; [auto with tame|]. intros s ? ?. unfold get_proc. by destruct (k_procs s !! i). Qed.
Lemma good_get_file i : good (get_file i).
Proof. apply good_awake; [auto with tame|]. intros s ? ?. unfold get_file. by destruct (k_files s !! i). Qed.
Lemma good_get_pipe i : good (get_pipe i).
Proof. apply good_awake; [auto with tame|]. intros s ? ?. unfold get_pipe. by destruct (k_pipes s !! i). Qed.
Lemma good_acquire l : good (acquire l).
Proof. apply good_awake; [auto with tame|apply acquire_awake]. Qed.
Lemma good_release l : good (release l).
Proof. apply good_awake; [auto with tame|apply release_awake]. Qed.
Lemma good_wakeup1 c : good (wakeup1 c).
Proof. apply good_awake; [auto with tame|done]. Qed.
Lemma good_sched_checks : good sched_checks.
Proof. apply good_awake; [auto with tame|apply sched_checks_awake]. Qed.
Lemma good_upd_proc i f : (forall p, like p (f p)) -> good (upd_proc i f).
Proof. intros H. apply good_awake; [by apply tamely_upd_proc|done]. Qed.

Create HintDb good.
#[export] Hint Resolve good_in_mem good_in_fs good_in_cons good_ksleep good_ret good_panic good_fault good_get
  good_gets good_cur good_get_proc good_get_file good_get_pipe good_acquire good_release good_wakeup1
  good_sched_checks : good.
#[export] Hint Extern 1 (good (modify _)) => apply good_modify; solve [auto with tame] : good.
#[export] Hint Extern 1 (good (put_pipe _ _)) => apply good_modify; solve [auto with tame] : good.
#[export] Hint Extern 1 (good (upd_file _ _)) => apply good_modify; solve [auto with tame] : good.
#[export] Hint Extern 1 (good (upd_ide _)) => apply good_modify; solve [apply tamely_modify; done] : good.
#[export] Hint Extern 1 (good (upd_proc _ _)) => apply good_upd_proc; solve_like : good.

Ltac good_step :=
  match goal with
  | |- good (bind _ _) => apply good_bind; [|intros ?]
  | |- good (match ?x with _ => _ end) => destruct x
  | |- good _ => solve [auto with good]
  end.
Ltac solve_good := repeat good_step.

Lemma good_cur_proc : good cur_proc.
Proof. unfold cur_proc. solve_good. Qed.
Lemma good_kwakeup c : good (kwakeup c).
Proof. unfold kwakeup. solve_good. Qed.
Lemma good_upd_cur f : (forall p, like p (f p)) -> good (upd_cur f).
Proof. intros H. unfold upd_cur. good_step; [solve_good|]. by apply good_upd_proc. Qed.
#[export] Hint Resolve good_cur_proc good_kwakeup : good.
#[export] Hint Extern 1 (good (upd_cur _)) => apply good_upd_cur; solve_like : good.

(** ** The system calls *)

Lemma good_uload8 va : good (uload8 va).
Proof.
  unfold uload8. good_step; [solve_good|]. apply good_awake.
  - intros s x s' E. destruct (user_addr _ _ _); [|done]. by injection E as _ <-.
  - intros s c s'. by destruct (user_addr _ _ _).
Qed.
Lemma good_ustore8 va v : good (ustore8 va v).
Proof.
  unfold ustore8. good_step; [solve_good|]. apply good_awake.
  - intros s x s' E. destruct (user_addr _ _ _); [|done]. injection E as _ <-. by apply quiet_tame, quiet_same.
  - intros s c s'. by destruct (user_addr _ _ _).
Qed.
#[export] Hint Resolve good_uload8 good_ustore8 : good.
#[export] Hint Extern 1 (good (kload32 _)) => apply good_gets : good.
#[export] Hint Extern 1 (good (kstore32 _ _)) => apply good_in_mem : good.
#[export] Hint Extern 1 (good (copyout_bytes _ _ _)) => apply good_in_mem : good.
#[export] Hint Extern 1 (good (kmemset _ _ _)) => apply good_in_mem : good.
#[export] Hint Extern 1 (good (kmemmove _ _ _)) => apply good_in_mem : good.
#[export] Hint Extern 1 (good (message _)) => apply good_in_cons : good.

Lemma good_uload va n : good (uload va n).
Proof. revert va. induction n as [|n IH]; intros va; cbn [uload]; solve_good. Qed.
Lemma good_ustore va l : good (ustore va l).
Proof. revert va. induction l as [|b l IH]; intros va; cbn [ustore]; solve_good. Qed.
#[export] Hint Resolve good_uload good_ustore : good.
Lemma good_uload32 va : good (uload32 va).
Proof. unfold uload32. solve_good. Qed.
#[export] Hint Resolve good_uload32 : good.
#[export] Hint Extern 1 (good (ustore32 _ _)) => apply good_ustore : good.
Lemma good_fetchint a : good (fetchint a).
Proof. unfold fetchint. solve_good. Qed.
Lemma good_fetchstr_loop a n : good (fetchstr_loop a n).
Proof. revert a. induction n as [|n IH]; intros a; cbn [fetchstr_loop]; solve_good. Qed.
#[export] Hint Resolve good_fetchint good_fetchstr_loop : good.
Lemma good_fetchstr a : good (fetchstr a).
Proof. unfold fetchstr. solve_good. Qed.
Lemma good_argint n : good (argint n).
Proof. unfold argint. solve_good. Qed.
#[export] Hint Resolve good_fetchstr good_argint : good.
Lemma good_argptr n size : good (argptr n size).
Proof. unfold argptr. solve_good. Qed.
Lemma good_argstr n : good (argstr n).
Proof. unfold argstr. solve_good. Qed.
Lemma good_argfd n : good (argfd n).
Proof. unfold argfd. solve_good. Qed.
#[export] Hint Resolve good_argptr good_argstr good_argfd : good.
Lemma good_io_args : good io_args.
Proof. unfold io_args. solve_good. Qed.
Lemma good_getpgtab start_addr pgdir va alloc : good (getpgtab start_addr pgdir va alloc).
Proof. unfold getpgtab. solve_good. Qed.
Lemma good_count_frames r n : good (count_frames r n).
Proof. revert r. induction n as [|n IH]; intros r; cbn [count_frames]; solve_good. Qed.
Lemma good_fetch_argv uargv i room : good (fetch_argv uargv i room).
Proof. revert i. induction room as [|room IH]; intros i; cbn [fetch_argv]; solve_good. Qed.
Lemma good_at_cwd {A} path (f : nat -> M fstate A) : good (at_cwd path f).
Proof. unfold at_cwd. solve_good. Qed.
Lemma good_kreadi ip off n : good (kreadi ip off n).
Proof. unfold kreadi. solve_good. Qed.
Lemma good_kwritei ip src off n : good (kwritei ip src off n).
Proof. unfold kwritei. solve_good. Qed.
#[export] Hint Resolve good_io_args good_getpgtab good_count_frames good_fetch_argv good_at_cwd good_kreadi
  good_kwritei : good.
#[export] Hint Extern 1 (good (knamei _)) => apply good_at_cwd : good.

Lemma good_loaduvm pgdir addr ip offset sz : good (loaduvm pgdir addr ip offset sz).
Proof.
  unfold loaduvm. destruct (negb _); [auto with good|].
  generalize (S (Z.to_nat (sz / PGSIZE + 1))) 0. intros fuel.
  induction fuel as [|fuel IH]; intros i; cbn [loaduvm_loop]; solve_good.
Qed.
#[export] Hint Resolve good_loaduvm : good.
Lemma good_load_segments kend pgdir ip off sz count : good (load_segments kend pgdir ip off sz count).
Proof. revert off sz. induction count as [|count IH]; intros off sz; cbn [load_segments]; solve_good. Qed.
Lemma good_push_args pgdir sp argc argv : good (push_args pgdir sp argc argv).
Proof. revert sp argc. induction argv as [|a argv IH]; intros sp argc; cbn [push_args]; solve_good. Qed.
#[export] Hint Resolve good_load_segments good_push_args : good.
Lemma good_exec kend kdata path argv : good (exec kend kdata path argv).
Proof. unfold exec, exec_stack, exec_bad. solve_good. Qed.

Lemma good_pipeclose kend p w : good (pipeclose kend p w).
Proof. unfold pipeclose. solve_good. Qed.
Lemma good_pipewrite p bs n : good (pipewrite p bs n).
Proof.
  unfold pipewrite. good_step; [solve_good|]. generalize (take (Z.to_nat n) bs). clear bs.
  intros bs. induction bs as [|b bs IH]; cbn [pipewrite_loop]; solve_good.
Qed.
Lemma good_piperead p n : good (piperead p n).
Proof.
  assert (forall k, good (piperead_loop p k)).
  { intros k. induction k as [|k IH]; cbn [piperead_loop]; solve_good. }
  unfold piperead. solve_good.
Qed.
#[export] Hint Resolve good_exec good_pipeclose good_pipewrite good_piperead : good.
Lemma good_fileread i n : good (fileread i n).
Proof. unfold fileread. solve_good. Qed.
Lemma good_filewrite i src n : good (filewrite i src n).
Proof.
  unfold filewrite. good_step; [solve_good|]. good_step; [solve_good|]. good_step; [solve_good..|].
  generalize (S (Z.to_nat (n / FILEWRITE_MAX + 1))) 0 src. intros fuel.
  induction fuel as [|fuel IH]; intros k l; cbn [filewrite_loop]; solve_good.
Qed.
Lemma good_fileclose kend f : good (fileclose kend f).
Proof. unfold fileclose. solve_good. Qed.
Lemma good_filedup f : good (filedup f).
Proof. unfold filedup. solve_good. Qed.
Lemma good_filealloc : good filealloc.
Proof. unfold filealloc. solve_good. Qed.
Lemma good_filestat i : good (filestat i).
Proof. unfold filestat. solve_good. Qed.
Lemma good_fdalloc f : good (fdalloc f).
Proof. unfold fdalloc. solve_good. Qed.
Lemma good_clear_fd fd : good (clear_fd fd).
Proof. unfold clear_fd. solve_good. Qed.
#[export] Hint Resolve good_fileread good_filewrite good_fileclose good_filedup good_filealloc good_filestat
  good_fdalloc good_clear_fd : good.
Lemma good_pipealloc kend : good (pipealloc kend).
Proof. unfold pipealloc, initlock. solve_good. Qed.
Lemma good_growproc kend n : good (growproc kend n).
Proof. unfold growproc. solve_good. Qed.
Lemma good_ex_addbuffer sector device location : good (ex_addbuffer sector device location).
Proof. unfold ex_addbuffer. solve_good. Qed.
#[export] Hint Resolve good_pipealloc good_growproc good_ex_addbuffer : good.
Lemma good_queue_blocks ip off loc fuel : good (queue_blocks ip off loc fuel).
Proof. revert off loc. induction fuel as [|fuel IH]; intros off loc; cbn [queue_blocks]; solve_good. Qed.
Lemma good_ProcessBuffer : good ProcessBuffer.
Proof. unfold ProcessBuffer, ideread. solve_good. Qed.
#[export] Hint Resolve good_queue_blocks good_ProcessBuffer : good.

(** The calls that do not change states or numbers of processes. *)
Definition tame_calls (kend kdata start_addr : Z) : list (M kernel Z) :=
  [sys_pipe kend; sys_read; sys_exec kend kdata; sys_fstat; sys_chdir; sys_dup; sys_getpid; sys_sbrk kend;
   sys_sleep; sys_uptime; sys_open kend; sys_write; sys_mknod; sys_unlink; sys_link; sys_mkdir;
   sys_close kend; sys_ExGetVA; sys_ExGetFrame; sys_ExGetPDE; sys_ExGetPTE start_addr; sys_ExAddPage start_addr;
   sys_ExFileRead; sys_ExRegister; sys_ExReadSector; sys_ExResetTransferCount; sys_ExGetTransferCount].

Lemma tame_calls_good kend kdata start_addr f : f ∈ tame_calls kend kdata start_addr -> good f.
Proof.
  intros Hf. unfold tame_calls in Hf.
  repeat (apply elem_of_cons in Hf as [->|Hf]; [clear|]); [..|by apply not_elem_of_nil in Hf].
  all: unfold sys_pipe, sys_dup, sys_open, sys_close, sys_read, sys_exec, sys_fstat, store_stat, sys_chdir,
    sys_getpid, sys_sbrk, sys_sleep,
    sys_sleep_wait, sys_uptime, sys_write, sys_mknod, sys_unlink, sys_link, sys_mkdir, made, sys_ExGetVA,
    sys_ExGetFrame, sys_ExGetPDE, sys_ExGetPTE, sys_ExAddPage, sys_ExFileRead, user_path, sys_ExRegister,
    SetExProcess, sys_ExReadSector, sys_ExResetTransferCount, ResetTransferCount, sys_ExGetTransferCount,
    GetTransferCount; solve_good.
Qed.

(** ** Blocking inside the calls that do *)

Definition parks {A} (m : M kernel A) : Prop :=
  forall s c s', table_ok s -> m s = Sleeps c s' -> table_ok s' /\ left_cpu s s'.

Lemma parks_good {A} (m : M kernel A) : good m -> parks m.
Proof. intros H s c s' T E. specialize (H s T). by rewrite E in H. Qed.

Lemma parks_awake {A} (m : M kernel A) : never_sleeps m -> parks m.
Proof. intros H s c s' T E. by apply H in E. Qed.

Lemma parks_bind {A B} (m : M kernel A) (k : A -> M kernel B) :
  good m -> (forall a, parks (k a)) -> parks (bind m k).
Proof.
  intros Hm Hk s c s' T E. specialize (Hm s T). apply bind_sleeps in E as [E|(a & s1 & E1 & E)].
  - by rewrite E in Hm.
  - rewrite E1 in Hm. destruct (Hk a s1 c s' (tame_ok _ _ T Hm) E). split; [done|by eapply tame_left].
Qed.

(** An update followed by a release and the result: nothing to wait for. *)
Lemma awake_upd_ret {A} i f (a : A) : never_sleeps (upd_proc i f ;; ret a).
Proof. done. Qed.

Lemma awake_upd_release {A} i f l (a : A) : never_sleeps (upd_proc i f ;; release l ;; ret a).
Proof.
  intros s c s' E. apply bind_sleeps in E as [E|([] & s1 & _ & E)]; [done|].
  apply bind_sleeps in E as [E|([] & s2 & _ & E)]; [by apply release_awake in E|done].
Qed.

Ltac parks_step :=
  match goal with
  | |- parks (bind (upd_proc _ _) (fun _ => ret _)) => apply parks_awake, awake_upd_ret
  | |- parks (bind (upd_proc _ _) (fun _ => bind (release _) _)) => apply parks_awake, awake_upd_release
  | |- parks (bind _ _) => apply parks_bind; [solve [solve_good]|intros ?]
  | |- parks (match ?x with _ => _ end) => destruct x
  | |- parks _ => apply parks_good; solve [solve_good]
  end.
Ltac solve_parks := repeat parks_step.

Lemma good_dup_files np k fs : good (dup_files np k fs).
Proof. revert k. induction fs as [|[f|] fs IH]; intros k; cbn [dup_files]; solve_good. Qed.
Lemma good_close_files kend k fs : good (close_files kend k fs).
Proof. revert k. induction fs as [|[f|] fs IH]; intros k; cbn [close_files]; solve_good. Qed.
Lemma good_reparent me init i count : good (reparent me init i count).
Proof. revert i. induction count as [|count IH]; intros i; cbn [reparent]; solve_good. Qed.
#[export] Hint Resolve good_dup_files good_close_files good_reparent : good.

Lemma allocproc_parks trapret forkret s c s' :
  table_ok s -> 0 < k_nextpid s < 2147483647 -> allocproc trapret forkret s = Sleeps c s' ->
  table_ok s' /\ left_cpu s s'.
Proof.
  intros T Hn E. unfold allocproc in E.
  apply bind_sleeps in E as [E|([] & s1 & E1 & E)]; [by apply acquire_awake in E|].
  apply quietly_acquire, quiet_tame in E1. pose proof (tame_ok _ _ T E1) as T1. pose proof E1 as (_ & En & _).
  unfold bind at 1, get in E. cbn in E. destruct (find_unused (k_procs s1)) as [i|] eqn:Ez.
  2:{ assert (P : table_ok s' /\ left_cpu s1 s') by (refine ((_ : parks _) _ _ _ T1 E); solve_parks).
      destruct P. split; [done|by eapply tame_left]. }
  apply find_unused_state in Ez as (p & Hp & Hu).
  apply bind_sleeps in E as [E|([] & s2 & E2 & E)]; [done|]. injection E2 as <-.
  apply bind_sleeps in E as [E|([] & s3 & E3 & E)]; [done|]. injection E3 as <-.
  set (s3 := set_nextpid _ _) in E.
  assert (P : table_ok s' /\ left_cpu s3 s').
  { refine ((_ : parks _) _ _ _ (embryo_ok s1 i p T1 Hp Hu ltac:(lia)) E). solve_parks. }
  destruct P as [P1 P2]. split; [done|]. eapply tame_left; [exact E1|]. eapply kept_left; [|exact P2].
  by apply (kept_upd s1 _ i UNUSED (fun p => with_pid (k_nextpid s1) (with_state EMBRYO p))); [exists p|..].
Qed.

Lemma fork_parks kend kdata trapret forkret s c s' :
  table_ok s -> 0 < k_nextpid s < 2147483647 -> fork kend kdata trapret forkret s = Sleeps c s' ->
  table_ok s' /\ left_cpu s s'.
Proof.
  intros T Hn E. unfold fork in E. apply bind_sleeps in E as [E|(r & s1 & E1 & E)]; [by eapply allocproc_parks|].
  apply allocproc_ok in E1 as (T1 & K1 & _); [|done|done].
  assert (P : table_ok s' /\ left_cpu s1 s') by (refine ((_ : parks _) _ _ _ T1 E); solve_parks).
  destruct P. split; [done|by eapply kept_left].
Qed.

Lemma parks_then_awake {A B} (m : M kernel A) (k : A -> M kernel B) :
  parks m -> (forall a, never_sleeps (k a)) -> parks (bind m k).
Proof.
  intros Hm Hk s c s' T E. apply bind_sleeps in E as [E|(a & s1 & _ & E)]; [by eapply Hm|by apply Hk in E].
Qed.

Lemma exit_table_parks me init : parks (exit_table me init).
Proof.
  unfold exit_table. do 4 parks_step. parks_step. apply parks_awake. intros s c s' E.
  apply bind_sleeps in E as [E|([] & s1 & _ & E)]; [done|by apply sched_checks_awake in E].
Qed.

Lemma exit_parks kend : parks (exit_proc kend).
Proof.
  unfold exit_proc. parks_step. destruct (k_cur a) as [me|]; [|solve_parks].
  destruct (k_initproc a) as [init|]; [|solve_parks]. parks_step; [solve_parks|].
  do 6 parks_step. apply parks_then_awake; [apply exit_table_parks|done].
Qed.

Lemma wait_parks kend : parks (wait_child kend).
Proof. unfold wait_child. solve_parks. Qed.

Lemma kill_parks pid : parks (kill pid).
Proof.
  unfold kill. parks_step. parks_step. parks_step; [|solve_parks]. destruct p as [i p]. parks_step. parks_step.
  apply parks_awake. intros s c s' E. apply bind_sleeps in E as [E|([] & s1 & _ & E)].
  - by destruct (bool_decide _).
  - apply bind_sleeps in E as [E|([] & s2 & _ & E)]; [by apply release_awake in E|done].
Qed.

Lemma kill_tame pid s r s' : kill pid s = Ok r s' -> tame s s'.
Proof.
  intros E. unfold kill in E. apply bind_inv in E as ([] & s1 & E1 & E).
  apply quietly_acquire, quiet_tame in E1. transitivity s1; [done|].
  unfold bind at 1, get in E. cbn in E. destruct (list_find _ (k_procs s1)) as [[i p]|].
  2:{ refine ((_ : tamely _) _ _ _ E). solve_tame. }
  apply bind_inv in E as ([] & s2 & E2 & E). apply tamely_upd_proc in E2; [|solve_like]. transitivity s2; [done|].
  apply bind_inv in E as (q & s3 & E3 & E). apply get_proc_inv in E3 as [-> Hq].
  apply bind_inv in E as ([] & s3 & E3 & E). apply bind_inv in E as ([] & s4 & E4 & E). injection E as <- <-.
  apply quietly_release, quiet_tame in E4. transitivity s3; [|done].
  destruct (bool_decide_reflect (p_state q = SLEEPING)) as [Hs|]; [|by injection E3 as <-].
  injection E3 as <-. split_and!; [done|done|]. simpl. rewrite (alter_lookup _ _ _ q) by done.
  apply Forall2_same_length_lookup. split; [by rewrite length_insert|]. intros j x x' Hx Hx'.
  destruct (decide (i = j)) as [<-|Hne].
  - rewrite list_lookup_insert_eq in Hx' by (by eapply lookup_lt_Some). simplify_eq. split_and!; [done|done|by right].
  - rewrite list_lookup_insert_ne in Hx' by done. by simplify_eq.
Qed.

(** The scheduler's choice, and a process that yields. *)
Lemma dispatch_ok j s s' : table_ok s -> k_cur s = None -> in_state j RUNNABLE s -> dispatch j s = Ok tt s' -> table_ok s'.
Proof.
  intros T Hc (p & Hp & Hs) E. injection E as <-.
  eapply (table_upd s _ j p (with_state RUNNING p)); [done|done|simpl; by apply alter_lookup|done|done| |done|].
  - intros k Hk. simpl. rewrite Hc. split; congruence.
  - intros _. simpl. split; [|left; split; [done|congruence]]. apply (tk_pid _ T j p Hp). congruence.
Qed.

Lemma yield_ok s s' : table_ok s -> yield s = Ok tt s' ->
  table_ok (set_cur None (set_held [] s')) /\ left_cpu s (set_cur None (set_held [] s')).
Proof.
  intros T E. unfold yield in E. apply bind_inv in E as ([] & s1 & E1 & E). apply quietly_acquire, quiet_tame in E1.
  apply bind_inv in E as ([] & s2 & E2 & E). apply sched_checks_same in E as ->.
  apply bind_inv in E2 as (i & s4 & E3 & E2). unfold cur in E3. destruct (k_cur s1) as [j|] eqn:Hc; [|done].
  injection E3 as -> <-. injection E2 as <-. pose proof (tame_ok _ _ T E1) as T1.
  split; [|eapply tame_left; [exact E1|by eapply (left_upd s1 _ i)]].
  destruct (k_procs s1 !! i) as [p|] eqn:Hp.
  - by eapply (table_leave s1 _ i p (with_state RUNNABLE)).
  - rewrite alter_none by done. destruct T1 as [R S' P D]. split; simpl; try done.
    intros j q Hq. split; [|done]. intros Hr. apply (R j q Hq) in Hr. congruence.
Qed.

(** ** Every history *)

Section history.
Context (kend kdata trapret forkret start_addr : Z).

(** A system call that returns or blocks, the timer's wakeups and preemption,
    and the scheduler's choice. *)
Inductive proc_step : kernel -> kernel -> Prop :=
| ps_return f r s s' :
    f ∈ syscalls kend kdata trapret forkret start_addr -> 0 < k_nextpid s < 2147483647 ->
    f s = Ok r s' -> proc_step s s'
| ps_block f c s s' :
    f ∈ syscalls kend kdata trapret forkret start_addr -> 0 < k_nextpid s < 2147483647 ->
    f s = Sleeps c s' -> proc_step s s'
| ps_wakeup c s s' : kwakeup c s = Ok tt s' -> proc_step s s'
| ps_dispatch j s s' : k_cur s = None -> in_state j RUNNABLE s -> dispatch j s = Ok tt s' -> proc_step s s'
| ps_yield s s' : yield s = Ok tt s' -> proc_step s (set_cur None (set_held [] s')).

Lemma syscall_table f s :
  f ∈ syscalls kend kdata trapret forkret start_addr -> 0 < k_nextpid s < 2147483647 -> table_ok s ->
  (forall r s', f s = Ok r s' -> table_ok s' /\ (kept s s' \/ left_cpu s s')) /\
  (forall c s', f s = Sleeps c s' -> table_ok s' /\ left_cpu s s').
Proof.
  intros Hf Hn T.
  assert (Hg : f ∈ tame_calls kend kdata start_addr ->
    (forall r s', f s = Ok r s' -> table_ok s' /\ (kept s s' \/ left_cpu s s')) /\
    (forall c s', f s = Sleeps c s' -> table_ok s' /\ left_cpu s s')).
  { intros Hin. pose proof (tame_calls_good _ _ _ _ Hin s T) as H.
    split; intros ? ? E; rewrite E in H; [|done]. split; [by eapply tame_ok|left; by apply tame_kept]. }
  unfold syscalls in Hf. repeat (apply elem_of_cons in Hf as [->|Hf]);
    try (apply Hg; unfold tame_calls; repeat (first [apply list_elem_of_here|apply list_elem_of_further]); done).
  - split; intros ? ? E; [|by eapply fork_parks]. apply fork_ok in E as [? ?]; auto.
  - split; intros ? ? E; unfold sys_exit in E.
    + apply bind_inv in E as ([] & s1 & E1 & E). injection E as <- <-. apply exit_ok in E1 as [? ?]; auto.
    + apply bind_sleeps in E as [E|([] & s1 & _ & E)]; [by eapply exit_parks|done].
  - split; intros ? ? E; [|by eapply wait_parks]. apply wait_ok in E as [? ?]; auto.
  - split; intros ? ? E; unfold sys_kill in E.
    + assert (t : tame s s').
      { apply bind_inv in E as (v & s1 & E1 & E). pose proof (good_argint 0 s T) as H. rewrite E1 in H.
        destruct v; [transitivity s1; [done|by eapply kill_tame]|by injection E as <- <-]. }
      split; [by eapply tame_ok|left; by apply tame_kept].
    + refine ((_ : parks _) _ _ _ T E). parks_step. destruct a; [apply kill_parks|solve_parks].
Qed.

(** C3: in every history of the kernel exactly the CPU's process is RUNNING,
    a process that sleeps waits on a channel, and processes in use have
    different numbers below the next one.  It holds whether calls return or
    block, as long as the numbers do not run over. *)
Theorem proc_table_invariant s s' : table_ok s -> rtc proc_step s s' -> table_ok s'.
Proof.
  intros T H. induction H as [|s1 s2 s3 Hstep _ IH]; [done|]. apply IH. clear IH.
  destruct Hstep as [f r s s' Hf Hn E|f c s s' Hf Hn E|c s s' E|j s s' Hc Hj E|s s' E].
  - by destruct (proj1 (syscall_table f s Hf Hn T) r s' E).
  - by destruct (proj2 (syscall_table f s Hf Hn T) c s' E).
  - eapply tame_ok; [done|]. by eapply quiet_tame, quietly_kwakeup.
  - by eapply dispatch_ok.
  - by destruct (yield_ok _ _ T E).
Qed.
End history.
