(* ===== verification/SchedSpec.v ===== *)
(** * The scheduler reaches every process, and killed processes do not return

    A sweep of the scheduler goes over the table once and gives the CPU to
    every process that can run when its turn comes.  A trap does not lead back
    to user code of a process that was killed. *)

From S2P Require Import Prelude Irq Monad Locks Memory CString Mmu Kalloc Vm VmSpec FsState FsLayout Log Fs Dir Console Kernel KernelSpec Pipe File Proc SysArg SysProc Exec ExecSpec SysFile ExIde Syscall FileRefs ProcSpec.

Open Scope Z_scope.
Open Scope kernel_scope.

(** ** The sweep *)

Lemma pick_spec ps i count :
  match pick ps i count with
  | Some j => (i <= j < i + count)%nat /\ (exists p, ps !! j = Some p /\ p_state p = RUNNABLE) /\
      (forall k p, (i <= k < j)%nat -> ps !! k = Some p -> p_state p <> RUNNABLE)
  | None => (length ps <= i + count)%nat ->
      forall k p, (i <= k)%nat -> ps !! k = Some p -> p_state p <> RUNNABLE
  end.
Proof.
  revert i. induction count as [|count IH]; intros i; cbn [pick].
  - intros Hl k p Hk Hp. apply lookup_lt_Some in Hp. lia.
  - destruct (ps !! i) as [q|] eqn:Hq.
    + destruct (bool_decide_reflect (p_state q = RUNNABLE)) as [Hs|Hs].
      * split; [lia|]. split; [by exists q|]. intros k p Hk. lia.
      * specialize (IH (S i)). destruct (pick ps (S i) count) as [j|].
        -- destruct IH as (Hj & Hr & Hn). split; [lia|]. split; [done|]. intros k p Hk Hp.
           destruct (decide (k = i)) as [->|Hne]; [by simplify_eq|]. apply (Hn k); [lia|done].
        -- intros Hl k p Hk Hp. destruct (decide (k = i)) as [->|Hne]; [by simplify_eq|].
           apply (IH ltac:(lia) k); [lia|done].
    + intros _ k p Hk Hp. apply lookup_lt_Some in Hp. apply lookup_ge_None in Hq. lia.
Qed.

Lemma scheduler_step_inv i s r s' :
  (i <= length (k_procs s))%nat -> scheduler_step i s = Ok r s' ->
  match r with
  | Some j => (i <= j)%nat /\ in_state j RUNNABLE s /\ k_procs s' = alter (with_state RUNNING) j (k_procs s) /\
      (exists s1, quiet s s1 /\ dispatch j s1 = Ok tt s') /\
      forall k, (i <= k < j)%nat -> ~ in_state k RUNNABLE s
  | None => forall k, (i <= k)%nat -> ~ in_state k RUNNABLE s
  end.
Proof.
  intros Hi E. unfold scheduler_step in E. apply bind_inv in E as ([] & s1 & E1 & E).
  assert (Q : quiet s s1 /\ k_procs s1 = k_procs s).
  { destruct (i =? 0)%nat; [|by injection E1 as <-]. split; [by eapply quietly_acquire|]. unfold acquire in E1.
    destruct (holding LkPtable s); [done|]. by injection E1 as <-. }
  destruct Q as [Q Hp]. unfold bind at 1, get in E. cbn in E. rewrite Hp in E.
  pose proof (pick_spec (k_procs s) i (length (k_procs s) - i)) as H.
  destruct (pick (k_procs s) i _) as [j|].
  - destruct H as (Hj & Hr & Hn). apply bind_inv in E as ([] & s2 & E2 & E). injection E as <- <-.
    split; [lia|]. split; [exact Hr|]. split; [injection E2 as <-; simpl; by rewrite Hp|].
    split; [by exists s1|]. intros k Hk (p & Hpk & Hs). by apply (Hn k p Hk Hpk).
  - apply bind_inv in E as ([] & s2 & E2 & E). injection E as <- <-.
    intros k Hk (p & Hpk & Hs). apply (H ltac:(lia) k p Hk Hpk Hs).
Qed.

(** ** What a process does with the CPU *)

(** Every way through [m] leaves the table sound; the CPU's process goes on or
    has left, and the others that could run still can. *)
Definition fair_if (P : kernel -> Prop) {A} (m : M kernel A) : Prop := forall s, table_ok s -> P s ->
  match m s with
  | Ok _ s' => table_ok s' /\ (kept s s' \/ left_cpu s s')
  | Sleeps _ s' => table_ok s' /\ left_cpu s s'
  | _ => True
  end.
Definition anywhere (s : kernel) : Prop := True.
Definition pids_left (s : kernel) : Prop := 0 < k_nextpid s < 2147483647.

Lemma left_kept s s1 s' : left_cpu s s1 -> kept s1 s' -> left_cpu s s'.
Proof.
  intros (Hc & Hl & i & Hi & Hk) (Hc' & Hl' & Hk'). split_and!; [congruence|congruence|]. exists i. split; [done|auto].
Qed.

Lemma left_twice s s1 s' : left_cpu s s1 -> ~ left_cpu s1 s'.
Proof. intros (Hc & _) (_ & _ & i & Hi & _). congruence. Qed.

Lemma fair_good P {A} (m : M kernel A) : good m -> fair_if P m.
Proof.
  intros H s T _. specialize (H s T). destruct (m s); [|done|done|done].
  split; [by eapply tame_ok|left; by apply tame_kept].
Qed.

(** First something that leaves the processes alone. *)
Lemma fair_after_good {A B} (m : M kernel A) (k : A -> M kernel B) :
  good m -> (forall a, fair_if pids_left (k a)) -> fair_if pids_left (bind m k).
Proof.
  intros Hm Hk s T Hp. specialize (Hm s T). unfold bind. destruct (m s) as [a s1| | |]; try done.
  assert (Hp1 : pids_left s1) by (destruct Hm as (_ & Hn & _); unfold pids_left; by rewrite Hn).
  specialize (Hk a s1 (tame_ok _ _ T Hm) Hp1). apply tame_kept in Hm. destruct (k a s1) as [b s2| |c s2|]; try done.
  - destruct Hk as [? [?|?]]; split; [done|left; by transitivity s1|done|right; by eapply kept_left].
  - destruct Hk. split; [done|by eapply kept_left].
Qed.

Lemma fair_bind P {A B} (m : M kernel A) (k : A -> M kernel B) :
  fair_if P m -> (forall a, fair_if anywhere (k a)) -> fair_if P (bind m k).
Proof.
  intros Hm Hk s T Hp. specialize (Hm s T Hp). unfold bind. destruct (m s) as [a s1| | |]; try done.
  destruct Hm as [T1 Hm]. specialize (Hk a s1 T1 I). destruct (k a s1) as [b s2| |c s2|]; try done; destruct Hk as [T2 Hk].
  - split; [done|]. destruct Hm as [Hm|Hm], Hk as [Hk|Hk].
    + left. by transitivity s1.
    + right. by eapply kept_left.
    + right. by eapply left_kept.
    + by destruct (left_twice _ _ _ Hm Hk).
  - split; [done|]. destruct Hm as [Hm|Hm]; [by eapply kept_left|by destruct (left_twice _ _ _ Hm Hk)].
Qed.

Lemma fair_exit kend : fair_if anywhere (exit_proc kend).
Proof.
  intros s T _. destruct (exit_proc kend s) as [[] s'| |c s'|] eqn:E; try done.
  - apply exit_ok in E as [? ?]; auto.
  - by eapply exit_parks.
Qed.

Ltac fair_step :=
  match goal with
  | |- fair_if _ (exit_proc _) => apply fair_exit
  | |- fair_if _ (bind _ _) => apply fair_bind; [|intros ?]
  | |- fair_if _ (match ?x with _ => _ end) => destruct x
  | |- fair_if _ _ => apply fair_good; solve [solve_good]
  end.
Ltac solve_fair := repeat fair_step.

(** The calls. *)
Section turns.
Context (kend kdata trapret forkret start_addr : Z).

Lemma fair_exit_if_killed tf : fair_if anywhere (exit_if_killed kend tf).
Proof. unfold exit_if_killed. solve_fair. Qed.

Lemma fair_call f : f ∈ syscalls kend kdata trapret forkret start_addr -> fair_if pids_left f.
Proof.
  intros Hf s T Hp. destruct (syscall_table _ _ _ _ _ f s Hf Hp T) as [H1 H2].
  destruct (f s) as [r s'| |c s'|] eqn:E; try done; [by eapply H1|by eapply H2].
Qed.

Lemma good_set_eax v : good (set_eax v).
Proof. unfold set_eax. solve_good. Qed.

Lemma fair_syscall : fair_if pids_left (syscall kend kdata trapret forkret start_addr).
Proof.
  unfold syscall. apply fair_after_good; [solve_good|]. intros p. apply fair_after_good; [solve_good|]. intros eax.
  cbv zeta. destruct (_ && _).
  2:{ apply fair_good. unfold unknown_call. good_step; [solve_good|]. apply good_set_eax. }
  destruct (syscalls _ _ _ _ _ !! _) as [f|] eqn:Ef.
  - apply fair_bind; [|intros r; apply fair_good, good_set_eax]. apply fair_call. by eapply list_elem_of_lookup_2.
  - apply fair_good. unfold unknown_call. good_step; [solve_good|]. apply good_set_eax.
Qed.

Lemma good_interrupt tf no d : good (interrupt tf no d).
Proof.
  unfold interrupt, timer_tick, ideintr_idle, ex_ideintr, insl_sector, kconsoleintr, unexpected, report. solve_good.
Qed.

Lemma fair_trap_syscall tf : fair_if pids_left (trap_syscall kend kdata trapret forkret start_addr tf).
Proof.
  unfold trap_syscall. apply fair_after_good; [solve_good|]. intros p. destruct (p_killed p); [|].
  - intros s T _. by apply fair_exit.
  - apply fair_after_good; [solve_good|]. intros _. apply fair_bind; [apply fair_syscall|]. intros _. solve_fair.
Qed.

(** The switch to the scheduler at the end of yield. *)
Definition handed_over (yielded : bool) (s : kernel) : kernel := if yielded then set_cur None (set_held [] s) else s.

Lemma trap_fair tf d s : table_ok s -> pids_left s ->
  match trap kend kdata trapret forkret start_addr tf d s with
  | Ok y s' => table_ok (handed_over y s') /\ (kept s (handed_over y s') \/ left_cpu s (handed_over y s'))
  | Sleeps _ s' => table_ok s' /\ left_cpu s s'
  | _ => True
  end.
Proof.
  intros T Hp. unfold trap. unfold bind at 1, kload32, gets. cbn [kload32]. destruct (_ =? T_SYSCALL).
  - pose proof (fair_bind pids_left (trap_syscall kend kdata trapret forkret start_addr tf) (fun _ => ret false)
      (fair_trap_syscall tf) (fun _ => fair_good _ _ (good_ret false)) s T Hp) as H. destruct (bind _ _ s) as [y s'| | |] eqn:E; try done.
    apply bind_inv in E as (? & ? & _ & E). injection E as <- _. exact H.
  - set (no := load32 _ _). clearbody no.
    assert (F : fair_if anywhere (interrupt tf no d ;; exit_if_killed kend tf)).
    { apply fair_bind; [apply fair_good, good_interrupt|]. intros _. apply fair_exit_if_killed. }
    specialize (F s T I). unfold bind in F. unfold bind at 1. destruct (interrupt tf no d s) as [[] s1| | |]; try done.
    unfold bind at 1. destruct (exit_if_killed kend tf s1) as [[] s2| | |]; try done.
    destruct F as [T2 F]. unfold bind at 1, get. cbn beta iota. destruct (k_cur s2) as [i|] eqn:Hc; [|done].
    assert (K : kept s s2) by (destruct F as [F|(Hn & _)]; [done|congruence]).
    unfold bind at 1, get_proc. destruct (k_procs s2 !! i) as [q|]; [|done]. destruct (_ && _).
    + unfold bind. destruct (yield s2) as [[] s3| | |] eqn:E; try done.
      * destruct (yield_ok _ _ T2 E) as [? ?]. split; [done|right; by eapply kept_left].
      * exfalso. unfold yield in E. apply bind_sleeps in E as [E|([] & s4 & _ & E)]; [by apply acquire_awake in E|].
        apply bind_sleeps in E as [E|([] & s5 & _ & E)]; [|by apply sched_checks_awake in E].
        unfold upd_cur, bind, cur in E. by destruct (k_cur s4).
    + pose proof (fair_exit_if_killed tf s2 T2 I) as G. unfold bind. destruct (exit_if_killed kend tf s2) as [[] s3| |c s3|]; try done.
      * destruct G as [? [?|?]]; split; [done|left; by transitivity s2|done|right; by eapply kept_left].
      * destruct G. split; [done|by eapply kept_left].
Qed.

(** A turn on the CPU, up to the switch back to the scheduler.  The process
    comes out of sched behind yield, behind sleep (whose call it makes again)
    or for the first time; its own code changes memory; and it enters the
    kernel through trap any number of times. *)
Inductive turn (j : nat) : kernel -> kernel -> Prop :=
| turn_over s : k_cur s = None -> turn j s s
| turn_code m s s' : k_cur s = Some j -> turn j (set_kmem m s) s' -> turn j s s'
| turn_trap tf d y s s1 s' :
    k_cur s = Some j -> pids_left s -> trap kend kdata trapret forkret start_addr tf d s = Ok y s1 -> turn j (handed_over y s1) s' -> turn j s s'
| turn_blocks tf d c s s' : k_cur s = Some j -> pids_left s -> trap kend kdata trapret forkret start_addr tf d s = Sleeps c s' -> turn j s s'
| turn_preempted tf s s1 s' : k_cur s = Some j -> trap_resume kend tf s = Ok tt s1 -> turn j s1 s' -> turn j s s'
| turn_dies tf c s s' : k_cur s = Some j -> trap_resume kend tf s = Sleeps c s' -> turn j s s'
| turn_woken l s s1 s' : k_cur s = Some j -> (sleep_resume j l ;; release l) s = Ok tt s1 -> turn j s1 s' -> turn j s s'
| turn_first s s1 s' : k_cur s = Some j -> forkret_run s = Ok tt s1 -> turn j s1 s' -> turn j s s'
| turn_first_blocks c s s' : k_cur s = Some j -> forkret_run s = Sleeps c s' -> turn j s s'.

(** A step in front of a turn. *)
Lemma turn_step s s1 s' :
  table_ok s1 /\ (kept s s1 \/ left_cpu s s1) -> k_cur s <> None ->
  (table_ok s1 -> table_ok s' /\ ((k_cur s1 <> None -> left_cpu s1 s') /\ (k_cur s1 = None -> s' = s1))) ->
  table_ok s' /\ left_cpu s s'.
Proof.
  intros [T [K|L]] Hc H; destruct (H T) as (T' & H1 & H2); (split; [done|]).
  - eapply kept_left; [exact K|]. apply H1. destruct K as (E & _). by rewrite E.
  - destruct L as (E & L). rewrite (H2 E). by split.
Qed.

Lemma sleep_resume_ok j l s s' : table_ok s -> k_cur s = Some j -> sleep_resume j l s = Ok tt s' -> table_ok s' /\ kept s s'.
Proof.
  intros T Hc E. unfold sleep_resume in E. apply bind_inv in E as ([] & s1 & E1 & E). injection E1 as <-.
  set (s1 := set_procs _ s) in E. assert (K : table_ok s1 /\ kept s s1).
  { destruct (k_procs s !! j) as [p|] eqn:Hp.
    - assert (Hr : p_state p = RUNNING) by (by apply (tk_running _ T j p Hp)). split.
      + apply (table_upd s s1 j p (with_chan None p)); [done|done|by apply alter_lookup|done|by split|done| |].
        * intros Hs. change (p_state p = SLEEPING) in Hs. congruence.
        * intros _. split; [apply (tk_pid _ T j p Hp); congruence|left; split; [done|congruence]].
      + apply (kept_upd s s1 j RUNNING (with_chan None)); [by exists p|done..].
    - assert (Es : k_procs s1 = k_procs s) by (by apply alter_none).
      assert (t : tame s s1) by (split_and!; [done|done|by rewrite Es]). split; [by eapply tame_ok|by apply tame_kept]. }
  destruct K as [T1 K]. assert (t : tame s1 s').
  { destruct (decide (l = LkPtable)); [by injection E as <-|]. refine ((_ : tamely _) _ _ _ E). solve_tame. }
  split; [by eapply tame_ok|]. transitivity s1; [done|by apply tame_kept].
Qed.

Lemma turn_leaves j s s' : turn j s s' -> table_ok s ->
  table_ok s' /\ ((k_cur s <> None -> left_cpu s s') /\ (k_cur s = None -> s' = s)).
Proof.
  induction 1 as [s Hc|m s s' Hc _ IH|tf d y s s1 s' Hc Hp E _ IH|tf d c s s' Hc Hp E|tf s s1 s' Hc E _ IH|tf c s s' Hc E
                 |l s s1 s' Hc E _ IH|s s1 s' Hc E _ IH|c s s' Hc E]; intros T.
  1: done.
  all: enough (table_ok s' /\ left_cpu s s') as [? ?] by (split; [done|]; split; [done|congruence]).
  - eapply turn_step; [|congruence|exact IH].
    assert (t : tame s (set_kmem m s)) by (by split_and!). split; [by eapply tame_ok|left; by apply tame_kept].
  - pose proof (trap_fair tf d s T Hp) as F. rewrite E in F. eapply turn_step; [exact F|congruence|exact IH].
  - pose proof (trap_fair tf d s T Hp) as F. by rewrite E in F.
  - assert (F : fair_if anywhere (trap_resume kend tf)).
    { unfold trap_resume. apply fair_bind; [fair_step|]. intros _. apply fair_exit_if_killed. }
    specialize (F s T I). rewrite E in F. eapply turn_step; [exact F|congruence|exact IH].
  - assert (F : fair_if anywhere (trap_resume kend tf)).
    { unfold trap_resume. apply fair_bind; [fair_step|]. intros _. apply fair_exit_if_killed. }
    specialize (F s T I). by rewrite E in F.
  - apply bind_inv in E as ([] & s2 & E2 & E). destruct (sleep_resume_ok _ _ _ _ T Hc E2) as [T2 K2].
    apply quietly_release, quiet_tame in E. eapply turn_step; [|congruence|exact IH].
    split; [by eapply tame_ok|left]. transitivity s2; [done|by apply tame_kept].
  - assert (F : fair_if anywhere forkret_run) by (unfold forkret_run; solve_fair).
    specialize (F s T I). rewrite E in F. eapply turn_step; [exact F|congruence|exact IH].
  - assert (F : fair_if anywhere forkret_run) by (unfold forkret_run; solve_fair).
    specialize (F s T I). by rewrite E in F.
Qed.

(** ** The sweep *)

(** The scheduler at slot [i] has given the CPU to [js] in turn and is now at
    slot [i'].  It gets the lock of the table from the process that leaves. *)
Inductive sweeping : nat -> kernel -> list nat -> nat -> kernel -> Prop :=
| sweep_here i s : sweeping i s [] i s
| sweep_turn i s j s1 s2 js i' s' :
    scheduler_step i s = Ok (Some j) s1 -> turn j s1 s2 ->
    sweeping (S j) (set_held [LkPtable] s2) js i' s' -> sweeping i s (j :: js) i' s'.

(** The scheduler's lock, at the start of a sweep and within it. *)
Definition locked_at (i : nat) (s : kernel) : Prop :=
  if (i =? 0)%nat then LkPtable ∉ held (k_thr s) else LkPtable ∈ held (k_thr s).

(** With a process that can run in slot [k] the scheduler picks one up to it. *)
Lemma scheduler_picks i s k :
  locked_at i s -> (i <= k)%nat -> in_state k RUNNABLE s ->
  exists j s1, scheduler_step i s = Ok (Some j) s1 /\ (i <= j <= k)%nat.
Proof.
  intros Hl Hk Hr. assert (Hlt : (k < length (k_procs s))%nat) by (destruct Hr as (p & Hp & _); by eapply lookup_lt_Some).
  assert (Hs : exists s0, (if (i =? 0)%nat then acquire LkPtable else ret tt) s = Ok tt s0 /\ k_procs s0 = k_procs s).
  { unfold locked_at in Hl. destruct (i =? 0)%nat; [|by exists s]. eexists. split; [by apply acquire_ok|done]. }
  destruct Hs as (s0 & E0 & Hp). unfold scheduler_step. unfold bind at 1. rewrite E0. unfold bind at 1, get. cbn beta iota. rewrite Hp.
  pose proof (pick_spec (k_procs s) i (length (k_procs s) - i)) as H.
  destruct (pick (k_procs s) i _) as [j|].
  - destruct H as (Hj & _ & Hn). eexists j, _. split; [reflexivity|]. split; [lia|].
    destruct (decide (j <= k)%nat) as [|Hgt]; [done|]. destruct Hr as (p & Hpk & Hs). by destruct (Hn k p ltac:(lia) Hpk).
  - destruct Hr as (p & Hpk & Hs). by destruct (H ltac:(lia) k p Hk Hpk).
Qed.

(** C15: a process that can run when the scheduler starts a sweep gets the CPU
    in this sweep.  Whatever the processes that run before it do with the CPU
    (any system calls, interrupts and faults, until they yield, block or
    exit), the scheduler neither ends the sweep nor goes past the process
    before it has run: as long as it has not had its turn there were at most
    as many turns as slots before it, and the scheduler next picks it or a
    slot before it. *)
Theorem sweep_runs_all i s js i' s' k :
  sweeping i s js i' s' -> table_ok s -> k_cur s = None -> locked_at i s -> (i <= k)%nat -> in_state k RUNNABLE s ->
  k ∈ js \/
  (length js <= k - i)%nat /\ in_state k RUNNABLE s' /\
  exists j s1, scheduler_step i' s' = Ok (Some j) s1 /\ (i' <= j <= k)%nat.
Proof.
  intros H. revert k. induction H as [i s|i s j s1 s2 js i' s' E Ht _ IH]; intros k T Hc Hl Hk Hr.
  - right. split; [cbn; lia|]. split; [done|]. by apply scheduler_picks.
  - destruct (decide (k = j)) as [->|Hne]; [left; by apply list_elem_of_here|].
    assert (Hlt : (k < length (k_procs s))%nat) by (destruct Hr as (p & Hp & _); by eapply lookup_lt_Some).
    apply scheduler_step_inv in E as (Hj & Hrj & Hp & (s0 & Q & Ed) & Hn); [|lia].
    assert (Hjk : (j < k)%nat) by (destruct (decide (k < j)%nat); [by destruct (Hn k ltac:(lia))|lia]).
    apply quiet_tame in Q. assert (T1 : table_ok s1).
    { apply (dispatch_ok j s0); [by eapply tame_ok|destruct Q as (-> & _); done| |done]. by eapply tame_in_state. }
    assert (Hc1 : k_cur s1 = Some j) by (by injection Ed as <-).
    destruct (turn_leaves _ _ _ Ht T1) as (T2 & HL & _). destruct (HL ltac:(congruence)) as (Hc2 & _ & i0 & Hi0 & Hk2).
    assert (i0 = j) as -> by congruence. assert (Hr2 : in_state k RUNNABLE s2).
    { apply Hk2; [done|]. by apply (other_in_state j k RUNNABLE s s1 _ Hp). }
    destruct (IH k) as [Hin|(Hlen & Hrest)]; [|done|unfold locked_at; cbn; set_solver|lia|exact Hr2|left; by apply list_elem_of_further|].
    + eapply tame_ok; [exact T2|]. by split_and!.
    + right. split; [cbn; lia|exact Hrest].
Qed.
End turns.

(** ** Killed processes *)

Lemma exit_leaves kend s s' : exit_proc kend s = Ok tt s' -> k_cur s' = None.
Proof.
  intros E. unfold exit_proc in E. unfold bind at 1, get in E. cbn in E.
  destruct (k_cur s); [|done]. destruct (k_initproc s); [|done]. destruct (_ =? _)%nat; [done|].
  do 6 (apply bind_inv in E as (? & ? & _ & E)). apply bind_inv in E as ([] & s1 & _ & E). by injection E as <-.
Qed.

Lemma exit_if_killed_spec kend tf s s' i p :
  exit_if_killed kend tf s = Ok tt s' -> k_cur s' = Some i -> k_procs s' !! i = Some p ->
  Z.land (load32 (kmemory (k_mem s')) (tf + TF_CS)) 3 = DPL_USER -> p_killed p = false.
Proof.
  intros E Hc Hp Hu. unfold exit_if_killed in E. unfold bind at 1, get in E. cbn in E.
  destruct (k_cur s) as [j|] eqn:Hj; [|injection E as <-; congruence].
  apply bind_inv in E as (q & s1 & E1 & E). apply get_proc_inv in E1 as [-> Hq].
  apply bind_inv in E as (cs & s1 & E1 & E). injection E1 as <- <-.
  destruct (p_killed q) eqn:Hk; cbn [andb] in E.
  - destruct (Z.eqb_spec (Z.land (load32 (kmemory (k_mem s)) (tf + TF_CS)) 3) DPL_USER) as [Eq|Hne].
    + apply exit_leaves in E. congruence.
    + injection E as <-. congruence.
  - injection E as <-. congruence.
Qed.

(** When a trap from user mode leads back to its process without giving
    up the CPU, the process has not been killed. *)
Theorem trap_killed_exits kend kdata trapret forkret start_addr tf d s s' i p :
  trap kend kdata trapret forkret start_addr tf d s = Ok false s' ->
  k_cur s' = Some i -> k_procs s' !! i = Some p ->
  Z.land (load32 (kmemory (k_mem s')) (tf + TF_CS)) 3 = DPL_USER -> p_killed p = false.
Proof.
  intros E Hc Hp Hu. unfold trap in E. apply bind_inv in E as (no & s1 & E1 & E).
  destruct (no =? T_SYSCALL).
  - apply bind_inv in E as ([] & s2 & E2 & E). injection E as <-. unfold trap_syscall in E2.
    apply bind_inv in E2 as (q & s3 & E3 & E2). destruct (p_killed q); [apply exit_leaves in E2; congruence|].
    apply bind_inv in E2 as ([] & s4 & _ & E2). apply bind_inv in E2 as ([] & s5 & _ & E2).
    unfold bind at 1, get in E2. cbn in E2. destruct (k_cur s5) as [j|] eqn:Hj; [|injection E2 as <-; congruence].
    apply bind_inv in E2 as (r & s6 & E6 & E2). apply get_proc_inv in E6 as [-> Hr].
    destruct (p_killed r) eqn:Hk; [apply exit_leaves in E2; congruence|]. injection E2 as <-. congruence.
  - apply bind_inv in E as ([] & s2 & _ & E). apply bind_inv in E as ([] & s3 & _ & E).
    unfold bind at 1, get in E. cbn in E. destruct (k_cur s3) as [j|] eqn:Hj; [|injection E as <-; congruence].
    apply bind_inv in E as (r & s6 & E6 & E). apply get_proc_inv in E6 as [-> Hr]. destruct (_ && _).
    + apply bind_inv in E as ([] & s7 & _ & E). done.
    + apply bind_inv in E as ([] & s7 & E7 & E). injection E as <-. by eapply exit_if_killed_spec.
Qed.
