(* ===== verification/KernelDemo.v ===== *)
(** * A small machine

    One process with a page of memory, a file open for reading as descriptor 0,
    and a file system of forty sectors with that file in its root directory.  The theorems about
    system calls are applied to it, and the calls are run on it. *)

From S2P Require Import Prelude Irq Monad Locks Memory CString Mmu Kalloc Vm VmSpec FsState FsLayout Log Txn Fs Dir Console Kernel KernelSpec Pipe File Proc SysArg ArgSpec SysProc Exec ExecSpec SysFile ExIde Syscall FileRefs ProcSpec SchedSpec.

Open Scope Z_scope.
Open Scope kernel_scope.

(** Page directory, page table, frame of the user page and trap frame. *)
Definition PGD : Z := 0x80400000.
Definition PGT : Z := 0x80401000.
Definition FRAME : Z := 0x80402000.
Definition TRAPF : Z := 0x80403000.

(** The user page: the stack pointer is 100, the arguments are above it. *)
Definition demo_mem (args : list Z) : mem :=
  store_bytes
    (store32 (store32 (store32 (fun _ => 0) PGD (Z.lor (v2p PGT) 7)) PGT (Z.lor (v2p FRAME) 7))
       (TRAPF + TF_ESP) 100)
    (FRAME + 104) (flat_map (le_bytes 4) args).

(** Inode 1 is the root directory, in block 6; inode 2 is its file f, of [size]
    bytes in block 7. *)
Definition root_inode : inode := mkInode 1 1 1 false true T_DIR 0 0 1 48 (6 :: replicate 12 0).
Definition file_inode (size : Z) : inode := mkInode 1 2 1 false true T_FILE 0 0 1 size (7 :: replicate 12 0).
Definition free_inode : inode := mkInode 0 0 0 false false 0 0 0 0 0 (replicate 13 0).

Definition demo_disk (size : Z) : gmap (Z * Z) (list Z) :=
  <[(1, 2) := put_dinode (put_dinode (replicate 512 0) 1 (dinode_of root_inode)) 2 (dinode_of (file_inode size))]>
  (<[(1, 6) := mk_dirent 1 [46] ++ mk_dirent 1 [46; 46] ++ mk_dirent 2 [102] ++ replicate 464 0]>
  (<[(1, 7) := replicate 512 65]>
  (<[(1, 1) := LogDemo.sb_block]>
  {[ (1, 4) := 255 :: replicate 511 0 ]}))).

Definition demo_fs (size : Z) : fstate :=
  mkFs (replicate NBUF (mkBuf false false false 0 0 (replicate 512 0))) (seq 0 NBUF) (demo_disk size) 40 []
       (mkLog 10 30 0 false 1 0 (replicate 30 0)) [file_inode size; root_inode; free_inode; free_inode] (mkThread [] []).

Definition demo_proc : proc :=
  mkProc 4096 PGD 0 RUNNING 1 None TRAPF 0 None false (Some 0%nat :: repeat None 15) (Some 1%nat)
    (repeat 0 16) 0.

Definition machine (size : Z) (m : mem) : kernel :=
  set_files [mkFile FD_INODE 1 true false 0 0 0; Blank.file0]
    (set_procs [demo_proc; Blank.unused0]
      (set_kfs (demo_fs size) (set_kmem (mkK m true 0 0 (mkThread [] [])) Blank.kernel0))).

Definition demo (args : list Z) : kernel := machine 200 (demo_mem args).

Definition outcome {A} (r : res kernel A) : option A + string :=
  match r with
  | Ok a _ => inl (Some a)
  | Sleeps _ _ => inl None
  | Panic m => inr m
  | Fault m => inr m
  end.

(** A count of -1 passes argptr and is taken as 4294967295 by readi, which
    cuts it to the size of the file: the read runs over the end of the process
    and faults in the kernel, while counts that do not fit are refused. *)
Theorem read_negative_count :
  outcome (sys_read (demo [0; 4000; 90])) = inl (Some 90) /\
  outcome (sys_read (demo [0; 4000; 97])) = inl (Some (-1)) /\
  outcome (sys_read (demo [0; 4000; u32 (-1)])) = inr "page fault in the kernel"%string.
Proof. vm_compute. done. Qed.

(** ** Files *)

Definition after {A} (m : M kernel A) (s : kernel) : kernel :=
  match m s with Ok _ s' => s' | _ => s end.

Lemma demo_files_inv args : files_inv (demo args).
Proof.
  split.
  - intros [|[|i]]; [done|done|]. unfold balance, ref_of. simpl. by destruct i.
  - intros [|[|j]] p H; [injection H as <-|injection H as <-|done]; split; try done. by intros [?|[?|?]].
Qed.

Lemma demo_busy args : busy (demo args).
Proof. exists 0%nat, demo_proc. split; [done|]. by intros [?|[?|?]]. Qed.

(** dup of descriptor 0: the file is named twice and has count 2. *)
Lemma file_refs_invariant_witness :
  files_inv (after sys_dup (demo [0])) /\
  f_ref <$> k_files (after sys_dup (demo [0])) !! 0%nat = Some 2.
Proof.
  split; [|by vm_compute].
  apply (file_refs_invariant 0 0 0 0 0 (demo [0])); [apply demo_files_inv|].
  apply rtc_once, (step_call _ _ _ _ _ sys_dup 1).
  - by apply (list_elem_of_lookup_2 _ 9%nat).
  - apply demo_busy.
  - vm_compute. reflexivity.
Defined.

(** ** Arguments *)

Lemma argptr_checks_witness :
  argptr 1 96 (demo [0; 4000]) = Ok (Some 4000) (demo [0; 4000]) /\
  argptr 1 97 (demo [0; 4000]) = Ok None (demo [0; 4000]).
Proof.
  split.
  - apply (argptr_checks 0 demo_proc (demo [0; 4000]) 1 96 4000); [done|done|by vm_compute|lia].
  - apply (argptr_checks 0 demo_proc (demo [0; 4000]) 1 97 4000); [done|done|by vm_compute|lia].
Defined.

(** A process of 112 bytes whose last eight start with the string "abc". *)
Definition small : kernel :=
  set_procs [with_vm 112 PGD demo_proc] (demo [0x636261; 5]).

Lemma fetchstr_correct_witness :
  exists r, fetchstr 104 small = Ok r small /\
    match r with
    | Some t => exists rest, [97; 98; 99; 0; 5; 0; 0; 0] = t ++ 0 :: rest /\ 0 ∉ t
    | None => 0 ∉ [97; 98; 99; 0; 5; 0; 0; 0]
    end.
Proof.
  apply (fetchstr_correct 0 (with_vm 112 PGD demo_proc)); [done|lia|done|done|].
  intros k b H. do 8 (destruct k as [|k]; [injection H as <-; by vm_compute|]). done.
Defined.

(** exec of a path that does not exist, of a file that is not a program, and of
    a program for which memory runs out: there is one free page, which becomes
    the page directory.  A second process waits for the log and is woken. *)
Definition elf_block : list Z := le_bytes 4 ELF_MAGIC ++ replicate 508 0.
Definition waiter : proc := with_chan (Some ChLog) (with_state SLEEPING (with_pid 2 demo_proc)).
Definition short_of_memory : kernel :=
  let s := set_procs [demo_proc; waiter] (demo []) in
  let f := demo_fs 200 in
  set_kfs (mkFs (bufs f) (lru f) (<[(1, 7) := elf_block]> (disk f)) (disksize f) (writes f) (log f) (icache f) (fthr f))
    (set_kmem (mkK (demo_mem []) true 0x80500000 0 (mkThread [] [])) s).

Lemma exec_failure_keeps_image_witness :
  Forall (fun '(path, s) => exists s', exec 0x80200000 0x80300000 path [] s = Ok (-1) s' /\
      runs 0 demo_proc s' /\ Forall2 roused (k_procs s) (k_procs s'))
    [([120], demo []); ([102], demo []); ([102], short_of_memory)] /\
  k_procs (after (exec 0x80200000 0x80300000 [102] []) short_of_memory) = [demo_proc; with_state RUNNABLE waiter].
Proof.
  split; [|by vm_compute].
  assert (T : forall path s, runs 0 demo_proc s -> outcome (exec 0x80200000 0x80300000 path [] s) = inl (Some (-1)) ->
    exists s', exec 0x80200000 0x80300000 path [] s = Ok (-1) s' /\ runs 0 demo_proc s' /\ Forall2 roused (k_procs s) (k_procs s')).
  { intros path s Hr Ho. destruct (exec 0x80200000 0x80300000 path [] s) as [r s'| | |] eqn:E; try done. injection Ho as ->.
    exists s'. split; [done|]. destruct (exec_failure_keeps_image _ _ _ _ _ _ _ 0 demo_proc Hr eq_refl E) as [?|(_ & ? & ? & _)]; done. }
  repeat (apply Forall_cons; split; [apply T; [by split|by vm_compute]|]). by apply Forall_nil.
Defined.

(** ** Processes *)

Lemma demo_table args : table_ok (demo args).
Proof.
  split.
  - intros [|[|j]] p H; [injection H as <-|injection H as <-|done]; done.
  - intros [|[|j]] p H; [injection H as <-|injection H as <-|done]; done.
  - intros [|[|j]] p H; [injection H as <-|injection H as <-|done]; done.
  - intros [|[|i]] [|[|j]] p q Hp Hq; simplify_eq/=; try done; by intros.
Qed.

(** The process kills itself with sys_kill and is preempted. *)
Lemma proc_table_invariant_witness :
  table_ok (set_cur None (set_held [] (after yield (after sys_kill (demo [1]))))).
Proof.
  apply (proc_table_invariant 0 0 0 0 0 (demo [1])); [apply demo_table|].
  apply (rtc_l _ _ (after sys_kill (demo [1]))).
  - apply (ps_return _ _ _ _ _ sys_kill 0); [by apply (list_elem_of_lookup_2 _ 5%nat)|done|by vm_compute].
  - apply rtc_once, ps_yield. by vm_compute.
Defined.

(** Two processes that can run, in slots 0 and 2.  The first comes out of sched,
    goes back to its program and is interrupted by the timer. *)
Definition ready (pid : Z) : proc := with_pid pid (with_state RUNNABLE Blank.proc0).
Definition timer_mem : mem := store32 (store32 (fun _ => 0) (TRAPF + TF_TRAPNO) (T_IRQ0 + IRQ_TIMER)) (TRAPF + TF_CS) USER_CS.
Definition idle_machine : kernel :=
  set_kmem (mkK timer_mem true 0 0 (mkThread [] [])) (set_nextpid 3 (set_cur None (set_procs [ready 1; Blank.unused0; ready 2] Blank.kernel0))).

Definition turn1 : kernel := after (scheduler_step 0) idle_machine.
Definition turn1_runs : kernel := after (trap_resume 0 TRAPF) turn1.
Definition turn1_over : kernel :=
  handed_over true (after (trap 0 0 0 0 0 TRAPF (mkDevices 0 0 [] [] true)) turn1_runs).

Lemma idle_table : table_ok idle_machine.
Proof.
  split.
  - intros [|[|[|j]]] p H; [injection H as <-|injection H as <-|injection H as <-|done]; done.
  - intros [|[|[|j]]] p H; [injection H as <-|injection H as <-|injection H as <-|done]; done.
  - intros [|[|[|j]]] p H; [injection H as <-|injection H as <-|injection H as <-|done]; done.
  - intros [|[|[|i]]] [|[|[|j]]] p q Hp Hq; simplify_eq/=; try done; by intros.
Qed.

Lemma sweep_runs_all_witness :
  2%nat ∈ [0]%nat \/
  (length [0%nat] <= 2 - 0)%nat /\ in_state 2 RUNNABLE (set_held [LkPtable] turn1_over) /\
  exists j s1, scheduler_step 1 (set_held [LkPtable] turn1_over) = Ok (Some j) s1 /\ (1 <= j <= 2)%nat.
Proof.
  apply (sweep_runs_all 0 0 0 0 0 0 idle_machine [0%nat] 1 (set_held [LkPtable] turn1_over) 2);
    [|apply idle_table|done|by apply (bool_decide_unpack _)|lia|by exists (ready 2)].
  apply (sweep_turn _ _ _ _ _ 0 idle_machine 0 turn1 turn1_over); [by vm_compute| |apply sweep_here].
  apply (turn_preempted _ _ _ _ _ 0 TRAPF turn1 turn1_runs); [done|by vm_compute|].
  apply (turn_trap _ _ _ _ _ 0 TRAPF (mkDevices 0 0 [] [] true) true turn1_runs
           (after (trap 0 0 0 0 0 TRAPF (mkDevices 0 0 [] [] true)) turn1_runs)); [done|done|by vm_compute|].
  by apply turn_over.
Defined.

(** getpid, from the trap to the return. *)
Definition getpid_mem : mem :=
  store32 (store32 (store32 (demo_mem []) (TRAPF + TF_TRAPNO) T_SYSCALL) (TRAPF + TF_EAX) 11) (TRAPF + TF_CS) USER_CS.
Definition getpid_trap : M kernel bool := trap 0 0 0 0 0 TRAPF (mkDevices 0 0 [] [] true).
Definition after_getpid : kernel := after getpid_trap (machine 200 getpid_mem).

Lemma trap_killed_exits_witness :
  load32 (kmemory (k_mem after_getpid)) (TRAPF + TF_EAX) = 1 /\
  p_killed (with_tf TRAPF demo_proc) = false.
Proof.
  split; [by vm_compute|].
  apply (trap_killed_exits 0 0 0 0 0 TRAPF (mkDevices 0 0 [] [] true) (machine 200 getpid_mem) after_getpid 0);
    by vm_compute.
Defined.

(** kill(0) finds the first slot without a process and marks it; the process
    that gets the slot later is born killed. *)
Definition one_page : kernel :=
  set_kmem (mkK (demo_mem []) true 0x80500000 0 (mkThread [] [])) (demo []).

Lemma kill_zero_marks_next_process :
  outcome (kill 0 one_page) = inl (Some 0) /\
  match (kill 0 ;; allocproc 0 0) one_page with
  | Ok (Some 1%nat) s => (fun p => (p_state p, p_killed p)) <$> k_procs s !! 1%nat = Some (EMBRYO, true)
  | _ => False
  end.
Proof. by vm_compute. Qed.

(** ** Memory *)

(** sbrk of minus the whole size frees the page, and then reports failure and
    keeps the size. *)
Lemma growproc_to_zero :
  match growproc 0 (-4096) (demo []) with
  | Ok r s => r = -1 /\ p_sz <$> k_procs s !! 0%nat = Some 4096 /\ load32 (kmemory (k_mem s)) PGT = 0
  | _ => False
  end.
Proof. by vm_compute. Qed.

(** ** Disk reads of exokernel processes *)

(** The path f at address 200. *)
Definition exfile (size : Z) : kernel :=
  machine size (store_bytes (demo_mem [200; 1000]) (FRAME + 200) [102; 0]).

(** A file whose size is a multiple of the block size has no block behind its
    end, which bmap then tries to allocate outside a transaction. *)
Lemma exfileread_full_block : outcome (sys_ExFileRead (exfile 512)) = inr "log_write outside of trans"%string.
Proof. by vm_compute. Qed.

(** The second request of a file of 200 bytes lies inside the block the first
    one reads: when the first transfer is done, its header has been overwritten
    by the contents of the file, and the drive is told to read the sector these
    bytes spell. *)
Lemma exfileread_header_overwritten :
  match (sys_ExFileRead ;; sys_ExReadSector ;; ex_ideintr true) (exfile 200) with
  | Ok _ s => ide_cmd (k_ide s) = Some (1, 0x1414141)
  | _ => False
  end.
Proof. by vm_compute. Qed.

(** ** exec of a device *)

(** The file is a device without a driver: the -1 of readi passes the
    comparison with the unsigned size, and exec goes on with a header it has
    not read. *)
Definition device_machine : kernel :=
  set_kfs (set_icache [mkInode 1 2 1 false true T_DEV 5 0 1 0 (replicate 13 0); root_inode; free_inode; free_inode]
             (demo_fs 200)) (demo []).

Lemma exec_device_header : outcome (exec 0 0 [102] [] device_machine) = inr "uninitialised elf header"%string.
Proof. by vm_compute. Qed.
