(* ===== verification/Uutil.v ===== *)
(** * The small user programs

    cat, wc, echo, ls, kill, ln, mkdir, rm, init, zombie, stressfs and
    forktest as interaction trees over their system calls.  [argv] is the
    list of arguments with the name of the program first.  The theorems hold
    of every trace, whatever the kernel answers: cat writes the bytes it
    reads, wc counts them however read() cuts them into pieces, rm and mkdir
    stop at the first failure, and init runs one shell at a time. *)

From S2P Require Import Prelude CString Ulib Printf Sh FsLayout Fs Uprog.
From ITree Require Import ITree.

Open Scope Z_scope.

(** ** cat.c *)

(** One turn of the loop; [inl] goes round again. *)
Definition cat_turn (fd : Z) : itree sysE (unit + unit) :=
  let* r := call (Read fd 512) in
  match r with
  | None => let* _ := printf 1 (line "cat: read error") [] in exit
  | Some [] => Ret (inr tt)
  | Some bs => let* _ := call (Write 1 bs) in Ret (inl tt)
  end.

Definition cat (fd : Z) : itree sysE unit := ITree.iter (fun _ => cat_turn fd) tt.

Fixpoint cat_files (files : list (list Z)) : itree sysE Empty_set :=
  match files with
  | [] => exit
  | f :: files =>
      let* fd := call (Open f 0) in
      if fd <? 0 then let* _ := printf 1 (line "cat: cannot open %s") [FStr f] in exit
      else let* _ := cat fd in let* _ := call (Close fd) in cat_files files
  end.

Definition cat_main (argv : list (list Z)) : itree sysE Empty_set :=
  if (length argv <=? 1)%nat then let* _ := cat 0 in exit
  else cat_files (drop 1 argv).

(** ** wc.c *)

Record wcst : Type := mkWc { wc_l : Z; wc_w : Z; wc_c : Z; inword : bool }.

(** strchr() in the characters that separate words. *)
Definition wc_space (b : Z) : bool := among [32; 13; 9; 10; 11] b.

(** The body of the loop over the buffer; the counters are [int]s. *)
Definition wc_byte (s : wcst) (b : Z) : wcst :=
  let c := s32 (wc_c s + 1) in
  let l := if b =? 10 then s32 (wc_l s + 1) else wc_l s in
  if wc_space b then mkWc l (wc_w s) c false
  else if negb (inword s) then mkWc l (s32 (wc_w s + 1)) c true
  else mkWc l (wc_w s) c true.

Definition wc_turn (fd : Z) (s : wcst) : itree sysE (wcst + wcst) :=
  let* r := call (Read fd 512) in
  match r with
  | None => let* _ := printf 1 (line "wc: read error") [] in exit
  | Some [] => Ret (inr s)
  | Some bs => Ret (inl (fold_left wc_byte bs s))
  end.

Definition wc (fd : Z) (name : list Z) : itree sysE unit :=
  let* s := ITree.iter (wc_turn fd) (mkWc 0 0 0 false) in
  printf 1 (line "%d %d %d %s") [FInt (wc_l s); FInt (wc_w s); FInt (wc_c s); FStr name].

Fixpoint wc_files (files : list (list Z)) : itree sysE Empty_set :=
  match files with
  | [] => exit
  | f :: files =>
      let* fd := call (Open f 0) in
      if fd <? 0 then let* _ := printf 1 (line "wc: cannot open %s") [FStr f] in exit
      else let* _ := wc fd f in let* _ := call (Close fd) in wc_files files
  end.

Definition wc_main (argv : list (list Z)) : itree sysE Empty_set :=
  if (length argv <=? 1)%nat then let* _ := wc 0 [] in exit
  else wc_files (drop 1 argv).

(** ** echo.c *)

Fixpoint echo_args (args : list (list Z)) : itree sysE Empty_set :=
  match args with
  | [] => exit
  | a :: args =>
      let* _ := printf 1 (chars "%s%s") [FStr a; FStr (match args with [] => [10] | _ => [32] end)] in
      echo_args args
  end.

Definition echo_main (argv : list (list Z)) : itree sysE Empty_set := echo_args (drop 1 argv).

(** ** ls.c *)

(** The characters after the last slash: the loop of fmtname runs from the
    end of the path down to a slash or past its first character. *)
Fixpoint back_to_slash (rpath : list Z) : list Z :=
  match rpath with
  | [] => []
  | c :: rpath => if c =? 47 then [] else c :: back_to_slash rpath
  end.

Definition fmtname (path : list Z) : list Z :=
  let p := rev (back_to_slash (rev path)) in
  if (DIRSIZ <=? length p)%nat then p
  else p ++ repeat 32 (DIRSIZ - length p).

(** stat() of ulib.c. *)
Definition stat (path : list Z) : itree sysE (option ustat) :=
  let* fd := call (Open path 0) in
  if fd <? 0 then Ret None
  else let* r := call (Fstat fd) in let* _ := call (Close fd) in Ret r.

Definition ls_line (path : list Z) (st : ustat) : itree sysE unit :=
  printf 1 (line "%s %d %d %d") [FStr (fmtname path); FInt (us_type st); FInt (us_ino st); FInt (us_size st)].

(** The string in a field that is cut at its first NUL. *)
Fixpoint cut_nul (l : list Z) : list Z :=
  match l with
  | [] => []
  | c :: l => if c =? 0 then [] else c :: cut_nul l
  end.

(** The loop over the entries of a directory; an entry is its inode number
    in two bytes and its name. *)
Definition ls_turn (fd : Z) (path : list Z) : itree sysE (unit + unit) :=
  let* r := call (Read fd 16) in
  match r with
  | Some de =>
      if negb (length de =? 16)%nat then Ret (inr tt)
      else if (nth 0 de 0 =? 0) && (nth 1 de 0 =? 0) then Ret (inl tt)
      else
        let buf := path ++ 47 :: cut_nul (take DIRSIZ (drop 2 de)) in
        let* st := stat buf in
        match st with
        | None => let* _ := printf 1 (line "ls: cannot stat %s") [FStr buf] in Ret (inl tt)
        | Some st => let* _ := ls_line buf st in Ret (inl tt)
        end
  | None => Ret (inr tt)
  end.

Definition ls_entries (fd : Z) (path : list Z) : itree sysE unit := ITree.iter (fun _ => ls_turn fd path) tt.

Definition ls (path : list Z) : itree sysE unit :=
  let* fd := call (Open path 0) in
  if fd <? 0 then printf 2 (line "ls: cannot open %s") [FStr path]
  else
    let* st := call (Fstat fd) in
    match st with
    | None =>
        let* _ := printf 2 (line "ls: cannot stat %s") [FStr path] in
        let* _ := call (Close fd) in Ret tt
    | Some st =>
        let* _ :=
          (if us_type st =? T_FILE then ls_line path st
           else if us_type st =? T_DIR then
             if (512 <? length path + 1 + DIRSIZ + 1)%nat then printf 1 (line "ls: path too long") []
             else ls_entries fd path
           else Ret tt) in
        let* _ := call (Close fd) in Ret tt
    end.

Fixpoint ls_args (args : list (list Z)) : itree sysE Empty_set :=
  match args with
  | [] => exit
  | a :: args => let* _ := ls a in ls_args args
  end.

Definition ls_main (argv : list (list Z)) : itree sysE Empty_set :=
  if (length argv <? 2)%nat then let* _ := ls (chars ".") in exit
  else ls_args (drop 1 argv).

(** ** kill.c, ln.c, mkdir.c, rm.c *)

(** atoi() of ulib.c on the characters of an argument. *)
Fixpoint atoi_text (s : list Z) (n : Z) : Z :=
  match s with
  | [] => n
  | c :: s => if (48 <=? c) && (c <=? 57) then atoi_text s (s32 (n * 10 + c - 48)) else n
  end.

Fixpoint kill_args (args : list (list Z)) : itree sysE Empty_set :=
  match args with
  | [] => exit
  | a :: args => let* _ := call (Kill (atoi_text a 0)) in kill_args args
  end.

Definition kill_main (argv : list (list Z)) : itree sysE Empty_set :=
  if (length argv <? 1)%nat then let* _ := printf 2 (line "usage: kill pid...") [] in exit
  else kill_args (drop 1 argv).

Definition ln_main (argv : list (list Z)) : itree sysE Empty_set :=
  match argv with
  | [_; old; new] =>
      let* r := call (Link old new) in
      if r <? 0 then let* _ := printf 2 (line "link %s %s: failed") [FStr old; FStr new] in exit
      else exit
  | _ => let* _ := printf 2 (line "Usage: ln old new") [] in exit
  end.

Fixpoint mkdir_args (args : list (list Z)) : itree sysE Empty_set :=
  match args with
  | [] => exit
  | a :: args =>
      let* r := call (Mkdir a) in
      if r <? 0 then let* _ := printf 2 (line "mkdir: %s failed to create") [FStr a] in exit
      else mkdir_args args
  end.

Definition mkdir_main (argv : list (list Z)) : itree sysE Empty_set :=
  if (length argv <? 2)%nat then let* _ := printf 2 (line "Usage: mkdir files...") [] in exit
  else mkdir_args (drop 1 argv).

Fixpoint rm_args (args : list (list Z)) : itree sysE Empty_set :=
  match args with
  | [] => exit
  | a :: args =>
      let* r := call (Unlink a) in
      if r <? 0 then let* _ := printf 2 (line "rm: %s failed to delete") [FStr a] in exit
      else rm_args args
  end.

Definition rm_main (argv : list (list Z)) : itree sysE Empty_set :=
  if (length argv <? 2)%nat then let* _ := printf 2 (line "Usage: rm files...") [] in exit
  else rm_args (drop 1 argv).

(** ** init.c *)

(** The inner loop: wait until the shell is reaped or there is no child. *)
Definition wait_turn (pid : Z) : itree sysE (unit + unit) :=
  let* wpid := call Wait in
  if (0 <=? wpid) && negb (wpid =? pid) then let* _ := printf 1 (line "zombie!") [] in Ret (inl tt)
  else Ret (inr tt).

Definition init_wait (pid : Z) : itree sysE unit := ITree.iter (fun _ => wait_turn pid) tt.

(** One round of the loop that starts a shell. *)
Definition init_round : itree sysE (unit + Empty_set) :=
  let* _ := printf 1 (line "init: starting sh") [] in
  let* pid := call Fork in
  if pid <? 0 then let* _ := printf 1 (line "init: fork failed") [] in exit
  else if pid =? 0 then
    let* _ := call (Exec (chars "sh") [chars "sh"]) in
    let* _ := printf 1 (line "init: exec sh failed") [] in exit
  else let* _ := init_wait pid in Ret (inl tt).

(** O_RDWR is 2. *)
Definition init_main : itree sysE Empty_set :=
  let* fd := call (Open (chars "console") 2) in
  let* _ :=
    (if fd <? 0 then
       let* _ := call (Mknod (chars "console") 1 1) in
       let* _ := call (Open (chars "console") 2) in Ret tt
     else Ret tt) in
  let* _ := call (Dup 0) in
  let* _ := call (Dup 0) in
  ITree.iter (fun _ : unit => init_round) tt.

(** ** zombie.c, stressfs.c and forktest.c *)

Definition zombie_main : itree sysE Empty_set :=
  let* pid := call Fork in
  if 0 <? pid then let* _ := call (Sleep 5) in exit else exit.

(** [fork() > 0] breaks the loop; the value is the counter. *)
Fixpoint stressfs_fork (i n : nat) : itree sysE nat :=
  match n with
  | O => Ret i
  | S n =>
      let* pid := call Fork in
      if 0 <? pid then Ret i else stressfs_fork (S i) n
  end.

Fixpoint times (n : nat) (t : itree sysE unit) : itree sysE unit :=
  match n with
  | O => Ret tt
  | S n => let* _ := t in times n t
  end.

(** O_CREATE | O_RDWR is 514, O_RDONLY is 0. *)
Definition stressfs_main : itree sysE Empty_set :=
  let* _ := printf 1 (line "stressfs starting") [] in
  let data := repeat 97 512 in
  let* i := stressfs_fork 0 4 in
  let* _ := printf 1 (line "write %d") [FInt (Z.of_nat i)] in
  let path := chars "stressfs" ++ [48 + Z.of_nat i] in
  let* fd := call (Open path 514) in
  let* _ := times 20 (let* _ := call (Write fd data) in Ret tt) in
  let* _ := call (Close fd) in
  let* _ := printf 1 (line "read") [] in
  let* fd := call (Open path 0) in
  let* _ := times 20 (let* _ := call (Read fd 512) in Ret tt) in
  let* _ := call (Close fd) in
  let* _ := call Wait in
  exit.

(** forktest has a printf of its own, which makes one write(). *)
Definition ft_printf (s : list Z) : itree sysE unit := let* _ := call (Write 1 s) in Ret tt.

(** The first loop: the number of children, or the exit of a child. *)
Fixpoint ft_fork (n k : nat) : itree sysE nat :=
  match k with
  | O => Ret n
  | S k =>
      let* pid := call Fork in
      if pid <? 0 then Ret n
      else if pid =? 0 then exit
      else ft_fork (S n) k
  end.

Fixpoint ft_wait (n : nat) : itree sysE unit :=
  match n with
  | O => Ret tt
  | S n =>
      let* r := call Wait in
      if r <? 0 then let* _ := ft_printf (line "wait stopped early") in exit else ft_wait n
  end.

Definition FT_N : nat := 1000.

Definition forktest : itree sysE unit :=
  let* _ := ft_printf (line "fork test") in
  let* n := ft_fork 0 FT_N in
  if (n =? FT_N)%nat then let* _ := ft_printf (line "fork claimed to work N times!") in exit
  else
    let* _ := ft_wait n in
    let* r := call Wait in
    if negb (r =? -1) then let* _ := ft_printf (line "wait got too many") in exit
    else ft_printf (line "fork test OK").

Definition forktest_main : itree sysE Empty_set := let* _ := forktest in exit.

(** ** cat writes what it reads *)

Lemma cat_turn_trace fd l o :
  trace (cat_turn fd) l o -> o <> Running ->
  (o = Returned (inl tt) /\ out 1 l = inp l) \/
  (o = Returned (inr tt) /\ out 1 l = inp l) \/
  (o = Exited /\ out 1 l = inp l ++ line "cat: read error").
Proof.
  intros H Ho. apply fin_call in H as (r & l1 & -> & _ & H); [|done..]. destruct r as [[|b bs]|].
  - apply fin_ret in H as [-> ->]; [|done]. by right; left.
  - apply fin_call in H as (n & l2 & -> & _ & H); [|done..]. apply fin_ret in H as [-> ->]; [|done]. by left.
  - apply fin_print in H as (l2 & l3 & -> & H2 & H); [|done]. apply fin_exit in H as [-> ->]; [|done].
    apply print_out in H2 as [Hw Hi]. right; right. split; [done|]. obs. by rewrite Hw, Hi.
Qed.

Definition copied (l : list event) (o : outcome unit) : Prop :=
  (o = Returned tt /\ out 1 l = inp l) \/ (o = Exited /\ out 1 l = inp l ++ line "cat: read error").

Lemma cat_fd_copies fd l o : trace (cat fd) l o -> o <> Running -> copied l o.
Proof.
  revert l o. unfold cat. apply (iter_trace (fun _ => cat_turn fd) (fun _ l o => o <> Running -> copied l o)) with (i := tt).
  - intros _ [] l l' o H IH Ho. apply cat_turn_trace in H as [[_ Hl]|[[? _]|[? _]]]; [|done..].
    destruct (IH Ho) as [[-> Hl']|[-> Hl']]; [left|right]; (split; [done|]); rewrite out_app, inp_app, Hl, Hl'; [done|].
    by rewrite app_assoc.
  - intros _ [] l H _. left. by apply cat_turn_trace in H as [[? _]|[[_ Hl]|[? _]]].
  - intros _ l H _. right. by apply cat_turn_trace in H as [[? _]|[[? _]|[_ Hl]]].
  - done.
Qed.

(** What cat adds to the files on its output. *)
Inductive complaint (files : list (list Z)) : list Z -> Prop :=
| NoComplaint : complaint files []
| ReadError : complaint files (line "cat: read error")
| CannotOpen f : f ∈ files -> complaint files (chars "cat: cannot open " ++ f ++ [10]).

Lemma complaint_cons f files msg : complaint files msg -> complaint (f :: files) msg.
Proof. intros [| |g Hg]; constructor. by right. Qed.

Lemma cannot_open_text f : format (line "cat: cannot open %s") [FStr f] = chars "cat: cannot open " ++ f ++ [10].
Proof. reflexivity. Qed.

Lemma cat_files_copies files : forall l o,
  trace (cat_files files) l o -> o <> Running ->
  o = Exited /\ exists msg, out 1 l = inp l ++ msg /\ complaint files msg.
Proof.
  induction files as [|f files IH]; intros l o H Ho; cbn [cat_files] in H.
  - apply fin_exit in H as [-> ->]; [|done]. split; [done|]. exists []. split; [done|constructor].
  - apply fin_call in H as (fd & l1 & -> & _ & H); [|done..]. destruct (fd <? 0).
    + apply fin_print in H as (l2 & l3 & -> & H2 & H); [|done]. apply fin_exit in H as [-> ->]; [|done].
      apply print_out in H2 as [Hw Hi]. split; [done|]. exists (chars "cat: cannot open " ++ f ++ [10]).
      obs. rewrite Hw, Hi.
      split; [apply cannot_open_text|]. constructor. by left.
    + apply fin_bind in H as [([] & l2 & l3 & -> & H2 & H)|[H ->]]; [| |done].
      * apply cat_fd_copies in H2 as [[_ Hl]|[? _]]; [|done..].
        apply fin_call in H as (x & l4 & -> & _ & H); [|done..].
        apply IH in H as [-> (msg & Hm & Hc)]; [|done]. split; [done|]. exists msg. split; [|by apply complaint_cons].
        obs. by rewrite Hl, Hm, app_assoc.
      * apply cat_fd_copies in H as [[? _]|[_ Hl]]; [done| |done]. split; [done|].
        exists (line "cat: read error"). split; [exact Hl|constructor].
Qed.

(** A file delivered in pieces, and the calls of cat on it. *)
Definition pieces (chunks : list (list Z)) : Prop := Forall (fun c => c <> [] /\ (length c <= 512)%nat) chunks.

Definition cat_calls (fd : Z) (chunks : list (list Z)) : list event :=
  flat_map (fun c => [Ev (Read fd 512) (Some c); Ev (Write 1 c) (Z.of_nat (length c))]) chunks
  ++ [Ev (Read fd 512) (Some [])].

Lemma cat_ends fd chunks : pieces chunks -> trace (cat fd) (cat_calls fd chunks) (Returned tt).
Proof.
  unfold cat, cat_calls. induction 1 as [|c chunks [Hc Hl] _ IH]; cbn [flat_map app].
  - apply loop_done. eapply (trace_call_intro (Read fd 512) _ (Some [])); [done|]. by apply TrRet.
  - apply (loop_again _ tt tt [Ev (Read fd 512) (Some c); Ev (Write 1 c) (Z.of_nat (length c))]); [|exact IH].
    eapply (trace_call_intro (Read fd 512) _ (Some c)); [cbn; lia|]. destruct c as [|b c]; [done|].
    eapply (trace_call_intro (Write 1 (b :: c))); [done|]. by apply TrRet.
Qed.

(** The calls of cat on files that open as descriptor 3. *)
Fixpoint cat_files_calls (files : list (list Z)) (streams : list (list (list Z))) : list event :=
  match files, streams with
  | f :: files, s :: streams =>
      Ev (Open f 0) 3 :: cat_calls 3 s ++ Ev (Close 3) 0 :: cat_files_calls files streams
  | _, _ => []
  end.

Lemma cat_files_end files : forall streams,
  length streams = length files -> Forall pieces streams ->
  trace (cat_files files) (cat_files_calls files streams) Exited.
Proof.
  induction files as [|f files IH]; intros [|s streams] Hl Hs; try done; cbn [cat_files cat_files_calls].
  - apply trace_exit_intro.
  - apply Forall_cons in Hs as [Hp Hs]. eapply (trace_call_intro (Open f 0)); [done|]. cbn [Z.ltb Z.compare].
    eapply trace_bind_intro; [by apply cat_ends|]. eapply (trace_call_intro (Close 3)); [done|]. apply IH; [|done].
    by injection Hl.
Qed.

Lemma cat_calls_inp fd chunks : inp (cat_calls fd chunks) = concat chunks.
Proof.
  unfold cat_calls. obs. induction chunks as [|c chunks IH]; [done|]. cbn [flat_map concat]. obs. by rewrite IH.
Qed.

Lemma cat_files_inp files : forall streams, length streams = length files ->
  inp (cat_files_calls files streams) = concat (map (@concat Z) streams).
Proof.
  induction files as [|f files IH]; intros [|s streams] Hl; try done. cbn [cat_files_calls map concat]. obs.
  rewrite cat_calls_inp, IH; [done|]. by injection Hl.
Qed.

Lemma cat_main_copies argv l o :
  trace (cat_main argv) l o -> o <> Running ->
  o = Exited /\ exists msg, out 1 l = inp l ++ msg /\ complaint (drop 1 argv) msg.
Proof.
  intros H Ho. unfold cat_main in H. destruct (length argv <=? 1)%nat; [|by apply cat_files_copies].
  apply fin_bind in H as [([] & l1 & l2 & -> & H1 & H)|[H ->]]; [| |done].
  - apply fin_exit in H as [-> ->]; [|done]. apply cat_fd_copies in H1 as [[_ Hl]|[? _]]; [|done..].
    split; [done|]. exists []. rewrite !app_nil_r. split; [done|constructor].
  - apply cat_fd_copies in H as [[? _]|[_ Hl]]; [done| |done]. split; [done|].
    exists (line "cat: read error"). split; [done|constructor].
Qed.


(** cat ends only through exit(), and what it has then written to its
    output is the bytes it has read, in order, followed by at most one
    message: a read error or a file of its arguments it cannot open.  This
    holds of every trace, however read() cuts a file into pieces; and on files
    that open and are delivered in any pieces there is a run that ends after
    reading them all. *)
Theorem cat_copies argv :
  (forall l o, trace (cat_main argv) l o -> o <> Running ->
     o = Exited /\ exists msg, out 1 l = inp l ++ msg /\ complaint (drop 1 argv) msg) /\
  (forall streams, (1 < length argv)%nat -> length streams = length (drop 1 argv) -> Forall pieces streams ->
     exists l, trace (cat_main argv) l Exited /\ inp l = concat (map (@concat Z) streams)).
Proof.
  split; [by apply cat_main_copies|]. intros streams Ha Hl Hs. exists (cat_files_calls (drop 1 argv) streams).
  split; [|by apply cat_files_inp]. unfold cat_main. rewrite (proj2 (Nat.leb_gt _ _)) by done. by apply cat_files_end.
Qed.

(** ** wc counts lines, words and bytes *)

Definition lines (data : list Z) : nat := length (filter (fun b => b = 10) data).

(** A word starts at a byte that is no separator, behind a separator or at
    the beginning. *)
Definition word_start (data : list Z) (i : nat) : bool :=
  negb (wc_space (nth i data 32)) && match i with O => true | S j => wc_space (nth j data 32) end.
Definition words (data : list Z) : nat := length (List.filter (word_start data) (seq 0 (length data))).

Definition in_word (data : list Z) : bool := match last data with Some b => negb (wc_space b) | None => false end.

Lemma s32_turns a : exists k, s32 a = a + k * 4294967296.
Proof.
  unfold s32, u32. cbv zeta. pose proof (Z.div_mod a 4294967296). zif.
  - exists (- (a / 4294967296)). lia.
  - exists (- (a / 4294967296) - 1). lia.
Qed.

Lemma s32_step n : s32 (s32 (Z.of_nat n) + 1) = s32 (Z.of_nat (S n)).
Proof.
  destruct (s32_turns (Z.of_nat n)) as [k ->]. unfold s32 at 1, u32.
  replace (Z.of_nat n + k * 4294967296 + 1) with (Z.of_nat (S n) + k * 4294967296) by lia. by rewrite Z_mod_plus_full.
Qed.

Lemma word_start_app data b i : (i < length data)%nat -> word_start (data ++ [b]) i = word_start data i.
Proof. intros Hi. unfold word_start. rewrite app_nth1 by lia. destruct i; [done|]. by rewrite app_nth1 by lia. Qed.

Lemma words_snoc data b :
  words (data ++ [b]) = (words data + if negb (wc_space b) && negb (in_word data) then 1 else 0)%nat.
Proof.
  unfold words. rewrite length_app, Nat.add_comm. cbn [length Nat.add]. rewrite seq_S, List.filter_app, length_app.
  f_equal.
  - f_equal. apply List.filter_ext_in. intros i Hi. apply in_seq in Hi. apply word_start_app. lia.
  - cbn [List.filter Nat.add].
    assert (Hw : word_start (data ++ [b]) (length data) = negb (wc_space b) && negb (in_word data)).
    { unfold word_start, in_word. rewrite app_nth2, Nat.sub_diag by lia. cbn [nth]. f_equal.
      destruct data as [|x data' _] using rev_ind; [done|]. rewrite last_snoc, length_app, Nat.add_comm. cbn [length Nat.add].
      rewrite <- app_assoc, app_nth2, Nat.sub_diag by lia. cbn. by rewrite negb_involutive. }
    rewrite Hw. by destruct (_ && _).
Qed.

Definition counted (data : list Z) : wcst :=
  mkWc (s32 (Z.of_nat (lines data))) (s32 (Z.of_nat (words data))) (s32 (Z.of_nat (length data))) (in_word data).

Lemma wc_byte_counts data b : wc_byte (counted data) b = counted (data ++ [b]).
Proof.
  assert (Hl : lines (data ++ [b]) = (lines data + if (b =? 10)%Z then 1 else 0)%nat).
  { unfold lines. rewrite filter_app, length_app. f_equal. rewrite filter_cons, filter_nil. destruct (decide (b = 10)) as [->|Hb]; [done|]. by rewrite (proj2 (Z.eqb_neq _ _)). }
  assert (Hi : in_word (data ++ [b]) = negb (wc_space b)) by (unfold in_word; by rewrite last_snoc).
  unfold wc_byte, counted. cbn [wc_l wc_w wc_c inword]. rewrite Hl, words_snoc, Hi, length_app, Nat.add_1_r, s32_step.
  destruct (b =? 10), (wc_space b), (in_word data); cbn [negb andb];
    rewrite ?Nat.add_0_r, ?Nat.add_1_r, ?s32_step; reflexivity.
Qed.

Lemma wc_bytes_count bs : forall data, fold_left wc_byte bs (counted data) = counted (data ++ bs).
Proof.
  induction bs as [|b bs IH]; intros data; cbn [fold_left]; [by rewrite app_nil_r|].
  by rewrite wc_byte_counts, IH, <- app_assoc.
Qed.

Lemma wc_turn_trace fd s l o :
  trace (wc_turn fd s) l o -> o <> Running ->
  (exists bs, bs <> [] /\ inp l = bs /\ out 1 l = [] /\ o = Returned (inl (fold_left wc_byte bs s))) \/
  (inp l = [] /\ out 1 l = [] /\ o = Returned (inr s)) \/
  (inp l = [] /\ out 1 l = line "wc: read error" /\ o = Exited).
Proof.
  intros H Ho. apply fin_call in H as (r & l1 & -> & _ & H); [|done..]. destruct r as [[|b bs]|].
  - apply fin_ret in H as [-> ->]; [|done]. by right; left.
  - apply fin_ret in H as [-> ->]; [|done]. left. exists (b :: bs). by obs.
  - apply fin_print in H as (l2 & l3 & -> & H2 & H); [|done]. apply fin_exit in H as [-> ->]; [|done].
    apply print_out in H2 as [Hw Hi]. right; right. obs. by rewrite Hw, Hi.
Qed.

Lemma wc_loop_counts fd data l o :
  trace (ITree.iter (wc_turn fd) (counted data)) l o -> o <> Running ->
  (o = Returned (counted (data ++ inp l)) /\ out 1 l = []) \/ (o = Exited /\ out 1 l = line "wc: read error").
Proof.
  intros H. remember (counted data) as s eqn:Hs. revert s l o H data Hs.
  apply (iter_trace (wc_turn fd) (fun s l o => forall data, s = counted data -> o <> Running ->
    (o = Returned (counted (data ++ inp l)) /\ out 1 l = []) \/ (o = Exited /\ out 1 l = line "wc: read error"))).
  - intros s s' l l' o H IH data -> Ho.
    apply wc_turn_trace in H as [(bs & _ & Hi & Hw & [= ->])|[(_ & _ & ?)|(_ & _ & ?)]]; [|done..].
    destruct (IH (data ++ bs) (wc_bytes_count bs data) Ho) as [[-> Hl]|[-> Hl]]; [left|right]; obs; rewrite Hw, Hl;
      [|done]. by rewrite Hi, <- app_assoc.
  - intros s s' l H data -> _.
    apply wc_turn_trace in H as [(bs & _ & _ & _ & ?)|[(Hi & Hw & [= ->])|(_ & _ & ?)]]; [done| |done..].
    left. by rewrite Hi, app_nil_r.
  - intros s l H data -> _.
    apply wc_turn_trace in H as [(bs & _ & _ & _ & ?)|[(_ & _ & ?)|(_ & Hw & _)]]; [done..| |done]. by right.
  - done.
Qed.

(** What wc prints of a file. *)
Definition report (data name : list Z) : list Z :=
  format (line "%d %d %d %s")
    [FInt (s32 (Z.of_nat (lines data))); FInt (s32 (Z.of_nat (words data))); FInt (s32 (Z.of_nat (length data))); FStr name].

Lemma counted_nil : mkWc 0 0 0 false = counted [].
Proof. reflexivity. Qed.

Definition wc_calls (fd : Z) (chunks : list (list Z)) : list event :=
  map (fun c => Ev (Read fd 512) (Some c)) chunks ++ [Ev (Read fd 512) (Some [])].

Lemma wc_ends fd chunks : forall data, pieces chunks ->
  trace (ITree.iter (wc_turn fd) (counted data)) (wc_calls fd chunks) (Returned (counted (data ++ concat chunks))).
Proof.
  induction chunks as [|c chunks IH]; intros data H; unfold wc_calls; cbn [map app concat].
  - apply loop_done. rewrite app_nil_r. eapply (trace_call_intro (Read fd 512) _ (Some [])); [done|]. by apply TrRet.
  - apply Forall_cons in H as [[Hc Hl] H].
    apply (loop_again _ (counted data) (counted (data ++ c)) [Ev (Read fd 512) (Some c)]).
    + eapply (trace_call_intro (Read fd 512) _ (Some c)); [cbn; lia|]. destruct c as [|b c]; [done|].
      apply TrRet. cbn [observe _observe]. by rewrite wc_bytes_count.
    + rewrite (app_assoc data). by apply IH.
Qed.

(** C36: wc prints the number of lines, of words and of bytes of what it has
    read, as 32-bit integers, and the counts do not depend on the pieces in
    which read() delivers the file: a word that is cut counts once.  Every
    finished run of wc() returns after that report or exits after the message
    of a read error, and on every file there is such a run. *)
Theorem wc_counts fd name :
  (forall l o, trace (wc fd name) l o -> o <> Running ->
     (o = Returned tt /\ out 1 l = report (inp l) name) \/ (o = Exited /\ out 1 l = line "wc: read error")) /\
  (forall chunks, pieces chunks ->
     exists l, trace (wc fd name) l (Returned tt) /\ inp l = concat chunks /\ out 1 l = report (concat chunks) name).
Proof.
  split.
  - intros l o H Ho. unfold wc in H. rewrite counted_nil in H.
    apply fin_bind in H as [(s & l1 & l2 & -> & H1 & H)|[H ->]]; [| |done].
    + apply wc_loop_counts in H1 as [[[= ->] Hw]|[? _]]; [|done..].
      apply trace_puts in H as (-> & Hw2 & _ & Hi); [|done]. left. split; [done|]. obs. by rewrite Hw, Hw2, Hi, app_nil_r.
    + apply wc_loop_counts in H as [[? _]|[_ Hw]]; [done| |done]. by right.
  - intros chunks Hc. pose proof (wc_ends fd chunks [] Hc) as H. cbn [app] in H.
    pose proof (puts_trace 1 (report (concat chunks) name)) as H2.
    eexists. split; [unfold wc; rewrite counted_nil; eapply trace_bind_intro; [exact H|exact H2]|].
    apply trace_puts in H2 as (_ & Hw2 & _ & Hi2); [|done].
    assert (Hi : inp (wc_calls fd chunks) = concat chunks).
    { unfold wc_calls. obs. clear. induction chunks as [|c chunks IH]; [done|]. cbn [map concat]. obs. by rewrite IH. }
    obs. rewrite Hi2, Hw2, Hi, app_nil_r. split; [done|].
    apply wc_loop_counts in H as [[_ ->]|[? _]]; done.
Qed.

(** ** echo, kill, rm and mkdir *)

(** The arguments with blanks between them and a newline behind. *)
Fixpoint echo_text (args : list (list Z)) : list Z :=
  match args with
  | [] => []
  | [a] => a ++ [10]
  | a :: args => a ++ 32 :: echo_text args
  end.

Lemma two_strings a b : format (chars "%s%s") [FStr a; FStr b] = a ++ b.
Proof. change (a ++ (b ++ []) = a ++ b). by rewrite app_nil_r. Qed.

Lemma echo_prints args : forall l o,
  trace (echo_args args) l o -> o <> Running -> o = Exited /\ out 1 l = echo_text args.
Proof.
  induction args as [|a args IH]; intros l o H Ho; cbn [echo_args] in H.
  - by apply fin_exit in H as [-> ->].
  - apply fin_print in H as (l1 & l2 & -> & H1 & H); [|done]. apply IH in H as [-> Hw]; [|done].
    apply print_out in H1 as [Hw1 _]. split; [done|]. obs. rewrite Hw1, Hw, two_strings.
    destruct args; [apply app_nil_r|]. by rewrite <- app_assoc.
Qed.

(** atoi() on a string in memory is [atoi_text] on its characters. *)
Lemma atoi_text_atoi m s l n fuel :
  cstr m s l -> Forall (fun c => 0 <= c < 256) l -> (length l < fuel)%nat -> atoi_loop m s n fuel = Some (atoi_text l n).
Proof.
  revert s l n. induction fuel as [|fuel IH]; intros s l n Hm Hl Hf; [lia|]. cbn [atoi_loop]. destruct l as [|c l].
  - apply cstr_nil in Hm. by rewrite Hm.
  - apply cstr_cons in Hm as (Hc & _ & Hm). apply Forall_cons in Hl as [Hb Hl]. rewrite Hc. cbn [atoi_text]. cbn in Hf.
    assert (Hs : (48 <=? schar c) && (schar c <=? 57) = (48 <=? c) && (c <=? 57)).
    { unfold schar. destruct (Z.ltb_spec c 128); [done|].
      rewrite (proj2 (Z.leb_gt 48 _)), (proj2 (Z.leb_gt c 57)) by lia. by rewrite andb_false_r. }
    rewrite Hs. destruct ((48 <=? c) && (c <=? 57)) eqn:Hd; [|done].
    replace (schar c) with c by (unfold schar; destruct (Z.ltb_spec c 128); [done|zbool; lia]). apply IH; [done..|lia].
Qed.

(** The calls of unlink() in a trace, with their answers. *)
Definition ev_unlink (ev : event) : list (list Z * Z) :=
  match ev with
  | Ev e x => match e in sysE X return X -> list (list Z * Z) with Unlink p => fun r => [(p, r)] | _ => fun _ => [] end x
  end.
Definition unlinked (l : list event) : list (list Z * Z) := flat_map ev_unlink l.

Lemma puts_unlinked fd text l o : trace (puts fd text) l o -> unlinked l = [].
Proof.
  revert l. induction text as [|c text IH]; intros l H; cbn [puts] in H.
  - by apply trace_ret in H as [-> _].
  - apply trace_call in H as [[-> _]|(x & l' & -> & _ & H)]; [done| |done]. exact (IH l' H).
Qed.

(** Arguments taken in order up to the first failure. *)
Inductive up_to_failure : list (list Z) -> list (list Z * Z) -> list Z -> Prop :=
| AllDone : up_to_failure [] [] []
| OneFails a args r : r < 0 -> up_to_failure (a :: args) [(a, r)] (chars "rm: " ++ a ++ chars " failed to delete" ++ [10])
| OneDone a args r rest msg :
    0 <= r -> up_to_failure args rest msg -> up_to_failure (a :: args) ((a, r) :: rest) msg.

Lemma rm_stops args : forall l o,
  trace (rm_args args) l o -> o <> Running -> o = Exited /\ up_to_failure args (unlinked l) (out 2 l).
Proof.
  induction args as [|a args IH]; intros l o H Ho; cbn [rm_args] in H.
  - apply fin_exit in H as [-> ->]; [|done]. split; [done|constructor].
  - apply fin_call in H as (r & l1 & -> & _ & H); [|done..]. destruct (r <? 0) eqn:Hr; zbool.
    + apply fin_print in H as (l2 & l3 & -> & H2 & H); [|done]. apply fin_exit in H as [-> ->]; [|done].
      split; [done|]. rewrite app_nil_r. pose proof H2 as Hp. apply print_out in Hp as [Hw _]. apply puts_unlinked in H2.
      change (up_to_failure (a :: args) ((a, r) :: unlinked l2) (out 2 l2)). rewrite H2, Hw. by constructor.
    + apply IH in H as [-> H]; [|done]. split; [done|]. by constructor.
Qed.

(** ** ls *)

Lemma back_to_slash_stop l k : 47 ∉ l -> back_to_slash (l ++ 47 :: k) = l.
Proof.
  induction l as [|c l IH]; intros H; [done|]. cbn. apply not_elem_of_cons in H as [Hc H].
  rewrite (proj2 (Z.eqb_neq _ _)) by done. by rewrite IH.
Qed.

(** The name fmtname() gives to a path is its last element, with blanks up to
    DIRSIZ characters. *)
Lemma fmtname_last dir name :
  47 ∉ name -> fmtname (dir ++ 47 :: name) = name ++ repeat 32 (DIRSIZ - length name).
Proof.
  intros H. unfold fmtname. rewrite rev_app_distr. cbn [rev]. rewrite <- app_assoc. cbn [app].
  rewrite back_to_slash_stop by (by rewrite list_elem_of_In, <- in_rev, <- list_elem_of_In).
  rewrite rev_involutive. destruct (Nat.leb_spec DIRSIZ (length name)); [|done].
  by rewrite (proj2 (Nat.sub_0_le _ _)), app_nil_r.
Qed.

(** ** init runs one shell at a time *)

(** A check of the calls of init: [cur] is the shell that runs.  It fails when
    a shell is forked while another runs, and when wait() is called without
    one. *)
Definition init_check (cur : option Z) (ev : event) : option (option Z) :=
  match ev with
  | Ev e x =>
      match e in sysE X return X -> option (option Z) with
      | Fork => fun pid => match cur with None => Some (if 0 <? pid then Some pid else None) | Some _ => None end
      | Wait => fun wpid =>
          match cur with
          | Some p => Some (if (0 <=? wpid) && negb (wpid =? p) then Some p else None)
          | None => None
          end
      | _ => fun _ => Some cur
      end x
  end.

Fixpoint init_checks (cur : option Z) (l : list event) : option (option Z) :=
  match l with
  | [] => Some cur
  | ev :: l => match init_check cur ev with Some cur => init_checks cur l | None => None end
  end.

Lemma init_checks_app cur l k :
  init_checks cur (l ++ k) = match init_checks cur l with Some cur => init_checks cur k | None => None end.
Proof. revert cur. induction l as [|ev l IH]; intros cur; [done|]. cbn. destruct (init_check cur ev); [apply IH|done]. Qed.

Lemma puts_checks cur fd text l o : trace (puts fd text) l o -> init_checks cur l = Some cur.
Proof.
  revert l. induction text as [|c text IH]; intros l H; cbn [puts] in H.
  - by apply trace_ret in H as [-> _].
  - apply trace_call in H as [[-> _]|(x & l' & -> & _ & H)]; [done| |done]. exact (IH l' H).
Qed.

(** A message before the rest of the program, in any trace. *)
Lemma print_checks {R} fd fmt args (k : unit -> itree sysE R) cur l o :
  trace (ITree.bind (printf fd fmt args) k) l o ->
  (init_checks cur l = Some cur /\ o = Running) \/
  exists l1 l2, l = l1 ++ l2 /\ init_checks cur l1 = Some cur /\ trace (k tt) l2 o.
Proof.
  intros H. apply trace_bind in H as [([] & l1 & l2 & -> & H1 & H)|[[H ->]|[H ->]]].
  - right. exists l1, l2. split_and!; [done|by eapply puts_checks|done].
  - by apply trace_puts in H as [? _].
  - left. split; [by eapply puts_checks|done].
Qed.

Lemma wait_turn_checks pid l o :
  trace (wait_turn pid) l o ->
  match o with
  | Returned (inl _) => init_checks (Some pid) l = Some (Some pid)
  | Returned (inr _) => init_checks (Some pid) l = Some None
  | Running => is_Some (init_checks (Some pid) l)
  | Exited => False
  end.
Proof.
  intros H. apply trace_call in H as [[-> ->]|(wpid & l' & -> & _ & H)]; [done| |done]. cbn [init_checks init_check].
  destruct ((0 <=? wpid) && negb (wpid =? pid)).
  - apply (print_checks _ _ _ _ (Some pid)) in H as [[-> ->]|(l1 & l2 & -> & H1 & H)]; [done|].
    rewrite init_checks_app, H1. by apply trace_ret in H as [-> [->| ->]].
  - by apply trace_ret in H as [-> [->| ->]].
Qed.

Lemma init_wait_checks pid l o :
  trace (init_wait pid) l o ->
  match o with
  | Returned _ => init_checks (Some pid) l = Some None
  | Running => is_Some (init_checks (Some pid) l)
  | Exited => False
  end.
Proof.
  revert l o. unfold init_wait. apply (iter_trace (fun _ => wait_turn pid) (fun _ l o => match o with
    | Returned _ => init_checks (Some pid) l = Some None
    | Running => is_Some (init_checks (Some pid) l)
    | Exited => False end)) with (i := tt).
  - intros _ [] l l' o H IH. apply wait_turn_checks in H. by rewrite init_checks_app, H.
  - intros _ [] l H. by apply wait_turn_checks in H.
  - intros _ l H. by apply wait_turn_checks in H.
  - intros _ l H. by apply wait_turn_checks in H.
Qed.

Lemma init_round_checks l o :
  trace init_round l o ->
  match o with
  | Returned _ | Exited => init_checks None l = Some None
  | Running => is_Some (init_checks None l)
  end.
Proof.
  intros H. apply (print_checks _ _ _ _ None) in H as [[-> ->]|(l1 & l2 & -> & H1 & H)]; [done|].
  rewrite init_checks_app, H1. apply trace_call in H as [[-> ->]|(pid & l3 & -> & _ & H)]; [done| |done].
  cbn [init_checks init_check]. destruct (pid <? 0) eqn:Hn; zbool.
  - rewrite (proj2 (Z.ltb_ge 0 pid)) by lia.
    apply (print_checks _ _ _ _ None) in H as [[-> ->]|(l4 & l5 & -> & H4 & H)]; [done|].
    rewrite init_checks_app, H4. by apply trace_exit in H as [-> [->| ->]].
  - destruct (pid =? 0) eqn:Hz; zbool.
    + subst pid. apply trace_call in H as [[-> ->]|(x & l4 & -> & _ & H)]; [done| |done]. cbn.
      apply (print_checks _ _ _ _ None) in H as [[-> ->]|(l5 & l6 & -> & H5 & H)]; [done|].
      rewrite init_checks_app, H5. by apply trace_exit in H as [-> [->| ->]].
    + rewrite (proj2 (Z.ltb_lt 0 pid)) by lia.
      apply trace_bind in H as [([] & l4 & l5 & -> & H4 & H)|[[H ->]|[H ->]]]; [|by apply init_wait_checks in H..].
      apply init_wait_checks in H4. rewrite init_checks_app, H4. by apply trace_ret in H as [-> [->| ->]].
Qed.

Lemma init_loop_checks l o :
  trace (ITree.iter (fun _ : unit => init_round) tt) l o -> is_Some (init_checks None l).
Proof.
  revert l o. apply (iter_trace (fun _ : unit => init_round) (fun _ l o => is_Some (init_checks None l))) with (i := tt).
  - intros _ j l l' o H IH. apply init_round_checks in H. by rewrite init_checks_app, H.
  - intros _ [].
  - intros _ l H. apply init_round_checks in H. by rewrite H.
  - intros _ l H. by apply init_round_checks in H.
Qed.

(** Calls that the check passes over. *)
Lemma call_checks {X R} (e : sysE X) (k : X -> itree sysE R) l o :
  trace (ITree.bind (call e) k) l o -> not_exit e -> (forall x, init_check None (Ev e x) = Some None) ->
  l = [] \/ exists x l', trace (k x) l' o /\ init_checks None l = init_checks None l'.
Proof.
  intros H He Hn. apply trace_call in H as [[-> _]|(x & l' & -> & _ & H)]; [by left| |done].
  right. exists x, l'. split; [done|]. cbn [init_checks]. by rewrite Hn.
Qed.

Lemma init_console_checks (fd : Z) l o :
  trace (if fd <? 0 then
           let* _ := call (Mknod (chars "console") 1 1) in
           let* _ := call (Open (chars "console") 2) in Ret tt
         else Ret tt) l o -> init_checks None l = Some None /\ o <> Exited.
Proof.
  intros H. destruct (fd <? 0); [|by apply trace_ret in H as [-> [->| ->]]].
  apply trace_call in H as [[-> ->]|(x & l1 & -> & _ & H)]; [done| |done].
  apply trace_call in H as [[-> ->]|(y & l2 & -> & _ & H)]; [done| |done].
  by apply trace_ret in H as [-> [->| ->]].
Qed.

(** C37: init never runs two shells at once.  In every trace, of any length, a
    shell is forked only when the one before it has been reaped or wait() has
    reported that there is no child, and wait() is called only while a shell
    runs.  Other children that wait() reaps do not end the round.  init never
    returns. *)
Theorem init_one_shell l o :
  trace init_main l o -> is_Some (init_checks None l) /\ forall v, o <> Returned v.
Proof.
  intros H. split; [|by intros []].
  apply call_checks in H as [->|(fd & l1 & H & ->)]; [done| |done..].
  apply trace_bind in H as [(r & l2 & l3 & -> & H2 & H)|[[H _]|[H _]]]; [|by apply init_console_checks in H as [-> _]..].
  apply init_console_checks in H2 as [H2 _]. rewrite init_checks_app, H2.
  apply call_checks in H as [->|(x & l4 & H & ->)]; [done| |done..].
  apply call_checks in H as [->|(y & l5 & H & ->)]; [done| |done..]. by eapply init_loop_checks.
Qed.

(** ** forktest counts its children *)

Definition ev_fork (ev : event) : list Z :=
  match ev with
  | Ev e x => match e in sysE X return X -> list Z with Fork => fun r => [r] | _ => fun _ => [] end x
  end.
Definition ev_wait (ev : event) : list Z :=
  match ev with
  | Ev e x => match e in sysE X return X -> list Z with Wait => fun r => [r] | _ => fun _ => [] end x
  end.
Definition forks (l : list event) : list Z := flat_map ev_fork l.
Definition waits (l : list event) : list Z := flat_map ev_wait l.

Lemma ft_fork_counts k : forall n l m,
  trace (ft_fork n k) l (Returned m) ->
  waits l = [] /\ exists pids rest, forks l = pids ++ rest /\ m = (n + length pids)%nat /\ Forall (fun p => 0 < p) pids /\
    ((rest = [] /\ m = (n + k)%nat) \/ exists r, r < 0 /\ rest = [r] /\ (m < n + k)%nat).
Proof.
  induction k as [|k IH]; intros n l m H; cbn [ft_fork] in H.
  - apply fin_ret in H as [-> [= ->]]; [|done]. split; [done|]. exists [], []. split_and!; [done|cbn; lia|done|left; split; [done|lia]].
  - apply fin_call in H as (pid & l1 & -> & _ & H); [|done..]. destruct (pid <? 0) eqn:Hn; zbool.
    + apply fin_ret in H as [-> [= ->]]; [|done]. split; [done|]. exists [], [pid]. split_and!; [done|cbn; lia|done|].
      right. exists pid. split_and!; [done|done|lia].
    + destruct (pid =? 0) eqn:Hz; zbool; [by apply fin_exit in H as [_ ?]|].
      apply IH in H as (Hw & pids & rest & Hf & -> & Hp & Hr). split; [exact Hw|]. exists (pid :: pids), rest.
      split_and!; [by apply (f_equal (cons pid)) in Hf|cbn; lia|constructor; [lia|done]|].
      destruct Hr as [[-> Hk]|Hr]; [left; split; [done|lia]|right].
      destruct Hr as (r & Hr & -> & Hm). exists r. split_and!; [done|done|lia].
Qed.

Lemma ft_wait_counts n : forall l,
  trace (ft_wait n) l (Returned tt) -> forks l = [] /\ length (waits l) = n /\ Forall (fun p => 0 <= p) (waits l).
Proof.
  induction n as [|n IH]; intros l H; cbn [ft_wait] in H.
  - by apply fin_ret in H as [-> _].
  - apply fin_call in H as (r & l1 & -> & _ & H); [|done..]. destruct (r <? 0) eqn:Hr; zbool.
    + apply fin_bind in H as [([] & l2 & l3 & _ & _ & H)|[_ ?]]; [|done..]. by apply fin_exit in H as [_ ?].
    + apply IH in H as (Hf & Hl & Hw). split; [exact Hf|]. cbn. fold (waits l1). split; [by rewrite Hl|by constructor].
Qed.

Lemma ft_printf_quiet s l o : trace (ft_printf s) l o -> o <> Running -> o = Returned tt /\ forks l = [] /\ waits l = [].
Proof.
  intros H Ho. apply fin_call in H as (x & l1 & -> & _ & H); [|done..]. by apply fin_ret in H as [-> ->].
Qed.

Lemma forks_app l k : forks (l ++ k) = forks l ++ forks k.
Proof. apply flat_map_app. Qed.
Lemma waits_app l k : waits (l ++ k) = waits l ++ waits k.
Proof. apply flat_map_app. Qed.

(** forktest() returns only when fork() failed at last and every child it made
    before was reaped, and no other. *)
Lemma forktest_reaps l :
  trace forktest l (Returned tt) ->
  exists pids r ws, forks l = pids ++ [r] /\ r < 0 /\ (length pids < FT_N)%nat /\ Forall (fun p => 0 < p) pids /\
    waits l = ws ++ [-1] /\ length ws = length pids /\ Forall (fun p => 0 <= p) ws.
Proof.
  intros H. unfold forktest in H.
  apply fin_bind in H as [([] & l1 & l2 & -> & H1 & H)|[_ ?]]; [|done..]. apply ft_printf_quiet in H1 as (_ & Hf1 & Hw1); [|done].
  apply fin_bind in H as [(n & l3 & l4 & -> & H3 & H)|[_ ?]]; [|done..].
  apply ft_fork_counts in H3 as (Hw3 & pids & rest & Hf3 & Hn & Hp & Hr). cbn in Hn. subst n.
  destruct (length pids =? FT_N)%nat eqn:HN.
  { apply fin_bind in H as [([] & l5 & l6 & _ & _ & H)|[_ ?]]; [|done..]. by apply fin_exit in H as [_ ?]. }
  apply Nat.eqb_neq in HN. destruct Hr as [[_ ?]|(r & Hr & -> & Hm)]; [done|].
  apply fin_bind in H as [([] & l5 & l6 & -> & H5 & H)|[_ ?]]; [|done..]. apply ft_wait_counts in H5 as (Hf5 & Hl5 & Hw5).
  apply fin_call in H as (x & l7 & -> & _ & H); [|done..]. destruct (x =? -1) eqn:Hx; cbn [negb] in H.
  - zbool. subst x. apply ft_printf_quiet in H as (_ & Hf7 & Hw7); [|done]. exists pids, r, (waits l5).
    rewrite !forks_app, !waits_app, Hf1, Hf3, Hf5, Hw1, Hw3. cbn. fold (forks l7) (waits l7). rewrite Hf7, Hw7.
    rewrite app_nil_r. by split_and!.
  - apply fin_bind in H as [([] & l8 & l9 & _ & _ & H)|[_ ?]]; [|done..]. by apply fin_exit in H as [_ ?].
Qed.

Module UutilDemo.

Definition text (s : list Z) : list event := map (fun c => Ev (Write 1 [c]) 1) s.

(** The shell is process 3; process 7 is an orphan that ends first. *)
Definition round : list event :=
  text (line "init: starting sh") ++ Ev Fork 3 :: (Ev Wait 7 :: text (line "zombie!") ++ [Ev Wait 3]).
Definition init_run : list event := Ev (Open (chars "console") 2) 0 :: Ev (Dup 0) 1 :: Ev (Dup 0) 2 :: round ++ round.

Lemma round_trace : trace init_round round (Returned (inl tt)).
Proof.
  unfold init_round, round. eapply trace_bind_intro; [apply puts_trace|].
  eapply (trace_call_intro Fork); [done|]. cbn [Z.ltb Z.eqb Z.compare].
  rewrite <- (app_nil_r (Ev Wait 7 :: _)). apply trace_bind_intro with (a := tt); [|by apply TrRet].
  unfold init_wait. change (trace (ITree.iter (fun _ : unit => wait_turn 3) tt) ((Ev Wait 7 :: text (line "zombie!")) ++ [Ev Wait 3]) (Returned tt)).
  eapply (loop_again _ tt tt).
  - eapply (trace_call_intro Wait); [done|].
    change (trace (let* _ := printf 1 (line "zombie!") [] in Ret (inl tt) : itree sysE (unit + unit)) (text (line "zombie!")) (Returned (inl tt))).
    rewrite <- (app_nil_r (text _)). eapply trace_bind_intro; [apply (puts_trace 1 (line "zombie!"))|by apply TrRet].
  - apply loop_done. eapply (trace_call_intro Wait); [done|]. by apply TrRet.
Qed.

Lemma init_one_shell_witness :
  init_checks None init_run = Some None /\ (is_Some (init_checks None init_run) /\ forall v : Empty_set, Running <> Returned v).
Proof.
  split; [reflexivity|]. apply (init_one_shell init_run Running). unfold init_run, init_main.
  eapply (trace_call_intro (Open (chars "console") 2) _ 0); [exact Logic.I|]. cbn [Z.ltb Z.compare].
  change (Ev (Dup 0) 1 :: ?l) with ([] ++ Ev (Dup 0) 1 :: l).
  eapply trace_bind_intro; [by apply TrRet|].
  eapply (trace_call_intro (Dup 0)); [exact Logic.I|]. eapply (trace_call_intro (Dup 0)); [exact Logic.I|].
  eapply (loop_again _ tt tt); [apply round_trace|].
  rewrite <- (app_nil_r round). eapply (loop_again _ tt tt); [apply round_trace|apply TrStop].
Defined.

End UutilDemo.
