(* ===== verification/Utests.v ===== *)
(** * usertests.c: the tests of the system calls

    Every test of usertests.c as an interaction tree over its system calls.
    fork() answers as the kernel likes, so a tree holds the code of the parent
    and of the children.  [buf] is the global buffer of 8192 bytes, handed from
    test to test; arrays that a test does not initialise are arguments. *)

From S2P Require Import Prelude CString Ulib Printf Sh FsLayout Uprog Uutil.
From ITree Require Import ITree.

Open Scope Z_scope.

(** ** The pieces of C *)

Notation "'go' t ; k" := (ITree.bind t (fun _ => k)) (at level 10, t at level 100, k at level 200).

(** A message and exit(). *)
Definition fail {R} (msg : list Z) (args : list farg) : itree sysE R := go printf 1 msg args; exit.

Notation "'stop' b 'saying' m ; k" := (if b then fail (line m) [] else k) (at level 10, b at level 9, m at level 9, k at level 200).

Definition say (m : string) : itree sysE unit := printf 1 (line m) [].

(** [for(i = first; i < first + n; i++)] with the variables the body changes. *)
Fixpoint for_loop {S} (i : Z) (n : nat) (body : Z -> S -> itree sysE S) (s : S) : itree sysE S :=
  match n with
  | O => Ret s
  | S n => let* s := body i s in for_loop (i + 1) n body s
  end.

(** The same with a body that can leave the loop ([inr]). *)
Fixpoint for_break {S R} (i : Z) (n : nat) (body : Z -> S -> itree sysE (S + R)) (s : S) : itree sysE (S + R) :=
  match n with
  | O => Ret (inl s)
  | S n =>
      let* r := body i s in
      match r with
      | inl s => for_break (i + 1) n body s
      | inr r => Ret (inr r)
      end
  end.

Definition forever {R} (t : itree sysE unit) : itree sysE R := ITree.iter (fun _ : unit => go t; Ret (inl tt)) tt.

(** What a read leaves in a buffer, the number of bytes it returns, and
    memset. *)
Definition stored (r : option (list Z)) (b : list Z) : list Z :=
  match r with Some bs => bs ++ drop (length bs) b | None => b end.
Definition count (r : option (list Z)) : Z := match r with Some bs => Z.of_nat (length bs) | None => -1 end.
Definition filled (v : Z) (n : nat) (b : list Z) : list Z := repeat v n ++ drop n b.

Definition BUF : Z := 8192.
Definition CREATE_RDWR : Z := 514.   (* O_CREATE|O_RDWR *)
Definition CREATE : Z := 512.        (* O_CREATE *)
Definition RDWR : Z := 2.            (* O_RDWR *)
Definition WRONLY : Z := 1.          (* O_WRONLY *)

(** A [char] as an [int]. *)
Definition schar (b : Z) : Z := if b <? 128 then b else b - 256.

(** ** Directories and transactions *)

Definition iputtest : itree sysE unit :=
  go say "iput test";
  let* r := call (Mkdir (chars "iputdir")) in
  stop (r <? 0) saying "mkdir failed";
  let* r := call (Chdir (chars "iputdir")) in
  stop (r <? 0) saying "chdir iputdir failed";
  let* r := call (Unlink (chars "../iputdir")) in
  stop (r <? 0) saying "unlink ../iputdir failed";
  let* r := call (Chdir (chars "/")) in
  stop (r <? 0) saying "chdir / failed";
  say "iput test ok".

Definition exitiputtest : itree sysE unit :=
  go say "exitiput test";
  let* pid := call Fork in
  stop (pid <? 0) saying "fork failed";
  if pid =? 0 then
    let* r := call (Mkdir (chars "iputdir")) in
    stop (r <? 0) saying "mkdir failed";
    let* r := call (Chdir (chars "iputdir")) in
    stop (r <? 0) saying "child chdir failed";
    let* r := call (Unlink (chars "../iputdir")) in
    stop (r <? 0) saying "unlink ../iputdir failed";
    exit
  else
    go call Wait;
    say "exitiput test ok".

Definition openiputtest : itree sysE unit :=
  go say "openiput test";
  let* r := call (Mkdir (chars "oidir")) in
  stop (r <? 0) saying "mkdir oidir failed";
  let* pid := call Fork in
  stop (pid <? 0) saying "fork failed";
  if pid =? 0 then
    let* fd := call (Open (chars "oidir") RDWR) in
    stop (0 <=? fd) saying "open directory for write succeeded";
    exit
  else
    go call (Sleep 1);
    let* r := call (Unlink (chars "oidir")) in
    stop (negb (r =? 0)) saying "unlink failed";
    go call Wait;
    say "openiput test ok".

Definition opentest : itree sysE unit :=
  go say "open test";
  let* fd := call (Open (chars "echo") 0) in
  stop (fd <? 0) saying "open echo failed!";
  go call (Close fd);
  let* fd := call (Open (chars "doesnotexist") 0) in
  stop (0 <=? fd) saying "open doesnotexist succeeded!";
  say "open test ok".

(** ** Files *)

Definition writetest (buf : list Z) : itree sysE (list Z) :=
  go say "small file test";
  let* fd := call (Open (chars "small") CREATE_RDWR) in
  stop (fd <? 0) saying "error: creat small failed!";
  go say "creat small succeeded; ok";
  go for_loop 0 100 (fun i _ =>
    let* r := call (Write fd (repeat 97 10)) in
    if negb (r =? 10) then fail (line "error: write aa %d new file failed") [FInt i] else
    let* r := call (Write fd (repeat 98 10)) in
    if negb (r =? 10) then fail (line "error: write bb %d new file failed") [FInt i] else
    Ret tt) tt;
  go say "writes ok";
  go call (Close fd);
  let* fd := call (Open (chars "small") 0) in
  stop (fd <? 0) saying "error: open small failed!";
  go say "open small succeeded ok";
  let* r := call (Read fd 2000) in
  stop (negb (count r =? 2000)) saying "read failed";
  go say "read succeeded ok";
  go call (Close fd);
  let* u := call (Unlink (chars "small")) in
  stop (u <? 0) saying "unlink small failed";
  go say "small file test ok";
  Ret (stored r buf).

(** The first word of the buffer. *)
Definition word0 (buf : list Z) : Z := s32 (le_val (take 4 buf)).
Definition set_word0 (v : Z) (buf : list Z) : list Z := le_bytes 4 v ++ drop 4 buf.

(** The second loop of writetest1, with the counter and the buffer. *)
Definition writetest1_turn (fd : Z) (st : Z * list Z) : itree sysE ((Z * list Z) + list Z) :=
  let '(n, buf) := st in
  let* r := call (Read fd 512) in
  let buf := stored r buf in
  if count r =? 0 then
    if n =? MAXFILE - 1 then fail (chars "read only %d blocks from big") [FInt n]
    else Ret (inr buf)
  else if negb (count r =? 512) then fail (line "read failed %d") [FInt (count r)]
  else if negb (word0 buf =? n) then fail (line "read content of block %d is %d") [FInt n; FInt (word0 buf)]
  else Ret (inl (s32 (n + 1), buf)).

Definition writetest1 (buf : list Z) : itree sysE (list Z) :=
  go say "big files test";
  let* fd := call (Open (chars "big") CREATE_RDWR) in
  stop (fd <? 0) saying "error: creat big failed!";
  let* buf := for_loop 0 (Z.to_nat MAXFILE) (fun i buf =>
    let buf := set_word0 i buf in
    let* r := call (Write fd (take 512 buf)) in
    stop (negb (r =? 512)) saying "error: write big file failed";
    Ret buf) buf in
  go call (Close fd);
  let* fd := call (Open (chars "big") 0) in
  stop (fd <? 0) saying "error: open big failed!";
  let* buf := ITree.iter (writetest1_turn fd) (0, buf) in
  go call (Close fd);
  let* u := call (Unlink (chars "big")) in
  stop (u <? 0) saying "unlink big failed";
  go say "big files ok";
  Ret buf.

Definition createtest : itree sysE unit :=
  go say "many creates, followed by unlink test";
  go for_loop 0 52 (fun i _ =>
    let* fd := call (Open [97; 48 + i] CREATE_RDWR) in
    go call (Close fd); Ret tt) tt;
  go for_loop 0 52 (fun i _ => go call (Unlink [97; 48 + i]); Ret tt) tt;
  say "many creates, followed by unlink; ok".

Definition dirtest : itree sysE unit :=
  go say "mkdir test";
  let* r := call (Mkdir (chars "dir0")) in
  stop (r <? 0) saying "mkdir failed";
  let* r := call (Chdir (chars "dir0")) in
  stop (r <? 0) saying "chdir dir0 failed";
  let* r := call (Chdir (chars "..")) in
  stop (r <? 0) saying "chdir .. failed";
  let* r := call (Unlink (chars "dir0")) in
  stop (r <? 0) saying "unlink dir0 failed";
  say "mkdir test ok".

Definition echoargv : list (list Z) := [chars "echo"; chars "ALL"; chars "TESTS"; chars "PASSED"].

Definition exectest : itree sysE unit :=
  go say "exec test";
  let* r := call (Exec (chars "echo") echoargv) in
  stop (r <? 0) saying "exec echo failed";
  Ret tt.

(** ** Processes and pipes *)

(** The child: [buf[i] = seq++] for 1033 bytes, five times. *)
Definition pipe1_round (w : Z) (st : Z * list Z) : itree sysE (Z * list Z) :=
  let '(seq, buf) := st in
  let buf := ((fun i => u8 (seq + Z.of_nat i)) <$> List.seq 0 1033) ++ drop 1033 buf in
  let* r := call (Write w (take 1033 buf)) in
  stop (negb (r =? 1033)) saying "pipe1 oops 1";
  Ret (seq + 1033, buf).

Definition pipe1_child (w : Z) (buf : list Z) : itree sysE Empty_set :=
  go for_loop 0 5 (fun _ => pipe1_round w) (0, buf); exit.

Record pipest : Type := mkPipest { pi_seq : Z; pi_total : Z; pi_cc : Z; pi_buf : list Z }.

(** The bytes against the counter; [None] when one differs. *)
Fixpoint pipe1_check (bs : list Z) (seq : Z) : option Z :=
  match bs with
  | [] => Some seq
  | b :: bs => if Z.land b 255 =? Z.land seq 255 then pipe1_check bs (s32 (seq + 1)) else None
  end.

(** One turn of the parent; [inr None] is the return after a wrong byte. *)
Definition pipe1_turn (fd : Z) (s : pipest) : itree sysE (pipest + option pipest) :=
  let* r := call (Read fd (pi_cc s)) in
  if count r <=? 0 then Ret (inr (Some s))
  else
    let buf := stored r (pi_buf s) in
    match pipe1_check (take (Z.to_nat (count r)) buf) (pi_seq s) with
    | None => go say "pipe1 oops 2"; Ret (inr None)
    | Some seq =>
        let cc := pi_cc s * 2 in
        Ret (inl (mkPipest seq (s32 (pi_total s + count r)) (if BUF <? cc then BUF else cc) buf))
    end.

Definition pipe1_parent (rd wr : Z) (buf : list Z) : itree sysE (list Z) :=
  go call (Close wr);
  let* r := ITree.iter (pipe1_turn rd) (mkPipest 0 0 1 buf) in
  match r with
  | None => Ret buf
  | Some s =>
      if negb (pi_total s =? 5 * 1033) then fail (line "pipe1 oops 3 total %d") [FInt (pi_total s)] else
      go call (Close rd);
      go call Wait;
      go say "pipe1 ok";
      Ret (pi_buf s)
  end.

Definition pipe1 (buf : list Z) : itree sysE (list Z) :=
  let* p := call Pipe in
  match p with
  | None => fail (line "pipe() failed") []
  | Some (rd, wr) =>
      let* pid := call Fork in
      if pid =? 0 then go call (Close rd); let* v := pipe1_child wr buf in match v : Empty_set with end
      else if 0 <? pid then pipe1_parent rd wr buf
      else fail (line "fork() failed") []
  end.

(** [pfds] is not initialised when pipe() fails. *)
Definition preempt (pfds : Z * Z) (buf : list Z) : itree sysE (list Z) :=
  go printf 1 (chars "preempt: ") [];
  let* pid1 := call Fork in
  if pid1 =? 0 then forever (Ret tt) else
  let* pid2 := call Fork in
  if pid2 =? 0 then forever (Ret tt) else
  let* p := call Pipe in
  let '(rd, wr) := default pfds p in
  let* pid3 := call Fork in
  if pid3 =? 0 then
    go call (Close rd);
    let* r := call (Write wr [120]) in
    go (if negb (r =? 1) then printf 1 (chars "preempt write error") [] else Ret tt);
    go call (Close wr);
    forever (Ret tt)
  else
    go call (Close wr);
    let* r := call (Read rd BUF) in
    if negb (count r =? 1) then go printf 1 (chars "preempt read error") []; Ret (stored r buf)
    else
      go call (Close rd);
      go printf 1 (chars "kill... ") [];
      go call (Kill pid1);
      go call (Kill pid2);
      go call (Kill pid3);
      go printf 1 (chars "wait... ") [];
      go call Wait;
      go call Wait;
      go call Wait;
      go say "preempt ok";
      Ret (stored r buf).

Definition exitwait : itree sysE unit :=
  let* r := for_break 0 100 (fun _ _ =>
    let* pid := call Fork in
    if pid <? 0 then go say "fork failed"; Ret (inr tt)
    else if pid =? 0 then exit
    else
      let* w := call Wait in
      if negb (w =? pid) then go say "wait wrong pid"; Ret (inr tt) else Ret (inl tt)) tt in
  match r with
  | inr _ => Ret tt
  | inl _ => say "exitwait ok"
  end.

(** All memory is taken in blocks linked through their first word, and given
    back. *)
Definition mem_take (m1 : Z) : itree sysE (Z + Z) :=
  let* m2 := call (Malloc 10001) in
  if m2 =? 0 then Ret (inr m1) else go call (PokeWord m2 m1); Ret (inl m2).

Definition mem_give (m1 : Z) : itree sysE (Z + unit) :=
  if m1 =? 0 then Ret (inr tt)
  else let* m2 := call (PeekWord m1) in go call (Free m1); Ret (inl m2).

Definition mem_test : itree sysE unit :=
  go say "mem test";
  let* ppid := call Getpid in
  let* pid := call Fork in
  if pid =? 0 then
    let* m1 := ITree.iter mem_take 0 in
    go ITree.iter mem_give m1;
    let* m1 := call (Malloc (1024 * 20)) in
    if m1 =? 0 then
      go say "couldn't allocate mem?!!";
      go call (Kill ppid);
      exit
    else
      go call (Free m1);
      go say "mem ok";
      exit
  else go call Wait; Ret tt.

(** ** More file system tests *)

(** The bytes 'c' and 'p' of the ten in the buffer, whatever was read. *)
Definition count_cp (b : list Z) (n : Z * Z) : Z * Z :=
  fold_left (fun '(nc, np) c => ((if c =? 99 then nc + 1 else nc), (if c =? 112 then np + 1 else np))) b n.

Definition sharedfd_turn (fd : Z) (st : list Z * (Z * Z)) : itree sysE ((list Z * (Z * Z)) + (Z * Z)) :=
  let* r := call (Read fd 10) in
  if 0 <? count r then
    let b := stored r (fst st) in Ret (inl (b, count_cp (take 10 b) (snd st)))
  else Ret (inr (snd st)).

Definition sharedfd : itree sysE unit :=
  go say "sharedfd test";
  go call (Unlink (chars "sharedfd"));
  let* fd := call (Open (chars "sharedfd") CREATE_RDWR) in
  if fd <? 0 then printf 1 (chars "fstests: cannot open sharedfd for writing") [] else
  let* pid := call Fork in
  let b := repeat (if pid =? 0 then 99 else 112) 10 in
  go for_break 0 1000 (fun _ _ =>
    let* r := call (Write fd b) in
    if negb (r =? 10) then go say "fstests: write sharedfd failed"; Ret (inr tt) else Ret (inl tt)) tt;
  if pid =? 0 then exit else
  go call Wait;
  go call (Close fd);
  let* fd := call (Open (chars "sharedfd") 0) in
  if fd <? 0 then say "fstests: cannot open sharedfd for reading" else
  let* n := ITree.iter (sharedfd_turn fd) (b, (0, 0)) in
  go call (Close fd);
  go call (Unlink (chars "sharedfd"));
  if (fst n =? 10000) && (snd n =? 10000) then say "sharedfd ok"
  else fail (line "sharedfd oops %d %d") [FInt (fst n); FInt (snd n)].

Definition fname (i : Z) : list Z := [102; 48 + i].   (* "f0" to "f3" *)

(** The check of one file: the total of the bytes read. *)
Definition fourfiles_turn (fd i : Z) (st : Z * list Z) : itree sysE ((Z * list Z) + (Z * list Z)) :=
  let '(total, buf) := st in
  let* r := call (Read fd BUF) in
  let buf := stored r buf in
  if count r <=? 0 then Ret (inr (total, buf))
  else if forallb (fun b => b =? 48 + i) (take (Z.to_nat (count r)) buf) then Ret (inl (s32 (total + count r), buf))
  else fail (line "wrong char") [].

Definition fourfiles (buf : list Z) : itree sysE (list Z) :=
  go say "fourfiles test";
  go for_loop 0 4 (fun pi _ =>
    go call (Unlink (fname pi));
    let* pid := call Fork in
    stop (pid <? 0) saying "fork failed";
    if pid =? 0 then
      let* fd := call (Open (fname pi) CREATE_RDWR) in
      stop (fd <? 0) saying "create failed";
      let b := filled (48 + pi) 512 buf in
      go for_loop 0 12 (fun _ _ =>
        let* n := call (Write fd (take 500 b)) in
        if negb (n =? 500) then fail (line "write failed %d") [FInt n] else Ret tt) tt;
      exit
    else Ret tt) tt;
  go for_loop 0 4 (fun _ _ => go call Wait; Ret tt) tt;
  let* buf := for_loop 0 2 (fun i buf =>
    let* fd := call (Open (fname i) 0) in
    let* st := ITree.iter (fourfiles_turn fd i) (0, buf) in
    go call (Close fd);
    if negb (fst st =? 12 * 500) then fail (line "wrong length %d") [FInt (fst st)] else
    go call (Unlink (fname i));
    Ret (snd st)) buf in
  go say "fourfiles ok";
  Ret buf.

(** The names of createdelete: a letter for the process and one for the file. *)
Definition cd_name (a b : Z) : list Z := [112 + a; 48 + b].

Definition createdelete_child (pi : Z) : itree sysE Empty_set :=
  go for_loop 0 20 (fun i _ =>
    let* fd := call (Open (cd_name pi i) CREATE_RDWR) in
    stop (fd <? 0) saying "create failed";
    go call (Close fd);
    if (0 <? i) && (i mod 2 =? 0) then
      let* r := call (Unlink (cd_name pi (i / 2))) in
      stop (r <? 0) saying "unlink failed";
      Ret tt
    else Ret tt) tt;
  exit.

Definition createdelete : itree sysE unit :=
  go say "createdelete test";
  go for_loop 0 4 (fun pi _ =>
    let* pid := call Fork in
    stop (pid <? 0) saying "fork failed";
    if pid =? 0 then let* v := createdelete_child pi in match v : Empty_set with end else Ret tt) tt;
  go for_loop 0 4 (fun _ _ => go call Wait; Ret tt) tt;
  go for_loop 0 20 (fun i _ =>
    for_loop 0 4 (fun pi _ =>
      let* fd := call (Open (cd_name pi i) 0) in
      if ((i =? 0) || (20 / 2 <=? i)) && (fd <? 0) then
        fail (line "oops createdelete %s didn't exist") [FStr (cd_name pi i)]
      else if ((1 <=? i) && (i <? 20 / 2)) && (0 <=? fd) then
        fail (line "oops createdelete %s did exist") [FStr (cd_name pi i)]
      else if 0 <=? fd then go call (Close fd); Ret tt
      else Ret tt) tt) tt;
  go for_loop 0 20 (fun i _ => for_loop 0 4 (fun pi _ => go call (Unlink (cd_name i i)); Ret tt) tt) tt;
  say "createdelete ok".

Definition unlinkread (buf : list Z) : itree sysE (list Z) :=
  go say "unlinkread test";
  let* fd := call (Open (chars "unlinkread") CREATE_RDWR) in
  stop (fd <? 0) saying "create unlinkread failed";
  go call (Write fd (chars "hello"));
  go call (Close fd);
  let* fd := call (Open (chars "unlinkread") RDWR) in
  stop (fd <? 0) saying "open unlinkread failed";
  let* u := call (Unlink (chars "unlinkread")) in
  stop (negb (u =? 0)) saying "unlink unlinkread failed";
  let* fd1 := call (Open (chars "unlinkread") CREATE_RDWR) in
  go call (Write fd1 (chars "yyy"));
  go call (Close fd1);
  let* r := call (Read fd BUF) in
  let buf := stored r buf in
  if negb (count r =? 5) then fail (chars "unlinkread read failed") [] else
  stop (negb (nth 0 buf 0 =? 104)) saying "unlinkread wrong data";
  let* w := call (Write fd (take 10 buf)) in
  stop (negb (w =? 10)) saying "unlinkread write failed";
  go call (Close fd);
  go call (Unlink (chars "unlinkread"));
  go say "unlinkread ok";
  Ret buf.

Definition linktest (buf : list Z) : itree sysE (list Z) :=
  go say "linktest";
  go call (Unlink (chars "lf1"));
  go call (Unlink (chars "lf2"));
  let* fd := call (Open (chars "lf1") CREATE_RDWR) in
  stop (fd <? 0) saying "create lf1 failed";
  let* w := call (Write fd (chars "hello")) in
  stop (negb (w =? 5)) saying "write lf1 failed";
  go call (Close fd);
  let* r := call (Link (chars "lf1") (chars "lf2")) in
  stop (r <? 0) saying "link lf1 lf2 failed";
  go call (Unlink (chars "lf1"));
  let* r := call (Open (chars "lf1") 0) in
  stop (0 <=? r) saying "unlinked lf1 but it is still there!";
  let* fd := call (Open (chars "lf2") 0) in
  stop (fd <? 0) saying "open lf2 failed";
  let* rd := call (Read fd BUF) in
  stop (negb (count rd =? 5)) saying "read lf2 failed";
  go call (Close fd);
  let* r := call (Link (chars "lf2") (chars "lf2")) in
  stop (0 <=? r) saying "link lf2 lf2 succeeded! oops";
  go call (Unlink (chars "lf2"));
  let* r := call (Link (chars "lf2") (chars "lf1")) in
  stop (0 <=? r) saying "link non-existant succeeded! oops";
  let* r := call (Link (chars ".") (chars "lf1")) in
  stop (0 <=? r) saying "link . lf1 succeeded! oops";
  go say "linktest ok";
  Ret (stored rd buf).

(** ** concreate *)

Definition cname (i : Z) : list Z := [67; 48 + i].   (* 'C', '0' + i *)

(** The scan of the directory: the entry last read, the marks of the files
    seen and their number. *)
Record scanst : Type := mkScan { sc_de : list Z; sc_fa : list bool; sc_n : Z }.

Definition concreate_turn (fd : Z) (s : scanst) : itree sysE (scanst + Z) :=
  let* r := call (Read fd 16) in
  if count r <=? 0 then Ret (inr (sc_n s))
  else
    let de := stored r (sc_de s) in
    let name := drop 2 de in
    if le_val (take 2 de) =? 0 then Ret (inl (mkScan de (sc_fa s) (sc_n s)))
    else if (nth 0 name 0 =? 67) && (nth 2 name 0 =? 0) then
      let i := schar (nth 1 name 0) - 48 in
      if (i <? 0) || (40 <=? i) then fail (line "concreate weird file %s") [FStr (cut_nul name)]
      else if nth (Z.to_nat i) (sc_fa s) false then fail (line "concreate duplicate file %s") [FStr (cut_nul name)]
      else Ret (inl (mkScan de (<[Z.to_nat i := true]> (sc_fa s)) (s32 (sc_n s + 1))))
    else Ret (inl (mkScan de (sc_fa s) (sc_n s))).

Definition close_open (path : list Z) : itree sysE unit :=
  let* fd := call (Open path 0) in go call (Close fd); Ret tt.

(** [de] is not initialised. *)
Definition concreate (de : list Z) : itree sysE unit :=
  go say "concreate test";
  go for_loop 0 40 (fun i _ =>
    go call (Unlink (cname i));
    let* pid := call Fork in
    go (if negb (pid =? 0) && (i mod 3 =? 1) then go call (Link (chars "C0") (cname i)); Ret tt
        else if (pid =? 0) && (i mod 5 =? 1) then go call (Link (chars "C0") (cname i)); Ret tt
        else
          let* fd := call (Open (cname i) CREATE_RDWR) in
          if fd <? 0 then fail (line "concreate create %s failed") [FStr (cname i)]
          else go call (Close fd); Ret tt);
    if pid =? 0 then exit else go call Wait; Ret tt) tt;
  let* fd := call (Open (chars ".") 0) in
  let* n := ITree.iter (concreate_turn fd) (mkScan de (repeat false 40) 0) in
  go call (Close fd);
  stop (negb (n =? 40)) saying "concreate not enough files in directory listing";
  go for_loop 0 40 (fun i _ =>
    let* pid := call Fork in
    stop (pid <? 0) saying "fork failed";
    go (if ((i mod 3 =? 0) && (pid =? 0)) || ((i mod 3 =? 1) && negb (pid =? 0)) then times 4 (close_open (cname i))
        else times 4 (go call (Unlink (cname i)); Ret tt));
    if pid =? 0 then exit else go call Wait; Ret tt) tt;
  say "concreate ok".

Definition linkunlink : itree sysE unit :=
  go say "linkunlink test";
  go call (Unlink (chars "x"));
  let* pid := call Fork in
  stop (pid <? 0) saying "fork failed";
  go for_loop 0 100 (fun _ x =>
    let x := u32 (x * 1103515245 + 12345) in
    go (if x mod 3 =? 0 then let* fd := call (Open (chars "x") CREATE_RDWR) in go call (Close fd); Ret tt
        else if x mod 3 =? 1 then go call (Link (chars "cat") (chars "x")); Ret tt
        else go call (Unlink (chars "x")); Ret tt);
    Ret x) (if negb (pid =? 0) then 1 else 97);
  if negb (pid =? 0) then go call Wait; say "linkunlink ok" else exit.

Definition xname (i : Z) : list Z := [120; 48 + i / 64; 48 + i mod 64].

Definition bigdir : itree sysE unit :=
  go say "bigdir test";
  go call (Unlink (chars "bd"));
  let* fd := call (Open (chars "bd") CREATE) in
  stop (fd <? 0) saying "bigdir create failed";
  go call (Close fd);
  go for_loop 0 500 (fun i _ =>
    let* r := call (Link (chars "bd") (xname i)) in
    stop (negb (r =? 0)) saying "bigdir link failed"; Ret tt) tt;
  go call (Unlink (chars "bd"));
  go for_loop 0 500 (fun i _ =>
    let* r := call (Unlink (xname i)) in
    if negb (r =? 0) then fail (chars "bigdir unlink failed") [] else Ret tt) tt;
  say "bigdir ok".

(** ** subdir, in the three parts the comments of the code suggest *)

Definition subdir_make (buf : list Z) : itree sysE (list Z) :=
  go say "subdir test";
  go call (Unlink (chars "ff"));
  let* r := call (Mkdir (chars "dd")) in
  stop (negb (r =? 0)) saying "subdir mkdir dd failed";
  let* fd := call (Open (chars "dd/ff") CREATE_RDWR) in
  stop (fd <? 0) saying "create dd/ff failed";
  go call (Write fd (chars "ff"));
  go call (Close fd);
  let* r := call (Unlink (chars "dd")) in
  stop (0 <=? r) saying "unlink dd (non-empty dir) succeeded!";
  let* r := call (Mkdir (chars "/dd/dd")) in
  stop (negb (r =? 0)) saying "subdir mkdir dd/dd failed";
  let* fd := call (Open (chars "dd/dd/ff") CREATE_RDWR) in
  stop (fd <? 0) saying "create dd/dd/ff failed";
  go call (Write fd (chars "FF"));
  go call (Close fd);
  let* fd := call (Open (chars "dd/dd/../ff") 0) in
  stop (fd <? 0) saying "open dd/dd/../ff failed";
  let* rd := call (Read fd BUF) in
  let buf := stored rd buf in
  stop (negb (count rd =? 2) || negb (nth 0 buf 0 =? 102)) saying "dd/dd/../ff wrong content";
  go call (Close fd);
  let* r := call (Link (chars "dd/dd/ff") (chars "dd/dd/ffff")) in
  stop (negb (r =? 0)) saying "link dd/dd/ff dd/dd/ffff failed";
  let* r := call (Unlink (chars "dd/dd/ff")) in
  stop (negb (r =? 0)) saying "unlink dd/dd/ff failed";
  let* r := call (Open (chars "dd/dd/ff") 0) in
  stop (0 <=? r) saying "open (unlinked) dd/dd/ff succeeded";
  let* r := call (Chdir (chars "dd")) in
  stop (negb (r =? 0)) saying "chdir dd failed";
  let* r := call (Chdir (chars "dd/../../dd")) in
  stop (negb (r =? 0)) saying "chdir dd/../../dd failed";
  let* r := call (Chdir (chars "dd/../../../dd")) in
  stop (negb (r =? 0)) saying "chdir dd/../../dd failed";
  let* r := call (Chdir (chars "./..")) in
  stop (negb (r =? 0)) saying "chdir ./.. failed";
  let* fd := call (Open (chars "dd/dd/ffff") 0) in
  stop (fd <? 0) saying "open dd/dd/ffff failed";
  let* rd := call (Read fd BUF) in
  let buf := stored rd buf in
  stop (negb (count rd =? 2)) saying "read dd/dd/ffff wrong len";
  go call (Close fd);
  Ret buf.

Definition subdir_refuse : itree sysE unit :=
  let* r := call (Open (chars "dd/dd/ff") 0) in
  stop (0 <=? r) saying "open (unlinked) dd/dd/ff succeeded!";
  let* r := call (Open (chars "dd/ff/ff") CREATE_RDWR) in
  stop (0 <=? r) saying "create dd/ff/ff succeeded!";
  let* r := call (Open (chars "dd/xx/ff") CREATE_RDWR) in
  stop (0 <=? r) saying "create dd/xx/ff succeeded!";
  let* r := call (Open (chars "dd") CREATE) in
  stop (0 <=? r) saying "create dd succeeded!";
  let* r := call (Open (chars "dd") RDWR) in
  stop (0 <=? r) saying "open dd rdwr succeeded!";
  let* r := call (Open (chars "dd") WRONLY) in
  stop (0 <=? r) saying "open dd wronly succeeded!";
  let* r := call (Link (chars "dd/ff/ff") (chars "dd/dd/xx")) in
  stop (r =? 0) saying "link dd/ff/ff dd/dd/xx succeeded!";
  let* r := call (Link (chars "dd/xx/ff") (chars "dd/dd/xx")) in
  stop (r =? 0) saying "link dd/xx/ff dd/dd/xx succeeded!";
  let* r := call (Link (chars "dd/ff") (chars "dd/dd/ffff")) in
  stop (r =? 0) saying "link dd/ff dd/dd/ffff succeeded!";
  let* r := call (Mkdir (chars "dd/ff/ff")) in
  stop (r =? 0) saying "mkdir dd/ff/ff succeeded!";
  let* r := call (Mkdir (chars "dd/xx/ff")) in
  stop (r =? 0) saying "mkdir dd/xx/ff succeeded!";
  let* r := call (Mkdir (chars "dd/dd/ffff")) in
  stop (r =? 0) saying "mkdir dd/dd/ffff succeeded!";
  let* r := call (Unlink (chars "dd/xx/ff")) in
  stop (r =? 0) saying "unlink dd/xx/ff succeeded!";
  let* r := call (Unlink (chars "dd/ff/ff")) in
  stop (r =? 0) saying "unlink dd/ff/ff succeeded!";
  let* r := call (Chdir (chars "dd/ff")) in
  stop (r =? 0) saying "chdir dd/ff succeeded!";
  let* r := call (Chdir (chars "dd/xx")) in
  stop (r =? 0) saying "chdir dd/xx succeeded!";
  Ret tt.

Definition subdir_remove : itree sysE unit :=
  let* r := call (Unlink (chars "dd/dd/ffff")) in
  stop (negb (r =? 0)) saying "unlink dd/dd/ff failed";
  let* r := call (Unlink (chars "dd/ff")) in
  stop (negb (r =? 0)) saying "unlink dd/ff failed";
  let* r := call (Unlink (chars "dd")) in
  stop (r =? 0) saying "unlink non-empty dd succeeded!";
  let* r := call (Unlink (chars "dd/dd")) in
  stop (r <? 0) saying "unlink dd/dd failed";
  let* r := call (Unlink (chars "dd")) in
  stop (r <? 0) saying "unlink dd failed";
  say "subdir ok".

Definition subdir (buf : list Z) : itree sysE (list Z) :=
  let* buf := subdir_make buf in
  go subdir_refuse;
  go subdir_remove;
  Ret buf.

(** [for(sz = 499; sz < 12*512; sz += 471)] makes twelve rounds. *)
Definition bigwrite (buf : list Z) : itree sysE unit :=
  go say "bigwrite test";
  go call (Unlink (chars "bigwrite"));
  go for_loop 0 12 (fun k _ =>
    let sz := 499 + 471 * k in
    let* fd := call (Open (chars "bigwrite") CREATE_RDWR) in
    stop (fd <? 0) saying "cannot create bigwrite";
    go for_loop 0 2 (fun _ _ =>
      let* cc := call (Write fd (take (Z.to_nat sz) buf)) in
      if negb (cc =? sz) then fail (line "write(%d) ret %d") [FInt sz; FInt cc] else Ret tt) tt;
    go call (Close fd);
    go call (Unlink (chars "bigwrite")); Ret tt) tt;
  say "bigwrite ok".

Record bigst : Type := mkBig { bg_i : Z; bg_total : Z; bg_buf : list Z }.

Definition bigfile_turn (fd : Z) (s : bigst) : itree sysE (bigst + bigst) :=
  let* r := call (Read fd 300) in
  let buf := stored r (bg_buf s) in
  stop (count r <? 0) saying "read bigfile failed";
  if count r =? 0 then Ret (inr (mkBig (bg_i s) (bg_total s) buf)) else
  stop (negb (count r =? 300)) saying "short read bigfile";
  stop (negb (schar (nth 0 buf 0) =? Z.quot (bg_i s) 2) || negb (schar (nth 299 buf 0) =? Z.quot (bg_i s) 2))
    saying "read bigfile wrong data";
  Ret (inl (mkBig (s32 (bg_i s + 1)) (s32 (bg_total s + count r)) buf)).

Definition bigfile (buf : list Z) : itree sysE (list Z) :=
  go say "bigfile test";
  go call (Unlink (chars "bigfile"));
  let* fd := call (Open (chars "bigfile") CREATE_RDWR) in
  if fd <? 0 then fail (chars "cannot create bigfile") [] else
  let* buf := for_loop 0 20 (fun i buf =>
    let buf := filled i 600 buf in
    let* r := call (Write fd (take 600 buf)) in
    stop (negb (r =? 600)) saying "write bigfile failed";
    Ret buf) buf in
  go call (Close fd);
  let* fd := call (Open (chars "bigfile") 0) in
  stop (fd <? 0) saying "cannot open bigfile";
  let* s := ITree.iter (bigfile_turn fd) (mkBig 0 0 buf) in
  go call (Close fd);
  stop (negb (bg_total s =? 20 * 600)) saying "read bigfile wrong total";
  go call (Unlink (chars "bigfile"));
  go say "bigfile test ok";
  Ret (bg_buf s).

Definition fourteen : itree sysE unit :=
  go say "fourteen test";
  let* r := call (Mkdir (chars "12345678901234")) in
  stop (negb (r =? 0)) saying "mkdir 12345678901234 failed";
  let* r := call (Mkdir (chars "12345678901234/123456789012345")) in
  stop (negb (r =? 0)) saying "mkdir 12345678901234/123456789012345 failed";
  let* fd := call (Open (chars "123456789012345/123456789012345/123456789012345") CREATE) in
  stop (fd <? 0) saying "create 123456789012345/123456789012345/123456789012345 failed";
  go call (Close fd);
  let* fd := call (Open (chars "12345678901234/12345678901234/12345678901234") 0) in
  stop (fd <? 0) saying "open 12345678901234/12345678901234/12345678901234 failed";
  go call (Close fd);
  let* r := call (Mkdir (chars "12345678901234/12345678901234")) in
  stop (r =? 0) saying "mkdir 12345678901234/12345678901234 succeeded!";
  let* r := call (Mkdir (chars "123456789012345/12345678901234")) in
  stop (r =? 0) saying "mkdir 12345678901234/123456789012345 succeeded!";
  say "fourteen ok".

Definition rmdot : itree sysE unit :=
  go say "rmdot test";
  let* r := call (Mkdir (chars "dots")) in
  stop (negb (r =? 0)) saying "mkdir dots failed";
  let* r := call (Chdir (chars "dots")) in
  stop (negb (r =? 0)) saying "chdir dots failed";
  let* r := call (Unlink (chars ".")) in
  stop (r =? 0) saying "rm . worked!";
  let* r := call (Unlink (chars "..")) in
  stop (r =? 0) saying "rm .. worked!";
  let* r := call (Chdir (chars "/")) in
  stop (negb (r =? 0)) saying "chdir / failed";
  let* r := call (Unlink (chars "dots/.")) in
  stop (r =? 0) saying "unlink dots/. worked!";
  let* r := call (Unlink (chars "dots/..")) in
  stop (r =? 0) saying "unlink dots/.. worked!";
  let* r := call (Unlink (chars "dots")) in
  stop (negb (r =? 0)) saying "unlink dots failed!";
  say "rmdot ok".

Definition dirfile : itree sysE unit :=
  go say "dir vs file";
  let* fd := call (Open (chars "dirfile") CREATE) in
  stop (fd <? 0) saying "create dirfile failed";
  go call (Close fd);
  let* r := call (Chdir (chars "dirfile")) in
  stop (r =? 0) saying "chdir dirfile succeeded!";
  let* fd := call (Open (chars "dirfile/xx") 0) in
  stop (0 <=? fd) saying "create dirfile/xx succeeded!";
  let* fd := call (Open (chars "dirfile/xx") CREATE) in
  stop (0 <=? fd) saying "create dirfile/xx succeeded!";
  let* r := call (Mkdir (chars "dirfile/xx")) in
  stop (r =? 0) saying "mkdir dirfile/xx succeeded!";
  let* r := call (Unlink (chars "dirfile/xx")) in
  stop (r =? 0) saying "unlink dirfile/xx succeeded!";
  let* r := call (Link (chars "README") (chars "dirfile/xx")) in
  stop (r =? 0) saying "link to dirfile/xx succeeded!";
  let* r := call (Unlink (chars "dirfile")) in
  stop (negb (r =? 0)) saying "unlink dirfile failed!";
  let* fd := call (Open (chars ".") RDWR) in
  stop (0 <=? fd) saying "open . for writing succeeded!";
  let* fd := call (Open (chars ".") 0) in
  let* w := call (Write fd (chars "x")) in
  stop (0 <? w) saying "write . succeeded!";
  go call (Close fd);
  say "dir vs file OK".

(** The descriptor is closed when the file was created. *)
Definition try_create (path : list Z) : itree sysE unit :=
  let* fd := call (Open path CREATE) in
  if 0 <=? fd then go call (Close fd); Ret tt else Ret tt.

Definition iref : itree sysE unit :=
  go say "empty file name";
  go for_loop 0 51 (fun _ _ =>
    let* r := call (Mkdir (chars "irefd")) in
    stop (negb (r =? 0)) saying "mkdir irefd failed";
    let* r := call (Chdir (chars "irefd")) in
    stop (negb (r =? 0)) saying "chdir irefd failed";
    go call (Mkdir []);
    go call (Link (chars "README") []);
    go try_create [];
    go try_create (chars "xx");
    go call (Unlink (chars "xx")); Ret tt) tt;
  go call (Chdir (chars "/"));
  say "empty file name OK".

(** ** Memory and processes *)

(** Forks until it fails: the number of children. *)
Fixpoint fork_many (n : Z) (k : nat) : itree sysE Z :=
  match k with
  | O => Ret n
  | S k =>
      let* pid := call Fork in
      if pid <? 0 then Ret n
      else if pid =? 0 then exit
      else fork_many (n + 1) k
  end.

Definition forktest : itree sysE unit :=
  go say "fork test";
  let* n := fork_many 0 1000 in
  stop (n =? 1000) saying "fork claimed to work 1000 times!";
  go for_loop 0 (Z.to_nat n) (fun _ _ =>
    let* r := call Wait in
    stop (r <? 0) saying "wait stopped early"; Ret tt) tt;
  let* r := call Wait in
  stop (negb (r =? -1)) saying "wait got too many";
  say "fork test OK".

Definition BIG : Z := 100 * 1024 * 1024.
Definition NOWHERE : Z := 4294967295.   (* (char * )0xffffffff, what sbrk returns when it fails *)

(** Byte by byte, and after a fork. *)
Definition sbrk_bytes (a : Z) : itree sysE unit :=
  let* a := for_loop 0 5000 (fun i a =>
    let* b := call (Sbrk 1) in
    if negb (b =? a) then fail (line "sbrk test failed %d %x %x") [FInt i; FInt a; FInt b] else
    go call (Poke b 1);
    Ret (u32 (b + 1))) a in
  let* pid := call Fork in
  stop (pid <? 0) saying "sbrk test fork failed";
  go call (Sbrk 1);
  let* c := call (Sbrk 1) in
  stop (negb (c =? u32 (a + 1))) saying "sbrk test failed post-fork";
  if pid =? 0 then exit else go call Wait; Ret tt.

(** Up to [BIG], and one page down and up again. *)
Definition sbrk_big : itree sysE unit :=
  let* a := call (Sbrk 0) in
  let* p := call (Sbrk (s32 (u32 (BIG - a)))) in
  stop (negb (p =? a)) saying "sbrk test failed to grow big address space; enough phys mem?";
  go call (Poke (BIG - 1) 99);
  let* a := call (Sbrk 0) in
  let* c := call (Sbrk (-4096)) in
  stop (c =? NOWHERE) saying "sbrk could not deallocate";
  let* c := call (Sbrk 0) in
  if negb (c =? u32 (a - 4096)) then
    fail (line "sbrk deallocation produced wrong address, a %x c %x") [FInt a; FInt c] else
  let* a := call (Sbrk 0) in
  let* c := call (Sbrk 4096) in
  let* e := (if negb (c =? a) then Ret true else let* b := call (Sbrk 0) in Ret (negb (b =? u32 (a + 4096)))) in
  if e : bool then fail (line "sbrk re-allocation failed, a %x c %x") [FInt a; FInt c] else
  let* v := call (Peek (BIG - 1)) in
  stop (v =? 99) saying "sbrk de-allocation didn't really deallocate";
  Ret tt.

(** Reading the kernel: the child should be killed by the access. *)
Definition sbrk_kernel : itree sysE unit :=
  for_loop 0 40 (fun k _ =>
    let a := 2147483648 + 50000 * k in
    let* ppid := call Getpid in
    let* pid := call Fork in
    stop (pid <? 0) saying "fork failed";
    if pid =? 0 then
      let* v := call (Peek a) in
      go printf 1 (line "oops could read %x = %x") [FInt a; FInt (schar v)];
      go call (Kill ppid);
      exit
    else go call Wait; Ret tt) tt.

(** Ten processes that take all memory. *)
Definition sbrk_hog (wr : Z) : itree sysE Z :=
  let* b := call (Sbrk 0) in
  go call (Sbrk (s32 (u32 (BIG - b))));
  go call (Write wr (chars "x"));
  forever (go call (Sleep 1000); Ret tt).

Definition sbrk_full (rd wr : Z) : itree sysE Z :=
  let* pids := for_loop 0 10 (fun _ pids =>
    let* pid := call Fork in
    if pid =? 0 then let* _ := sbrk_hog wr in Ret pids
    else if negb (pid =? -1) then go call (Read rd 1); Ret (pids ++ [pid])
    else Ret (pids ++ [pid])) [] in
  let* c := call (Sbrk 4096) in
  go for_loop 0 10 (fun i _ =>
    let pid := nth (Z.to_nat i) pids 0 in
    if pid =? -1 then Ret tt else go call (Kill pid); go call Wait; Ret tt) tt;
  Ret c.

Definition sbrktest : itree sysE unit :=
  go say "sbrk test";
  let* oldbrk := call (Sbrk 0) in
  let* a := call (Sbrk 0) in
  go sbrk_bytes a;
  go sbrk_big;
  let* a := call (Sbrk 0) in
  let* b := call (Sbrk 0) in
  let* c := call (Sbrk (s32 (- (b - oldbrk)))) in
  if negb (c =? a) then fail (line "sbrk downsize failed, a %x c %x") [FInt a; FInt c] else
  go sbrk_kernel;
  let* p := call Pipe in
  match p with
  | None => fail (line "pipe() failed") []
  | Some (rd, wr) =>
      let* c := sbrk_full rd wr in
      stop (c =? NOWHERE) saying "failed sbrk leaked memory";
      let* b := call (Sbrk 0) in
      go (if oldbrk <? b then let* b := call (Sbrk 0) in go call (Sbrk (s32 (- (b - oldbrk)))); Ret tt else Ret tt);
      say "sbrk test OK"
  end.

Definition SYS_sleep : Z := 13.

(** sleep() with its argument behind the pointer [p]. *)
Definition validateint (p : Z) : itree sysE unit := go call (SysAt SYS_sleep p); Ret tt.

(** [p] runs over the pages up to 1100 KB. *)
Definition validatetest : itree sysE unit :=
  go say "validate test";
  go for_loop 0 276 (fun k _ =>
    let p := 4096 * k in
    let* pid := call Fork in
    if pid =? 0 then go validateint p; exit
    else
      go call (Sleep 0);
      go call (Sleep 0);
      go call (Kill pid);
      go call Wait;
      let* r := call (LinkAt (chars "nosuchfile") p) in
      stop (negb (r =? -1)) saying "link should not succeed"; Ret tt) tt;
  say "validate ok".

(** [uninit] is the array as the loader left it. *)
Definition bsstest (uninit : list Z) : itree sysE unit :=
  go say "bss test";
  stop (existsb (fun b => negb (b =? 0)) (take 10000 uninit)) saying "bss test failed";
  say "bss test ok".

Definition bigarg : list Z := line "bigargs test: failed" ++ repeat 32 199.
Definition MAXARG : nat := 32.

Definition bigargtest : itree sysE unit :=
  go call (Unlink (chars "bigarg-ok"));
  let* pid := call Fork in
  if pid =? 0 then
    go say "bigarg test";
    go call (Exec (chars "echo") (repeat bigarg (MAXARG - 1)));
    go say "bigarg test ok";
    let* fd := call (Open (chars "bigarg-ok") CREATE) in
    go call (Close fd);
    exit
  else
    stop (pid <? 0) saying "bigargtest: fork failed";
    go call Wait;
    let* fd := call (Open (chars "bigarg-ok") 0) in
    stop (fd <? 0) saying "bigarg test failed!";
    go call (Close fd);
    go call (Unlink (chars "bigarg-ok"));
    Ret tt.

(** fsfull, which main does not call. *)
Definition full_name (n : Z) : list Z :=
  [102; 48 + n / 1000; 48 + n mod 1000 / 100; 48 + n mod 100 / 10; 48 + n mod 10].

Definition fill_file (fd : Z) (buf : list Z) (total : Z) : itree sysE (Z + Z) :=
  let* cc := call (Write fd (take 512 buf)) in
  if cc <? 512 then Ret (inr total) else Ret (inl (s32 (total + cc))).

Definition fsfull_turn (buf : list Z) (nfiles : Z) : itree sysE (Z + Z) :=
  let name := full_name nfiles in
  go printf 1 (line "writing %s") [FStr name];
  let* fd := call (Open name CREATE_RDWR) in
  if fd <? 0 then go printf 1 (line "open %s failed") [FStr name]; Ret (inr nfiles)
  else
    let* total := ITree.iter (fill_file fd buf) 0 in
    go printf 1 (line "wrote %d bytes") [FInt total];
    go call (Close fd);
    if total =? 0 then Ret (inr nfiles) else Ret (inl (nfiles + 1)).

Definition fsfull (buf : list Z) : itree sysE unit :=
  go say "fsfull test";
  let* nfiles := ITree.iter (fsfull_turn buf) 0 in
  go for_loop 0 (Z.to_nat (nfiles + 1)) (fun k _ => go call (Unlink (full_name (nfiles - k))); Ret tt) tt;
  say "fsfull test finished".

(** [unsigned long] has 32 bits. *)
Definition rand (randstate : Z) : Z := u32 (randstate * 1664525 + 1013904223).

(** ** main *)

(** [de] and [pfds] are what the stack holds at concreate and preempt. *)
Definition usertests_main (de : list Z) (pfds : Z * Z) (uninit : list Z) : itree sysE Empty_set :=
  go say "usertests starting";
  let* r := call (Open (chars "usertests.ran") 0) in
  stop (0 <=? r) saying "already ran user tests -- rebuild fs.img";
  let* fd := call (Open (chars "usertests.ran") CREATE) in
  go call (Close fd);
  let buf := repeat 0 8192 in
  go createdelete;
  go linkunlink;
  go concreate de;
  let* buf := fourfiles buf in
  go sharedfd;
  go bigargtest;
  go bigwrite buf;
  go bigargtest;
  go bsstest uninit;
  go sbrktest;
  go validatetest;
  go opentest;
  let* buf := writetest buf in
  let* buf := writetest1 buf in
  go createtest;
  go openiputtest;
  go exitiputtest;
  go iputtest;
  go mem_test;
  let* buf := pipe1 buf in
  let* buf := preempt pfds buf in
  go exitwait;
  go rmdot;
  go fourteen;
  let* buf := bigfile buf in
  let* buf := subdir buf in
  let* buf := linktest buf in
  let* buf := unlinkread buf in
  go dirfile;
  go iref;
  go forktest;
  go bigdir;
  go exectest;
  exit.
