(* ===== verification/UtestsSpec.v ===== *)
(** * What the tests of usertests.c establish

    [says t text]: whenever [t] returns, it has written exactly [text] to the
    console, provided the kernel keeps descriptor 1 for the console.  A test
    reports a failure that its own process sees by a message and exit(), so it
    does not return with it; a failure that only a child sees is not in the
    trace of the test.  Four tests return after a failure as well; they are
    shown apart.  The heap benchmark app_mono_mem.c
    is at the end. *)

From S2P Require Import Prelude CString Ulib Printf Sh FsLayout Uprog Uutil Utests.
From ITree Require Import ITree.

Open Scope Z_scope.

(** ** Transcripts *)

Ltac head_of t := match t with ?f _ => head_of f | _ => t end.

(** open() and pipe() answer no descriptor that is in use. *)
Definition console_kept (ev : event) : Prop :=
  match ev with
  | Ev e x =>
      match e in sysE X return X -> Prop with
      | Open _ _ => fun fd => fd <> 1
      | Pipe => fun p => match p with Some (rd, wr) => wr <> 1 | None => True end
      | _ => fun _ => True
      end x
  end.

Definition says {R} (t : itree sysE R) (text : list Z) : Prop :=
  forall l r, trace t l (Returned r) -> Forall console_kept l -> out 1 l = text.

Definition silent {X} (e : sysE X) : Prop := match e with Write fd _ => fd <> 1 | Exit => False | _ => True end.

Section says.
Context {R : Type}.

Lemma says_ret (r : R) : says (Ret r) [].
Proof. intros l r' H _. by apply trace_ret in H as [-> _]. Qed.

Lemma says_exit text : says (exit : itree sysE R) text.
Proof. intros l r H _. by apply trace_exit in H as [_ [?|?]]. Qed.

Lemma says_call {X} (e : sysE X) (k : X -> itree sysE R) text :
  silent e -> (forall x, console_kept (Ev e x) -> says (k x) text) -> says (ITree.bind (call e) k) text.
Proof.
  intros He Hk l r H Hc. apply fin_call in H as (x & l' & -> & _ & H); [|by destruct e|done].
  apply Forall_cons in Hc as [Hx Hc]. rewrite out_cons, (Hk x Hx l' r H Hc). destruct e; try done. cbn [ev_out]. cbn in He.
  rewrite (proj2 (Z.eqb_neq 1 fd)) by done. done.
Qed.

Lemma says_bind {X} (t : itree sysE X) (k : X -> itree sysE R) a b :
  says t a -> (forall x, says (k x) b) -> says (ITree.bind t k) (a ++ b).
Proof.
  intros Ht Hk l r H Hc. apply fin_bind in H as [(x & l1 & l2 & -> & H1 & H2)|[_ ?]]; [|done..].
  apply Forall_app in Hc as [Hc1 Hc2]. by rewrite out_app, (Ht l1 x H1 Hc1), (Hk x l2 r H2 Hc2).
Qed.
End says.

Lemma says_printf fmt args : says (printf 1 fmt args) (format fmt args).
Proof. intros l [] H _. by apply print_out in H as [? _]. Qed.

Lemma says_fail {R} fmt args text : says (fail fmt args : itree sysE R) text.
Proof.
  intros l r H _. unfold fail in H. apply fin_print in H as (l1 & l2 & -> & _ & H); [|done]. by apply fin_exit in H as [_ ?].
Qed.

Lemma says_for {S} (body : Z -> S -> itree sysE S) n : forall i s,
  (forall i s, says (body i s) []) -> says (for_loop i n body s) [].
Proof.
  induction n as [|n IH]; intros i s Hb; cbn [for_loop]; [apply says_ret|].
  apply (says_bind _ _ [] []); [apply Hb|]. intros s'. by apply IH.
Qed.

Lemma says_iter {I R} (f : I -> itree sysE (I + R)) i : (forall i, says (f i) []) -> says (ITree.iter f i) [].
Proof.
  intros Hf. unfold says. intros l r H. remember (Returned r) as o eqn:Ho. revert Ho.
  apply (iter_trace f (fun _ l o => o = Returned r -> Forall console_kept l -> out 1 l = [])) with (i := i); [| | |done|exact H].
  - intros j j' l1 l2 o' H1 IH Ho Hc. apply Forall_app in Hc as [Hc1 Hc2]. by rewrite out_app, (Hf j l1 _ H1 Hc1), IH.
  - intros j b l1 H1 _ Hc. by apply (Hf j l1 _ H1 Hc).
  - done.
Qed.

Lemma forever_runs {R} (t : itree sysE unit) l (o : outcome R) : trace (forever t) l o -> forall r, o <> Returned r.
Proof.
  unfold forever. apply (iter_trace _ (fun _ _ o => forall r, o <> Returned r)); try done.
  intros _ b l1 H. apply fin_bind in H as [(x & la & lb & -> & _ & H)|[_ ?]]; [|done..]. by apply fin_ret in H as [_ ?].
Qed.

Lemma says_forever {R} (t : itree sysE unit) text : says (forever t : itree sysE R) text.
Proof. intros l r H _. by apply forever_runs with (r := r) in H. Qed.

Lemma says_times n t : says t [] -> says (times n t) [].
Proof.
  intros Ht. induction n as [|n IH]; cbn [times]; [apply says_ret|]. by apply (says_bind _ _ [] []).
Qed.

(** Code that cannot return says anything. *)
Lemma says_never {R} (t : itree sysE Empty_set) (k : Empty_set -> itree sysE R) text : says (ITree.bind t k) text.
Proof. intros l r H _. apply fin_bind in H as [(x & _)|[_ ?]]; [destruct x|done|done]. Qed.

(** The line that a message with a newline puts on the console. *)
Lemma says_say (m : string) : says (say m) (format (line m) []).
Proof. apply says_printf. Qed.

Lemma says_eq {R} (t : itree sysE R) a b : says t a -> a = b -> says t b.
Proof. by intros H <-. Qed.

Lemma says_fork_many k : forall n, says (fork_many n k) [].
Proof.
  induction k as [|k IH]; intros n; cbn [fork_many]; [apply says_ret|]. apply says_call; [done|]. intros pid _.
  destruct (pid <? 0); [apply says_ret|]. destruct (pid =? 0); [apply says_exit|apply IH].
Qed.

(** Code that never returns: the children of a test. *)
Definition dead {R} (t : itree sysE R) : Prop := forall l r, ~ trace t l (Returned r).

Lemma says_dead {R} (t : itree sysE R) text : dead t -> says t text.
Proof. intros Hd l r H _. by apply Hd in H. Qed.

Lemma dead_exit {R} : dead (exit : itree sysE R).
Proof. intros l r H. by apply trace_exit in H as [_ [?|?]]. Qed.

Lemma dead_fail {R} fmt args : dead (fail fmt args : itree sysE R).
Proof. intros l r H. unfold fail in H. apply fin_print in H as (l1 & l2 & -> & _ & H); [|done]. by apply fin_exit in H as [_ ?]. Qed.

Lemma dead_forever {R} t : dead (forever t : itree sysE R).
Proof. intros l r H. by apply forever_runs with (r := r) in H. Qed.

Lemma dead_bind {X R} (t : itree sysE X) (k : X -> itree sysE R) : (forall x, dead (k x)) -> dead (ITree.bind t k).
Proof. intros Hk l r H. apply fin_bind in H as [(x & l1 & l2 & -> & _ & H)|[_ ?]]; [by apply Hk in H|done|done]. Qed.

Ltac dead_step :=
  match goal with
  | |- dead exit => apply dead_exit
  | |- dead (fail _ _) => apply dead_fail
  | |- dead (forever _) => apply dead_forever
  | |- dead (if ?b then _ else _) => destruct b
  | |- dead (ITree.bind _ _) => apply dead_bind; intros ?
  end.
Ltac solve_dead := solve [apply says_dead; repeat dead_step].

(** One step of the code: the text a branch that exits leaves open is fixed
    by the branch that returns. *)
Ltac says_step :=
  match goal with
  | |- says (Ret _) _ => apply says_ret
  | |- says exit _ => apply says_exit
  | |- says (fail _ _) _ => apply says_fail
  | |- says (forever _) _ => apply says_forever
  | |- says (say _) _ => apply says_say
  | |- says (printf 1 _ _) _ => apply says_printf
  | |- says (for_loop _ _ _ _) _ => apply says_for; intros ? ?
  | |- says (ITree.iter _ _) _ => apply says_iter; intros ?
  | |- says (times _ _) _ => apply says_times
  | |- says (fork_many _ _) _ => apply says_fork_many
  | |- says (ITree.bind (ITree.trigger _) _) _ => apply says_call; [first [done|cbn in *; done]|intros ? ?]
  | |- says (ITree.bind (say ?m) _) _ => eapply (says_bind _ _ (format (line m) []) _); [apply says_say|intros ?]
  | |- says (ITree.bind (printf 1 ?f ?a) _) _ => eapply (says_bind _ _ (format f a) _); [apply says_printf|intros ?]
  | |- says (@ITree.bind _ Empty_set _ _ _) _ => apply says_never
  | |- says (if ?b then _ else _) _ => destruct b; try solve_dead
  | |- says (match ?x with _ => _ end) _ => destruct x
  | |- says (ITree.bind (match _ with _ => _ end) _) _ => eapply (says_bind _ _ [] _); [|intros ?]
  | |- says (ITree.bind (for_loop _ _ _ _) _) _ => eapply (says_bind _ _ [] _); [|intros ?]
  | |- says (ITree.bind (ITree.iter _ _) _) _ => eapply (says_bind _ _ [] _); [|intros ?]
  | |- says (ITree.bind _ _) [] => eapply (says_bind _ _ [] []); [|intros ?]
  | |- says (ITree.bind _ _) _ => eapply (says_bind _ _ _ _); [|intros ?]
  | |- says ?t _ => let h := head_of t in unfold h
  end.
Ltac transcript := intros; eapply says_eq; [repeat says_step|reflexivity].

Definition lines (ms : list string) : list Z := flat_map line ms.

(** The tests that exit() when they find a failure, with the text of their
    success. *)
Definition quietly {R} (t : itree sysE R) : itree sysE unit := go t; Ret tt.

Definition reports (de uninit buf : list Z) : list (itree sysE unit * list Z) :=
  [ (iputtest, lines ["iput test"; "iput test ok"]);
    (exitiputtest, lines ["exitiput test"; "exitiput test ok"]);
    (openiputtest, lines ["openiput test"; "openiput test ok"]);
    (opentest, lines ["open test"; "open test ok"]);
    (quietly (writetest buf), lines ["small file test"; "creat small succeeded; ok"; "writes ok"; "open small succeeded ok";
       "read succeeded ok"; "small file test ok"]);
    (quietly (writetest1 buf), lines ["big files test"; "big files ok"]);
    (createtest, lines ["many creates, followed by unlink test"; "many creates, followed by unlink; ok"]);
    (dirtest, lines ["mkdir test"; "mkdir test ok"]);
    (mem_test, lines ["mem test"]);
    (quietly (fourfiles buf), lines ["fourfiles test"; "fourfiles ok"]);
    (createdelete, lines ["createdelete test"; "createdelete ok"]);
    (quietly (unlinkread buf), lines ["unlinkread test"; "unlinkread ok"]);
    (quietly (linktest buf), lines ["linktest"; "linktest ok"]);
    (concreate de, lines ["concreate test"; "concreate ok"]);
    (linkunlink, lines ["linkunlink test"; "linkunlink ok"]);
    (bigdir, lines ["bigdir test"; "bigdir ok"]);
    (quietly (subdir buf), lines ["subdir test"; "subdir ok"]);
    (bigwrite buf, lines ["bigwrite test"; "bigwrite ok"]);
    (quietly (bigfile buf), lines ["bigfile test"; "bigfile test ok"]);
    (fourteen, lines ["fourteen test"; "fourteen ok"]);
    (rmdot, lines ["rmdot test"; "rmdot ok"]);
    (dirfile, lines ["dir vs file"; "dir vs file OK"]);
    (iref, lines ["empty file name"; "empty file name OK"]);
    (forktest, lines ["fork test"; "fork test OK"]);
    (sbrktest, lines ["sbrk test"; "sbrk test OK"]);
    (validatetest, lines ["validate test"; "validate ok"]);
    (bsstest uninit, lines ["bss test"; "bss test ok"]);
    (bigargtest, []) ]%string.

(** For each of these tests, whatever the kernel answers, when the test returns
    to main its own process has written the text of its success and nothing
    else, provided open() and pipe() give no descriptor that is in use.  What
    the children of a test write is not part of it: exitiputtest and openiputtest
    report ok when only a child has complained. *)
Lemma tests_report de uninit buf : Forall (fun '(t, text) => says t text) (reports de uninit buf).
Proof. unfold reports. repeat (apply Forall_cons; split; [unfold quietly; transcript|]). apply Forall_nil; done. Qed.

(** ** pipe1 *)

(** The bytes of a counter that starts at [q]. *)
Definition from (q : Z) (n : nat) : list Z := (fun i => u8 (q + Z.of_nat i)) <$> seq 0 n.

Lemma from_length q n : length (from q n) = n.
Proof. unfold from. by rewrite length_fmap, length_seq. Qed.

Lemma from_app q n m : from q (n + m) = from q n ++ from (q + Z.of_nat n) m.
Proof.
  unfold from. rewrite seq_app, fmap_app. f_equal. cbn [Nat.add]. rewrite <- (Nat.add_0_r n) at 1. rewrite <- fmap_add_seq, <- list_fmap_compose.
  apply list_fmap_ext. intros i x _. cbn. f_equal. lia.
Qed.

Lemma from_mod q q' n : u8 q = u8 q' -> from q n = from q' n.
Proof. intros H. apply list_fmap_ext. intros i x _. unfold u8 in *. zlia. Qed.

Lemma from_S q n : from q (S n) = u8 q :: from (q + 1) n.
Proof. change (S n) with (1 + n)%nat. rewrite from_app. unfold from at 1. cbn. by rewrite Z.add_0_r. Qed.

Lemma land_255 b : Z.land b 255 = u8 b.
Proof. change 255 with (2 ^ 8 - 1). by rewrite land_mask. Qed.

Lemma u8_s32 x : u8 (s32 x) = u8 x.
Proof. unfold s32. cbv zeta. zif; unfold u8; zlia. Qed.

Lemma s32_mod a b : a mod 4294967296 = b mod 4294967296 -> s32 a = s32 b.
Proof. unfold s32, u32. by intros ->. Qed.

Lemma s32_s32_add a b : s32 (s32 a + b) = s32 (a + b).
Proof. apply s32_mod. destruct (s32_turns a) as [k ->]. zlia. Qed.

Lemma s32_idem a : s32 (s32 a) = s32 a.
Proof. apply s32_mod. destruct (s32_turns a) as [k ->]. zlia. Qed.

Lemma pipe1_check_spec bs : forall q,
  match pipe1_check bs q with
  | Some q' => u8 <$> bs = from q (length bs) /\ u8 q' = u8 (q + Z.of_nat (length bs))
  | None => u8 <$> bs <> from q (length bs)
  end.
Proof.
  induction bs as [|b bs IH]; intros q; cbn [pipe1_check length].
  - split; [done|]. by rewrite Z.add_0_r.
  - rewrite !land_255, from_S. cbn [fmap list_fmap].
    assert (Hs : from (s32 (q + 1)) (length bs) = from (q + 1) (length bs)) by (apply from_mod, u8_s32).
    specialize (IH (s32 (q + 1))). rewrite Hs in IH. destruct (Z.eqb_spec (u8 b) (u8 q)) as [E|E].
    + destruct (pipe1_check bs (s32 (q + 1))) as [q'|].
      * destruct IH as [IH1 IH2]. rewrite IH1, E, IH2. split; [done|].
        pose proof (u8_s32 (q + 1)) as Hu. set (w := s32 (q + 1)) in *. clearbody w. unfold u8 in *. zlia.
      * intros [= _ H]. by apply IH.
    + intros [= H _]. done.
Qed.

(** What the reads of the parent have shown so far. *)
Definition pipe1_seen (s : pipest) (l : list event) (o : outcome (option pipest)) : Prop :=
  (exists s', o = Returned (Some s') /\ out 1 l = [] /\ u8 <$> inp l = from (pi_seq s) (length (inp l)) /\
     pi_total s' = s32 (pi_total s + Z.of_nat (length (inp l)))) \/
  (o = Returned None /\ out 1 l = line "pipe1 oops 2" /\ u8 <$> inp l <> from (pi_seq s) (length (inp l))).

Lemma pipe1_turn_seen fd s l o : trace (pipe1_turn fd s) l o -> o <> Running ->
  (o = Returned (inr (Some s)) /\ out 1 l = [] /\ inp l = []) \/
  (o = Returned (inr None) /\ out 1 l = line "pipe1 oops 2" /\ u8 <$> inp l <> from (pi_seq s) (length (inp l))) \/
  (exists s', o = Returned (inl s') /\ out 1 l = [] /\ u8 <$> inp l = from (pi_seq s) (length (inp l)) /\
     u8 (pi_seq s') = u8 (pi_seq s + Z.of_nat (length (inp l))) /\ pi_total s' = s32 (pi_total s + Z.of_nat (length (inp l)))).
Proof.
  intros H Ho. apply fin_call in H as (r & l1 & -> & _ & H); [|done..]. destruct (Z.leb_spec (count r) 0) as [Hc|Hc].
  - apply fin_ret in H as [-> ->]; [|done]. left. split; [done|]. split; [done|]. destruct r as [[|b bs]|]; cbn in *; done || lia.
  - destruct r as [bs|]; [|cbn in Hc; lia]. right. cbn [count stored] in H, Hc.
    rewrite Nat2Z.id, take_app_length in H. pose proof (pipe1_check_spec bs (pi_seq s)) as Hs.
    destruct (pipe1_check bs (pi_seq s)) as [q'|].
    + apply fin_ret in H as [-> ->]; [|done]. right. eexists. split; [reflexivity|]. obs. destruct Hs. done.
    + apply fin_print in H as (l2 & l3 & -> & H2 & H); [|done]. apply fin_ret in H as [-> ->]; [|done].
      apply print_out in H2 as [Hw Hi]. left. split; [done|]. obs. rewrite Hw, Hi. cbn [app]. rewrite app_nil_r. split; [reflexivity|done].
Qed.

Lemma pipe1_loop_seen fd s l o : trace (ITree.iter (pipe1_turn fd) s) l o -> o <> Running -> s32 (pi_total s) = pi_total s -> pipe1_seen s l o.
Proof.
  apply (iter_trace (pipe1_turn fd) (fun s l o => o <> Running -> s32 (pi_total s) = pi_total s -> pipe1_seen s l o)).
  - intros s1 s2 l1 l2 o' H IH Ho Ht. apply pipe1_turn_seen in H as [[? _]|[[? _]|(s' & [= <-] & Hout & Hin & Hq & Htot)]]; [done|done| |done].
    assert (Hf : from (pi_seq s1) (length (inp l1 ++ inp l2)) = from (pi_seq s1) (length (inp l1)) ++ from (pi_seq s2) (length (inp l2))).
    { rewrite length_app, from_app. f_equal. symmetry. by apply from_mod. }
    unfold pipe1_seen. rewrite out_app, inp_app, Hout, Hf, fmap_app, Hin. cbn [app].
    destruct IH as [(s' & -> & Ho2 & Hi2 & Ht2)|(-> & Ho2 & Hi2)]; [done|by rewrite Htot, s32_idem|left|right].
    + exists s'. split; [done|]. split; [done|]. split; [by rewrite Hi2|]. rewrite Ht2, Htot, length_app, s32_s32_add. f_equal. lia.
    + split; [done|]. split; [done|]. intros E. apply app_inv_head in E. done.
  - intros s1 b l1 H _ Ht. apply pipe1_turn_seen in H as [(E & Hout & Hin)|[(E & Hout & Hin)|(s' & ? & _)]]; [injection E as ->|injection E as ->|done|done].
    + left. exists s1. rewrite Hin. split_and!; [done..|]. cbn. by rewrite Z.add_0_r.
    + right. done.
  - intros s1 l1 H. by apply pipe1_turn_seen in H as [[? _]|[[? _]|(? & ? & _)]].
  - done.
Qed.

(** The parent says ok when and only when it has read the 5165 bytes. *)
Lemma pipe1_parent_verdict rd wr buf l o : trace (pipe1_parent rd wr buf) l o -> o <> Running ->
  Z.of_nat (length (inp l)) < 2147483648 ->
  (out 1 l = line "pipe1 ok" <-> u8 <$> inp l = from 0 (5 * 1033)).
Proof.
  intros H Ho Hb. apply fin_call in H as (x & l1 & -> & _ & H); [|done..].
  apply fin_bind in H as [(r & l2 & l3 & -> & H2 & H)|[H _]]; [| |done].
  2:{ apply pipe1_loop_seen in H as [(? & ? & _)|[? _]]; done. }
  apply pipe1_loop_seen in H2 as [(s' & [= ->] & Hout & Hin & Ht)|([= ->] & Hout & Hin)]; [| |done..].
  - destruct (Z.eqb_spec (pi_total s') (5 * 1033)) as [E|E]; cbn [negb] in H.
    + apply fin_call in H as (x1 & l4 & -> & _ & H); [|done..]. apply fin_call in H as (x2 & l5 & -> & _ & H); [|done..].
      apply fin_print in H as (l6 & l7 & -> & H6 & H); [|done]. apply fin_ret in H as [-> ->]; [|done]. apply print_out in H6 as [Hw Hi].
      revert Hb. obs. rewrite Hout, Hw, Hi. cbn [app]. rewrite app_nil_r. intros Hb. rewrite Hin. cbn [pi_seq] in *.
      assert (El : length (inp l2) = (5 * 1033)%nat) by (cbn [pi_total] in Ht; rewrite Ht, s32_small in E by lia; lia). rewrite El. done.
    + unfold fail in H. apply fin_print in H as (l4 & l5 & -> & H4 & H); [|done]. apply fin_exit in H as [-> ->]; [|done]. apply print_out in H4 as [Hw Hi].
      revert Hb. obs. rewrite Hout, Hw, Hi. cbn [app]. rewrite app_nil_r. intros Hb. split.
      * intros Ek. apply (f_equal (fun l => nth 7 l 0)) in Ek. lazy in Ek. discriminate.
      * intros Ek. destruct E. apply (f_equal length) in Ek. rewrite length_fmap, from_length in Ek. cbn [pi_total] in Ht.
        rewrite Ht, s32_small by lia. lia.
  - apply fin_ret in H as [-> ->]; [|done]. obs. rewrite Hout. split; [done|]. intros Ek. destruct Hin. cbn [pi_seq].
    pose proof Ek as El. apply (f_equal length) in El. rewrite length_fmap, from_length in El. by rewrite El.
Qed.

(** The child writes the bytes of the counter. *)
Lemma pipe1_round_trace w q buf l o : w <> 1 -> trace (pipe1_round w (q, buf)) l o -> o <> Running ->
  (exists buf', o = Returned (q + 1033, buf') /\ out 1 l = [] /\ out w l = from q 1033) \/ (o = Exited /\ out 1 l <> []).
Proof.
  intros Hw H Ho. unfold pipe1_round in H. fold (from q 1033) in H. rewrite take_app_length' in H by (symmetry; apply from_length).
  apply fin_call in H as (r & l1 & -> & _ & H); [|done..]. assert (E1 : (1 =? w) = false) by (apply Z.eqb_neq; congruence).
  destruct (negb (r =? 1033)).
  - right. unfold fail in H. apply fin_print in H as (l2 & l3 & -> & H2 & H); [|done]. apply fin_exit in H as [-> ->]; [|done].
    apply print_out in H2 as [Ht _]. split; [done|]. rewrite out_cons, out_app, Ht. cbn [ev_out]. by rewrite E1.
  - left. apply fin_ret in H as [-> ->]; [|done]. eexists. split; [reflexivity|]. rewrite !out_cons. cbn [ev_out out flat_map].
    by rewrite E1, Z.eqb_refl, !app_nil_r.
Qed.

Lemma pipe1_rounds w n : forall i q buf l o, w <> 1 -> trace (for_loop i n (fun _ => pipe1_round w) (q, buf)) l o -> o <> Running ->
  (exists st, o = Returned st /\ out 1 l = [] /\ out w l = from q (n * 1033)) \/ (o = Exited /\ out 1 l <> []).
Proof.
  induction n as [|n IH]; intros i q buf l o Hw H Ho; cbn [for_loop] in H.
  - apply fin_ret in H as [-> ->]; [|done]. left. by eexists.
  - apply fin_bind in H as [([q' buf'] & l1 & l2 & -> & H1 & H2)|[H ->]]; [| |done].
    + apply pipe1_round_trace in H1 as [(b1 & [= -> ->] & Ho1 & Hw1)|[? _]]; [|done..].
      apply IH in H2 as [(st & -> & Ho2 & Hw2)|[-> Ho2]]; [left|right|done..].
      * exists st. split; [done|]. rewrite !out_app, Ho1, Ho2, Hw1, Hw2. split; [done|]. change (S n * 1033)%nat with (1033 + n * 1033)%nat.
        by rewrite from_app.
      * split; [done|]. by rewrite out_app, Ho1.
    + right. by apply pipe1_round_trace in H as [(? & ? & _)|[_ ?]].
Qed.

Lemma pipe1_child_writes w buf l : w <> 1 -> trace (pipe1_child w buf) l Exited -> out 1 l = [] -> out w l = from 0 (5 * 1033).
Proof.
  intros Hw H Hc. apply fin_bind in H as [(st & l1 & l2 & -> & H1 & H2)|[H _]]; [| |done].
  - apply fin_exit in H2 as [-> _]; [|done]. rewrite app_nil_r in *.
    by apply pipe1_rounds in H1 as [(? & _ & _ & ?)|[? _]].
  - by apply pipe1_rounds in H as [(? & ? & _)|[_ ?]].
Qed.

(** C34: pipe1 judges the pipe rightly.  When the child's writes were accepted
    and the parent is done, the parent has said "pipe1 ok" exactly when the
    bytes it read are the bytes the child wrote, whatever the pieces in which
    the pipe delivered them. *)
Theorem pipe1_verdict rd wr buf lc lp o :
  wr <> 1 -> trace (pipe1_child wr buf) lc Exited -> out 1 lc = [] ->
  trace (pipe1_parent rd wr buf) lp o -> o <> Running -> Z.of_nat (length (inp lp)) < 2147483648 ->
  (out 1 lp = line "pipe1 ok" <-> u8 <$> inp lp = out wr lc).
Proof.
  intros Hw Hc Hq Hp Ho Hb. rewrite (pipe1_child_writes wr buf lc Hw Hc Hq). by eapply pipe1_parent_verdict.
Qed.

(** Every way of cutting the stream into pieces that fit is read to its end. *)
Fixpoint fits (cc : Z) (chunks : list (list Z)) : Prop :=
  match chunks with
  | [] => True
  | c :: cs => 0 < Z.of_nat (length c) <= cc /\ fits (if BUF <? cc * 2 then BUF else cc * 2) cs
  end.

Fixpoint pipe_reads (fd cc : Z) (chunks : list (list Z)) : list event :=
  match chunks with
  | [] => [Ev (Read fd cc) (Some [])]
  | c :: cs => Ev (Read fd cc) (Some c) :: pipe_reads fd (if BUF <? cc * 2 then BUF else cc * 2) cs
  end.

Lemma pipe1_reads fd chunks : forall s, 0 <= pi_cc s -> fits (pi_cc s) chunks ->
  u8 <$> concat chunks = from (pi_seq s) (length (concat chunks)) ->
  exists s', trace (ITree.iter (pipe1_turn fd) s) (pipe_reads fd (pi_cc s) chunks) (Returned (Some s')).
Proof.
  induction chunks as [|c cs IH]; intros s Hcc Hf Hs; cbn [pipe_reads concat fits] in *.
  - exists s. apply loop_done. eapply (trace_call_intro (Read fd (pi_cc s)) _ (Some [])); [exact Hcc|]. by apply TrRet.
  - destruct Hf as [Hc Hf]. rewrite fmap_app, length_app, from_app in Hs. apply app_inj_1 in Hs as [H1 H2]; [|by rewrite length_fmap, from_length].
    pose proof (pipe1_check_spec c (pi_seq s)) as Hk. destruct (pipe1_check c (pi_seq s)) as [q'|] eqn:Ek; [|done]. destruct Hk as [_ Hq].
    set (s1 := mkPipest q' (s32 (pi_total s + Z.of_nat (length c))) (if BUF <? pi_cc s * 2 then BUF else pi_cc s * 2) (c ++ drop (length c) (pi_buf s))).
    destruct (IH s1) as [s' H]; [cbn; unfold BUF; zif; lia|done|by rewrite H2; apply from_mod|].
    exists s'. apply (loop_again (pipe1_turn fd) s s1 [Ev (Read fd (pi_cc s)) (Some c)]); [|exact H].
    eapply (trace_call_intro (Read fd (pi_cc s)) _ (Some c)); [cbn; lia|]. cbn [count stored].
    zif; [lia|]. rewrite Nat2Z.id, take_app_length, Ek. by apply TrRet.
Qed.

Lemma pipe_reads_inp fd chunks : forall cc, inp (pipe_reads fd cc chunks) = concat chunks.
Proof. induction chunks as [|c cs IH]; intros cc; cbn [pipe_reads concat]; [done|]. by rewrite inp_cons, IH. Qed.

Lemma fits_single bs : forall cc, 1 <= cc -> fits cc ((fun b => [b]) <$> bs).
Proof. induction bs as [|b bs IH]; intros cc Hc; cbn; [done|]. split; [lia|]. apply IH. unfold BUF. zif; lia. Qed.

Lemma concat_single (bs : list Z) : concat ((fun b => [b]) <$> bs) = bs.
Proof. induction bs as [|b bs IH]; [done|]. cbn. by f_equal. Qed.

Lemma u8_from q n : u8 <$> from q n = from q n.
Proof. unfold from. rewrite <- list_fmap_compose. apply list_fmap_ext. intros i x _. cbn. unfold u8. by rewrite Z.mod_mod. Qed.

(** A pipe that delivers the stream lets pipe1 pass. *)
Lemma pipe1_passes rd wr buf chunks : fits 1 chunks -> u8 <$> concat chunks = from 0 (5 * 1033) ->
  exists l b, trace (pipe1_parent rd wr buf) l (Returned b) /\ inp l = concat chunks.
Proof.
  intros Hf Hs. assert (Hl : length (concat chunks) = (5 * 1033)%nat) by (rewrite <- (length_fmap u8), Hs; apply from_length).
  destruct (pipe1_reads rd chunks (mkPipest 0 0 1 buf)) as [s' H]; [done|done|by rewrite Hl|].
  pose proof H as Hk. apply pipe1_loop_seen in Hk as [(s1 & [= <-] & _ & _ & Ht)|[? _]]; [|done..].
  cbn [pi_cc pi_total] in *. rewrite pipe_reads_inp, Hl, s32_small in Ht by lia.
  eexists (Ev (Close wr) 0 :: pipe_reads rd 1 chunks ++ Ev (Close rd) 0 :: Ev Wait 0 :: map (fun c => Ev (Write 1 [c]) 1) (line "pipe1 ok")), _.
  split.
  - eapply (trace_call_intro (Close wr)); [done|]. eapply trace_bind_intro; [exact H|]. cbv beta iota. rewrite Ht.
    eapply (trace_call_intro (Close rd)); [done|]. eapply (trace_call_intro Wait); [done|].
    rewrite <- (app_nil_r (map _ _)). eapply trace_bind_intro; [apply (puts_trace 1 (line "pipe1 ok"))|]. by apply TrRet.
  - rewrite inp_cons, inp_app, pipe_reads_inp. apply app_nil_r.
Qed.

Lemma pipe1_rounds_run w n : forall i st, exists l st', trace (for_loop i n (fun _ => pipe1_round w) st) l (Returned st') /\ (w <> 1 -> out 1 l = []).
Proof.
  induction n as [|n IH]; intros i [q buf]; cbn [for_loop]; [by eexists [], _; split; [by apply TrRet|]|].
  edestruct (IH (i + 1)) as (l & st' & H & Ho). eexists ([Ev (Write w _) 1033] ++ l), st'. split.
  - eapply trace_bind_intro; [|exact H]. eapply (trace_call_intro (Write w _) _ 1033); [done|]. by apply TrRet.
  - intros Hw. rewrite out_app, (Ho Hw). cbn [ev_out out flat_map]. destruct (Z.eqb_spec 1 w); [congruence|done].
Qed.

Lemma pipe1_child_runs w buf : exists l, trace (pipe1_child w buf) l Exited /\ (w <> 1 -> out 1 l = []).
Proof.
  destruct (pipe1_rounds_run w 5 0 (0, buf)) as (l & st & H & Ho). exists (l ++ []). rewrite app_nil_r. split; [|done].
  rewrite <- (app_nil_r l). eapply trace_bind_intro; [exact H|apply trace_exit_intro].
Qed.

Lemma pipe1_verdict_witness : exists lc lp b,
  trace (pipe1_child 4 []) lc Exited /\ trace (pipe1_parent 3 4 []) lp (Returned b) /\ out 1 lp = line "pipe1 ok".
Proof.
  destruct (pipe1_child_runs 4 []) as (lc & Hc & Hq).
  destruct (pipe1_passes 3 4 [] ((fun b => [b]) <$> from 0 (5 * 1033))) as (lp & b & Hp & Hi); [by apply fits_single| |].
  { by rewrite concat_single, u8_from. }
  rewrite concat_single in Hi. exists lc, lp, b. split; [exact Hc|]. split; [exact Hp|].
  apply (pipe1_verdict 3 4 [] lc lp (Returned b)); [done|exact Hc|by apply Hq|exact Hp|done|rewrite Hi, from_length; lia|].
  by rewrite Hi, u8_from, (pipe1_child_writes 4 [] lc) by (done || by apply Hq).
Defined.

(** ** What the tests let through *)

(** A wrong byte ends pipe1, but main goes on to the next test. *)
Lemma pipe1_returns_after_oops rd wr buf :
  exists l, trace (pipe1_parent rd wr buf) l (Returned buf) /\ out 1 l = line "pipe1 oops 2".
Proof.
  exists (Ev (Close wr) 0 :: (Ev (Read rd 1) (Some [7]) :: map (fun c => Ev (Write 1 [c]) 1) (line "pipe1 oops 2")) ++ []). split.
  - eapply (trace_call_intro (Close wr)); [done|].
    eapply (trace_bind_intro _ _ _ (None : option pipest)); [|by apply TrRet].
    apply loop_done. eapply (trace_call_intro (Read rd 1) _ (Some [7])); [done|].
    rewrite <- (app_nil_r (map _ _)). eapply trace_bind_intro; [apply (puts_trace 1 (line "pipe1 oops 2"))|]. by apply TrRet.
  - rewrite app_nil_r. reflexivity.
Qed.

(** writetest1 looks for [MAXFILE - 1] blocks only: a file that reads back
    empty is accepted. *)
Lemma writetest1_takes_empty fd buf :
  trace (ITree.iter (writetest1_turn fd) (0, buf)) [Ev (Read fd 512) (Some [])] (Returned buf).
Proof. apply loop_done. eapply (trace_call_intro (Read fd 512) _ (Some [])); [done|]. by apply TrRet. Qed.

(** Code no event of which breaks [P]. *)
Definition respects {R} (P : event -> Prop) (t : itree sysE R) : Prop := forall l o, trace t l o -> o <> Running -> Forall P l.

Section respects.
Context (P : event -> Prop).

Lemma respects_ret {R} (r : R) : respects P (Ret r).
Proof. intros l o H Ho. apply fin_ret in H as [-> _]; [|done]. by apply Forall_nil. Qed.

Lemma respects_exit {R} : respects P (exit : itree sysE R).
Proof. intros l o H Ho. apply fin_exit in H as [-> _]; [|done]. by apply Forall_nil. Qed.

Lemma respects_call {X R} (e : sysE X) (k : X -> itree sysE R) :
  not_exit e -> (forall x, P (Ev e x)) -> (forall x, respects P (k x)) -> respects P (ITree.bind (call e) k).
Proof.
  intros He Hp Hk l o H Ho. apply fin_call in H as (x & l' & -> & _ & H); [|done..]. apply Forall_cons; split; [apply Hp|].
  exact (Hk x _ _ H Ho).
Qed.

Lemma respects_bind {X R} (t : itree sysE X) (k : X -> itree sysE R) :
  respects P t -> (forall x, respects P (k x)) -> respects P (ITree.bind t k).
Proof.
  intros Ht Hk l o H Ho. apply fin_bind in H as [(x & l1 & l2 & -> & H1 & H2)|[H ->]]; [| |done].
  - apply Forall_app; split; [by apply (Ht _ _ H1)|exact (Hk x _ _ H2 Ho)].
  - by apply (Ht _ _ H).
Qed.

Lemma respects_for {S} (body : Z -> S -> itree sysE S) n : forall i s,
  (forall i s, respects P (body i s)) -> respects P (for_loop i n body s).
Proof. induction n as [|n IH]; intros i s Hb; cbn [for_loop]; [apply respects_ret|]. apply respects_bind; [apply Hb|]. intros. by apply IH. Qed.

Lemma respects_printf fd fmt args : (forall c x, P (Ev (Write fd [c]) x)) -> respects P (printf fd fmt args).
Proof.
  intros Hw. unfold printf. induction (format fmt args) as [|c text IH]; cbn [puts]; [apply respects_ret|].
  apply respects_call; [done|apply Hw|done].
Qed.
End respects.

Ltac respects_step :=
  match goal with
  | |- respects _ (Ret _) => apply respects_ret
  | |- respects _ exit => apply respects_exit
  | |- respects _ (printf _ _ _) => apply respects_printf; done
  | |- respects _ (for_loop _ _ _ _) => apply respects_for; intros ? ?
  | |- respects _ (ITree.bind (ITree.trigger _) _) => apply respects_call; [done|intros ?; try done|intros ?]
  | |- respects _ (ITree.bind _ _) => apply respects_bind; [|intros ?]
  | |- respects _ (if ?b then _ else _) => destruct b eqn:?
  | |- respects _ (match ?x with _ => _ end) => destruct x
  | |- respects _ ?t => let h := head_of t in unfold h
  end.

(** Each of its four processes creates twenty files; the last loop names the
    file [i] of process [i], and so never the file 0 of process 1. *)
Lemma createdelete_leaves_q0 :
  respects (fun ev => forall r, ev <> Ev (Unlink (cd_name 1 0)) r) createdelete.
Proof.
  repeat respects_step; intros r E; apply (f_equal (fun ev => match ev with Ev e _ => match e with Unlink p => p | _ => [] end end)) in E;
    injection E; intros; repeat match goal with H : _ && _ = true |- _ => apply andb_true_iff in H as [? ?] end; zlia.
Qed.

(** ** app_mono_mem.c: a heap benchmark

    The program allocates and frees sixty blocks of six sizes in rounds, here
    over malloc() and free() as events.  It uses the heap as UmallocSpec asks of
    a program: it frees only blocks it holds, each once, and leaves with ten
    blocks of every size. *)

From stdpp Require Import gmultiset.

Open Scope Z_scope.

Definition OBJ0 : Z := 5122.
Definition OBJ1 : Z := 4096.
Definition OBJ2 : Z := 200.
Definition OBJ3 : Z := 100.
Definition OBJ4 : Z := 20.
Definition OBJ5 : Z := 6.
Definition NUM : nat := 10.

(** [for(i = 0; i < NUM; i++) obj[i] = malloc(size);] *)
Definition allocate (size : Z) : itree sysE (list Z) :=
  for_loop 0 NUM (fun _ obj => let* p := call (Malloc size) in Ret (obj ++ [p])) [].

(** [for(i = 0; i < NUM; i++) free(obj[i]);] *)
Definition deallocate (obj : list Z) : itree sysE unit :=
  for_loop 0 NUM (fun i _ => go call (Free (nth (Z.to_nat i) obj 0)); Ret tt) tt.

Definition mono_mem_main : itree sysE Empty_set :=
  let* obj0 := allocate OBJ0 in
  let* obj1 := allocate OBJ1 in
  let* obj2 := allocate OBJ2 in
  let* obj3 := allocate OBJ3 in
  let* obj4 := allocate OBJ4 in
  let* obj5 := allocate OBJ5 in
  go deallocate obj2;
  go deallocate obj1;
  go deallocate obj3;
  go deallocate obj5;
  let* obj3 := allocate OBJ3 in
  let* obj1 := allocate OBJ1 in
  let* obj5 := allocate OBJ5 in
  let* obj2 := allocate OBJ2 in
  go deallocate obj1;
  go deallocate obj4;
  go deallocate obj0;
  let* obj0 := allocate OBJ0 in
  let* obj1 := allocate OBJ1 in
  let* obj4 := allocate OBJ4 in
  exit.

(** ** The blocks the program holds *)

Definition held_step (X : option (gmultiset Z)) (ev : event) : option (gmultiset Z) :=
  match X, ev with
  | Some X, Ev e x =>
      match e in sysE T return T -> option (gmultiset Z) with
      | Malloc _ => fun p => Some (X ⊎ {[+ p +]})
      | Free p => fun _ => if decide (p ∈ X) then Some (X ∖ {[+ p +]}) else None
      | _ => fun _ => Some X
      end x
  | None, _ => None
  end.
Definition holds (l : list event) (X : option (gmultiset Z)) : option (gmultiset Z) := fold_left held_step l X.

Lemma holds_app l k X : holds (l ++ k) X = holds k (holds l X).
Proof. apply fold_left_app. Qed.

(** [t] goes from the blocks [X] to blocks [Y] when it returns, or exits with
    blocks that satisfy [E]. *)
Definition heapy {R} (E : gmultiset Z -> Prop) (X : gmultiset Z) (t : itree sysE R) (Y : R -> gmultiset Z -> Prop) : Prop :=
  forall l o, trace t l o -> o <> Running -> exists X', holds l (Some X) = Some X' /\
    match o with Returned r => Y r X' | _ => E X' end.

Section heapy.
Context (E : gmultiset Z -> Prop).

Lemma heapy_ret {R} X (r : R) (Y : R -> gmultiset Z -> Prop) : Y r X -> heapy E X (Ret r) Y.
Proof. intros Hy l o H Ho. apply fin_ret in H as [-> ->]; [|done]. by exists X. Qed.

Lemma heapy_exit {R} X (Y : R -> gmultiset Z -> Prop) : E X -> heapy E X exit Y.
Proof. intros He l o H Ho. apply fin_exit in H as [-> ->]; [|done]. by exists X. Qed.

Lemma heapy_bind {A R} X (t : itree sysE A) (k : A -> itree sysE R) Y Y' :
  heapy E X t Y -> (forall r X', Y r X' -> heapy E X' (k r) Y') -> heapy E X (ITree.bind t k) Y'.
Proof.
  intros Ht Hk l o H Ho. apply fin_bind in H as [(a & l1 & l2 & -> & H1 & H2)|[H ->]]; [| |done].
  - destruct (Ht _ _ H1) as (X1 & E1 & Hy); [done|]. destruct (Hk _ _ Hy _ _ H2) as (X2 & E2 & Hy'); [done|]. exists X2. by rewrite holds_app, E1.
  - destruct (Ht _ _ H) as (X1 & E1 & Hy); [done|]. by exists X1.
Qed.

Lemma heapy_call {A R} X (e : sysE A) (k : A -> itree sysE R) Y : not_exit e ->
  (forall x, exists X', held_step (Some X) (Ev e x) = Some X' /\ heapy E X' (k x) Y) -> heapy E X (ITree.bind (call e) k) Y.
Proof.
  intros He Hk l o H Ho. apply fin_call in H as (x & l' & -> & _ & H); [|done..]. destruct (Hk x) as (X' & Ex & Hh).
  destruct (Hh _ _ H Ho) as (X2 & E2 & Hy). exists X2. split; [|done]. cbn [holds fold_left]. by rewrite Ex.
Qed.

Lemma allocate_heapy size X :
  heapy E X (allocate size) (fun obj X' => length obj = NUM /\ X' = X ⊎ list_to_set_disj obj).
Proof.
  assert (Hl : forall n i acc X, heapy E X (for_loop i n (fun _ obj => let* p := call (Malloc size) in Ret (obj ++ [p])) acc)
    (fun obj X' => exists new, obj = acc ++ new /\ length new = n /\ X' = X ⊎ list_to_set_disj new)).
  { clear X. induction n as [|n IH]; intros i acc X; cbn [for_loop].
    - apply heapy_ret. exists []. rewrite app_nil_r. split; [done|]. split; [done|]. rewrite list_to_set_disj_nil. multiset_solver.
    - apply (heapy_bind _ _ _ (fun r X' => exists p, r = acc ++ [p] /\ X' = X ⊎ {[+ p +]})).
      + apply heapy_call; [done|]. intros p. eexists. split; [reflexivity|]. apply heapy_ret. by exists p.
      + intros r X' (p & -> & ->). intros l o H Ho. destruct (IH _ _ (X ⊎ {[+ p +]}) _ _ H Ho) as (X2 & E2 & Hy). exists X2. split; [done|].
        destruct o as [|r|]; [done| |done]. destruct Hy as (new & -> & Hn & ->). exists (p :: new). rewrite <- app_assoc. split; [done|].
        split; [cbn; lia|]. rewrite list_to_set_disj_cons. multiset_solver. }
  intros l o H Ho. destruct (Hl _ _ _ X _ _ H Ho) as (X2 & E2 & Hy). exists X2. split; [done|]. destruct o as [|r|]; [done| |done].
  by destruct Hy as (new & -> & Hn & ->).
Qed.

Lemma deallocate_heapy obj W : length obj = NUM ->
  heapy E (W ⊎ list_to_set_disj obj) (deallocate obj) (fun _ X' => X' = W).
Proof.
  intros Hn. assert (Hl : forall rest i, 0 <= i -> drop (Z.to_nat i) obj = rest ->
    heapy E (W ⊎ list_to_set_disj rest) (for_loop i (length rest) (fun i _ => go call (Free (nth (Z.to_nat i) obj 0)); Ret tt) tt) (fun _ X' => X' = W)).
  { induction rest as [|p rest IH]; intros i Hi Hd; cbn [for_loop length].
    - apply heapy_ret. rewrite list_to_set_disj_nil. multiset_solver.
    - assert (Hp : nth (Z.to_nat i) obj 0 = p).
      { rewrite nth_lookup, <- (Nat.add_0_r (Z.to_nat i)), <- lookup_drop, Hd. done. }
      apply (heapy_bind _ _ _ (fun _ X' => X' = W ⊎ list_to_set_disj rest)).
      + apply heapy_call; [done|]. intros x. rewrite Hp. cbn [held_step]. rewrite list_to_set_disj_cons. exists (W ⊎ list_to_set_disj rest).
        split; [rewrite decide_True by multiset_solver; f_equal; multiset_solver|]. by apply heapy_ret.
      + intros [] X' ->. apply IH; [lia|]. rewrite Z2Nat.inj_add, <- drop_drop, Hd by lia. done. }
  specialize (Hl obj 0 ltac:(done) eq_refl). by rewrite Hn in Hl.
Qed.

Lemma deallocate_held obj X : length obj = NUM -> list_to_set_disj obj ⊆ X ->
  heapy E X (deallocate obj) (fun _ X' => X = X' ⊎ list_to_set_disj obj).
Proof.
  intros Hn Hs. assert (EX : X = (X ∖ list_to_set_disj obj) ⊎ list_to_set_disj obj) by multiset_solver.
  set (W := X ∖ list_to_set_disj obj) in EX. clearbody W. subst X.
  intros l o H Ho. destruct (deallocate_heapy obj W Hn _ _ H Ho) as (X' & Ex & Hy). exists X'. split; [exact Ex|].
  destruct o as [|r|]; [done|by subst X'|done].
Qed.
End heapy.

Lemma size_list (l : list Z) : size (list_to_set_disj l : gmultiset Z) = length l.
Proof.
  induction l as [|x l IH]; [done|]. rewrite list_to_set_disj_cons, gmultiset_size_disj_union, gmultiset_size_singleton, IH. done.
Qed.

(** The program frees only blocks it holds, each once, and exits with the sixty
    blocks of its last round. *)
Theorem mono_mem_heap l o : trace mono_mem_main l o -> o <> Running ->
  exists X, holds l (Some ∅) = Some X /\ size X = 60%nat.
Proof.
  intros H Ho. assert (Hh : heapy (fun X => size X = 60%nat) ∅ mono_mem_main (fun r _ => match r : Empty_set with end)).
  2:{ destruct (Hh l o H Ho) as (X & E & Hx). exists X. split; [done|]. by destruct o as [|[]|]. }
  unfold mono_mem_main.
  do 6 (eapply heapy_bind; [apply allocate_heapy|]; intros ? ? [? ->]).
  do 4 (eapply heapy_bind; [apply deallocate_held; [done|multiset_solver]|]; intros [] ? ?).
  do 4 (eapply heapy_bind; [apply allocate_heapy|]; intros ? ? [? ->]).
  do 3 (eapply heapy_bind; [apply deallocate_held; [done|multiset_solver]|]; intros [] ? ?).
  do 3 (eapply heapy_bind; [apply allocate_heapy|]; intros ? ? [? ->]).
  apply heapy_exit. repeat match goal with E : _ = _ ⊎ _ |- _ => apply (f_equal size) in E end.
  rewrite !gmultiset_size_disj_union, !size_list, ?gmultiset_size_empty in *. unfold NUM in *. lia.
Qed.
